(* ===== verification/_CoqProject ===== *)
-Q . S2P
Prelude.v
UserMemory.v
KernelContext.v
BinderWire.v
Pending.v
PendingFacts.v
Parcel.v
Reply.v
Stream.v
Handler.v
Interception.v
EventReport.v
Aarch64.v
ContextLayout.v
Emitted.v
EmittedPop.v
EmittedScan.v
EmittedPush.v
EmittedRecord.v
EmittedMatch.v
EmittedCapture.v
Lock.v
Slots.v
ContextLife.v
SlotRace.v
Checksum.v
Sha256.v
Posix.v
AtomicFile.v
Records.v
RuntimeControl.v
RuntimeProfile.v
HalIdentity.v
ControlIpc.v
SocketIo.v
Monitor.v
ControlServer.v
ControlClient.v
HookSite.v
Resolver.v
Release.v
CapabilityRecord.v
Startup.v
DaemonLock.v
FileLifecycle.v
OriginalFingerprint.v
WebSession.v
WebUi.v
JsonText.v
Applied.v
Returns.v
ModuleProbe.v
ModuleMain.v
Printed.v
Probes.v
