(* ===== verification/Prelude.v ===== *)
(** * The kernel-side virtualizer of the Widevine device identifier

    ** The program

    A daemon running as root inserts a hook into the kernel's Binder driver.  The
    hook replaces, in the replies of the Widevine HAL processes to
    getPropertyByteArray("deviceUniqueId"), the 32 bytes of the device's identifier
    by a virtual one.  Five parts work together:

    - the handler, AArch64 code that src/binder_hook_builder.cpp emits and the kernel
      runs at every ioctl of the driver.  It parses the stream of commands of the HAL
      threads, remembers the requests a thread has received in a pending table, and
      rewrites the reply the same thread sends.  All its state is the shared context
      of src/kernel_context.h;
    - the daemon's operations on that context: installation, publication of a
      configuration or of the set of HAL processes through the inactive one of two
      slots, snapshot, removal (src/binder_hook_builder.cpp);
    - the platform resolver, which finds the driver's ioctl from an open descriptor
      and decides whether it may be hooked (src/binder_ioctl_resolver.cpp);
    - the daemon: seed and derived identifier (src/runtime_profile.cpp), the control
      file (src/runtime_control.cpp), discovery and monitoring of the HAL processes
      (src/hal_identity.cpp, src/control_ipc.cpp), the control socket
      (src/control_ipc.cpp), the wait for a quiet system (src/startup_readiness.cpp),
      lock file and cleanup (src/file_lifecycle.cpp), the fingerprint of the device's
      own identifier (src/device_id_fingerprint.cpp);
    - the web interface, which writes the control file and tells the daemon to read
      it (src/web_ui.cpp).

    ** The library

    Shared:
    - Prelude: machine integers as [Z] with their wrap, function update, tactics.
    - Posix: the calls on files.  [OperatingSystem] decides which calls fail or
      transfer less; [World] keeps every state the files went through; [io] is the
      daemon's monad, [wp] its weakest precondition; the transfer loops.
    - AtomicFile: writing a temporary file and renaming it, once for all writers.
    - Records: the class of C records, as bytes.
    - Checksum, Sha256: CRC-32, FNV-1a; SHA-256, HMAC, HKDF, with reference forms.

    The handler, in the state monad [HM] over the context and user memory:
    - UserMemory: copy_from_user and copy_to_user as a class, and an address space.
    - KernelContext: kernel_context.h, and the monad.
    - BinderWire: the layouts of the driver's interface.
    - Pending, PendingFacts: emit_pending_push and emit_pending_pop, refined against
      one stack per thread.
    - Parcel: emit_match_*, emit_property_search, emit_capture_parcel_prefix.
    - Reply: emit_parse_hal_correlated_reply, emit_replace_reply.
    - Stream: emit_parse_command_stream, emit_record_transaction, the event ring.
    - Handler: the handler as a whole.  Interception: a request and its reply.
    - EventReport: print_recent_events, the daemon's reader of the event ring.
    - Lock: the table's try-lock as steps of concurrent threads.

    The same handler one level below, as the instructions src/binder_hook_builder.cpp
    emits:
    - Aarch64: the instructions it uses, over registers, flags and typed cells of
      memory, as a step relation and an interpreter, and the rules to compose code.
    - ContextLayout: the offsets of kernel_context.h and of the driver's structures,
      that no two cells overlap, and what it means that the memory contains a context.
    - Emitted: the code of the gate, of the captures, of the lock and of the bucket of
      a thread.  EmittedPop, EmittedScan, EmittedPush, EmittedRecord: the code of
      emit_pending_pop, of the search for a slot, of emit_pending_push, and the tail
      of emit_record_transaction with its event.  EmittedMatch, EmittedCapture: the
      code of the string matchers, and of emit_capture_parcel_prefix with its call of
      copy_from_user.

    The context from the daemon's side, in the monad [kio] over kernel memory, where
    a call that reports an error may have left anything behind:
    - Slots: install_readonly_parser_hook, publish_*, read_counter_snapshot,
      remove_readonly_parser_hook.  SlotRace: readers and the publisher at once.
    - ContextLife: the context from its installation on, through any sequence of calls
      of the handler and publications.

    The daemon, in [io] for files and [kio] for the kernel:
    - RuntimeControl, RuntimeProfile, OriginalFingerprint, CapabilityRecord: one file
      format each, with its operations.
    - HookSite, Resolver, Release: the resolver.
    - HalIdentity, Monitor: discovery and monitoring.
    - ControlIpc, SocketIo, ControlServer, ControlClient: the socket's records, its
      transfers and its endpoint, the server's loop, the client's request.
    - Startup: the wait before the installation.
    - DaemonLock: the lock file as steps of concurrent processes.
    - FileLifecycle: the cleanups, over a tree of files.
    - WebSession, WebUi: sessions as interleaved events; the requests.
    - JsonText: the texts of the replies, and a reader of JSON.  Printed: the lines a run
      prints, as calls of printf.
    - Applied: web interface, control file, server and context put together.
    - Returns: when an [io] computation comes to its end.
    - ModuleProbe: run_readonly_parser_probe, the run of the daemon as stages that end
      early, with a log of what it does to the kernel and to the Binder descriptor.
    - ModuleMain: skroot_module_main and module_on_uninstall (the loader, the daemon
      under its lock), and main of src/runner_main.cpp.
    - Probes: the four diagnostic programs (src/aidl_drm_probe.cpp,
      src/aidl_drm_generated_probe.cpp, src/media_drm_probe.cpp,
      src/tools/oemcrypto_direct_probe.cpp): settings, comparison, verdict, and the
      Binder objects of the first.

    Every definition that models code is preceded by a comment with the lines it
    models.  A definition carries the code's name where it models a whole function,
    and otherwise names the part of it.

    ** What is shown

    - The interception does its work and nothing else: Interception, Reply and
      Handler.  A remembered request is answered with the active identifier, as long
      as nobody contends for the pending table ([contended_reply_unreplaced]); a reply
      changes at its 32 identifier bytes only, and only in write mode; the original
      ioctl always runs once, and the caller gets its result.
    - The parser is exact and total: Stream, Parcel.
    - The pending table is a stack per task address, under any interleaving, and a
      thread that does not get its lock leaves it alone: Pending*, Lock.
    - The instructions emitted for the gate, for recognising a request, for taking one
      and for recording a transaction end in the state that the operations in [HM]
      compute, from any memory that contains the context: [emitted_gate_refines],
      [emitted_capture_refines], [emitted_pop_refines], [emitted_record_refines].
    - Configurations and identity sets are published whole: Slots, SlotRace.
    - The context is well formed for as long as it lives: ContextLife.
    - A file is at every moment the old one or the complete new one, what was stored
      is what is read, and damage is noticed: RuntimeControl, RuntimeProfile,
      CapabilityRecord, OriginalFingerprint, over AtomicFile.
    - The derivation of the identifier is HKDF-SHA-256, and stable: Sha256,
      RuntimeProfile.
    - Only a known entry in a known place is hooked, at the address its branch leads
      to: HookSite, Resolver, Release.
    - The gate follows the HAL processes, and is closed when the daemon is done:
      HalIdentity, Monitor, ControlServer.
    - A daemon that has the named lock file keeps later ones out, there is one web
      session at a time, and what an interrupted run leaves is collected: DaemonLock,
      WebSession, FileLifecycle.
    - Requests of the web interface change what their form asks for: WebUi.  An
      application answered with success is in the context the handler reads: Applied.
      Every reply with a body is a JSON object that shows the values: JsonText.
    - A request over the control socket arrives in whatever pieces it travels, and the
      endpoint is taken down again: ControlClient, ControlServer.
    - What is printed shows the newest events, and every line is defined: EventReport,
      Printed.
    - The verdict of a probe is what the readings say, and it releases its objects:
      Probes.
    - A run of the daemon installs the hook only behind all the gates, and when it ends
      has removed it or reports that it could not: ModuleProbe.  It works only with the
      lock, and with the key its loader was given: ModuleMain.

    Some lemmas show where the code falls short of its intent (two daemons that hold
    the lock, a torn read under two publications, a gate left open by a write that
    takes effect and fails); they are next to the theorem whose hypothesis excludes
    the case.

    ** Bounds and fuel

    - The parser takes 129 rounds: the code stops at 128 commands, and
      [parse_stream_terminates] shows that the fuel never runs out.
    - A transfer loop of [n] bytes on a system that answers one of any [B] calls makes
      at most [B * (n + 1)] calls; [responsive] is that hypothesis, and the theorems
      that need it ask for so much fuel: [B * 161] for a request of the web interface,
      [B * 201] for one over the control socket.  The loop of the code has no bound.
    - HKDF is bounded by 255 blocks as in the code, with 256 rounds.
    - The wait before installation ends within 600 samples ([startup_wait_ends]).
    - The server's loop has no bound.  It runs over a list of what happens in each
      iteration, and has no result ([None]) when it goes on behind the list; it ends
      when the list holds a [last_visit].  So do the runs of the daemon that contain
      it: [probe_hooks_behind_gates] and [daemon_runs_locked] say when they end.
    - The wait for the boot takes at most 1202 rounds: at most 600 s in steps of
      500 ms.  The observation window polls at least every millisecond, so one round
      for each and one more are enough.
    - The file operations of a run take [B * 300] calls when the system answers one of
      any [B]: no transfer of a run is as long as 299 bytes.

    ** Parameters

    Code outside src/: the SDK's kernel memory, hook and execution calls (outcomes in
    [kio], and the resolver's reads), copy_from_user and copy_to_user, the original
    ioctl, the DRM framework's query, the HTTP library's form parser, and which system
    calls fail.  Each theorem over them has a concrete instance in its witness.

    ** Not modelled

    - The short progress messages of src/module_main.cpp, and run_root_cmd and system,
      which it uses to make the HAL run: what the handler sees of the rest of the
      system is the parameter [en_traffic].  The management actions of
      src/runner_main.cpp are calls of the SDK, and only named.
    - In a run of the daemon the cleanups see a tree of regular files, and each is one
      step of the file system's history.
    - The server thread of the web interface, which is the SDK's.
    - The emitted code of the reply's parser and of the replacement, of the stream
      parser's loop and of the copies of the headers is modelled by its meaning in
      [HM] only, not as instructions.  In the instructions that are modelled, a call of
      copy_from_user leaves anything in x16 and the flags, and the other registers but
      x0 as they are, which the code relies on for x15 and x17; memory consists of cells of the width the code accesses them with, labels are kept as marks,
      a literal is loaded by one instruction, and the registers are those the source
      names; the encoding, prologue and epilogue are the SDK's assembler's.
    - Of the probes, the platform libraries' handles, but for the objects of
      src/aidl_drm_probe.cpp.
    - Second copies of a helper (crc32, read and write loops, read_expected): they are
      modelled once, and the copies say the same.
    - Packaging scripts (src/package.py, src/prepare_sdk.py, the scripts of src/tools),
      tests, web pages, src/jni.

    ** Order of the work

    The handler came first, then the records, the monitor and the server, the
    resolver, the startup, the lock, the web interface, and the run of the daemon that
    puts them together; then the socket's two ends, the texts, the probes, and the way
    of a configuration from the web page into the kernel; last the instructions of the
    handler.  What is left are the items of the list above: calls of libraries around
    the modelled state, and the instructions around the kernel's copy functions. *)

From Stdlib Require Export ZArith Lia.
From stdpp Require Export base tactics numbers list functions relations gmap strings.
From Stdlib Require Ascii.

#[global] Open Scope Z_scope.

(** * Machine integers

    Unsigned values are [Z] in [0 .. 2^w - 1]; an operation of the code that
    can leave the range is followed by the wrap of its width. *)

Definition u8 (z : Z) : Z := z mod 2 ^ 8.
Definition u32 (z : Z) : Z := z mod 2 ^ 32.
Definition u64 (z : Z) : Z := z mod 2 ^ 64.

(** Two's complement reading of a 32-bit and of a 64-bit word. *)
Definition i32 (z : Z) : Z := if u32 z <? 2 ^ 31 then u32 z else u32 z - 2 ^ 32.
Definition i64 (z : Z) : Z := if u64 z <? 2 ^ 63 then u64 z else u64 z - 2 ^ 64.

Definition UINT32_MAX : Z := 2 ^ 32 - 1.
Definition UINT64_MAX : Z := 2 ^ 64 - 1.

Lemma u8_range z : 0 <= u8 z < 256.
Proof. apply Z.mod_pos_bound. lia. Qed.

Lemma u32_range z : 0 <= u32 z < 2 ^ 32.
Proof. apply Z.mod_pos_bound. lia. Qed.

Lemma u64_range z : 0 <= u64 z < 2 ^ 64.
Proof. apply Z.mod_pos_bound. lia. Qed.

Lemma u32_u32 z : u32 (u32 z) = u32 z.
Proof. apply Z.mod_mod. lia. Qed.

Lemma u64_u64 z : u64 (u64 z) = u64 z.
Proof. apply Z.mod_mod. lia. Qed.

Lemma u8_small z : 0 <= z < 256 -> u8 z = z.
Proof. intros. apply Z.mod_small. lia. Qed.

Lemma u32_small z : 0 <= z < 2 ^ 32 -> u32 z = z.
Proof. intros. apply Z.mod_small. lia. Qed.

Lemma u64_sub_l a b : u64 (u64 a - b) = u64 (a - b).
Proof. unfold u64. apply Zminus_mod_idemp_l. Qed.

Lemma u64_small z : 0 <= z < 2 ^ 64 -> u64 z = z.
Proof. intros. apply Z.mod_small. lia. Qed.

Lemma testbit_above a n i : 0 <= a < 2 ^ n -> 0 <= n <= i -> Z.testbit a i = false.
Proof.
  intros Ha Hi. destruct (decide (a = 0)) as [->|]; [apply Z.bits_0|].
  apply Z.bits_above_log2; [lia|].
  enough (Z.log2 a < n) by lia. apply Z.log2_lt_pow2; lia.
Qed.

(** A non-negative number whose bits from [n] up are all clear is below [2 ^ n]. *)
Lemma bits_below n a :
  0 <= n -> 0 <= a -> (forall i, n <= i -> Z.testbit a i = false) -> a < 2 ^ n.
Proof.
  intros Hn Ha Hbits. destruct (Z.lt_ge_cases a (2 ^ n)) as [|Hge]; [done|exfalso].
  assert (0 < 2 ^ n) by (apply Z.pow_pos_nonneg; lia).
  assert (n <= Z.log2 a) by (apply Z.log2_le_pow2; lia).
  pose proof (Z.bit_log2 a ltac:(lia)) as Hbit. by rewrite Hbits in Hbit.
Qed.

(** A statement about the numbers below a bound, number by number. *)
Lemma below_cases (P : Z -> Prop) (m n : Z) :
  Forall P (seqZ 0 m) -> 0 <= n < m -> P n.
Proof. intros Hall Hn. apply (proj1 (Forall_forall _ _) Hall), elem_of_seqZ. lia. Qed.

Lemma lxor_range n a b :
  0 <= n -> 0 <= a < 2 ^ n -> 0 <= b < 2 ^ n -> 0 <= Z.lxor a b < 2 ^ n.
Proof.
  intros Hn Ha Hb. assert (0 <= Z.lxor a b) by (apply Z.lxor_nonneg; lia).
  split; [done|]. apply bits_below; [done..|]. intros i Hi.
  by rewrite Z.lxor_spec, (testbit_above a n), (testbit_above b n) by lia.
Qed.

Lemma lor_range n a b :
  0 <= n -> 0 <= a < 2 ^ n -> 0 <= b < 2 ^ n -> 0 <= Z.lor a b < 2 ^ n.
Proof.
  intros Hn Ha Hb. assert (0 <= Z.lor a b) by (apply Z.lor_nonneg; lia).
  split; [done|]. apply bits_below; [done..|]. intros i Hi.
  by rewrite Z.lor_spec, (testbit_above a n), (testbit_above b n) by lia.
Qed.

Lemma land_range n a b : 0 <= n -> 0 <= a -> 0 <= b < 2 ^ n -> 0 <= Z.land a b < 2 ^ n.
Proof.
  intros Hn Ha Hb. assert (0 <= Z.land a b) by (apply Z.land_nonneg; lia).
  split; [done|]. apply bits_below; [done..|]. intros i Hi.
  by rewrite Z.land_spec, (testbit_above b n), andb_false_r by lia.
Qed.

(** * Lists *)

(** The half-open byte range [off, off + n) of a buffer. *)
Definition slice {A} (off n : nat) (l : list A) : list A := take n (drop off l).

Lemma slice_length {A} off n (l : list A) :
  (off + n <= length l)%nat -> length (slice off n l) = n.
Proof. intros. unfold slice. rewrite length_take, length_drop. lia. Qed.

Lemma slice_app_skip {A} n m (l k : list A) :
  length l = n -> slice n m (l ++ k) = take m k.
Proof. intros <-. unfold slice. by rewrite drop_app_length. Qed.

Lemma slice_take {A} off k n (l : list A) :
  (off + k <= n)%nat -> slice off k (take n l) = slice off k l.
Proof.
  intros. unfold slice. rewrite skipn_firstn_comm, take_take. by rewrite Nat.min_l by lia.
Qed.

Lemma slice_agree {A} off k n (l1 l2 : list A) :
  take n l1 = take n l2 -> (off + k <= n)%nat -> slice off k l1 = slice off k l2.
Proof. intros Ht Hk. by rewrite <-(slice_take off k n l1), Ht, slice_take. Qed.

(** * Bytes and little-endian words *)

Definition byte_ok (b : Z) : Prop := 0 <= b < 256.
Definition bytes_ok (l : list Z) : Prop := Forall byte_ok l.

#[global] Instance byte_ok_dec b : Decision (byte_ok b).
Proof. unfold byte_ok. apply _. Defined.

#[global] Instance bytes_ok_dec l : Decision (bytes_ok l).
Proof. unfold bytes_ok. apply _. Defined.

(** The bytes of an ASCII literal of the source. *)
Definition bytes_of_string (s : string) : list Z :=
  (fun a => Z.of_nat (Ascii.nat_of_ascii a)) <$> String.list_ascii_of_string s.

(** A C object of [n] bytes copied out of memory, least significant first. *)
Fixpoint le_enc (n : nat) (z : Z) : list Z :=
  match n with
  | O => []
  | S n => z mod 256 :: le_enc n (z / 256)
  end.

Fixpoint le_dec (l : list Z) : Z :=
  match l with
  | [] => 0
  | b :: l => b + 256 * le_dec l
  end.

Lemma le_enc_length n z : length (le_enc n z) = n.
Proof. revert z. induction n as [|n IH]; intros z; simpl; [done|]. by rewrite IH. Qed.

Lemma le_enc_bytes_ok n z : bytes_ok (le_enc n z).
Proof.
  revert z. induction n as [|n IH]; intros z; constructor; [|apply IH].
  apply Z.mod_pos_bound. lia.
Qed.

Lemma le_dec_range l : bytes_ok l -> 0 <= le_dec l < 256 ^ Z.of_nat (length l).
Proof.
  induction 1 as [|b l Hb _ IH]; [simpl; lia|].
  cbn [le_dec length]. rewrite Nat2Z.inj_succ, Z.pow_succ_r by lia.
  unfold byte_ok in Hb. nia.
Qed.

Lemma le_dec_enc n z : le_dec (le_enc n z) = z mod 256 ^ Z.of_nat n.
Proof.
  revert z. induction n as [|n IH]; intros z.
  - simpl. by rewrite Z.mod_1_r.
  - cbn [le_enc le_dec]. rewrite IH, Nat2Z.inj_succ, Z.pow_succ_r by lia.
    symmetry. apply Z.rem_mul_r; [lia|]. apply Z.pow_pos_nonneg; lia.
Qed.

Lemma le_enc_dec l : bytes_ok l -> le_enc (length l) (le_dec l) = l.
Proof.
  induction 1 as [|b l Hb _ IH]; [done|].
  cbn [length le_dec le_enc]. unfold byte_ok in Hb.
  replace ((b + 256 * le_dec l) mod 256) with b.
  2: { rewrite Z.mul_comm, Z.mod_add by lia. rewrite Z.mod_small; lia. }
  replace ((b + 256 * le_dec l) / 256) with (le_dec l).
  2: { rewrite Z.mul_comm, Z.div_add by lia. rewrite (Z.div_small b); lia. }
  by rewrite IH.
Qed.

Lemma le_dec_enc_u32 z : 0 <= z < 2 ^ 32 -> le_dec (le_enc 4 z) = z.
Proof. intros. rewrite le_dec_enc. apply Z.mod_small. simpl. lia. Qed.

Lemma le_dec_enc_u64 z : 0 <= z < 2 ^ 64 -> le_dec (le_enc 8 z) = z.
Proof. intros. rewrite le_dec_enc. apply Z.mod_small. simpl. lia. Qed.

Lemma le_enc_inj n a b :
  0 <= a < 256 ^ Z.of_nat n -> 0 <= b < 256 ^ Z.of_nat n -> le_enc n a = le_enc n b -> a = b.
Proof.
  intros Ha Hb H. apply (f_equal le_dec) in H. rewrite !le_dec_enc in H.
  by rewrite !Z.mod_small in H by done.
Qed.

Lemma bytes_ok_app l k : bytes_ok (l ++ k) <-> bytes_ok l /\ bytes_ok k.
Proof. apply Forall_app. Qed.

Lemma bytes_ok_take n l : bytes_ok l -> bytes_ok (take n l).
Proof. apply Forall_take. Qed.

Lemma bytes_ok_drop n l : bytes_ok l -> bytes_ok (drop n l).
Proof. apply Forall_drop. Qed.

Lemma bytes_ok_replicate n b : byte_ok b -> bytes_ok (replicate n b).
Proof. intros. by apply Forall_replicate. Qed.

(** * The automation shared by the components *)

Create HintDb drm.
Create Rewrite HintDb drm.
#[export] Hint Resolve u8_range u32_range u64_range le_enc_bytes_ok bytes_ok_take
  bytes_ok_drop : drm.
#[export] Hint Rewrite le_enc_length @length_app @length_take @length_drop @length_replicate
  @length_insert : drm.

(** Case analysis on the boolean tests of the code, each with its meaning. *)
Ltac bcase :=
  match goal with
  | |- context [if ?a <? ?b then _ else _] => destruct (Z.ltb_spec a b)
  | |- context [if ?a <=? ?b then _ else _] => destruct (Z.leb_spec a b)
  | |- context [if ?a =? ?b then _ else _] => destruct (Z.eqb_spec a b)
  | H : context [if ?a <? ?b then _ else _] |- _ => destruct (Z.ltb_spec a b)
  | H : context [if ?a <=? ?b then _ else _] |- _ => destruct (Z.leb_spec a b)
  | H : context [if ?a =? ?b then _ else _] |- _ => destruct (Z.eqb_spec a b)
  end.

(** Turns conjunctions of boolean tests into propositions. *)
Ltac btrue :=
  repeat match goal with
  | H : _ && _ = true |- _ => apply andb_prop in H; destruct H
  | H : _ || _ = false |- _ => apply orb_false_elim in H; destruct H
  | H : negb _ = true |- _ => apply negb_true_iff in H
  | H : negb _ = false |- _ => apply negb_false_iff in H
  | H : (_ =? _) = true |- _ => apply Z.eqb_eq in H
  | H : (_ =? _) = false |- _ => apply Z.eqb_neq in H
  | H : (_ <? _) = true |- _ => apply Z.ltb_lt in H
  | H : (_ <? _) = false |- _ => apply Z.ltb_ge in H
  | H : (_ <=? _) = true |- _ => apply Z.leb_le in H
  | H : (_ <=? _) = false |- _ => apply Z.leb_gt in H
  | H : bool_decide _ = true |- _ => apply bool_decide_eq_true in H
  | H : bool_decide _ = false |- _ => apply bool_decide_eq_false in H
  end.

(** * Error results *)

(** The result codes of [KModErr] the code under src/ names; the enumeration is
    the SDK's, and nothing here depends on its numeric values. *)
Inductive KModErr :=
  | OK
  | ERR_MODULE_PARAM
  | ERR_MODULE_ASM
  | ERR_MODULE_STORAGE_NOT_FOUND
  | ERR_MODULE_STORAGE_READ
  | ERR_MODULE_STORAGE_WRITE
  | ERR_MODULE_STORAGE_TYPE
  | ERR_MODULE_OFFSET_NOT_FOUND
  | ERR_MODULE_NOT_KADDR
  | ERR_MODULE_FUNC_NOT_STANDARD
  | ERR_MODULE_OPEN_FILE
  | ERR_MODULE_WRITE_FILE
  | ERR_MODULE_CREATE_DIR
  | ERR_MODULE_TEST_CHANNEL
  | ERR_MODULE_SOCKET
  | ERR_MODULE_NO_BOOT
  | ERR_MODULE_SYMBOL_NOT_MATCH_LINUX_VER
  | ERR_MODULE_SDK (code : Z).

#[global] Instance KModErr_eq_dec : EqDecision KModErr.
Proof. solve_decision. Defined.

Definition is_ok (e : KModErr) : bool := bool_decide (e = OK).
Definition is_failed (e : KModErr) : bool := negb (is_ok e).

Lemma is_ok_true e : is_ok e = true <-> e = OK.
Proof. apply bool_decide_eq_true. Qed.

Lemma is_failed_false e : is_failed e = false <-> e = OK.
Proof. unfold is_failed. rewrite negb_false_iff. apply is_ok_true. Qed.
