(* ===== verification/UserMemory.v ===== *)
(** User memory as the hook handler reaches it: the kernel's [copy_from_user]
    and [copy_to_user], which the code calls through the SDK
    ([kernel_module::export_symbol]), as an interface.  The handler's theorems
    are proved against the interface; a concrete memory (an address space of
    mapped bytes, some of them read-only) discharges it and runs the witnesses. *)

From S2P Require Import Prelude.

(** The two helpers.  [copy_from_user m a n] is the [n] bytes at [a], or [None]
    when the helper reports a fault (a non-zero remainder); [copy_to_user m a bs]
    is the memory afterwards and whether every byte was stored. *)
Class UserAccess (U : Type) := {
  copy_from_user : U -> Z -> Z -> option (list Z);
  copy_to_user : U -> Z -> list Z -> U * bool;
}.

(** What the code relies on: a successful read delivers [n] bytes, a write
    touches no byte outside its range, and a successful write is read back. *)
Class UserAccessLaws (U : Type) `{UserAccess U} : Prop := {
  cfu_length : forall (m : U) a n bs,
    copy_from_user m a n = Some bs -> length bs = Z.to_nat n;
  cfu_bytes : forall (m : U) a n bs,
    copy_from_user m a n = Some bs -> bytes_ok bs;
  ctu_frame : forall (m : U) a bs b n,
    b + n <= a \/ a + Z.of_nat (length bs) <= b ->
    copy_from_user (copy_to_user m a bs).1 b n = copy_from_user m b n;
  ctu_read : forall (m : U) a bs,
    bytes_ok bs -> (copy_to_user m a bs).2 = true ->
    copy_from_user (copy_to_user m a bs).1 a (Z.of_nat (length bs)) = Some bs;
}.

(** * A concrete address space *)

(** Mapped bytes, and the addresses user code may not store to. *)
Record AddressSpace := {
  as_bytes : gmap Z Z;
  as_read_only : gset Z;
}.

Fixpoint as_read (m : gmap Z Z) (a : Z) (n : nat) : option (list Z) :=
  match n with
  | O => Some []
  | S n => match m !! a, as_read m (a + 1) n with
           | Some b, Some bs => Some (u8 b :: bs)
           | _, _ => None
           end
  end.

Fixpoint as_write (m : gmap Z Z) (a : Z) (bs : list Z) : gmap Z Z :=
  match bs with
  | [] => m
  | b :: bs => <[a := b]> (as_write m (a + 1) bs)
  end.

Definition as_writable (m : AddressSpace) (a : Z) (n : nat) : bool :=
  forallb (fun i => let p := a + Z.of_nat i in
             bool_decide (is_Some (as_bytes m !! p)) &&
             bool_decide (p ∉ as_read_only m))
    (seq 0 n).

#[export] Instance AddressSpace_access : UserAccess AddressSpace := {|
  copy_from_user m a n := as_read (as_bytes m) a (Z.to_nat n);
  copy_to_user m a bs :=
    if as_writable m a (length bs)
    then ({| as_bytes := as_write (as_bytes m) a bs; as_read_only := as_read_only m |}, true)
    else (m, false)
|}.

Lemma as_read_length m a n bs : as_read m a n = Some bs -> length bs = n.
Proof.
  revert a bs. induction n as [|n IH]; intros a bs; simpl; [by intros [= <-]|].
  destruct (m !! a), (as_read m (a + 1) n) eqn:E; try done.
  intros [= <-]. simpl. f_equal. eauto.
Qed.

Lemma as_read_bytes m a n bs : as_read m a n = Some bs -> bytes_ok bs.
Proof.
  revert a bs. induction n as [|n IH]; intros a bs; simpl.
  { intros [= <-]. apply Forall_nil_2. }
  destruct (m !! a), (as_read m (a + 1) n) eqn:E; try done.
  intros [= <-]. apply Forall_cons. split; [apply u8_range|]. by eapply IH.
Qed.

Lemma as_write_other m a bs p :
  p < a \/ a + Z.of_nat (length bs) <= p -> as_write m a bs !! p = m !! p.
Proof.
  revert a. induction bs as [|b bs IH]; intros a Hp; [done|].
  simpl in *. rewrite lookup_insert_ne by lia. apply IH. lia.
Qed.

Lemma as_read_write_frame m a bs b n :
  b + Z.of_nat n <= a \/ a + Z.of_nat (length bs) <= b ->
  as_read (as_write m a bs) b n = as_read m b n.
Proof.
  revert b. induction n as [|n IH]; intros b Hb; [done|].
  cbn [as_read]. destruct (decide (b < a \/ a + Z.of_nat (length bs) <= b)) as [Hp|Hp].
  - rewrite as_write_other by done. rewrite IH; [done|lia].
  - exfalso. lia.
Qed.

Lemma as_read_write_same m a bs :
  bytes_ok bs -> as_read (as_write m a bs) a (length bs) = Some bs.
Proof.
  revert a. induction bs as [|b bs IH]; intros a; [done|].
  intros [Hb Hbs]%Forall_cons. cbn [length as_read as_write].
  rewrite lookup_insert_eq.
  assert (as_read (<[a:=b]> (as_write m (a + 1) bs)) (a + 1) (length bs) = Some bs) as ->.
  { change (<[a:=b]> (as_write m (a + 1) bs)) with
      (as_write (as_write m (a + 1) bs) a [b]).
    rewrite as_read_write_frame by (simpl; lia). by apply IH. }
  by rewrite u8_small.
Qed.

Lemma as_write_lookup m a bs i :
  (i < length bs)%nat -> as_write m a bs !! (a + Z.of_nat i) = bs !! i.
Proof.
  revert a i. induction bs as [|b bs IH]; intros a i Hi; [simpl in Hi; lia|].
  cbn [as_write]. destruct i as [|i].
  - rewrite Z.add_0_r. by rewrite lookup_insert_eq.
  - rewrite lookup_insert_ne by lia. simpl in Hi.
    replace (a + Z.of_nat (S i)) with (a + 1 + Z.of_nat i) by lia. apply IH. lia.
Qed.

(** Any part of what was written reads as written. *)
Lemma as_read_write_slice m a bs off n :
  bytes_ok bs -> (off + n <= length bs)%nat ->
  as_read (as_write m a bs) (a + Z.of_nat off) n = Some (slice off n bs).
Proof.
  intros Hok. revert off. induction n as [|n IH]; intros off Hn; [done|]. cbn [as_read].
  rewrite as_write_lookup by lia. destruct (bs !! off) as [b|] eqn:Hb.
  2: { apply lookup_ge_None in Hb. lia. }
  replace (a + Z.of_nat off + 1) with (a + Z.of_nat (S off)) by lia. rewrite IH by lia.
  pose proof (proj1 (Forall_lookup _ _) Hok off b Hb) as Hbyte. rewrite u8_small by done.
  unfold slice. by rewrite (drop_S _ _ _ Hb).
Qed.

#[export] Instance AddressSpace_laws : UserAccessLaws AddressSpace.
Proof.
  split; cbn.
  - intros m a n bs. apply as_read_length.
  - intros m a n bs. apply as_read_bytes.
  - intros m a bs b n H. destruct (as_writable m a (length bs)); [cbn|done].
    destruct (Z.le_gt_cases 0 n).
    + apply as_read_write_frame. lia.
    + by rewrite Z2Nat.nonpos by lia.
  - intros m a bs Hbs. destruct (as_writable m a (length bs)); [|done]. cbn. intros _.
    rewrite Nat2Z.id. by apply as_read_write_same.
Qed.

(** An address space holding the given regions, all writable. *)
Definition mk_address_space (regions : list (Z * list Z)) : AddressSpace := {|
  as_bytes := foldr (fun r m => as_write m r.1 r.2) ∅ regions;
  as_read_only := ∅
|}.
