(* ===== verification/KernelContext.v ===== *)
(** The shared kernel context of the hook (kernel_context.h): the counters, the
    event ring, the pending table and the two double-buffered slots, and the
    state monad the generated handler runs in. *)

From S2P Require Import Prelude UserMemory.

(** * Constants *)

(** src/kernel_context.h:8-8 [kCounterContextMagic] *)
Definition kCounterContextMagic : Z := 0x44524d4944363132.
(** src/kernel_context.h:9-9 [kCounterContextAbi] *)
Definition kCounterContextAbi : Z := 20.
(** src/kernel_context.h:10-10 [kHalIdentityLimit] *)
Definition kHalIdentityLimit : Z := 4.
(** src/kernel_context.h:11-11 [kWidevineDeviceUniqueIdBytes] *)
Definition kWidevineDeviceUniqueIdBytes : Z := 32.
(** src/kernel_context.h:12-12 [kTransactionEventCapacity] *)
Definition kTransactionEventCapacity : Z := 256.
(** src/kernel_context.h:13-13 [kPendingSlotCapacity] *)
Definition kPendingSlotCapacity : Z := 256.
(** src/kernel_context.h:14-14 [kPendingBucketWays] *)
Definition kPendingBucketWays : Z := 8.
(** src/kernel_context.h:15-15 [kPendingDepth] *)
Definition kPendingDepth : Z := 4.

(** src/kernel_context.h:17-24 [BinderEventKind] *)
Inductive BinderEventKind :=
  | kUnknown
  | kBcTransaction
  | kBcReply
  | kBrTransaction
  | kBrTransactionSecCtx
  | kBrReply.

#[global] Instance BinderEventKind_eq_dec : EqDecision BinderEventKind.
Proof. solve_decision. Defined.

(** src/kernel_context.h:26-29 [ParcelTokenKind] *)
Inductive ParcelTokenKind := kNone | kDrmPlugin.

#[global] Instance ParcelTokenKind_eq_dec : EqDecision ParcelTokenKind.
Proof. solve_decision. Defined.

(** src/kernel_context.h:31-31 [kParcelFlagDeviceUniqueId] *)
Definition kParcelFlagDeviceUniqueId : Z := Z.shiftl 1 0.
(** src/kernel_context.h:32-32 [kReplyFlagCorrelatedDeviceUniqueId] *)
Definition kReplyFlagCorrelatedDeviceUniqueId : Z := Z.shiftl 1 0.
(** src/kernel_context.h:33-33 [kReplyFlagStatusOk] *)
Definition kReplyFlagStatusOk : Z := Z.shiftl 1 1.
(** src/kernel_context.h:34-34 [kReplyFlagArrayValid] *)
Definition kReplyFlagArrayValid : Z := Z.shiftl 1 2.
(** src/kernel_context.h:35-35 [kReplyFlagContentReadable] *)
Definition kReplyFlagContentReadable : Z := Z.shiftl 1 3.
(** src/kernel_context.h:36-36 [kReplyFlagReplacementCandidate] *)
Definition kReplyFlagReplacementCandidate : Z := Z.shiftl 1 4.
(** src/kernel_context.h:37-37 [kReplyFlagDryRun] *)
Definition kReplyFlagDryRun : Z := Z.shiftl 1 5.
(** src/kernel_context.h:38-38 [kReplyFlagReplaced] *)
Definition kReplyFlagReplaced : Z := Z.shiftl 1 6.
(** src/kernel_context.h:39-39 [kReplyFlagHalCorrelated] *)
Definition kReplyFlagHalCorrelated : Z := Z.shiftl 1 7.

(** [ReplacementMode], stored as its 32-bit number. *)

(** src/kernel_context.h:41-44 [ReplacementMode] *)
Inductive ReplacementMode := kDryRun | kWriteTest.

Definition mode_num (m : ReplacementMode) : Z :=
  match m with kDryRun => 0 | kWriteTest => 1 end.

#[global] Instance ReplacementMode_eq_dec : EqDecision ReplacementMode.
Proof. solve_decision. Defined.

(** * Records *)

(** src/kernel_context.h:46-77 [BinderTransactionEvent] *)
Record BinderTransactionEvent := {
  ev_sequence : Z;
  ev_event_id : Z;
  ev_task_kaddr : Z;
  ev_target : Z;
  ev_cookie : Z;
  ev_data_size : Z;
  ev_offsets_size : Z;
  ev_buffer : Z;
  ev_offsets : Z;
  ev_correlated_request_id : Z;
  ev_pid : Z;
  ev_tgid : Z;
  ev_command : Z;
  ev_code : Z;
  ev_flags : Z;
  ev_sender_pid : Z;
  ev_sender_euid : Z;
  ev_kind : BinderEventKind;
  ev_parcel_token_kind : Z;
  ev_parcel_token_offset : Z;
  ev_parcel_prefix_size : Z;
  ev_parcel_flags : Z;
  ev_correlated_request_flags : Z;
  ev_reply_prefix_size : Z;
  ev_reply_status_code : Z;
  ev_reply_byte_array_length : Z;
  ev_reply_byte_array_offset : Z;
  ev_reply_flags : Z;
}.

Definition zero_event : BinderTransactionEvent :=
  Build_BinderTransactionEvent 0 0 0 0 0 0 0 0 0 0 0 0 0 0 0 0 0 kUnknown
    0 0 0 0 0 0 0 0 0 0.

(** src/kernel_context.h:79-88 [BinderPendingFrame] *)
Record BinderPendingFrame := {
  pf_request_event_id : Z;
  pf_target : Z;
  pf_data_size : Z;
  pf_hal_identity_generation : Z;
  pf_code : Z;
  pf_flags : Z;
  pf_parcel_flags : Z;
}.

Definition zero_frame : BinderPendingFrame := Build_BinderPendingFrame 0 0 0 0 0 0 0.

(** src/kernel_context.h:92-99 [BinderPendingSlot] *)
Record BinderPendingSlot := {
  ps_task_kaddr : Z;
  ps_pid : Z;
  ps_tgid : Z;
  ps_depth : Z;
  ps_frames : list BinderPendingFrame;
}.

Definition zero_slot : BinderPendingSlot :=
  Build_BinderPendingSlot 0 0 0 0 (replicate (Z.to_nat kPendingDepth) zero_frame).

(** src/kernel_context.h:101-108 [RuntimeConfigSlot] *)
Record RuntimeConfigSlot := {
  rc_config_generation : Z;
  rc_seed_generation : Z;
  rc_profile_fingerprint : Z;
  rc_replacement_mode : Z;
  rc_virtual_id_length : Z;
  rc_virtual_id : list Z;
}.

(** src/kernel_context.h:110-115 [HalIdentitySet] *)
Record HalIdentitySet := {
  hs_generation : Z;
  hs_count : Z;
  hs_tgids : list Z;
}.

#[global] Instance BinderPendingFrame_eq_dec : EqDecision BinderPendingFrame.
Proof. solve_decision. Defined.
#[global] Instance RuntimeConfigSlot_eq_dec : EqDecision RuntimeConfigSlot.
Proof. solve_decision. Defined.
#[global] Instance HalIdentitySet_eq_dec : EqDecision HalIdentitySet.
Proof. solve_decision. Defined.

Definition zero_config_slot : RuntimeConfigSlot :=
  Build_RuntimeConfigSlot 0 0 0 0 0 (replicate 64 0).
Definition zero_hal_set : HalIdentitySet := Build_HalIdentitySet 0 0 (replicate 4 0).

(** The 64-bit words of [KernelCounterContext] that the handler and the daemon
    address by their offset in the structure. *)

(** src/kernel_context.h:127-192 [KernelCounterContext] *)
Inductive ctx_word :=
  | magic | abi_version | active_calls | pre_calls | post_calls | bwr_calls
  | hal_gate_hits | pre_header_ok | pre_header_faults | post_header_ok
  | post_header_faults | invalid_consumed | write_streams | read_streams
  | bc_commands | br_commands | bc_transaction_commands | br_transaction_commands
  | write_boundary_errors | read_boundary_errors | write_copy_faults
  | read_copy_faults | write_capped | read_capped
  | transaction_metadata_ok | transaction_metadata_faults | event_write_index
  | pending_lock_state | pending_lock_drops | pending_pushes | pending_pops
  | pending_terminal_pops | pending_misses | pending_overflows
  | pending_collisions | pending_oneway_ignored | pending_generation_stale
  | reply_without_pending
  | parcel_prefix_ok | parcel_prefix_faults | parcel_plugin_hits
  | parcel_device_unique_id_hits | parcel_unknown_tokens | server_request_hits
  | reply_candidates | reply_header_copy_ok | reply_header_copy_faults
  | reply_status_ok | reply_status_nonzero | reply_array_valid
  | reply_array_invalid | reply_content_copy_ok | reply_content_copy_faults
  | correlated_reply_candidates | replacement_candidates
  | replacement_length_mismatch | replacement_dry_run_hits | replacement_write_ok
  | replacement_write_faults | replacement_copy_to_user_faults
  | replacement_last_request_id
  | runtime_config_switches | runtime_config_rejections
  | hal_identity_switches | hal_identity_rejections | hal_identity_restarts.

#[global] Instance ctx_word_eq_dec : EqDecision ctx_word.
Proof. solve_decision. Defined.

(** src/kernel_context.h:193-211 [KernelCounterContext] *)
Record KernelCounterContext := {
  kc_words : ctx_word -> Z;
  replacement_last_reply_flags : Z;
  replacement_last_array_length : Z;
  events : list BinderTransactionEvent;
  pending : list BinderPendingSlot;
  active_config_slot : Z;
  config_slots : list RuntimeConfigSlot;
  active_hal_identity_slot : Z;
  hal_identity_slots : list HalIdentitySet;
}.

Definition set_words f (c : KernelCounterContext) : KernelCounterContext := {|
  kc_words := f (kc_words c);
  replacement_last_reply_flags := replacement_last_reply_flags c;
  replacement_last_array_length := replacement_last_array_length c;
  events := events c; pending := pending c;
  active_config_slot := active_config_slot c; config_slots := config_slots c;
  active_hal_identity_slot := active_hal_identity_slot c;
  hal_identity_slots := hal_identity_slots c |}.

Definition set_last flags len (c : KernelCounterContext) : KernelCounterContext := {|
  kc_words := kc_words c;
  replacement_last_reply_flags := flags;
  replacement_last_array_length := len;
  events := events c; pending := pending c;
  active_config_slot := active_config_slot c; config_slots := config_slots c;
  active_hal_identity_slot := active_hal_identity_slot c;
  hal_identity_slots := hal_identity_slots c |}.

Definition set_events f (c : KernelCounterContext) : KernelCounterContext := {|
  kc_words := kc_words c;
  replacement_last_reply_flags := replacement_last_reply_flags c;
  replacement_last_array_length := replacement_last_array_length c;
  events := f (events c); pending := pending c;
  active_config_slot := active_config_slot c; config_slots := config_slots c;
  active_hal_identity_slot := active_hal_identity_slot c;
  hal_identity_slots := hal_identity_slots c |}.

Definition set_pending f (c : KernelCounterContext) : KernelCounterContext := {|
  kc_words := kc_words c;
  replacement_last_reply_flags := replacement_last_reply_flags c;
  replacement_last_array_length := replacement_last_array_length c;
  events := events c; pending := f (pending c);
  active_config_slot := active_config_slot c; config_slots := config_slots c;
  active_hal_identity_slot := active_hal_identity_slot c;
  hal_identity_slots := hal_identity_slots c |}.

Definition set_config active slots (c : KernelCounterContext) : KernelCounterContext := {|
  kc_words := kc_words c;
  replacement_last_reply_flags := replacement_last_reply_flags c;
  replacement_last_array_length := replacement_last_array_length c;
  events := events c; pending := pending c;
  active_config_slot := active; config_slots := slots;
  active_hal_identity_slot := active_hal_identity_slot c;
  hal_identity_slots := hal_identity_slots c |}.

Definition set_hal active slots (c : KernelCounterContext) : KernelCounterContext := {|
  kc_words := kc_words c;
  replacement_last_reply_flags := replacement_last_reply_flags c;
  replacement_last_array_length := replacement_last_array_length c;
  events := events c; pending := pending c;
  active_config_slot := active_config_slot c; config_slots := config_slots c;
  active_hal_identity_slot := active;
  hal_identity_slots := slots |}.

(** A context of zero bytes. *)
Definition zero_context : KernelCounterContext := {|
  kc_words := fun _ => 0;
  replacement_last_reply_flags := 0;
  replacement_last_array_length := 0;
  events := replicate (Z.to_nat kTransactionEventCapacity) zero_event;
  pending := replicate (Z.to_nat kPendingSlotCapacity) zero_slot;
  active_config_slot := 0;
  config_slots := [zero_config_slot; zero_config_slot];
  active_hal_identity_slot := 0;
  hal_identity_slots := [zero_hal_set; zero_hal_set] |}.

(** The slot a reader that acquires the index now works with. *)
Definition slot_of (active : Z) : nat := Z.to_nat (Z.land active 1).

Definition active_config (c : KernelCounterContext) : RuntimeConfigSlot :=
  nth (slot_of (active_config_slot c)) (config_slots c) zero_config_slot.

Definition active_hal (c : KernelCounterContext) : HalIdentitySet :=
  nth (slot_of (active_hal_identity_slot c)) (hal_identity_slots c) zero_hal_set.

Lemma slot_of_lt active : (slot_of active < 2)%nat.
Proof.
  unfold slot_of. change 1 with (Z.ones 1). rewrite Z.land_ones by lia.
  pose proof (Z.mod_pos_bound active (2 ^ 1) ltac:(lia)). lia.
Qed.

(** * The handler's state *)

Section handler_monad.
Context {U : Type} `{UserAccess U}.

(** The context, the user memory, the parcel area of the parser's stack scratch
    (whatever the stack held until a prefix is copied over it), and the outcomes
    of the exclusive-access attempts that the lock will see: one entry per
    acquisition, each a list of (observed lock word, store-exclusive status) pairs. *)
Record hstate := {
  h_ctx : KernelCounterContext;
  h_mem : U;
  h_parcel : list Z;
  h_locks : list (list (Z * Z));
}.

Definition HM (A : Type) : Type := hstate -> A * hstate.

#[global] Instance HM_ret : MRet HM := fun A a s => (a, s).
#[global] Instance HM_bind : MBind HM := fun A B k m s => let '(a, s') := m s in k a s'.

Definition h_modify (f : KernelCounterContext -> KernelCounterContext) : HM unit :=
  fun s => (tt, {| h_ctx := f (h_ctx s); h_mem := h_mem s;
               h_parcel := h_parcel s; h_locks := h_locks s |}).

Definition h_get {A} (f : KernelCounterContext -> A) : HM A := fun s => (f (h_ctx s), s).

Definition h_read (a n : Z) : HM (option (list Z)) :=
  fun s => (copy_from_user (h_mem s) a n, s).

Definition h_write (a : Z) (bs : list Z) : HM bool :=
  fun s => let '(m, ok) := copy_to_user (h_mem s) a bs in
           (ok, {| h_ctx := h_ctx s; h_mem := m;
                  h_parcel := h_parcel s; h_locks := h_locks s |}).

(** The first bytes of the parcel area are overwritten by a successful copy. *)
Definition h_fill_parcel (at_ : nat) (bs : list Z) : HM unit :=
  fun s => (tt, {| h_ctx := h_ctx s; h_mem := h_mem s;
                   h_parcel := take at_ (h_parcel s) ++ bs ++ drop (at_ + length bs) (h_parcel s);
                   h_locks := h_locks s |}).

Definition h_parcel_area : HM (list Z) := fun s => (h_parcel s, s).

Definition h_lock_script : HM (list (Z * Z)) :=
  fun s => (hd [] (h_locks s),
            {| h_ctx := h_ctx s; h_mem := h_mem s;
               h_parcel := h_parcel s; h_locks := tl (h_locks s) |}).

Definition add_word (w : ctx_word) (d : Z) (c : KernelCounterContext) : KernelCounterContext :=
  set_words (fun f => <[w := u64 (f w + d)]> f) c.

Definition put_word (w : ctx_word) (v : Z) (c : KernelCounterContext) : KernelCounterContext :=
  set_words (fun f => <[w := v]> f) c.

(** A counter is bumped by one atomic 64-bit add; the address is the offset of
    the member in the context. *)

(** src/binder_hook_builder.cpp:101-120 [emit_atomic_increment, emit_atomic_decrement, emit_counter_increment] *)
Definition emit_counter_increment (w : ctx_word) : HM unit := h_modify (add_word w 1).

(** src/binder_hook_builder.cpp:110-114 [emit_atomic_decrement] *)
Definition emit_atomic_decrement (w : ctx_word) : HM unit := h_modify (add_word w UINT64_MAX).

(** * Effects

    [effect R m]: every run of [m] relates its start to its end by [R]; the
    preorder [R] says what [m] may change. *)
Definition effect {A} (R : hstate -> hstate -> Prop) (m : HM A) : Prop :=
  forall s, R s (m s).2.

Lemma effect_ret {A} R `{!Reflexive R} (a : A) : effect R (mret a : HM A).
Proof. intros s. cbn. reflexivity. Qed.

Lemma effect_bind {A B} R `{!Transitive R} (m : HM A) (k : A -> HM B) :
  effect R m -> (forall a, effect R (k a)) -> effect R (m ≫= k).
Proof.
  intros Hm Hk s. specialize (Hm s). unfold mbind, HM_bind.
  destruct (m s) as [a s'] eqn:E. cbn in *. etrans; [exact Hm|apply Hk].
Qed.

Lemma effect_weaken {A} (R1 R2 : hstate -> hstate -> Prop) (m : HM A) :
  (forall s s', R1 s s' -> R2 s s') -> effect R1 m -> effect R2 m.
Proof. intros HR Hm s. apply HR, Hm. Qed.

(** The part of the state a relation looks at is left alone. *)
Definition keeps {B} (f : hstate -> B) : hstate -> hstate -> Prop := fun s s' => f s' = f s.

#[global] Instance keeps_refl {B} (f : hstate -> B) : Reflexive (keeps f).
Proof. intros s. done. Qed.

#[global] Instance keeps_trans {B} (f : hstate -> B) : Transitive (keeps f).
Proof. intros s1 s2 s3. unfold keeps. congruence. Qed.

Lemma effect_get {A} R `{!Reflexive R} (f : KernelCounterContext -> A) : effect R (h_get f).
Proof. intros s. cbn. reflexivity. Qed.

Lemma effect_read R `{!Reflexive R} a n : effect R (h_read a n).
Proof. intros s. cbn. reflexivity. Qed.

Lemma effect_modify {B} (f : hstate -> B) g :
  (forall s, f {| h_ctx := g (h_ctx s); h_mem := h_mem s;
               h_parcel := h_parcel s; h_locks := h_locks s |} = f s) ->
  effect (keeps f) (h_modify g).
Proof. intros Hf s. apply Hf. Qed.

Lemma effect_fill_parcel {B} (f : hstate -> B) i bs :
  (forall s l, f {| h_ctx := h_ctx s; h_mem := h_mem s; h_parcel := l;
                    h_locks := h_locks s |} = f s) ->
  effect (keeps f) (h_fill_parcel i bs).
Proof. intros Hf s. apply Hf. Qed.

Lemma effect_parcel_area R `{!Reflexive R} : effect R h_parcel_area.
Proof. intros s. cbn. reflexivity. Qed.

Lemma effect_lock_script {B} (f : hstate -> B) :
  (forall s l, f {| h_ctx := h_ctx s; h_mem := h_mem s;
            h_parcel := h_parcel s; h_locks := l |} = f s) ->
  effect (keeps f) h_lock_script.
Proof. intros Hf s. apply Hf. Qed.

End handler_monad.

Arguments hstate U : clear implicits.
Arguments HM U A : clear implicits.

#[export] Hint Resolve effect_ret effect_get effect_read : drm.

(** Walks through a handler's sequence of primitives, branch by branch. *)
Ltac effect_step :=
  lazymatch goal with
  | |- effect _ (mbind _ _) => apply effect_bind; [apply _| |intros ?]
  | |- effect _ (mret _) => apply effect_ret; apply _
  | |- effect _ (h_get _) => apply effect_get; apply _
  | |- effect _ (h_read _ _) => apply effect_read; apply _
  | |- effect (keeps _) (h_modify _) => apply effect_modify; intros []; reflexivity
  | |- effect _ h_parcel_area => apply effect_parcel_area; apply _
  | |- effect (keeps _) (h_fill_parcel _ _) => apply effect_fill_parcel; intros [] ?; reflexivity
  | |- effect (keeps _) h_lock_script => apply effect_lock_script; intros [] ?; reflexivity
  | |- effect _ (match ?x with _ => _ end) => destruct x
  end.
Ltac solve_effect := repeat (effect_step; try solve [eauto with drm]).
