(* ===== verification/BinderWire.v ===== *)
(** The Binder user ABI as the handler reads it: ioctl command encoding, the
    transaction commands, [binder_transaction_data], [binder_write_read], and
    the parser's scratch words. *)

From S2P Require Import Prelude KernelContext.

(** * Command words (asm-generic ioctl encoding) *)

(** src/tests/test_binder_stream_parser.py:17-23 [ioc] *)
Definition ioc (direction kind number size : Z) : Z :=
  Z.lor (Z.lor (Z.lor (Z.shiftl direction 30) (Z.shiftl size 16)) (Z.shiftl kind 8)) number.

Definition ioc_c : Z := 99.  (* 'c' *)
Definition ioc_r : Z := 114. (* 'r' *)
Definition ioc_b : Z := 98.  (* 'b' *)

(** src/tests/test_binder_stream_parser.py:38-38 [BC_TRANSACTION] *)
Definition BC_TRANSACTION : Z := ioc 1 ioc_c 0 64.
(** src/tests/test_binder_stream_parser.py:39-39 [BC_REPLY] *)
Definition BC_REPLY : Z := ioc 1 ioc_c 1 64.
(** src/tests/test_binder_stream_parser.py:41-41 [BC_TRANSACTION_SG] *)
Definition BC_TRANSACTION_SG : Z := ioc 1 ioc_c 17 72.
(** src/tests/test_binder_stream_parser.py:42-42 [BC_REPLY_SG] *)
Definition BC_REPLY_SG : Z := ioc 1 ioc_c 18 72.
(** src/tests/test_binder_stream_parser.py:44-44 [BR_TRANSACTION] *)
Definition BR_TRANSACTION : Z := ioc 2 ioc_r 2 64.
(** src/tests/test_binder_stream_parser.py:45-45 [BR_TRANSACTION_SEC_CTX] *)
Definition BR_TRANSACTION_SEC_CTX : Z := ioc 2 ioc_r 2 72.
(** src/tests/test_binder_stream_parser.py:46-46 [BR_REPLY] *)
Definition BR_REPLY : Z := ioc 2 ioc_r 3 64.
Definition BINDER_WRITE_READ : Z := ioc 3 ioc_b 1 48.

(** [ubfx x25, x24, 8, 8] and [ubfx x25, x24, 16, 14]. *)

(** src/binder_hook_builder.cpp:1291-1295 [emit_parse_command_stream] *)
Definition ioc_type (command : Z) : Z := Z.land (Z.shiftr command 8) (Z.ones 8).
(** src/binder_hook_builder.cpp:1295-1296 [emit_parse_command_stream] *)
Definition ioc_size (command : Z) : Z := Z.land (Z.shiftr command 16) (Z.ones 14).

Lemma ioc_size_range command : 0 <= ioc_size command < 2 ^ 14.
Proof. unfold ioc_size. rewrite Z.land_ones by lia. apply Z.mod_pos_bound. lia. Qed.

(** * Structures copied from user memory *)

Definition ld32 (bs : list Z) (off : nat) : Z := le_dec (slice off 4 bs).
Definition ld64 (bs : list Z) (off : nat) : Z := le_dec (slice off 8 bs).

(** The 64 bytes behind a transaction command, at the scratch offsets the
    handler loads them from. *)
Record BinderTransactionData := {
  td_target : Z;
  td_cookie : Z;
  td_code : Z;
  td_flags : Z;
  td_sender_pid : Z;
  td_sender_euid : Z;
  td_data_size : Z;
  td_offsets_size : Z;
  td_buffer : Z;
  td_offsets : Z;
}.

(** src/binder_hook_builder.cpp:1150-1169 [emit_record_transaction] *)
Definition decode_transaction (bs : list Z) : BinderTransactionData := {|
  td_target := ld64 bs 0;
  td_cookie := ld64 bs 8;
  td_code := ld32 bs 16;
  td_flags := ld32 bs 20;
  td_sender_pid := ld32 bs 24;
  td_sender_euid := ld32 bs 28;
  td_data_size := ld64 bs 32;
  td_offsets_size := ld64 bs 40;
  td_buffer := ld64 bs 48;
  td_offsets := ld64 bs 56;
|}.

Definition encode_transaction (td : BinderTransactionData) : list Z :=
  le_enc 8 (td_target td) ++ le_enc 8 (td_cookie td) ++ le_enc 4 (td_code td) ++
  le_enc 4 (td_flags td) ++ le_enc 4 (td_sender_pid td) ++ le_enc 4 (td_sender_euid td) ++
  le_enc 8 (td_data_size td) ++ le_enc 8 (td_offsets_size td) ++
  le_enc 8 (td_buffer td) ++ le_enc 8 (td_offsets td).

(** src/binder_hook_builder.cpp:65-71 [binder_write_read] *)
Record BinderWriteRead := {
  write_size : Z;
  write_consumed : Z;
  write_buffer : Z;
  read_size : Z;
  read_consumed : Z;
  read_buffer : Z;
}.

(** src/binder_hook_builder.cpp:1437-1446 [build_readonly_parser_handler] *)
Definition decode_bwr (bs : list Z) : BinderWriteRead := {|
  write_size := ld64 bs 0;
  write_consumed := ld64 bs 8;
  write_buffer := ld64 bs 16;
  read_size := ld64 bs 24;
  read_consumed := ld64 bs 32;
  read_buffer := ld64 bs 40;
|}.

Definition encode_bwr (b : BinderWriteRead) : list Z :=
  le_enc 8 (write_size b) ++ le_enc 8 (write_consumed b) ++ le_enc 8 (write_buffer b) ++
  le_enc 8 (read_size b) ++ le_enc 8 (read_consumed b) ++ le_enc 8 (read_buffer b).

(** * The current task and the parser scratch *)

(** What [get_current] and the two validated offsets give the handler. *)
Record TaskStruct := {
  task_kaddr : Z;
  task_pid : Z;
  task_tgid : Z;
}.

(** src/binder_hook_builder.cpp:29-41 [kParcelTokenKindScratchOffset .. kParcelTokenHeaderExtraScratchOffset] *)
Inductive scratch_word :=
  | kParcelTokenKind
  | kParcelTokenOffset
  | kParcelPrefixSize
  | kParcelFlags
  | kCorrelatedRequestFlags
  | kReplyPrefixSize
  | kReplyStatus
  | kReplyArrayLength
  | kReplyArrayOffset
  | kReplyFlags
  | kParcelTokenHeaderExtra.

#[global] Instance scratch_word_eq_dec : EqDecision scratch_word.
Proof. solve_decision. Defined.

Definition Scratch := scratch_word -> Z.

(** Every word is stored as zero before a transaction is looked at. *)

(** src/binder_hook_builder.cpp:817-829 [emit_reset_transaction_parse_scratch] *)
Definition emit_reset_transaction_parse_scratch : Scratch := fun _ => 0.
