(* ===== verification/Pending.v ===== *)
(** The pending table: the per-thread stack of synchronous requests the HAL has
    received and not yet answered (binder_hook_builder.cpp).  Operations first,
    then the table's invariant, its abstract view as a stack per task, and the
    refinement of push and pop against that view. *)

From S2P Require Import Prelude UserMemory KernelContext BinderWire.

(** src/binder_hook_builder.cpp:21-25 [kPendingBucketCount] *)
Definition kPendingBucketCount : Z := kPendingSlotCapacity / kPendingBucketWays.
(** src/binder_hook_builder.cpp:48-48 [kMapLockTryCount] *)
Definition kMapLockTryCount : nat := 8.
Definition kPendingBucketWayShift : Z := 3.

(** The eight slots of the bucket a task address hashes to. *)

(** src/binder_hook_builder.cpp:305-315 [emit_pending_push] *)
Definition bucket_ways (task : Z) : list nat :=
  seq (Z.to_nat (Z.shiftl (Z.land (Z.shiftr task 6) (kPendingBucketCount - 1))
                   kPendingBucketWayShift))
    (Z.to_nat kPendingBucketWays).

Definition slot_at (slots : list BinderPendingSlot) (i : nat) : BinderPendingSlot :=
  default zero_slot (slots !! i).

Definition frame_at (slot : BinderPendingSlot) (d : Z) : BinderPendingFrame :=
  default zero_frame (ps_frames slot !! Z.to_nat d).

(** Where a push goes: an existing stack of this very task, a slot whose task
    address was reused by another thread, an empty slot, or the occupied slot
    whose newest request is the oldest. *)
Inductive push_target :=
  | PushFound (i : nat)
  | PushReclaim (i : nat)
  | PushEmpty (i : nat)
  | PushEvict (i : nat)
  | PushNowhere.

(** The scan of the ways; [empty] is x14, [oldest] x10 and [oldest_id] x17. *)

(** src/binder_hook_builder.cpp:316-374 [emit_pending_push] *)
Fixpoint push_scan (task : TaskStruct) (slots : list BinderPendingSlot)
    (ways : list nat) (empty oldest : option nat) (oldest_id : Z) : push_target :=
  match ways with
  | [] =>
      match empty, oldest with
      | Some i, _ => PushEmpty i
      | None, Some i => PushEvict i
      | None, None => PushNowhere
      end
  | i :: ways =>
      let slot := slot_at slots i in
      if ps_task_kaddr slot =? 0 then
        push_scan task slots ways (match empty with Some e => Some e | None => Some i end)
          oldest oldest_id
      else if ps_task_kaddr slot =? task_kaddr task then
        if ps_pid slot =? task_pid task then
          if ps_tgid slot =? task_tgid task then PushFound i else PushReclaim i
        else PushReclaim i
      else if ps_depth slot =? 0 then push_scan task slots ways empty (Some i) 0
      else
        let id := pf_request_event_id (frame_at slot (ps_depth slot - 1)) in
        match oldest with
        | None => push_scan task slots ways empty (Some i) id
        | Some _ =>
            if oldest_id <=? id then push_scan task slots ways empty oldest oldest_id
            else push_scan task slots ways empty (Some i) id
        end
  end.

Definition push_select (task : TaskStruct) (slots : list BinderPendingSlot) : push_target :=
  push_scan task slots (bucket_ways (task_kaddr task)) None None UINT64_MAX.

(** src/binder_hook_builder.cpp:382-389 [emit_pending_push] *)
Definition claim_slot (task : TaskStruct) (slot : BinderPendingSlot) : BinderPendingSlot := {|
  ps_task_kaddr := task_kaddr task;
  ps_pid := task_pid task;
  ps_tgid := task_tgid task;
  ps_depth := 0;
  ps_frames := ps_frames slot;
|}.

(** src/binder_hook_builder.cpp:393-417 [emit_pending_push] *)
Definition append_frame (frame : BinderPendingFrame) (slot : BinderPendingSlot)
    : BinderPendingSlot := {|
  ps_task_kaddr := ps_task_kaddr slot;
  ps_pid := ps_pid slot;
  ps_tgid := ps_tgid slot;
  ps_depth := ps_depth slot + 1;
  ps_frames := <[Z.to_nat (ps_depth slot) := frame]> (ps_frames slot);
|}.

(** The frame leaves the slot; a slot without frames loses its task. *)

(** src/binder_hook_builder.cpp:472-499 [emit_pending_pop] *)
Definition drop_frame (slot : BinderPendingSlot) : BinderPendingSlot := {|
  ps_task_kaddr := if ps_depth slot - 1 =? 0 then 0 else ps_task_kaddr slot;
  ps_pid := ps_pid slot;
  ps_tgid := ps_tgid slot;
  ps_depth := ps_depth slot - 1;
  ps_frames := ps_frames slot;
|}.

(** Load-exclusive and store-exclusive, at most [n] times; a pair of the script
    is what one attempt observes, and without interference an attempt observes
    the lock word itself and stores. *)

(** src/binder_hook_builder.cpp:230-256 [emit_bounded_lock_acquire] *)
Fixpoint lock_tries (n : nat) (word : Z) (script : list (Z * Z)) : bool :=
  match n with
  | O => false
  | S n =>
      let '(observed, failed) := hd (word, 0) script in
      if observed =? 0 then
        if failed =? 0 then true else lock_tries n word (tl script)
      else lock_tries n word (tl script)
  end.

Section pending_ops.
Context {U : Type} `{UserAccess U}.

(** src/binder_hook_builder.cpp:230-256 [emit_bounded_lock_acquire] *)
Definition emit_bounded_lock_acquire (state drops : ctx_word) : HM U bool :=
  script ← h_lock_script;
  word ← h_get (fun c => kc_words c state);
  if lock_tries kMapLockTryCount word script then
    h_modify (put_word state 1);; mret true
  else
    emit_counter_increment drops;; mret false.

(** src/binder_hook_builder.cpp:258-266 [emit_bounded_lock_release] *)
Definition emit_bounded_lock_release (state : ctx_word) : HM U unit :=
  h_modify (put_word state 0).

(** src/binder_hook_builder.cpp:268-277 [emit_pending_lock_acquire] *)
Definition emit_pending_lock_acquire : HM U bool :=
  emit_bounded_lock_acquire pending_lock_state pending_lock_drops.

(** src/binder_hook_builder.cpp:279-284 [emit_pending_lock_release] *)
Definition emit_pending_lock_release : HM U unit :=
  emit_bounded_lock_release pending_lock_state.

(** src/binder_hook_builder.cpp:189-207 [emit_capture_active_hal_generation] *)
Definition emit_capture_active_hal_generation : HM U Z :=
  h_get (fun c => hs_generation (active_hal c)).

Definition store_slot (i : nat) (slot : BinderPendingSlot) : HM U unit :=
  h_modify (set_pending <[i := slot]>).

(** The slot the frame goes into, with the collision counter of a reclaimed or
    evicted slot. *)

(** src/binder_hook_builder.cpp:366-392 [emit_pending_push] *)
Definition push_claim (task : TaskStruct) (slots : list BinderPendingSlot)
    : HM U (option (nat * BinderPendingSlot)) :=
  match push_select task slots with
  | PushFound i => mret (Some (i, slot_at slots i))
  | PushReclaim i | PushEvict i =>
      emit_counter_increment pending_collisions;;
      mret (Some (i, claim_slot task (slot_at slots i)))
  | PushEmpty i => mret (Some (i, claim_slot task (slot_at slots i)))
  | PushNowhere => mret None
  end.

(** src/binder_hook_builder.cpp:287-435 [emit_pending_push] *)
Definition emit_pending_push (task : TaskStruct) (request_event_id : Z)
    (td : BinderTransactionData) (parcel_flags : Z) : HM U unit :=
  if Z.testbit (td_flags td) 0 then emit_counter_increment pending_oneway_ignored
  else
    acquired ← emit_pending_lock_acquire;
    if negb acquired then mret tt
    else
      slots ← h_get pending;
      claimed ← push_claim task slots;
      (match claimed with
       | None => mret tt
       | Some (i, slot) =>
           store_slot i slot;;
           if kPendingDepth <=? ps_depth slot then emit_counter_increment pending_overflows
           else
             generation ← emit_capture_active_hal_generation;
             store_slot i (append_frame {|
               pf_request_event_id := request_event_id;
               pf_target := td_target td;
               pf_data_size := td_data_size td;
               pf_hal_identity_generation := generation;
               pf_code := td_code td;
               pf_flags := td_flags td;
               pf_parcel_flags := parcel_flags |} slot);;
             emit_counter_increment pending_pushes
       end);;
      emit_pending_lock_release.

(** Pops the newest request of the current task: (x21, w17), zeros on a miss or
    when the HAL identities changed since the request was recorded. *)

(** src/binder_hook_builder.cpp:440-522 [emit_pending_pop] *)
Definition emit_pending_pop (task : TaskStruct) (terminal_reply : bool) : HM U (Z * Z) :=
  acquired ← emit_pending_lock_acquire;
  if negb acquired then mret (0, 0)
  else
    slots ← h_get pending;
    found ← (match find (fun i => ps_task_kaddr (slot_at slots i) =? task_kaddr task)
                   (bucket_ways (task_kaddr task)) with
      | None => emit_counter_increment pending_misses;; mret (0, 0)
      | Some i =>
          let slot := slot_at slots i in
          if ps_depth slot =? 0 then emit_counter_increment pending_misses;; mret (0, 0)
          else
            let frame := frame_at slot (ps_depth slot - 1) in
            generation ← emit_capture_active_hal_generation;
            reply ← (if generation =? pf_hal_identity_generation frame then
                       mret (pf_request_event_id frame, pf_parcel_flags frame)
                     else emit_counter_increment pending_generation_stale;; mret (0, 0));
            store_slot i (drop_frame slot);; mret reply
      end);
    (if found.1 =? 0 then mret tt
     else emit_counter_increment (if terminal_reply then pending_terminal_pops else pending_pops));;
    emit_pending_lock_release;;
    mret found.

End pending_ops.

(** * The table as pure functions *)

(** The table after a frame has been placed for [task]. *)
Definition push_result (task : TaskStruct) (frame : BinderPendingFrame)
    (slots : list BinderPendingSlot) : list BinderPendingSlot :=
  match push_select task slots with
  | PushFound i =>
      if kPendingDepth <=? ps_depth (slot_at slots i) then <[i := slot_at slots i]> slots
      else <[i := append_frame frame (slot_at slots i)]> slots
  | PushReclaim i | PushEmpty i | PushEvict i =>
      <[i := append_frame frame (claim_slot task (slot_at slots i))]> slots
  | PushNowhere => slots
  end.

Definition find_task (slots : list BinderPendingSlot) (t : Z) : option nat :=
  find (fun i => ps_task_kaddr (slot_at slots i) =? t) (bucket_ways t).

(** The table after the newest frame of task [t] has been taken. *)
Definition pop_result (t : Z) (slots : list BinderPendingSlot) : list BinderPendingSlot :=
  match find_task slots t with
  | Some i => if ps_depth (slot_at slots i) =? 0 then slots
              else <[i := drop_frame (slot_at slots i)]> slots
  | None => slots
  end.

(** * Abstract view: one stack of requests per task, newest first *)

Definition slot_stack (slot : BinderPendingSlot) : list BinderPendingFrame :=
  reverse (take (Z.to_nat (ps_depth slot)) (ps_frames slot)).

Definition pending_view (slots : list BinderPendingSlot) (t : Z) : list BinderPendingFrame :=
  match find_task slots t with
  | Some i => slot_stack (slot_at slots i)
  | None => []
  end.

(** The stack belongs to the thread that asks: the slot carries its identity. *)
Definition same_thread (slots : list BinderPendingSlot) (task : TaskStruct) : bool :=
  match find_task slots (task_kaddr task) with
  | Some i => (ps_pid (slot_at slots i) =? task_pid task) &&
              (ps_tgid (slot_at slots i) =? task_tgid task)
  | None => false
  end.

(** * The invariant of the table *)

Definition task_at (slots : list BinderPendingSlot) (i : nat) : Z :=
  ps_task_kaddr (slot_at slots i).

Definition slot_wf (i : nat) (slot : BinderPendingSlot) : Prop :=
  length (ps_frames slot) = Z.to_nat kPendingDepth /\
  (ps_task_kaddr slot <> 0 ->
   1 <= ps_depth slot <= kPendingDepth /\ In i (bucket_ways (ps_task_kaddr slot))).

Record pending_wf (slots : list BinderPendingSlot) : Prop := {
  pw_length : length slots = Z.to_nat kPendingSlotCapacity;
  pw_slot : forall i, (i < length slots)%nat -> slot_wf i (slot_at slots i);
  pw_unique : forall i j, (i < length slots)%nat -> (j < length slots)%nat ->
    task_at slots i = task_at slots j -> task_at slots i <> 0 -> i = j;
}.

Lemma bucket_ways_lt t i : In i (bucket_ways t) -> (i < Z.to_nat kPendingSlotCapacity)%nat.
Proof.
  unfold bucket_ways. rewrite in_seq.
  change (kPendingBucketCount - 1) with (Z.ones 5).
  rewrite Z.land_ones, Z.shiftl_mul_pow2 by (unfold kPendingBucketWayShift; lia).
  pose proof (Z.mod_pos_bound (Z.shiftr t 6) (2 ^ 5) ltac:(lia)).
  change (Z.to_nat kPendingBucketWays) with 8%nat.
  change (Z.to_nat kPendingSlotCapacity) with 256%nat.
  change (2 ^ kPendingBucketWayShift) with 8. lia.
Qed.

Lemma slot_at_insert slots i j x :
  (i < length slots)%nat ->
  slot_at (<[i := x]> slots) j = if decide (i = j) then x else slot_at slots j.
Proof.
  intros Hi. unfold slot_at. case_decide as Hij.
  - subst j. by rewrite list_lookup_insert_eq by done.
  - by rewrite list_lookup_insert_ne by done.
Qed.

Lemma find_task_Some slots t i :
  find_task slots t = Some i -> In i (bucket_ways t) /\ task_at slots i = t.
Proof. intros [Hin Ht]%find_some. split; [done|]. by apply Z.eqb_eq in Ht. Qed.

Lemma find_task_None slots t j :
  find_task slots t = None -> In j (bucket_ways t) -> task_at slots j <> t.
Proof.
  intros H Hj Ht. apply (find_none _ _ H) in Hj. apply Z.eqb_neq in Hj. done.
Qed.

(** The slot that carries a task is the one the lookup finds. *)
Lemma find_task_at slots i t :
  pending_wf slots -> (i < length slots)%nat -> task_at slots i = t -> t <> 0 ->
  find_task slots t = Some i.
Proof.
  intros Hwf Hi Ht Hnz. destruct (pw_slot _ Hwf i Hi) as [_ Hs].
  unfold task_at in Ht. rewrite Ht in Hs. destruct (Hs Hnz) as [_ Hin].
  destruct (find_task slots t) as [j|] eqn:E.
  - apply find_task_Some in E as [Hj Htj]. f_equal.
    apply (pw_unique _ Hwf); unfold task_at in *; [|done|congruence|congruence].
    apply bucket_ways_lt in Hj. by rewrite (pw_length _ Hwf).
  - by destruct (find_task_None _ _ _ E Hin).
Qed.

Lemma view_at slots i t :
  pending_wf slots -> (i < length slots)%nat -> task_at slots i = t -> t <> 0 ->
  pending_view slots t = slot_stack (slot_at slots i).
Proof. intros. unfold pending_view. by erewrite find_task_at. Qed.

Lemma view_absent slots t :
  (forall j, In j (bucket_ways t) -> task_at slots j <> t) -> pending_view slots t = [].
Proof.
  intros H. unfold pending_view. destruct (find_task slots t) eqn:E; [|done].
  apply find_task_Some in E as [Hin Ht]. by destruct (H _ Hin).
Qed.

(** Replacing the slot of index [i] by one that carries the task [t'] (or no
    task) leaves the view of every other task that did not live there. *)
Lemma view_insert_other slots i x t :
  pending_wf slots -> (i < length slots)%nat -> t <> 0 ->
  task_at slots i <> t -> ps_task_kaddr x <> t ->
  pending_view (<[i := x]> slots) t = pending_view slots t.
Proof.
  intros Hwf Hi Hnz Hold Hnew. unfold pending_view, find_task.
  assert (find (fun j => ps_task_kaddr (slot_at (<[i:=x]> slots) j) =? t) (bucket_ways t) =
          find (fun j => ps_task_kaddr (slot_at slots j) =? t) (bucket_ways t)) as ->.
  { induction (bucket_ways t) as [|j l IH]; [done|]. cbn [find].
    rewrite slot_at_insert by done. rewrite IH. case_decide as Hij; [|done].
    subst j. rewrite (proj2 (Z.eqb_neq _ _) Hnew).
    by rewrite (proj2 (Z.eqb_neq (ps_task_kaddr (slot_at slots i)) _) Hold). }
  destruct (find _ (bucket_ways t)) as [j|] eqn:E; [|done].
  apply find_some in E as [_ E]. apply Z.eqb_eq in E.
  rewrite slot_at_insert by done. case_decide; [subst; done|done].
Qed.

(** Rewriting one slot keeps the invariant when the new slot is well formed and
    its task lives nowhere else. *)
Lemma pending_wf_insert slots i x :
  pending_wf slots -> (i < length slots)%nat -> slot_wf i x ->
  (ps_task_kaddr x <> 0 -> forall j, (j < length slots)%nat -> j <> i ->
     task_at slots j <> ps_task_kaddr x) ->
  pending_wf (<[i := x]> slots).
Proof.
  intros Hwf Hi Hx Hfresh. split.
  - rewrite length_insert. apply Hwf.
  - intros j. rewrite length_insert. intros Hj. rewrite slot_at_insert by done.
    case_decide; [by subst j|]. by apply Hwf.
  - intros j k. rewrite !length_insert. unfold task_at. intros Hj Hk.
    rewrite !slot_at_insert by done. repeat case_decide; subst; try done.
    + intros Heq Hnz. exfalso. apply (Hfresh Hnz k); [done|done|]. unfold task_at. congruence.
    + intros Heq Hnz. exfalso. apply (Hfresh ltac:(congruence) j); [done|done|].
      unfold task_at. congruence.
    + intros. by apply (pw_unique _ Hwf).
Qed.

(** * What the scan of a bucket selects *)

Definition top_id (slots : list BinderPendingSlot) (i : nat) : Z :=
  pf_request_event_id (frame_at (slot_at slots i) (ps_depth (slot_at slots i) - 1)).

Definition carries_identity (slots : list BinderPendingSlot) (task : TaskStruct) (i : nat) : Prop :=
  ps_pid (slot_at slots i) = task_pid task /\ ps_tgid (slot_at slots i) = task_tgid task.

Definition scan_spec (task : TaskStruct) slots (ways : list nat) (empty oldest : option nat)
    (oldest_id : Z) (r : push_target) : Prop :=
  match r with
  | PushFound i =>
      In i ways /\ task_at slots i = task_kaddr task /\ carries_identity slots task i
  | PushReclaim i =>
      In i ways /\ task_at slots i = task_kaddr task /\ ~ carries_identity slots task i
  | PushEmpty i =>
      (empty = Some i \/ empty = None /\ In i ways /\ task_at slots i = 0) /\
      forall j, In j ways -> task_at slots j <> task_kaddr task
  | PushEvict i =>
      empty = None /\
      (forall j, In j ways -> task_at slots j <> 0 /\ task_at slots j <> task_kaddr task) /\
      (oldest = Some i /\ (forall j, In j ways -> oldest_id <= top_id slots j) \/
       In i ways /\ (forall j, In j ways -> top_id slots i <= top_id slots j) /\
       (oldest <> None -> top_id slots i <= oldest_id))
  | PushNowhere => empty = None /\ oldest = None /\ ways = []
  end.

(** One more occupied way of another task: it either leaves the candidate of the
    eviction alone or becomes it. *)
Lemma scan_spec_keep task slots i ways empty o oldest_id r :
  task_at slots i <> 0 -> task_at slots i <> task_kaddr task -> oldest_id <= top_id slots i ->
  scan_spec task slots ways empty (Some o) oldest_id r ->
  scan_spec task slots (i :: ways) empty (Some o) oldest_id r.
Proof.
  intros Hnz Hne Hle. destruct r as [k|k|k|k|]; cbn [scan_spec In].
  - intros (? & ?). by split; [right|].
  - intros (? & ?). by split; [right|].
  - intros [Hk Hall]. split; [|intros j [<-|Hj]; [done|by apply Hall]].
    destruct Hk as [->|(Hn & ? & ?)]; [by left|right]. split; [done|]. by split; [right|].
  - intros (He & Hall & Hk). split; [done|].
    split; [intros j [<-|Hj]; [done|by apply Hall]|].
    destruct Hk as [[Ho Hmin]|(Hin & Hmin & Hid)]; [left|right].
    + split; [done|]. intros j [<-|Hj]; [done|by apply Hmin].
    + specialize (Hid ltac:(done)). split; [by right|]. split; [|done].
      intros j [<-|Hj]; [lia|by apply Hmin].
  - by intros (_ & ? & _).
Qed.

Lemma scan_spec_take task slots i ways empty oldest oldest_id r :
  task_at slots i <> 0 -> task_at slots i <> task_kaddr task ->
  (oldest <> None -> top_id slots i <= oldest_id) ->
  scan_spec task slots ways empty (Some i) (top_id slots i) r ->
  scan_spec task slots (i :: ways) empty oldest oldest_id r.
Proof.
  intros Hnz Hne Hle. destruct r as [k|k|k|k|]; cbn [scan_spec In].
  - intros (? & ?). by split; [right|].
  - intros (? & ?). by split; [right|].
  - intros [Hk Hall]. split; [|intros j [<-|Hj]; [done|by apply Hall]].
    destruct Hk as [->|(Hn & ? & ?)]; [by left|right]. split; [done|]. by split; [right|].
  - intros (He & Hall & Hk). split; [done|].
    split; [intros j [<-|Hj]; [done|by apply Hall]|]. right.
    destruct Hk as [[[= <-] Hmin]|(Hin & Hmin & Hid)].
    + split; [by left|]. split; [|done]. intros j [<-|Hj]; [lia|by apply Hmin].
    + specialize (Hid ltac:(done)). split; [by right|].
      split; [intros j [<-|Hj]; [lia|by apply Hmin]|]. intros Ho. specialize (Hle Ho). lia.
  - by intros (_ & ? & _).
Qed.

Lemma scan_spec_empty task slots i ways empty oldest oldest_id r :
  task_at slots i = 0 -> task_kaddr task <> 0 ->
  scan_spec task slots ways (match empty with Some e => Some e | None => Some i end)
    oldest oldest_id r ->
  scan_spec task slots (i :: ways) empty oldest oldest_id r.
Proof.
  intros Hi Hnz. destruct r as [k|k|k|k|]; cbn [scan_spec In].
  - intros (? & ?). by split; [right|].
  - intros (? & ?). by split; [right|].
  - intros [Hk Hall]. split; [|intros j [<-|Hj]; [congruence|by apply Hall]].
    destruct empty as [e|]; destruct Hk as [[= <-]|(Hn & ? & ?)]; try done; [by left|].
    right. split; [done|]. by split; [left|].
  - intros (Hn & _). by destruct empty.
  - intros (Hn & _). by destruct empty.
Qed.

Lemma push_scan_spec task slots ways empty oldest oldest_id :
  task_kaddr task <> 0 ->
  (forall j, In j ways -> task_at slots j <> 0 -> 1 <= ps_depth (slot_at slots j)) ->
  scan_spec task slots ways empty oldest oldest_id
    (push_scan task slots ways empty oldest oldest_id).
Proof.
  intros Hnz. revert empty oldest oldest_id.
  induction ways as [|i ways IH]; intros empty oldest oldest_id Hdepth.
  { destruct empty; [by cbn; naive_solver|]. destruct oldest; cbn; naive_solver. }
  specialize (fun e o x => IH e o x (fun j Hj => Hdepth j (or_intror Hj))).
  specialize (Hdepth i (or_introl eq_refl)).
  cbn [push_scan]. fold (task_at slots i). fold (top_id slots i).
  destruct (Z.eqb_spec (task_at slots i) 0) as [Hz|Hocc].
  { by apply scan_spec_empty. }
  destruct (Z.eqb_spec (task_at slots i) (task_kaddr task)) as [Ht|Hne].
  { unfold scan_spec, carries_identity. repeat bcase; (split; [by left|]; split; [done|]);
      naive_solver. }
  destruct (Z.eqb_spec (ps_depth (slot_at slots i)) 0); [specialize (Hdepth Hocc); lia|].
  destruct oldest as [o|]; [bcase|].
  - by apply scan_spec_keep.
  - apply scan_spec_take; [done|done|lia|done].
  - by apply scan_spec_take.
Qed.

(** A zeroed table is well formed: every slot is free. *)
Lemma zero_pending_wf : pending_wf (replicate (Z.to_nat kPendingSlotCapacity) zero_slot).
Proof.
  assert (Hat : forall i, slot_at (replicate (Z.to_nat kPendingSlotCapacity) zero_slot) i = zero_slot).
  { intros i. unfold slot_at.
    destruct (replicate (Z.to_nat kPendingSlotCapacity) zero_slot !! i) as [x|] eqn:E; [|done].
    by apply lookup_replicate in E as [-> _]. }
  split; [apply length_replicate| |].
  - intros i _. rewrite Hat. split; [done|]. by intros [].
  - intros i j _ _. unfold task_at. rewrite !Hat. done.
Qed.

(** * Push and pop refine the stacks of the view *)

Lemma slot_stack_length slot :
  length (ps_frames slot) = Z.to_nat kPendingDepth -> 0 <= ps_depth slot <= kPendingDepth ->
  Z.of_nat (length (slot_stack slot)) = ps_depth slot.
Proof.
  unfold slot_stack, kPendingDepth. intros Hl Hd.
  rewrite length_reverse, length_take. lia.
Qed.

Lemma slot_stack_append f slot :
  length (ps_frames slot) = Z.to_nat kPendingDepth -> 0 <= ps_depth slot < kPendingDepth ->
  slot_stack (append_frame f slot) = f :: slot_stack slot.
Proof.
  unfold slot_stack, append_frame, kPendingDepth. cbn. intros Hl Hd.
  replace (Z.to_nat (ps_depth slot + 1)) with (S (Z.to_nat (ps_depth slot))) by lia.
  rewrite (take_S_r _ _ f).
  - by rewrite take_insert_ge, reverse_app by lia.
  - apply list_lookup_insert_eq. lia.
Qed.

Lemma slot_stack_drop slot :
  length (ps_frames slot) = Z.to_nat kPendingDepth -> 1 <= ps_depth slot <= kPendingDepth ->
  slot_stack slot = frame_at slot (ps_depth slot - 1) :: slot_stack (drop_frame slot).
Proof.
  unfold slot_stack, drop_frame, frame_at, kPendingDepth. cbn. intros Hl Hd.
  replace (Z.to_nat (ps_depth slot)) with (S (Z.to_nat (ps_depth slot - 1))) by lia.
  destruct (lookup_lt_is_Some_2 (ps_frames slot) (Z.to_nat (ps_depth slot - 1))) as [x Hx]; [lia|].
  by rewrite (take_S_r _ _ x), Hx, reverse_app.
Qed.

Section table.
Context (slots : list BinderPendingSlot) (Hwf : pending_wf slots).

Lemma way_lt t i : In i (bucket_ways t) -> (i < length slots)%nat.
Proof. intros. rewrite (pw_length _ Hwf). by eapply bucket_ways_lt. Qed.

Lemma occupied_depth j :
  (j < length slots)%nat -> task_at slots j <> 0 ->
  1 <= ps_depth (slot_at slots j) <= kPendingDepth.
Proof. intros Hj Hnz. destruct (pw_slot _ Hwf j Hj) as [_ Hs]. by apply Hs. Qed.

Lemma frames_length j :
  (j < length slots)%nat -> length (ps_frames (slot_at slots j)) = Z.to_nat kPendingDepth.
Proof. intros Hj. apply (pw_slot _ Hwf j Hj). Qed.

Lemma push_select_spec task :
  task_kaddr task <> 0 ->
  scan_spec task slots (bucket_ways (task_kaddr task)) None None UINT64_MAX
    (push_select task slots).
Proof.
  intros Hnz. apply push_scan_spec; [done|]. intros j Hj Ht.
  apply occupied_depth; [by eapply way_lt|done].
Qed.

(** The slot a push writes: either the task's own, or one taken over. *)
Lemma push_result_cases task f :
  task_kaddr task <> 0 ->
  exists i, In i (bucket_ways (task_kaddr task)) /\ (i < length slots)%nat /\
  ((task_at slots i = task_kaddr task /\ same_thread slots task = true /\
    push_result task f slots =
      <[i := if kPendingDepth <=? ps_depth (slot_at slots i) then slot_at slots i
             else append_frame f (slot_at slots i)]> slots) \/
   (same_thread slots task = false /\
    push_result task f slots = <[i := append_frame f (claim_slot task (slot_at slots i))]> slots /\
    (task_at slots i = task_kaddr task \/
     (forall j, In j (bucket_ways (task_kaddr task)) -> task_at slots j <> task_kaddr task) /\
     (task_at slots i = 0 \/
      forall j, In j (bucket_ways (task_kaddr task)) ->
        task_at slots j <> 0 /\ top_id slots i <= top_id slots j)))).
Proof.
  intros Hnz. pose proof (push_select_spec task Hnz) as Hs.
  unfold push_result, same_thread.
  destruct (push_select task slots) as [i|i|i|i|] eqn:E; cbn [scan_spec] in Hs.
  - destruct Hs as (Hin & Ht & Hp & Hg). exists i. pose proof (way_lt _ _ Hin).
    split; [done|]. split; [done|]. left. split; [done|].
    rewrite (find_task_at slots i) by done. rewrite Hp, Hg, !Z.eqb_refl.
    split; [done|]. by destruct (kPendingDepth <=? _).
  - destruct Hs as (Hin & Ht & Hid). exists i. pose proof (way_lt _ _ Hin).
    split; [done|]. split; [done|]. right. rewrite (find_task_at slots i) by done.
    split; [|split; [done|by left]]. apply andb_false_iff. unfold carries_identity in Hid.
    destruct (Z.eqb_spec (ps_pid (slot_at slots i)) (task_pid task)); [right|by left].
    apply Z.eqb_neq. naive_solver.
  - destruct Hs as [[[=]|(_ & Hin & Hz)] Hall]. exists i. pose proof (way_lt _ _ Hin).
    split; [done|]. split; [done|]. right.
    destruct (find_task slots (task_kaddr task)) as [j|] eqn:Ef.
    { apply find_task_Some in Ef as [Hj Htj]. by destruct (Hall _ Hj). }
    split; [done|]. split; [done|]. right. split; [done|by left].
  - destruct Hs as (_ & Hall & [[[=] _]|(Hin & Hmin & _)]). exists i.
    pose proof (way_lt _ _ Hin). split; [done|]. split; [done|]. right.
    destruct (find_task slots (task_kaddr task)) as [j|] eqn:Ef.
    { apply find_task_Some in Ef as [Hj Htj]. by destruct (Hall _ Hj). }
    split; [done|]. split; [done|]. right. split; [intros j Hj; by apply Hall|].
    right. intros j Hj. split; [by apply Hall|by apply Hmin].
  - destruct Hs as (_ & _ & Hs). by apply (f_equal length) in Hs.
Qed.

(** A task that lives at [i] or in none of its ways lives nowhere else. *)
Lemma task_elsewhere t i :
  t <> 0 -> (i < length slots)%nat ->
  task_at slots i = t \/ (forall j, In j (bucket_ways t) -> task_at slots j <> t) ->
  forall j, (j < length slots)%nat -> j <> i -> task_at slots j <> t.
Proof.
  intros Hnz Hi Hcase j Hj Hne Ht. destruct Hcase as [Hti|Hall].
  - apply Hne. apply (pw_unique _ Hwf); [done|done|congruence|congruence].
  - destruct (pw_slot _ Hwf j Hj) as [_ Hs]. unfold task_at in *. rewrite Ht in Hs.
    by apply (Hall j); [apply Hs|].
Qed.

Lemma push_result_wf task f :
  task_kaddr task <> 0 -> pending_wf (push_result task f slots).
Proof.
  intros Hnz.
  destruct (push_result_cases task f Hnz) as (i & Hin & Hi & [(Ht & _ & ->)|(_ & -> & Hcase)]).
  - pose proof (occupied_depth i Hi ltac:(congruence)) as Hd. pose proof (frames_length i Hi).
    apply pending_wf_insert; [done|done| |].
    + bcase; [by apply Hwf|]. unfold task_at in Ht. unfold slot_wf, append_frame. cbn.
      rewrite length_insert, Ht. split; [done|]. intros _. split; [lia|done].
    + intros _ j Hj Hne. replace (ps_task_kaddr _) with (task_kaddr task) by (bcase; done).
      by apply (task_elsewhere _ i); [done|done|left|..].
  - apply pending_wf_insert; [done|done| |].
    + unfold slot_wf, append_frame, claim_slot, kPendingDepth. cbn.
      rewrite length_insert, frames_length by done. by split; [|split; [lia|]].
    + intros _ j Hj Hne. cbn. apply (task_elsewhere _ i); [done|done| |done|done].
      destruct Hcase as [?|[? _]]; [by left|by right].
Qed.

(** Push on the task's own stack: the request is on top, unless the four frames
    of the task are taken; a stack left by another thread at the same address
    is discarded. *)
Lemma push_view_self task f :
  task_kaddr task <> 0 ->
  pending_view (push_result task f slots) (task_kaddr task) =
  if same_thread slots task then
    if kPendingDepth <=? Z.of_nat (length (pending_view slots (task_kaddr task)))
    then pending_view slots (task_kaddr task)
    else f :: pending_view slots (task_kaddr task)
  else [f].
Proof.
  intros Hnz. pose proof (push_result_wf task f Hnz) as Hwf'.
  destruct (push_result_cases task f Hnz) as (i & Hin & Hi & [(Ht & Hs & Hr)|(Hs & Hr & _)]);
    rewrite Hs; rewrite Hr in Hwf' |- *; clear Hr.
  - pose proof (occupied_depth i Hi ltac:(congruence)) as Hd.
    rewrite (view_at slots i) by done. rewrite slot_stack_length by (rewrite ?frames_length; lia).
    unfold task_at in Ht.
    rewrite (view_at _ i); [|done|by rewrite length_insert| |done].
    + rewrite slot_at_insert, decide_True by done. bcase; [done|].
      apply slot_stack_append; [by apply frames_length|lia].
    + unfold task_at. rewrite slot_at_insert, decide_True by done. by bcase.
  - rewrite (view_at _ i); [|done|by rewrite length_insert| |done].
    + rewrite slot_at_insert, decide_True by done.
      rewrite slot_stack_append; [done|by apply frames_length|done].
    + unfold task_at. by rewrite slot_at_insert, decide_True by done.
Qed.

(** The stack of another task is either untouched or, when the bucket is full of
    other tasks, the one whose newest request is the oldest, and then dropped. *)
Definition evicted (task : TaskStruct) (t : Z) : Prop :=
  exists i, In i (bucket_ways (task_kaddr task)) /\ task_at slots i = t /\
  forall j, In j (bucket_ways (task_kaddr task)) ->
    task_at slots j <> 0 /\ task_at slots j <> task_kaddr task /\
    top_id slots i <= top_id slots j.

Lemma push_view_other task f t :
  task_kaddr task <> 0 -> t <> 0 -> t <> task_kaddr task ->
  pending_view (push_result task f slots) t = pending_view slots t \/
  evicted task t /\ pending_view (push_result task f slots) t = [].
Proof.
  intros Hnz Htnz Hne.
  destruct (push_result_cases task f Hnz) as (i & Hin & Hi & [(Ht & _ & ->)|(_ & -> & Hcase)]).
  - left. apply view_insert_other; [done|done|done|congruence|].
    unfold task_at in Ht. bcase; cbn; congruence.
  - destruct (decide (task_at slots i = t)) as [Hold|Hold].
    + right. destruct Hcase as [Hti|[Hall [Hz|Hmin]]]; [congruence|congruence|].
      split; [exists i; split; [done|]; split; [done|]; intros j Hj|].
      { destruct (Hmin j Hj). by split; [|split; [apply Hall|]]. }
      apply view_absent. intros j Hj. pose proof (way_lt _ _ Hj) as Hjl.
      unfold task_at. rewrite slot_at_insert by done. case_decide as Hij; [cbn; congruence|].
      intros Htj. apply Hij. by apply (pw_unique _ Hwf); unfold task_at in *; congruence.
    + left. apply view_insert_other; [done|done|done|done|cbn; congruence].
Qed.

(** * Pop *)

Lemma pop_result_cases t :
  t <> 0 ->
  (pending_view slots t = [] /\ pop_result t slots = slots /\ find_task slots t = None) \/
  exists i, (i < length slots)%nat /\ find_task slots t = Some i /\ task_at slots i = t /\
    1 <= ps_depth (slot_at slots i) <= kPendingDepth /\
    pop_result t slots = <[i := drop_frame (slot_at slots i)]> slots /\
    pending_view slots t =
      frame_at (slot_at slots i) (ps_depth (slot_at slots i) - 1) ::
      slot_stack (drop_frame (slot_at slots i)).
Proof.
  intros Hnz. unfold pending_view, pop_result. destruct (find_task slots t) as [i|] eqn:E; [right|left; done].
  apply find_task_Some in E as [Hin Ht]. pose proof (way_lt _ _ Hin) as Hi.
  pose proof (occupied_depth i Hi ltac:(congruence)) as Hd.
  exists i. rewrite (proj2 (Z.eqb_neq _ _)) by lia. do 5 (split; [done|]).
  apply slot_stack_drop; [by apply frames_length|done].
Qed.

Lemma pop_result_wf t : t <> 0 -> pending_wf (pop_result t slots).
Proof.
  intros Hnz. destruct (pop_result_cases t Hnz) as [(_ & -> & _)|(i & Hi & _ & Ht & Hd & -> & _)];
    [done|]. destruct (pw_slot _ Hwf i Hi) as [Hl Hs]. unfold task_at in Ht.
  apply pending_wf_insert; [done|done| |].
  - split; [done|]. cbn. bcase; [done|]. intros Htk. split; [lia|by apply Hs].
  - cbn. bcase; [done|]. intros _. apply task_elsewhere; [congruence|done|by left].
Qed.

Lemma pop_view_self t :
  t <> 0 -> pending_view (pop_result t slots) t = tail (pending_view slots t).
Proof.
  intros Hnz. pose proof (pop_result_wf t Hnz) as Hwf'.
  destruct (pop_result_cases t Hnz) as [(Hv & -> & _)|(i & Hi & _ & Ht & Hd & Hr & ->)];
    [by rewrite Hv|]. rewrite Hr in Hwf' |- *. cbn [tail]. unfold task_at in Ht.
  destruct (Z.eqb_spec (ps_depth (slot_at slots i) - 1) 0) as [Hlast|Hmore].
  - replace (slot_stack (drop_frame (slot_at slots i))) with (@nil BinderPendingFrame)
      by (unfold slot_stack, drop_frame; cbn; by rewrite Hlast).
    apply view_absent. intros j Hj. pose proof (way_lt _ _ Hj) as Hjl. unfold task_at.
    rewrite slot_at_insert by done. case_decide as Hij; cbn; [by rewrite Hlast; intros <-|].
    apply (task_elsewhere t i); [done|done|by left|done|done].
  - rewrite (view_at _ i); [|done|by rewrite length_insert| |done].
    + by rewrite slot_at_insert, decide_True by done.
    + unfold task_at. rewrite slot_at_insert, decide_True by done. cbn.
      by rewrite (proj2 (Z.eqb_neq _ _) Hmore).
Qed.

Lemma pop_view_other t t' :
  t <> 0 -> t' <> 0 -> t' <> t ->
  pending_view (pop_result t slots) t' = pending_view slots t'.
Proof.
  intros Hnz Htnz Hne.
  destruct (pop_result_cases t Hnz) as [(_ & -> & _)|(i & Hi & _ & Ht & _ & -> & _)]; [done|].
  unfold task_at in Ht. apply view_insert_other; [done|done|done|unfold task_at; congruence|].
  cbn. bcase; congruence.
Qed.

End table.
