(* ===== verification/PendingFacts.v ===== *)
(** What one handler's push and pop do to the pending table: the refinement of
    the emitted code against the per-task stacks, the nesting of requests and
    replies, and the behaviour under lock contention. *)

From S2P Require Import Prelude UserMemory KernelContext BinderWire Pending.

Section pending_facts.
Context {U : Type} `{UserAccess U}.
Implicit Types s : hstate U.

Definition table s : list BinderPendingSlot := pending (h_ctx s).

(** The bounded try-lock succeeds for the acquisition that comes next. *)
Definition lock_granted s : Prop :=
  lock_tries kMapLockTryCount (kc_words (h_ctx s) pending_lock_state) (hd [] (h_locks s)) = true.

Definition lock_refused s : Prop :=
  lock_tries kMapLockTryCount (kc_words (h_ctx s) pending_lock_state) (hd [] (h_locks s)) = false.

Definition request_frame s (request_event_id : Z) (td : BinderTransactionData)
    (parcel_flags : Z) : BinderPendingFrame := {|
  pf_request_event_id := request_event_id;
  pf_target := td_target td;
  pf_data_size := td_data_size td;
  pf_hal_identity_generation := hs_generation (active_hal (h_ctx s));
  pf_code := td_code td;
  pf_flags := td_flags td;
  pf_parcel_flags := parcel_flags |}.

(** An unobstructed acquisition: no other CPU holds or contends for the word. *)
Lemma lock_granted_free s :
  kc_words (h_ctx s) pending_lock_state = 0 -> h_locks s = [] -> lock_granted s.
Proof. unfold lock_granted. by intros -> ->. Qed.

(** A word that stays taken is given up after the bounded number of attempts. *)
Lemma lock_refused_held s :
  kc_words (h_ctx s) pending_lock_state <> 0 -> h_locks s = [] -> lock_refused s.
Proof.
  unfold lock_refused. intros Hw ->. unfold kMapLockTryCount. cbn.
  by rewrite (proj2 (Z.eqb_neq _ _) Hw).
Qed.

#[local] Arguments lock_tries : simpl never.
#[local] Arguments kMapLockTryCount : simpl never.

Lemma emit_pending_push_run task id td fl s :
  Z.testbit (td_flags td) 0 = false -> lock_granted s ->
  let s' := (emit_pending_push task id td fl s).2 in
  table s' = push_result task (request_frame s id td fl) (table s) /\
  kc_words (h_ctx s') pending_lock_state = 0 /\ h_mem s' = h_mem s /\
  active_hal (h_ctx s') = active_hal (h_ctx s) /\ h_locks s' = tl (h_locks s).
Proof.
  intros Hsync Hlock. unfold emit_pending_push. rewrite Hsync.
  unfold emit_pending_lock_acquire, emit_bounded_lock_acquire, push_claim, push_result, table.
  unfold mbind, HM_bind, mret, HM_ret, h_get, h_modify, h_lock_script.
  unfold lock_granted in Hlock. cbn. rewrite Hlock. cbn.
  destruct (push_select task (pending (h_ctx s))) as [i|i|i|i|]; cbn; try (repeat split; done).
  - bcase; cbn; repeat split; try done. by rewrite list_insert_insert_eq.
  - repeat split. by rewrite list_insert_insert_eq.
  - repeat split. by rewrite list_insert_insert_eq.
  - repeat split. by rewrite list_insert_insert_eq.
Qed.

Lemma emit_pending_pop_run task terminal s :
  lock_granted s ->
  let '(reply, s') := emit_pending_pop task terminal s in
  table s' = pop_result (task_kaddr task) (table s) /\
  kc_words (h_ctx s') pending_lock_state = 0 /\ h_mem s' = h_mem s /\
  reply = match find_task (table s) (task_kaddr task) with
          | Some i =>
              let slot := slot_at (table s) i in
              let frame := frame_at slot (ps_depth slot - 1) in
              if ps_depth slot =? 0 then (0, 0)
              else if hs_generation (active_hal (h_ctx s)) =? pf_hal_identity_generation frame
              then (pf_request_event_id frame, pf_parcel_flags frame) else (0, 0)
          | None => (0, 0)
          end.
Proof.
  intros Hlock. unfold emit_pending_pop, pop_result, find_task, table.
  unfold emit_pending_lock_acquire, emit_bounded_lock_acquire.
  unfold mbind, HM_bind, mret, HM_ret, h_get, h_modify, h_lock_script.
  unfold lock_granted in Hlock. cbn. rewrite Hlock. cbn.
  destruct (find _ _) as [i|] eqn:E; cbn; [|repeat split; done].
  destruct (ps_depth (slot_at (pending (h_ctx s)) i) =? 0) eqn:Ed; cbn; [repeat split; done|].
  unfold emit_capture_active_hal_generation, h_get. cbn.
  change (active_hal (put_word pending_lock_state 1 (h_ctx s))) with (active_hal (h_ctx s)).
  destruct (hs_generation _ =? _); cbn; [|repeat split; done].
  destruct (pf_request_event_id _ =? 0); cbn; repeat split; done.
Qed.

(** A handler that cannot get the table's lock within its eight attempts drops the
    record instead of waiting; what remains is the count of the drop. *)
Definition dropped_by_contention s : hstate U := {|
  h_ctx := add_word pending_lock_drops 1 (h_ctx s);
  h_mem := h_mem s; h_parcel := h_parcel s; h_locks := tl (h_locks s) |}.

(** The table, the lock word and user memory are untouched, and a reply finds no
    correlation. *)
Lemma pending_contended task terminal id td fl s :
  Z.testbit (td_flags td) 0 = false -> lock_refused s ->
  emit_pending_push task id td fl s = (tt, dropped_by_contention s) /\
  emit_pending_pop task terminal s = ((0, 0), dropped_by_contention s).
Proof.
  unfold lock_refused. intros Hsync Hlock.
  unfold emit_pending_push, emit_pending_pop, emit_pending_lock_acquire,
    emit_bounded_lock_acquire, mbind, HM_bind, mret, HM_ret, h_get, h_lock_script.
  rewrite Hsync. cbn. by rewrite Hlock.
Qed.

(** C13: a synchronous deviceUniqueId request pushed by a HAL thread, when the bounded
    try-lock on the table is granted, refines the push on that thread's stack: the
    frame is on top with the request's event id, parcel flags and the HAL generation
    of the moment, unless the thread's four frames are taken; a stack left at the same
    task address by another thread is replaced; every other thread's stack is untouched
    or, in a full bucket, is the one whose newest request is the oldest and is dropped;
    the table stays well formed and the lock is released.  When all eight tries at the
    lock fail the request is dropped, and only the counter of such drops changes. *)
Theorem pending_push_refines task id td fl s :
  pending_wf (table s) -> task_kaddr task <> 0 -> Z.testbit (td_flags td) 0 = false ->
  let s' := (emit_pending_push task id td fl s).2 in
  let frame := request_frame s id td fl in
  let stack := pending_view (table s) (task_kaddr task) in
  (lock_refused s -> s' = dropped_by_contention s) /\
  (lock_granted s ->
    pending_wf (table s') /\
    kc_words (h_ctx s') pending_lock_state = 0 /\
    pending_view (table s') (task_kaddr task) =
      (if same_thread (table s) task then
         if kPendingDepth <=? Z.of_nat (length stack) then stack else frame :: stack
       else [frame]) /\
    forall t, t <> 0 -> t <> task_kaddr task ->
      pending_view (table s') t = pending_view (table s) t \/
      evicted (table s) task t /\ pending_view (table s') t = []).
Proof.
  intros Hwf Hnz Hsync. cbn zeta. split; intros Hlock.
  { by destruct (pending_contended task false id td fl s Hsync Hlock) as [-> _]. }
  destruct (emit_pending_push_run task id td fl s Hsync Hlock) as (Ht & Hl & _).
  rewrite Ht. split; [by apply push_result_wf|]. split; [done|].
  split; [by apply push_view_self|]. intros t Ht0 Hne. by apply push_view_other.
Qed.

(** C14: a BC_REPLY, when the bounded try-lock on the table is granted, pops exactly the
    newest request recorded under its thread's task address and leaves the stacks of
    every other address alone; the correlation (event id and parcel flags) is handed
    out only when the HAL identity generation is still the one recorded with the
    request, otherwise the frame is consumed and the reply is uncorrelated.  The pid
    and tgid recorded with the stack are not looked at, so a thread at the address of
    one that has exited takes what that one left ([pending_pop_stale_identity]).  When
    all eight tries at the lock fail the reply is uncorrelated, and only the counter of
    such drops changes. *)
Theorem pending_pop_refines task terminal s :
  pending_wf (table s) -> task_kaddr task <> 0 ->
  let '(reply, s') := emit_pending_pop task terminal s in
  let stack := pending_view (table s) (task_kaddr task) in
  (lock_refused s -> reply = (0, 0) /\ s' = dropped_by_contention s) /\
  (lock_granted s ->
    pending_wf (table s') /\
    kc_words (h_ctx s') pending_lock_state = 0 /\
    pending_view (table s') (task_kaddr task) = tail stack /\
    (forall t, t <> 0 -> t <> task_kaddr task ->
       pending_view (table s') t = pending_view (table s) t) /\
    reply = match stack with
            | frame :: _ =>
                if hs_generation (active_hal (h_ctx s)) =? pf_hal_identity_generation frame
                then (pf_request_event_id frame, pf_parcel_flags frame) else (0, 0)
            | [] => (0, 0)
            end).
Proof.
  intros Hwf Hnz. pose proof (emit_pending_pop_run task terminal s) as Hrun.
  pose proof (fun Hl => proj2 (pending_contended task terminal 0 (decode_transaction []) 0 s eq_refl Hl))
    as Hrefused.
  destruct (emit_pending_pop task terminal s) as [reply s']. cbn zeta. split; intros Hlock.
  { specialize (Hrefused Hlock). by apply (inj2 pair) in Hrefused as [-> ->]. }
  destruct (Hrun Hlock) as (Ht & Hl & _ & Hr).
  rewrite Ht. split; [by apply pop_result_wf|]. split; [done|].
  split; [by apply pop_view_self|]. split; [intros; by apply pop_view_other|].
  rewrite Hr. destruct (pop_result_cases (table s) Hwf (task_kaddr task) Hnz)
    as [(-> & _ & ->)|(i & _ & -> & _ & Hd & _ & ->)]; [done|].
  cbn zeta. by rewrite (proj2 (Z.eqb_neq (ps_depth _) 0)) by lia.
Qed.

(** The reply that follows a push, in any later state that still has the pushed
    table, the identity generation and a free lock. *)
Lemma pop_after_push task frame slots terminal s :
  pending_wf slots -> task_kaddr task <> 0 -> lock_granted s ->
  table s = push_result task frame slots ->
  hs_generation (active_hal (h_ctx s)) = pf_hal_identity_generation frame ->
  same_thread slots task = true \/ pending_view slots (task_kaddr task) = [] ->
  Z.of_nat (length (pending_view slots (task_kaddr task))) < kPendingDepth ->
  (emit_pending_pop task terminal s).1 = (pf_request_event_id frame, pf_parcel_flags frame) /\
  table (emit_pending_pop task terminal s).2 = pop_result (task_kaddr task) (table s) /\
  pending_view (table (emit_pending_pop task terminal s).2) (task_kaddr task) =
    pending_view slots (task_kaddr task) /\
  h_mem (emit_pending_pop task terminal s).2 = h_mem s.
Proof.
  intros Hwf Hnz Hlock Ht Hgen Hown Hroom.
  pose proof (push_result_wf slots Hwf task frame Hnz) as Hwf1. rewrite <-Ht in Hwf1.
  pose proof (emit_pending_pop_run task terminal s Hlock) as Hrun.
  destruct (emit_pending_pop task terminal s) as [reply s']. destruct Hrun as (Ht' & _ & Hm' & Hr).
  assert (Hself : pending_view (table s) (task_kaddr task) =
      frame :: pending_view slots (task_kaddr task)).
  { rewrite Ht, push_view_self by done. destruct (same_thread slots task) eqn:E.
    - bcase; [lia|done].
    - destruct Hown as [?| ->]; [congruence|done]. }
  cbn [fst snd]. split; [|split; [done|split; [|done]]].
  - rewrite Hr. destruct (pop_result_cases (table s) Hwf1 (task_kaddr task) Hnz)
      as [(Hv & _)|(i & _ & -> & _ & Hd & _ & Hv)]; rewrite Hself in Hv; [done|].
    cbn zeta. rewrite (proj2 (Z.eqb_neq (ps_depth _) 0)) by lia.
    injection Hv as <- _. by rewrite Hgen, Z.eqb_refl.
  - by rewrite Ht', pop_view_self, Hself.
Qed.

(** requests and replies nest: with nobody else contending for the table, a
    push by a thread that has room, followed by that thread's reply, returns the
    request's own event id and parcel flags, and leaves the thread's stack, user
    memory and every stack that was not evicted as they were. *)
Lemma pending_push_pop task terminal id td fl s :
  pending_wf (table s) -> task_kaddr task <> 0 -> Z.testbit (td_flags td) 0 = false ->
  kc_words (h_ctx s) pending_lock_state = 0 -> h_locks s = [] ->
  same_thread (table s) task = true \/ pending_view (table s) (task_kaddr task) = [] ->
  Z.of_nat (length (pending_view (table s) (task_kaddr task))) < kPendingDepth ->
  let '(reply, s') := emit_pending_pop task terminal (emit_pending_push task id td fl s).2 in
  reply = (id, fl) /\
  pending_view (table s') (task_kaddr task) = pending_view (table s) (task_kaddr task) /\
  h_mem s' = h_mem s /\
  forall t, t <> 0 -> t <> task_kaddr task ->
    pending_view (table s') t = pending_view (table s) t \/
    evicted (table s) task t /\ pending_view (table s') t = [].
Proof.
  intros Hwf Hnz Hsync Hfree Hscript Hown Hroom.
  pose proof (lock_granted_free s Hfree Hscript) as Hlock.
  destruct (emit_pending_push_run task id td fl s Hsync Hlock) as (Ht & Hl & Hm & Hh & Hs).
  set (s1 := (emit_pending_push task id td fl s).2) in *.
  assert (lock_granted s1) as Hlock1 by (apply lock_granted_free; [done|by rewrite Hs, Hscript]).
  destruct (pop_after_push task (request_frame s id td fl) (table s) terminal s1)
    as (Hr & Ht' & Hv & Hm'); [done|done|done|done|by rewrite Hh|done|done|].
  pose proof (push_result_wf (table s) Hwf task (request_frame s id td fl) Hnz) as Hwf1.
  destruct (emit_pending_pop task terminal s1) as [reply s']. cbn [fst snd] in *.
  split; [done|]. split; [done|]. split; [congruence|].
  intros t Ht0 Hne. rewrite Ht', Ht, pop_view_other by done. by apply push_view_other.
Qed.

(** The thread identity recorded with a stack is checked when a request is
    pushed, not when a reply is popped: a thread that got the task address of an
    exited one, which a push would treat as a stranger, is handed the correlation
    of the exited thread's request. *)
Lemma pending_pop_stale_identity task terminal frame stack s :
  pending_wf (table s) -> task_kaddr task <> 0 -> lock_granted s ->
  same_thread (table s) task = false ->
  pending_view (table s) (task_kaddr task) = frame :: stack ->
  hs_generation (active_hal (h_ctx s)) = pf_hal_identity_generation frame ->
  (forall f, pending_view (push_result task f (table s)) (task_kaddr task) = [f]) /\
  (emit_pending_pop task terminal s).1 = (pf_request_event_id frame, pf_parcel_flags frame).
Proof.
  intros Hwf Hnz Hlock Hstranger Hview Hgen. split.
  - intros f. by rewrite push_view_self, Hstranger.
  - pose proof (emit_pending_pop_run task terminal s Hlock) as Hrun.
    destruct (emit_pending_pop task terminal s) as [reply s']. destruct Hrun as (_ & _ & _ & ->).
    destruct (pop_result_cases (table s) Hwf (task_kaddr task) Hnz)
      as [(Hv & _)|(i & _ & -> & _ & Hd & _ & Hv)]; rewrite Hview in Hv; [done|].
    cbn zeta. rewrite (proj2 (Z.eqb_neq (ps_depth _) 0)) by lia.
    injection Hv as <- _. by rewrite Hgen, Z.eqb_refl.
Qed.

End pending_facts.

(** * Concrete runs *)

Definition demo_task : TaskStruct := {| task_kaddr := 4096; task_pid := 700; task_tgid := 600 |}.
Definition demo_stranger : TaskStruct := {| task_kaddr := 4096; task_pid := 900; task_tgid := 800 |}.
Definition demo_request : BinderTransactionData :=
  {| td_target := 17; td_cookie := 0; td_code := 11; td_flags := 0; td_sender_pid := 5;
     td_sender_euid := 6; td_data_size := 160; td_offsets_size := 0; td_buffer := 8192;
     td_offsets := 0 |}.
Definition demo_state : hstate AddressSpace :=
  {| h_ctx := zero_context; h_mem := mk_address_space []; h_parcel := []; h_locks := [] |}.
Definition demo_held : hstate AddressSpace :=
  {| h_ctx := put_word pending_lock_state 1 zero_context; h_mem := mk_address_space [];
     h_parcel := []; h_locks := [] |}.

Lemma zero_table_wf : pending_wf (table demo_state).
Proof. apply zero_pending_wf. Qed.

Definition demo_frame : BinderPendingFrame := request_frame demo_state 33 demo_request 1.
Definition demo_pushed : hstate AddressSpace :=
  (emit_pending_push demo_task 33 demo_request 1 demo_state).2.

Lemma demo_pushed_table : table demo_pushed = push_result demo_task demo_frame (table demo_state).
Proof. by apply (emit_pending_push_run demo_task 33 demo_request 1 demo_state). Qed.

Lemma demo_pushed_wf : pending_wf (table demo_pushed).
Proof. rewrite demo_pushed_table. by apply push_result_wf; [apply zero_table_wf|]. Qed.

Lemma demo_pushed_view : pending_view (table demo_pushed) (task_kaddr demo_task) = [demo_frame].
Proof. rewrite demo_pushed_table. vm_compute. done. Qed.

Lemma pending_push_refines_witness :
  pending_view (table demo_pushed) (task_kaddr demo_task) = [demo_frame].
Proof.
  destruct (pending_push_refines demo_task 33 demo_request 1 demo_state zero_table_wf
    ltac:(done) ltac:(done)) as [_ Hgranted]. apply Hgranted. done.
Defined.

Lemma pending_pop_refines_witness :
  (emit_pending_pop demo_task false demo_pushed).1 = (33, 1).
Proof.
  pose proof (pending_pop_refines demo_task false demo_pushed demo_pushed_wf ltac:(done)) as H.
  destruct (emit_pending_pop demo_task false demo_pushed) as [reply s'].
  destruct H as (_ & H). destruct (H eq_refl) as (_ & _ & _ & _ & ->). rewrite demo_pushed_view. done.
Defined.

Lemma pending_push_pop_witness :
  (emit_pending_pop demo_task false demo_pushed).1 = (33, 1).
Proof.
  pose proof (pending_push_pop demo_task false 33 demo_request 1 demo_state zero_table_wf
    ltac:(done) ltac:(done) ltac:(done) ltac:(done) ltac:(by right) ltac:(done)) as H.
  unfold demo_pushed. destruct (emit_pending_pop _ _ _) as [reply s'].
  by destruct H as [-> _].
Defined.

Lemma pending_contended_witness :
  kc_words (h_ctx (emit_pending_push demo_task 33 demo_request 1 demo_held).2) pending_lock_drops = 1.
Proof.
  destruct (pending_contended demo_task false 33 demo_request 1 demo_held ltac:(done)
    ltac:(done)) as [-> _]. done.
Defined.

Lemma pending_pop_stale_identity_witness :
  same_thread (table demo_pushed) demo_stranger = false /\
  (emit_pending_pop demo_stranger false demo_pushed).1 = (33, 1).
Proof.
  split; [vm_compute; done|].
  apply (pending_pop_stale_identity demo_stranger false demo_frame [] demo_pushed demo_pushed_wf);
    [done|vm_compute; done..|apply demo_pushed_view|vm_compute; done].
Defined.
