(* ===== verification/Parcel.v ===== *)
(** Recognition of a deviceUniqueId request in the bounded prefix of a Parcel
    (binder_hook_builder.cpp): the string matchers, the descriptor and property
    search, and the capture of the prefix.  The theorems show that what is
    recognised depends on the copied bytes alone, that the search agrees with a
    direct description of it, and that the requests the platform's clients
    serialise are recognised. *)

From S2P Require Import Prelude UserMemory KernelContext BinderWire.

(** src/binder_hook_builder.cpp:20-20 [kGetPropertyByteArrayTransactionCode] *)
Definition kGetPropertyByteArrayTransactionCode : Z := 11.
(** src/binder_hook_builder.cpp:28-28 [kParcelPrefixMaxBytes] *)
Definition kParcelPrefixMaxBytes : Z := 256.

Definition kDrmPluginDescriptor : list Z := bytes_of_string "android.hardware.drm.IDrmPlugin".
Definition kDeviceUniqueId : list Z := bytes_of_string "deviceUniqueId".

(** src/binder_hook_builder.cpp:551-553 [align4] *)
Definition align4 (value : Z) : Z := Z.land (u32 (value + 3)) (Z.lxor 3 UINT32_MAX).

Definition ld8 (bs : list Z) (off : nat) : Z := le_dec (slice off 1 bs).
Definition ld16 (bs : list Z) (off : nat) : Z := le_dec (slice off 2 bs).

(** * Matchers

    [area] is the parcel area of the scratch; an offset counts from its start. *)

(** src/binder_hook_builder.cpp:577-598 [emit_match_utf16_contents] *)
Fixpoint emit_match_utf16_contents (area : list Z) (chars_offset : nat) (value : list Z) : bool :=
  match value with
  | [] => ld16 area chars_offset =? 0
  | c :: value =>
      if ld16 area chars_offset =? c
      then emit_match_utf16_contents area (chars_offset + 2) value else false
  end.

(** src/binder_hook_builder.cpp:600-621 [emit_match_utf8_contents] *)
Fixpoint emit_match_utf8_contents (area : list Z) (chars_offset : nat) (value : list Z) : bool :=
  match value with
  | [] => ld8 area chars_offset =? 0
  | c :: value =>
      if ld8 area chars_offset =? c
      then emit_match_utf8_contents area (chars_offset + 1) value else false
  end.

(** src/binder_hook_builder.cpp:555-575 [emit_match_utf16_string] *)
Definition emit_match_utf16_string (area : list Z) (length_offset : nat) (value : list Z) : bool :=
  if ld32 area length_offset =? Z.of_nat (length value)
  then emit_match_utf16_contents area (length_offset + 4) value else false.

(** src/binder_hook_builder.cpp:635-640 [emit_match_headered_utf16_string] *)
Definition kHeaderMagics : list Z := [0x53595354; 0x564e4452; 0x5245434f; 0x554e4b4e].

(** src/binder_hook_builder.cpp:623-664 [emit_match_headered_utf16_string] *)
Definition emit_match_headered_utf16_string (area : list Z) (length_offset : nat)
    (value : list Z) : bool :=
  if ld32 area length_offset =? Z.of_nat (length value) then
    if existsb (fun magic => ld32 area (length_offset + 4) =? magic) kHeaderMagics
    then emit_match_utf16_contents area (length_offset + 8) value else false
  else false.

(** * The search

    [size] is x17, the number of bytes copied. *)

Definition utf16_bytes (value : list Z) : Z := (Z.of_nat (length value) + 1) * 2.

(** The three forms of the descriptor at one offset; the result is the header
    extra, the four bytes the headered form inserts. *)

(** src/binder_hook_builder.cpp:672-715 [emit_try_parcel_descriptor] *)
Definition match_descriptor (area : list Z) (size : Z) (descriptor : list Z)
    (token_offset : nat) : option Z :=
  let required := Z.of_nat token_offset + 4 + utf16_bytes descriptor in
  if negb (size <? required) && emit_match_utf16_string area token_offset descriptor
  then Some 0
  else if negb (size <? required + 4) &&
          emit_match_headered_utf16_string area token_offset descriptor
  then Some 4
  else if negb (size <? required) &&
          emit_match_utf16_contents area (token_offset + 4) descriptor
  then Some 0
  else None.

(** src/binder_hook_builder.cpp:726-757 [emit_try_parcel_descriptor] *)
Definition match_property (area : list Z) (size : Z) (descriptor : list Z)
    (token_offset : nat) (header_extra : Z) : bool :=
  let property_offset := align4 (Z.of_nat token_offset + 4 + utf16_bytes descriptor) in
  let property_required := property_offset + 4 + utf16_bytes kDeviceUniqueId in
  if header_extra =? 0 then
    negb (size <? property_required) &&
    emit_match_utf16_string area (Z.to_nat property_offset) kDeviceUniqueId
  else
    negb (size <? property_required + 4) &&
    emit_match_utf16_string area (Z.to_nat (property_offset + 4)) kDeviceUniqueId.

(** The offsets of the raw searches, 0 to 64 in steps of four. *)

(** src/binder_hook_builder.cpp:774-774 [emit_try_parcel_descriptor] *)
Definition raw_offsets : list nat := (fun i => 4 * i)%nat <$> seq 0 17.

(** src/binder_hook_builder.cpp:765-801 [emit_try_parcel_descriptor] *)
Definition match_raw_property (area : list Z) (size : Z) : bool :=
  existsb (fun raw => negb (size <? Z.of_nat raw + utf16_bytes kDeviceUniqueId) &&
                      emit_match_utf16_contents area raw kDeviceUniqueId) raw_offsets ||
  existsb (fun raw => negb (size <? Z.of_nat raw + (Z.of_nat (length kDeviceUniqueId) + 1)) &&
                      emit_match_utf8_contents area raw kDeviceUniqueId) raw_offsets.

(** src/binder_hook_builder.cpp:672-672 [emit_try_parcel_descriptor] *)
Definition token_offsets : list nat := (fun i => 4 * i)%nat <$> seq 0 9.

#[global] Arguments kDrmPluginDescriptor : simpl never.
#[global] Arguments kDeviceUniqueId : simpl never.
#[global] Arguments token_offsets : simpl never.
#[global] Arguments raw_offsets : simpl never.
#[global] Arguments match_descriptor : simpl never.
#[global] Arguments match_property : simpl never.
#[global] Arguments match_raw_property : simpl never.

Definition set_scratch (w : scratch_word) (v : Z) (sc : Scratch) : Scratch := <[w := v]> sc.

Section parcel_ops.
Context {U : Type} `{UserAccess U}.

(** What a descriptor match on a request with the right code leads to. *)

(** src/binder_hook_builder.cpp:734-811 [emit_try_parcel_descriptor] *)
Definition emit_property_search (area : list Z) (size : Z) (descriptor : list Z)
    (token_offset : nat) (header_extra : Z) (sc : Scratch) : HM U Scratch :=
  sc ← (if match_property area size descriptor token_offset header_extra then
          emit_counter_increment parcel_device_unique_id_hits;;
          mret (set_scratch kParcelFlags kParcelFlagDeviceUniqueId sc)
        else mret sc);
  if Z.testbit (sc kParcelFlags) 0 then mret sc
  else if match_raw_property area size then
    emit_counter_increment parcel_device_unique_id_hits;;
    mret (set_scratch kParcelFlags kParcelFlagDeviceUniqueId sc)
  else mret sc.

(** One unrolled iteration per offset; the result says whether the code jumps to
    [matched]. *)

(** src/binder_hook_builder.cpp:666-815 [emit_try_parcel_descriptor] *)
Fixpoint emit_try_parcel_descriptor (area : list Z) (size : Z) (descriptor : list Z)
    (token_kind : ParcelTokenKind) (hit_counter : ctx_word) (code : Z)
    (offsets : list nat) (sc : Scratch) : HM U (bool * Scratch) :=
  match offsets with
  | [] => mret (false, sc)
  | token_offset :: offsets =>
      match match_descriptor area size descriptor token_offset with
      | None =>
          emit_try_parcel_descriptor area size descriptor token_kind hit_counter code offsets sc
      | Some header_extra =>
          let sc := set_scratch kParcelTokenOffset (Z.of_nat token_offset)
                     (set_scratch kParcelTokenKind
                        (match token_kind with kNone => 0 | kDrmPlugin => 1 end)
                        (set_scratch kParcelTokenHeaderExtra header_extra sc)) in
          emit_counter_increment hit_counter;;
          match token_kind with
          | kDrmPlugin =>
              if code =? kGetPropertyByteArrayTransactionCode then
                sc ← emit_property_search area size descriptor token_offset header_extra sc;
                mret (true, sc)
              else
                emit_try_parcel_descriptor area size descriptor token_kind hit_counter code
                  offsets sc
          | kNone => mret (true, sc)
          end
      end
  end.

(** src/binder_hook_builder.cpp:833-858 [emit_capture_parcel_prefix] *)
Definition is_request_command (expected_ioc_type command : Z) : bool :=
  if expected_ioc_type =? ioc_c
  then (command =? BC_TRANSACTION) || (command =? BC_TRANSACTION_SG)
  else (command =? BR_TRANSACTION) || (command =? BR_TRANSACTION_SEC_CTX).

(** src/binder_hook_builder.cpp:889-901 [emit_capture_parcel_prefix] *)
Definition emit_scan_prefix (size : Z) (td : BinderTransactionData) (sc : Scratch)
    : HM U Scratch :=
  area ← h_parcel_area;
  '(matched, sc) ← emit_try_parcel_descriptor area size kDrmPluginDescriptor kDrmPlugin
            parcel_plugin_hits (td_code td) token_offsets sc;
  (if matched : bool then mret tt else emit_counter_increment parcel_unknown_tokens);;
  mret sc.

(** A failed copy leaves the area with bytes nothing reads: the scan is skipped. *)

(** src/binder_hook_builder.cpp:831-902 [emit_capture_parcel_prefix] *)
Definition emit_capture_parcel_prefix (expected_ioc_type command : Z)
    (td : BinderTransactionData) (sc : Scratch) : HM U Scratch :=
  let copy_fault := emit_counter_increment parcel_prefix_faults;; mret sc in
  if negb (is_request_command expected_ioc_type command) then mret sc
  else if td_data_size td =? 0 then emit_scan_prefix 0 td sc
  else if td_buffer td =? 0 then copy_fault
  else
    let size := if td_data_size td <=? kParcelPrefixMaxBytes
                then td_data_size td else kParcelPrefixMaxBytes in
    copied ← h_read (td_buffer td) size;
    match copied with
    | None => copy_fault
    | Some bs =>
        h_fill_parcel 0 bs;;
        emit_counter_increment parcel_prefix_ok;;
        emit_scan_prefix size td (set_scratch kParcelPrefixSize size sc)
    end.

End parcel_ops.

(** * What the search depends on *)

Section agreement.
Context (n : nat) (a b : list Z) (Hagree : take n a = take n b).

Lemma utf16_contents_agree value off :
  Z.of_nat off + utf16_bytes value <= Z.of_nat n ->
  emit_match_utf16_contents a off value = emit_match_utf16_contents b off value.
Proof.
  unfold utf16_bytes. revert off. induction value as [|c value IH]; intros off Hn;
    cbn [emit_match_utf16_contents length] in *; unfold ld16;
    rewrite (slice_agree off 2 n a b) by (done || lia); [done|].
  bcase; [|done]. apply IH. lia.
Qed.

Lemma utf8_contents_agree value off :
  Z.of_nat off + (Z.of_nat (length value) + 1) <= Z.of_nat n ->
  emit_match_utf8_contents a off value = emit_match_utf8_contents b off value.
Proof.
  revert off. induction value as [|c value IH]; intros off Hn;
    cbn [emit_match_utf8_contents length] in *; unfold ld8;
    rewrite (slice_agree off 1 n a b) by (done || lia); [done|].
  bcase; [|done]. apply IH. lia.
Qed.

Lemma ld32_agree off : (off + 4 <= n)%nat -> ld32 a off = ld32 b off.
Proof. intros. unfold ld32. by rewrite (slice_agree off 4 n a b). Qed.

Lemma utf16_string_agree value off :
  Z.of_nat off + 4 + utf16_bytes value <= Z.of_nat n ->
  emit_match_utf16_string a off value = emit_match_utf16_string b off value.
Proof.
  intros Hn. assert (0 < utf16_bytes value) by (unfold utf16_bytes; lia).
  unfold emit_match_utf16_string. rewrite ld32_agree by lia.
  by rewrite utf16_contents_agree by lia.
Qed.

Lemma headered_agree value off :
  Z.of_nat off + 8 + utf16_bytes value <= Z.of_nat n ->
  emit_match_headered_utf16_string a off value = emit_match_headered_utf16_string b off value.
Proof.
  intros Hn. assert (0 < utf16_bytes value) by (unfold utf16_bytes; lia).
  unfold emit_match_headered_utf16_string. rewrite !ld32_agree by lia.
  by rewrite utf16_contents_agree by lia.
Qed.

(** A guarded match is the same on two areas that agree on what was copied. *)
Lemma guarded_agree size need (f : list Z -> bool) :
  (need <= size -> f a = f b) -> negb (size <? need) && f a = negb (size <? need) && f b.
Proof. intros Hf. destruct (Z.ltb_spec size need); [done|]. by rewrite Hf. Qed.

Lemma match_descriptor_agree descriptor t :
  match_descriptor a (Z.of_nat n) descriptor t = match_descriptor b (Z.of_nat n) descriptor t.
Proof.
  unfold match_descriptor.
  rewrite (guarded_agree _ _ (fun x => emit_match_utf16_string x t descriptor))
    by (intros; apply utf16_string_agree; lia).
  rewrite (guarded_agree _ _ (fun x => emit_match_headered_utf16_string x t descriptor))
    by (intros; apply headered_agree; lia).
  by rewrite (guarded_agree _ _ (fun x => emit_match_utf16_contents x (t + 4) descriptor))
    by (intros; apply utf16_contents_agree; lia).
Qed.

Lemma align4_nonneg z : 0 <= align4 z.
Proof. unfold align4. apply Z.land_nonneg. left. apply u32_range. Qed.

Lemma match_property_agree descriptor t extra :
  match_property a (Z.of_nat n) descriptor t extra = match_property b (Z.of_nat n) descriptor t extra.
Proof.
  unfold match_property. set (off := align4 _).
  pose proof (align4_nonneg (Z.of_nat t + 4 + utf16_bytes descriptor)) as Hoff.
  fold off in Hoff. destruct (extra =? 0).
  - apply (guarded_agree _ _ (fun x => emit_match_utf16_string x (Z.to_nat off) kDeviceUniqueId)).
    intros. apply utf16_string_agree. lia.
  - apply (guarded_agree _ _ (fun x => emit_match_utf16_string x (Z.to_nat (off + 4)) kDeviceUniqueId)).
    intros. apply utf16_string_agree. lia.
Qed.

Lemma existsb_agree {A} (f g : A -> bool) l : (forall x, f x = g x) -> existsb f l = existsb g l.
Proof. intros Hfg. induction l as [|x l IH]; [done|]. cbn. by rewrite Hfg, IH. Qed.

Lemma match_raw_property_agree :
  match_raw_property a (Z.of_nat n) = match_raw_property b (Z.of_nat n).
Proof.
  unfold match_raw_property. f_equal; apply existsb_agree; intros raw.
  - apply (guarded_agree _ _ (fun x => emit_match_utf16_contents x raw kDeviceUniqueId)).
    intros. by apply utf16_contents_agree.
  - apply (guarded_agree _ _ (fun x => emit_match_utf8_contents x raw kDeviceUniqueId)).
    intros. by apply utf8_contents_agree.
Qed.

Lemma emit_try_parcel_descriptor_agree {U} `{UserAccess U} descriptor kind hit code offsets sc
    (s : hstate U) :
  emit_try_parcel_descriptor a (Z.of_nat n) descriptor kind hit code offsets sc s =
  emit_try_parcel_descriptor b (Z.of_nat n) descriptor kind hit code offsets sc s.
Proof.
  revert sc s. induction offsets as [|t offsets IH]; intros sc s; [done|].
  cbn [emit_try_parcel_descriptor]. rewrite match_descriptor_agree.
  destruct (match_descriptor b (Z.of_nat n) descriptor t); [|apply IH].
  unfold emit_property_search. rewrite match_property_agree, match_raw_property_agree.
  unfold mbind, HM_bind, emit_counter_increment, h_modify. cbn.
  destruct kind; [done|]. destruct (code =? _); [done|apply IH].
Qed.

End agreement.

(** * The search, described directly *)

(** The descriptor form found at the lowest offset that has one. *)
Fixpoint first_descriptor (area : list Z) (size : Z) (descriptor : list Z)
    (offsets : list nat) : option (nat * Z) :=
  match offsets with
  | [] => None
  | t :: offsets =>
      match match_descriptor area size descriptor t with
      | Some extra => Some (t, extra)
      | None => first_descriptor area size descriptor offsets
      end
  end.

(** A getPropertyByteArray("deviceUniqueId") request: the transaction code, the
    plugin's descriptor, and the property behind it or one of the raw forms. *)
Definition request_recognised (area : list Z) (size : Z) (code : Z) : bool :=
  if code =? kGetPropertyByteArrayTransactionCode then
    match first_descriptor area size kDrmPluginDescriptor token_offsets with
    | Some (t, extra) =>
        match_property area size kDrmPluginDescriptor t extra || match_raw_property area size
    | None => false
    end
  else false.

(** The bytes the handler gets to see: none for an empty Parcel, at most 256
    otherwise, and a fault for a null buffer or an unreadable one. *)
Definition parcel_prefix {U} `{UserAccess U} (m : U) (td : BinderTransactionData)
    : option (list Z) :=
  if td_data_size td =? 0 then Some []
  else if td_buffer td =? 0 then None
  else copy_from_user m (td_buffer td) (Z.min (td_data_size td) kParcelPrefixMaxBytes).

Section capture_facts.
Context {U : Type} `{UserAccessLaws U}.
Implicit Types s : hstate U.

Lemma property_search_flags area size descriptor t extra sc s :
  sc kParcelFlags = 0 ->
  (emit_property_search area size descriptor t extra sc s).1 kParcelFlags =
    if match_property area size descriptor t extra || match_raw_property area size then 1 else 0.
Proof.
  intros Hsc. unfold emit_property_search, mbind, HM_bind, emit_counter_increment, h_modify.
  destruct (match_property _ _ _ _ _); cbn; [done|]. rewrite Hsc. cbn.
  destruct (match_raw_property area size); cbn; done.
Qed.

Lemma try_descriptor_flags area size code offsets sc s :
  sc kParcelFlags = 0 ->
  (emit_try_parcel_descriptor area size kDrmPluginDescriptor kDrmPlugin parcel_plugin_hits
     code offsets sc s).1.2 kParcelFlags =
  if code =? kGetPropertyByteArrayTransactionCode then
    match first_descriptor area size kDrmPluginDescriptor offsets with
    | Some (t, extra) =>
        if match_property area size kDrmPluginDescriptor t extra || match_raw_property area size
        then 1 else 0
    | None => 0
    end
  else 0.
Proof.
  revert sc s. induction offsets as [|t offsets IH]; intros sc s Hsc.
  { cbn. rewrite Hsc. by destruct (code =? _). }
  cbn [emit_try_parcel_descriptor first_descriptor].
  destruct (match_descriptor _ _ _ _) as [extra|]; [|by apply IH].
  unfold mbind at 1, HM_bind, emit_counter_increment at 1, h_modify.
  destruct (code =? kGetPropertyByteArrayTransactionCode).
  - unfold mbind, HM_bind. destruct (emit_property_search _ _ _ _ _ _ _) as [sc' s'] eqn:E.
    cbn. change sc' with (sc', s').1. rewrite <-E. by apply property_search_flags.
  - by rewrite IH.
Qed.

Lemma scan_prefix_flags size td sc s :
  sc kParcelFlags = 0 ->
  (emit_scan_prefix size td sc s).1 kParcelFlags =
    if request_recognised (h_parcel s) size (td_code td) then 1 else 0.
Proof.
  intros Hsc. pose proof (try_descriptor_flags (h_parcel s) size (td_code td) token_offsets sc s Hsc)
    as Hf. unfold emit_scan_prefix, request_recognised, mbind, HM_bind, h_parcel_area.
  destruct (emit_try_parcel_descriptor _ _ _ _ _ _ _ _ _) as [[matched sc'] s']. cbn in Hf.
  destruct matched; cbn; rewrite Hf; destruct (_ =? _); try done;
    destruct (first_descriptor _ _ _ _) as [[? ?]|]; done.
Qed.

Lemma request_recognised_agree size code a b :
  0 <= size -> take (Z.to_nat size) a = take (Z.to_nat size) b ->
  request_recognised a size code = request_recognised b size code.
Proof.
  intros Hs Ht. unfold request_recognised. rewrite <-(Z2Nat.id size) by done.
  rewrite (match_raw_property_agree _ _ _ Ht).
  assert (forall l, first_descriptor a (Z.of_nat (Z.to_nat size)) kDrmPluginDescriptor l =
    first_descriptor b (Z.of_nat (Z.to_nat size)) kDrmPluginDescriptor l) as ->.
  { intros l. induction l as [|t l IH]; [done|]. cbn [first_descriptor].
    by rewrite (match_descriptor_agree _ _ _ Ht), IH. }
  destruct (first_descriptor b _ _ _) as [[t extra]|]; [|done].
  by rewrite (match_property_agree _ _ _ Ht).
Qed.

(** The counters of the recognition. *)
Definition parcel_counters : list ctx_word :=
  [parcel_prefix_ok; parcel_prefix_faults; parcel_plugin_hits; parcel_device_unique_id_hits;
   parcel_unknown_tokens].

Lemma try_descriptor_keeps {B} (f : hstate U -> B) area size descriptor kind hit code offsets sc :
  (forall w s, In w parcel_counters -> f {| h_ctx := add_word w 1 (h_ctx s); h_mem := h_mem s; h_parcel := h_parcel s;
                    h_locks := h_locks s |} = f s) ->
  In hit parcel_counters ->
  effect (keeps f) (emit_try_parcel_descriptor area size descriptor kind hit code offsets sc).
Proof.
  intros Hf Hhit.
  assert (forall w, In w parcel_counters -> effect (keeps f) (emit_counter_increment w)) as Hc
    by (intros w Hw s; by apply Hf).
  revert sc. induction offsets as [|t offsets IH]; intros sc; cbn [emit_try_parcel_descriptor].
  { apply effect_ret, _. }
  destruct (match_descriptor _ _ _ _); [|apply IH].
  apply effect_bind; [apply _|by apply Hc|intros _]. destruct kind; [apply effect_ret, _|].
  destruct (code =? _); [|apply IH]. unfold emit_property_search.
  repeat first [apply Hc; cbn; tauto | effect_step].
Qed.

(** The capture changes nothing but counters and the parcel area. *)
Lemma capture_prefix_keeps {B} (f : hstate U -> B) type command td sc :
  (forall w s, In w parcel_counters -> f {| h_ctx := add_word w 1 (h_ctx s); h_mem := h_mem s; h_parcel := h_parcel s;
                    h_locks := h_locks s |} = f s) ->
  (forall s l, f {| h_ctx := h_ctx s; h_mem := h_mem s; h_parcel := l;
                    h_locks := h_locks s |} = f s) ->
  effect (keeps f) (emit_capture_parcel_prefix type command td sc).
Proof.
  intros Hf Hp.
  assert (forall w, In w parcel_counters -> effect (keeps f) (emit_counter_increment w)) as Hc
    by (intros w Hw s; by apply Hf).
  assert (forall size sc, effect (keeps f) (emit_scan_prefix size td sc)) as Hscan.
  { intros size sc'. unfold emit_scan_prefix.
    repeat first [apply Hc; cbn; tauto | apply try_descriptor_keeps; [done|cbn; tauto] | effect_step]. }
  unfold emit_capture_parcel_prefix.
  repeat first [apply Hscan | apply Hc; cbn; tauto | apply effect_fill_parcel; done | effect_step].
Qed.

Lemma capture_prefix_flags expected_ioc_type command td s :
  0 <= td_data_size td ->
  (emit_capture_parcel_prefix expected_ioc_type command td
     emit_reset_transaction_parse_scratch s).1 kParcelFlags =
  if is_request_command expected_ioc_type command then
    match parcel_prefix (h_mem s) td with
    | Some bs => if request_recognised bs (Z.of_nat (length bs)) (td_code td) then 1 else 0
    | None => 0
    end
  else 0.
Proof.
  intros Hsize. unfold emit_capture_parcel_prefix, parcel_prefix.
  destruct (is_request_command _ _); cbn [negb]; [|done].
  destruct (Z.eqb_spec (td_data_size td) 0) as [|Hnz].
  { rewrite scan_prefix_flags by done. by rewrite (request_recognised_agree 0 _ _ []). }
  destruct (td_buffer td =? 0); [done|].
  replace (if td_data_size td <=? kParcelPrefixMaxBytes then _ else _)
    with (Z.min (td_data_size td) kParcelPrefixMaxBytes) by (bcase; lia).
  unfold mbind, HM_bind, h_read. destruct (copy_from_user _ _ _) as [bs|] eqn:Hr; [|done].
  pose proof (cfu_length _ _ _ _ Hr) as Hl. cbn [h_fill_parcel].
  unfold emit_counter_increment, h_modify. rewrite scan_prefix_flags by done. cbn.
  assert (0 < kParcelPrefixMaxBytes) by done.
  replace (Z.of_nat (length bs)) with (Z.min (td_data_size td) kParcelPrefixMaxBytes) by lia.
  rewrite (request_recognised_agree _ _ _ bs); [done|lia|].
  rewrite <-Hl, take_0, app_nil_l. by rewrite take_app_length, firstn_all.
Qed.

(** C12: what a delivered transaction's Parcel is taken for is exactly the direct
    description of a deviceUniqueId request, evaluated on the bytes that could be
    copied (at most 256, none for an empty Parcel): nothing left in the parcel
    area by an earlier transaction matters, a Parcel that cannot be read and a
    command that is no request are not recognised, and user memory, the pending
    table and both configuration slots stay as they are. *)
Theorem capture_recognises expected_ioc_type command td s :
  0 <= td_data_size td ->
  let '(sc, s') := emit_capture_parcel_prefix expected_ioc_type command td
                     emit_reset_transaction_parse_scratch s in
  sc kParcelFlags =
    (if is_request_command expected_ioc_type command then
       match parcel_prefix (h_mem s) td with
       | Some bs => if request_recognised bs (Z.of_nat (length bs)) (td_code td) then 1 else 0
       | None => 0
       end
     else 0) /\
  h_mem s' = h_mem s /\ pending (h_ctx s') = pending (h_ctx s) /\
  events (h_ctx s') = events (h_ctx s) /\
  active_config (h_ctx s') = active_config (h_ctx s) /\
  active_hal (h_ctx s') = active_hal (h_ctx s).
Proof.
  intros Hsize. set (m := emit_capture_parcel_prefix _ _ _ _).
  assert (forall B (f : hstate U -> B),
    (forall w s, In w parcel_counters -> f {| h_ctx := add_word w 1 (h_ctx s); h_mem := h_mem s; h_parcel := h_parcel s;
                      h_locks := h_locks s |} = f s) ->
    (forall s l, f {| h_ctx := h_ctx s; h_mem := h_mem s; h_parcel := l;
                      h_locks := h_locks s |} = f s) -> f (m s).2 = f s) as Hk
    by (intros; by apply capture_prefix_keeps).
  pose proof (Hk _ h_mem ltac:(done) ltac:(done)) as Hm.
  pose proof (Hk _ (fun s => pending (h_ctx s)) ltac:(done) ltac:(done)) as Hp.
  pose proof (Hk _ (fun s => events (h_ctx s)) ltac:(done) ltac:(done)) as He.
  pose proof (Hk _ (fun s => active_config (h_ctx s)) ltac:(done) ltac:(done)) as Hc.
  pose proof (Hk _ (fun s => active_hal (h_ctx s)) ltac:(done) ltac:(done)) as Hh.
  pose proof (capture_prefix_flags expected_ioc_type command td s Hsize) as Hflags.
  fold m in Hflags. by destruct (m s).
Qed.

End capture_facts.

(** * Requests as clients serialise them *)

Definition utf16le (value : list Z) : list Z :=
  flat_map (fun c => [c; 0]) value.

(** A String16 in a Parcel: length, characters, terminator, padding to a word. *)
Definition string16 (value : list Z) : list Z :=
  le_enc 4 (Z.of_nat (length value)) ++ utf16le value ++ [0; 0] ++
  replicate (Z.to_nat (align4 (utf16_bytes value) - utf16_bytes value)) 0.

(** The request of an AIDL client: strict-mode policy, work source and build-domain
    magic, the interface token, the property name, and what follows. *)
Definition aidl_request (policy work_source magic : Z) (rest : list Z) : list Z :=
  le_enc 4 policy ++ le_enc 4 work_source ++ le_enc 4 magic ++
  string16 kDrmPluginDescriptor ++ string16 kDeviceUniqueId ++ rest.

(** The variant with the build-domain magic between the length and the characters. *)
Definition headered_request (magic : Z) (rest : list Z) : list Z :=
  le_enc 4 (Z.of_nat (length kDrmPluginDescriptor)) ++ le_enc 4 magic ++
  utf16le kDrmPluginDescriptor ++ [0; 0] ++ string16 kDeviceUniqueId ++ rest.

Lemma utf16_contents_char area off value i c :
  emit_match_utf16_contents area off value = true -> value !! i = Some c ->
  ld16 area (off + 2 * i) = c.
Proof.
  revert off i. induction value as [|d value IH]; intros off i; [done|].
  cbn [emit_match_utf16_contents]. bcase; [|done]. intros Hm.
  destruct i as [|i]; cbn; [intros [= <-]; by rewrite Nat.add_0_r|].
  intros Hi. specialize (IH _ i Hm Hi). by replace (off + S (i + S (i + 0)))%nat
    with (off + 2 + 2 * i)%nat by lia.
Qed.

Lemma utf16_contents_mismatch area off value i c :
  value !! i = Some c -> ld16 area (off + 2 * i) <> c ->
  emit_match_utf16_contents area off value = false.
Proof.
  intros Hi Hne. destruct (emit_match_utf16_contents area off value) eqn:E; [|done].
  by destruct Hne; apply (utf16_contents_char _ _ _ _ _ E).
Qed.

(** No form matches when neither place of the characters holds them. *)
Lemma match_descriptor_none area size descriptor t :
  emit_match_utf16_contents area (t + 4) descriptor = false ->
  emit_match_utf16_contents area (t + 8) descriptor = false \/
    ld32 area t <> Z.of_nat (length descriptor) ->
  match_descriptor area size descriptor t = None.
Proof.
  intros Hplain Hheadered. unfold match_descriptor, emit_match_utf16_string,
    emit_match_headered_utf16_string. rewrite Hplain.
  destruct Hheadered as [->|Hl].
  - by repeat (destruct (_ =? _); cbn); repeat (destruct (existsb _ _)); rewrite ?andb_false_r.
  - rewrite (proj2 (Z.eqb_neq _ _) Hl). by rewrite !andb_false_r.
Qed.

Lemma four_bytes z : exists b0 b1 b2 b3, le_enc 4 z = [b0; b1; b2; b3].
Proof. cbn. eauto. Qed.

(** Tries a claim about the bytes of a request on each build domain. *)
Ltac each_magic Hmagic :=
  unfold kHeaderMagics in Hmagic; cbn [In] in Hmagic;
  repeat (destruct Hmagic as [<-|Hmagic]; [vm_compute; done|]); done.

(** No header word can be mistaken for the interface token. *)
Lemma aidl_no_early_match policy work_source magic rest size t :
  In magic kHeaderMagics -> In t [0; 4; 8]%nat ->
  match_descriptor (aidl_request policy work_source magic rest) size kDrmPluginDescriptor t = None.
Proof.
  intros Hmagic Ht. unfold aidl_request.
  destruct (four_bytes policy) as (p0 & p1 & p2 & p3 & ->).
  destruct (four_bytes work_source) as (w0 & w1 & w2 & w3 & ->).
  assert (kDrmPluginDescriptor !! 0%nat = Some 97) as Hc0 by done.
  assert (kDrmPluginDescriptor !! 2%nat = Some 100) as Hc2 by done.
  destruct Ht as [<-|[<-|[<-|[]]]]; apply match_descriptor_none.
  - apply (utf16_contents_mismatch _ _ _ 2 100); [done|]. each_magic Hmagic.
  - left. apply (utf16_contents_mismatch _ _ _ 0 97); [done|]. each_magic Hmagic.
  - apply (utf16_contents_mismatch _ _ _ 0 97); [done|]. each_magic Hmagic.
  - left. apply (utf16_contents_mismatch _ _ _ 0 97); [done|]. each_magic Hmagic.
  - apply (utf16_contents_mismatch _ _ _ 0 97); [done|]. each_magic Hmagic.
  - right. each_magic Hmagic.
Qed.

Lemma aidl_match policy work_source magic rest size :
  In magic kHeaderMagics -> 114 <= size ->
  match_descriptor (aidl_request policy work_source magic rest) size kDrmPluginDescriptor 12
    = Some 0 /\
  match_property (aidl_request policy work_source magic rest) size kDrmPluginDescriptor 12 0 = true.
Proof.
  intros Hmagic Hsize. unfold aidl_request, match_descriptor, match_property.
  destruct (four_bytes policy) as (p0 & p1 & p2 & p3 & ->).
  destruct (four_bytes work_source) as (w0 & w1 & w2 & w3 & ->).
  assert (Z.of_nat 12 + 4 + utf16_bytes kDrmPluginDescriptor = 80) as -> by done.
  assert (align4 80 + 4 + utf16_bytes kDeviceUniqueId = 114) as -> by done.
  rewrite !(proj2 (Z.ltb_ge size _)) by lia. split; each_magic Hmagic.
Qed.

Lemma aidl_request_found policy work_source magic rest size :
  In magic kHeaderMagics -> 114 <= size ->
  request_recognised (aidl_request policy work_source magic rest) size
    kGetPropertyByteArrayTransactionCode = true.
Proof.
  intros Hmagic Hsize. unfold request_recognised. rewrite Z.eqb_refl.
  assert (token_offsets = [0; 4; 8; 12; 16; 20; 24; 28; 32]%nat) as -> by done.
  destruct (aidl_match policy work_source magic rest size Hmagic Hsize) as [Hd Hp].
  cbn [first_descriptor].
  rewrite !(aidl_no_early_match _ _ _ _ _ _ Hmagic) by (cbn; tauto).
  by rewrite Hd, Hp.
Qed.

Lemma headered_request_found magic rest size :
  In magic kHeaderMagics -> 106 <= size ->
  request_recognised (headered_request magic rest) size
    kGetPropertyByteArrayTransactionCode = true.
Proof.
  intros Hmagic Hsize. unfold request_recognised. rewrite Z.eqb_refl.
  assert (token_offsets = [0; 4; 8; 12; 16; 20; 24; 28; 32]%nat) as -> by done.
  unfold headered_request. cbn [first_descriptor].
  assert (match_descriptor (le_enc 4 (Z.of_nat (length kDrmPluginDescriptor)) ++ le_enc 4 magic ++
    utf16le kDrmPluginDescriptor ++ [0; 0] ++ string16 kDeviceUniqueId ++ rest) size
    kDrmPluginDescriptor 0 = Some 4) as ->.
  { unfold match_descriptor.
    assert (Z.of_nat 0 + 4 + utf16_bytes kDrmPluginDescriptor = 68) as -> by done.
    rewrite !(proj2 (Z.ltb_ge size _)) by lia. each_magic Hmagic. }
  apply orb_true_iff. left. unfold match_property. change (4 =? 0) with false. cbv iota.
  assert (align4 (Z.of_nat 0 + 4 + utf16_bytes kDrmPluginDescriptor) + 4 +
    utf16_bytes kDeviceUniqueId + 4 = 106) as -> by done.
  rewrite !(proj2 (Z.ltb_ge size _)) by lia. each_magic Hmagic.
Qed.

(** * The raw searches *)

(** Where the descriptor has a d it does not go on with an e. *)
Lemma descriptor_no_de k c :
  (k <= 30)%nat -> kDrmPluginDescriptor !! k = Some c -> 0 < c < 256 /\
  (c = 100 -> exists c', kDrmPluginDescriptor !! S k = Some c' /\ c' <> 101).
Proof.
  intros Hk.
  do 31 (destruct k as [|k]; [vm_compute; intros [= <-]; split; [done|]; intros ?;
    first [done | eexists; done]|]). lia.
Qed.

Lemma ld16_split area off :
  bytes_ok area -> exists b0 b1, 0 <= b0 < 256 /\ 0 <= b1 < 256 /\
  ld16 area off = b0 + 256 * b1 /\ ld8 area off = b0 /\ ld8 area (off + 1) = b1.
Proof.
  intros Hok. unfold ld16, ld8, slice. rewrite <-(drop_drop area 1 off).
  pose proof (bytes_ok_drop off _ Hok) as Hd.
  destruct (drop off area) as [|b0 l]; [by exists 0, 0|].
  apply Forall_cons in Hd as [H0 Hd]. destruct l as [|b1 l]; cbn [skipn firstn le_dec].
  - exists b0, 0. unfold byte_ok in H0. repeat split; lia.
  - apply Forall_cons in Hd as [H1 _]. exists b0, b1. unfold byte_ok in H0, H1.
    rewrite ?take_0. cbn [le_dec]. repeat split; lia.
Qed.

(** A raw search that starts inside the interface token finds nothing. *)
Lemma raw_misses_inside area base raw :
  bytes_ok area -> (4 <= base <= raw)%nat -> (raw <= 64)%nat -> Nat.even (raw - base) = true ->
  emit_match_utf16_contents area base kDrmPluginDescriptor = true ->
  emit_match_utf16_contents area raw kDeviceUniqueId = false /\
  emit_match_utf8_contents area raw kDeviceUniqueId = false.
Proof.
  intros Hok Hbase Hraw [k Hk]%Nat.even_spec Hdesc.
  assert (exists c, kDrmPluginDescriptor !! k = Some c) as [c Hc].
  { apply lookup_lt_is_Some_2. change (length kDrmPluginDescriptor) with 31%nat. lia. }
  destruct (descriptor_no_de k c ltac:(lia) Hc) as [Hrange Hnext].
  pose proof (utf16_contents_char _ _ _ _ _ Hdesc Hc) as Hload.
  replace (base + 2 * k)%nat with raw in Hload by lia. split.
  - destruct (decide (c = 100)) as [->|Hne].
    + destruct (Hnext eq_refl) as (c' & Hc' & Hne').
      pose proof (utf16_contents_char _ _ _ _ _ Hdesc Hc') as Hload'.
      apply (utf16_contents_mismatch _ _ _ 1 101); [done|].
      replace (raw + 2 * 1)%nat with (base + 2 * S k)%nat by lia. congruence.
    + apply (utf16_contents_mismatch _ _ _ 0 100); [done|].
      rewrite Nat.mul_0_r, Nat.add_0_r. congruence.
  - destruct (ld16_split area raw Hok) as (b0 & b1 & H0 & H1 & H16 & H80 & H81).
    assert (b1 = 0) by lia. assert (kDeviceUniqueId = [100; 101] ++ drop 2 kDeviceUniqueId) as -> by done.
    cbn [app emit_match_utf8_contents]. rewrite H80, H81. repeat bcase; try done. lia.
Qed.

Lemma match_descriptor_chars area size descriptor t extra :
  match_descriptor area size descriptor t = Some extra ->
  (extra = 0 \/ extra = 4) /\
  emit_match_utf16_contents area (t + 4 + Z.to_nat extra) descriptor = true.
Proof.
  unfold match_descriptor, emit_match_utf16_string, emit_match_headered_utf16_string.
  destruct (negb _ && _) eqn:E1.
  { intros [= <-]. split; [by left|]. rewrite Nat.add_0_r. apply andb_prop in E1 as [_ E1].
    by destruct (_ =? _). }
  destruct (negb _ && _) eqn:E2 in |- *.
  { intros [= <-]. split; [by right|]. apply andb_prop in E2 as [_ E2].
    destruct (_ =? _); [|done]. destruct (existsb _ _); [|done].
    by replace (t + 4 + Z.to_nat 4)%nat with (t + 8)%nat by lia. }
  destruct (negb _ && _) eqn:E3 in |- *; [|done]. intros [= <-]. split; [by left|].
  rewrite Nat.add_0_r. by apply andb_prop in E3 as [_ E3].
Qed.

(** The bounded fallback searches for the property cannot find it where a
    request carries it: a hit always starts before the characters of the
    interface token, never behind them. *)
Lemma raw_fallback_before_token area size t extra :
  bytes_ok area -> In t token_offsets ->
  match_descriptor area size kDrmPluginDescriptor t = Some extra ->
  match_raw_property area size = true ->
  exists raw, In raw raw_offsets /\ Z.of_nat raw < Z.of_nat t + 4 + extra /\
  (emit_match_utf16_contents area raw kDeviceUniqueId = true \/
   emit_match_utf8_contents area raw kDeviceUniqueId = true).
Proof.
  intros Hok Ht [Hx Hdesc]%match_descriptor_chars Hraw.
  assert (forall raw, In raw raw_offsets ->
    emit_match_utf16_contents area raw kDeviceUniqueId = true \/
    emit_match_utf8_contents area raw kDeviceUniqueId = true ->
    Z.of_nat raw < Z.of_nat t + 4 + extra) as Hbefore.
  { intros raw Hin Hhit. destruct (Z.lt_ge_cases (Z.of_nat raw) (Z.of_nat t + 4 + extra)); [done|].
    apply list_elem_of_In, list_elem_of_fmap in Hin as (r & -> & Hr%elem_of_seq).
    apply list_elem_of_In, list_elem_of_fmap in Ht as (q & -> & Hq%elem_of_seq).
    destruct (raw_misses_inside area (4 * q + 4 + Z.to_nat extra) (4 * r)) as [E1 E2];
      [done|lia|lia| |done|destruct Hhit; congruence].
    apply Nat.even_spec. destruct Hx as [-> | ->].
    - exists (2 * r - 2 * q - 2)%nat. lia.
    - exists (2 * r - 2 * q - 4)%nat. lia. }
  apply orb_true_iff in Hraw as [Hr|Hr]; apply existsb_exists in Hr as (raw & Hin & Hm);
    apply andb_prop in Hm as [_ Hm]; exists raw; (split; [done|]).
  - split; [apply Hbefore; [done|by left]|by left].
  - split; [apply Hbefore; [done|by right]|by right].
Qed.

(** * The whole recognition *)

Lemma is_request_br command :
  command = BR_TRANSACTION \/ command = BR_TRANSACTION_SEC_CTX ->
  is_request_command ioc_r command = true.
Proof. by intros [-> | ->]. Qed.

(** A prefix of a request that reaches behind the property name. *)
Lemma request_prefix_found policy work_source magic rest parcel n :
  In magic kHeaderMagics ->
  parcel = aidl_request policy work_source magic rest \/ parcel = headered_request magic rest ->
  108 <= Z.of_nat (length parcel) /\
  (114 <= Z.of_nat n ->
   request_recognised (take n parcel) (Z.of_nat (length (take n parcel)))
     kGetPropertyByteArrayTransactionCode = true).
Proof.
  intros Hmagic Hparcel.
  assert (Hlen : 108 <= Z.of_nat (length parcel)).
  { destruct Hparcel as [-> | ->]; unfold aidl_request, headered_request;
      rewrite !length_app, !le_enc_length.
    - change (length (string16 kDrmPluginDescriptor)) with 68%nat.
      change (length (string16 kDeviceUniqueId)) with 36%nat. lia.
    - change (length (utf16le kDrmPluginDescriptor)) with 62%nat.
      change (length (string16 kDeviceUniqueId)) with 36%nat. simpl. lia. }
  split; [done|]. intros Hn.
  rewrite (request_recognised_agree _ _ _ parcel).
  - rewrite length_take. destruct Hparcel as [-> | ->].
    + apply aidl_request_found; [done|]. unfold aidl_request.
      rewrite !length_app, !le_enc_length.
      change (length (string16 kDrmPluginDescriptor)) with 68%nat.
      change (length (string16 kDeviceUniqueId)) with 36%nat. lia.
    + apply headered_request_found; [done|lia].
  - lia.
  - rewrite Nat2Z.id, take_take, length_take. f_equal. lia.
Qed.

(** the requests the platform's clients serialise are recognised: whatever the
    strict-mode policy, the work source, the build domain and the bytes behind the
    property name are, a readable getPropertyByteArray("deviceUniqueId") Parcel
    delivered by BR_TRANSACTION or its security-context variant sets the flag, in
    the plain and in the headered form, also when only its first 256 bytes can be
    looked at. *)
Lemma aidl_request_recognised {U} `{UserAccessLaws U} policy work_source magic rest
    command td parcel (s : hstate U) :
  In magic kHeaderMagics -> command = BR_TRANSACTION \/ command = BR_TRANSACTION_SEC_CTX ->
  parcel = aidl_request policy work_source magic rest \/
    parcel = headered_request magic rest ->
  td_code td = kGetPropertyByteArrayTransactionCode -> td_buffer td <> 0 ->
  td_data_size td = Z.of_nat (length parcel) ->
  copy_from_user (h_mem s) (td_buffer td) (Z.min (td_data_size td) kParcelPrefixMaxBytes) =
    Some (take (Z.to_nat kParcelPrefixMaxBytes) parcel) ->
  (emit_capture_parcel_prefix ioc_r command td emit_reset_transaction_parse_scratch s).1
    kParcelFlags = kParcelFlagDeviceUniqueId.
Proof.
  intros Hmagic Hcmd Hparcel Hcode Hbuf Hsize Hread.
  destruct (request_prefix_found policy work_source magic rest parcel
    (Z.to_nat kParcelPrefixMaxBytes) Hmagic Hparcel) as [Hlen Hfound].
  rewrite capture_prefix_flags by lia. rewrite (is_request_br _ Hcmd). unfold parcel_prefix.
  rewrite (proj2 (Z.eqb_neq _ _)) by lia. rewrite (proj2 (Z.eqb_neq _ _)) by done.
  by rewrite Hread, Hcode, Hfound.
Qed.

(** * Concrete runs *)

Definition demo_parcel : list Z := aidl_request 67 0 0x53595354 [0; 0; 0; 0].
Definition demo_headered : list Z := headered_request 0x564e4452 [7; 8].
Definition demo_td (parcel : list Z) : BinderTransactionData :=
  {| td_target := 17; td_cookie := 0; td_code := 11; td_flags := 0; td_sender_pid := 5;
     td_sender_euid := 6; td_data_size := Z.of_nat (length parcel); td_offsets_size := 0;
     td_buffer := 8192; td_offsets := 0 |}.
(** The parcel area still holds an earlier request. *)
Definition demo_delivery (parcel : list Z) : hstate AddressSpace :=
  {| h_ctx := zero_context; h_mem := mk_address_space [(8192, parcel)];
     h_parcel := demo_parcel; h_locks := [] |}.

Lemma capture_recognises_witness :
  (emit_capture_parcel_prefix ioc_r BR_TRANSACTION (demo_td [])
     emit_reset_transaction_parse_scratch (demo_delivery [])).1 kParcelFlags = 0.
Proof.
  pose proof (capture_recognises ioc_r BR_TRANSACTION (demo_td []) (demo_delivery [])
    ltac:(done)) as Hc.
  destruct (emit_capture_parcel_prefix _ _ _ _ _) as [sc s']. destruct Hc as [Hc _].
  cbn [fst]. rewrite Hc. vm_compute. done.
Defined.

Lemma aidl_request_recognised_witness :
  (emit_capture_parcel_prefix ioc_r BR_TRANSACTION (demo_td demo_headered)
     emit_reset_transaction_parse_scratch (demo_delivery demo_headered)).1 kParcelFlags = 1.
Proof.
  apply (aidl_request_recognised 0 0 0x564e4452 [7; 8] BR_TRANSACTION (demo_td demo_headered)
    demo_headered); [vm_compute; tauto|by left|by right|done|done|done|vm_compute; done].
Defined.

(** A request whose property name stands in front of the token. *)
Definition demo_backwards : list Z :=
  utf16le kDeviceUniqueId ++ [0; 0] ++ [0; 0] ++ string16 kDrmPluginDescriptor.

Lemma raw_fallback_before_token_witness :
  exists raw, In raw raw_offsets /\ Z.of_nat raw < 36.
Proof.
  destruct (raw_fallback_before_token demo_backwards 100 32 0) as (raw & Hin & Hlt & _).
  - apply (bool_decide_unpack (bytes_ok demo_backwards)). vm_compute. done.
  - vm_compute. tauto.
  - vm_compute. done.
  - vm_compute. done.
  - by exists raw.
Defined.
