(* ===== verification/Reply.v ===== *)
(** The reply to a correlated deviceUniqueId request (binder_hook_builder.cpp):
    the bounded reading of its status, length and content, and the replacement of
    the 32 identifier bytes by the active configuration's.  The code is related
    to a classification of replies, and its effect on user memory is bounded to
    the identifier's bytes. *)

From S2P Require Import Prelude UserMemory KernelContext BinderWire Parcel.

Definition set_flags (flags : Z) (sc : Scratch) : Scratch :=
  set_scratch kReplyFlags (Z.lor (sc kReplyFlags) flags) sc.

Section reply_ops.
Context {U : Type} `{UserAccess U}.

(** The slot a transaction works with: the index is taken once, the slot is read
    through it afterwards. *)

(** src/binder_hook_builder.cpp:171-187 [emit_capture_active_runtime_config] *)
Definition emit_capture_active_runtime_config : HM U nat :=
  h_get (fun c => slot_of (active_config_slot c)).

Definition config_at (slot : nat) : HM U RuntimeConfigSlot :=
  h_get (fun c => nth slot (config_slots c) zero_config_slot).

(** src/binder_hook_builder.cpp:209-223 [emit_replacement_success_telemetry] *)
Definition emit_replacement_success_telemetry (request_id : Z) (sc : Scratch) : HM U unit :=
  h_modify (put_word replacement_last_request_id request_id);;
  h_modify (set_last (sc kReplyFlags) (sc kReplyArrayLength)).

(** Compare, copy in the identifier or not, once the content is known to be readable. *)

(** src/binder_hook_builder.cpp:990-1027 [emit_parse_hal_correlated_reply] *)
Definition emit_replace_reply (request_id : Z) (td : BinderTransactionData) (slot : nat)
    (sc : Scratch) : HM U Scratch :=
  config ← config_at slot;
  if negb (rc_virtual_id_length config =? kWidevineDeviceUniqueIdBytes) then
    emit_counter_increment replacement_length_mismatch;; mret sc
  else if rc_replacement_mode config =? 0 then
    emit_counter_increment replacement_dry_run_hits;;
    mret (set_flags kReplyFlagDryRun sc)
  else
    written ← h_write (u64 (td_buffer td + 8))
                (take (Z.to_nat kWidevineDeviceUniqueIdBytes) (rc_virtual_id config));
    if (written : bool) then
      emit_counter_increment replacement_write_ok;;
      let sc := set_flags kReplyFlagReplaced sc in
      emit_replacement_success_telemetry request_id sc;;
      mret sc
    else
      emit_counter_increment replacement_copy_to_user_faults;;
      emit_counter_increment replacement_write_faults;;
      mret sc.

(** The array behind the header: its length, and whether its bytes can be read. *)

(** src/binder_hook_builder.cpp:955-989 [emit_parse_hal_correlated_reply] *)
Definition emit_reply_content (request_id : Z) (td : BinderTransactionData) (slot : nat)
    (sc : Scratch) : HM U Scratch :=
  area ← h_parcel_area;
  let length := ld32 area 4 in
  let sc := set_scratch kReplyArrayLength length sc in
  if negb (length =? kWidevineDeviceUniqueIdBytes) || (td_data_size td <? length + 8) then
    emit_counter_increment reply_array_invalid;; mret sc
  else
    let sc := set_flags (Z.lor kReplyFlagStatusOk kReplyFlagArrayValid)
                (set_scratch kReplyArrayOffset 8 sc) in
    emit_counter_increment reply_array_valid;;
    content ← h_read (u64 (td_buffer td + 8)) kWidevineDeviceUniqueIdBytes;
    match content with
    | None => emit_counter_increment reply_content_copy_faults;; mret sc
    | Some bs =>
        h_fill_parcel 16 bs;;
        let sc := set_flags (Z.lor kReplyFlagContentReadable kReplyFlagReplacementCandidate)
                    (set_scratch kReplyPrefixSize (8 + kWidevineDeviceUniqueIdBytes) sc) in
        emit_counter_increment reply_content_copy_ok;;
        emit_counter_increment replacement_candidates;;
        emit_replace_reply request_id td slot sc
    end.

(** src/binder_hook_builder.cpp:922-928 [emit_parse_hal_correlated_reply] *)
Definition reset_reply_scratch (request_flags : Z) (sc : Scratch) : Scratch :=
  set_scratch kReplyFlags 0 (set_scratch kReplyArrayOffset 0 (set_scratch kReplyArrayLength 0
    (set_scratch kReplyStatus 0 (set_scratch kReplyPrefixSize 0
      (set_scratch kCorrelatedRequestFlags request_flags sc))))).

(** [request_id] is x21 and [request_flags] w17, as popped. *)

(** src/binder_hook_builder.cpp:905-1074 [emit_parse_hal_correlated_reply] *)
Definition emit_parse_hal_correlated_reply (request_id request_flags : Z)
    (td : BinderTransactionData) (sc : Scratch) : HM U Scratch :=
  let sc := reset_reply_scratch request_flags sc in
  if request_id =? 0 then emit_counter_increment reply_without_pending;; mret sc
  else if negb (Z.testbit request_flags 0) then mret sc
  else
    slot ← emit_capture_active_runtime_config;
    emit_counter_increment reply_candidates;;
    emit_counter_increment correlated_reply_candidates;;
    let sc := set_scratch kReplyFlags
      (Z.lor kReplyFlagCorrelatedDeviceUniqueId kReplyFlagHalCorrelated) sc in
    if td_data_size td <? 8 then emit_counter_increment reply_array_invalid;; mret sc
    else if td_buffer td =? 0 then emit_counter_increment reply_header_copy_faults;; mret sc
    else
      header ← h_read (td_buffer td) 8;
      match header with
      | None => emit_counter_increment reply_header_copy_faults;; mret sc
      | Some bs =>
          h_fill_parcel 0 bs;;
          emit_counter_increment reply_header_copy_ok;;
          area ← h_parcel_area;
          let status := ld32 area 0 in
          let sc := set_scratch kReplyStatus status (set_scratch kReplyPrefixSize 8 sc) in
          if status =? 0 then
            emit_counter_increment reply_status_ok;;
            emit_reply_content request_id td slot sc
          else emit_counter_increment reply_status_nonzero;; mret sc
      end.

End reply_ops.

(** * Classification *)

(** What the handler makes of a reply. *)
Inductive reply_class :=
  | RcNoPending | RcNotDeviceId | RcTooShort | RcHeaderFault | RcStatus (status : Z)
  | RcBadArray | RcContentFault | RcLengthMismatch | RcDryRun | RcWriteFault | RcReplaced.

Definition classify_content {U} `{UserAccess U} (m : U) (td : BinderTransactionData)
    (config : RuntimeConfigSlot) (header : list Z) : reply_class :=
  if negb (ld32 header 4 =? kWidevineDeviceUniqueIdBytes) || (td_data_size td <? 40)
  then RcBadArray
  else match copy_from_user m (u64 (td_buffer td + 8)) kWidevineDeviceUniqueIdBytes with
  | None => RcContentFault
  | Some _ =>
      if negb (rc_virtual_id_length config =? kWidevineDeviceUniqueIdBytes) then RcLengthMismatch
      else if rc_replacement_mode config =? 0 then RcDryRun
      else if (copy_to_user m (u64 (td_buffer td + 8))
                 (take (Z.to_nat kWidevineDeviceUniqueIdBytes) (rc_virtual_id config))).2
      then RcReplaced else RcWriteFault
  end.

Definition classify_reply {U} `{UserAccess U} (m : U) (request_id request_flags : Z)
    (td : BinderTransactionData) (config : RuntimeConfigSlot) : reply_class :=
  if request_id =? 0 then RcNoPending
  else if negb (Z.testbit request_flags 0) then RcNotDeviceId
  else if td_data_size td <? 8 then RcTooShort
  else if td_buffer td =? 0 then RcHeaderFault
  else match copy_from_user m (td_buffer td) 8 with
  | None => RcHeaderFault
  | Some header =>
      if ld32 header 0 =? 0 then classify_content m td config header
      else RcStatus (ld32 header 0)
  end.

(** The flags reported with each class. *)
Definition reply_class_flags (c : reply_class) : Z :=
  match c with
  | RcNoPending | RcNotDeviceId => 0
  | RcTooShort | RcHeaderFault | RcStatus _ | RcBadArray => 0x81
  | RcContentFault => 0x87
  | RcLengthMismatch | RcWriteFault => 0x9f
  | RcDryRun => 0xbf
  | RcReplaced => 0xdf
  end.

(** The counters each class bumps, in the order the code reaches them. *)
Definition reply_class_counters (c : reply_class) : list ctx_word :=
  let candidate := [reply_candidates; correlated_reply_candidates] in
  let header := candidate ++ [reply_header_copy_ok] in
  let array := header ++ [reply_status_ok; reply_array_valid] in
  let content := array ++ [reply_content_copy_ok; replacement_candidates] in
  match c with
  | RcNoPending => [reply_without_pending]
  | RcNotDeviceId => []
  | RcTooShort => candidate ++ [reply_array_invalid]
  | RcHeaderFault => candidate ++ [reply_header_copy_faults]
  | RcStatus _ => header ++ [reply_status_nonzero]
  | RcBadArray => header ++ [reply_status_ok; reply_array_invalid]
  | RcContentFault => array ++ [reply_content_copy_faults]
  | RcLengthMismatch => content ++ [replacement_length_mismatch]
  | RcDryRun => content ++ [replacement_dry_run_hits]
  | RcWriteFault => content ++ [replacement_copy_to_user_faults; replacement_write_faults]
  | RcReplaced => content ++ [replacement_write_ok]
  end.

Definition bump (ws : list ctx_word) (c : KernelCounterContext) : KernelCounterContext :=
  foldl (fun c w => add_word w 1 c) c ws.

#[local] Arguments ld32 : simpl never.
#[local] Arguments Z.to_nat : simpl never.
#[local] Arguments u64 : simpl never.

Section reply_facts.
Context {U : Type} `{UserAccessLaws U}.
Implicit Types s : hstate U.

Lemma slice_app_l {A} off n (l k : list A) :
  (off + n <= length l)%nat -> slice off n (l ++ k) = slice off n l.
Proof.
  intros Hl. rewrite <-(slice_take off n (length l)) by done. by rewrite take_app_length.
Qed.

Lemma ld32_app_l off (bs rest : list Z) :
  (off + 4 <= length bs)%nat -> ld32 (bs ++ rest) off = ld32 bs off.
Proof. intros. unfold ld32. by rewrite slice_app_l. Qed.

(** The last word of the telemetry is written by a replacement only. *)
Definition reply_context (c : reply_class) (request_id : Z) (ctx : KernelCounterContext)
    : KernelCounterContext :=
  let ctx := bump (reply_class_counters c) ctx in
  match c with
  | RcReplaced =>
      set_last 0xdf kWidevineDeviceUniqueIdBytes
        (put_word replacement_last_request_id request_id ctx)
  | _ => ctx
  end.

Definition reply_memory (c : reply_class) (m : U) (td : BinderTransactionData)
    (config : RuntimeConfigSlot) : U :=
  match c with
  | RcReplaced | RcWriteFault =>
      (copy_to_user m (u64 (td_buffer td + 8))
         (take (Z.to_nat kWidevineDeviceUniqueIdBytes) (rc_virtual_id config))).1
  | _ => m
  end.

Lemma reply_class_effect request_id request_flags td sc0 s :
  let config := active_config (h_ctx s) in
  let class := classify_reply (h_mem s) request_id request_flags td config in
  let r := emit_parse_hal_correlated_reply request_id request_flags td
             sc0 s in
  r.1 kReplyFlags = reply_class_flags class /\
  h_ctx r.2 = reply_context class request_id (h_ctx s) /\
  h_mem r.2 = reply_memory class (h_mem s) td config /\
  h_locks r.2 = h_locks s.
Proof.
  cbn zeta. unfold emit_parse_hal_correlated_reply, classify_reply.
  destruct (request_id =? 0); [done|].
  destruct (negb (Z.testbit request_flags 0)); [done|].
  unfold mbind, HM_bind, mret, HM_ret.
  destruct (td_data_size td <? 8); [done|].
  destruct (td_buffer td =? 0); [done|].
  unfold h_read, emit_capture_active_runtime_config, h_get. cbn.
  destruct (copy_from_user (h_mem s) (td_buffer td) 8) as [bs|] eqn:Hr; [|done]. cbn.
  pose proof (cfu_length _ _ _ _ Hr) as Hl. change (Z.to_nat 8) with 8%nat in Hl.
  rewrite take_0, app_nil_l, (ld32_app_l 0) by lia.
  destruct (ld32 bs 0 =? 0); [|done].
  unfold emit_reply_content, classify_content, mbind, HM_bind. cbn.
  rewrite (ld32_app_l 4) by lia.
  destruct (Z.eqb_spec (ld32 bs 4) kWidevineDeviceUniqueIdBytes) as [E|]; [|done]. cbn. rewrite !E.
  change (kWidevineDeviceUniqueIdBytes + 8) with 40.
  destruct (td_data_size td <? 40); [done|]. cbn.
  unfold h_read. cbn.
  destruct (copy_from_user _ (u64 _) _) as [content|]; [|done]. cbn.
  unfold emit_replace_reply, config_at, mbind, HM_bind, h_get, active_config. cbn.
  set (config := nth _ _ _).
  destruct (rc_virtual_id_length config =? kWidevineDeviceUniqueIdBytes); [|done]. cbn.
  destruct (rc_replacement_mode config =? 0); [done|].
  unfold h_write. cbn.
  destruct (copy_to_user _ _ _) as [m [|]] eqn:Hw; cbn; (do 2 (split; [done|])); by rewrite Hw.
Qed.


(** The identifier's place in the reply. *)
Definition identifier_at (td : BinderTransactionData) : Z := u64 (td_buffer td + 8).

Definition virtual_identifier (config : RuntimeConfigSlot) : list Z :=
  take (Z.to_nat kWidevineDeviceUniqueIdBytes) (rc_virtual_id config).

(** A reply that carries an identifier: 40 readable bytes, status zero, length 32. *)
Definition carries_identifier (m : U) (td : BinderTransactionData) : Prop :=
  40 <= td_data_size td /\ td_buffer td <> 0 /\
  exists header content,
    copy_from_user m (td_buffer td) 8 = Some header /\
    ld32 header 0 = 0 /\ ld32 header 4 = kWidevineDeviceUniqueIdBytes /\
    copy_from_user m (identifier_at td) kWidevineDeviceUniqueIdBytes = Some content.

(** The classes that reach the comparison with the configuration. *)
Lemma classify_carries m request_id request_flags td config :
  carries_identifier m td -> request_id <> 0 -> Z.testbit request_flags 0 = true ->
  classify_reply m request_id request_flags td config =
    if negb (rc_virtual_id_length config =? kWidevineDeviceUniqueIdBytes) then RcLengthMismatch
    else if rc_replacement_mode config =? 0 then RcDryRun
    else if (copy_to_user m (identifier_at td) (virtual_identifier config)).2
    then RcReplaced else RcWriteFault.
Proof.
  intros (Hsize & Hbuf & header & content & Hh & Hstatus & Hlen & Hc) Hid Hfl.
  unfold classify_reply, classify_content, identifier_at in *.
  rewrite (proj2 (Z.eqb_neq request_id 0)), Hfl by done. cbn [negb].
  rewrite (proj2 (Z.ltb_ge _ 8)) by lia. rewrite (proj2 (Z.eqb_neq (td_buffer td) 0)) by done.
  rewrite Hh, Hstatus, Hlen, (proj2 (Z.ltb_ge _ 40)) by lia. cbn. by rewrite Hc.
Qed.

Lemma classify_writes m request_id request_flags td config :
  let class := classify_reply m request_id request_flags td config in
  class = RcReplaced \/ class = RcWriteFault ->
  request_id <> 0 /\ Z.testbit request_flags 0 = true /\ carries_identifier m td /\
  rc_virtual_id_length config = kWidevineDeviceUniqueIdBytes /\ rc_replacement_mode config <> 0.
Proof.
  cbn zeta. unfold classify_reply, classify_content, carries_identifier, identifier_at.
  destruct (Z.eqb_spec request_id 0); [intros [|]; done|].
  destruct (Z.testbit request_flags 0); [cbn [negb]|intros [|]; done].
  destruct (td_data_size td <? 8); [intros [|]; done|].
  destruct (Z.eqb_spec (td_buffer td) 0); [intros [|]; done|].
  destruct (copy_from_user m (td_buffer td) 8) as [header|]; [|intros [|]; done].
  destruct (Z.eqb_spec (ld32 header 0) 0); [|intros [|]; done].
  destruct (Z.eqb_spec (ld32 header 4) kWidevineDeviceUniqueIdBytes); [cbn|intros [|]; done].
  destruct (Z.ltb_spec (td_data_size td) 40); [intros [|]; done|].
  destruct (copy_from_user m _ kWidevineDeviceUniqueIdBytes) as [content|] eqn:Hc;
    [|intros [|]; done].
  destruct (Z.eqb_spec (rc_virtual_id_length config) kWidevineDeviceUniqueIdBytes);
    [cbn|intros [|]; done].
  destruct (Z.eqb_spec (rc_replacement_mode config) 0); [intros [|]; done|]. intros _.
  do 2 (split; [done|]). split; [|done]. split; [lia|]. split; [done|]. by exists header, content.
Qed.


(** what the client sees: in write mode a successful reply to a recorded
    request arrives with its header untouched and the virtual identifier in
    place of the device's; in dry-run mode the same reply arrives unchanged and
    is only reported as a candidate. *)
Lemma reply_delivers request_id request_flags td sc0 s :
  let config := active_config (h_ctx s) in
  let '(sc, s') := emit_parse_hal_correlated_reply request_id request_flags td
                     sc0 s in
  request_id <> 0 -> Z.testbit request_flags 0 = true -> carries_identifier (h_mem s) td ->
  0 <= td_buffer td -> td_buffer td + 40 <= 2 ^ 64 ->
  rc_virtual_id_length config = kWidevineDeviceUniqueIdBytes ->
  length (rc_virtual_id config) = 64%nat -> bytes_ok (rc_virtual_id config) ->
  (rc_replacement_mode config = 0 ->
   h_mem s' = h_mem s /\ Z.testbit (sc kReplyFlags) 5 = true /\
   Z.testbit (sc kReplyFlags) 6 = false) /\
  (rc_replacement_mode config <> 0 ->
   (copy_to_user (h_mem s) (identifier_at td) (virtual_identifier config)).2 = true ->
   copy_from_user (h_mem s') (identifier_at td) 32 = Some (virtual_identifier config) /\
   copy_from_user (h_mem s') (td_buffer td) 8 = copy_from_user (h_mem s) (td_buffer td) 8 /\
   Z.testbit (sc kReplyFlags) 6 = true).
Proof.
  cbn zeta. pose proof (reply_class_effect request_id request_flags td sc0 s) as (Hf & _ & Hm & _).
  destruct (emit_parse_hal_correlated_reply _ _ _ _ _) as [sc s']. cbn in Hf, Hm.
  intros Hid Hfl Hcar Hlo Hhi Hvl Hlen Hok.
  rewrite (classify_carries _ _ _ _ _ Hcar Hid Hfl), Hvl, Z.eqb_refl in Hf, Hm.
  cbn [negb] in Hf, Hm. rewrite Hf, Hm. split; intros Hmode.
  - by rewrite Hmode.
  - intros Hw. rewrite (proj2 (Z.eqb_neq _ _) Hmode), Hw. cbn [reply_memory reply_class_flags].
    fold (identifier_at td) (virtual_identifier (active_config (h_ctx s))).
    assert (length (virtual_identifier (active_config (h_ctx s))) = 32%nat) as Hvlen.
    { unfold virtual_identifier. rewrite length_take, Hlen. done. }
    split; [|split; [|done]].
    + change 32 with (Z.of_nat 32). rewrite <-Hvlen. apply ctu_read; [|done].
      by apply bytes_ok_take.
    + apply ctu_frame. left. unfold identifier_at. rewrite u64_small; lia.
Qed.

End reply_facts.

(** * Concrete runs *)

Definition demo_device_id : list Z := (fun i => Z.of_nat i + 100) <$> seq 0 32.
Definition demo_virtual_id : list Z := (fun i => Z.of_nat i + 7) <$> seq 0 32.
Definition demo_reply : list Z := le_enc 4 0 ++ le_enc 4 32 ++ demo_device_id.
Definition demo_reply_td : BinderTransactionData :=
  {| td_target := 0; td_cookie := 0; td_code := 0; td_flags := 0; td_sender_pid := 0;
     td_sender_euid := 0; td_data_size := 40; td_offsets_size := 0; td_buffer := 4096;
     td_offsets := 0 |}.
Definition demo_config (mode : Z) : RuntimeConfigSlot :=
  {| rc_config_generation := 1; rc_seed_generation := 1; rc_profile_fingerprint := 9;
     rc_replacement_mode := mode; rc_virtual_id_length := 32;
     rc_virtual_id := demo_virtual_id ++ replicate 32 0 |}.
Definition demo_reply_state (mode : Z) : hstate AddressSpace :=
  {| h_ctx := set_config 0 [demo_config mode; zero_config_slot] zero_context;
     h_mem := mk_address_space [(4096, demo_reply)]; h_parcel := []; h_locks := [] |}.

Lemma demo_reply_carries mode : carries_identifier (h_mem (demo_reply_state mode)) demo_reply_td.
Proof.
  split; [done|]. split; [done|]. exists (le_enc 4 0 ++ le_enc 4 32), demo_device_id.
  repeat split; vm_compute; done.
Qed.

Lemma demo_config_bytes mode : bytes_ok (rc_virtual_id (demo_config mode)).
Proof. apply (bool_decide_unpack (bytes_ok _)). vm_compute. done. Qed.

Lemma reply_delivers_witness :
  copy_from_user (h_mem (emit_parse_hal_correlated_reply 5 1 demo_reply_td
    emit_reset_transaction_parse_scratch (demo_reply_state 1)).2) 4104 32 = Some demo_virtual_id.
Proof.
  pose proof (reply_delivers 5 1 demo_reply_td
    emit_reset_transaction_parse_scratch (demo_reply_state 1)) as Hd.
  destruct (emit_parse_hal_correlated_reply _ _ _ _ _) as [sc s'].
  destruct (Hd ltac:(done) ltac:(done) (demo_reply_carries 1) ltac:(done) ltac:(done)
    ltac:(done) ltac:(done)
    (demo_config_bytes 1))
    as [_ Hw].
  destruct (Hw ltac:(done) ltac:(vm_compute; done)) as [Hr _]. exact Hr.
Defined.


