(* ===== verification/Stream.v ===== *)
(** The command-stream parser of the hook (binder_hook_builder.cpp): the event
    ring, the record of one transaction, and the walk over a BC or BR stream. *)

From S2P Require Import Prelude UserMemory KernelContext BinderWire Pending Parcel Reply.

(** src/binder_hook_builder.cpp:18-18 [kMaxParsedStreamBytes] *)
Definition kMaxParsedStreamBytes : Z := 64 * 1024.
(** src/binder_hook_builder.cpp:19-19 [kMaxParsedCommands] *)
Definition kMaxParsedCommands : Z := 128.

(** The counters of one direction, as the handler passes their offsets. *)

(** src/binder_hook_builder.cpp:1245-1258 [emit_parse_command_stream] *)
Record StreamCounters := {
  st_stream : ctx_word;
  st_command : ctx_word;
  st_transaction : ctx_word;
  st_boundary : ctx_word;
  st_copy_fault : ctx_word;
  st_capped : ctx_word;
}.

(** src/binder_hook_builder.cpp:1459-1473 [build_readonly_parser_handler] *)
Definition write_counters : StreamCounters := {|
  st_stream := write_streams; st_command := bc_commands;
  st_transaction := bc_transaction_commands; st_boundary := write_boundary_errors;
  st_copy_fault := write_copy_faults; st_capped := write_capped |}.

(** src/binder_hook_builder.cpp:1542-1556 [build_readonly_parser_handler] *)
Definition read_counters : StreamCounters := {|
  st_stream := read_streams; st_command := br_commands;
  st_transaction := br_transaction_commands; st_boundary := read_boundary_errors;
  st_copy_fault := read_copy_faults; st_capped := read_capped |}.

(** src/binder_hook_builder.cpp:1308-1328 [emit_parse_command_stream] *)
Definition is_transaction_command (expected_ioc_type command : Z) : bool :=
  if expected_ioc_type =? ioc_c
  then existsb (Z.eqb command) [BC_TRANSACTION; BC_REPLY; BC_TRANSACTION_SG; BC_REPLY_SG]
  else existsb (Z.eqb command) [BR_TRANSACTION; BR_TRANSACTION_SEC_CTX; BR_REPLY].

(** src/binder_hook_builder.cpp:1171-1231 [emit_record_transaction] *)
Definition event_kind (expected_ioc_type command : Z) : BinderEventKind :=
  if expected_ioc_type =? ioc_c then
    if (command =? BC_TRANSACTION) || (command =? BC_TRANSACTION_SG)
    then kBcTransaction else kBcReply
  else if command =? BR_REPLY then kBrReply
  else if command =? BR_TRANSACTION_SEC_CTX then kBrTransactionSecCtx
  else kBrTransaction.

Inductive stream_exit :=
  | StreamEmpty | StreamDone | StreamCapped | StreamBoundary | StreamCopyFault
  | StreamOutOfFuel.

(** The ring slot of a zero-based ticket. *)
Definition ring_slot (ticket : Z) : nat :=
  Z.to_nat (Z.land ticket (kTransactionEventCapacity - 1)).

(** src/binder_hook_builder.cpp:537-541 [emit_reserve_event] *)
Definition reserved_event (event_id : Z) (e : BinderTransactionEvent) : BinderTransactionEvent := {|
  ev_sequence := u64 (2 * event_id - 1); ev_event_id := event_id;
  ev_task_kaddr := ev_task_kaddr e; ev_target := ev_target e; ev_cookie := ev_cookie e;
  ev_data_size := ev_data_size e; ev_offsets_size := ev_offsets_size e;
  ev_buffer := ev_buffer e; ev_offsets := ev_offsets e;
  ev_correlated_request_id := ev_correlated_request_id e; ev_pid := ev_pid e;
  ev_tgid := ev_tgid e; ev_command := ev_command e; ev_code := ev_code e;
  ev_flags := ev_flags e; ev_sender_pid := ev_sender_pid e;
  ev_sender_euid := ev_sender_euid e; ev_kind := ev_kind e;
  ev_parcel_token_kind := ev_parcel_token_kind e;
  ev_parcel_token_offset := ev_parcel_token_offset e;
  ev_parcel_prefix_size := ev_parcel_prefix_size e; ev_parcel_flags := ev_parcel_flags e;
  ev_correlated_request_flags := ev_correlated_request_flags e;
  ev_reply_prefix_size := ev_reply_prefix_size e;
  ev_reply_status_code := ev_reply_status_code e;
  ev_reply_byte_array_length := ev_reply_byte_array_length e;
  ev_reply_byte_array_offset := ev_reply_byte_array_offset e;
  ev_reply_flags := ev_reply_flags e |}.

(** Every field between the reservation and the publication. *)

(** src/binder_hook_builder.cpp:1113-1169 [emit_record_transaction] *)
Definition fill_event (task : TaskStruct) (correlated_id command : Z) (sc : Scratch)
    (td : BinderTransactionData) (kind : BinderEventKind) (e : BinderTransactionEvent)
    : BinderTransactionEvent := {|
  ev_sequence := ev_sequence e; ev_event_id := ev_event_id e;
  ev_task_kaddr := task_kaddr task; ev_target := td_target td; ev_cookie := td_cookie td;
  ev_data_size := td_data_size td; ev_offsets_size := td_offsets_size td;
  ev_buffer := td_buffer td; ev_offsets := td_offsets td;
  ev_correlated_request_id := correlated_id; ev_pid := task_pid task;
  ev_tgid := task_tgid task; ev_command := command; ev_code := td_code td;
  ev_flags := td_flags td; ev_sender_pid := td_sender_pid td;
  ev_sender_euid := td_sender_euid td; ev_kind := kind;
  ev_parcel_token_kind := sc kParcelTokenKind;
  ev_parcel_token_offset := sc kParcelTokenOffset;
  ev_parcel_prefix_size := sc kParcelPrefixSize; ev_parcel_flags := sc kParcelFlags;
  ev_correlated_request_flags := sc kCorrelatedRequestFlags;
  ev_reply_prefix_size := sc kReplyPrefixSize;
  ev_reply_status_code := sc kReplyStatus;
  ev_reply_byte_array_length := sc kReplyArrayLength;
  ev_reply_byte_array_offset := sc kReplyArrayOffset;
  ev_reply_flags := sc kReplyFlags |}.

(** src/binder_hook_builder.cpp:546-549 [emit_publish_event] *)
Definition published_event (event_id : Z) (e : BinderTransactionEvent) : BinderTransactionEvent := {|
  ev_sequence := u64 (2 * event_id); ev_event_id := ev_event_id e;
  ev_task_kaddr := ev_task_kaddr e; ev_target := ev_target e; ev_cookie := ev_cookie e;
  ev_data_size := ev_data_size e; ev_offsets_size := ev_offsets_size e;
  ev_buffer := ev_buffer e; ev_offsets := ev_offsets e;
  ev_correlated_request_id := ev_correlated_request_id e; ev_pid := ev_pid e;
  ev_tgid := ev_tgid e; ev_command := ev_command e; ev_code := ev_code e;
  ev_flags := ev_flags e; ev_sender_pid := ev_sender_pid e;
  ev_sender_euid := ev_sender_euid e; ev_kind := ev_kind e;
  ev_parcel_token_kind := ev_parcel_token_kind e;
  ev_parcel_token_offset := ev_parcel_token_offset e;
  ev_parcel_prefix_size := ev_parcel_prefix_size e; ev_parcel_flags := ev_parcel_flags e;
  ev_correlated_request_flags := ev_correlated_request_flags e;
  ev_reply_prefix_size := ev_reply_prefix_size e;
  ev_reply_status_code := ev_reply_status_code e;
  ev_reply_byte_array_length := ev_reply_byte_array_length e;
  ev_reply_byte_array_offset := ev_reply_byte_array_offset e;
  ev_reply_flags := ev_reply_flags e |}.

Section stream_ops.
Context {U : Type} `{UserAccess U}.

Definition update_event (slot : nat) (f : BinderTransactionEvent -> BinderTransactionEvent)
    : HM U unit := h_modify (set_events (alter f slot)).

(** src/binder_hook_builder.cpp:524-542 [emit_reserve_event] *)
Definition emit_reserve_event : HM U (Z * nat) :=
  ticket ← h_get (fun c => kc_words c event_write_index);
  h_modify (add_word event_write_index 1);;
  let event_id := u64 (ticket + 1) in
  let slot := ring_slot ticket in
  update_event slot (reserved_event event_id);;
  mret (event_id, slot).

(** src/binder_hook_builder.cpp:544-549 [emit_publish_event] *)
Definition emit_publish_event (event_id : Z) (slot : nat) : HM U unit :=
  update_event slot (published_event event_id).

(** src/binder_hook_builder.cpp:1086-1092 [emit_record_transaction] *)
Definition recognise_request (expected_ioc_type command : Z) (td : BinderTransactionData)
    (sc : Scratch) : HM U Scratch :=
  if expected_ioc_type =? ioc_r
  then emit_capture_parcel_prefix expected_ioc_type command td sc else mret sc.

(** src/binder_hook_builder.cpp:1095-1109 [emit_record_transaction] *)
Definition correlate_reply (expected_ioc_type command : Z) (task : TaskStruct)
    (td : BinderTransactionData) (sc : Scratch) : HM U (Z * Scratch) :=
  if (expected_ioc_type =? ioc_c) && ((command =? BC_REPLY) || (command =? BC_REPLY_SG)) then
    popped ← emit_pending_pop task false;
    sc ← emit_parse_hal_correlated_reply (fst popped) (snd popped) td sc;
    mret (fst popped, sc)
  else mret (0, sc).

(** src/binder_hook_builder.cpp:1208-1230 [emit_record_transaction] *)
Definition remember_request (expected_ioc_type command event_id : Z) (task : TaskStruct)
    (td : BinderTransactionData) (sc : Scratch) : HM U unit :=
  if (expected_ioc_type =? ioc_c) || (command =? BR_REPLY) then mret tt
  else if Z.testbit (sc kParcelFlags) 0 then
    emit_counter_increment server_request_hits;;
    emit_pending_push task event_id td (sc kParcelFlags)
  else mret tt.

(** src/binder_hook_builder.cpp:1077-1240 [emit_record_transaction] *)
Definition emit_record_transaction (expected_ioc_type command : Z) (task : TaskStruct)
    (td : BinderTransactionData) : HM U unit :=
  let sc := emit_reset_transaction_parse_scratch in
  sc ← recognise_request expected_ioc_type command td sc;
  '(correlated_id, sc) ← correlate_reply expected_ioc_type command task td sc;
  '(event_id, slot) ← emit_reserve_event;
  update_event slot (fill_event task correlated_id command sc td
                       (event_kind expected_ioc_type command));;
  remember_request expected_ioc_type command event_id task td sc;;
  emit_counter_increment transaction_metadata_ok;;
  emit_publish_event event_id slot.

(** What is done with one command whose frame has been checked. *)

(** src/binder_hook_builder.cpp:1300-1350 [emit_parse_command_stream] *)
Definition process_command (task : TaskStruct) (expected_ioc_type : Z) (st : StreamCounters)
    (buffer command : Z) : HM U unit :=
  emit_counter_increment (st_command st);;
  if is_transaction_command expected_ioc_type command then
    emit_counter_increment (st_transaction st);;
    payload ← h_read (u64 (buffer + 4)) 64;
    match payload with
    | None => emit_counter_increment transaction_metadata_faults
    | Some bs => emit_record_transaction expected_ioc_type command task (decode_transaction bs)
    end
  else mret tt.

(** [buffer] is x19, [remaining] x20, [count] x22. *)

(** src/binder_hook_builder.cpp:1278-1368 [emit_parse_command_stream] *)
Fixpoint stream_loop (fuel : nat) (task : TaskStruct) (expected_ioc_type : Z)
    (st : StreamCounters) (buffer remaining count : Z) : HM U stream_exit :=
  match fuel with
  | O => mret StreamOutOfFuel
  | S fuel =>
      let boundary_error := emit_counter_increment (st_boundary st);; mret StreamBoundary in
      if kMaxParsedCommands <=? count then
        emit_counter_increment (st_capped st);; mret StreamCapped
      else if remaining <? 4 then boundary_error
      else
        word ← h_read buffer 4;
        match word with
        | None => emit_counter_increment (st_copy_fault st);; mret StreamCopyFault
        | Some bs =>
            let command := ld32 bs 0 in
            let size := ioc_size command + 4 in
            if negb (ioc_type command =? expected_ioc_type) then boundary_error
            else if remaining <? size then boundary_error
            else
              process_command task expected_ioc_type st buffer command;;
              if remaining - size =? 0 then mret StreamDone
              else stream_loop fuel task expected_ioc_type st (u64 (buffer + size))
                     (remaining - size) (count + 1)
        end
  end.

(** src/binder_hook_builder.cpp:1245-1369 [emit_parse_command_stream] *)
Definition emit_parse_command_stream (task : TaskStruct) (user_buffer consumed : Z)
    (expected_ioc_type : Z) (st : StreamCounters) : HM U stream_exit :=
  if consumed =? 0 then mret StreamEmpty
  else if user_buffer =? 0 then emit_counter_increment (st_copy_fault st);; mret StreamCopyFault
  else if kMaxParsedStreamBytes <? consumed then
    emit_counter_increment (st_capped st);; mret StreamCapped
  else
    emit_counter_increment (st_stream st);;
    stream_loop (S (Z.to_nat kMaxParsedCommands)) task expected_ioc_type st user_buffer consumed 0.

End stream_ops.

(** * What each part leaves alone *)

(** Walks through the primitives of the pending table's operations. *)
Ltac walk :=
  repeat first
    [ progress unfold emit_counter_increment, emit_pending_lock_acquire,
        emit_pending_lock_release, emit_bounded_lock_acquire, emit_bounded_lock_release,
        emit_capture_active_hal_generation, store_slot, push_claim
    | effect_step
    | match goal with |- context [if ?b then _ else _] => destruct b end ].

Section footprints.
Context {U : Type} `{UserAccessLaws U}.
Implicit Types s : hstate U.

(** The event ring with its index, and the configuration slots. *)
Definition ring_view s :=
  (events (h_ctx s), kc_words (h_ctx s) event_write_index,
   active_config_slot (h_ctx s), config_slots (h_ctx s)).

Lemma push_keeps_ring task id td fl :
  effect (keeps ring_view) (emit_pending_push task id td fl : HM U unit).
Proof. unfold emit_pending_push. walk. Qed.

Lemma push_keeps_mem task id td fl :
  effect (keeps h_mem) (emit_pending_push task id td fl : HM U unit).
Proof. unfold emit_pending_push. walk. Qed.

Lemma pop_keeps_ring task terminal :
  effect (keeps ring_view) (emit_pending_pop task terminal : HM U (Z * Z)).
Proof. unfold emit_pending_pop. walk. Qed.

Lemma pop_keeps_mem task terminal :
  effect (keeps h_mem) (emit_pending_pop task terminal : HM U (Z * Z)).
Proof. unfold emit_pending_pop. walk. Qed.

Lemma reply_keeps_ring id fl td sc :
  effect (keeps ring_view) (emit_parse_hal_correlated_reply id fl td sc : HM U Scratch).
Proof.
  intros s. pose proof (reply_class_effect id fl td sc s) as (_ & Hc & _).
  unfold keeps, ring_view. rewrite Hc. unfold reply_context.
  by destruct (classify_reply _ _ _ _ _).
Qed.

Lemma capture_keeps_ring type command td sc :
  effect (keeps ring_view) (emit_capture_parcel_prefix type command td sc : HM U Scratch).
Proof.
  apply capture_prefix_keeps; [|done]. intros w s Hw. unfold parcel_counters in Hw.
  by repeat (destruct Hw as [<-|Hw]; [done|]).
Qed.

Lemma capture_keeps_mem type command td sc :
  effect (keeps h_mem) (emit_capture_parcel_prefix type command td sc : HM U Scratch).
Proof. by apply capture_prefix_keeps. Qed.

Lemma correlate_keeps_ring type command task td sc :
  effect (keeps ring_view) (correlate_reply type command task td sc : HM U (Z * Scratch)).
Proof.
  unfold correlate_reply. destruct (_ && _); [|apply effect_ret, _].
  apply effect_bind; [apply _|apply pop_keeps_ring|intros popped].
  apply effect_bind; [apply _|apply reply_keeps_ring|intros sc']. apply effect_ret, _.
Qed.

Lemma remember_keeps_ring type command id task td sc :
  effect (keeps ring_view) (remember_request type command id task td sc : HM U unit).
Proof.
  unfold remember_request. destruct (_ || _); [apply effect_ret, _|].
  destruct (Z.testbit _ _); [|apply effect_ret, _].
  apply effect_bind; [apply _|by intros s|intros _]. apply push_keeps_ring.
Qed.

Lemma recognise_keeps_ring type command td sc :
  effect (keeps ring_view) (recognise_request type command td sc : HM U Scratch).
Proof. unfold recognise_request. destruct (type =? ioc_r); [apply capture_keeps_ring|apply effect_ret, _]. Qed.

(** One event is recorded per transaction, and nothing else in the ring changes. *)
Lemma record_ring type command task td s :
  let s' := (emit_record_transaction type command task td s).2 in
  let ticket := kc_words (h_ctx s) event_write_index in
  exists sc correlated,
  ring_view s' =
    (alter (published_event (u64 (ticket + 1)) ∘
            fill_event task correlated command sc td (event_kind type command) ∘
            reserved_event (u64 (ticket + 1))) (ring_slot ticket) (events (h_ctx s)),
     u64 (ticket + 1), active_config_slot (h_ctx s), config_slots (h_ctx s)).
Proof.
  cbn zeta. unfold emit_record_transaction. unfold mbind at 1, HM_bind.
  pose proof (recognise_keeps_ring type command td emit_reset_transaction_parse_scratch s) as Hcap.
  destruct (recognise_request _ _ _ _ s) as [sc s1]. cbn in Hcap.
  unfold mbind at 1. pose proof (correlate_keeps_ring type command task td sc s1) as Hcor.
  destruct (correlate_reply type command task td sc s1) as [[correlated sc'] s2]. cbn in Hcor.
  exists sc', correlated. unfold emit_reserve_event, emit_publish_event, update_event,
    mbind, HM_bind, h_get, h_modify, mret, HM_ret. cbn.
  set (s3 := {| h_ctx := _ |}).
  pose proof (remember_keeps_ring type command
    (u64 (kc_words (h_ctx s2) event_write_index + 1)) task td sc' s3) as Hrem.
  destruct (remember_request _ _ _ _ _ _ s3) as [u s4]. cbn in Hrem.
  unfold keeps, ring_view in *. cbn in *.
  injection Hcap as Ee1 Ei1 Ea1 Ec1. injection Hcor as Ee2 Ei2 Ea2 Ec2.
  injection Hrem as Ee3 Ei3 Ea3 Ec3. rewrite fn_lookup_insert_ne by done.
  rewrite Ee3, Ei3, Ea3, Ec3, Ea2, Ec2, Ea1, Ec1.
  by rewrite fn_lookup_insert, Ei2, Ei1, Ee2, Ee1, !list_alter_alter_eq.
Qed.
End footprints.

(** * The event ring *)

Lemma ring_slot_mod ticket : ring_slot ticket = Z.to_nat (ticket mod 256).
Proof. unfold ring_slot. change (_ - 1) with (Z.ones 8). by rewrite Z.land_ones by lia. Qed.

Lemma ring_slot_lt ticket : (ring_slot ticket < 256)%nat.
Proof.
  rewrite ring_slot_mod. pose proof (Z.mod_pos_bound ticket 256 ltac:(lia)). lia.
Qed.

Lemma ring_slot_inj a b :
  ring_slot a = ring_slot b -> -256 < a - b < 256 -> a = b.
Proof.
  rewrite !ring_slot_mod. intros Heq Hd.
  pose proof (Z.mod_pos_bound a 256 ltac:(lia)). pose proof (Z.mod_pos_bound b 256 ltac:(lia)).
  pose proof (Z.div_mod a 256 ltac:(lia)). pose proof (Z.div_mod b 256 ltac:(lia)). lia.
Qed.

(** The ring holds the newest 256 events, complete and in place; [w] is the number
    of transactions recorded so far. *)
Record ring_ok (es : list BinderTransactionEvent) (w : Z) : Prop := {
  ring_length : length es = Z.to_nat kTransactionEventCapacity;
  ring_count : 0 <= w;
  ring_entry : forall j, w - kTransactionEventCapacity < j <= w -> 0 < j ->
    exists e, es !! ring_slot (j - 1) = Some e /\ ev_event_id e = j /\ ev_sequence e = 2 * j;
}.

Lemma ring_ok_record es w f :
  ring_ok es w -> w + 1 < 2 ^ 63 ->
  (forall e, ev_event_id (f e) = ev_event_id e /\ ev_sequence (f e) = ev_sequence e) ->
  ring_ok (alter (published_event (u64 (w + 1)) ∘ f ∘ reserved_event (u64 (w + 1)))
             (ring_slot w) es) (w + 1).
Proof.
  intros [Hl Hw He] Hmax Hf. rewrite u64_small by lia. split; [by rewrite length_alter|lia|].
  unfold kTransactionEventCapacity in *. intros j Hj Hpos.
  destruct (decide (j = w + 1)) as [->|Hne].
  - replace (w + 1 - 1) with w by lia.
    destruct (lookup_lt_is_Some_2 es (ring_slot w)) as [e Hlook].
    { rewrite Hl. apply ring_slot_lt. }
    eexists. rewrite list_lookup_alter_eq, Hlook. split; [done|]. cbn.
    destruct (Hf (reserved_event (w + 1) e)) as [-> _]. split; [done|].
    rewrite u64_small; lia.
  - rewrite list_lookup_alter_ne.
    + apply He; lia.
    + intros Hs%ring_slot_inj; lia.
Qed.

(** * What a parse does to the ring and to user memory *)

(** One rewritten reply. *)
Definition reply_step {U} `{UserAccess U} (config : RuntimeConfigSlot) (m m' : U) : Prop :=
  exists td, carries_identifier m td /\
    rc_virtual_id_length config = kWidevineDeviceUniqueIdBytes /\
    rc_replacement_mode config <> 0 /\
    m' = (copy_to_user m (identifier_at td) (virtual_identifier config)).1.

Section parse_effects.
Context {U : Type} `{UserAccessLaws U}.
Implicit Types s : hstate U.

Definition recorded s : Z := kc_words (h_ctx s) event_write_index.

(** The configuration is not touched, and user memory is changed by rewriting
    replies, in the BC direction only. *)
Definition parse_step (type : Z) s s' : Prop :=
  active_config (h_ctx s') = active_config (h_ctx s) /\
  (if type =? ioc_c then rtc (reply_step (active_config (h_ctx s))) (h_mem s) (h_mem s')
   else h_mem s' = h_mem s).

#[global] Instance parse_step_refl type : Reflexive (parse_step type).
Proof. intros s. split; [done|]. by destruct (type =? ioc_c). Qed.

#[global] Instance parse_step_trans type : Transitive (parse_step type).
Proof.
  intros s1 s2 s3 (Hc1 & Hm1) (Hc2 & Hm2). split; [congruence|].
  rewrite Hc1 in Hm2. destruct (type =? ioc_c); [by etrans|congruence].
Qed.

(** At most [k] transactions are recorded, and the ring stays in order. *)
Definition ring_step (k : nat) s s' : Prop :=
  exists n : nat, (n <= k)%nat /\
  (0 <= recorded s -> recorded s + Z.of_nat n < 2 ^ 63 ->
   recorded s' = recorded s + Z.of_nat n /\
   (ring_ok (events (h_ctx s)) (recorded s) -> ring_ok (events (h_ctx s')) (recorded s'))).

Lemma ring_step_quiet k s s' : ring_view s' = ring_view s -> ring_step k s s'.
Proof.
  unfold ring_view. intros [= He Hw _ _]. exists 0%nat. split; [lia|].
  intros. unfold recorded. rewrite He, Hw. split; [lia|done].
Qed.

Lemma ring_step_bind {A B} k1 k2 (m : HM U A) (k : A -> HM U B) :
  effect (ring_step k1) m -> (forall a, effect (ring_step k2) (k a)) ->
  effect (ring_step (k1 + k2)) (m ≫= k).
Proof.
  intros Hm Hk s. specialize (Hm s). unfold mbind, HM_bind.
  destruct (m s) as [a s1]. specialize (Hk a s1). destruct (k a s1) as [b s2]. cbn in *.
  destruct Hm as (n1 & Hn1 & H1), Hk as (n2 & Hn2 & H2). exists (n1 + n2)%nat.
  split; [lia|]. intros Hp Hb. destruct H1 as [E1 R1]; [lia|lia|].
  destruct H2 as [E2 R2]; [lia|lia|]. split; [lia|tauto].
Qed.

Lemma ring_step_keeps {A} k (m : HM U A) : effect (keeps ring_view) m -> effect (ring_step k) m.
Proof. intros Hm s. apply ring_step_quiet, Hm. Qed.

Lemma parse_step_counter type w :
  effect (parse_step type) (emit_counter_increment w : HM U unit).
Proof.
  intros s. split; [done|]. cbn. by destruct (type =? ioc_c).
Qed.

Lemma ring_step_counter k w :
  w <> event_write_index -> effect (ring_step k) (emit_counter_increment w : HM U unit).
Proof.
  intros Hw s. apply ring_step_quiet. unfold ring_view. cbn. by rewrite fn_lookup_insert_ne.
Qed.

Lemma reply_mem id fl td sc s :
  rtc (reply_step (active_config (h_ctx s))) (h_mem s)
    (h_mem (emit_parse_hal_correlated_reply id fl td sc s).2).
Proof.
  pose proof (reply_class_effect id fl td sc s) as (_ & _ & Hm & _). rewrite Hm.
  pose proof (classify_writes (h_mem s) id fl td (active_config (h_ctx s))) as Hc. cbn zeta in Hc.
  destruct (classify_reply _ _ _ _ _); try done; cbn [reply_memory]; apply rtc_once; exists td.
  - destruct Hc as (_ & _ & ? & ? & ?); [by right|]. done.
  - destruct Hc as (_ & _ & ? & ? & ?); [by left|]. done.
Qed.

Lemma parse_step_keeps {A} type (m : HM U A) :
  effect (keeps ring_view) m -> effect (keeps h_mem) m -> effect (parse_step type) m.
Proof.
  intros Hr Hm s. specialize (Hr s). specialize (Hm s). unfold keeps, ring_view in *.
  injection Hr as _ _ Ha Hc. split; [unfold active_config; by rewrite Ha, Hc|].
  rewrite Hm. by destruct (type =? ioc_c).
Qed.

Lemma parse_step_modify type g :
  (forall c, active_config (g c) = active_config c) -> effect (parse_step type) (h_modify g : HM U unit).
Proof. intros Hg s. split; [apply Hg|]. cbn. by destruct (type =? ioc_c). Qed.

Lemma correlate_step type command task td sc :
  effect (parse_step type) (correlate_reply type command task td sc : HM U (Z * Scratch)).
Proof.
  unfold correlate_reply. destruct (type =? ioc_c) eqn:Et; [|apply effect_ret, _].
  destruct (_ || _); [|apply effect_ret, _]. cbn [andb].
  apply effect_bind; [apply _|apply parse_step_keeps; [apply pop_keeps_ring|apply pop_keeps_mem]|].
  intros popped. apply effect_bind; [apply _| |intros sc'; apply effect_ret, _].
  intros s. split.
  - pose proof (reply_keeps_ring popped.1 popped.2 td sc s) as Hr. unfold keeps, ring_view in Hr.
    injection Hr as _ _ Ha Hc. unfold active_config. by rewrite Ha, Hc.
  - rewrite Et. apply reply_mem.
Qed.

Lemma record_step type command task td :
  effect (parse_step type) (emit_record_transaction type command task td : HM U unit).
Proof.
  unfold emit_record_transaction, emit_reserve_event, emit_publish_event, update_event.
  apply effect_bind; [apply _| |intros sc].
  { unfold recognise_request. destruct (type =? ioc_r); [|apply effect_ret, _].
    apply parse_step_keeps; [apply capture_keeps_ring|apply capture_keeps_mem]. }
  apply effect_bind; [apply _|apply correlate_step|intros [correlated sc']].
  apply effect_bind; [apply _| |intros [id slot]].
  { apply effect_bind; [apply _|apply effect_get, _|intros ticket].
    do 2 (apply effect_bind; [apply _|by apply parse_step_modify|intros _]). apply effect_ret, _. }
  apply effect_bind; [apply _|by apply parse_step_modify|intros _].
  apply effect_bind; [apply _| |intros _].
  { unfold remember_request. destruct (_ || _); [apply effect_ret, _|].
    destruct (Z.testbit _ _); [|apply effect_ret, _].
    apply effect_bind; [apply _|by apply parse_step_modify|intros _].
    apply parse_step_keeps; [apply push_keeps_ring|apply push_keeps_mem]. }
  apply effect_bind; [apply _|by apply parse_step_modify|intros _]. by apply parse_step_modify.
Qed.

Lemma record_ring_step type command task td :
  effect (ring_step 1) (emit_record_transaction type command task td : HM U unit).
Proof.
  intros s. destruct (record_ring type command task td s) as (sc & correlated & Hr).
  unfold ring_view in Hr. injection Hr as He Hw _ _.
  exists 1%nat. split; [done|]. unfold recorded. intros Hp Hb. rewrite He, Hw, u64_small by lia.
  split; [done|]. intros Hok.
  pose proof (ring_ok_record _ _ (fill_event task correlated command sc td (event_kind type command))
    Hok ltac:(lia) ltac:(done)) as Hok'. by rewrite u64_small in Hok' by lia.
Qed.

(** The two directions the handler parses. *)
Definition direction (type : Z) (st : StreamCounters) : Prop :=
  type = ioc_c /\ st = write_counters \/ type = ioc_r /\ st = read_counters.

Lemma direction_counter type st :
  direction type st -> Forall (fun w => w <> event_write_index)
    [st_stream st; st_command st; st_transaction st; st_boundary st; st_copy_fault st; st_capped st].
Proof. intros [[_ ->]|[_ ->]]; repeat constructor; done. Qed.

Lemma process_step type st task buffer command :
  effect (parse_step type) (process_command task type st buffer command : HM U unit).
Proof.
  unfold process_command. apply effect_bind; [apply _|by apply parse_step_counter|intros _].
  destruct (is_transaction_command type command); [|apply effect_ret, _].
  apply effect_bind; [apply _|by apply parse_step_counter|intros _].
  apply effect_bind; [apply _|apply effect_read, _|intros [bs|]].
  - apply record_step.
  - by apply parse_step_counter.
Qed.

Lemma process_ring_step type st task buffer command :
  direction type st ->
  effect (ring_step 1) (process_command task type st buffer command : HM U unit).
Proof.
  intros Hd. pose proof (direction_counter _ _ Hd) as Hc.
  rewrite !Forall_cons in Hc. destruct Hc as (_ & H2 & H3 & _).
  unfold process_command. apply (ring_step_bind 0 1); [by apply ring_step_counter|intros _].
  destruct (is_transaction_command type command); [|by intros s; apply ring_step_quiet].
  apply (ring_step_bind 0 1); [by apply ring_step_counter|intros _].
  apply (ring_step_bind 0 1); [by intros s; apply ring_step_quiet|intros [bs|]].
  - apply record_ring_step.
  - by apply ring_step_counter.
Qed.

Lemma stream_exit_step type w (e : stream_exit) :
  effect (parse_step type) (emit_counter_increment w;; mret e : HM U stream_exit).
Proof. apply effect_bind; [apply _|apply parse_step_counter|]. intros _. apply effect_ret, _. Qed.

Lemma stream_exit_ring k w (e : stream_exit) :
  w <> event_write_index ->
  effect (ring_step k) (emit_counter_increment w;; mret e : HM U stream_exit).
Proof. intros Hw s. by apply ring_step_counter. Qed.

Lemma stream_loop_step type st task fuel buffer remaining count :
  effect (parse_step type) (stream_loop fuel task type st buffer remaining count : HM U stream_exit).
Proof.
  revert buffer remaining count. induction fuel as [|fuel IH]; intros buffer remaining count;
    cbn [stream_loop]; [apply effect_ret, _|].
  destruct (kMaxParsedCommands <=? count); [apply stream_exit_step|].
  destruct (remaining <? 4); [apply stream_exit_step|].
  apply effect_bind; [apply _|apply effect_read, _|intros [bs|]]; [|apply stream_exit_step].
  destruct (negb _); [apply stream_exit_step|].
  destruct (remaining <? _); [apply stream_exit_step|].
  apply effect_bind; [apply _|apply process_step|intros _].
  destruct (_ =? 0); [apply effect_ret, _|apply IH].
Qed.

Lemma stream_loop_ring type st task fuel buffer remaining count :
  direction type st ->
  effect (ring_step (Z.to_nat (kMaxParsedCommands - count)))
    (stream_loop fuel task type st buffer remaining count : HM U stream_exit).
Proof.
  intros Hd. pose proof (direction_counter _ _ Hd) as Hc.
  rewrite !Forall_cons in Hc. destruct Hc as (H1 & H2 & H3 & H4 & H5 & H6 & _).
  revert buffer remaining count. induction fuel as [|fuel IH]; intros buffer remaining count;
    cbn [stream_loop]; [by intros s; apply ring_step_quiet|].
  destruct (Z.leb_spec kMaxParsedCommands count); [by apply stream_exit_ring|].
  replace (Z.to_nat (kMaxParsedCommands - count))
    with (1 + Z.to_nat (kMaxParsedCommands - (count + 1)))%nat by lia.
  destruct (remaining <? 4); [by apply stream_exit_ring|].
  apply (ring_step_bind 0 (1 + _)); [by intros s; apply ring_step_quiet|].
  intros [bs|]; [|by apply stream_exit_ring].
  destruct (negb _); [by apply stream_exit_ring|].
  destruct (remaining <? _); [by apply stream_exit_ring|].
  apply (ring_step_bind 1); [by apply process_ring_step|intros _].
  destruct (_ =? 0); [by intros s; apply ring_step_quiet|apply IH].
Qed.

Lemma parse_stream_step type st task buffer consumed :
  effect (parse_step type) (emit_parse_command_stream task buffer consumed type st : HM U stream_exit).
Proof.
  unfold emit_parse_command_stream. destruct (consumed =? 0); [apply effect_ret, _|].
  destruct (buffer =? 0); [apply stream_exit_step|].
  destruct (_ <? consumed); [apply stream_exit_step|].
  apply effect_bind; [apply _|apply parse_step_counter|intros _]. apply stream_loop_step.
Qed.

End parse_effects.

(** * Framing *)

(** A command with its payload, as the driver and its clients write them. *)
Record Frame := { fr_command : Z; fr_payload : list Z }.

Definition encode_frame (f : Frame) : list Z := le_enc 4 (fr_command f) ++ fr_payload f.
Definition encode_frames (fs : list Frame) : list Z := concat (encode_frame <$> fs).

Definition frame_ok (type : Z) (f : Frame) : Prop :=
  0 <= fr_command f < 2 ^ 32 /\ ioc_type (fr_command f) = type /\
  Z.of_nat (length (fr_payload f)) = ioc_size (fr_command f).

Section framing.
Context {U : Type} `{UserAccessLaws U}.
Implicit Types s : hstate U.

(** Every part of [bytes] can be read, and reads as written. *)
Definition holds (m : U) (buffer : Z) (bytes : list Z) : Prop :=
  forall off n, (off + n <= length bytes)%nat ->
    copy_from_user m (u64 (buffer + Z.of_nat off)) (Z.of_nat n) = Some (slice off n bytes).

(** User memory as a parse in this direction can leave it. *)
Definition reachable (type : Z) (config : RuntimeConfigSlot) (m m' : U) : Prop :=
  if type =? ioc_c then rtc (reply_step config) m m' else m' = m.

(** What a frame means, without the stream it came in. *)
Definition process_frame (task : TaskStruct) (type : Z) (st : StreamCounters) (f : Frame)
    : HM U unit :=
  emit_counter_increment (st_command st);;
  if is_transaction_command type (fr_command f) then
    emit_counter_increment (st_transaction st);;
    emit_record_transaction type (fr_command f) task (decode_transaction (take 64 (fr_payload f)))
  else mret tt.

Fixpoint process_frames (task : TaskStruct) (type : Z) (st : StreamCounters) (fs : list Frame)
    : HM U unit :=
  match fs with
  | [] => mret tt
  | f :: fs => process_frame task type st f;; process_frames task type st fs
  end.

(** The payload of every transaction command holds the 64 bytes that are read. *)
Lemma transaction_payload type command :
  is_transaction_command type command = true -> 64 <= ioc_size command.
Proof.
  unfold is_transaction_command. destruct (type =? ioc_c); intros Hc;
    apply existsb_exists in Hc as (c & Hin & ->%Z.eqb_eq);
    repeat (destruct Hin as [<-|Hin]; [vm_compute; done|]); done.
Qed.

Lemma encode_frame_length type f :
  frame_ok type f -> Z.of_nat (length (encode_frame f)) = ioc_size (fr_command f) + 4.
Proof.
  intros (_ & _ & Hl). unfold encode_frame. rewrite length_app, le_enc_length. lia.
Qed.

Lemma holds_part m buffer pre bytes rest off n :
  holds m buffer (pre ++ bytes ++ rest) -> (off + n <= length bytes)%nat ->
  copy_from_user m (u64 (buffer + Z.of_nat (length pre + off))) (Z.of_nat n) =
    Some (slice off n bytes).
Proof.
  intros Hh Hn. rewrite Hh by (rewrite !length_app; lia). f_equal. unfold slice.
  rewrite drop_app_add'; [|done]. rewrite drop_app_le by lia.
  by rewrite take_app_le by (rewrite length_drop; lia).
Qed.

Lemma reachable_step type buffer bytes s s' :
  parse_step type s s' ->
  (forall m', reachable type (active_config (h_ctx s)) (h_mem s) m' -> holds m' buffer bytes) ->
  forall m', reachable type (active_config (h_ctx s')) (h_mem s') m' -> holds m' buffer bytes.
Proof.
  intros (Hc & Hm) Hs m' Hr. apply Hs. unfold reachable in *. rewrite Hc in Hr.
  destruct (type =? ioc_c); [by etrans|congruence].
Qed.

Lemma process_command_frame type st task buffer pre f rest s :
  frame_ok type f -> holds (h_mem s) buffer (pre ++ encode_frame f ++ rest) ->
  process_command task type st (u64 (buffer + Z.of_nat (length pre))) (fr_command f) s =
  process_frame task type st f s.
Proof.
  intros Hf Hh. unfold process_command, process_frame, mbind, HM_bind, emit_counter_increment,
    h_modify. destruct (is_transaction_command type (fr_command f)) eqn:Et; [|done].
  unfold h_read. cbn [h_mem]. pose proof (encode_frame_length type f Hf) as Hlen.
  pose proof (transaction_payload _ _ Et) as H64. destruct Hf as (_ & _ & Hl).
  replace (u64 (u64 (buffer + Z.of_nat (length pre)) + 4))
    with (u64 (buffer + Z.of_nat (length pre + 4))).
  2: { unfold u64. rewrite Zplus_mod_idemp_l. f_equal. lia. }
  change 64 with (Z.of_nat 64) at 1. rewrite (holds_part _ _ _ _ _ 4 64 Hh) by lia.
  unfold encode_frame. by rewrite slice_app_skip by apply le_enc_length.
Qed.

Lemma frame_command type f rest m buffer pre :
  frame_ok type f -> holds m buffer (pre ++ encode_frame f ++ rest) ->
  exists bs, copy_from_user m (u64 (buffer + Z.of_nat (length pre))) 4 = Some bs /\
  ld32 bs 0 = fr_command f.
Proof.
  intros (Hc & _ & _) Hh. eexists. split.
  - replace (length pre) with (length pre + 0)%nat by lia. change 4 with (Z.of_nat 4).
    apply (holds_part _ _ _ _ _ 0 4 Hh). unfold encode_frame. rewrite length_app, le_enc_length. lia.
  - unfold ld32, encode_frame. rewrite (slice_app_l 0 4) by (by rewrite le_enc_length).
    change (slice 0 4 (le_enc 4 (fr_command f))) with (le_enc 4 (fr_command f)).
    by apply le_dec_enc_u32.
Qed.

Lemma stream_loop_frames type st task fs :
  forall pre buffer fuel count s,
  Forall (frame_ok type) fs -> fs <> [] -> 0 <= count ->
  count + Z.of_nat (length fs) <= kMaxParsedCommands -> (length fs <= fuel)%nat ->
  (forall m', reachable type (active_config (h_ctx s)) (h_mem s) m' ->
     holds m' buffer (pre ++ encode_frames fs)) ->
  stream_loop fuel task type st (u64 (buffer + Z.of_nat (length pre)))
    (Z.of_nat (length (encode_frames fs))) count s =
  (StreamDone, (process_frames task type st fs s).2).
Proof.
  induction fs as [|f fs IH]; [done|].
  intros pre buffer fuel count s [Hf Hfs]%Forall_cons _ Hcount Hmax Hfuel Hstable.
  cbn [length] in Hmax, Hfuel. destruct fuel as [|fuel]; [lia|]. cbn [stream_loop].
  change (encode_frames (f :: fs)) with (encode_frame f ++ encode_frames fs) in *.
  assert (Hh : holds (h_mem s) buffer (pre ++ encode_frame f ++ encode_frames fs)).
  { apply Hstable. unfold reachable. by destruct (type =? ioc_c). }
  pose proof (encode_frame_length type f Hf) as Hlen.
  pose proof (ioc_size_range (fr_command f)) as Hsize.
  unfold mbind, HM_bind. rewrite (proj2 (Z.leb_gt _ _)) by lia.
  rewrite length_app, Nat2Z.inj_add, Hlen.
  rewrite (proj2 (Z.ltb_ge _ 4)) by lia. unfold h_read.
  destruct (frame_command type f _ _ _ _ Hf Hh) as (bs & -> & ->).
  destruct Hf as (Hc & Htype & Hpl). rewrite Htype, Z.eqb_refl. cbn [negb].
  rewrite (proj2 (Z.ltb_ge _ _)) by lia.
  rewrite (process_command_frame type st task buffer pre f (encode_frames fs)) by done.
  cbn [process_frames]. unfold mbind, HM_bind.
  pose proof (process_step type st task (u64 (buffer + Z.of_nat (length pre))) (fr_command f) s)
    as Hstep.
  rewrite (process_command_frame type st task buffer pre f (encode_frames fs)) in Hstep by done.
  destruct (process_frame task type st f s) as [u s1]. cbn [snd] in Hstep.
  replace (ioc_size (fr_command f) + 4 + Z.of_nat (length (encode_frames fs)) -
    (ioc_size (fr_command f) + 4)) with (Z.of_nat (length (encode_frames fs))) by lia.
  destruct (decide (fs = [])) as [->|Hne]; [done|].
  rewrite (proj2 (Z.eqb_neq _ _)).
  2: { destruct fs as [|g fs]; [done|]. change (encode_frames (g :: fs)) with
       (encode_frame g ++ encode_frames fs). unfold encode_frame.
       rewrite !length_app, le_enc_length. lia. }
  replace (u64 (u64 (buffer + Z.of_nat (length pre)) + (ioc_size (fr_command f) + 4)))
    with (u64 (buffer + Z.of_nat (length (pre ++ encode_frame f)))).
  2: { rewrite length_app, Nat2Z.inj_add, Hlen. unfold u64. rewrite Zplus_mod_idemp_l.
       f_equal. lia. }
  apply IH; [done|done|lia|lia|lia|]. rewrite <-app_assoc.
  by apply (reachable_step type buffer _ s s1).
Qed.

(** C9: a stream of at most 128 well-framed commands and 64 KiB, read in either
    direction, is processed as that sequence of commands: each command is counted,
    each transaction is recorded from the first 64 bytes of its own payload, in
    order, and the walk ends exactly at the end of the stream.  In the BC
    direction the stream must not lie in the replies that are being rewritten. *)
Theorem parse_stream_frames type st task fs buffer s :
  Forall (frame_ok type) fs -> fs <> [] ->
  Z.of_nat (length fs) <= kMaxParsedCommands ->
  Z.of_nat (length (encode_frames fs)) <= kMaxParsedStreamBytes ->
  0 < buffer < 2 ^ 64 ->
  (forall m', reachable type (active_config (h_ctx s)) (h_mem s) m' ->
     holds m' buffer (encode_frames fs)) ->
  emit_parse_command_stream task buffer (Z.of_nat (length (encode_frames fs))) type st s =
    (StreamDone, ((emit_counter_increment (st_stream st);; process_frames task type st fs) s).2).
Proof.
  intros Hfs Hne Hcount Hbytes Hbuf Hstable. unfold emit_parse_command_stream.
  assert (0 < Z.of_nat (length (encode_frames fs))) as Hpos.
  { destruct fs as [|g fs]; [done|]. change (encode_frames (g :: fs)) with
      (encode_frame g ++ encode_frames fs). unfold encode_frame.
    rewrite !length_app, le_enc_length. lia. }
  rewrite (proj2 (Z.eqb_neq _ 0)), (proj2 (Z.eqb_neq buffer 0)) by lia.
  rewrite (proj2 (Z.ltb_ge _ _)) by done.
  unfold mbind at 1 2, HM_bind.
  pose proof (parse_step_counter type (st_stream st) s) as Hstep.
  destruct (emit_counter_increment (st_stream st) s) as [u s1]. cbn [snd] in Hstep.
  pose proof (stream_loop_frames type st task fs [] buffer (S (Z.to_nat kMaxParsedCommands)) 0 s1)
    as Hloop. rewrite Z.add_0_r, u64_small in Hloop by lia.
  apply Hloop; [done|done|lia|lia|unfold kMaxParsedCommands in *; lia|].
  by apply (reachable_step type buffer _ s s1).
Qed.

(** C10: a parse always comes to one of its exits within the 129 rounds it is
    given, whatever memory holds and however it changes. *)
Theorem parse_stream_terminates type st task buffer consumed s :
  (emit_parse_command_stream task buffer consumed type st s).1 <> StreamOutOfFuel.
Proof.
  unfold emit_parse_command_stream. destruct (consumed =? 0); [done|].
  destruct (buffer =? 0); [done|]. destruct (_ <? consumed); [done|].
  unfold mbind at 1, HM_bind. destruct (emit_counter_increment _ s) as [u s1].
  assert (forall fuel buffer remaining count s,
    count <= kMaxParsedCommands -> kMaxParsedCommands - count < Z.of_nat fuel ->
    (stream_loop fuel task type st buffer remaining count s).1 <> StreamOutOfFuel) as Hloop.
  { induction fuel as [|fuel IH]; intros b r c s0 Hc Hf; [lia|]. cbn [stream_loop].
    destruct (Z.leb_spec kMaxParsedCommands c); [done|]. destruct (r <? 4); [done|].
    unfold mbind, HM_bind, h_read. destruct (copy_from_user _ _ _) as [bs|]; [|done].
    destruct (negb _); [done|]. destruct (r <? _); [done|].
    destruct (process_command _ _ _ _ _ _) as [v s2]. destruct (_ =? 0); [done|].
    apply IH; lia. }
  apply Hloop; [done|]. vm_compute. done.
Qed.

(** a parse never touches the configuration; the BR direction leaves user
    memory as it is, and the BC direction changes it by rewriting replies only,
    each at its identifier bytes and under an active configuration that
    replaces; in dry-run mode it leaves it as it is too. *)
Lemma parse_stream_memory type st task buffer consumed s :
  let s' := (emit_parse_command_stream task buffer consumed type st s).2 in
  active_config (h_ctx s') = active_config (h_ctx s) /\
  (type = ioc_r -> h_mem s' = h_mem s) /\
  rtc (reply_step (active_config (h_ctx s))) (h_mem s) (h_mem s') /\
  (rc_replacement_mode (active_config (h_ctx s)) = 0 -> h_mem s' = h_mem s).
Proof.
  cbn zeta. pose proof (parse_stream_step type st task buffer consumed s) as (Hc & Hm).
  assert (rtc (reply_step (active_config (h_ctx s))) (h_mem s)
    (h_mem (emit_parse_command_stream task buffer consumed type st s).2)) as Hrtc
    by (destruct (type =? ioc_c); [done|by rewrite Hm]).
  split; [done|]. split; [by intros ->|]. split; [done|].
  intros Hdry. destruct Hrtc as [|m1 m2 m3 (td & _ & _ & Hmode & _)]; done.
Qed.

(** C11: the event ring: after any parse the index has advanced by the number of
    transactions recorded, and the newest 256 of them are in the ring, each
    complete (even sequence) and at the place its number gives. *)
Theorem parse_stream_ring type st task buffer consumed s :
  direction type st ->
  ring_ok (events (h_ctx s)) (recorded s) -> recorded s + kMaxParsedCommands < 2 ^ 63 ->
  let s' := (emit_parse_command_stream task buffer consumed type st s).2 in
  recorded s <= recorded s' <= recorded s + kMaxParsedCommands /\
  ring_ok (events (h_ctx s')) (recorded s').
Proof.
  intros Hd Hok Hmax. cbn zeta. pose proof (direction_counter _ _ Hd) as Hc.
  rewrite !Forall_cons in Hc. destruct Hc as (H1 & _ & _ & _ & H5 & H6 & _).
  assert (ring_step (Z.to_nat kMaxParsedCommands) s
    (emit_parse_command_stream task buffer consumed type st s).2) as (n & Hn & Hr).
  { unfold emit_parse_command_stream. destruct (consumed =? 0); [by apply ring_step_quiet|].
    destruct (buffer =? 0); [by apply stream_exit_ring|].
    destruct (_ <? consumed); [by apply stream_exit_ring|].
    apply (ring_step_bind 0 (Z.to_nat (kMaxParsedCommands - 0)));
      [by apply ring_step_counter|intros _; by apply stream_loop_ring]. }
  pose proof (ring_count _ _ Hok). unfold kMaxParsedCommands in *.
  destruct Hr as [E Hr]; [lia|lia|]. split; [lia|by apply Hr].
Qed.

End framing.

(** * Concrete runs *)

Definition demo_thread : TaskStruct :=
  {| task_kaddr := 4096; task_pid := 700; task_tgid := 600 |}.
Definition demo_frames : list Frame :=
  [{| fr_command := ioc 0 ioc_r 12 0; fr_payload := [] |};
   {| fr_command := BR_TRANSACTION; fr_payload := encode_transaction (demo_td demo_parcel) |}].
Definition demo_stream_state : hstate AddressSpace :=
  {| h_ctx := zero_context;
     h_mem := mk_address_space [(65536, encode_frames demo_frames); (8192, demo_parcel)];
     h_parcel := replicate 256 0; h_locks := [] |}.

Lemma demo_frames_bytes : bytes_ok (encode_frames demo_frames).
Proof. apply (bool_decide_unpack (bytes_ok _)). vm_compute. done. Qed.

Lemma demo_frames_ok : Forall (frame_ok ioc_r) demo_frames.
Proof. repeat constructor; vm_compute; done. Qed.

Lemma demo_frames_length : length (encode_frames demo_frames) = 72%nat.
Proof. done. Qed.

Lemma demo_stream_holds m' :
  reachable ioc_r (active_config (h_ctx demo_stream_state)) (h_mem demo_stream_state) m' ->
  holds m' 65536 (encode_frames demo_frames).
Proof.
  intros ->. intros off n Hn. rewrite demo_frames_length in Hn.
  rewrite u64_small by lia. cbn [copy_from_user AddressSpace_access]. rewrite Nat2Z.id.
  apply as_read_write_slice; [apply demo_frames_bytes|by rewrite demo_frames_length].
Qed.

Lemma parse_stream_frames_witness :
  let s' := (emit_parse_command_stream demo_thread 65536 72 ioc_r read_counters
               demo_stream_state).2 in
  kc_words (h_ctx s') br_commands = 2 /\ kc_words (h_ctx s') pending_pushes = 1.
Proof.
  cbn zeta.
  pose proof (parse_stream_frames ioc_r read_counters demo_thread demo_frames 65536
    demo_stream_state demo_frames_ok ltac:(done) ltac:(done) ltac:(done) ltac:(lia)
    demo_stream_holds) as Hp.
  rewrite demo_frames_length in Hp. change (Z.of_nat 72) with 72 in Hp. rewrite Hp.
  clear Hp. split; vm_compute; reflexivity.
Defined.

Lemma demo_ring_ok : ring_ok (events (h_ctx demo_stream_state)) (recorded demo_stream_state).
Proof. split; [done|done|]. intros j Hj Hpos. change (recorded demo_stream_state) with 0 in Hj. lia. Qed.

Lemma parse_stream_ring_witness :
  ring_ok (events (h_ctx (emit_parse_command_stream demo_thread 65536 72 ioc_r read_counters
    demo_stream_state).2))
    (recorded (emit_parse_command_stream demo_thread 65536 72 ioc_r read_counters
    demo_stream_state).2).
Proof.
  apply (parse_stream_ring ioc_r read_counters demo_thread 65536 72 demo_stream_state);
    [by right|apply demo_ring_ok|done].
Defined.

Lemma parse_stream_memory_witness :
  h_mem (emit_parse_command_stream demo_thread 65536 72 ioc_r read_counters demo_stream_state).2 =
  h_mem demo_stream_state.
Proof.
  destruct (parse_stream_memory ioc_r read_counters demo_thread 65536 72 demo_stream_state)
    as (_ & Hread & _).
  exact (Hread eq_refl).
Defined.
