(* ===== verification/Handler.v ===== *)
(** The generated ioctl handler (binder_hook_builder.cpp): the identity gate, the
    parse of the unconsumed BC stream before the driver runs, the call of the
    original ioctl, and the parse of the returned BR stream. *)

From S2P Require Import Prelude UserMemory KernelContext BinderWire Pending Parcel Reply Stream.

(** The identities that enter the parser: the installer and the active set. *)

(** src/binder_hook_builder.cpp:147-164 [emit_hal_identity_gate] *)
Fixpoint gate_scan (tgid count : Z) (index : nat) (tgids : list Z) (n : nat) : bool :=
  match n with
  | O => false
  | S n =>
      if count <? Z.of_nat index + 1 then false
      else if tgid =? nth index tgids 0 then true
      else gate_scan tgid count (S index) tgids n
  end.

(** src/binder_hook_builder.cpp:122-165 [emit_hal_identity_gate] *)
Definition emit_hal_identity_gate (installer_tgid : Z) (task : TaskStruct)
    (ctx : KernelCounterContext) : bool :=
  if task_kaddr task =? 0 then false
  else if task_tgid task =? installer_tgid then true
  else
    let set := active_hal ctx in
    if kHalIdentityLimit <? hs_count set then false
    else gate_scan (task_tgid task) (hs_count set) 0 (hs_tgids set) (Z.to_nat kHalIdentityLimit).

Section handler.
Context {U : Type} `{UserAccess U}.

(** The driver's ioctl: it runs with the same arguments, and while it blocks other
    threads may run the handler, so it may change any part of the state. *)
Variable original_ioctl : Z -> Z -> Z -> HM U Z.

(** The parse before the call; the snapshot says that the header was good. *)

(** src/binder_hook_builder.cpp:1419-1482 [build_readonly_parser_handler] *)
Definition pre_call (task : TaskStruct) (arg : Z) : HM U (option BinderWriteRead) :=
  let pre_header_fault := emit_counter_increment pre_header_faults;; mret None in
  emit_counter_increment bwr_calls;;
  if arg =? 0 then pre_header_fault
  else
    header ← h_read arg 48;
    match header with
    | None => pre_header_fault
    | Some bs =>
        emit_counter_increment pre_header_ok;;
        let bwr := decode_bwr bs in
        if write_size bwr <? write_consumed bwr then pre_header_fault
        else
          emit_parse_command_stream task (u64 (write_buffer bwr + write_consumed bwr))
            (write_size bwr - write_consumed bwr) ioc_c write_counters;;
          mret (Some bwr)
    end.

(** What the driver may have done to the header. *)

(** src/binder_hook_builder.cpp:1508-1535 [build_readonly_parser_handler] *)
Definition post_header_valid (pre post : BinderWriteRead) : bool :=
  (write_size post =? write_size pre) && (write_buffer post =? write_buffer pre) &&
  (read_size post =? read_size pre) && (read_buffer post =? read_buffer pre) &&
  negb (write_size pre <? write_consumed post) &&
  negb (write_consumed post <? write_consumed pre) &&
  negb (read_size pre <? read_consumed post).

(** src/binder_hook_builder.cpp:1493-1569 [build_readonly_parser_handler] *)
Definition post_call (task : TaskStruct) (arg : Z) (pre : BinderWriteRead) : HM U unit :=
  if arg =? 0 then emit_counter_increment post_header_faults
  else
    header ← h_read arg 48;
    match header with
    | None => emit_counter_increment post_header_faults
    | Some bs =>
        emit_counter_increment post_header_ok;;
        let post := decode_bwr bs in
        if post_header_valid pre post then
          emit_parse_command_stream task (read_buffer pre) (read_consumed post) ioc_r
            read_counters;;
          mret tt
        else emit_counter_increment invalid_consumed
    end.

(** src/binder_hook_builder.cpp:1411-1486 [build_readonly_parser_handler] *)
Definition pre_phase (task : TaskStruct) (cmd arg : Z) : HM U (option BinderWriteRead) :=
  if u32 cmd =? BINDER_WRITE_READ then pre_call task arg else mret None.

(** src/binder_hook_builder.cpp:1490-1571 [build_readonly_parser_handler] *)
Definition post_phase (task : TaskStruct) (arg : Z) (pre : option BinderWriteRead) : HM U unit :=
  match pre with
  | None => mret tt
  | Some bwr => post_call task arg bwr
  end.

(** src/binder_hook_builder.cpp:1371-1591 [build_readonly_parser_handler] *)
Definition parser_handler (installer_tgid : Z) (task : TaskStruct) (file cmd arg : Z)
    : HM U Z :=
  tracked ← h_get (emit_hal_identity_gate installer_tgid task);
  if negb tracked then original_ioctl file cmd arg
  else
    emit_counter_increment hal_gate_hits;;
    emit_counter_increment active_calls;;
    emit_counter_increment pre_calls;;
    pre ← pre_phase task cmd arg;
    ret ← original_ioctl file cmd arg;
    post_phase task arg pre;;
    emit_counter_increment post_calls;;
    emit_atomic_decrement active_calls;;
    mret ret.

End handler.

(** * The gate *)

Lemma gate_scan_spec tgid count tgids n index :
  gate_scan tgid count index tgids n = true <->
  exists i, (index <= i < index + n)%nat /\ Z.of_nat i < count /\ nth i tgids 0 = tgid.
Proof.
  revert index. induction n as [|n IH]; intros index; cbn [gate_scan].
  { split; [done|]. intros (i & Hi & _). lia. }
  bcase.
  { split; [done|]. intros (i & Hi & Hc & _). lia. }
  bcase.
  { split; [|done]. intros _. exists index. split; [lia|]. split; [lia|done]. }
  rewrite IH. split; intros (i & Hi & Hc & Ht); exists i.
  - split; [lia|done].
  - split; [|done]. destruct (decide (i = index)) as [->|]; [congruence|lia].
Qed.

(** the gate lets exactly two kinds of caller into the parser: a task of the
    installer, and a task whose thread group is one of the first [count] of the
    active identity set, which is ignored when its count exceeds the four slots;
    without a current task nobody enters. *)
Lemma gate_spec installer task ctx :
  length (hs_tgids (active_hal ctx)) = Z.to_nat kHalIdentityLimit ->
  emit_hal_identity_gate installer task ctx = true <->
  task_kaddr task <> 0 /\
  (task_tgid task = installer \/
   hs_count (active_hal ctx) <= kHalIdentityLimit /\
   task_tgid task ∈ take (Z.to_nat (hs_count (active_hal ctx))) (hs_tgids (active_hal ctx))).
Proof.
  intros Hlen. unfold emit_hal_identity_gate.
  destruct (Z.eqb_spec (task_kaddr task) 0); [split; [done|naive_solver]|].
  destruct (Z.eqb_spec (task_tgid task) installer); [split; [intros _; split; [done|by left]|done]|].
  destruct (Z.ltb_spec kHalIdentityLimit (hs_count (active_hal ctx))) as [Hc|Hc].
  { split; [done|]. intros (_ & [|[? _]]); [done|lia]. }
  rewrite gate_scan_spec. change (Z.to_nat kHalIdentityLimit) with 4%nat in *.
  unfold kHalIdentityLimit in *. split.
  - intros (i & Hi & Hlt & Ht). split; [done|]. right. split; [lia|].
    apply list_elem_of_lookup. exists i. rewrite lookup_take_lt by lia.
    rewrite nth_lookup in Ht. destruct (hs_tgids (active_hal ctx) !! i) eqn:E; [by cbn in Ht; subst|].
    apply lookup_ge_None in E. lia.
  - intros (_ & [|[_ Hin]]); [done|]. apply list_elem_of_lookup in Hin as [i Hi].
    apply lookup_take_Some in Hi as [Hi Hlt].
    pose proof (lookup_lt_Some _ _ _ Hi). exists i. split; [lia|]. split; [lia|].
    by rewrite nth_lookup, Hi.
Qed.

(** * The handler *)

Section handler_facts.
Context {U : Type} `{UserAccessLaws U}.
Context (original_ioctl : Z -> Z -> Z -> HM U Z).
Implicit Types s : hstate U.

Lemma pre_call_step task arg : effect (parse_step ioc_c) (pre_call task arg : HM U (option _)).
Proof.
  unfold pre_call. apply effect_bind; [apply _|apply parse_step_counter|intros _].
  assert (effect (parse_step ioc_c)
    (emit_counter_increment pre_header_faults;; mret None : HM U (option BinderWriteRead))) as Hf.
  { apply effect_bind; [apply _|apply parse_step_counter|intros _; apply effect_ret, _]. }
  destruct (arg =? 0); [apply Hf|].
  apply effect_bind; [apply _|apply effect_read, _|intros [bs|]]; [|apply Hf].
  apply effect_bind; [apply _|apply parse_step_counter|intros _].
  destruct (_ <? _); [apply Hf|].
  apply effect_bind; [apply _|apply parse_stream_step|intros _; apply effect_ret, _].
Qed.

Lemma post_call_step task arg bwr : effect (parse_step ioc_r) (post_call task arg bwr : HM U unit).
Proof.
  unfold post_call. destruct (arg =? 0); [apply parse_step_counter|].
  apply effect_bind; [apply _|apply effect_read, _|intros [bs|]]; [|apply parse_step_counter].
  apply effect_bind; [apply _|apply parse_step_counter|intros _].
  destruct (post_header_valid _ _); [|apply parse_step_counter].
  apply effect_bind; [apply _|apply parse_stream_step|intros _; apply effect_ret, _].
Qed.

Lemma pre_phase_step task cmd arg s :
  parse_step ioc_c s (pre_phase task cmd arg s).2 /\
  (u32 cmd <> BINDER_WRITE_READ -> h_mem (pre_phase task cmd arg s).2 = h_mem s).
Proof.
  unfold pre_phase. destruct (Z.eqb_spec (u32 cmd) BINDER_WRITE_READ).
  - by split; [apply pre_call_step|].
  - split; [|done]. by apply effect_ret, _.
Qed.

Lemma post_phase_mem task arg pre s : h_mem (post_phase task arg pre s).2 = h_mem s.
Proof. destruct pre as [bwr|]; [|done]. by apply (post_call_step task arg bwr s). Qed.

(** a caller the gate does not let in gets the original ioctl and nothing
    else: no counter moves and no user byte is read or written for it. *)
Lemma handler_bypass installer task file cmd arg s :
  emit_hal_identity_gate installer task (h_ctx s) = false ->
  parser_handler original_ioctl installer task file cmd arg s = original_ioctl file cmd arg s.
Proof. intros Hg. unfold parser_handler, mbind, HM_bind, h_get. by rewrite Hg. Qed.

(** C6: for every caller the original ioctl runs once, with the caller's own
    arguments, and its result is what the caller gets.  Before it runs, user
    memory differs from the caller's by rewritten replies only (not at all for a
    command other than BINDER_WRITE_READ, or in dry-run mode); after it returned,
    nothing is written to user memory any more. *)
Theorem handler_transparent installer task file cmd arg s :
  let '(ret, s') := parser_handler original_ioctl installer task file cmd arg s in
  exists s1,
    (ret, h_mem s') = (let '(r, s2) := original_ioctl file cmd arg s1 in (r, h_mem s2)) /\
    active_config (h_ctx s1) = active_config (h_ctx s) /\
    rtc (reply_step (active_config (h_ctx s))) (h_mem s) (h_mem s1) /\
    (u32 cmd <> BINDER_WRITE_READ \/ rc_replacement_mode (active_config (h_ctx s)) = 0 ->
     h_mem s1 = h_mem s).
Proof.
  unfold parser_handler. unfold mbind at 1, HM_bind, h_get.
  destruct (emit_hal_identity_gate installer task (h_ctx s)); cbn [negb].
  2: { destruct (original_ioctl file cmd arg s) as [r s2] eqn:E. exists s. by rewrite E. }
  unfold mbind, HM_bind, emit_counter_increment, emit_atomic_decrement, h_modify.
  cbv beta iota. set (s0 := {| h_ctx := add_word pre_calls 1 _ |}).
  destruct (pre_phase_step task cmd arg s0) as [[Hc Hm] Hother].
  change (ioc_c =? ioc_c) with true in Hm. cbv iota in Hm.
  destruct (pre_phase task cmd arg s0) as [snapshot s1]. cbn [snd] in *.
  destruct (original_ioctl file cmd arg s1) as [ret s2] eqn:Hret.
  change (active_config (h_ctx s0)) with (active_config (h_ctx s)) in *.
  change (h_mem s0) with (h_mem s) in *.
  pose proof (post_phase_mem task arg snapshot s2) as Hpost.
  destruct (post_phase task arg snapshot s2) as [u s3].
  cbn [snd] in Hpost. cbn. exists s1. rewrite Hret, Hpost. split; [done|]. split; [done|]. split; [done|].
  intros [Hne|Hdry]; [by apply Hother|].
  destruct Hm as [|m1 m2 m3 (td & _ & _ & Hmode & _)]; done.
Qed.

(** * The count of running handlers *)

Definition running s : Z := kc_words (h_ctx s) active_calls.

Lemma counter_running w :
  w <> active_calls -> effect (keeps running) (emit_counter_increment w : HM U unit).
Proof. intros Hw s. unfold keeps, running. cbn. by rewrite fn_lookup_insert_ne. Qed.

Lemma push_running task id td fl : effect (keeps running) (emit_pending_push task id td fl : HM U unit).
Proof. unfold emit_pending_push. walk. Qed.

Lemma pop_running task terminal : effect (keeps running) (emit_pending_pop task terminal : HM U (Z * Z)).
Proof. unfold emit_pending_pop. walk. Qed.

Lemma recognise_running type command td sc :
  effect (keeps running) (recognise_request type command td sc : HM U Scratch).
Proof.
  unfold recognise_request. destruct (type =? ioc_r); [|apply effect_ret, _].
  apply capture_prefix_keeps; [|done]. intros w s Hw. unfold parcel_counters in Hw.
  by repeat (destruct Hw as [<-|Hw]; [done|]).
Qed.

Lemma correlate_running type command task td sc :
  effect (keeps running) (correlate_reply type command task td sc : HM U (Z * Scratch)).
Proof.
  unfold correlate_reply. destruct (_ && _); [|apply effect_ret, _].
  apply effect_bind; [apply _|apply pop_running|intros popped].
  apply effect_bind; [apply _| |intros sc'; apply effect_ret, _].
  intros s. destruct (reply_class_effect popped.1 popped.2 td sc s) as (_ & Hc & _).
  unfold keeps, running. rewrite Hc. unfold reply_context. by destruct (classify_reply _ _ _ _ _).
Qed.

Lemma record_running type command task td :
  effect (keeps running) (emit_record_transaction type command task td : HM U unit).
Proof.
  unfold emit_record_transaction, emit_reserve_event, emit_publish_event, update_event.
  apply effect_bind; [apply _|apply recognise_running|intros sc].
  apply effect_bind; [apply _|apply correlate_running|intros [correlated sc']].
  apply effect_bind; [apply _|by solve_effect|intros [id slot]].
  apply effect_bind; [apply _|by solve_effect|intros _].
  apply effect_bind; [apply _| |intros _].
  { unfold remember_request. destruct (_ || _); [apply effect_ret, _|].
    destruct (Z.testbit _ _); [|apply effect_ret, _].
    apply effect_bind; [apply _|by apply counter_running|intros _; apply push_running]. }
  apply effect_bind; [apply _|by apply counter_running|intros _]. by solve_effect.
Qed.

Lemma direction_running type st :
  direction type st -> Forall (fun w => w <> active_calls)
    [st_stream st; st_command st; st_transaction st; st_boundary st; st_copy_fault st; st_capped st].
Proof. intros [[_ ->]|[_ ->]]; repeat constructor; done. Qed.

Lemma parse_running type st task buffer consumed :
  direction type st ->
  effect (keeps running) (emit_parse_command_stream task buffer consumed type st : HM U stream_exit).
Proof.
  intros Hd. pose proof (direction_running _ _ Hd) as Hc.
  rewrite !Forall_cons in Hc. destruct Hc as (H1 & H2 & H3 & H4 & H5 & H6 & _).
  assert (forall w (e : stream_exit), w <> active_calls ->
    effect (keeps running) (emit_counter_increment w;; mret e : HM U stream_exit)) as Hexit.
  { intros w e Hw. apply effect_bind; [apply _|by apply counter_running|].
    intros _. apply effect_ret, _. }
  assert (forall fuel buffer remaining count, effect (keeps running)
    (stream_loop fuel task type st buffer remaining count : HM U stream_exit)) as Hloop.
  { induction fuel as [|fuel IH]; intros b r c; cbn [stream_loop]; [apply effect_ret, _|].
    destruct (_ <=? c); [by apply Hexit|]. destruct (r <? 4); [by apply Hexit|].
    apply effect_bind; [apply _|apply effect_read, _|intros [bs|]]; [|by apply Hexit].
    destruct (negb _); [by apply Hexit|]. destruct (r <? _); [by apply Hexit|].
    apply effect_bind; [apply _| |intros _; destruct (_ =? 0); [apply effect_ret, _|apply IH]].
    unfold process_command. apply effect_bind; [apply _|by apply counter_running|intros _].
    destruct (is_transaction_command _ _); [|apply effect_ret, _].
    apply effect_bind; [apply _|by apply counter_running|intros _].
    apply effect_bind; [apply _|apply effect_read, _|intros [bs'|]];
      [apply record_running|by apply counter_running]. }
  unfold emit_parse_command_stream. destruct (consumed =? 0); [apply effect_ret, _|].
  destruct (buffer =? 0); [by apply Hexit|]. destruct (_ <? consumed); [by apply Hexit|].
  apply effect_bind; [apply _|by apply counter_running|intros _; apply Hloop].
Qed.

Lemma pre_phase_running task cmd arg :
  effect (keeps running) (pre_phase task cmd arg : HM U (option BinderWriteRead)).
Proof.
  unfold pre_phase. destruct (_ =? _); [|apply effect_ret, _]. unfold pre_call.
  assert (effect (keeps running)
    (emit_counter_increment pre_header_faults;; mret None : HM U (option BinderWriteRead))) as Hf.
  { apply effect_bind; [apply _|by apply counter_running|intros _; apply effect_ret, _]. }
  apply effect_bind; [apply _|by apply counter_running|intros _].
  destruct (arg =? 0); [apply Hf|].
  apply effect_bind; [apply _|apply effect_read, _|intros [bs|]]; [|apply Hf].
  apply effect_bind; [apply _|by apply counter_running|intros _].
  destruct (_ <? _); [apply Hf|].
  apply effect_bind; [apply _|apply parse_running; by left|intros _; apply effect_ret, _].
Qed.

Lemma post_phase_running task arg pre : effect (keeps running) (post_phase task arg pre : HM U unit).
Proof.
  destruct pre as [bwr|]; [|apply effect_ret, _]. unfold post_phase, post_call.
  destruct (arg =? 0); [by apply counter_running|].
  apply effect_bind; [apply _|apply effect_read, _|intros [bs|]]; [|by apply counter_running].
  apply effect_bind; [apply _|by apply counter_running|intros _].
  destruct (post_header_valid _ _); [|by apply counter_running].
  apply effect_bind; [apply _|apply parse_running; by right|intros _; apply effect_ret, _].
Qed.

(** C7: the count of running handlers (below its maximum when the call begins) is
    raised by one while the driver runs for a tracked caller and lowered by one
    afterwards, on every path: when the driver (with the handlers of the threads
    that ran meanwhile) leaves it as it found it, the whole call does too.  The count
    is what a snapshot, and the one taken at the removal of the hook, reports as the
    calls still running; the removal does not wait for it. *)
Theorem handler_balanced installer task file cmd arg s :
  emit_hal_identity_gate installer task (h_ctx s) = true ->
  0 <= running s < UINT64_MAX ->
  exists s1, running s1 = running s + 1 /\
  (parser_handler original_ioctl installer task file cmd arg s).1 =
    (original_ioctl file cmd arg s1).1 /\
  (running (original_ioctl file cmd arg s1).2 = running s1 ->
   running (parser_handler original_ioctl installer task file cmd arg s).2 = running s).
Proof.
  intros Hgate Hrange. unfold UINT64_MAX in Hrange. unfold parser_handler.
  unfold mbind, HM_bind, h_get. cbv beta iota. rewrite Hgate. cbn [negb].
  unfold emit_counter_increment, emit_atomic_decrement, h_modify. cbv beta iota. set (s0 := {| h_ctx := add_word pre_calls 1 _ |}).
  assert (running s0 = running s + 1) as Hrun0.
  { change (running s0) with (u64 (running s + 1)). apply u64_small. lia. }
  pose proof (pre_phase_running task cmd arg s0) as Hpre. unfold keeps in Hpre.
  destruct (pre_phase task cmd arg s0) as [pre s1]. cbn [snd] in Hpre. exists s1.
  destruct (original_ioctl file cmd arg s1) as [ret s2]. cbn [fst snd].
  pose proof (post_phase_running task arg pre s2) as Hpost. unfold keeps in Hpost.
  destruct (post_phase task arg pre s2) as [u s3]. cbn [snd] in Hpost.
  split; [congruence|]. split; [done|]. intros Hkept.
  assert (running s3 = running s + 1) as H3 by congruence.
  unfold running in *. cbn. rewrite fn_lookup_insert, fn_lookup_insert_ne by done.
  rewrite H3. unfold UINT64_MAX, u64. rewrite <-(Z.mod_small (kc_words (h_ctx s) active_calls) (2 ^ 64)) at 2 by lia.
  replace (kc_words (h_ctx s) active_calls + 1 + (2 ^ 64 - 1))
    with (kc_words (h_ctx s) active_calls + 1 * 2 ^ 64) by lia. apply Z.mod_add. lia.
Qed.

End handler_facts.

(** * Concrete runs *)

(** Two HAL processes, the caller's among them. *)
Definition demo_gate_context : KernelCounterContext :=
  set_hal 0 [{| hs_count := 2; hs_generation := 1; hs_tgids := [600; 650; 0; 0] |}; zero_hal_set]
    zero_context.
Definition demo_call : hstate AddressSpace :=
  {| h_ctx := demo_gate_context;
     h_mem := mk_address_space [(65536, encode_frames demo_frames); (8192, demo_parcel)];
     h_parcel := replicate 256 0; h_locks := [] |}.
Definition demo_driver (file cmd arg : Z) : HM AddressSpace Z := mret (file + arg).
Definition demo_other : TaskStruct := {| task_kaddr := 4096; task_pid := 900; task_tgid := 900 |}.

Lemma gate_spec_witness : emit_hal_identity_gate 1 demo_thread demo_gate_context = true.
Proof.
  apply (gate_spec 1 demo_thread demo_gate_context); [reflexivity|].
  split; [discriminate|]. right. split; [discriminate|]. constructor.
Defined.

Lemma handler_bypass_witness :
  (parser_handler demo_driver 1 demo_other 3 BINDER_WRITE_READ 4 demo_call).1 = 7.
Proof.
  rewrite (handler_bypass demo_driver 1 demo_other 3 BINDER_WRITE_READ 4 demo_call);
    [reflexivity|vm_compute; reflexivity].
Defined.

Lemma handler_transparent_witness :
  (parser_handler demo_driver 1 demo_thread 3 BINDER_WRITE_READ 4 demo_call).1 = 7.
Proof.
  pose proof (handler_transparent demo_driver 1 demo_thread 3 BINDER_WRITE_READ 4 demo_call) as Ht.
  destruct (parser_handler _ _ _ _ _ _ _) as [ret s']. destruct Ht as (s1 & Hret & _).
  apply (inj2 pair) in Hret as [-> _]. reflexivity.
Defined.

Lemma handler_balanced_witness :
  running (parser_handler demo_driver 1 demo_thread 3 BINDER_WRITE_READ 4 demo_call).2 = 0.
Proof.
  destruct (handler_balanced demo_driver 1 demo_thread 3 BINDER_WRITE_READ 4 demo_call)
    as (s1 & _ & _ & Hback).
  - vm_compute. reflexivity.
  - split; [discriminate|reflexivity].
  - rewrite Hback by reflexivity. reflexivity.
Defined.
