(* ===== verification/Interception.v ===== *)
(** The purpose of the hook, end to end: a deviceUniqueId request that the HAL
    receives is remembered, and the reply of the same thread leaves with the
    virtual identifier. *)

From S2P Require Import Prelude UserMemory KernelContext BinderWire Pending PendingFacts Parcel Reply Stream.

Section interception.
Context {U : Type} `{UserAccessLaws U}.
Implicit Types s : hstate U.

(** What the two halves of the exchange need of the state between them. *)
Definition exchange_view s :=
  (pending (h_ctx s), kc_words (h_ctx s) pending_lock_state, h_locks s,
   active_hal_identity_slot (h_ctx s), hal_identity_slots (h_ctx s), h_mem s).

Lemma recognise_exchange type command td sc :
  effect (keeps exchange_view) (recognise_request type command td sc : HM U Scratch).
Proof.
  unfold recognise_request. destruct (type =? ioc_r); [|apply effect_ret, _].
  apply capture_prefix_keeps; [|done]. intros w s Hw. unfold parcel_counters in Hw.
  by repeat (destruct Hw as [<-|Hw]; [done|]).
Qed.

(** Between two recorded steps of the record, the view only moves by the push. *)
Lemma record_request_shape task td command s :
  command = BR_TRANSACTION \/ command = BR_TRANSACTION_SEC_CTX ->
  0 <= td_data_size td ->
  (exists bs, parcel_prefix (h_mem s) td = Some bs /\
     request_recognised bs (Z.of_nat (length bs)) (td_code td) = true) ->
  exists s3, exchange_view s3 = exchange_view s /\
    exchange_view (emit_record_transaction ioc_r command task td s).2 =
      exchange_view (emit_pending_push task (u64 (kc_words (h_ctx s) event_write_index + 1)) td
                       kParcelFlagDeviceUniqueId s3).2.
Proof.
  intros Hcmd Hsize (bs & Hpre & Hrec).
  destruct (emit_record_transaction ioc_r command task td s) as [v s'] eqn:Hr.
  unfold emit_record_transaction in Hr. unfold mbind at 1, HM_bind in Hr.
  pose proof (recognise_exchange ioc_r command td emit_reset_transaction_parse_scratch s) as He.
  pose proof (recognise_keeps_ring ioc_r command td emit_reset_transaction_parse_scratch s) as Hw.
  pose proof (capture_prefix_flags ioc_r command td s Hsize) as Hf.
  rewrite (is_request_br _ Hcmd), Hpre, Hrec in Hf.
  change (emit_capture_parcel_prefix ioc_r command td emit_reset_transaction_parse_scratch s)
    with (recognise_request ioc_r command td emit_reset_transaction_parse_scratch s) in Hf.
  destruct (recognise_request _ _ _ _ s) as [sc s1]. cbn [fst snd] in He, Hw, Hf.
  unfold correlate_reply, emit_reserve_event, emit_publish_event, update_event, remember_request,
    emit_counter_increment, mbind, HM_bind, mret, HM_ret, h_get, h_modify in Hr.
  change (ioc_r =? ioc_c) with false in Hr.
  assert ((command =? BR_REPLY) = false) as Hnot by (by destruct Hcmd as [-> | ->]).
  rewrite Hnot in Hr. cbn [andb orb] in Hr. cbv beta iota zeta in Hr. rewrite Hf in Hr.
  change (Z.testbit 1 0) with true in Hr. cbv beta iota in Hr.
  unfold keeps, ring_view in Hw. injection Hw as _ Hw _ _. rewrite Hw in Hr.
  match type of Hr with context [emit_pending_push ?t ?i ?d ?f ?s3] =>
    exists s3; change (emit_pending_push t i d f s3) with
      (emit_pending_push task (u64 (kc_words (h_ctx s) event_write_index + 1)) td
         kParcelFlagDeviceUniqueId s3) in Hr;
    destruct (emit_pending_push task (u64 (kc_words (h_ctx s) event_write_index + 1)) td
      kParcelFlagDeviceUniqueId s3) as [w s4] end.
  injection Hr as <- <-. split; [exact He|done].
Qed.

(** A request that is recognised leaves its frame on the thread's stack. *)
Lemma record_request task td command s :
  command = BR_TRANSACTION \/ command = BR_TRANSACTION_SEC_CTX ->
  0 <= td_data_size td -> Z.testbit (td_flags td) 0 = false ->
  kc_words (h_ctx s) pending_lock_state = 0 -> h_locks s = [] ->
  (exists bs, parcel_prefix (h_mem s) td = Some bs /\
     request_recognised bs (Z.of_nat (length bs)) (td_code td) = true) ->
  let s' := (emit_record_transaction ioc_r command task td s).2 in
  let id := u64 (kc_words (h_ctx s) event_write_index + 1) in
  table s' = push_result task (request_frame s id td kParcelFlagDeviceUniqueId) (table s) /\
  lock_granted s' /\ active_hal (h_ctx s') = active_hal (h_ctx s) /\
  active_config (h_ctx s') = active_config (h_ctx s) /\ h_mem s' = h_mem s.
Proof.
  intros Hcmd Hsize Hsync Hfree Hscript Hreq. cbn zeta.
  destruct (record_step ioc_r command task td s) as [Hconf Hmem].
  destruct (record_request_shape task td command s Hcmd Hsize Hreq) as (s3 & H3 & H').
  set (id := u64 _) in *. unfold exchange_view in H3, H'.
  injection H3 as Hp3 Hl3 Hs3 Ha3 Hi3 Hm3. injection H' as Hp' Hl' Hs' Ha' Hi' Hm'.
  assert (lock_granted s3) as Hlock by (apply lock_granted_free; congruence).
  destruct (emit_pending_push_run task id td kParcelFlagDeviceUniqueId s3 Hsync Hlock)
    as (Ht & Hl & Hm & Hh & Hs).
  assert (active_hal (h_ctx s3) = active_hal (h_ctx s)) as Hh3
    by (unfold active_hal; by rewrite Ha3, Hi3).
  split; [|split; [|split; [|split; [done|exact Hmem]]]].
  - unfold table in *. rewrite Hp', Ht, Hp3. unfold request_frame. by rewrite Hh3.
  - apply lock_granted_free; [by rewrite Hl'|]. by rewrite Hs', Hs, Hs3, Hscript.
  - rewrite <-Hh3, <-Hh. unfold active_hal. by rewrite Ha', Hi'.
Qed.

(** A reply's memory is what parsing it with the popped correlation leaves. *)
Lemma record_reply_mem task td command s :
  command = BC_REPLY \/ command = BC_REPLY_SG ->
  h_mem (emit_record_transaction ioc_c command task td s).2 =
    h_mem (emit_parse_hal_correlated_reply (emit_pending_pop task false s).1.1
             (emit_pending_pop task false s).1.2 td emit_reset_transaction_parse_scratch
             (emit_pending_pop task false s).2).2.
Proof.
  intros Hcmd. unfold emit_record_transaction, recognise_request, correlate_reply,
    remember_request, emit_reserve_event, emit_publish_event, update_event,
    emit_counter_increment, mbind, HM_bind, mret, HM_ret, h_get, h_modify.
  change (ioc_c =? ioc_r) with false. change (ioc_c =? ioc_c) with true.
  assert ((command =? BC_REPLY) || (command =? BC_REPLY_SG) = true) as ->
    by (by destruct Hcmd as [-> | ->]).
  cbn [andb orb]. cbv beta iota.
  destruct (emit_pending_pop task false s) as [[id fl] s1]. cbn [fst snd].
  by destruct (emit_parse_hal_correlated_reply _ _ _ _ _).
Qed.

(** When the try-lock fails the reply leaves as the process wrote it. *)
Lemma contended_reply_unreplaced task td command s :
  command = BC_REPLY \/ command = BC_REPLY_SG -> lock_refused s ->
  h_mem (emit_record_transaction ioc_c command task td s).2 = h_mem s.
Proof.
  intros Hcmd Hlock. rewrite record_reply_mem by done.
  destruct (pending_contended task false 0 (decode_transaction []) 0 s eq_refl Hlock) as [_ ->].
  cbn [fst snd].
  destruct (reply_class_effect 0 0 td emit_reset_transaction_parse_scratch (dropped_by_contention s))
    as (_ & _ & -> & _). reflexivity.
Qed.


End interception.

(** * A concrete exchange *)

Definition demo_hal : TaskStruct := {| task_kaddr := 4096; task_pid := 700; task_tgid := 600 |}.

Definition demo_exchange (mode : Z) : hstate AddressSpace :=
  {| h_ctx := set_config 0 [demo_config mode; zero_config_slot] zero_context;
     h_mem := mk_address_space [(4096, demo_reply); (8192, demo_parcel)];
     h_parcel := replicate 256 0; h_locks := [] |}.

Lemma demo_exchange_carries mode : carries_identifier (h_mem (demo_exchange mode)) demo_reply_td.
Proof.
  split; [done|]. split; [done|]. exists (le_enc 4 0 ++ le_enc 4 32), demo_device_id.
  repeat split; vm_compute; done.
Qed.

Lemma demo_exchange_request mode :
  exists bs, parcel_prefix (h_mem (demo_exchange mode)) (demo_td demo_parcel) = Some bs /\
    request_recognised bs (Z.of_nat (length bs)) 11 = true.
Proof. exists demo_parcel. split; vm_compute; done. Qed.

