(* ===== verification/EventReport.v ===== *)
(** The report of the recorded transactions (module_main.cpp, print_recent_events): a
    reader of the event ring over a snapshot of the context.  A line is the event it
    shows, with the names and the reply that stand in it. *)

From S2P Require Import Prelude UserMemory KernelContext BinderWire Parcel Reply Stream Interception.

(** src/module_main.cpp:151-167 [event_kind_name] *)
Definition event_kind_name (kind : BinderEventKind) : string :=
  match kind with
  | kBcTransaction => "BC_TX"
  | kBcReply => "BC_REPLY"
  | kBrTransaction => "BR_TX"
  | kBrTransactionSecCtx => "BR_TX_SECCTX"
  | kBrReply => "BR_REPLY"
  | kUnknown => "UNKNOWN"
  end.

(** src/module_main.cpp:169-177 [parcel_token_name] *)
Definition parcel_token_name (kind : Z) : string := if kind =? 1 then "IDrmPlugin" else "-".

(** What a line shows; [rl_reply] is zero when no reply was found. *)
Record ReportLine := {
  rl_event : BinderTransactionEvent;
  rl_kind : string;
  rl_token : string;
  rl_reply : BinderTransactionEvent;
}.

Record EventReport := {
  er_token_lines : list ReportLine;
  er_token_events : Z;
  er_device_events : Z;
  er_lines : list ReportLine;
  er_printed : Z;
  er_correlated : Z;
  er_begin : Z;
  er_end : Z;
}.

Section Report.
Context (snapshot : KernelCounterContext).

(** The events are an array of [kTransactionEventCapacity]; no ticket leads outside. *)

(** src/module_main.cpp:191-194 [print_recent_events] *)
Definition event_of_ticket (ticket : Z) : BinderTransactionEvent :=
  default zero_event (events snapshot !! ring_slot ticket).

(** The event of a ticket, when the handler had completed it and no later one had taken
    its place. *)

(** src/module_main.cpp:192-196,268-273 [print_recent_events] *)
Definition complete_event (ticket : Z) : option BinderTransactionEvent :=
  let event_id := u64 (ticket + 1) in
  let event := event_of_ticket ticket in
  if (ev_sequence event =? u64 (event_id * 2)) && (ev_event_id event =? event_id) then Some event else None.

Definition report_line (event reply : BinderTransactionEvent) : ReportLine := {|
  rl_event := event; rl_kind := event_kind_name (ev_kind event);
  rl_token := parcel_token_name (ev_parcel_token_kind event); rl_reply := reply |}.

(** src/module_main.cpp:203-228 [print_recent_events] *)
Fixpoint find_reply (tickets : list Z) (event_id : Z) : BinderTransactionEvent :=
  match tickets with
  | [] => zero_event
  | ticket :: tickets =>
      match complete_event ticket with
      | Some reply =>
          if ev_correlated_request_id reply =? event_id then reply else find_reply tickets event_id
      | None => find_reply tickets event_id
      end
  end.

(** [retained] are the tickets a reply is looked for under. *)

(** src/module_main.cpp:190-255 [print_recent_events] *)
Fixpoint token_pass (retained tickets : list Z) (lines : list ReportLine) (token_events device_events : Z)
    : list ReportLine * Z * Z :=
  match tickets with
  | [] => (lines, token_events, device_events)
  | ticket :: tickets =>
      match complete_event ticket with
      | Some event =>
          if ev_parcel_token_kind event =? 0 then token_pass retained tickets lines token_events device_events
          else
            let token_events := token_events + 1 in
            let device_events :=
              if negb (Z.land (ev_parcel_flags event) kParcelFlagDeviceUniqueId =? 0)
              then device_events + 1 else device_events in
            let lines := if token_events <=? 32
                         then lines ++ [report_line event (find_reply retained (ev_event_id event))]
                         else lines in
            token_pass retained tickets lines token_events device_events
      | None => token_pass retained tickets lines token_events device_events
      end
  end.

(** src/module_main.cpp:261-299 [print_recent_events] *)
Fixpoint event_pass (tickets : list Z) (lines : list ReportLine) (printed correlated : Z)
    : list ReportLine * Z * Z :=
  match tickets with
  | [] => (lines, printed, correlated)
  | ticket :: tickets =>
      match complete_event ticket with
      | Some event =>
          event_pass tickets (lines ++ [report_line event zero_event]) (printed + 1)
            (if negb (ev_correlated_request_id event =? 0) then correlated + 1 else correlated)
      | None => event_pass tickets lines printed correlated
      end
  end.

(** src/module_main.cpp:178-306 [print_recent_events] *)
Definition print_recent_events (max_events : Z) : EventReport :=
  let ends := kc_words snapshot event_write_index in
  let retained_begin :=
    if kTransactionEventCapacity <? ends then ends - kTransactionEventCapacity else 0 in
  let begins :=
    if (max_events <? ends) && (retained_begin <? ends - max_events) then ends - max_events
    else retained_begin in
  let tickets begins := seqZ begins (ends - begins) in
  let '(token_lines, token_events, device_events) :=
    token_pass (tickets retained_begin) (tickets retained_begin) [] 0 0 in
  let '(lines, printed, correlated) := event_pass (tickets begins) [] 0 0 in
  {| er_token_lines := token_lines; er_token_events := token_events; er_device_events := device_events;
     er_lines := lines; er_printed := printed; er_correlated := correlated;
     er_begin := begins; er_end := ends |}.

(** * What the passes show *)

(** The complete events under some tickets, in their order. *)
Definition completed (tickets : list Z) : list BinderTransactionEvent := omap complete_event tickets.

Definition has_token (event : BinderTransactionEvent) : Prop := ev_parcel_token_kind event <> 0.
Definition asks_device_id (event : BinderTransactionEvent) : Prop :=
  Z.land (ev_parcel_flags event) kParcelFlagDeviceUniqueId <> 0.
Definition is_reply_to (request event : BinderTransactionEvent) : Prop :=
  ev_correlated_request_id event = ev_event_id request.

#[global] Instance has_token_dec event : Decision (has_token event).
Proof. unfold has_token. apply _. Defined.
#[global] Instance asks_device_id_dec event : Decision (asks_device_id event).
Proof. unfold asks_device_id. apply _. Defined.
#[global] Instance is_reply_to_dec request event : Decision (is_reply_to request event).
Proof. unfold is_reply_to. apply _. Defined.

(** The first reply to an event among some. *)
Definition first_reply (among : list BinderTransactionEvent) (request : BinderTransactionEvent)
    : BinderTransactionEvent :=
  default zero_event (snd <$> list_find (is_reply_to request) among).

Lemma find_reply_spec tickets request :
  find_reply tickets (ev_event_id request) = first_reply (completed tickets) request.
Proof.
  induction tickets as [|ticket tickets IH]; [done|]. unfold completed. cbn [find_reply omap list_omap].
  fold (completed tickets). destruct (complete_event ticket) as [reply|]; [|done].
  unfold first_reply. cbn [list_find].
  destruct (Z.eqb_spec (ev_correlated_request_id reply) (ev_event_id request)) as [E|E].
  - by rewrite decide_True by done.
  - rewrite decide_False by done. rewrite IH. unfold first_reply.
    by destruct (list_find _ _) as [[i found]|].
Qed.

Definition token_line (retained : list Z) (event : BinderTransactionEvent) : ReportLine :=
  report_line event (first_reply (completed retained) event).

Lemma token_pass_spec retained tickets lines seen devices :
  length lines = Z.to_nat (Z.min 32 seen) -> 0 <= seen ->
  let found := filter has_token (completed tickets) in
  token_pass retained tickets lines seen devices =
    (lines ++ take (32 - Z.to_nat seen) (token_line retained <$> found),
     seen + Z.of_nat (length found), devices + Z.of_nat (length (filter asks_device_id found))).
Proof.
  cbv zeta. revert lines seen devices. induction tickets as [|ticket tickets IH]; intros lines seen devices Hl Hs.
  { cbn. by rewrite take_nil, app_nil_r, !Z.add_0_r. }
  unfold completed. cbn [token_pass omap list_omap]. fold (completed tickets).
  destruct (complete_event ticket) as [event|]; [|by apply IH].
  destruct (Z.eqb_spec (ev_parcel_token_kind event) 0) as [E|E].
  { rewrite IH by done. by rewrite filter_cons_False by (unfold has_token; lia). }
  rewrite (filter_cons_True has_token) by done. cbn [fmap list_fmap length].
  assert (Hdevices : (if negb (Z.land (ev_parcel_flags event) kParcelFlagDeviceUniqueId =? 0)
      then devices + 1 else devices) + Z.of_nat (length (filter asks_device_id (filter has_token (completed tickets)))) =
    devices + Z.of_nat (length (filter asks_device_id (event :: filter has_token (completed tickets))))).
  { rewrite filter_cons. unfold asks_device_id at 2.
    destruct (Z.eqb_spec (Z.land (ev_parcel_flags event) kParcelFlagDeviceUniqueId) 0) as [Ed|Ed]; cbn [negb].
    - by rewrite decide_False by auto.
    - rewrite decide_True by done. cbn [length]. lia. }
  rewrite IH; [|destruct (Z.leb_spec (seen + 1) 32); rewrite ?length_app; cbn; lia|lia].
  rewrite Hdevices. f_equal. f_equal; [|lia]. rewrite find_reply_spec.
  destruct (Z.leb_spec (seen + 1) 32).
  - replace (32 - Z.to_nat seen)%nat with (S (32 - Z.to_nat (seen + 1))) by lia. by rewrite <-app_assoc.
  - by replace (32 - Z.to_nat seen)%nat with 0%nat by lia; replace (32 - Z.to_nat (seen + 1))%nat with 0%nat by lia.
Qed.

Lemma event_pass_spec tickets lines printed correlated :
  event_pass tickets lines printed correlated =
    (lines ++ ((fun event => report_line event zero_event) <$> completed tickets),
     printed + Z.of_nat (length (completed tickets)),
     correlated + Z.of_nat (length (filter (fun event => ev_correlated_request_id event <> 0) (completed tickets)))).
Proof.
  revert lines printed correlated. induction tickets as [|ticket tickets IH]; intros lines printed correlated.
  { cbn. by rewrite app_nil_r, !Z.add_0_r. }
  unfold completed. cbn [event_pass omap list_omap]. fold (completed tickets).
  destruct (complete_event ticket) as [event|]; [|by apply IH]. rewrite IH. cbn [fmap list_fmap length].
  rewrite <-app_assoc. cbn [app]. rewrite filter_cons.
  destruct (Z.eqb_spec (ev_correlated_request_id event) 0) as [E|E]; cbn [negb].
  - rewrite decide_False by auto. f_equal; try lia. f_equal; lia.
  - rewrite decide_True by done. cbn [length]. f_equal; try lia. f_equal; lia.
Qed.

(** Under the newest tickets of a ring in order stands every event, in its place. *)
Lemma ring_completed begins ends :
  ring_ok (events snapshot) ends -> ends < 2 ^ 63 -> 0 <= begins -> ends - kTransactionEventCapacity <= begins ->
  completed (seqZ begins (ends - begins)) = event_of_ticket <$> seqZ begins (ends - begins) /\
  ev_event_id <$> completed (seqZ begins (ends - begins)) = seqZ (begins + 1) (ends - begins).
Proof.
  intros Hring Hmax Hpos Hnew.
  assert (Hall : forall ticket, begins <= ticket < ends ->
    complete_event ticket = Some (event_of_ticket ticket) /\ ev_event_id (event_of_ticket ticket) = ticket + 1).
  { intros ticket Ht. destruct (ring_entry _ _ Hring (ticket + 1)) as (event & Hevent & Hid & Hsequence); [lia|lia|].
    replace (ticket + 1 - 1) with ticket in Hevent by lia. unfold complete_event, event_of_ticket.
    rewrite Hevent. cbn [from_option id]. cbv beta. rewrite Hid, Hsequence, (u64_small (ticket + 1)) by lia.
    rewrite u64_small by lia. rewrite (Z.mul_comm 2). by rewrite !Z.eqb_refl. }
  assert (Hmap : forall l, Forall (fun ticket => begins <= ticket < ends) l ->
    completed l = event_of_ticket <$> l /\ ev_event_id <$> completed l = Z.add 1 <$> l).
  { induction 1 as [|ticket l Ht _ [IH1 IH2]]; [done|]. destruct (Hall ticket Ht) as [E1 E2].
    unfold completed in *. cbn [omap list_omap fmap list_fmap]. rewrite E1. cbn [fmap list_fmap].
    unfold completed in IH1, IH2. split; [by f_equal|]. rewrite E2. f_equal; [lia|done]. }
  destruct (Hmap (seqZ begins (ends - begins))) as [H1 H2].
  { apply Forall_forall. intros ticket Ht. apply elem_of_seqZ in Ht. lia. }
  split; [done|]. by rewrite H2, fmap_add_seqZ, Z.add_comm.
Qed.

(** The newest [n] events, in the order in which they were recorded. *)
Definition newest (n : Z) : list BinderTransactionEvent :=
  let ends := kc_words snapshot event_write_index in
  let begins := Z.max 0 (ends - n) in
  event_of_ticket <$> seqZ begins (ends - begins).

End Report.

(** * Properties *)

(** the report shows what was recorded: of a context whose ring is in order, it lists
    the newest [max_events] events, 256 at most, every one of them and in the order of
    their numbers; among the newest 256 it counts those that carry the interface's token
    and those that ask for the identifier, and shows the first 32 with the token, each
    with the first reply recorded for it; and whatever the snapshot holds, an event
    that is shown was complete in it. *)
Lemma report_shows_newest snapshot max_events :
  let ends := kc_words snapshot event_write_index in
  let report := print_recent_events snapshot max_events in
  let retained := newest snapshot kTransactionEventCapacity in
  let shown := newest snapshot (Z.min max_events kTransactionEventCapacity) in
  let tokens := filter has_token retained in
  (forall line, line ∈ er_lines report -> exists ticket, complete_event snapshot ticket = Some (rl_event line)) /\
  (ring_ok (events snapshot) ends -> ends < 2 ^ 63 -> 0 <= max_events ->
     (rl_event <$> er_lines report) = shown /\
     ev_event_id <$> shown = seqZ (er_begin report + 1) (ends - er_begin report) /\
     er_printed report = Z.min ends (Z.min max_events kTransactionEventCapacity) /\
     er_correlated report = Z.of_nat (length (filter (fun e => ev_correlated_request_id e <> 0) shown)) /\
     er_token_lines report = take 32 ((fun e => report_line e (first_reply retained e)) <$> tokens) /\
     er_token_events report = Z.of_nat (length tokens) /\
     er_device_events report = Z.of_nat (length (filter asks_device_id tokens))).
Proof.
  cbv zeta. unfold print_recent_events. set (ends := kc_words snapshot event_write_index).
  set (retained_begin := if _ <? ends then _ else _). set (begins := if _ && _ then _ else retained_begin).
  rewrite (token_pass_spec snapshot _ _ [] 0 0) by (done || lia). rewrite event_pass_spec. cbn. split.
  - intros line Hline. apply list_elem_of_fmap in Hline as (event & -> & Hevent).
    apply list_elem_of_omap in Hevent as (ticket & _ & Hticket). by exists ticket.
  - intros Hring Hmax Hevents. pose proof (ring_count _ _ Hring) as Hends.
    assert (Hretained : retained_begin = Z.max 0 (ends - kTransactionEventCapacity)).
    { unfold retained_begin, kTransactionEventCapacity in *. destruct (Z.ltb_spec 256 ends); lia. }
    assert (Hbegins : begins = Z.max 0 (ends - Z.min max_events kTransactionEventCapacity)).
    { unfold begins. rewrite Hretained. unfold kTransactionEventCapacity.
      destruct (Z.ltb_spec max_events ends), (Z.ltb_spec (Z.max 0 (ends - 256)) (ends - max_events)); cbn [andb]; lia. }
    destruct (ring_completed snapshot retained_begin ends) as [Hall _]; [done|done|lia|lia|].
    destruct (ring_completed snapshot begins ends) as [Hshown Hids];
      [done|done|lia|unfold kTransactionEventCapacity in *; lia|].
    rewrite Hshown in Hids |- *. unfold token_line. rewrite Hall. unfold newest. fold ends.
    rewrite <-Hretained, <-Hbegins. split_and!; [|exact Hids| |done|done|done|done].
    + rewrite <-list_fmap_compose. by apply list_fmap_id.
    + rewrite length_fmap, length_seqZ. unfold kTransactionEventCapacity in *. lia.
Qed.

(** * A concrete report *)

(** The context after a request and its reply. *)
Definition demo_recorded : KernelCounterContext :=
  h_ctx (emit_record_transaction ioc_c BC_REPLY demo_hal demo_reply_td
    (emit_record_transaction ioc_r BR_TRANSACTION demo_hal (demo_td demo_parcel) (demo_exchange 1)).2).2.

(** The ring's order, event by event. *)
Definition in_place (es : list BinderTransactionEvent) (j : Z) : bool :=
  match es !! ring_slot (j - 1) with
  | Some e => (ev_event_id e =? j) && (ev_sequence e =? 2 * j)
  | None => false
  end.

Lemma ring_ok_checked es n :
  length es = 256%nat -> Forall (fun j => in_place es j = true) (seqZ 0 (Z.of_nat n) ≫= fun j => [j + 1]) ->
  ring_ok es (Z.of_nat n).
Proof.
  intros Hl Hall. split; [done|lia|]. intros j Hj Hpos.
  assert (in_place es j = true) as Hplace.
  { apply (proj1 (Forall_forall _ _) Hall). apply list_elem_of_bind. exists (j - 1).
    split; [apply list_elem_of_singleton; lia|apply elem_of_seqZ; lia]. }
  unfold in_place in Hplace. destruct (es !! _) as [e|]; [|done]. exists e.
  apply andb_prop in Hplace as [?%Z.eqb_eq ?%Z.eqb_eq]. done.
Qed.

Lemma demo_recorded_ring : ring_ok (events demo_recorded) (kc_words demo_recorded event_write_index).
Proof.
  change (kc_words demo_recorded event_write_index) with (Z.of_nat 2).
  apply ring_ok_checked; [vm_compute; reflexivity|]. repeat constructor; vm_compute; reflexivity.
Qed.

(** One request with its reply, under the names the report gives them. *)
Lemma report_shows_newest_witness :
  (fun line => (rl_kind line, rl_token line, ev_event_id (rl_event line), ev_event_id (rl_reply line))) <$>
    er_token_lines (print_recent_events demo_recorded 16) = [("BR_TX", "IDrmPlugin", 1, 2)] /\
  er_printed (print_recent_events demo_recorded 16) = 2.
Proof.
  destruct (report_shows_newest demo_recorded 16) as [_ Hreport].
  destruct Hreport as (_ & _ & Hprinted & _ & Hlines & _).
  - exact demo_recorded_ring.
  - reflexivity.
  - lia.
  - rewrite Hlines, Hprinted. split; vm_compute; reflexivity.
Defined.
