(* ===== verification/Aarch64.v ===== *)
(** The instructions the handler is made of: an assembler's output as a list of
    instructions and labels, and what it does, one step at a time, on registers, flags
    and typed memory cells.  Only what binder_hook_builder.cpp emits is here. *)

From S2P Require Import Prelude.

(** * Instructions *)

(** A register by its number; 31 is the zero register. *)
Abbreviation reg := nat (only parsing).
Abbreviation label := nat (only parsing).

Inductive size := W | X.
Inductive operand := Reg (r : reg) | Imm (v : Z).
Inductive alu := ADD | SUB | AND | MUL | LSL | LSR.
Inductive cond := EQ | NE | HS | LO | HI | LS.

(** [Ldar] and [Stlr] are the ordered forms of [Ldr] and [Str], [Ldaddal] the atomic
    addition.  [GetCurrent] is the SDK's [get_current], [CopyFromUser] its call of
    copy_from_user as the code relies on it: what could not be copied is counted in x0;
    x16, which the code reloads after a call, and the flags are left with anything; the
    other registers, of which the code uses x15 and x17 behind a call, are as before. *)
Inductive instr :=
  | Mov (s : size) (d : reg) (o : operand)
  | Alu (op : alu) (s : size) (d n : reg) (o : operand)
  | Subs (s : size) (d n : reg) (o : operand)
  | Cmp (s : size) (n : reg) (o : operand)
  | Ldr (bytes : Z) (d base : reg) (offset : Z)
  | Str (bytes : Z) (v base : reg) (offset : Z)
  | Ldar (bytes : Z) (d base : reg)
  | Stlr (bytes : Z) (v base : reg)
  | Ldaddal (v d base : reg)
  | Ldaxr (d base : reg)
  | Stxr (status v base : reg)
  | Clrex
  | B (l : label)
  | BCond (c : cond) (l : label)
  | Cbz (s : size) (r : reg) (l : label)
  | Cbnz (s : size) (r : reg) (l : label)
  | Tbz (r : reg) (bit : Z) (l : label)
  | Tbnz (r : reg) (bit : Z) (l : label)
  | Bind (l : label)
  | GetCurrent (d : reg)
  | CopyFromUser (to from n : reg).

Definition code : Type := list instr.

(** * The machine *)

(** Memory is made of cells that do not overlap, each with its width in bytes.  A store
    is to a whole cell; a load is of a whole cell, or of successive cells of one byte.
    [m_tries] is what the exclusive accesses to come will meet, a pair for each attempt:
    the word observed and the status of the store.  [m_current] is the current task.  [m_user] is what copying [n] bytes from an
    address of the user's yields: what is written to the destination, and how many bytes
    could not be copied; [m_left] is what such a call leaves in x16 and in the flags. *)
Definition memory : Type := Z -> option (Z * Z).

Record machine := {
  m_reg : reg -> Z;
  m_zero : bool;
  m_carry : bool;
  m_mem : memory;
  m_tries : list (Z * Z);
  m_current : Z;
  m_user : Z -> Z -> list Z * Z;
  m_left : Z * (bool * bool);
}.

Definition mask (s : size) (v : Z) : Z := match s with W => u32 v | X => u64 v end.

Definition rd (m : machine) (s : size) (r : reg) : Z :=
  if Nat.eqb r 31 then 0 else mask s (m_reg m r).

Definition eval (m : machine) (s : size) (o : operand) : Z :=
  match o with Reg r => rd m s r | Imm v => mask s v end.

Definition set_reg (d : reg) (v : Z) (m : machine) : machine := {|
  m_reg := fun r => if Nat.eqb r d then v else m_reg m r;
  m_zero := m_zero m; m_carry := m_carry m; m_mem := m_mem m;
  m_tries := m_tries m; m_current := m_current m; m_user := m_user m;
  m_left := m_left m |}.

(** The flags of [a - b]; only zero and carry are looked at. *)
Definition compare (a b : Z) (m : machine) : machine := {|
  m_reg := m_reg m; m_zero := a =? b; m_carry := b <=? a; m_mem := m_mem m;
  m_tries := m_tries m; m_current := m_current m; m_user := m_user m;
  m_left := m_left m |}.

Definition put_cell (a : Z) (cell : Z * Z) (mem : memory) : memory :=
  fun a' => if a' =? a then Some cell else mem a'.

Definition set_mem (mem : memory) (m : machine) : machine := {|
  m_reg := m_reg m; m_zero := m_zero m; m_carry := m_carry m; m_mem := mem;
  m_tries := m_tries m; m_current := m_current m; m_user := m_user m;
  m_left := m_left m |}.

Definition next_try (m : machine) : machine := {|
  m_reg := m_reg m; m_zero := m_zero m; m_carry := m_carry m; m_mem := m_mem m;
  m_tries := tl (m_tries m); m_current := m_current m; m_user := m_user m;
  m_left := m_left m |}.

(** What a call leaves behind besides its result. *)
Definition clobber (m : machine) : machine := {|
  m_reg := fun r => if Nat.eqb r 16 then (m_left m).1 else m_reg m r;
  m_zero := (m_left m).2.1; m_carry := (m_left m).2.2; m_mem := m_mem m;
  m_tries := m_tries m; m_current := m_current m; m_user := m_user m;
  m_left := m_left m |}.

(** The little-endian word in [n] cells of a byte. *)
Fixpoint load_bytes (mem : memory) (n : nat) (a : Z) : option Z :=
  match n with
  | O => Some 0
  | S n =>
      match mem a with
      | Some (1, b) => rest ← load_bytes mem n (a + 1); Some (b + 256 * rest)
      | _ => None
      end
  end.

Definition load (m : machine) (bytes a : Z) : option Z :=
  match m_mem m a with
  | Some (width, v) => if width =? bytes then Some v else load_bytes (m_mem m) (Z.to_nat bytes) a
  | None => None
  end.

Definition store (m : machine) (bytes a v : Z) : option machine :=
  match m_mem m a with
  | Some (width, _) =>
      if width =? bytes then Some (set_mem (put_cell a (width, v mod 256 ^ bytes) (m_mem m)) m) else None
  | None => None
  end.

(** Bytes go to cells of a byte. *)
Fixpoint store_bytes (mem : memory) (a : Z) (bs : list Z) : option memory :=
  match bs with
  | [] => Some mem
  | b :: bs =>
      match mem a with
      | Some (1, _) => store_bytes (put_cell a (1, b) mem) (a + 1) bs
      | _ => None
      end
  end.

Definition alu_value (op : alu) (s : size) (a b : Z) : Z :=
  mask s (match op with
          | ADD => a + b | SUB => a - b | AND => Z.land a b | MUL => a * b
          | LSL => Z.shiftl a b | LSR => Z.shiftr a b
          end).

Definition holds (c : cond) (m : machine) : bool :=
  match c with
  | EQ => m_zero m | NE => negb (m_zero m)
  | HS => m_carry m | LO => negb (m_carry m)
  | HI => m_carry m && negb (m_zero m) | LS => negb (m_carry m && negb (m_zero m))
  end.

(** Where a label is bound. *)
Fixpoint find_label (prog : code) (l : label) : option code :=
  match prog with
  | [] => None
  | Bind l' :: rest => if Nat.eqb l' l then Some rest else find_label rest l
  | _ :: rest => find_label rest l
  end.

Definition jump (prog : code) (l : label) (m : machine) : option (code * machine) :=
  target ← find_label prog l; Some (target, m).

Definition branch (prog : code) (taken : bool) (l : label) (rest : code) (m : machine)
    : option (code * machine) :=
  if taken then jump prog l m else Some (rest, m).

(** One instruction; [None] when there is none, or an access is not a cell. *)
Definition step (prog : code) (at_ : code * machine) : option (code * machine) :=
  let '(c, m) := at_ in
  match c with
  | [] => None
  | i :: rest =>
      match i with
      | Mov s d o => Some (rest, set_reg d (eval m s o) m)
      | Alu op s d n o => Some (rest, set_reg d (alu_value op s (rd m s n) (eval m s o)) m)
      | Subs s d n o =>
          Some (rest, set_reg d (mask s (rd m s n - eval m s o)) (compare (rd m s n) (eval m s o) m))
      | Cmp s n o => Some (rest, compare (rd m s n) (eval m s o) m)
      | Ldr bytes d base offset =>
          v ← load m bytes (u64 (rd m X base + offset)); Some (rest, set_reg d v m)
      | Str bytes v base offset =>
          m ← store m bytes (u64 (rd m X base + offset)) (rd m X v); Some (rest, m)
      | Ldar bytes d base => v ← load m bytes (rd m X base); Some (rest, set_reg d v m)
      | Stlr bytes v base => m ← store m bytes (rd m X base) (rd m X v); Some (rest, m)
      | Ldaddal v d base =>
          old ← load m 8 (rd m X base);
          m' ← store m 8 (rd m X base) (old + rd m X v);
          Some (rest, set_reg d old m')
      | Ldaxr d base =>
          v ← load m 8 (rd m X base); Some (rest, set_reg d (hd (v, 0) (m_tries m)).1 m)
      | Stxr status v base =>
          let failed := (hd (0, 0) (m_tries m)).2 in
          m' ← (if failed =? 0 then store m 8 (rd m X base) (rd m X v) else Some m);
          Some (rest, set_reg status failed m')
      | Clrex => Some (rest, next_try m)
      | B l => jump prog l m
      | BCond c l => branch prog (holds c m) l rest m
      | Cbz s r l => branch prog (rd m s r =? 0) l rest m
      | Cbnz s r l => branch prog (negb (rd m s r =? 0)) l rest m
      | Tbz r bit l => branch prog (negb (Z.testbit (rd m X r) bit)) l rest m
      | Tbnz r bit l => branch prog (Z.testbit (rd m X r) bit) l rest m
      | Bind _ => Some (rest, m)
      | GetCurrent d => Some (rest, set_reg d (m_current m) m)
      | CopyFromUser to from n =>
          let copied := m_user m (rd m X from) (rd m X n) in
          mem ← store_bytes (m_mem m) (rd m X to) copied.1;
          Some (rest, set_reg 0 copied.2 (clobber (set_mem mem m)))
      end
  end.

(** * Reaching a point of the program *)

(** From [c] the machine comes to [target], in a state of which [Q] holds. *)
Definition reaches (prog c : code) (m : machine) (target : code) (Q : machine -> Prop) : Prop :=
  exists m', rtc (fun a b => step prog a = Some b) (c, m) (target, m') /\ Q m'.

Lemma reach_here prog c m (Q : machine -> Prop) : Q m -> reaches prog c m c Q.
Proof. intros HQ. by exists m. Qed.

Lemma reach_step prog c m c1 m1 target Q :
  step prog (c, m) = Some (c1, m1) -> reaches prog c1 m1 target Q -> reaches prog c m target Q.
Proof. intros Hs (m' & Hr & HQ). exists m'. split; [by eapply rtc_l|done]. Qed.

Lemma reach_trans prog c m c1 target Q1 Q :
  reaches prog c m c1 Q1 -> (forall m1, Q1 m1 -> reaches prog c1 m1 target Q) -> reaches prog c m target Q.
Proof.
  intros (m1 & Hr1 & HQ1) Hnext. destruct (Hnext m1 HQ1) as (m' & Hr & HQ).
  exists m'. split; [by etransitivity|done].
Qed.

Lemma reach_mono prog c m target (Q Q' : machine -> Prop) :
  reaches prog c m target Q -> (forall m', Q m' -> Q' m') -> reaches prog c m target Q'.
Proof. intros (m' & Hr & HQ) Hmono. exists m'. auto. Qed.

(** What a run does not change. *)
Lemma step_user prog c m c' m' : step prog (c, m) = Some (c', m') -> m_user m' = m_user m.
Proof.
  intros Hstep. destruct c as [|i c]; [done|]. cbn [step] in Hstep. unfold branch, jump, store in Hstep.
  destruct i; repeat (case_match; try discriminate); simplify_option_eq; try done;
    repeat (case_match; try discriminate); simplify_option_eq; done.
Qed.

Lemma reach_user prog c m target Q :
  reaches prog c m target Q -> reaches prog c m target (fun m' => Q m' /\ m_user m' = m_user m).
Proof.
  intros (m' & Hr & HQ). exists m'. split; [done|]. split; [done|]. clear HQ.
  remember (c, m) as a eqn:Ea. remember (target, m') as b eqn:Eb. revert c m Ea.
  induction Hr as [|a [c1 m1] b' Hs _ IH]; intros c m Ea; [congruence|]. subst a.
  rewrite (IH Eb c1 m1 eq_refl). by eapply step_user.
Qed.

(** * Labels *)

Definition binds (c : code) : list label :=
  omap (fun i => match i with Bind l => Some l | _ => None end) c.

Lemma find_label_skip before c l :
  l ∉ binds before -> find_label (before ++ c) l = find_label c l.
Proof.
  induction before as [|i before IH]; [done|]. intros Hl.
  destruct i; cbn in *; try (by apply IH).
  destruct (Nat.eqb_spec l0 l) as [->|]; [set_solver|]. apply IH. set_solver.
Qed.

Lemma find_label_app c rest l target :
  find_label c l = Some target -> find_label (c ++ rest) l = Some (target ++ rest).
Proof.
  induction c as [|i c IH]; [done|]. destruct i; cbn; try (by apply IH).
  destruct (Nat.eqb _ _); [by intros [= ->]|by apply IH].
Qed.

(** * One instruction at a time *)

Section Rules.
Context (prog rest : code) (m : machine) (target : code) (Q : machine -> Prop) (l : label) (next : code).
Context (Hl : find_label prog l = Some next).

Lemma reach_branch taken i :
  step prog (i :: rest, m) = branch prog taken l rest m ->
  (taken = true -> reaches prog next m target Q) ->
  (taken = false -> reaches prog rest m target Q) -> reaches prog (i :: rest) m target Q.
Proof.
  unfold branch, jump. intros Hstep Ht Hf. rewrite Hl in Hstep.
  destruct taken; (eapply reach_step; [exact Hstep|]); auto.
Qed.

Lemma reach_bcond c :
  (holds c m = true -> reaches prog next m target Q) ->
  (holds c m = false -> reaches prog rest m target Q) -> reaches prog (BCond c l :: rest) m target Q.
Proof. by apply reach_branch. Qed.

Lemma reach_cbz s r :
  ((rd m s r =? 0) = true -> reaches prog next m target Q) ->
  ((rd m s r =? 0) = false -> reaches prog rest m target Q) -> reaches prog (Cbz s r l :: rest) m target Q.
Proof. by apply reach_branch. Qed.

Lemma reach_cbnz s r :
  ((rd m s r =? 0) = false -> reaches prog next m target Q) ->
  ((rd m s r =? 0) = true -> reaches prog rest m target Q) -> reaches prog (Cbnz s r l :: rest) m target Q.
Proof.
  intros H0 H1. apply (reach_branch (negb (rd m s r =? 0))); [done|..];
    destruct (rd m s r =? 0); auto; discriminate.
Qed.

Lemma reach_tbz r bit :
  (Z.testbit (rd m X r) bit = false -> reaches prog next m target Q) ->
  (Z.testbit (rd m X r) bit = true -> reaches prog rest m target Q) ->
  reaches prog (Tbz r bit l :: rest) m target Q.
Proof.
  intros H0 H1. apply (reach_branch (negb (Z.testbit (rd m X r) bit))); [done|..];
    destruct (Z.testbit (rd m X r) bit); auto; discriminate.
Qed.

Lemma reach_tbnz r bit :
  (Z.testbit (rd m X r) bit = true -> reaches prog next m target Q) ->
  (Z.testbit (rd m X r) bit = false -> reaches prog rest m target Q) ->
  reaches prog (Tbnz r bit l :: rest) m target Q.
Proof. by apply reach_branch. Qed.

Lemma reach_jump : reaches prog next m target Q -> reaches prog (B l :: rest) m target Q.
Proof. apply reach_step. cbn. unfold jump. by rewrite Hl. Qed.

End Rules.
