(* ===== verification/ContextLayout.v ===== *)
(** Where the handler finds what it works with: kernel_context.h as offsets, the fields
    of the context, of the current task and of the parser's scratch as cells of memory,
    and what it means that memory holds a context. *)

From S2P Require Import Prelude KernelContext BinderWire Pending Aarch64.

(** * Offsets *)

(** The words in front of the tables, in their order. *)

(** src/kernel_context.h:127-192 [KernelCounterContext] *)
Definition head_words : list ctx_word := [
  magic; abi_version; active_calls; pre_calls; post_calls; bwr_calls;
  hal_gate_hits; pre_header_ok; pre_header_faults; post_header_ok;
  post_header_faults; invalid_consumed; write_streams; read_streams;
  bc_commands; br_commands; bc_transaction_commands; br_transaction_commands;
  write_boundary_errors; read_boundary_errors; write_copy_faults;
  read_copy_faults; write_capped; read_capped;
  transaction_metadata_ok; transaction_metadata_faults; event_write_index;
  pending_lock_state; pending_lock_drops; pending_pushes; pending_pops;
  pending_terminal_pops; pending_misses; pending_overflows;
  pending_collisions; pending_oneway_ignored; pending_generation_stale;
  reply_without_pending;
  parcel_prefix_ok; parcel_prefix_faults; parcel_plugin_hits;
  parcel_device_unique_id_hits; parcel_unknown_tokens; server_request_hits;
  reply_candidates; reply_header_copy_ok; reply_header_copy_faults;
  reply_status_ok; reply_status_nonzero; reply_array_valid;
  reply_array_invalid; reply_content_copy_ok; reply_content_copy_faults;
  correlated_reply_candidates; replacement_candidates;
  replacement_length_mismatch; replacement_dry_run_hits; replacement_write_ok;
  replacement_write_faults; replacement_copy_to_user_faults;
  replacement_last_request_id].

(** src/kernel_context.h:75-77 [BinderTransactionEvent] *)
Definition kEventBytes : Z := 160.
(** src/kernel_context.h:117-122 [sizeof] *)
Definition kFrameBytes : Z := 48.
Definition kSlotBytes : Z := 216.
Definition kConfigBytes : Z := 96.
Definition kHalSetBytes : Z := 32.

(** The two words behind the last of the head are one cell of two halves. *)
Definition kHeadBytes : Z := 8 * Z.of_nat (length head_words) + 8.

(** src/kernel_context.h:194-211 [KernelCounterContext] *)
Definition events_offset : Z := kHeadBytes.
Definition pending_offset : Z := events_offset + kEventBytes * kTransactionEventCapacity.
Definition active_config_offset : Z := pending_offset + kSlotBytes * kPendingSlotCapacity.
Definition config_switches_offset : Z := active_config_offset + 8.
Definition config_slots_offset : Z := config_switches_offset + 16.
Definition active_hal_offset : Z := config_slots_offset + 2 * kConfigBytes.
Definition hal_switches_offset : Z := active_hal_offset + 8.
Definition hal_slots_offset : Z := hal_switches_offset + 24.
Definition kContextBytes : Z := hal_slots_offset + 2 * kHalSetBytes.

Fixpoint word_index (w : ctx_word) (words : list ctx_word) : Z :=
  match words with
  | [] => 0
  | w' :: words => if decide (w = w') then 0 else 1 + word_index w words
  end.

Definition word_offset (w : ctx_word) : Z :=
  match w with
  | runtime_config_switches => config_switches_offset
  | runtime_config_rejections => config_switches_offset + 8
  | hal_identity_switches => hal_switches_offset
  | hal_identity_rejections => hal_switches_offset + 8
  | hal_identity_restarts => hal_switches_offset + 16
  | w => 8 * word_index w head_words
  end.

Inductive frame_field := FId | FTarget | FDataSize | FGeneration | FCode | FFlags | FParcelFlags | FReserved.

(** src/kernel_context.h:79-88 [BinderPendingFrame] *)
Definition frame_offset (f : frame_field) : Z :=
  match f with
  | FId => 0 | FTarget => 8 | FDataSize => 16 | FGeneration => 24
  | FCode => 32 | FFlags => 36 | FParcelFlags => 40 | FReserved => 44
  end.

Definition frame_width (f : frame_field) : Z :=
  match f with FId | FTarget | FDataSize | FGeneration => 8 | _ => 4 end.

(** The reserved word is zero whenever a frame is written. *)
Definition frame_get (frame : BinderPendingFrame) (f : frame_field) : Z :=
  match f with
  | FId => pf_request_event_id frame | FTarget => pf_target frame
  | FDataSize => pf_data_size frame | FGeneration => pf_hal_identity_generation frame
  | FCode => pf_code frame | FFlags => pf_flags frame | FParcelFlags => pf_parcel_flags frame
  | FReserved => 0
  end.

(** The fields of an event, the two reserved words last. *)
Inductive event_field :=
  | ESequence | EEventId | ETaskKaddr | ETarget | ECookie | EDataSize | EOffsetsSize | EBuffer | EOffsets
  | ECorrelatedRequestId | EPid | ETgid | ECommand | ECode | EFlags | ESenderPid | ESenderEuid | EKind
  | EParcelTokenKind | EParcelTokenOffset | EParcelPrefixSize | EParcelFlags | ECorrelatedRequestFlags
  | EReplyPrefixSize | EReplyStatusCode | EReplyArrayLength | EReplyArrayOffset | EReplyFlags
  | EReserved0 | EReserved1.

#[global] Instance event_field_eq_dec : EqDecision event_field.
Proof. solve_decision. Defined.

(** src/kernel_context.h:46-77 [BinderTransactionEvent] *)
Definition event_offset (f : event_field) : Z :=
  match f with
  | ESequence => 0 | EEventId => 8 | ETaskKaddr => 16 | ETarget => 24 | ECookie => 32 | EDataSize => 40
  | EOffsetsSize => 48 | EBuffer => 56 | EOffsets => 64 | ECorrelatedRequestId => 72
  | EPid => 80 | ETgid => 84 | ECommand => 88 | ECode => 92 | EFlags => 96 | ESenderPid => 100
  | ESenderEuid => 104 | EKind => 108 | EParcelTokenKind => 112 | EParcelTokenOffset => 116
  | EParcelPrefixSize => 120 | EParcelFlags => 124 | ECorrelatedRequestFlags => 128 | EReplyPrefixSize => 132
  | EReplyStatusCode => 136 | EReplyArrayLength => 140 | EReplyArrayOffset => 144 | EReplyFlags => 148
  | EReserved0 => 152 | EReserved1 => 156
  end.

Definition event_width (f : event_field) : Z := if event_offset f <? 80 then 8 else 4.

(** src/kernel_context.h:17-24 [BinderEventKind] *)
Definition kind_num (k : BinderEventKind) : Z :=
  match k with
  | kUnknown => 0 | kBcTransaction => 1 | kBcReply => 2 | kBrTransaction => 3 | kBrTransactionSecCtx => 4
  | kBrReply => 5
  end.

Definition kind_of_num (v : Z) : BinderEventKind :=
  nth (Z.to_nat v) [kUnknown; kBcTransaction; kBcReply; kBrTransaction; kBrTransactionSecCtx; kBrReply] kUnknown.

Lemma kind_of_num_num k : kind_of_num (kind_num k) = k.
Proof. by destruct k. Qed.

Definition event_get (e : BinderTransactionEvent) (f : event_field) : Z :=
  match f with
  | ESequence => ev_sequence e | EEventId => ev_event_id e | ETaskKaddr => ev_task_kaddr e
  | ETarget => ev_target e | ECookie => ev_cookie e | EDataSize => ev_data_size e
  | EOffsetsSize => ev_offsets_size e | EBuffer => ev_buffer e | EOffsets => ev_offsets e
  | ECorrelatedRequestId => ev_correlated_request_id e | EPid => ev_pid e | ETgid => ev_tgid e
  | ECommand => ev_command e | ECode => ev_code e | EFlags => ev_flags e | ESenderPid => ev_sender_pid e
  | ESenderEuid => ev_sender_euid e | EKind => kind_num (ev_kind e)
  | EParcelTokenKind => ev_parcel_token_kind e | EParcelTokenOffset => ev_parcel_token_offset e
  | EParcelPrefixSize => ev_parcel_prefix_size e | EParcelFlags => ev_parcel_flags e
  | ECorrelatedRequestFlags => ev_correlated_request_flags e | EReplyPrefixSize => ev_reply_prefix_size e
  | EReplyStatusCode => ev_reply_status_code e | EReplyArrayLength => ev_reply_byte_array_length e
  | EReplyArrayOffset => ev_reply_byte_array_offset e | EReplyFlags => ev_reply_flags e
  | EReserved0 | EReserved1 => 0
  end.

(** * Fields *)

(** The transaction data in the scratch. *)
Inductive td_field :=
  | TdTarget | TdCookie | TdCode | TdFlags | TdSenderPid | TdSenderEuid | TdDataSize | TdOffsetsSize | TdBuffer
  | TdOffsets.

#[global] Instance td_field_eq_dec : EqDecision td_field.
Proof. solve_decision. Defined.

(** src/binder_hook_builder.cpp:1150-1169 [emit_record_transaction] *)
Definition td_offset (f : td_field) : Z :=
  match f with
  | TdTarget => 0 | TdCookie => 8 | TdCode => 16 | TdFlags => 20 | TdSenderPid => 24 | TdSenderEuid => 28
  | TdDataSize => 32 | TdOffsetsSize => 40 | TdBuffer => 48 | TdOffsets => 56
  end.

Definition td_width (f : td_field) : Z :=
  match f with TdCode | TdFlags | TdSenderPid | TdSenderEuid => 4 | _ => 8 end.

Definition td_get (td : BinderTransactionData) (f : td_field) : Z :=
  match f with
  | TdTarget => td_target td | TdCookie => td_cookie td | TdCode => td_code td | TdFlags => td_flags td
  | TdSenderPid => td_sender_pid td | TdSenderEuid => td_sender_euid td | TdDataSize => td_data_size td
  | TdOffsetsSize => td_offsets_size td | TdBuffer => td_buffer td | TdOffsets => td_offsets td
  end.

(** src/binder_hook_builder.cpp:29-41 [kParcelTokenKindScratchOffset .. kParcelTokenHeaderExtraScratchOffset] *)
Definition parsed_offset (w : scratch_word) : Z :=
  match w with
  | kParcelTokenKind => 336 | kParcelTokenOffset => 340 | kParcelPrefixSize => 344 | kParcelFlags => 348
  | kCorrelatedRequestFlags => 352 | kReplyPrefixSize => 356 | kReplyStatus => 360 | kReplyArrayLength => 364
  | kReplyArrayOffset => 368 | kReplyFlags => 372 | kParcelTokenHeaderExtra => 428
  end.

(** What the code of this development's fragments loads and stores. *)
Inductive field :=
  | Word (w : ctx_word)
  | Event (i : nat) (f : event_field)
  | SlotTask (i : nat) | SlotPid (i : nat) | SlotTgid (i : nat) | SlotDepth (i : nat)
  | Frame (i j : nat) (f : frame_field)
  | ActiveConfig | ActiveHal
  | HalGeneration (k : nat) | HalCount (k : nat) | HalTgid (k j : nat)
  | TaskPid | TaskTgid
  | Td (f : td_field) | Parsed (w : scratch_word) | ConfigPointer | GenerationScratch
  | Parcel (i : nat).

#[global] Instance frame_field_eq_dec : EqDecision frame_field.
Proof. solve_decision. Defined.
#[global] Instance field_eq_dec : EqDecision field.
Proof. solve_decision. Defined.

(** The bases of the context and of the scratch, and the offsets of the task's fields. *)
Record layout := {
  context_kaddr : Z;
  scratch : Z;
  offset_pid : Z;
  offset_tgid : Z;
}.

(** What memory is to hold. *)
Record contents := {
  ct_ctx : KernelCounterContext;
  ct_task : TaskStruct;
  ct_td : BinderTransactionData;
  ct_scratch : Scratch;
  ct_config_pointer : Z;
  ct_generation : Z;
  ct_area : list Z;
}.

Definition event_addr (lay : layout) (i : nat) : Z :=
  context_kaddr lay + events_offset + kEventBytes * Z.of_nat i.

Definition slot_addr (lay : layout) (i : nat) : Z :=
  context_kaddr lay + pending_offset + kSlotBytes * Z.of_nat i.

Definition hal_addr (lay : layout) (k : nat) : Z :=
  context_kaddr lay + hal_slots_offset + kHalSetBytes * Z.of_nat k.

(** The bytes of the parcel area are cells of their own. *)

(** src/binder_hook_builder.cpp:26-43 [kTransactionScratchOffset .. kHalIdentityGenerationScratchOffset] *)
Definition scratch_offset (f : field) : Z :=
  match f with
  | Td f => 16 + td_offset f | Parsed w => parsed_offset w | ConfigPointer => 432 | GenerationScratch => 440
  | Parcel i => 80 + Z.of_nat i
  | _ => 0
  end.

Definition field_addr (lay : layout) (task : Z) (f : field) : Z :=
  match f with
  | Word w => context_kaddr lay + word_offset w
  | Event i f => event_addr lay i + event_offset f
  | SlotTask i => slot_addr lay i
  | SlotPid i => slot_addr lay i + 8
  | SlotTgid i => slot_addr lay i + 12
  | SlotDepth i => slot_addr lay i + 16
  | Frame i j f => slot_addr lay i + 24 + kFrameBytes * Z.of_nat j + frame_offset f
  | ActiveConfig => context_kaddr lay + active_config_offset
  | ActiveHal => context_kaddr lay + active_hal_offset
  | HalGeneration k => hal_addr lay k
  | HalCount k => hal_addr lay k + 8
  | HalTgid k j => hal_addr lay k + 16 + 4 * Z.of_nat j
  | TaskPid => task + offset_pid lay
  | TaskTgid => task + offset_tgid lay
  | f => scratch lay + scratch_offset f
  end.

Definition field_width (f : field) : Z :=
  match f with
  | Word _ | SlotTask _ | HalGeneration _ | ConfigPointer | GenerationScratch => 8
  | Event _ f => event_width f
  | Frame _ _ f => frame_width f
  | Td f => td_width f
  | Parcel _ => 1
  | _ => 4
  end.

Definition hal_set (c : KernelCounterContext) (k : nat) : HalIdentitySet :=
  nth k (hal_identity_slots c) zero_hal_set.

Definition event_at (evs : list BinderTransactionEvent) (i : nat) : BinderTransactionEvent :=
  default zero_event (evs !! i).

Definition field_get (ct : contents) (f : field) : Z :=
  let slot i := slot_at (pending (ct_ctx ct)) i in
  match f with
  | Word w => kc_words (ct_ctx ct) w
  | Event i f => event_get (event_at (events (ct_ctx ct)) i) f
  | SlotTask i => ps_task_kaddr (slot i)
  | SlotPid i => ps_pid (slot i)
  | SlotTgid i => ps_tgid (slot i)
  | SlotDepth i => ps_depth (slot i)
  | Frame i j f => frame_get (frame_at (slot i) (Z.of_nat j)) f
  | ActiveConfig => active_config_slot (ct_ctx ct)
  | ActiveHal => active_hal_identity_slot (ct_ctx ct)
  | HalGeneration k => hs_generation (hal_set (ct_ctx ct) k)
  | HalCount k => hs_count (hal_set (ct_ctx ct) k)
  | HalTgid k j => nth j (hs_tgids (hal_set (ct_ctx ct) k)) 0
  | TaskPid => task_pid (ct_task ct)
  | TaskTgid => task_tgid (ct_task ct)
  | Td f => td_get (ct_td ct) f
  | Parsed w => ct_scratch ct w
  | ConfigPointer => ct_config_pointer ct
  | GenerationScratch => ct_generation ct
  | Parcel i => nth i (ct_area ct) 0
  end.

(** The fields there are. *)
Definition field_ok (f : field) : Prop :=
  match f with
  | Event i _ | SlotTask i | SlotPid i | SlotTgid i | SlotDepth i | Parcel i => (i < 256)%nat
  | Frame i j _ => (i < 256)%nat /\ (j < 4)%nat
  | HalGeneration k | HalCount k => (k < 2)%nat
  | HalTgid k j => (k < 2)%nat /\ (j < 4)%nat
  | _ => True
  end.

(** * Memory that holds a context *)

Definition apart (a n b k : Z) : Prop := a + n <= b \/ b + k <= a.

(** The context, the scratch and the task's two fields lie in the address space and
    apart from each other. *)
Record layout_ok (lay : layout) (task : Z) : Prop := {
  lo_context : 0 <= context_kaddr lay /\ context_kaddr lay + kContextBytes <= 2 ^ 64;
  lo_scratch : 0 <= scratch lay /\ scratch lay + 448 <= 2 ^ 64;
  lo_apart : apart (context_kaddr lay) kContextBytes (scratch lay) 448;
  lo_task : forall f, f = TaskPid \/ f = TaskTgid ->
    0 <= field_addr lay task f /\ field_addr lay task f + 4 <= 2 ^ 64 /\
    apart (field_addr lay task f) 4 (context_kaddr lay) kContextBytes /\
    apart (field_addr lay task f) 4 (scratch lay) 448;
  lo_task_fields : apart (offset_pid lay) 4 (offset_tgid lay) 4;
}.

Record contains (lay : layout) (ct : contents) (mem : memory) : Prop := {
  cn_layout : layout_ok lay (task_kaddr (ct_task ct));
  cn_cell : forall f, field_ok f ->
    mem (field_addr lay (task_kaddr (ct_task ct)) f) = Some (field_width f, field_get ct f);
  cn_range : forall f, field_ok f -> 0 <= field_get ct f < 256 ^ field_width f;
}.

(** * Fields do not overlap *)

(** The offsets as numbers. *)
Lemma offsets :
  pending_offset = 41456 /\ active_config_offset = 96752 /\ config_switches_offset = 96760 /\
  config_slots_offset = 96776 /\ active_hal_offset = 96968 /\ hal_switches_offset = 96976 /\
  hal_slots_offset = 97000 /\ kContextBytes = 97064 /\ kHeadBytes = 496.
Proof. by vm_compute. Qed.

Lemma word_offset_place w :
  0 <= word_offset w <= 480 \/ 96760 <= word_offset w <= 96768 \/ 96976 <= word_offset w <= 96992.
Proof. destruct w; vm_compute; intuition congruence. Qed.

Lemma word_offset_aligned w : word_offset w mod 8 = 0.
Proof. by destruct w. Qed.

Definition word_at (n : Z) : option ctx_word :=
  if n <? 488 then head_words !! Z.to_nat (n / 8)
  else if n =? 96760 then Some runtime_config_switches else if n =? 96768 then Some runtime_config_rejections
  else if n =? 96976 then Some hal_identity_switches else if n =? 96984 then Some hal_identity_rejections
  else Some hal_identity_restarts.

Lemma word_at_offset w : word_at (word_offset w) = Some w.
Proof. by destruct w. Qed.

Lemma word_apart w w' : w <> w' -> apart (word_offset w) 8 (word_offset w') 8.
Proof.
  intros Hne. pose proof (word_offset_aligned w) as H. pose proof (word_offset_aligned w') as H'.
  apply Z.mod_divide in H as [k Hk], H' as [k' Hk']; [|done..].
  destruct (Z.eq_dec (word_offset w) (word_offset w')) as [E|E].
  - apply (f_equal word_at) in E. rewrite !word_at_offset in E. congruence.
  - unfold apart. lia.
Qed.

Lemma frame_place f : 0 <= frame_offset f /\ frame_offset f + frame_width f <= 48.
Proof. by destruct f. Qed.

Lemma frame_offset_place f : 0 <= frame_offset f < 48.
Proof. by destruct f. Qed.

Lemma frame_apart f f' : f <> f' -> apart (frame_offset f) (frame_width f) (frame_offset f') (frame_width f').
Proof. destruct f, f'; (done || (intros _; by vm_compute; first [left; discriminate|right; discriminate])). Qed.

Lemma event_place f : 0 <= event_offset f /\ event_offset f + event_width f <= 160.
Proof. by destruct f. Qed.

Lemma event_apart f f' : f <> f' -> apart (event_offset f) (event_width f) (event_offset f') (event_width f').
Proof. destruct f, f'; (done || (intros _; by vm_compute; first [left; discriminate|right; discriminate])). Qed.

Lemma td_place f : 0 <= td_offset f /\ td_offset f + td_width f <= 64.
Proof. by destruct f. Qed.

Lemma td_apart f f' : f <> f' -> apart (td_offset f) (td_width f) (td_offset f') (td_width f').
Proof. destruct f, f'; (done || (intros _; by vm_compute; first [left; discriminate|right; discriminate])). Qed.

Lemma parsed_place w : 336 <= parsed_offset w /\ parsed_offset w + 4 <= 432.
Proof. by destruct w. Qed.

Lemma parsed_apart w w' : w <> w' -> apart (parsed_offset w) 4 (parsed_offset w') 4.
Proof. destruct w, w'; (done || (intros _; by vm_compute; first [left; discriminate|right; discriminate])). Qed.

(** The words of the scratch, and where a field of the context lies, and one of the scratch. *)
Definition parser_word (f : field) : bool :=
  match f with Td _ | Parsed _ | ConfigPointer | GenerationScratch => true | _ => false end.

Definition in_scratch (f : field) : bool :=
  match f with Td _ | Parsed _ | ConfigPointer | GenerationScratch | Parcel _ => true | _ => false end.

Definition in_task (f : field) : bool := match f with TaskPid | TaskTgid => true | _ => false end.

Definition in_context (f : field) : bool := negb (in_scratch f) && negb (in_task f).

Ltac places :=
  repeat match goal with
  | w : ctx_word |- _ => pose proof (word_offset_place w); generalize dependent w
  | f : frame_field |- _ => pose proof (frame_place f); generalize dependent f
  | f : event_field |- _ => pose proof (event_place f); generalize dependent f
  | f : td_field |- _ => pose proof (td_place f); generalize dependent f
  | w : scratch_word |- _ => pose proof (parsed_place w); generalize dependent w
  end; intros.

Ltac unfold_offsets :=
  pose proof offsets as (?Hpending & ?Hactive & ?Hswitches & ?Hslots & ?Hhal & ?Hhswitches & ?Hhslots &
     ?Hbytes & ?Hhead);
  unfold event_addr, slot_addr, hal_addr, events_offset, kEventBytes, kFrameBytes, kSlotBytes, kHalSetBytes, apart in *.

Section Layout.
Context (lay : layout) (task : Z) (Hlay : layout_ok lay task).
#[local] Abbreviation addr := (field_addr lay task).

Lemma context_field_place f :
  in_context f = true -> field_ok f ->
  context_kaddr lay <= addr f /\ addr f + field_width f <= context_kaddr lay + kContextBytes.
Proof. intros Hc Hok. destruct f; try discriminate Hc; cbn [field_addr field_width field_ok] in *; unfold_offsets; places; lia. Qed.

Lemma scratch_field_place f :
  in_scratch f = true -> field_ok f -> scratch lay <= addr f /\ addr f + field_width f <= scratch lay + 448.
Proof.
  intros Hs Hok. destruct f; try discriminate Hs; cbn [field_addr field_width scratch_offset field_ok] in *; places; lia.
Qed.

Lemma field_addr_range f : field_ok f -> 0 <= addr f /\ addr f + field_width f <= 2 ^ 64.
Proof.
  intros Hok. destruct Hlay as [Hcontext Hscratch _ Htask _].
  destruct (in_context f) eqn:Ec; [pose proof (context_field_place f Ec Hok); lia|].
  destruct (in_scratch f) eqn:Es; [pose proof (scratch_field_place f Es Hok); lia|].
  destruct f; try discriminate; destruct (Htask _ (or_introl eq_refl)) as (? & ? & _),
    (Htask _ (or_intror eq_refl)) as (? & ? & _); done.
Qed.

Lemma field_width_pos f : 0 < field_width f.
Proof. destruct f as [|? []| | | | |? ? []| | | | | | | |[]| | | |]; done. Qed.

Lemma context_cells_apart f g :
  in_context f = true -> in_context g = true -> field_ok f -> field_ok g -> f <> g ->
  apart (addr f) (field_width f) (addr g) (field_width g).
Proof.
  intros Hf Hg Hfok Hgok Hne. unfold_offsets.
  destruct f as [w|i f|i|i|i|i|i j f| | |k|k|k j| | |f|w| | |ip]; try discriminate Hf;
    destruct g as [w'|i' f'|i'|i'|i'|i'|i' j' f'| | |k'|k'|k' j'| | |f'|w'| | |ip']; try discriminate Hg;
    cbn [field_addr field_width field_ok] in *; unfold event_addr, slot_addr, hal_addr, events_offset,
      kEventBytes, kFrameBytes, kSlotBytes, kHalSetBytes in *; try (places; lia);
    try done; try (assert (i <> i') by congruence; lia); try (assert (k <> k') by congruence; lia).
  - pose proof (word_apart w w' ltac:(congruence)) as Ha. unfold apart in Ha. lia.
  - destruct (decide (i = i')) as [->|]; [|places; lia].
    pose proof (event_apart f f' ltac:(congruence)) as Ha. unfold apart in Ha. lia.
  - destruct (decide (i = i' /\ j = j')) as [[-> ->]|]; [|places; lia].
    pose proof (frame_apart f f' ltac:(congruence)) as Ha. unfold apart in Ha. lia.
  - assert (k <> k' \/ j <> j') by (destruct (decide (k = k')); [right; congruence|by left]). lia.
Qed.

Lemma scratch_cells_apart f g :
  in_scratch f = true -> in_scratch g = true -> field_ok f -> field_ok g -> f <> g -> apart (addr f) (field_width f) (addr g) (field_width g).
Proof.
  intros Hf Hg Hfok Hgok Hne. unfold apart.
  destruct f as [w|i f|i|i|i|i|i j f| | |k|k|k j| | |f|w| | |ip]; try discriminate Hf;
    destruct g as [w'|i' f'|i'|i'|i'|i'|i' j' f'| | |k'|k'|k' j'| | |f'|w'| | |ip']; try discriminate Hg; try done;
    cbn [field_addr field_width scratch_offset field_ok] in *; try (places; lia).
  - pose proof (td_apart f f' ltac:(congruence)) as Ha. unfold apart in Ha. lia.
  - pose proof (parsed_apart w w' ltac:(congruence)) as Ha. unfold apart in Ha. lia.
  - assert (ip <> ip') by congruence. lia.
Qed.

Lemma task_cell_apart f g :
  in_task f = true -> field_ok g -> f <> g -> apart (addr f) (field_width f) (addr g) (field_width g).
Proof.
  intros Hf Hg Hne. assert (Hw : field_width f = 4) by (by destruct f).
  destruct (lo_task _ _ Hlay f) as (_ & _ & Hc & Hs); [destruct f; auto; discriminate|].
  pose proof (lo_task_fields _ _ Hlay) as Hpt. unfold apart in *. rewrite Hw.
  destruct (in_context g) eqn:Ec; [pose proof (context_field_place g Ec Hg); lia|].
  destruct (in_scratch g) eqn:Es; [pose proof (scratch_field_place g Es Hg); lia|].
  destruct f; try discriminate Hf; destruct g; try discriminate; try done; cbn [field_addr field_width]; lia.
Qed.

(** No two cells overlap. *)
Lemma cells_apart f g :
  field_ok f -> field_ok g -> f <> g -> apart (addr f) (field_width f) (addr g) (field_width g).
Proof.
  intros Hf Hg Hne. destruct (in_task f) eqn:Tf; [by apply task_cell_apart|].
  destruct (in_task g) eqn:Tg.
  { pose proof (task_cell_apart g f Tg Hf ltac:(congruence)) as Ha. unfold apart in *. lia. }
  assert (Hin : forall h, in_task h = false -> in_scratch h = negb (in_context h)).
  { intros h. unfold in_context. by destruct (in_scratch h), (in_task h). }
  pose proof (Hin f Tf) as Sf. pose proof (Hin g Tg) as Sg. pose proof (lo_apart _ _ Hlay) as Hap. unfold apart in Hap.
  destruct (in_context f) eqn:Cf, (in_context g) eqn:Cg; cbn in Sf, Sg.
  - by apply context_cells_apart.
  - pose proof (context_field_place f Cf Hf). pose proof (scratch_field_place g Sg Hg). unfold apart. lia.
  - pose proof (context_field_place g Cg Hg). pose proof (scratch_field_place f Sf Hf). unfold apart. lia.
  - by apply scratch_cells_apart.
Qed.

Lemma field_addr_inj f g : field_ok f -> field_ok g -> addr f = addr g -> f = g.
Proof.
  intros Hf Hg E. destruct (decide (f = g)) as [|Hne]; [done|].
  pose proof (cells_apart f g Hf Hg Hne) as Ha. pose proof (field_width_pos f). pose proof (field_width_pos g).
  unfold apart in Ha. lia.
Qed.

Lemma aligned_add base w n : (8 | base) -> (w | 8) -> (w | n) -> (w | base + n).
Proof. intros Hb Hw Hn. apply Z.divide_add_r; [exact (Z.divide_trans _ _ _ Hw Hb)|done]. Qed.

(** Every access of the context and of the scratch is aligned, as exclusive and ordered
    ones have to be. *)
Lemma cells_aligned f :
  in_task f = false -> field_ok f -> context_kaddr lay mod 8 = 0 -> scratch lay mod 8 = 0 ->
  addr f mod field_width f = 0.
Proof.
  intros Ht Hok [c Hc]%Z.mod_divide Hp%Z.mod_divide; [|done..]. pose proof (field_width_pos f) as Hpos.
  apply Z.mod_divide; [lia|]. destruct offsets as (Ho1 & Ho2 & _ & _ & Ho3 & _ & Ho4 & _ & Ho5).
  assert (Hevent : forall i, (8 | event_addr lay i)).
  { intros i. exists (c + 62 + 20 * Z.of_nat i). unfold event_addr, events_offset, kEventBytes. lia. }
  assert (Hslot : forall i, (8 | slot_addr lay i)).
  { intros i. exists (c + 5182 + 27 * Z.of_nat i). unfold slot_addr, kSlotBytes. lia. }
  assert (Hhal : forall k, (8 | hal_addr lay k)).
  { intros k. exists (c + 12125 + 4 * Z.of_nat k). unfold hal_addr, kHalSetBytes. lia. }
  destruct f as [w|i f|i|i|i|i|i j f| | |k|k|k j| | |f|w| | |ip]; try discriminate Ht;
    cbn [field_addr field_width scratch_offset].
  - apply aligned_add; [by exists c|by exists 1|]. apply Z.mod_divide; [done|apply word_offset_aligned].
  - apply aligned_add; [done|destruct f; first [by exists 1|by exists 2]|]. by exists (event_offset f / event_width f); destruct f.
  - done.
  - apply aligned_add; [done|by exists 2|by exists 2].
  - apply aligned_add; [done|by exists 2|by exists 3].
  - apply aligned_add; [done|by exists 2|by exists 4].
  - apply aligned_add.
    + rewrite <-Z.add_assoc. apply Z.divide_add_r; [done|]. exists (3 + 6 * Z.of_nat j). unfold kFrameBytes. lia.
    + destruct f; first [by exists 1|by exists 2].
    + by exists (frame_offset f / frame_width f); destruct f.
  - apply aligned_add; [by exists c|by exists 2|]. rewrite Ho2. by exists 24188.
  - apply aligned_add; [by exists c|by exists 2|]. rewrite Ho3. by exists 24242.
  - done.
  - apply aligned_add; [done|by exists 2|by exists 2].
  - rewrite <-Z.add_assoc. apply aligned_add; [done|by exists 2|]. exists (4 + Z.of_nat j). lia.
  - apply aligned_add; [done|destruct f; first [by exists 1|by exists 2]|].
    apply Z.divide_add_r; [destruct f; first [by exists 2|by exists 4]|]. by exists (td_offset f / td_width f); destruct f.
  - apply aligned_add; [done|by exists 2|]. by exists (parsed_offset w / 4); destruct w.
  - apply aligned_add; [done|by exists 1|by exists 54].
  - apply aligned_add; [done|by exists 1|by exists 55].
  - apply Z.divide_1_l.
Qed.

End Layout.

(** * Loads and stores *)

Section Access.
Context (lay : layout) (ct : contents).

#[local] Abbreviation addr := (field_addr lay (task_kaddr (ct_task ct))).

Lemma load_field m f a :
  contains lay ct (m_mem m) -> field_ok f -> a = addr f ->
  load m (field_width f) a = Some (field_get ct f).
Proof. intros Hm Hf ->. unfold load. rewrite (cn_cell _ _ _ Hm f Hf). by rewrite Z.eqb_refl. Qed.

(** A word of the parcel area, of bytes that are cells. *)
Lemma load_bytes_area mem n off :
  contains lay ct mem -> (off + n <= 256)%nat ->
  load_bytes mem n (scratch lay + (80 + Z.of_nat off)) = Some (le_dec (slice off n (ct_area ct))).
Proof.
  intros Hm. revert off. induction n as [|n IH]; intros off Hn; [done|]. cbn [load_bytes].
  pose proof (cn_cell _ _ _ Hm (Parcel off) ltac:(cbn; lia)) as Hcell.
  cbn [field_addr field_width field_get scratch_offset] in Hcell. rewrite Hcell.
  replace (_ + (_ + Z.of_nat off) + 1) with (scratch lay + (80 + Z.of_nat (S off))) by lia.
  rewrite IH by lia. cbn [mbind option_bind]. f_equal. unfold slice.
  destruct (ct_area ct !! off) as [b|] eqn:E.
  - rewrite (drop_S _ _ _ E), firstn_cons, nth_lookup, E. done.
  - apply lookup_ge_None in E. rewrite !skipn_all2, !firstn_nil, nth_overflow by lia. done.
Qed.

Lemma load_area m n off a :
  contains lay ct (m_mem m) -> (0 < n)%nat -> (off + n <= 256)%nat -> a = scratch lay + (80 + Z.of_nat off) ->
  load m (Z.of_nat n) a = Some (le_dec (slice off n (ct_area ct))).
Proof.
  intros Hm Hpos Hn ->. pose proof (load_bytes_area (m_mem m) n off Hm Hn) as Hload. unfold load.
  pose proof (cn_cell _ _ _ Hm (Parcel off) ltac:(cbn; lia)) as Hcell.
  cbn [field_addr field_width scratch_offset] in Hcell. rewrite Hcell, Nat2Z.id.
  destruct (Z.eqb_spec 1 (Z.of_nat n)) as [E|_]; [|exact Hload].
  assert (n = 1%nat) as -> by lia. cbn [load_bytes] in Hload. rewrite Hcell in Hload. cbn in Hload |- *.
  rewrite <-Hload. f_equal. lia.
Qed.

(** Contents that differ in one field. *)
Definition sets (f : field) (v : Z) (ct' : contents) : Prop :=
  ct_task ct' = ct_task ct /\ field_get ct' f = v /\
  forall g, field_ok g -> g <> f -> field_get ct' g = field_get ct g.

Lemma contains_put f v ct' mem :
  contains lay ct mem -> field_ok f -> 0 <= v < 256 ^ field_width f -> sets f v ct' ->
  contains lay ct' (put_cell (addr f) (field_width f, v) mem).
Proof.
  intros [Hlay Hcell Hrange] Hf Hv (Htask & Hget & Hother).
  split; rewrite ?Htask; [done| |]; intros g Hg; destruct (decide (g = f)) as [->|Hne].
  - unfold put_cell. by rewrite Z.eqb_refl, Hget.
  - unfold put_cell. rewrite (proj2 (Z.eqb_neq _ _)); [rewrite Hcell, Hother; done|].
    intros E. apply Hne. by eapply field_addr_inj.
  - by rewrite Hget.
  - rewrite Hother by done. by apply Hrange.
Qed.

Lemma store_field m f a v ct' :
  contains lay ct (m_mem m) -> field_ok f -> a = addr f -> sets f (v mod 256 ^ field_width f) ct' ->
  exists mem, store m (field_width f) a v = Some (set_mem mem m) /\ contains lay ct' mem.
Proof.
  intros Hm Hf -> Hsets. unfold store. rewrite (cn_cell _ _ _ Hm f Hf), Z.eqb_refl.
  eexists. split; [done|]. apply contains_put; try done.
  apply Z.mod_pos_bound. apply Z.pow_pos_nonneg; [lia|]. pose proof (field_width_pos f). lia.
Qed.

End Access.

(** The memory of a machine and of nothing else; what holds the fields' values. *)
Lemma cell_range lay ct mem f :
  contains lay ct mem -> field_ok f -> 0 <= field_get ct f < 256 ^ field_width f.
Proof. intros [_ _ Hr]. apply Hr. Qed.

(** * Contents with one field changed *)

Definition with_ctx (c : KernelCounterContext) (ct : contents) : contents := {|
  ct_ctx := c; ct_task := ct_task ct; ct_td := ct_td ct; ct_scratch := ct_scratch ct;
  ct_config_pointer := ct_config_pointer ct; ct_generation := ct_generation ct; ct_area := ct_area ct |}.

Definition with_generation (g : Z) (ct : contents) : contents := {|
  ct_ctx := ct_ctx ct; ct_task := ct_task ct; ct_td := ct_td ct; ct_scratch := ct_scratch ct;
  ct_config_pointer := ct_config_pointer ct; ct_generation := g; ct_area := ct_area ct |}.

Definition with_config_pointer (p : Z) (ct : contents) : contents := {|
  ct_ctx := ct_ctx ct; ct_task := ct_task ct; ct_td := ct_td ct; ct_scratch := ct_scratch ct;
  ct_config_pointer := p; ct_generation := ct_generation ct; ct_area := ct_area ct |}.

Lemma sets_word ct w v : sets ct (Word w) v (with_ctx (put_word w v (ct_ctx ct)) ct).
Proof.
  split; [done|]. split; [cbn; by rewrite fn_lookup_insert|].
  intros g Hg Hne. destruct g; try done. cbn. rewrite fn_lookup_insert_ne; congruence.
Qed.

Lemma sets_generation ct v : sets ct GenerationScratch v (with_generation v ct).
Proof. split; [done|]. split; [done|]. by intros [] _ Hne. Qed.

Lemma sets_config_pointer ct v : sets ct ConfigPointer v (with_config_pointer v ct).
Proof. split; [done|]. split; [done|]. by intros [] _ Hne. Qed.

Definition with_td (td : BinderTransactionData) (ct : contents) : contents := {|
  ct_ctx := ct_ctx ct; ct_task := ct_task ct; ct_td := td; ct_scratch := ct_scratch ct;
  ct_config_pointer := ct_config_pointer ct; ct_generation := ct_generation ct; ct_area := ct_area ct |}.

Definition with_scratch (sc : Scratch) (ct : contents) : contents := {|
  ct_ctx := ct_ctx ct; ct_task := ct_task ct; ct_td := ct_td ct; ct_scratch := sc;
  ct_config_pointer := ct_config_pointer ct; ct_generation := ct_generation ct; ct_area := ct_area ct |}.

Definition with_area (area : list Z) (ct : contents) : contents := {|
  ct_ctx := ct_ctx ct; ct_task := ct_task ct; ct_td := ct_td ct; ct_scratch := ct_scratch ct;
  ct_config_pointer := ct_config_pointer ct; ct_generation := ct_generation ct; ct_area := area |}.

Lemma sets_parsed ct w v : sets ct (Parsed w) v (with_scratch (<[w := v]> (ct_scratch ct)) ct).
Proof.
  split; [done|]. split; [cbn [field_get ct_scratch with_scratch]; apply fn_lookup_insert|].
  intros g Hg Hne. destruct g; try done. cbn [field_get ct_scratch with_scratch]. apply fn_lookup_insert_ne; congruence.
Qed.

(** Bytes copied to the parcel area. *)
Definition put_byte (i : nat) (b : Z) (area : list Z) : list Z :=
  map (fun j => if Nat.eqb j i then b else nth j area 0) (seq 0 256).

Fixpoint fill_area (i : nat) (bs area : list Z) : list Z :=
  match bs with [] => area | b :: bs => fill_area (S i) bs (put_byte i b area) end.

Lemma nth_put_byte i j b area :
  (j < 256)%nat -> nth j (put_byte i b area) 0 = if Nat.eqb j i then b else nth j area 0.
Proof.
  intros Hj. unfold put_byte. rewrite nth_lookup, list_lookup_fmap, lookup_seq_lt by done. done.
Qed.

Lemma sets_parcel ct i b : (i < 256)%nat -> sets ct (Parcel i) b (with_area (put_byte i b (ct_area ct)) ct).
Proof.
  intros Hi. split; [done|]. split; [cbn [field_get ct_area with_area]; by rewrite nth_put_byte, Nat.eqb_refl by done|].
  intros g Hg Hne. destruct g; try done. cbn [field_ok field_get ct_area with_area] in Hg |- *. rewrite nth_put_byte by done.
  destruct (Nat.eqb_spec i0 i); [congruence|done].
Qed.

Lemma nth_fill_area i bs area j :
  (j < 256)%nat ->
  nth j (fill_area i bs area) 0 =
  if (i <=? j)%nat && (j <? i + length bs)%nat then nth (j - i) bs 0 else nth j area 0.
Proof.
  intros Hj. revert i area. induction bs as [|b bs IH]; intros i area; cbn [fill_area length].
  - destruct (Nat.leb_spec i j), (Nat.ltb_spec j (i + 0)); (done || lia).
  - rewrite IH, nth_put_byte by done. destruct (Nat.eqb_spec j i) as [->|Hne].
    + rewrite Nat.leb_refl, (proj2 (Nat.leb_gt (S i) i)), (proj2 (Nat.ltb_lt i (i + S _))), Nat.sub_diag by lia. done.
    + destruct (Nat.leb_spec i j), (Nat.leb_spec (S i) j), (Nat.ltb_spec j (S i + length bs)),
        (Nat.ltb_spec j (i + S (length bs))); try lia; cbn [andb]; try done.
      replace (j - i)%nat with (S (j - S i)) by lia. done.
Qed.

Lemma fill_area_length i bs area : bs <> [] -> length (fill_area i bs area) = 256%nat.
Proof.
  revert i area. induction bs as [|b [|b' bs] IH]; intros i area Hbs; [done| |].
  - cbn [fill_area]. unfold put_byte. by rewrite length_map, length_seq.
  - cbn [fill_area] in *. by apply IH.
Qed.

(** What was copied to the front is what is there. *)
Lemma take_fill_area bs area : (length bs <= 256)%nat -> take (length bs) (fill_area 0 bs area) = bs.
Proof.
  intros Hlen. destruct bs as [|b bs]; [done|]. set (l := b :: bs) in *.
  assert (Hfill : length (fill_area 0 l area) = 256%nat) by by apply fill_area_length.
  apply (nth_ext _ _ 0 0); [rewrite length_take; lia|]. intros j Hj. rewrite length_take in Hj.
  rewrite nth_lookup, lookup_take_lt, <-nth_lookup, nth_fill_area by lia.
  rewrite (proj2 (Nat.ltb_lt _ _)), Nat.sub_0_r by lia. done.
Qed.

Lemma store_area lay ct mem i bs :
  contains lay ct mem -> bytes_ok bs -> (i + length bs <= 256)%nat ->
  exists mem', store_bytes mem (scratch lay + (80 + Z.of_nat i)) bs = Some mem' /\
    contains lay (with_area (fill_area i bs (ct_area ct)) ct) mem'.
Proof.
  intros Hm Hbs Hlen. revert i ct mem Hm Hlen. induction Hbs as [|b bs Hb Hbs IH]; intros i ct mem Hm Hlen.
  { exists mem. split; [done|]. by destruct ct. }
  cbn [length store_bytes fill_area] in *.
  pose proof (cn_cell _ _ _ Hm (Parcel i) ltac:(cbn; lia)) as Hcell.
  cbn [field_addr field_width scratch_offset] in Hcell. rewrite Hcell.
  pose proof (contains_put lay ct (Parcel i) b _ mem Hm ltac:(cbn; lia) Hb (sets_parcel ct i b ltac:(lia))) as Hput.
  destruct (IH (S i) _ _ Hput ltac:(lia)) as (mem' & Hstore & Hm'). exists mem'. split; [|exact Hm'].
  rewrite <-Hstore. cbn [field_addr field_width scratch_offset]. f_equal. lia.
Qed.

Definition with_slot (i : nat) (slot : BinderPendingSlot) (ct : contents) : contents :=
  with_ctx (set_pending <[i := slot]> (ct_ctx ct)) ct.

(** One field of a slot has changed. *)
Definition slot_sets (slot : BinderPendingSlot) (i : nat) (f : field) (v : Z) (slot' : BinderPendingSlot) : Prop :=
  match f with
  | SlotTask i' => i' = i /\ slot' = Build_BinderPendingSlot v (ps_pid slot) (ps_tgid slot) (ps_depth slot) (ps_frames slot)
  | SlotPid i' => i' = i /\ slot' = Build_BinderPendingSlot (ps_task_kaddr slot) v (ps_tgid slot) (ps_depth slot) (ps_frames slot)
  | SlotTgid i' => i' = i /\ slot' = Build_BinderPendingSlot (ps_task_kaddr slot) (ps_pid slot) v (ps_depth slot) (ps_frames slot)
  | SlotDepth i' => i' = i /\ slot' = Build_BinderPendingSlot (ps_task_kaddr slot) (ps_pid slot) (ps_tgid slot) v (ps_frames slot)
  | _ => False
  end.

Lemma sets_slot ct i f v slot' :
  (i < length (pending (ct_ctx ct)))%nat ->
  slot_sets (slot_at (pending (ct_ctx ct)) i) i f v slot' -> sets ct f v (with_slot i slot' ct).
Proof.
  intros Hi Hf.
  assert (Hat : forall j, slot_at (pending (ct_ctx (with_slot i slot' ct))) j =
    if decide (i = j) then slot' else slot_at (pending (ct_ctx ct)) j).
  { intros j. cbn. by rewrite slot_at_insert. }
  destruct f; try done; destruct Hf as [-> ->]; (split; [done|]); (split;
    [cbn [field_get]; rewrite Hat; by rewrite decide_True by done|]); intros g Hg Hne;
    destruct g; try done; cbn [field_get]; rewrite Hat; destruct (decide _) as [<-|]; done.
Qed.

(** A frame with one field changed; the reserved word has no value to keep. *)
Definition frame_sets (frame : BinderPendingFrame) (f : frame_field) (v : Z) : BinderPendingFrame :=
  let get g := if decide (g = f) then v else frame_get frame g in {|
  pf_request_event_id := get FId; pf_target := get FTarget; pf_data_size := get FDataSize;
  pf_hal_identity_generation := get FGeneration; pf_code := get FCode; pf_flags := get FFlags;
  pf_parcel_flags := get FParcelFlags |}.

Definition with_frame (j : nat) (frame : BinderPendingFrame) (slot : BinderPendingSlot) : BinderPendingSlot := {|
  ps_task_kaddr := ps_task_kaddr slot; ps_pid := ps_pid slot; ps_tgid := ps_tgid slot;
  ps_depth := ps_depth slot; ps_frames := <[j := frame]> (ps_frames slot) |}.

Lemma sets_frame ct i j f v :
  (i < length (pending (ct_ctx ct)))%nat ->
  (j < length (ps_frames (slot_at (pending (ct_ctx ct)) i)))%nat -> (f = FReserved -> v = 0) ->
  let slot := slot_at (pending (ct_ctx ct)) i in
  sets ct (Frame i j f) v (with_slot i (with_frame j (frame_sets (frame_at slot (Z.of_nat j)) f v) slot) ct).
Proof.
  intros Hi Hj Hv slot. set (frame := frame_sets _ f v).
  assert (Hat : forall i', slot_at (pending (ct_ctx (with_slot i (with_frame j frame slot) ct))) i' =
    if decide (i = i') then with_frame j frame slot else slot_at (pending (ct_ctx ct)) i').
  { intros i'. cbn. by rewrite slot_at_insert. }
  assert (Hframe : forall j', frame_at (with_frame j frame slot) (Z.of_nat j') =
    if decide (j = j') then frame else frame_at slot (Z.of_nat j')).
  { intros j'. unfold frame_at, with_frame. cbn [ps_frames]. rewrite Nat2Z.id.
    destruct (decide (j = j')) as [<-|Hne]; [by rewrite list_lookup_insert_eq|by rewrite list_lookup_insert_ne]. }
  assert (Hget : forall g, frame_get frame g = if decide (g = f) then v else
    frame_get (frame_at slot (Z.of_nat j)) g).
  { intros g. unfold frame, frame_sets. destruct g, f; cbn; try done. by rewrite Hv. }
  split; [done|]. split.
  - cbn [field_get]. rewrite Hat, decide_True, Hframe, decide_True, Hget by done. by rewrite decide_True.
  - intros g Hg Hne. destruct g; try done; cbn [field_get]; rewrite Hat; destruct (decide (i = _)) as [<-|]; try done.
    rewrite Hframe. destruct (decide (j = _)) as [<-|]; [|done]. rewrite Hget.
    rewrite decide_False by congruence. done.
Qed.

(** An event with one field changed; the reserved words have no value to keep. *)
Definition event_sets (e : BinderTransactionEvent) (f : event_field) (v : Z) : BinderTransactionEvent :=
  let get g := if decide (g = f) then v else event_get e g in {|
  ev_sequence := get ESequence; ev_event_id := get EEventId; ev_task_kaddr := get ETaskKaddr;
  ev_target := get ETarget; ev_cookie := get ECookie; ev_data_size := get EDataSize;
  ev_offsets_size := get EOffsetsSize; ev_buffer := get EBuffer; ev_offsets := get EOffsets;
  ev_correlated_request_id := get ECorrelatedRequestId; ev_pid := get EPid; ev_tgid := get ETgid;
  ev_command := get ECommand; ev_code := get ECode; ev_flags := get EFlags; ev_sender_pid := get ESenderPid;
  ev_sender_euid := get ESenderEuid; ev_kind := kind_of_num (get EKind);
  ev_parcel_token_kind := get EParcelTokenKind; ev_parcel_token_offset := get EParcelTokenOffset;
  ev_parcel_prefix_size := get EParcelPrefixSize; ev_parcel_flags := get EParcelFlags;
  ev_correlated_request_flags := get ECorrelatedRequestFlags; ev_reply_prefix_size := get EReplyPrefixSize;
  ev_reply_status_code := get EReplyStatusCode; ev_reply_byte_array_length := get EReplyArrayLength;
  ev_reply_byte_array_offset := get EReplyArrayOffset; ev_reply_flags := get EReplyFlags |}.

(** What a field of an event can be set to. *)
Definition event_value_ok (f : event_field) (v : Z) : Prop :=
  match f with EKind => kind_num (kind_of_num v) = v | EReserved0 | EReserved1 => v = 0 | _ => True end.

Definition with_event (i : nat) (e : BinderTransactionEvent) (ct : contents) : contents :=
  with_ctx (set_events <[i := e]> (ct_ctx ct)) ct.

Lemma event_get_sets e f v g :
  event_value_ok f v -> event_get (event_sets e f v) g = if decide (g = f) then v else event_get e g.
Proof.
  intros Hv. destruct (decide (g = f)) as [->|Hne].
  - destruct f; try done.
  - destruct g; cbn -[decide kind_of_num]; rewrite ?decide_False by done; rewrite ?kind_of_num_num; done.
Qed.

Lemma event_at_insert evs i j e :
  (i < length evs)%nat -> event_at (<[i := e]> evs) j = if decide (i = j) then e else event_at evs j.
Proof.
  intros Hi. unfold event_at. destruct (decide (i = j)) as [<-|Hne].
  - by rewrite list_lookup_insert_eq by done.
  - by rewrite list_lookup_insert_ne by done.
Qed.

Lemma sets_event ct i f v :
  (i < length (events (ct_ctx ct)))%nat -> event_value_ok f v ->
  sets ct (Event i f) v (with_event i (event_sets (event_at (events (ct_ctx ct)) i) f v) ct).
Proof.
  intros Hi Hv. split; [done|]. split.
  - cbn [field_get]. cbn. rewrite event_at_insert, decide_True by done. rewrite event_get_sets by done.
    by rewrite decide_True.
  - intros g Hg Hne. destruct g; try done. cbn [field_get]. cbn. rewrite event_at_insert by done.
    destruct (decide (i = _)) as [<-|]; [|done]. rewrite event_get_sets by done. rewrite decide_False by congruence. done.
Qed.

(** A counter moved by [d]. *)
Definition bump (w : ctx_word) (d : Z) (ct : contents) : contents :=
  with_ctx (add_word w d (ct_ctx ct)) ct.

(** The sizes the code is built with. *)
Example sizes :
  word_offset active_calls = 16 /\ events_offset mod 8 = 0 /\ pending_offset mod 8 = 0 /\
  config_slots_offset mod 8 = 0 /\ hal_slots_offset mod 8 = 0 /\ kContextBytes mod 8 = 0.
Proof. by vm_compute. Qed.

(** * A memory that holds given contents *)

Definition event_fields : list event_field := [
  ESequence; EEventId; ETaskKaddr; ETarget; ECookie; EDataSize; EOffsetsSize; EBuffer; EOffsets;
  ECorrelatedRequestId; EPid; ETgid; ECommand; ECode; EFlags; ESenderPid; ESenderEuid; EKind; EParcelTokenKind;
  EParcelTokenOffset; EParcelPrefixSize; EParcelFlags; ECorrelatedRequestFlags; EReplyPrefixSize; EReplyStatusCode;
  EReplyArrayLength; EReplyArrayOffset; EReplyFlags; EReserved0; EReserved1].

Definition slot_fields (i : nat) : list field :=
  [SlotTask i; SlotPid i; SlotTgid i; SlotDepth i] ++
  flat_map (fun j => map (Frame i j) [FId; FTarget; FDataSize; FGeneration; FCode; FFlags; FParcelFlags; FReserved])
    (seq 0 4).

Definition all_fields : list field :=
  map Word (head_words ++ [runtime_config_switches; runtime_config_rejections; hal_identity_switches;
    hal_identity_rejections; hal_identity_restarts]) ++
  flat_map (fun i => map (Event i) event_fields) (seq 0 256) ++ flat_map slot_fields (seq 0 256) ++
  [ActiveConfig; ActiveHal] ++
  flat_map (fun k => [HalGeneration k; HalCount k] ++ map (HalTgid k) (seq 0 4)) (seq 0 2) ++
  [TaskPid; TaskTgid] ++
  map Td [TdTarget; TdCookie; TdCode; TdFlags; TdSenderPid; TdSenderEuid; TdDataSize; TdOffsetsSize; TdBuffer; TdOffsets] ++
  map Parsed [kParcelTokenKind; kParcelTokenOffset; kParcelPrefixSize; kParcelFlags; kCorrelatedRequestFlags;
    kReplyPrefixSize; kReplyStatus; kReplyArrayLength; kReplyArrayOffset; kReplyFlags; kParcelTokenHeaderExtra] ++
  [ConfigPointer; GenerationScratch] ++ map Parcel (seq 0 256).

Definition in_range (ct : contents) (f : field) : bool :=
  (0 <=? field_get ct f) && (field_get ct f <? 256 ^ field_width f).

Definition memory_of (lay : layout) (ct : contents) : memory := fun a =>
  f ← find (fun f => field_addr lay (task_kaddr (ct_task ct)) f =? a) all_fields;
  Some (field_width f, field_get ct f).

Lemma all_fields_ok f : f ∈ all_fields -> field_ok f.
Proof.
  unfold all_fields. rewrite !elem_of_app. intros Hin.
  assert (Hmap : forall {A} (c : A -> field) l, (forall a, field_ok (c a)) -> f ∈ map c l -> field_ok f).
  { intros A c l Hc Hf. apply list_elem_of_In, in_map_iff in Hf as (a & <- & _). done. }
  destruct Hin as [Hin|[Hin|[Hin|[Hin|[Hin|[Hin|[Hin|[Hin|[Hin|Hin]]]]]]]]].
  - by eapply (Hmap _ Word).
  - apply list_elem_of_In, in_flat_map in Hin as (i & Hi & Hin). apply in_seq in Hi.
    apply in_map_iff in Hin as (g & <- & _). cbn. lia.
  - apply list_elem_of_In, in_flat_map in Hin as (i & Hi & Hin). apply in_seq in Hi. unfold slot_fields in Hin.
    apply in_app_iff in Hin as [Hin|Hin].
    + cbn in Hin. destruct Hin as [<-|[<-|[<-|[<-|[]]]]]; cbn; lia.
    + apply in_flat_map in Hin as (j & Hj & Hin). apply in_seq in Hj. apply in_map_iff in Hin as (g & <- & _). cbn. lia.
  - apply list_elem_of_In in Hin. by destruct Hin as [<-|[<-|[]]].
  - apply list_elem_of_In, in_flat_map in Hin as (k & Hk & Hin). apply in_seq in Hk.
    cbn in Hin. destruct Hin as [<-|[<-|[<-|[<-|[<-|[<-|[]]]]]]]; cbn; lia.
  - apply list_elem_of_In in Hin. by destruct Hin as [<-|[<-|[]]].
  - by eapply (Hmap _ Td).
  - by eapply (Hmap _ Parsed).
  - apply list_elem_of_In in Hin. by destruct Hin as [<-|[<-|[]]].
  - apply list_elem_of_In, in_map_iff in Hin as (i & <- & Hi). apply in_seq in Hi. cbn. lia.
Qed.

Lemma all_fields_complete f : field_ok f -> In f all_fields.
Proof.
  intros Hok. unfold all_fields. rewrite !in_app_iff.
  destruct f as [w|i f|i|i|i|i|i j f| | |k|k|k j| | |f|w| | |i]; cbn [field_ok] in Hok.
  - left. apply in_map. by destruct w; vm_compute; repeat (first [by left|right]).
  - right; left. apply in_flat_map. exists i. split; [apply in_seq; lia|]. apply in_map.
    by destruct f; vm_compute; repeat (first [by left|right]).
  - right; right; left. apply in_flat_map. exists i. split; [apply in_seq; lia|by left].
  - right; right; left. apply in_flat_map. exists i. split; [apply in_seq; lia|by right; left].
  - right; right; left. apply in_flat_map. exists i. split; [apply in_seq; lia|by right; right; left].
  - right; right; left. apply in_flat_map. exists i. split; [apply in_seq; lia|by right; right; right; left].
  - right; right; left. apply in_flat_map. exists i. split; [apply in_seq; lia|]. apply in_app_iff. right.
    apply in_flat_map. exists j. split; [apply in_seq; lia|]. apply in_map.
    by destruct f; vm_compute; repeat (first [by left|right]).
  - do 3 right; left. by left.
  - do 3 right; left. by right; left.
  - do 4 right; left. apply in_flat_map. exists k. split; [apply in_seq; lia|by left].
  - do 4 right; left. apply in_flat_map. exists k. split; [apply in_seq; lia|by right; left].
  - do 4 right; left. apply in_flat_map. exists k. split; [apply in_seq; lia|]. apply in_app_iff. right.
    apply in_map, in_seq. lia.
  - do 5 right; left. by left.
  - do 5 right; left. by right; left.
  - do 6 right; left. apply in_map. by destruct f; vm_compute; repeat (first [by left|right]).
  - do 7 right; left. apply in_map. by destruct w; vm_compute; repeat (first [by left|right]).
  - do 8 right; left. by left.
  - do 8 right; left. by right; left.
  - do 9 right. apply in_map, in_seq. lia.
Qed.

Lemma contains_memory_of lay ct :
  layout_ok lay (task_kaddr (ct_task ct)) -> forallb (in_range ct) all_fields = true ->
  contains lay ct (memory_of lay ct).
Proof.
  intros Hlay Hrange. split; [done| |]; intros f Hf.
  - unfold memory_of. destruct (find _ all_fields) as [g|] eqn:E; cbn.
    + apply find_some in E as [Hg Ha]. apply Z.eqb_eq in Ha.
      assert (g = f) as -> by (eapply field_addr_inj; [exact Hlay|by apply all_fields_ok, list_elem_of_In|done|done]). done.
    + pose proof (find_none _ _ E f (all_fields_complete f Hf)) as Hne.
      cbn beta in Hne. by rewrite Z.eqb_refl in Hne.
  - rewrite forallb_forall in Hrange. specialize (Hrange f (all_fields_complete f Hf)).
    unfold in_range in Hrange. apply andb_prop in Hrange. lia.
Qed.
