(* ===== verification/Emitted.v ===== *)
(** The code binder_hook_builder.cpp emits for the identity gate, the counters, the
    lock, the captures of the active slots and the pending table: the functions of the
    assembler as lists of instructions, and that a machine that runs them does what the
    handler's operations do, leaving the registers it does not own alone. *)

From S2P Require Import Prelude UserMemory KernelContext BinderWire Pending PendingFacts Handler Aarch64 ContextLayout.

(** * The code

    [base] is the address of the context, a number when the code is emitted.  Labels are
    numbered from [fresh] in the order in which they are made. *)

(** src/binder_hook_builder.cpp:101-108 [emit_atomic_increment] *)
Definition atomic_increment_code (kaddr : Z) : code :=
  [Mov X 9 (Imm kaddr); Mov X 10 (Imm 1); Ldaddal 10 31 9].

(** src/binder_hook_builder.cpp:110-114 [emit_atomic_decrement] *)
Definition atomic_decrement_code (kaddr : Z) : code :=
  [Mov X 9 (Imm kaddr); Mov X 10 (Imm UINT64_MAX); Ldaddal 10 31 9].

(** src/binder_hook_builder.cpp:116-120 [emit_counter_increment] *)
Definition counter_increment_code (base : Z) (w : ctx_word) : code :=
  atomic_increment_code (base + word_offset w).

(** src/binder_hook_builder.cpp:156-162 [emit_hal_identity_gate] *)
Definition gate_entry_code (tracked bypass : label) (index : nat) : code :=
  [Cmp W 15 (Imm (Z.of_nat index + 1)); BCond LO bypass;
   Ldr 4 17 16 (Z.of_nat index * 4); Cmp W 10 (Reg 17); BCond EQ tracked].

(** src/binder_hook_builder.cpp:125-164 [emit_hal_identity_gate] *)
Definition hal_identity_gate_code (base off_tgid installer_tgid : Z) (tracked bypass : label) : code :=
  [GetCurrent 9; Cbz X 9 bypass;
   Ldr 4 10 9 off_tgid; Mov W 12 (Imm installer_tgid); Cmp W 10 (Reg 12); BCond EQ tracked;
   Mov X 12 (Imm (base + active_hal_offset)); Ldar 4 13 12; Alu AND W 13 13 (Imm 1);
   Mov X 14 (Imm kHalSetBytes); Alu MUL X 13 13 (Reg 14);
   Mov X 14 (Imm (base + hal_slots_offset)); Alu ADD X 13 14 (Reg 13);
   Ldr 4 15 13 8; Cmp W 15 (Imm kHalIdentityLimit); BCond HI bypass; Alu ADD X 16 13 (Imm 16)] ++
  flat_map (gate_entry_code tracked bypass) (seq 0 4) ++ [B bypass].

(** src/binder_hook_builder.cpp:167-187 [emit_capture_active_runtime_config] *)
Definition capture_active_runtime_config_code (base : Z) : code :=
  [Mov X 9 (Imm (base + active_config_offset)); Ldar 4 10 9; Alu AND W 10 10 (Imm 1);
   Mov X 11 (Imm kConfigBytes); Alu MUL X 10 10 (Reg 11);
   Mov X 11 (Imm (base + config_slots_offset)); Alu ADD X 10 11 (Reg 10); Str 8 10 23 432].

(** src/binder_hook_builder.cpp:189-207 [emit_capture_active_hal_generation] *)
Definition capture_active_hal_generation_code (base : Z) : code :=
  [Mov X 9 (Imm (base + active_hal_offset)); Ldar 4 10 9; Alu AND W 10 10 (Imm 1);
   Mov X 11 (Imm kHalSetBytes); Alu MUL X 10 10 (Reg 11);
   Mov X 11 (Imm (base + hal_slots_offset)); Alu ADD X 10 11 (Reg 10); Ldr 8 11 10 0; Str 8 11 23 440].

(** What stands behind [retry], the label [fresh]; [busy] and [acquired] follow it. *)

(** src/binder_hook_builder.cpp:243-255 [emit_bounded_lock_acquire] *)
Definition lock_retry_code (base : Z) (drops : ctx_word) (failure : label) (fresh : label) : code :=
  let retry := fresh in let busy := S fresh in let acquired := S (S fresh) in
  [Ldaxr 12 9; Cbnz X 12 busy; Stxr 13 10 9; Cbz W 13 acquired;
   Bind busy; Clrex; Subs W 11 11 (Imm 1); BCond NE retry] ++
  counter_increment_code base drops ++ [B failure; Bind acquired].

(** src/binder_hook_builder.cpp:230-256 [emit_bounded_lock_acquire] *)
Definition bounded_lock_acquire_code (base : Z) (state drops : ctx_word) (failure : label) (fresh : label) : code :=
  [Mov X 9 (Imm (base + word_offset state)); Mov X 10 (Imm 1); Mov W 11 (Imm (Z.of_nat kMapLockTryCount));
   Bind fresh] ++ lock_retry_code base drops failure fresh.

(** src/binder_hook_builder.cpp:258-266 [emit_bounded_lock_release] *)
Definition bounded_lock_release_code (base : Z) (state : ctx_word) : code :=
  [Mov X 9 (Imm (base + word_offset state)); Stlr 8 31 9].

(** The address of the bucket of the task in x27, to x15. *)

(** src/binder_hook_builder.cpp:305-315 [emit_pending_push] *)
Definition bucket_code (base : Z) : code :=
  [Alu LSR X 13 27 (Imm 6); Alu AND X 13 13 (Imm (kPendingBucketCount - 1));
   Alu LSL X 13 13 (Imm kPendingBucketWayShift); Mov X 12 (Imm kSlotBytes); Alu MUL X 13 13 (Reg 12);
   Mov X 15 (Imm (base + pending_offset)); Alu ADD X 15 15 (Reg 13)].

(** * Rules for fields *)

Section Rules.
Context (lay : layout) (prog : code).

Lemma reach_ldr ct f bytes d base offset rest m target Q :
  contains lay ct (m_mem m) -> field_ok f -> bytes = field_width f ->
  u64 (rd m X base + offset) = field_addr lay (task_kaddr (ct_task ct)) f ->
  reaches prog rest (set_reg d (field_get ct f) m) target Q ->
  reaches prog (Ldr bytes d base offset :: rest) m target Q.
Proof.
  intros Hm Hf -> Ha. apply reach_step. cbn [step]. rewrite (load_field lay ct m f) by done. done.
Qed.

Lemma reach_ldar ct f bytes d base rest m target Q :
  contains lay ct (m_mem m) -> field_ok f -> bytes = field_width f ->
  rd m X base = field_addr lay (task_kaddr (ct_task ct)) f ->
  reaches prog rest (set_reg d (field_get ct f) m) target Q ->
  reaches prog (Ldar bytes d base :: rest) m target Q.
Proof.
  intros Hm Hf -> Ha. apply reach_step. cbn [step]. rewrite (load_field lay ct m f) by done. done.
Qed.

Lemma reach_str ct ct' f bytes v base offset rest m target Q :
  contains lay ct (m_mem m) -> field_ok f -> bytes = field_width f ->
  u64 (rd m X base + offset) = field_addr lay (task_kaddr (ct_task ct)) f ->
  sets ct f (rd m X v mod 256 ^ field_width f) ct' ->
  (forall mem, contains lay ct' mem -> reaches prog rest (set_mem mem m) target Q) ->
  reaches prog (Str bytes v base offset :: rest) m target Q.
Proof.
  intros Hm Hf -> Ha Hsets Hnext.
  destruct (store_field lay ct m f _ _ ct' Hm Hf Ha Hsets) as (mem & Hstore & Hmem).
  eapply reach_step; [cbn [step]; rewrite Hstore; reflexivity|by apply Hnext].
Qed.

Lemma reach_stlr ct ct' f bytes v base rest m target Q :
  contains lay ct (m_mem m) -> field_ok f -> bytes = field_width f ->
  rd m X base = field_addr lay (task_kaddr (ct_task ct)) f ->
  sets ct f (rd m X v mod 256 ^ field_width f) ct' ->
  (forall mem, contains lay ct' mem -> reaches prog rest (set_mem mem m) target Q) ->
  reaches prog (Stlr bytes v base :: rest) m target Q.
Proof.
  intros Hm Hf -> Ha Hsets Hnext.
  destruct (store_field lay ct m f _ _ ct' Hm Hf Ha Hsets) as (mem & Hstore & Hmem).
  eapply reach_step; [cbn [step]; rewrite Hstore; reflexivity|by apply Hnext].
Qed.

End Rules.

(** What an instruction makes of registers is computed. *)
Ltac regs :=
  cbn [rd eval mask set_reg set_mem clobber compare next_try m_reg m_mem m_tries m_current m_zero m_carry Nat.eqb
    alu_value holds app].

(** An instruction that touches registers and flags only. *)
Ltac plain := eapply reach_step; [reflexivity|]; regs; rewrite ?u64_u64, ?u32_u32.

(** The machine is as before but for some registers, the flags and the memory. *)
Definition same_but (rs : list reg) (m m' : machine) : Prop :=
  (forall r, r ∉ rs -> m_reg m' r = m_reg m r) /\ m_tries m' = m_tries m /\ m_current m' = m_current m.

Lemma same_but_trans rs m1 m2 m3 : same_but rs m1 m2 -> same_but rs m2 m3 -> same_but rs m1 m3.
Proof.
  intros (H1 & H2 & H3) (H4 & H5 & H6). split; [|split; congruence]. intros r Hr. by rewrite H4, H1.
Qed.

Lemma same_but_more rs rs' m m' : (forall r, r ∈ rs -> r ∈ rs') -> same_but rs m m' -> same_but rs' m m'.
Proof. intros Hsub (H1 & H2 & H3). split; [|done]. intros r Hr. apply H1. intros Hin. by apply Hr, Hsub. Qed.

(** Membership in lists of registers, without the rest of the context. *)
Ltac reg_solver :=
  match goal with
  | |- _ ∈ _ => solve [repeat constructor]
  | H : ?r ∉ _ |- ?r ∉ _ => clear -H; set_solver
  | |- _ ∉ _ => apply (bool_decide_unpack _); vm_compute; exact Logic.I
  | H : ?r ∉ _ |- False => apply H; solve [repeat constructor]
  | |- _ => clear; set_solver
  end.

(** A register that is none of those written has its value still. *)
Ltac other_reg :=
  repeat match goal with
  | |- context [Nat.eqb ?a ?b] => destruct (Nat.eqb_spec a b) as [->|]; [exfalso; reg_solver|]
  end.

(** Where a label numbered from another is bound, by looking at every label before it. *)
Ltac find_solver :=
  repeat match goal with
  | |- context [Nat.eqb ?a ?b] =>
      first [rewrite (proj2 (Nat.eqb_neq a b)) by lia|rewrite (proj2 (Nat.eqb_eq a b)) by lia]
  end; reflexivity.

(** The registers written along a run, read off the machine. *)
Ltac same_regs :=
  split; [|split; reflexivity]; intros ?r ?Hr; regs; other_reg; reflexivity.

(** As before but for some registers, the flags, the memory and the attempts. *)
Definition kept (rs : list reg) (m m' : machine) : Prop :=
  (forall r, r ∉ rs -> m_reg m' r = m_reg m r) /\ m_current m' = m_current m.

Lemma kept_same rs rs' m m' : same_but rs m m' -> (forall r, r ∈ rs -> r ∈ rs') -> kept rs' m m'.
Proof. intros (H1 & _ & H3) Hsub. split; [|done]. intros r Hr. apply H1. intros Hin. by apply Hr, Hsub. Qed.

Lemma kept_trans rs m1 m2 m3 : kept rs m1 m2 -> kept rs m2 m3 -> kept rs m1 m3.
Proof. intros (H1 & H2) (H3 & H4). split; [|congruence]. intros r Hr. by rewrite H3, H1. Qed.

Lemma kept_more rs rs' m m' : (forall r, r ∈ rs -> r ∈ rs') -> kept rs m m' -> kept rs' m m'.
Proof. intros Hsub (H1 & H2). split; [|done]. intros r Hr. apply H1. intros Hin. by apply Hr, Hsub. Qed.

(** What exclusive accesses meet are words and small status codes. *)
Definition tries_ok (tries : list (Z * Z)) : Prop :=
  Forall (fun p => 0 <= p.1 < 2 ^ 64 /\ 0 <= p.2 < 2 ^ 32) tries.

Section Fragments.
Context {lay : layout} {prog : code}.
Implicit Types (m : machine) (ct : contents).

Lemma word_addr ct m w :
  contains lay ct (m_mem m) -> u64 (context_kaddr lay + word_offset w) = context_kaddr lay + word_offset w.
Proof.
  intros [Hlay _ _]. apply u64_small.
  pose proof (field_addr_range lay (task_kaddr (ct_task ct)) Hlay (Word w) Logic.I) as Hr.
  cbn [field_addr field_width] in Hr. lia.
Qed.

Lemma atomic_add_code d w rest m ct :
  contains lay ct (m_mem m) -> 0 <= d < 2 ^ 64 ->
  reaches prog ([Mov X 9 (Imm (context_kaddr lay + word_offset w)); Mov X 10 (Imm d); Ldaddal 10 31 9] ++ rest) m
    rest (fun m' => contains lay (bump w d ct) (m_mem m') /\ same_but [9; 10; 31]%nat m m').
Proof.
  intros Hm Hd. cbn [app]. plain. plain. rewrite (word_addr ct m w Hm), (u64_small d) by done.
  set (m1 := set_reg 10 d _).
  assert (Hm1 : contains lay ct (m_mem m1)) by exact Hm.
  assert (Ha : rd m1 X 9 = context_kaddr lay + word_offset w) by (cbn; by rewrite (word_addr ct m w Hm)).
  destruct (store_field lay ct m1 (Word w) _ (kc_words (ct_ctx ct) w + rd m1 X 10) (bump w d ct) Hm1 Logic.I Ha)
    as (mem & Hstore & Hmem).
  { cbn [field_width]. change (256 ^ 8) with (2 ^ 64). unfold m1. regs. rewrite (u64_small d) by done.
    apply sets_word. }
  eapply reach_step.
  { cbn [step]. rewrite (load_field lay ct m1 (Word w)) by done. cbn [mbind option_bind field_get].
    change (field_width (Word w)) with 8 in Hstore. rewrite Hstore. reflexivity. }
  apply reach_here. split; [exact Hmem|]. unfold m1. same_regs.
Qed.

Lemma increment_code w rest m ct :
  contains lay ct (m_mem m) ->
  reaches prog (counter_increment_code (context_kaddr lay) w ++ rest) m
    rest (fun m' => contains lay (bump w 1 ct) (m_mem m') /\ same_but [9; 10; 31]%nat m m').
Proof. intros Hm. by apply atomic_add_code. Qed.

(** * The identity gate *)

Lemma slot_of_land v : 0 <= v < 2 ^ 32 -> u32 (Z.land v 1) = Z.of_nat (slot_of v) /\ (slot_of v < 2)%nat.
Proof.
  intros Hv. split; [|apply slot_of_lt]. unfold slot_of. change 1 with (Z.ones 1).
  rewrite Z.land_ones by lia. pose proof (Z.mod_pos_bound v (2 ^ 1) ltac:(lia)).
  rewrite Z2Nat.id by lia. apply u32_small. lia.
Qed.

Lemma hal_addr_range ct m k :
  contains lay ct (m_mem m) -> (k < 2)%nat -> 0 <= hal_addr lay k /\ hal_addr lay k + 32 <= 2 ^ 64.
Proof.
  intros [[Hc _ _ _ _] _ _] Hk. unfold hal_addr, kHalSetBytes.
  destruct offsets as (_ & _ & _ & _ & _ & _ & -> & Hbytes & _). rewrite Hbytes in Hc. lia.
Qed.

(** The slot an acquired index leads to. *)
Lemma active_hal_addr ct m :
  contains lay ct (m_mem m) ->
  let k := slot_of (active_hal_identity_slot (ct_ctx ct)) in
  u64 (u64 (context_kaddr lay + hal_slots_offset) +
       u64 (u64 (u32 (Z.land (u32 (active_hal_identity_slot (ct_ctx ct))) (u32 1))) * u64 kHalSetBytes)) =
  hal_addr lay k.
Proof.
  intros Hm k. pose proof (cell_range lay ct (m_mem m) ActiveHal Hm Logic.I) as Hr. cbn in Hr.
  rewrite (u32_small (active_hal_identity_slot _)) by lia. change (u32 1) with 1.
  destruct (slot_of_land (active_hal_identity_slot (ct_ctx ct)) ltac:(lia)) as [-> Hk]. fold k in Hk |- *.
  pose proof (hal_addr_range ct m k Hm Hk) as Hrange. unfold hal_addr, kHalSetBytes in *.
  destruct (cn_layout _ _ _ Hm) as [Hc _ _ _ _].
  destruct offsets as (_ & _ & _ & _ & _ & _ & Ho & Hbytes & _). rewrite Hbytes in Hc. rewrite Ho in *.
  rewrite (u64_small (Z.of_nat k)), (u64_small 32) by lia.
  rewrite (u64_small (Z.of_nat k * 32)) by lia. rewrite (u64_small (context_kaddr lay + 97000)) by lia.
  rewrite u64_small by lia. lia.
Qed.

Definition identity_gate ct installer : bool :=
  emit_hal_identity_gate installer (ct_task ct) (ct_ctx ct).

Lemma gate_entries_code tracked bypass t b ct k index n rest m :
  find_label prog tracked = Some t -> find_label prog bypass = Some b ->
  contains lay ct (m_mem m) -> (k < 2)%nat -> (index + n <= 4)%nat ->
  m_reg m 10 = task_tgid (ct_task ct) -> m_reg m 15 = hs_count (hal_set (ct_ctx ct) k) ->
  m_reg m 16 = hal_addr lay k + 16 ->
  let found := gate_scan (task_tgid (ct_task ct)) (hs_count (hal_set (ct_ctx ct) k)) index
                 (hs_tgids (hal_set (ct_ctx ct) k)) n in
  find_label prog bypass = Some b ->
  reaches prog (flat_map (gate_entry_code tracked bypass) (seq index n) ++ B bypass :: rest) m
    (if found then t else b) (fun m' => m_mem m' = m_mem m /\ same_but [17]%nat m m').
Proof.
  intros Ht Hb Hm Hk Hn H10 H15 H16 found _. revert index m Hm Hn H10 H15 H16 found.
  induction n as [|n IH]; intros index m Hm Hn H10 H15 H16 found.
  { cbn. eapply reach_jump; [exact Hb|]. apply reach_here. by split; [|same_regs]. }
  pose proof (cell_range lay ct (m_mem m) (HalCount k) Hm Hk) as Hcount.
  pose proof (cell_range lay ct (m_mem m) (HalTgid k index) Hm ltac:(cbn; lia)) as Htgid.
  pose proof (cell_range lay ct (m_mem m) TaskTgid Hm Logic.I) as Htask. cbn in Hcount, Htgid, Htask.
  pose proof (hal_addr_range ct m k Hm Hk) as Hrange.
  cbn [seq flat_map]. unfold gate_entry_code at 1. rewrite <-app_assoc. cbn [app].
  subst found. cbn [gate_scan]. plain. rewrite H15, !u32_small by lia.
  eapply reach_bcond; [exact Hb|..]; regs; intros Hlo.
  { apply negb_true_iff, Z.leb_gt in Hlo. rewrite (proj2 (Z.ltb_lt _ _)) by lia.
    apply reach_here. by split; [|same_regs]. }
  apply negb_false_iff, Z.leb_le in Hlo. rewrite (proj2 (Z.ltb_ge _ _)) by lia.
  eapply (reach_ldr lay prog ct (HalTgid k index)); [exact Hm|cbn; lia|done| |].
  { regs. rewrite H16, (u64_small (hal_addr lay k + 16)) by lia. rewrite u64_small by lia. cbn. lia. }
  regs. plain. rewrite H10. cbn [field_get]. rewrite !u32_small by lia.
  eapply reach_bcond; [exact Ht|..]; regs; intros Heq.
  { rewrite Heq. apply reach_here. by split; [|same_regs]. }
  rewrite Heq. eapply reach_mono; [apply IH; try done; lia|].
  intros m' [Hmem Hsame]. split; [done|]. eapply same_but_trans; [|exact Hsame]. same_regs.
Qed.

Lemma kaddr_small ct m offset :
  contains lay ct (m_mem m) -> 0 <= offset < kContextBytes ->
  u64 (context_kaddr lay + offset) = context_kaddr lay + offset.
Proof. intros [[Hc _ _ _ _] _ _] Ho. apply u64_small. lia. Qed.

(** C18: the identity gate as machine code is the handler's gate: whatever the active
    set of identities, and wherever the context, the caller's task and the two labels
    are, a run of the emitted instructions comes to [tracked] exactly for the callers the
    handler's gate admits and to [bypass] for all others, with the memory and every
    register but nine scratch ones as they were; so the original ioctl still finds its
    three arguments. *)
Theorem emitted_gate_refines tracked bypass t b installer rest m ct :
  find_label prog tracked = Some t -> find_label prog bypass = Some b ->
  contains lay ct (m_mem m) -> m_current m = task_kaddr (ct_task ct) ->
  0 <= task_kaddr (ct_task ct) < 2 ^ 64 -> 0 <= installer < 2 ^ 32 ->
  reaches prog (hal_identity_gate_code (context_kaddr lay) (offset_tgid lay) installer tracked bypass ++ rest) m
    (if identity_gate ct installer then t else b)
    (fun m' => m_mem m' = m_mem m /\ same_but [9; 10; 12; 13; 14; 15; 16; 17]%nat m m').
Proof.
  intros Ht Hb Hm Hcurrent Htask Hinstaller. unfold identity_gate, emit_hal_identity_gate.
  unfold hal_identity_gate_code. rewrite <-!app_assoc. cbn [app].
  plain. rewrite Hcurrent. eapply reach_cbz; [exact Hb|..]; regs; rewrite u64_small by done; intros Hzero;
    rewrite Hzero; [apply reach_here; by split; [|same_regs]|].
  pose proof (cell_range lay ct (m_mem m) TaskTgid Hm Logic.I) as Htgid. cbn in Htgid.
  destruct (lo_task _ _ (cn_layout _ _ _ Hm) TaskTgid) as (Hta & Htb & _); [auto|]. cbn [field_addr] in Hta, Htb.
  eapply (reach_ldr lay prog ct TaskTgid); [exact Hm|done..| |];
    [regs; rewrite (u64_small (task_kaddr _)) by done; by rewrite u64_small by lia|].
  cbn [field_get]. regs. plain. plain. rewrite (u32_small installer) by done. rewrite !u32_small by lia.
  eapply reach_bcond; [exact Ht|..]; regs; intros Heq; rewrite Heq; [apply reach_here; by split; [|same_regs]|].
  destruct offsets as (_ & _ & _ & _ & Hoa & _ & _ & Hbytes & _).
  plain. eapply (reach_ldar lay prog ct ActiveHal); [exact Hm|done..| |].
  { regs. cbn [field_addr]. by rewrite !(kaddr_small ct m) by (done || (rewrite Hoa, Hbytes; lia)). }
  cbn [field_get]. regs. do 5 plain.
  rewrite (active_hal_addr ct m Hm). set (k := slot_of _).
  assert (Hk : (k < 2)%nat) by apply slot_of_lt.
  pose proof (hal_addr_range ct m k Hm Hk) as Hrange.
  pose proof (cell_range lay ct (m_mem m) (HalCount k) Hm Hk) as Hcount. cbn in Hcount.
  change (active_hal (ct_ctx ct)) with (hal_set (ct_ctx ct) k).
  eapply (reach_ldr lay prog ct (HalCount k)); [exact Hm|exact Hk|done| |];
    [regs; rewrite (u64_small (hal_addr lay k)) by lia; rewrite u64_small by lia; done|].
  cbn [field_get]. regs. plain. rewrite (u32_small (hs_count _)) by lia.
  change (u32 kHalIdentityLimit) with 4. change kHalIdentityLimit with 4.
  eapply reach_bcond; [exact Hb|..]; regs; intros Hhi.
  { apply andb_prop in Hhi as [Hle Hne]. apply Z.leb_le in Hle. apply negb_true_iff, Z.eqb_neq in Hne.
    rewrite (proj2 (Z.ltb_lt _ _)) by lia. apply reach_here. by split; [|same_regs]. }
  rewrite (proj2 (Z.ltb_ge _ _)); cycle 1.
  { apply andb_false_iff in Hhi as [Hle|Hne]; [apply Z.leb_gt in Hle; lia|].
    apply negb_false_iff, Z.eqb_eq in Hne. lia. }
  plain. eapply reach_mono.
  - apply (gate_entries_code tracked bypass t b ct k 0 4 rest); [done..|lia| | |regs|done]; regs; [done|done|].
    rewrite (u64_small (hal_addr lay k)), (u64_small 16) by lia. by rewrite u64_small by lia.
  - intros m' [Hmem Hsame]. split; [done|]. eapply same_but_trans; [|eapply same_but_more; [|exact Hsame]; reg_solver].
    same_regs.
Qed.

(** * The captures *)

Definition current_generation ct : Z := hs_generation (active_hal (ct_ctx ct)).

Lemma scratch_addr ct m f :
  contains lay ct (m_mem m) -> parser_word f = true -> m_reg m 23 = scratch lay ->
  u64 (u64 (m_reg m 23) + scratch_offset f) = field_addr lay (task_kaddr (ct_task ct)) f.
Proof.
  intros [[_ Hs _ _ _] _ _] Hf H23.
  pose proof (scratch_field_place lay (task_kaddr (ct_task ct)) f ltac:(by destruct f) ltac:(by destruct f)) as Hplace.
  pose proof (field_width_pos f) as Hpos.
  assert (field_addr lay (task_kaddr (ct_task ct)) f = scratch lay + scratch_offset f) as E
    by (by destruct f). rewrite E in *. rewrite H23, (u64_small (scratch lay)) by lia. apply u64_small. lia.
Qed.

(** The generation of the active set goes to the scratch. *)
Lemma capture_generation_code rest m ct :
  contains lay ct (m_mem m) -> m_reg m 23 = scratch lay ->
  reaches prog (capture_active_hal_generation_code (context_kaddr lay) ++ rest) m rest
    (fun m' => contains lay (with_generation (current_generation ct) ct) (m_mem m') /\
       same_but [9; 10; 11]%nat m m').
Proof.
  intros Hm H23. unfold capture_active_hal_generation_code. cbn [app].
  destruct offsets as (_ & _ & _ & _ & Hoa & _ & _ & Hbytes & _).
  plain. eapply (reach_ldar lay prog ct ActiveHal); [exact Hm|done..| |].
  { regs. cbn [field_addr]. by rewrite !(kaddr_small ct m) by (done || (rewrite Hoa, Hbytes; lia)). }
  cbn [field_get]. regs. do 5 plain.
  rewrite (active_hal_addr ct m Hm). set (k := slot_of _).
  assert (Hk : (k < 2)%nat) by apply slot_of_lt.
  pose proof (hal_addr_range ct m k Hm Hk) as Hrange.
  pose proof (cell_range lay ct (m_mem m) (HalGeneration k) Hm Hk) as Hgen. cbn in Hgen.
  eapply (reach_ldr lay prog ct (HalGeneration k)); [exact Hm|exact Hk|done| |];
    [regs; rewrite (u64_small (hal_addr lay k)) by lia; rewrite u64_small by lia; cbn; lia|].
  cbn [field_get]. regs.
  eapply (reach_str lay prog ct _ GenerationScratch); [exact Hm|done|done| | |].
  { regs. exact (scratch_addr ct m GenerationScratch Hm eq_refl H23). }
  { regs. rewrite (u64_small (hs_generation _)) by lia. rewrite Z.mod_small by (cbn; lia). apply sets_generation. }
  intros mem Hmem. apply reach_here. split; [exact Hmem|]. same_regs.
Qed.

(** The address of the active configuration goes to the scratch. *)
Lemma capture_config_code rest m ct :
  contains lay ct (m_mem m) -> m_reg m 23 = scratch lay ->
  let pointer := context_kaddr lay + config_slots_offset +
                 kConfigBytes * Z.of_nat (slot_of (active_config_slot (ct_ctx ct))) in
  reaches prog (capture_active_runtime_config_code (context_kaddr lay) ++ rest) m rest
    (fun m' => contains lay (with_config_pointer pointer ct) (m_mem m') /\ same_but [9; 10; 11]%nat m m').
Proof.
  intros Hm H23 pointer. unfold capture_active_runtime_config_code. cbn [app].
  destruct offsets as (_ & Hoa & _ & Hos & _ & _ & _ & Hbytes & _).
  plain. eapply (reach_ldar lay prog ct ActiveConfig); [exact Hm|done..| |].
  { regs. cbn [field_addr]. by rewrite !(kaddr_small ct m) by (done || (rewrite Hoa, Hbytes; lia)). }
  cbn [field_get]. regs. do 5 plain.
  pose proof (cell_range lay ct (m_mem m) ActiveConfig Hm Logic.I) as Hr. cbn in Hr.
  destruct (cn_layout _ _ _ Hm) as [Hc _ _ _ _]. rewrite Hbytes in Hc.
  assert (Hpointer : u64 (u64 (context_kaddr lay + config_slots_offset) +
      u64 (u64 (u32 (Z.land (u32 (active_config_slot (ct_ctx ct))) (u32 1))) * u64 kConfigBytes)) = pointer).
  { rewrite (u32_small (active_config_slot _)) by lia. change (u32 1) with 1.
    destruct (slot_of_land (active_config_slot (ct_ctx ct)) ltac:(lia)) as [-> Hk].
    unfold pointer, kConfigBytes in *. rewrite Hos.
    rewrite (u64_small (Z.of_nat _)), (u64_small 96) by lia.
    rewrite (u64_small (Z.of_nat _ * 96)), (u64_small (context_kaddr lay + 96776)) by lia.
    rewrite u64_small by lia. lia. }
  rewrite Hpointer.
  assert (Hp : 0 <= pointer < 2 ^ 64).
  { pose proof (slot_of_lt (active_config_slot (ct_ctx ct))). unfold pointer, kConfigBytes. rewrite Hos. lia. }
  eapply (reach_str lay prog ct _ ConfigPointer); [exact Hm|done|done| | |].
  { regs. exact (scratch_addr ct m ConfigPointer Hm eq_refl H23). }
  { regs. rewrite (u64_small pointer) by done. rewrite Z.mod_small by (cbn; lia). apply sets_config_pointer. }
  intros mem Hmem. apply reach_here. split; [exact Hmem|]. same_regs.
Qed.

(** * The lock *)

Lemma hd_tries_ok word tries :
  0 <= word < 2 ^ 64 -> tries_ok tries ->
  0 <= (hd (word, 0) tries).1 < 2 ^ 64 /\ 0 <= (hd (word, 0) tries).2 < 2 ^ 32.
Proof. intros Hw Ht. destruct Ht as [|p tries Hp Ht]; [split; cbn; lia|exact Hp]. Qed.

Lemma hd_status word tries : (hd (0, 0) tries).2 = (hd (word, 0) tries).2 :> Z.
Proof. by destruct tries. Qed.

Section Lock.
Context (drops : ctx_word) (failure fresh : label) (fl rest : code).
#[local] Abbreviation retry_code := (lock_retry_code (context_kaddr lay) drops failure fresh).
Context (Hretry : find_label prog fresh = Some (retry_code ++ rest)).
Context (Hbusy : find_label prog (S fresh) = Some (drop 5 retry_code ++ rest)).
Context (Hacquired : find_label prog (S (S fresh)) = Some rest).
Context (Hfailure : find_label prog failure = Some fl).

(** One attempt: the lock is taken, or nothing has changed but some registers. *)
Lemma lock_attempt state n m ct target Q :
  contains lay ct (m_mem m) -> tries_ok (m_tries m) ->
  m_reg m 9 = context_kaddr lay + word_offset state -> m_reg m 10 = 1 -> m_reg m 11 = n ->
  let seen := hd (kc_words (ct_ctx ct) state, 0) (m_tries m) in
  ((seen.1 =? 0) && (seen.2 =? 0) = true -> forall m',
     contains lay (with_ctx (put_word state 1 (ct_ctx ct)) ct) (m_mem m') ->
     kept [12; 13]%nat m m' -> reaches prog rest m' target Q) ->
  ((seen.1 =? 0) && (seen.2 =? 0) = false -> forall m',
     m_mem m' = m_mem m -> same_but [12; 13]%nat m m' ->
     reaches prog (drop 5 retry_code ++ rest) m' target Q) ->
  reaches prog (retry_code ++ rest) m target Q.
Proof.
  intros Hm Htries H9 H10 H11 seen Htaken Hlost.
  pose proof (cell_range lay ct (m_mem m) (Word state) Hm Logic.I) as Hw. cbn in Hw.
  destruct (hd_tries_ok _ _ Hw Htries) as [Hseen Hstatus]. fold seen in Hseen, Hstatus.
  assert (H9' : rd m X 9 = context_kaddr lay + word_offset state).
  { regs. rewrite H9. by apply (word_addr ct m). }
  unfold lock_retry_code. cbn [app]. eapply reach_step.
  { cbn [step]. rewrite (load_field lay ct m (Word state)) by done. reflexivity. }
  regs. cbn [field_get]. fold seen.
  eapply reach_cbnz; [exact Hbusy|..]; regs; rewrite (u64_small seen.1) by done; intros Hz; rewrite Hz in *.
  { apply Hlost; [done|done|same_regs]. }
  cbn [andb] in *. destruct (seen.2 =? 0) eqn:Es.
  - destruct (store_field lay ct (set_reg 12 seen.1 m) (Word state) (context_kaddr lay + word_offset state) 1
      (with_ctx (put_word state 1 (ct_ctx ct)) ct) Hm Logic.I eq_refl (sets_word ct state 1)) as (mem & Hstore & Hmem).
    eapply reach_step.
    { cbn [step m_tries set_reg]. rewrite (hd_status (kc_words (ct_ctx ct) state)). fold seen. rewrite Es.
      regs. rewrite H9, H10, (word_addr ct m) by done. change (u64 1) with 1. regs.
      change (field_width (Word state)) with 8 in Hstore. rewrite Hstore. reflexivity. }
    eapply reach_cbz; [exact Hacquired|..]; regs; rewrite (u32_small seen.2) by done; rewrite Es;
      [|discriminate]. intros _. apply Htaken; [done|exact Hmem|]. split; [|done]. intros r Hr. regs. by other_reg.
  - eapply reach_step.
    { cbn [step m_tries set_reg]. rewrite (hd_status (kc_words (ct_ctx ct) state)). fold seen. rewrite Es.
      reflexivity. }
    eapply reach_cbz; [exact Hacquired|..]; regs; rewrite (u32_small seen.2) by done; rewrite Es;
      [discriminate|]. intros _. plain. apply Hlost; [done|done|same_regs].
Qed.

Lemma lock_retry_spec state n m ct :
  contains lay ct (m_mem m) -> tries_ok (m_tries m) -> (n < 8)%nat ->
  m_reg m 9 = context_kaddr lay + word_offset state -> m_reg m 10 = 1 -> m_reg m 11 = Z.of_nat (S n) ->
  let taken := lock_tries (S n) (kc_words (ct_ctx ct) state) (m_tries m) in
  reaches prog (retry_code ++ rest) m (if taken then rest else fl)
    (fun m' => contains lay (if taken then with_ctx (put_word state 1 (ct_ctx ct)) ct else bump drops 1 ct) (m_mem m') /\
       kept [9; 10; 11; 12; 13; 31]%nat m m').
Proof.
  revert m. induction n as [|n IH]; intros m Hm Htries Hn H9 H10 H11 taken; unfold taken;
    cbn [lock_tries]; destruct (hd (kc_words (ct_ctx ct) state, 0) (m_tries m)) as [seen status] eqn:Eseen;
    (eapply lock_attempt; [exact Hm|exact Htries|exact H9|exact H10|exact H11|..]; rewrite Eseen; cbn [fst snd]);
    intros Hend; [apply andb_prop in Hend as [-> ->]|
      replace (if seen =? 0 then if status =? 0 then true else _ else _) with
        (lock_tries 0 (kc_words (ct_ctx ct) state) (tl (m_tries m)))
        by (by destruct (seen =? 0), (status =? 0))|
      apply andb_prop in Hend as [-> ->]|
      replace (if seen =? 0 then if status =? 0 then true else _ else _) with
        (lock_tries (S n) (kc_words (ct_ctx ct) state) (tl (m_tries m)))
        by (by destruct (seen =? 0), (status =? 0))].
  1, 3: intros m' Hm' Hkept; apply reach_here; split; [exact Hm'|]; destruct Hkept as [Hr Hc];
    split; [|exact Hc]; intros r Hin; apply Hr; reg_solver.
  all: intros m' Hmem (Hr & Ht & Hc); rewrite <-Hmem in Hm; unfold lock_retry_code; cbn [app drop]; do 2 plain;
    (rewrite Hr, H11 by reg_solver); (eapply reach_bcond; [exact Hretry|..]); regs; change (u32 1) with 1;
    rewrite (u32_small (Z.of_nat _)) by lia; intros Hz.
  - cbn in Hz. discriminate Hz.
  - rewrite <-app_assoc. eapply reach_trans; [by apply increment_code|]. intros m'' [Hm'' Hsame].
    eapply reach_jump; [exact Hfailure|]. apply reach_here. split; [exact Hm''|].
    destruct Hsame as (Hr' & _ & Hc'). split; [|etransitivity; [exact Hc'|exact Hc]]. intros r Hin. rewrite Hr' by reg_solver. regs.
    other_reg. apply Hr. reg_solver.
  - rewrite <-Ht. set (m2 := set_reg 11 _ _). eapply reach_mono.
    + apply (IH m2); unfold m2; regs; try done; try lia; try (by rewrite Hr by reg_solver).
      * rewrite Ht. destruct Htries; [constructor|done].
      * rewrite u32_small by lia. lia.
    + intros m'' [Hm'' [Hr' Hc']]. split; [exact Hm''|].
      split; [|etransitivity; [exact Hc'|exact Hc]]. intros r Hin. rewrite Hr' by done. unfold m2. regs.
      other_reg. apply Hr. reg_solver.
  - exfalso. apply negb_false_iff, Z.eqb_eq in Hz. lia.
Qed.

End Lock.

Lemma lock_acquire_spec state drops failure fresh fl rest m ct :
  find_label prog fresh = Some (lock_retry_code (context_kaddr lay) drops failure fresh ++ rest) ->
  find_label prog (S fresh) = Some (drop 5 (lock_retry_code (context_kaddr lay) drops failure fresh) ++ rest) ->
  find_label prog (S (S fresh)) = Some rest -> find_label prog failure = Some fl ->
  contains lay ct (m_mem m) -> tries_ok (m_tries m) ->
  let taken := lock_tries kMapLockTryCount (kc_words (ct_ctx ct) state) (m_tries m) in
  reaches prog (bounded_lock_acquire_code (context_kaddr lay) state drops failure fresh ++ rest) m
    (if taken then rest else fl)
    (fun m' => contains lay (if taken then with_ctx (put_word state 1 (ct_ctx ct)) ct else bump drops 1 ct) (m_mem m') /\
       kept [9; 10; 11; 12; 13; 31]%nat m m').
Proof.
  intros Hretry Hbusy Hacquired Hfailure Hm Htries taken.
  unfold bounded_lock_acquire_code. rewrite <-app_assoc. cbn [app]. do 4 plain.
  rewrite (word_addr ct m state Hm). change (u64 1) with 1. change (u32 (Z.of_nat kMapLockTryCount)) with 8.
  set (m1 := set_reg 11 8 _). eapply reach_mono.
  - apply (lock_retry_spec drops failure fresh fl rest Hretry Hbusy Hacquired Hfailure state 7 m1); by try lia.
  - intros m' [Hm' Hkept]. split; [exact Hm'|]. eapply kept_trans; [|exact Hkept].
    eapply (kept_same [9; 10; 11]%nat); [unfold m1; same_regs|reg_solver].
Qed.

Lemma lock_release_spec state rest m ct :
  contains lay ct (m_mem m) ->
  reaches prog (bounded_lock_release_code (context_kaddr lay) state ++ rest) m rest
    (fun m' => contains lay (with_ctx (put_word state 0 (ct_ctx ct)) ct) (m_mem m') /\ same_but [9]%nat m m').
Proof.
  intros Hm. unfold bounded_lock_release_code. cbn [app]. plain. rewrite (word_addr ct m state Hm).
  eapply (reach_stlr lay prog ct _ (Word state)); [exact Hm|done|done| | |].
  { regs. by apply (word_addr ct m). }
  { regs. change (0 mod 256 ^ field_width (Word state)) with 0. apply sets_word. }
  intros mem Hmem. apply reach_here. split; [exact Hmem|]. same_regs.
Qed.

(** * The bucket *)

Definition bucket (task : Z) : nat :=
  Z.to_nat (Z.shiftl (Z.land (Z.shiftr task 6) (kPendingBucketCount - 1)) kPendingBucketWayShift).

Lemma bucket_ways_seq task : bucket_ways task = seq (bucket task) 8.
Proof. done. Qed.

Lemma bucket_value task :
  Z.of_nat (bucket task) = Z.shiftl (Z.land (Z.shiftr task 6) (kPendingBucketCount - 1)) kPendingBucketWayShift /\
  (bucket task + 8 <= 256)%nat.
Proof.
  unfold bucket. change (kPendingBucketCount - 1) with (Z.ones 5).
  rewrite Z.land_ones, Z.shiftl_mul_pow2 by (unfold kPendingBucketWayShift; lia).
  pose proof (Z.mod_pos_bound (Z.shiftr task 6) (2 ^ 5) ltac:(lia)).
  change (2 ^ kPendingBucketWayShift) with 8. lia.
Qed.

Lemma slot_addr_range ct m i :
  contains lay ct (m_mem m) -> (i < 256)%nat -> 0 <= slot_addr lay i /\ slot_addr lay i + 216 <= 2 ^ 64 - 16.
Proof.
  intros [[Hc _ _ _ _] _ _] Hi. unfold slot_addr, kSlotBytes.
  destruct offsets as (-> & _ & _ & _ & _ & _ & _ & Hbytes & _). rewrite Hbytes in Hc. lia.
Qed.

Lemma bucket_spec rest m ct :
  contains lay ct (m_mem m) -> m_reg m 27 = task_kaddr (ct_task ct) -> 0 <= task_kaddr (ct_task ct) < 2 ^ 64 ->
  reaches prog (bucket_code (context_kaddr lay) ++ rest) m rest
    (fun m' => m_mem m' = m_mem m /\ m_reg m' 15 = slot_addr lay (bucket (task_kaddr (ct_task ct))) /\
       same_but [12; 13; 15]%nat m m').
Proof.
  intros Hm H27 Htask. destruct (bucket_value (task_kaddr (ct_task ct))) as [Hb Hlt].
  pose proof (slot_addr_range ct m (bucket (task_kaddr (ct_task ct))) Hm ltac:(lia)) as Hrange.
  unfold bucket_code. cbn [app]. do 7 plain. apply reach_here. split; [done|]. split; [|same_regs].
  regs. rewrite H27, (u64_small (task_kaddr _)) by done. change (u64 6) with 6.
  change (u64 (kPendingBucketCount - 1)) with (kPendingBucketCount - 1).
  change (u64 kPendingBucketWayShift) with kPendingBucketWayShift. change (u64 kSlotBytes) with 216.
  assert (Hsr : 0 <= Z.shiftr (task_kaddr (ct_task ct)) 6 < 2 ^ 64).
  { rewrite Z.shiftr_div_pow2 by lia. split; [apply Z.div_pos; lia|apply Z.div_lt_upper_bound; lia]. }
  rewrite (u64_small (Z.shiftr _ _)) by done. set (v := Z.land _ _) in *.
  rewrite Z.shiftl_mul_pow2 in * by done. change (2 ^ kPendingBucketWayShift) with 8 in *.
  rewrite (u64_small v), (u64_small (v * 8)), (u64_small (v * 8 * 216)) by lia.
  unfold slot_addr, kSlotBytes in *. destruct (cn_layout _ _ _ Hm) as [Hc _ _ _ _].
  destruct offsets as (Ho & _ & _ & _ & _ & _ & _ & Hbytes & _). rewrite Ho in *. rewrite Hbytes in Hc.
  rewrite (u64_small (context_kaddr lay + _)) by lia. rewrite u64_small by lia. lia.
Qed.


(** A slot of the table. *)
Lemma slot_field_addr i offset ct m :
  contains lay ct (m_mem m) -> (i < 256)%nat -> m_reg m 15 = slot_addr lay i -> 0 <= offset < 216 ->
  u64 (u64 (m_reg m 15) + offset) = slot_addr lay i + offset.
Proof.
  intros Hm Hi H15 Ho. pose proof (slot_addr_range ct m i Hm ltac:(lia)) as Ha.
  rewrite H15, (u64_small (slot_addr _ _)) by lia. by rewrite u64_small by lia.
Qed.

(** The frame at depth [n], as the code computes its address. *)
Lemma frame_pointer i n ct m :
  contains lay ct (m_mem m) -> (i < 256)%nat -> 0 <= n < 4 ->
  u64 (u64 (slot_addr lay i) + u64 (u64 (u64 n * u64 kFrameBytes) + u64 24)) =
  slot_addr lay i + 24 + kFrameBytes * Z.of_nat (Z.to_nat n).
Proof.
  intros Hm Hi Hn. pose proof (slot_addr_range ct m i Hm Hi) as Ha.
  change (u64 kFrameBytes) with 48. change (u64 24) with 24. unfold kFrameBytes. rewrite Z2Nat.id by lia.
  rewrite (u64_small n), (u64_small (slot_addr _ _)) by lia.
  rewrite (u64_small (n * 48)) by lia. rewrite (u64_small (n * 48 + 24)) by lia. rewrite u64_small by lia. lia.
Qed.

Lemma frame_field_addr i j f r ct m :
  contains lay ct (m_mem m) -> (i < 256)%nat -> (j < 4)%nat ->
  m_reg m r = slot_addr lay i + 24 + kFrameBytes * Z.of_nat j ->
  u64 (u64 (m_reg m r) + frame_offset f) = field_addr lay (task_kaddr (ct_task ct)) (Frame i j f).
Proof.
  intros Hm Hi Hj Hr. pose proof (slot_addr_range ct m i Hm ltac:(lia)) as Ha. pose proof (frame_offset_place f) as Hf.
  rewrite Hr. unfold kFrameBytes. rewrite (u64_small (slot_addr _ _ + _ + _)) by lia.
  rewrite u64_small by lia. done.
Qed.

Lemma with_slot_twice i slot slot' ct : with_slot i slot (with_slot i slot' ct) = with_slot i slot ct.
Proof.
  unfold with_slot, with_ctx, set_pending. cbn. do 2 f_equal. apply list_insert_insert_eq.
Qed.

Lemma slot_at_with_slot i slot ct :
  (i < length (pending (ct_ctx ct)))%nat -> slot_at (pending (ct_ctx (with_slot i slot ct))) i = slot.
Proof. intros Hi. cbn. rewrite slot_at_insert by done. by rewrite decide_True. Qed.

End Fragments.

(** * A concrete machine *)

Definition demo_layout : layout :=
  {| context_kaddr := 2 ^ 40; scratch := 2 ^ 41; offset_pid := 1000; offset_tgid := 1004 |}.

Definition demo_contents (c : KernelCounterContext) : contents := {|
  ct_ctx := c; ct_task := demo_task; ct_td := demo_request;
  ct_scratch := fun w => if decide (w = kParcelFlags) then 1 else 0; ct_config_pointer := 0; ct_generation := 0;
  ct_area := [] |}.

(** x21 and x24 hold a correlation and a command, x23 the scratch, x26 an id, x27 the task. *)
Definition demo_machine (command : Z) (c : KernelCounterContext) : machine := {|
  m_reg := fun r => match r with 23%nat => 2 ^ 41 | 24%nat => command | 26%nat => 33 | 27%nat => 4096 | _ => 0 end;
  m_zero := false; m_carry := false; m_mem := memory_of demo_layout (demo_contents c); m_tries := [];
  m_current := 4096; m_user := fun _ _ => ([], 0); m_left := (0, (false, false)) |}.

Lemma demo_layout_ok : layout_ok demo_layout (task_kaddr demo_task).
Proof.
  split; unfold apart; rewrite ?(proj1 (proj2 (proj2 (proj2 (proj2 (proj2 (proj2 (proj2 offsets)))))))); cbn; [lia..| |lia].
  intros f [->| ->]; cbn; lia.
Qed.

Lemma demo_contains c :
  forallb (in_range (demo_contents c)) all_fields = true ->
  contains demo_layout (demo_contents c) (memory_of demo_layout (demo_contents c)).
Proof. apply contains_memory_of. exact demo_layout_ok. Qed.

(** The gate of a program with nothing but the two labels behind it. *)
Definition demo_gate : code :=
  hal_identity_gate_code (2 ^ 40) 1004 1 0 1 ++ [Bind 0%nat; Bind 1%nat].

Definition demo_identities_context : KernelCounterContext :=
  set_hal 0 [{| hs_count := 2; hs_generation := 1; hs_tgids := [650; 600; 0; 0] |}; zero_hal_set] zero_context.

Lemma emitted_gate_refines_witness :
  let m := demo_machine 0 demo_identities_context in
  reaches demo_gate demo_gate m [Bind 1%nat]
    (fun m' => m_mem m' = m_mem m /\ same_but [9; 10; 12; 13; 14; 15; 16; 17]%nat m m').
Proof.
  apply (emitted_gate_refines (lay := demo_layout) 0 1 [Bind 1%nat] [] 1 [Bind 0%nat; Bind 1%nat]
    (demo_machine 0 demo_identities_context) (demo_contents demo_identities_context));
    [reflexivity|reflexivity| |reflexivity|split; [discriminate|reflexivity]|split; [discriminate|reflexivity]].
  apply demo_contains. vm_compute. reflexivity.
Defined.
