(* ===== verification/EmittedPop.v ===== *)
(** The code emit_pending_pop makes, and that it does what the handler's operation does. *)

From S2P Require Import Prelude UserMemory KernelContext BinderWire Pending PendingFacts Aarch64 ContextLayout Emitted.

(** * The code *)


(** src/binder_hook_builder.cpp:463-470 [emit_pending_pop] *)
Definition pop_way_code (found : label) (way : nat) : code :=
  [Ldr 8 16 15 0; Cmp X 16 (Reg 27); BCond EQ found] ++
  (if (way + 1 <? Z.to_nat kPendingBucketWays)%nat then [Alu ADD X 15 15 (Imm kSlotBytes)] else []).

(** The values of the frame x14 points to, zeros when the generation has moved on. *)

(** src/binder_hook_builder.cpp:480-495 [emit_pending_pop] *)
Definition reply_code (base : Z) (ready : label) : code :=
  [Ldr 8 21 14 0; Ldr 4 17 14 40] ++ capture_active_hal_generation_code base ++
  [Ldr 8 9 23 440; Ldr 8 10 14 24; Cmp X 9 (Reg 10); BCond EQ ready; Mov X 21 (Reg 31); Mov X 17 (Reg 31)] ++
  counter_increment_code base pending_generation_stale ++ [Bind ready].

(** src/binder_hook_builder.cpp:496-499 [emit_pending_pop] *)
Definition free_code (release : label) : code := [Cbnz X 13 release; Stlr 8 31 15; B release].

(** From the slot's depth on: [miss], [release] and [ready] are labels. *)

(** src/binder_hook_builder.cpp:472-499 [emit_pending_pop] *)
Definition pop_found_code (base : Z) (miss release ready : label) : code :=
  [Ldr 4 13 15 16; Cbz X 13 miss; Alu SUB W 13 13 (Imm 1); Str 4 13 15 16;
   Mov X 12 (Imm kFrameBytes); Alu MUL X 14 13 (Reg 12); Alu ADD X 14 14 (Imm 24); Alu ADD X 14 15 (Reg 14)] ++
  reply_code base ready ++ free_code release.

(** src/binder_hook_builder.cpp:508-519 [emit_pending_pop] *)
Definition pop_release_code (base : Z) (terminal_reply : bool) (no_pop : label) : code :=
  [Cbz X 21 no_pop] ++
  counter_increment_code base (if terminal_reply then pending_terminal_pops else pending_pops) ++
  [Bind no_pop] ++ bounded_lock_release_code base pending_lock_state.

(** Labels: [found], [miss], [release], [done], three of the lock, [generation_ready] and
    [no_pop]. *)

(** src/binder_hook_builder.cpp:440-522 [emit_pending_pop] *)
Definition pending_pop_code (base : Z) (terminal_reply : bool) (fresh : label) : code :=
  let found := fresh in let miss := (fresh + 1)%nat in
  let release := (fresh + 2)%nat in let done := (fresh + 3)%nat in
  [Mov X 21 (Reg 31); Mov X 17 (Reg 31)] ++
  bounded_lock_acquire_code base pending_lock_state pending_lock_drops done (fresh + 4) ++
  bucket_code base ++
  flat_map (pop_way_code found) (seq 0 8) ++ [B miss; Bind found] ++
  pop_found_code base miss release (fresh + 7) ++
  [Bind miss] ++ counter_increment_code base pending_misses ++ [Bind release] ++
  pop_release_code base terminal_reply (fresh + 8) ++ [Bind done].

Section Pops.
Context {lay : layout} {prog : code}.
Implicit Types (m : machine) (ct : contents).

(** The search: x15 stops at the first way with the task. *)
Lemma pop_ways_spec found fd b k n rest m ct :
  find_label prog found = Some fd -> contains lay ct (m_mem m) -> (k + n = 8)%nat -> (b + 8 <= 256)%nat ->
  m_reg m 15 = slot_addr lay (b + k) -> m_reg m 27 = task_kaddr (ct_task ct) ->
  0 <= task_kaddr (ct_task ct) < 2 ^ 64 ->
  let way := find (fun i => ps_task_kaddr (slot_at (pending (ct_ctx ct)) i) =? task_kaddr (ct_task ct))
               (seq (b + k) n) in
  reaches prog (flat_map (pop_way_code found) (seq k n) ++ rest) m (if way is Some _ then fd else rest)
    (fun m' => m_mem m' = m_mem m /\ (forall i, way = Some i -> m_reg m' 15 = slot_addr lay i) /\
       same_but [15; 16]%nat m m').
Proof.
  intros Hfound Hm. revert k m Hm. induction n as [|n IH]; intros k m Hm Hk Hb H15 H27 Htask way.
  { apply reach_here. split; [done|]. split; [done|same_regs]. }
  pose proof (slot_addr_range ct m (b + k) Hm ltac:(lia)) as Hrange.
  pose proof (cell_range lay ct (m_mem m) (SlotTask (b + k)) Hm ltac:(cbn; lia)) as Hcell. cbn in Hcell.
  unfold way. cbn [seq flat_map find]. unfold pop_way_code at 1. rewrite <-!app_assoc. cbn [app].
  eapply (reach_ldr lay prog ct (SlotTask (b + k))); [exact Hm|cbn; lia|done| |].
  { regs. rewrite H15, (u64_small (slot_addr _ _)) by lia. rewrite u64_small by lia. cbn. lia. }
  cbn [field_get]. regs. plain. rewrite H27, !u64_small by lia.
  eapply reach_bcond; [exact Hfound|..]; regs; intros Heq; rewrite Heq.
  { apply reach_here. split; [done|]. split; [by intros i [= <-]|same_regs]. }
  replace (S (b + k)) with (b + S k)%nat by lia.
  destruct (Nat.ltb_spec (k + 1) (Z.to_nat kPendingBucketWays)) as [Hlt|Hge]; cbn [app].
  - plain. eapply reach_mono.
    + apply (IH (S k)); regs; try done; try lia. rewrite H15, (u64_small (slot_addr _ _)) by lia.
      change (u64 kSlotBytes) with kSlotBytes. unfold slot_addr, kSlotBytes in *. rewrite u64_small by lia. lia.
    + intros m' (Hmem & Hway & Hsame). split; [done|]. split; [done|].
      eapply same_but_trans; [|exact Hsame]. same_regs.
  - change (Z.to_nat kPendingBucketWays) with 8%nat in Hge. assert (n = 0%nat) as -> by lia.
    apply reach_here. split; [done|]. split; [done|same_regs].
Qed.

(** * The slot that was found *)

(** A slot without its task. *)
Definition freed (i : nat) ct : contents :=
  let slot := slot_at (pending (ct_ctx ct)) i in
  with_slot i (Build_BinderPendingSlot 0 (ps_pid slot) (ps_tgid slot) (ps_depth slot) (ps_frames slot)) ct.

Lemma free_spec i j frel release rest m ct :
  find_label prog release = Some frel ->
  contains lay ct (m_mem m) -> m_reg m 15 = slot_addr lay i -> (i < 256)%nat -> (j < 4)%nat ->
  length (pending (ct_ctx ct)) = 256%nat -> m_reg m 13 = Z.of_nat j ->
  reaches prog (free_code release ++ rest) m frel
    (fun m' => contains lay (if decide (j = 0%nat) then freed i ct else ct) (m_mem m') /\ same_but [] m m').
Proof.
  intros Hrel Hm H15 Hi Hj Hlen H13. unfold free_code. cbn [app].
  eapply reach_cbnz; [exact Hrel|..]; regs; rewrite H13, u64_small by lia; intros Hz.
  { rewrite decide_False by lia. apply reach_here. split; [done|same_regs]. }
  rewrite decide_True by lia.
  eapply (reach_stlr lay prog ct _ (SlotTask i)); [exact Hm|exact Hi|done| | |].
  { regs. pose proof (slot_addr_range ct m i Hm ltac:(lia)). rewrite H15. apply u64_small. cbn. lia. }
  { regs. change (0 mod 256 ^ field_width (SlotTask i)) with 0.
    apply (sets_slot ct i (SlotTask i) 0); [lia|]. split; reflexivity. }
  intros mem Hmem. eapply reach_jump; [exact Hrel|]. apply reach_here. split; [exact Hmem|same_regs].
Qed.

(** The contents when the reply's generation has been looked at. *)
Definition compared (frame : BinderPendingFrame) ct : contents :=
  let g := current_generation ct in
  let ct := with_generation g ct in
  if g =? pf_hal_identity_generation frame then ct else bump pending_generation_stale 1 ct.

Definition reply_of (frame : BinderPendingFrame) ct : Z * Z :=
  if current_generation ct =? pf_hal_identity_generation frame
  then (pf_request_event_id frame, pf_parcel_flags frame) else (0, 0).

(** The values of the frame, unless the generation has moved on. *)
Lemma reply_spec i j ready tail m ct :
  let frame := frame_at (slot_at (pending (ct_ctx ct)) i) (Z.of_nat j) in
  find_label prog ready = Some tail -> contains lay ct (m_mem m) -> m_reg m 23 = scratch lay ->
  (i < 256)%nat -> (j < 4)%nat -> m_reg m 14 = slot_addr lay i + 24 + kFrameBytes * Z.of_nat j ->
  reaches prog (reply_code (context_kaddr lay) ready ++ tail) m tail
    (fun m' => contains lay (compared frame ct) (m_mem m') /\
       (m_reg m' 21, m_reg m' 17) = reply_of frame ct /\ same_but [9; 10; 11; 17; 21; 31]%nat m m').
Proof.
  intros frame Hready Hm H23 Hi Hj H14. unfold reply_code. rewrite <-!app_assoc. cbn [app].
  eapply (reach_ldr lay prog ct (Frame i j FId)); [exact Hm|done|done|by apply (frame_field_addr i j FId)|].
  eapply (reach_ldr lay prog ct (Frame i j FParcelFlags));
    [exact Hm|done|done|by apply (frame_field_addr i j FParcelFlags)|].
  cbn [field_get frame_get]. fold frame. set (m1 := set_reg 17 _ _).
  eapply reach_trans; [by apply (capture_generation_code _ m1 ct)|].
  intros m2 [Hm2 (Hr & Ht & Hc)]. set (ct2 := with_generation _ ct) in *.
  assert (Hr2 : forall r, r ∉ [9; 10; 11]%nat -> m_reg m2 r = m_reg m1 r) by done.
  eapply (reach_ldr lay prog ct2 GenerationScratch); [exact Hm2|done|done| |].
  { regs. apply (scratch_addr ct2 m2 GenerationScratch); [done|done|]. by rewrite Hr2 by reg_solver. }
  eapply (reach_ldr lay prog ct2 (Frame i j FGeneration)); [exact Hm2|done|done| |].
  { apply (frame_field_addr i j FGeneration 14 ct2); [done..|]. regs. by rewrite Hr2 by reg_solver. }
  cbn [field_get frame_get ct_generation ct_ctx ct2 with_generation]. fold frame.
  pose proof (cell_range lay ct2 (m_mem m2) GenerationScratch Hm2 Logic.I) as Hg.
  pose proof (cell_range lay ct2 (m_mem m2) (Frame i j FGeneration) Hm2 ltac:(done)) as Hf. cbn in Hg, Hf.
  fold frame in Hf. plain. rewrite !u64_small by lia.
  assert (Hsame : same_but [9; 10; 11; 17; 21; 31]%nat m m2).
  { eapply (same_but_trans _ m m1); [unfold m1; same_regs|]. eapply same_but_more; [|by split; [exact Hr|]].
    reg_solver. }
  unfold compared, reply_of. eapply reach_bcond; [exact Hready|..]; regs; intros Heq; rewrite Heq.
  { apply reach_here. split; [exact Hm2|]. split; [regs; by rewrite !Hr by reg_solver|].
    eapply same_but_trans; [exact Hsame|same_regs]. }
  plain. plain. eapply reach_trans; [by apply (increment_code _ _ _ ct2)|].
  intros m3 [Hm3 Hsame3]. plain. apply reach_here. split; [exact Hm3|].
  split; [by rewrite !(proj1 Hsame3) by reg_solver|]. eapply same_but_trans; [exact Hsame|].
  eapply same_but_trans; [|eapply same_but_more; [|exact Hsame3]; reg_solver]. same_regs.
Qed.

(** The contents when the newest frame of slot [i] has been taken. *)
Definition newest (i : nat) ct : BinderPendingFrame :=
  let slot := slot_at (pending (ct_ctx ct)) i in frame_at slot (ps_depth slot - 1).

Definition popped (i : nat) ct : contents :=
  with_slot i (drop_frame (slot_at (pending (ct_ctx ct)) i)) (compared (newest i ct) ct).

(** One frame less on the stack of slot [i]. *)
Definition lowered (i : nat) ct : contents :=
  let slot := slot_at (pending (ct_ctx ct)) i in
  with_slot i (Build_BinderPendingSlot (ps_task_kaddr slot) (ps_pid slot) (ps_tgid slot) (ps_depth slot - 1)
                 (ps_frames slot)) ct.

Lemma compared_slot frame i slot ct : compared frame (with_slot i slot ct) = with_slot i slot (compared frame ct).
Proof.
  unfold compared. change (current_generation (with_slot i slot ct)) with (current_generation ct).
  by destruct (_ =? _).
Qed.

Lemma pending_compared frame ct : pending (ct_ctx (compared frame ct)) = pending (ct_ctx ct).
Proof. unfold compared. by destruct (_ =? _). Qed.

Lemma popped_eq i ct frame :
  (i < length (pending (ct_ctx ct)))%nat -> frame = newest i ct ->
  1 <= ps_depth (slot_at (pending (ct_ctx ct)) i) ->
  (if decide (Z.to_nat (ps_depth (slot_at (pending (ct_ctx ct)) i) - 1) = 0%nat)
   then freed i (compared frame (lowered i ct)) else compared frame (lowered i ct)) = popped i ct.
Proof.
  intros Hi -> Hd. unfold lowered, freed. rewrite compared_slot.
  assert (Hat : forall slot, slot_at (pending (ct_ctx (with_slot i slot (compared (newest i ct) ct)))) i = slot)
    by (intros slot; apply slot_at_with_slot; by rewrite pending_compared).
  unfold popped. destruct (decide _) as [Hz|Hz].
  - rewrite Hat, with_slot_twice. f_equal. unfold drop_frame. cbn. by rewrite (proj2 (Z.eqb_eq _ _)) by lia.
  - f_equal. unfold drop_frame. cbn. by rewrite (proj2 (Z.eqb_neq _ _)) by lia.
Qed.

Lemma found_spec i d fmiss frel miss release ready rest m ct :
  find_label prog miss = Some fmiss -> find_label prog release = Some frel ->
  find_label prog ready = Some (free_code release ++ rest) ->
  contains lay ct (m_mem m) -> m_reg m 23 = scratch lay -> m_reg m 15 = slot_addr lay i ->
  (i < 256)%nat -> length (pending (ct_ctx ct)) = 256%nat ->
  d = ps_depth (slot_at (pending (ct_ctx ct)) i) -> 0 <= d <= 4 ->
  reaches prog (pop_found_code (context_kaddr lay) miss release ready ++ rest) m
    (if d =? 0 then fmiss else frel)
    (fun m' => contains lay (if d =? 0 then ct else popped i ct) (m_mem m') /\
       (if d =? 0 then m_reg m' 21 = m_reg m 21 /\ m_reg m' 17 = m_reg m 17
        else (m_reg m' 21, m_reg m' 17) = reply_of (newest i ct) ct) /\
       same_but [9; 10; 11; 12; 13; 14; 17; 21; 31]%nat m m').
Proof.
  intros Hmiss Hrel Hready Hm H23 H15 Hi Hlen Hd Hrange.
  unfold pop_found_code. rewrite <-!app_assoc. cbn [app].
  eapply (reach_ldr lay prog ct (SlotDepth i)); [exact Hm|exact Hi|done|by eapply slot_field_addr|].
  cbn [field_get]. rewrite <-Hd. eapply reach_cbz; [exact Hmiss|..]; regs; rewrite (u64_small d) by lia;
    intros Hz; rewrite Hz; [apply reach_here; split; [done|]; split; [done|same_regs]|].
  apply Z.eqb_neq in Hz. plain. rewrite (u32_small d) by lia. change (u32 1) with 1.
  rewrite (u32_small (d - 1)) by lia.
  eapply (reach_str lay prog ct (lowered i ct) (SlotDepth i)); [exact Hm|exact Hi|done|by eapply slot_field_addr| |].
  { regs. rewrite (u64_small (d - 1)), Z.mod_small by (cbn; lia). rewrite Hd. by apply sets_slot; [lia|]. }
  intros mem Hmem. regs. do 4 plain. set (m1 := set_reg 14 _ _).
  set (j := Z.to_nat (d - 1)). assert (Hjd : Z.of_nat j = d - 1) by lia.
  assert (H14 : m_reg m1 14 = slot_addr lay i + 24 + kFrameBytes * Z.of_nat j).
  { unfold m1. regs. rewrite H15. apply (frame_pointer i (d - 1) ct m); done || lia. }
  assert (Hframe : frame_at (slot_at (pending (ct_ctx (lowered i ct))) i) (Z.of_nat j) = newest i ct).
  { unfold lowered. rewrite slot_at_with_slot by lia. unfold newest. by rewrite Hjd, Hd. }
  eapply reach_trans; [apply (reply_spec i j ready _ m1 (lowered i ct)); done || lia|].
  rewrite Hframe. intros m2 (Hm2 & Hreply & Hsame).
  eapply reach_mono; [apply (free_spec i j frel release rest m2 (compared (newest i ct) (lowered i ct))); try done|].
  - rewrite (proj1 Hsame) by reg_solver. exact H15.
  - lia.
  - rewrite pending_compared. cbn. by rewrite length_insert.
  - rewrite (proj1 Hsame) by reg_solver. by rewrite Hjd.
  - intros m3 [Hm3 Hsame3]. split; [|split].
    + rewrite <-(popped_eq i ct (newest i ct)) by (done || lia). by rewrite <-Hd.
    + rewrite !(proj1 Hsame3) by reg_solver. exact Hreply.
    + eapply same_but_trans; [|eapply same_but_more; [|exact Hsame3]; reg_solver].
      eapply same_but_trans; [|eapply same_but_more; [|exact Hsame]; reg_solver]. unfold m1. same_regs.
Qed.

(** * The end of a pop, and a whole pop *)

Definition pop_counter (terminal : bool) : ctx_word := if terminal then pending_terminal_pops else pending_pops.

(** The counter of the pops, for a pop with an id, and the lock given back. *)
Definition counted (terminal : bool) (id : Z) ct : contents :=
  let ct := if id =? 0 then ct else bump (pop_counter terminal) 1 ct in
  with_ctx (put_word pending_lock_state 0 (ct_ctx ct)) ct.

Lemma release_spec terminal no_pop rest m ct :
  find_label prog no_pop = Some (bounded_lock_release_code (context_kaddr lay) pending_lock_state ++ rest) ->
  contains lay ct (m_mem m) -> 0 <= m_reg m 21 < 2 ^ 64 ->
  reaches prog (pop_release_code (context_kaddr lay) terminal no_pop ++ rest) m rest
    (fun m' => contains lay (counted terminal (m_reg m 21) ct) (m_mem m') /\ same_but [9; 10; 31]%nat m m').
Proof.
  intros Hno Hm H21. unfold pop_release_code. rewrite <-!app_assoc. cbn [app].
  eapply reach_cbz; [exact Hno|..]; regs; rewrite u64_small by done; intros Hz; unfold counted; rewrite Hz.
  - eapply reach_mono; [by apply lock_release_spec|]. intros m' [Hm' Hs]. split; [exact Hm'|].
    eapply same_but_more; [|exact Hs]. reg_solver.
  - eapply reach_trans; [by apply increment_code|]. intros m1 [Hm1 Hs1]. plain.
    eapply reach_mono; [by apply lock_release_spec|]. intros m' [Hm' Hs]. split; [exact Hm'|].
    eapply same_but_trans; [exact Hs1|]. eapply same_but_more; [|exact Hs]. reg_solver.
Qed.

(** What stands behind the label [miss]. *)
Definition pop_tail (base : Z) (terminal : bool) (fresh : label) : code :=
  counter_increment_code base pending_misses ++ [Bind (fresh + 2)%nat] ++
  pop_release_code base terminal (fresh + 8) ++ [Bind (fresh + 3)%nat].

(** What the lock protects. *)
Definition pop_search (base : Z) (terminal : bool) (fresh : label) : code :=
  bucket_code base ++ flat_map (pop_way_code fresh) (seq 0 8) ++ [B (fresh + 1)%nat; Bind fresh] ++
  pop_found_code base (fresh + 1) (fresh + 2) (fresh + 7) ++ [Bind (fresh + 1)%nat] ++ pop_tail base terminal fresh.

Section Pop.
Context (terminal : bool) (fresh : label) (before after : code).
#[local] Abbreviation base := (context_kaddr lay).
Context (Hprog : prog = before ++ pending_pop_code base terminal fresh ++ after).
Context (Hfresh : forall l, l ∈ binds before -> (l < fresh)%nat).

Lemma pop_label l target :
  (fresh <= l)%nat -> find_label (pending_pop_code base terminal fresh) l = Some target ->
  find_label prog l = Some (target ++ after).
Proof.
  intros Hl Hfind. rewrite Hprog, find_label_skip by (intros Hin; apply Hfresh in Hin; lia).
  by apply find_label_app.
Qed.

Lemma pop_labels :
  let c := pending_pop_code base terminal fresh in
  let search := pop_search base terminal fresh in
  let retry := lock_retry_code base pending_lock_drops (fresh + 3) (fresh + 4) in
  find_label c fresh = Some (pop_found_code base (fresh + 1) (fresh + 2) (fresh + 7) ++
    [Bind (fresh + 1)%nat] ++ pop_tail base terminal fresh) /\
  find_label c (fresh + 1) = Some (pop_tail base terminal fresh) /\
  find_label c (fresh + 2) = Some (pop_release_code base terminal (fresh + 8) ++ [Bind (fresh + 3)%nat]) /\
  find_label c (fresh + 3) = Some [] /\
  find_label c (fresh + 4) = Some (retry ++ search) /\
  find_label c (S (fresh + 4)) = Some (drop 5 retry ++ search) /\
  find_label c (S (S (fresh + 4))) = Some search /\
  find_label c (fresh + 7) = Some (free_code (fresh + 2) ++ [Bind (fresh + 1)%nat] ++ pop_tail base terminal fresh) /\
  find_label c (fresh + 8) =
    Some (bounded_lock_release_code base pending_lock_state ++ [Bind (fresh + 3)%nat]).
Proof.
  intros c search retry. unfold c.
  repeat split; unfold pending_pop_code, pop_way_code; change (Z.to_nat kPendingBucketWays) with 8%nat;
    cbn -[Nat.eqb word_offset];
    find_solver.
Qed.

#[local] Abbreviation task ct := (task_kaddr (ct_task ct)).

(** Under the lock: the contents and the reply. *)
Definition pop_body ct : contents * (Z * Z) :=
  match find_task (pending (ct_ctx ct)) (task ct) with
  | Some i => if ps_depth (slot_at (pending (ct_ctx ct)) i) =? 0 then (bump pending_misses 1 ct, (0, 0))
              else (popped i ct, reply_of (newest i ct) ct)
  | None => (bump pending_misses 1 ct, (0, 0))
  end.

Lemma pop_end_spec ct id flags m :
  contains lay ct (m_mem m) -> 0 <= id < 2 ^ 64 -> m_reg m 21 = id -> m_reg m 17 = flags ->
  reaches prog ((pop_release_code base terminal (fresh + 8) ++ [Bind (fresh + 3)%nat]) ++ after) m after
    (fun m' => contains lay (counted terminal id ct) (m_mem m') /\ (m_reg m' 21, m_reg m' 17) = (id, flags) /\
       same_but [9; 10; 31]%nat m m').
Proof.
  intros Hm Hid H21 H17. rewrite <-app_assoc.
  destruct pop_labels as (_ & _ & _ & _ & _ & _ & _ & _ & H8).
  eapply reach_trans; [apply (release_spec terminal _ _ m ct); [|done|by rewrite H21]|].
  { rewrite app_assoc. by apply (pop_label (fresh + 8)); [lia|]. }
  intros m1 [Hm1 Hs]. cbn [app]. plain. apply reach_here. rewrite H21 in Hm1. split; [exact Hm1|].
  split; [|exact Hs]. by rewrite !(proj1 Hs), H21, H17 by reg_solver.
Qed.

Lemma pop_miss_spec ct m :
  contains lay ct (m_mem m) -> m_reg m 21 = 0 -> m_reg m 17 = 0 ->
  reaches prog (pop_tail base terminal fresh ++ after) m after
    (fun m' => contains lay (counted terminal 0 (bump pending_misses 1 ct)) (m_mem m') /\
       (m_reg m' 21, m_reg m' 17) = (0, 0) /\ same_but [9; 10; 31]%nat m m').
Proof.
  intros Hm H21 H17. unfold pop_tail. rewrite <-!app_assoc.
  eapply reach_trans; [by apply increment_code|]. intros m1 [Hm1 Hs1]. cbn [app]. plain.
  eapply reach_mono; [pose proof (pop_end_spec _ 0 0 m1 Hm1) as Hend; rewrite <-app_assoc in Hend; apply Hend|].
  - done.
  - by rewrite (proj1 Hs1) by reg_solver.
  - by rewrite (proj1 Hs1) by reg_solver.
  - intros m' (Hm' & Hreply & Hs). split; [exact Hm'|]. split; [exact Hreply|]. by eapply same_but_trans.
Qed.

Lemma table_entry_ok ct i :
  pending_wf (pending (ct_ctx ct)) -> 0 < task ct -> find_task (pending (ct_ctx ct)) (task ct) = Some i ->
  (i < 256)%nat /\ length (pending (ct_ctx ct)) = 256%nat /\
  1 <= ps_depth (slot_at (pending (ct_ctx ct)) i) <= 4.
Proof.
  intros Hwf Htask [Hin Hat]%find_task_Some. pose proof (bucket_ways_lt _ _ Hin) as Hi.
  pose proof (pw_length _ Hwf) as Hlen. change (Z.to_nat kPendingSlotCapacity) with 256%nat in *.
  unfold task_at in Hat. destruct (pw_slot _ Hwf i ltac:(lia)) as [_ Hslot].
  destruct Hslot as [Hd _]; [lia|]. unfold kPendingDepth in Hd. lia.
Qed.

Lemma reply_id_range ct i m :
  contains lay ct (m_mem m) -> (i < 256)%nat -> 1 <= ps_depth (slot_at (pending (ct_ctx ct)) i) <= 4 ->
  0 <= (reply_of (newest i ct) ct).1 < 2 ^ 64.
Proof.
  intros Hm Hi Hd. unfold reply_of. destruct (_ =? _); [|done]. cbn [fst].
  set (d := ps_depth _) in Hd.
  pose proof (cell_range lay ct (m_mem m) (Frame i (Z.to_nat (d - 1)) FId) Hm ltac:(cbn; lia)) as Hr.
  cbn [field_get frame_get] in Hr. rewrite Z2Nat.id in Hr by lia. exact Hr.
Qed.

Lemma pop_search_spec ct m :
  contains lay ct (m_mem m) -> pending_wf (pending (ct_ctx ct)) -> 0 < task ct < 2 ^ 64 ->
  m_reg m 27 = task ct -> m_reg m 23 = scratch lay -> m_reg m 21 = 0 -> m_reg m 17 = 0 ->
  reaches prog (pop_search base terminal fresh ++ after) m after
    (fun m' => contains lay (counted terminal (pop_body ct).2.1 (pop_body ct).1) (m_mem m') /\
       (m_reg m' 21, m_reg m' 17) = (pop_body ct).2 /\
       same_but [9; 10; 11; 12; 13; 14; 15; 16; 17; 21; 31]%nat m m').
Proof.
  intros Hm Hwf Htask H27 H23 H21 H17. destruct pop_labels as (Hfound & Hmiss & Hrel & _ & _ & _ & _ & Hready & _).
  apply pop_label in Hfound, Hmiss, Hrel, Hready; [|lia..].
  unfold pop_search. rewrite <-!app_assoc. 
  eapply reach_trans; [apply (bucket_spec _ m ct); (done || lia)|]. intros m1 (Hmem1 & H15 & Hs1).
  rewrite <-Hmem1 in Hm. destruct (bucket_value (task ct)) as [_ Hb].
  eapply reach_trans; [apply (pop_ways_spec fresh _ (bucket (task ct)) 0 8 _ m1 ct Hfound Hm); try done; try lia|].
  { by rewrite Nat.add_0_r. }
  { by rewrite (proj1 Hs1) by reg_solver. }
  rewrite Nat.add_0_r, <-bucket_ways_seq.
  change (find _ (bucket_ways (task ct))) with (find_task (pending (ct_ctx ct)) (task ct)).
  intros m2 (Hmem2 & Hway & Hs2). rewrite <-Hmem2 in Hm.
  assert (Hs : same_but [12; 13; 15; 16]%nat m m2).
  { eapply same_but_trans; (eapply same_but_more; [|eassumption]); reg_solver. }
  unfold pop_body. destruct (find_task _ _) as [i|] eqn:Ei; [|].
  - destruct (table_entry_ok ct i Hwf ltac:(lia) Ei) as (Hi & Hlen & Hd).
    set (d := ps_depth _) in *. rewrite <-!app_assoc in Hready |- *. eapply reach_trans.
    + apply (found_spec i d _ _ _ _ _ _ m2 ct Hmiss Hrel Hready Hm); [|by apply Hway|done|done|done|lia].
      by rewrite (proj1 Hs) by reg_solver.
    + rewrite (proj2 (Z.eqb_neq d 0)) by lia. intros m3 (Hm3 & Hreply & Hs3).
      pose proof (reply_id_range ct i m2 Hm Hi Hd) as Hid. cbn [fst snd].
      destruct (reply_of (newest i ct) ct) as [id flags]. injection Hreply as H21' H17'. cbn [fst] in *.
      eapply reach_mono; [by apply (pop_end_spec (popped i ct) id flags m3)|].
      intros m' (Hm' & Hr & Hs4). split; [exact Hm'|]. split; [exact Hr|].
      eapply same_but_trans; [eapply same_but_more; [|exact Hs]; reg_solver|].
      eapply same_but_trans; (eapply same_but_more; [|eassumption]); reg_solver.
  - cbn [app fst snd]. eapply reach_jump; [exact Hmiss|].
    eapply reach_mono; [apply (pop_miss_spec ct m2 Hm); by rewrite (proj1 Hs) by reg_solver|].
    intros m' (Hm' & Hr & Hs4). split; [exact Hm'|]. split; [exact Hr|].
    eapply same_but_trans; (eapply same_but_more; [|eassumption]); reg_solver.
Qed.

(** * A pop as the handler's operation *)

Lemma with_generation_same ct : with_generation (ct_generation ct) ct = ct.
Proof. by destruct ct. Qed.

Section Handler.
Context {U : Type} `{UserAccess U}.

(** Under the lock, the operation is the body. *)
Lemma pop_run ct (s : hstate U) :
  h_ctx s = ct_ctx ct ->
  let taken := lock_tries kMapLockTryCount (kc_words (ct_ctx ct) pending_lock_state) (hd [] (h_locks s)) in
  let held := with_ctx (put_word pending_lock_state 1 (ct_ctx ct)) ct in
  let run := emit_pending_pop (ct_task ct) terminal s in
  run.1 = (if taken then (pop_body held).2 else (0, 0)) /\
  h_ctx run.2 = ct_ctx (if taken then counted terminal (pop_body held).2.1 (pop_body held).1
                        else bump pending_lock_drops 1 ct).
Proof.
  destruct s as [c mem parcel locks]. intros Hs. cbn [h_ctx] in Hs. subst c.
  intros taken held run.
  unfold run, emit_pending_pop, emit_pending_lock_acquire, emit_bounded_lock_acquire.
  unfold mbind, HM_bind, mret, HM_ret, h_get, h_modify, h_lock_script. cbn -[lock_tries kMapLockTryCount].
  change (lock_tries _ _ _) with taken.
  destruct taken; [cbn|split; reflexivity]. unfold pop_body, find_task.
  change (pending (ct_ctx held)) with (pending (ct_ctx ct)). cbn [ct_task held with_ctx].
  destruct (find _ _) as [i|]; cbn; [|done]. destruct (ps_depth _ =? 0) eqn:Ed; cbn; [done|].
  unfold emit_capture_active_hal_generation, h_get. cbn.
  change (active_hal (put_word pending_lock_state 1 (ct_ctx ct))) with (active_hal (ct_ctx ct)).
  unfold popped, compared, reply_of, newest, counted, current_generation, active_hal. cbn.
  destruct (hs_generation _ =? _); cbn; [|split; reflexivity].
  destruct (pf_request_event_id _ =? 0); split; reflexivity.
Qed.

(** Outside the context only the scratch generation moves. *)
Lemma counted_generation ct :
  exists g, counted terminal (pop_body ct).2.1 (pop_body ct).1 =
    with_generation g (with_ctx (ct_ctx (counted terminal (pop_body ct).2.1 (pop_body ct).1)) ct).
Proof.
  destruct ct. unfold pop_body, counted. destruct (find_task _ _) as [i|]; [destruct (ps_depth _ =? 0)|];
    try (eexists; reflexivity). unfold popped, compared.
  destruct (_ =? pf_hal_identity_generation _), (_ =? 0); eexists; reflexivity.
Qed.

(** C15: a pop as machine code does what the handler's operation does, on a machine that
    holds any context with a well-formed table in memory, for any task, whatever the
    exclusive accesses to the lock meet, and wherever in a program the code stands. The
    run comes to the code behind it; memory then holds the context the operation leaves
    (the lock given back if it was taken, the newest frame of the task gone, the counters
    moved), x21 and x17 are the reply it returns, and no register has changed but the
    scratch ones. *)
Theorem emitted_pop_refines ct (s : hstate U) m :
  contains lay ct (m_mem m) -> tries_ok (m_tries m) -> pending_wf (pending (ct_ctx ct)) -> 0 < task ct < 2 ^ 64 ->
  m_reg m 27 = task ct -> m_reg m 23 = scratch lay ->
  h_ctx s = ct_ctx ct -> hd [] (h_locks s) = m_tries m ->
  let run := emit_pending_pop (ct_task ct) terminal s in
  reaches prog (pending_pop_code base terminal fresh ++ after) m after
    (fun m' => (exists g, contains lay (with_generation g (with_ctx (h_ctx run.2) ct)) (m_mem m')) /\
       (m_reg m' 21, m_reg m' 17) = run.1 /\
       kept [9; 10; 11; 12; 13; 14; 15; 16; 17; 21; 31]%nat m m').
Proof.
  intros Hm Htries Hwf Htask H27 H23 Hctx Hscript run.
  destruct (pop_run ct s Hctx) as [Hreply Hfinal]. fold run in Hreply, Hfinal. rewrite Hscript in Hreply, Hfinal.
  destruct pop_labels as (_ & _ & _ & Hdone & Hretry & Hbusy & Hacquired & _).
  apply pop_label in Hdone, Hretry, Hbusy, Hacquired; [|lia..]. rewrite <-!app_assoc in Hretry, Hbusy.
  set (m1 := set_reg 17 0 (set_reg 21 0 m)).
  assert (Hstart : forall target Q, reaches prog (bounded_lock_acquire_code base pending_lock_state pending_lock_drops
    (fresh + 3) (fresh + 4) ++ pop_search base terminal fresh ++ after) m1 target Q ->
    reaches prog (pending_pop_code base terminal fresh ++ after) m target Q).
  { intros target Q Hr. unfold pending_pop_code. rewrite <-app_assoc. cbn [app]. plain. plain.
    unfold pop_search, pop_tail in Hr. rewrite <-!app_assoc in Hr |- *. exact Hr. }
  apply Hstart. eapply reach_trans.
  { by apply (lock_acquire_spec pending_lock_state pending_lock_drops (fresh + 3) (fresh + 4) ([] ++ after) _ m1 ct). }
  change (m_tries m1) with (m_tries m). set (taken := lock_tries _ _ _) in *. intros m2 [Hm2 Hk2].
  assert (Hk : kept [9; 10; 11; 12; 13; 14; 15; 16; 17; 21; 31]%nat m m2).
  { eapply (kept_trans _ m m1); [eapply (kept_same [17; 21]%nat); [unfold m1; same_regs|reg_solver]|].
    eapply kept_more; [|exact Hk2]. reg_solver. }
  destruct taken.
  - set (held := with_ctx _ ct) in *. eapply reach_mono.
    { apply (pop_search_spec held m2 Hm2 Hwf Htask).
      - by rewrite (proj1 Hk) by reg_solver.
      - by rewrite (proj1 Hk) by reg_solver.
      - by rewrite (proj1 Hk2) by reg_solver.
      - by rewrite (proj1 Hk2) by reg_solver. }
    intros m' (Hm' & Hr & Hs'). split; [|split; [by rewrite Hreply|]].
    + destruct (counted_generation held) as [g Hg]. exists g. rewrite Hfinal. rewrite Hg in Hm'. exact Hm'.
    + eapply kept_trans; [exact Hk|]. eapply kept_same; [exact Hs'|]. reg_solver.
  - apply reach_here. split; [|split; [|exact Hk]].
    + exists (ct_generation ct). rewrite Hfinal. exact Hm2.
    + rewrite Hreply, !(proj1 Hk2) by reg_solver. done.
Qed.

End Handler.

End Pop.

End Pops.

(** A pop alone, of the request that demo_pushed remembers. *)
Definition demo_pop : code := pending_pop_code (2 ^ 40) false 0.

Lemma emitted_pop_refines_witness :
  let m := demo_machine 0 (h_ctx demo_pushed) in
  reaches demo_pop demo_pop m [] (fun m' => (m_reg m' 21, m_reg m' 17) = (33, 1)).
Proof.
  eapply reach_mono.
  - rewrite <-(app_nil_r demo_pop) at 2.
    apply (emitted_pop_refines (lay := demo_layout) (prog := demo_pop) false 0 [] [] eq_refl)
      with (ct := demo_contents (h_ctx demo_pushed)) (s := demo_pushed).
    + intros l Hl. by apply elem_of_nil in Hl.
    + apply demo_contains. vm_compute. reflexivity.
    + constructor.
    + exact demo_pushed_wf.
    + split; reflexivity.
    + reflexivity.
    + reflexivity.
    + reflexivity.
    + reflexivity.
  - intros m' (_ & Hreply & _). rewrite Hreply. vm_compute. reflexivity.
Defined.
