(* ===== verification/EmittedScan.v ===== *)
(** The scan of a bucket as emit_pending_push emits it, a way at a time, and that it
    ends where the handler's scan does. *)

From S2P Require Import Prelude UserMemory KernelContext BinderWire Pending PendingFacts Aarch64 ContextLayout Emitted.

(** * The code *)

(** The four labels of a way are [l] (next), [l + 1] (remember_empty), [l + 2]
    (consider_oldest) and [l + 3] (remember_oldest). *)

(** src/binder_hook_builder.cpp:321-361 [emit_pending_push] *)
Definition push_way_code (off_pid off_tgid : Z) (found reclaim : label) (l : label) : code :=
  [Ldr 8 16 15 0; Cbz X 16 (l + 1); Cmp X 16 (Reg 27); BCond NE (l + 2);
   Ldr 4 12 15 8; Ldr 4 11 27 off_pid; Cmp W 12 (Reg 11); BCond NE reclaim;
   Ldr 4 12 15 12; Ldr 4 11 27 off_tgid; Cmp W 12 (Reg 11); BCond EQ found; B reclaim] ++
  [Bind (l + 2); Mov X 9 (Reg 31); Ldr 4 11 15 16; Cbz W 11 (l + 3); Alu SUB W 11 11 (Imm 1);
   Mov X 12 (Imm kFrameBytes); Alu MUL X 12 11 (Reg 12); Alu ADD X 12 12 (Imm 24); Alu ADD X 12 15 (Reg 12);
   Ldr 8 9 12 0; Cbz X 10 (l + 3); Cmp X 9 (Reg 17); BCond HS l] ++
  [Bind (l + 3); Mov X 10 (Reg 15); Mov X 17 (Reg 9); B l] ++
  [Bind (l + 1); Cbnz X 14 l; Mov X 14 (Reg 15); Bind l]%nat.

(** The way and the step to the one behind it. *)

(** src/binder_hook_builder.cpp:320-365 [emit_pending_push] *)
Definition push_ways_code (off_pid off_tgid : Z) (found reclaim first : label) (way : nat) : code :=
  push_way_code off_pid off_tgid found reclaim (first + 4 * way) ++
  (if (way + 1 <? Z.to_nat kPendingBucketWays)%nat then [Alu ADD X 15 15 (Imm kSlotBytes)] else []).

(** * One way *)

Inductive way_outcome :=
  | WFound
  | WReclaim
  | WNext (empty oldest : option nat) (oldest_id : Z).

(** A slot of another task: its newest request against the oldest so far. *)
Definition considered (slot : BinderPendingSlot) (i : nat) (oldest : option nat) (oldest_id : Z) : option nat * Z :=
  if ps_depth slot =? 0 then (Some i, 0)
  else
    let id := pf_request_event_id (frame_at slot (ps_depth slot - 1)) in
    match oldest with
    | None => (Some i, id)
    | Some _ => if oldest_id <=? id then (oldest, oldest_id) else (Some i, id)
    end.

Definition way_outcome_of (task : TaskStruct) (slots : list BinderPendingSlot) (i : nat)
    (empty oldest : option nat) (oldest_id : Z) : way_outcome :=
  let slot := slot_at slots i in
  if ps_task_kaddr slot =? 0 then WNext (match empty with Some e => Some e | None => Some i end) oldest oldest_id
  else if ps_task_kaddr slot =? task_kaddr task then
    if ps_pid slot =? task_pid task then if ps_tgid slot =? task_tgid task then WFound else WReclaim else WReclaim
  else let c := considered slot i oldest oldest_id in WNext empty c.1 c.2.

Lemma push_scan_way task slots i ways empty oldest oldest_id :
  push_scan task slots (i :: ways) empty oldest oldest_id =
  match way_outcome_of task slots i empty oldest oldest_id with
  | WFound => PushFound i
  | WReclaim => PushReclaim i
  | WNext empty oldest oldest_id => push_scan task slots ways empty oldest oldest_id
  end.
Proof.
  cbn [push_scan]. unfold way_outcome_of, considered.
  repeat (destruct (_ =? _); [try reflexivity|try reflexivity]).
  destruct oldest; [|done]. by destruct (_ <=? _).
Qed.

Section Scan.
Context {lay : layout} {prog : code}.
Implicit Types (m : machine) (ct : contents).

#[local] Abbreviation base := (context_kaddr lay).
#[local] Abbreviation table ct := (pending (ct_ctx ct)).

(** The address of a slot, zero for none. *)
Definition opt_addr (o : option nat) : Z := match o with Some i => slot_addr lay i | None => 0 end.

Lemma task_field_addr f ct m :
  contains lay ct (m_mem m) -> m_reg m 27 = task_kaddr (ct_task ct) -> 0 <= task_kaddr (ct_task ct) < 2 ^ 64 ->
  f = TaskPid \/ f = TaskTgid ->
  u64 (u64 (m_reg m 27) + (if decide (f = TaskPid) then offset_pid lay else offset_tgid lay)) =
  field_addr lay (task_kaddr (ct_task ct)) f.
Proof.
  intros Hm H27 Ht Hf. rewrite H27, (u64_small (task_kaddr _)) by done.
  destruct (lo_task _ _ (cn_layout _ _ _ Hm) f Hf) as (Hr & Hr' & _).
  destruct Hf as [->| ->]; [rewrite decide_True by done|rewrite decide_False by done]; cbn [field_addr] in *;
    apply u64_small; lia.
Qed.

(** What the registers of the scan stand for. *)
Record scanning (ct : contents) (i : nat) (empty oldest : option nat) (oldest_id : Z) (m : machine) : Prop := {
  sc_mem : contains lay ct (m_mem m);
  sc_task : m_reg m 27 = task_kaddr (ct_task ct);
  sc_slot : m_reg m 15 = slot_addr lay i;
  sc_empty : m_reg m 14 = opt_addr empty;
  sc_oldest : m_reg m 10 = opt_addr oldest;
  sc_id : m_reg m 17 = oldest_id;
}.

Definition candidates_ok (empty oldest : option nat) (oldest_id : Z) : Prop :=
  (forall i, empty = Some i -> (i < 256)%nat) /\ (forall i, oldest = Some i -> (i < 256)%nat) /\
  0 <= oldest_id < 2 ^ 64.

Lemma opt_addr_zero ct m o :
  contains lay ct (m_mem m) -> (forall i, o = Some i -> (i < 256)%nat) ->
  (u64 (opt_addr o) =? 0) = match o with Some _ => false | None => true end.
Proof.
  intros Hm Ho. destruct o as [i|]; [|done]. cbn [opt_addr].
  pose proof (slot_addr_range ct m i Hm (Ho i eq_refl)) as Hr. rewrite u64_small by lia.
  apply Z.eqb_neq. destruct (cn_layout _ _ _ Hm) as [Hc _ _ _ _]. unfold slot_addr, kSlotBytes in *.
  destruct offsets as (Hoff & _). rewrite Hoff. lia.
Qed.

Section Way.
Context (found reclaim l : label) (cf cr rest : code).
#[local] Abbreviation way := (push_way_code (offset_pid lay) (offset_tgid lay) found reclaim l).
Context (Hfound : find_label prog found = Some cf) (Hreclaim : find_label prog reclaim = Some cr).
Context (Hnext : find_label prog l = Some rest).
Context (Hempty : find_label prog (l + 1) = Some (drop 31 way ++ rest)).
Context (Hconsider : find_label prog (l + 2) = Some (drop 14 way ++ rest)).
Context (Holdest : find_label prog (l + 3) = Some (drop 27 way ++ rest)).

(** An empty way is remembered when it is the first. *)
Lemma remember_empty_spec ct i empty oldest oldest_id m :
  scanning ct i empty oldest oldest_id m -> candidates_ok empty oldest oldest_id -> (i < 256)%nat ->
  reaches prog (drop 31 way ++ rest) m rest (fun m' => m_mem m' = m_mem m /\
    scanning ct i (match empty with Some e => Some e | None => Some i end) oldest oldest_id m' /\
    same_but [14]%nat m m').
Proof.
  intros [Hm H27 H15 H14 H10 H17] (He & _ & _) Hi. cbn [drop push_way_code app].
  eapply reach_cbnz; [exact Hnext|..]; regs; rewrite H14, (opt_addr_zero ct m) by done; intros Hz.
  - destruct empty as [e|]; [|done]. apply reach_here. split; [done|]. split; [by split|same_regs].
  - destruct empty as [e|]; [done|]. plain. plain. apply reach_here. split; [done|]. split; [|same_regs].
    split; regs; try done. rewrite H15. pose proof (slot_addr_range ct m i Hm Hi). cbn [opt_addr]. apply u64_small. lia.
Qed.

(** The way becomes the candidate of the eviction. *)
Lemma remember_oldest_spec ct i empty oldest oldest_id id m :
  scanning ct i empty oldest oldest_id m -> (i < 256)%nat -> m_reg m 9 = id -> 0 <= id < 2 ^ 64 ->
  reaches prog (drop 27 way ++ rest) m rest (fun m' => m_mem m' = m_mem m /\
    scanning ct i empty (Some i) id m' /\ same_but [10; 17]%nat m m').
Proof.
  intros [Hm H27 H15 H14 H10 H17] Hi H9 Hid. cbn [drop push_way_code app]. plain. plain.
  eapply reach_jump; [exact Hnext|]. apply reach_here. split; [done|]. split; [|same_regs].
  pose proof (slot_addr_range ct m i Hm Hi).
  split; regs; try done; rewrite ?H15, ?H9; cbn [opt_addr]; apply u64_small; lia.
Qed.

(** The task's own slot, or one another thread has left at its address. *)
Lemma same_task_spec ct i m target Q :
  contains lay ct (m_mem m) -> m_reg m 27 = task_kaddr (ct_task ct) -> 0 <= task_kaddr (ct_task ct) < 2 ^ 64 ->
  m_reg m 15 = slot_addr lay i -> (i < 256)%nat ->
  let slot := slot_at (table ct) i in
  let own := (ps_pid slot =? task_pid (ct_task ct)) && (ps_tgid slot =? task_tgid (ct_task ct)) in
  (forall m', m_mem m' = m_mem m -> same_but [11; 12]%nat m m' -> reaches prog (if own then cf else cr) m' target Q) ->
  reaches prog (skipn 4 (take 13 way) ++ drop 13 way ++ rest) m target Q.
Proof.
  intros Hm H27 Ht H15 Hi slot own Hend. cbn [skipn take drop push_way_code app].
  pose proof (cell_range lay ct (m_mem m) (SlotPid i) Hm Hi) as Hpid.
  pose proof (cell_range lay ct (m_mem m) (SlotTgid i) Hm Hi) as Htgid.
  pose proof (cell_range lay ct (m_mem m) TaskPid Hm Logic.I) as Htp.
  pose proof (cell_range lay ct (m_mem m) TaskTgid Hm Logic.I) as Htt. cbn in Hpid, Htgid, Htp, Htt.
  fold slot in Hpid, Htgid.
  eapply (reach_ldr lay prog ct (SlotPid i)); [exact Hm|exact Hi|done|by eapply slot_field_addr|].
  eapply (reach_ldr lay prog ct TaskPid); [exact Hm|done|done|apply (task_field_addr TaskPid ct); auto|].
  cbn [field_get]. fold slot. plain. rewrite !u32_small by lia.
  eapply reach_bcond; [exact Hreclaim|..]; regs; intros Hp.
  { apply negb_true_iff in Hp. unfold own in Hend. rewrite Hp in Hend. apply Hend; [done|same_regs]. }
  apply negb_false_iff in Hp. unfold own in Hend. rewrite Hp in Hend.
  eapply (reach_ldr lay prog ct (SlotTgid i)); [exact Hm|exact Hi|done|by eapply slot_field_addr|].
  eapply (reach_ldr lay prog ct TaskTgid); [exact Hm|done|done|apply (task_field_addr TaskTgid ct); auto|].
  cbn [field_get]. fold slot. plain. rewrite !u32_small by lia.
  eapply reach_bcond; [exact Hfound|..]; regs; intros Hg; rewrite Hg in Hend.
  - apply Hend; [done|same_regs].
  - eapply reach_jump; [exact Hreclaim|]. apply Hend; [done|same_regs].
Qed.

Lemma consider_spec ct i empty oldest oldest_id m :
  scanning ct i empty oldest oldest_id m -> candidates_ok empty oldest oldest_id -> (i < 256)%nat ->
  ps_depth (slot_at (table ct) i) <= 4 ->
  reaches prog (drop 14 way ++ rest) m rest (fun m' => m_mem m' = m_mem m /\
    (let c := considered (slot_at (table ct) i) i oldest oldest_id in scanning ct i empty c.1 c.2 m') /\ same_but [9; 10; 11; 12; 17]%nat m m').
Proof.
  intros [Hm H27 H15 H14 H10 H17] (_ & Ho & Hid) Hi Hdepth. cbv zeta. set (slot := slot_at _ _) in *.
  pose proof (cell_range lay ct (m_mem m) (SlotDepth i) Hm Hi) as Hd. cbn in Hd. fold slot in Hd.
  pose proof (slot_addr_range ct m i Hm Hi) as Ha.
  assert (Hweak : forall m1 id, m_mem m1 = m_mem m -> same_but [9; 11; 12]%nat m m1 -> m_reg m1 9 = id ->
    0 <= id < 2 ^ 64 -> reaches prog (drop 27 way ++ rest) m1 rest (fun m' => m_mem m' = m_mem m /\
      scanning ct i empty (Some i) id m' /\ same_but [9; 10; 11; 12; 17]%nat m m')).
  { intros m1 id Hmem Hs H9 Hr. eapply reach_mono.
    - eapply (remember_oldest_spec ct i empty oldest oldest_id id m1); [|done|done|done].
      split; rewrite ?Hmem, ?(proj1 Hs) by reg_solver; done.
    - intros m' (Hmem' & Hsc & Hs'). split; [by rewrite Hmem', Hmem|]. split; [done|].
      eapply same_but_trans; (eapply same_but_more; [|eassumption]); reg_solver. }
  unfold considered. cbn [drop push_way_code app]. plain.
  eapply (reach_ldr lay prog ct (SlotDepth i)); [exact Hm|exact Hi|done|by eapply slot_field_addr|].
  cbn [field_get]. fold slot. eapply reach_cbz; [exact Holdest|..]; regs; rewrite u32_small by lia; intros Hz; rewrite Hz.
  { by apply Hweak; [|same_regs| |]. }
  apply Z.eqb_neq in Hz. do 5 plain. change (u32 1) with 1. set (j := Z.to_nat (ps_depth slot - 1)).
  set (m1 := set_reg 12 _ _).
  assert (H12 : m_reg m1 12 = slot_addr lay i + 24 + kFrameBytes * Z.of_nat j).
  { unfold m1. regs. rewrite H15, (u32_small (ps_depth slot)), (u32_small (ps_depth slot - 1)) by lia.
    apply (frame_pointer i _ ct m); done || lia. }
  eapply (reach_ldr lay prog ct (Frame i j FId)); [exact Hm|cbn; lia|done|apply (frame_field_addr i j FId 12 ct); done || lia|].
  pose proof (cell_range lay ct (m_mem m) (Frame i j FId) Hm ltac:(cbn; lia)) as Hr.
  cbn [field_get frame_get] in Hr |- *. change (256 ^ _) with (2 ^ 64) in Hr. fold slot in Hr |- *. unfold j in Hr |- *. rewrite Z2Nat.id in Hr |- * by lia.
  set (id := pf_request_event_id _) in *. assert (Hs1 : same_but [9; 11; 12]%nat m m1) by (unfold m1; same_regs).
  assert (H1 : forall r, r ∉ [9; 11; 12]%nat -> m_reg m1 r = m_reg m r) by exact (proj1 Hs1).
  assert (Hs2 : same_but [9; 11; 12]%nat m (set_reg 9 id m1)) by (eapply same_but_trans; [exact Hs1|same_regs]).
  eapply reach_cbz; [exact Holdest|..]; regs; rewrite H1, H10 by reg_solver; rewrite (opt_addr_zero ct m) by done; intros Hn.
  { destruct oldest as [o|]; [done|]. by apply Hweak. }
  destruct oldest as [o|]; [|done]. plain. rewrite H1, H17 by reg_solver. rewrite !u64_small by lia.
  eapply reach_bcond; [exact Hnext|..]; regs; intros Hle; rewrite Hle.
  - apply reach_here. split; [done|].
    split; [split; regs; by rewrite ?H1 by reg_solver|]. eapply same_but_more; [|exact Hs2]. reg_solver.
  - plain. by apply Hweak.
Qed.

Lemma scanning_kept ct i empty oldest oldest_id rs m m' :
  m_mem m' = m_mem m -> same_but rs m m' -> (forall r, r ∈ [10; 14; 15; 17; 27]%nat -> r ∉ rs) ->
  scanning ct i empty oldest oldest_id m -> scanning ct i empty oldest oldest_id m'.
Proof.
  intros Hmem (Hr & _) Hin [Hm H27 H15 H14 H10 H17].
  split; rewrite ?Hmem, ?Hr by (apply Hin; reg_solver); done.
Qed.

(** A whole way does what one step of the scan does. *)
Lemma way_spec ct i empty oldest oldest_id m :
  scanning ct i empty oldest oldest_id m -> candidates_ok empty oldest oldest_id -> (i < 256)%nat ->
  0 <= task_kaddr (ct_task ct) < 2 ^ 64 ->
  (ps_task_kaddr (slot_at (table ct) i) <> 0 -> ps_depth (slot_at (table ct) i) <= 4) ->
  let outcome := way_outcome_of (ct_task ct) (table ct) i empty oldest oldest_id in
  reaches prog (way ++ rest) m (match outcome with WFound => cf | WReclaim => cr | WNext _ _ _ => rest end)
    (fun m' => m_mem m' = m_mem m /\
       match outcome with WNext e o id => scanning ct i e o id m' | _ => True end /\
       same_but [9; 10; 11; 12; 14; 16; 17]%nat m m').
Proof.
  intros Hsc Hok Hi Htask Hdepth outcome. pose proof Hsc as [Hm H27 H15 _ _ _].
  pose proof (cell_range lay ct (m_mem m) (SlotTask i) Hm Hi) as Hst. cbn in Hst.
  unfold outcome, way_outcome_of. cbn zeta. set (slot := slot_at _ _) in *.
  change (way ++ rest) with (Ldr 8 16 15 0 :: Cbz X 16 (l + 1) :: Cmp X 16 (Reg 27) :: BCond NE (l + 2) ::
    (skipn 4 (take 13 way) ++ drop 13 way ++ rest))%nat.
  eapply (reach_ldr lay prog ct (SlotTask i)); [exact Hm|exact Hi|done| |].
  { regs. rewrite (slot_field_addr i 0 ct m Hm Hi H15) by lia. cbn. lia. }
  cbn [field_get]. fold slot. set (m1 := set_reg 16 _ m).
  assert (Hs1 : same_but [16]%nat m m1) by (unfold m1; same_regs).
  assert (Hsc1 : scanning ct i empty oldest oldest_id m1).
  { eapply scanning_kept; [| |  |exact Hsc]; [done|exact Hs1|]. reg_solver. }
  eapply reach_cbz; [exact Hempty|..]; unfold m1 at 1; regs; rewrite u64_small by lia; intros Hz; rewrite Hz.
  { eapply reach_mono; [apply (remember_empty_spec ct i empty oldest oldest_id m1); [exact Hsc1|exact Hok|exact Hi]|].
    intros m' (Hmem & Hsc' & Hs'). split; [done|]. split; [done|].
    eapply same_but_trans; (eapply same_but_more; [|eassumption]); reg_solver. }
  apply Z.eqb_neq in Hz. specialize (Hdepth Hz). plain. change (m_reg m1 16) with (ps_task_kaddr slot). rewrite (sc_task _ _ _ _ _ _ Hsc1), !u64_small by lia.
  eapply reach_bcond; [exact Hconsider|..]; regs; intros Hne.
  - apply negb_true_iff in Hne. rewrite Hne. set (m2 := compare _ _ _).
    eapply reach_mono; [apply (consider_spec ct i empty oldest oldest_id m2); [destruct Hsc1; by split|exact Hok|exact Hi|exact Hdepth]|].
    intros m' (Hmem & Hsc' & Hs'). split; [done|]. split; [exact Hsc'|].
    eapply same_but_trans; (eapply same_but_more; [|eassumption]); reg_solver.
  - apply negb_false_iff in Hne. rewrite Hne.
    eapply (same_task_spec ct i); [done|exact (sc_task _ _ _ _ _ _ Hsc1)|done|exact (sc_slot _ _ _ _ _ _ Hsc1)|done|].
    fold slot. intros m' Hmem Hs'. destruct (ps_pid slot =? _); [destruct (ps_tgid slot =? _)|]; cbn [andb];
      apply reach_here; (split; [done|]); (split; [done|]);
      eapply same_but_trans; (eapply same_but_more; [|eassumption]); reg_solver.
Qed.

End Way.

(** * The eight ways *)

Lemma outcome_ok ct i empty oldest oldest_id m e o id :
  contains lay ct (m_mem m) -> candidates_ok empty oldest oldest_id -> (i < 256)%nat ->
  (ps_task_kaddr (slot_at (table ct) i) <> 0 -> ps_depth (slot_at (table ct) i) <= 4) ->
  way_outcome_of (ct_task ct) (table ct) i empty oldest oldest_id = WNext e o id -> candidates_ok e o id.
Proof.
  intros Hm (He & Ho & Hid) Hi Hdepth. unfold way_outcome_of, considered. set (slot := slot_at _ _) in *.
  destruct (Z.eqb_spec (ps_task_kaddr slot) 0) as [|Hz].
  { intros [= <- <- <-]. split; [|done]. intros j. destruct empty; naive_solver. }
  specialize (Hdepth Hz). destruct (_ =? task_kaddr _); [by repeat destruct (_ =? _)|].
  pose proof (cell_range lay ct (m_mem m) (SlotDepth i) Hm Hi) as Hd. cbn in Hd. fold slot in Hd.
  destruct (Z.eqb_spec (ps_depth slot) 0) as [|Hd0].
  { intros [= <- <- <-]. split; [done|]. split; [naive_solver|lia]. }
  pose proof (cell_range lay ct (m_mem m) (Frame i (Z.to_nat (ps_depth slot - 1)) FId) Hm ltac:(cbn; lia)) as Hr.
  cbn [field_get frame_get] in Hr. change (256 ^ _) with (2 ^ 64) in Hr. fold slot in Hr. rewrite Z2Nat.id in Hr by lia.
  destruct oldest as [o'|]; [destruct (_ <=? _)|]; intros [= <- <- <-]; (split; [done|]); split; try done; naive_solver.
Qed.

#[local] Abbreviation ways_code := (push_ways_code (offset_pid lay) (offset_tgid lay)).

Lemma way_labels found reclaim l pre rest :
  prog = pre ++ push_way_code (offset_pid lay) (offset_tgid lay) found reclaim l ++ rest ->
  (forall l', l' ∈ binds pre -> (l' < l)%nat) ->
  let way := push_way_code (offset_pid lay) (offset_tgid lay) found reclaim l in
  find_label prog l = Some rest /\ find_label prog (l + 1) = Some (drop 31 way ++ rest) /\
  find_label prog (l + 2) = Some (drop 14 way ++ rest) /\ find_label prog (l + 3) = Some (drop 27 way ++ rest).
Proof.
  intros -> Hpre way.
  assert (Hfind : forall l' target, (l <= l')%nat -> find_label way l' = Some target ->
    find_label (pre ++ way ++ rest) l' = Some (target ++ rest)).
  { intros l' target Hl Hf. rewrite find_label_skip by (intros Hin; apply Hpre in Hin; lia). by apply find_label_app. }
  repeat split; [change (Some rest) with (Some ([] ++ rest))|..]; apply Hfind; try lia;
    unfold way, push_way_code; cbn -[Nat.eqb]; find_solver.
Qed.

Lemma binds_app (c1 c2 : code) : binds (c1 ++ c2) = binds c1 ++ binds c2.
Proof. apply omap_app. Qed.

Lemma binds_ways found reclaim first k l :
  l ∈ binds (ways_code found reclaim first k) -> (l < first + 4 * S k)%nat.
Proof.
  unfold push_ways_code. rewrite binds_app, elem_of_app. intros [Hin|Hin].
  - cbn in Hin. repeat (apply elem_of_cons in Hin as [->|Hin]; [lia|]). by apply elem_of_nil in Hin.
  - destruct (k + 1 <? _)%nat; by apply elem_of_nil in Hin.
Qed.

(** The step to the next way, if there is one. *)
Lemma next_way_spec k b ct empty oldest oldest_id rest m :
  (k <= 7)%nat -> (b + 8 <= 256)%nat -> scanning ct (b + k) empty oldest oldest_id m ->
  reaches prog ((if (k + 1 <? Z.to_nat kPendingBucketWays)%nat then [Alu ADD X 15 15 (Imm kSlotBytes)] else []) ++ rest)
    m rest (fun m' => m_mem m' = m_mem m /\ scanning ct (b + min (S k) 7) empty oldest oldest_id m' /\
      same_but [15]%nat m m').
Proof.
  intros Hk Hb Hsc. change (Z.to_nat kPendingBucketWays) with 8%nat.
  destruct (Nat.ltb_spec (k + 1) 8) as [Hlt|Hge]; cbn [app].
  - destruct Hsc as [Hm H27 H15 H14 H10 H17]. replace (min (S k) 7) with (S k) by lia.
    pose proof (slot_addr_range ct m (b + k) Hm ltac:(lia)) as Ha.
    plain. apply reach_here. split; [done|]. split; [|same_regs]. split; regs; try done.
    rewrite H15, (u64_small (slot_addr _ _)) by lia. change (u64 kSlotBytes) with 216.
    rewrite u64_small by lia. unfold slot_addr, kSlotBytes. lia.
  - apply reach_here. split; [done|]. replace (min (S k) 7) with k by lia. split; [done|same_regs].
Qed.

(** Where the scan goes, and what it leaves in the registers. *)
Definition scan_target (t : push_target) (cf cr rest : code) : code :=
  match t with PushFound _ => cf | PushReclaim _ => cr | _ => rest end.

Definition scan_regs (t : push_target) (m : machine) : Prop :=
  match t with
  | PushFound i | PushReclaim i => m_reg m 15 = slot_addr lay i
  | PushEmpty i => m_reg m 14 = slot_addr lay i
  | PushEvict i => m_reg m 14 = 0 /\ m_reg m 10 = slot_addr lay i
  | PushNowhere => True
  end.

Lemma push_ways_spec found reclaim first cf cr rest b n k pre ct empty oldest oldest_id m :
  find_label prog found = Some cf -> find_label prog reclaim = Some cr ->
  prog = pre ++ flat_map (ways_code found reclaim first) (seq k n) ++ rest ->
  (forall l, l ∈ binds pre -> (l < first + 4 * k)%nat) -> (k + n = 8)%nat -> (b + 8 <= 256)%nat ->
  scanning ct (b + min k 7) empty oldest oldest_id m -> candidates_ok empty oldest oldest_id ->
  0 <= task_kaddr (ct_task ct) < 2 ^ 64 ->
  (forall i, (i < 256)%nat -> ps_task_kaddr (slot_at (table ct) i) <> 0 -> ps_depth (slot_at (table ct) i) <= 4) ->
  let t := push_scan (ct_task ct) (table ct) (seq (b + k) n) empty oldest oldest_id in
  reaches prog (flat_map (ways_code found reclaim first) (seq k n) ++ rest) m (scan_target t cf cr rest)
    (fun m' => m_mem m' = m_mem m /\ scan_regs t m' /\ same_but [9; 10; 11; 12; 14; 15; 16; 17]%nat m m').
Proof.
  intros Hfound Hreclaim. revert k pre empty oldest oldest_id m.
  induction n as [|n IH]; intros k pre empty oldest oldest_id m Hprog Hpre Hk Hb Hsc Hok Htask Hdepth t.
  { unfold t. destruct Hsc as [_ _ _ H14 H10 _].
    destruct empty, oldest; apply reach_here; (split; [done|]); (split; [done|same_regs]). }
  unfold t. cbn [seq flat_map]. rewrite push_scan_way. replace (min k 7) with k in Hsc by lia.
  cbn [seq flat_map] in Hprog. unfold push_ways_code at 1 in Hprog. unfold push_ways_code at 1.
  rewrite <-!app_assoc in Hprog |- *.
  destruct (way_labels found reclaim (first + 4 * k) pre _ Hprog Hpre) as (Hnext & He & Hc & Ho).
  eapply reach_trans.
  { apply (way_spec found reclaim (first + 4 * k) cf cr _ Hfound Hreclaim Hnext He Hc Ho ct (b + k) empty oldest oldest_id);
      [exact Hsc|exact Hok|lia|exact Htask|apply Hdepth; lia]. }
  intros m1 (Hmem & Houtcome & Hs1).
  destruct (way_outcome_of _ _ _ _ _ _) as [| |e o id] eqn:Eout.
  1, 2: apply reach_here; (split; [done|]); (split; [|eapply same_but_more; [|exact Hs1]; reg_solver]);
    cbn [scan_regs]; rewrite (proj1 Hs1) by reg_solver; exact (sc_slot _ _ _ _ _ _ Hsc).
  eapply reach_trans; [apply (next_way_spec k b ct e o id _ m1); [lia|exact Hb|exact Houtcome]|].
  intros m2 (Hmem2 & Hsc2 & Hs2). replace (S (b + k)) with (b + S k)%nat by lia. eapply reach_mono.
  - apply (IH (S k) (pre ++ ways_code found reclaim first k) e o id m2); [|..|done|done].
    + rewrite Hprog. unfold push_ways_code at 2. by rewrite <-!app_assoc.
    + intros l. rewrite binds_app, elem_of_app. intros [Hin|Hin]; [apply Hpre in Hin; lia|by apply binds_ways in Hin].
    + lia.
    + exact Hb.
    + exact Hsc2.
    + eapply (outcome_ok ct (b + k)); [exact (sc_mem _ _ _ _ _ _ Hsc)|exact Hok|lia|apply Hdepth; lia|exact Eout].
  - intros m' (Hmem' & Hregs & Hs'). split; [congruence|]. split; [exact Hregs|].
    eapply same_but_trans; [eapply same_but_more; [|exact Hs1]; reg_solver|].
    eapply same_but_trans; (eapply same_but_more; [|eassumption]); reg_solver.
Qed.

End Scan.
