(* ===== verification/EmittedPush.v ===== *)
(** The code emit_pending_push makes, and that it does what the handler's operation does. *)

From S2P Require Import Prelude UserMemory KernelContext BinderWire Pending PendingFacts Aarch64 ContextLayout Emitted EmittedScan.

(** * The code *)

(** src/binder_hook_builder.cpp:383-388 [emit_pending_push] *)
Definition claim_code (off_pid off_tgid : Z) : code :=
  [Str 8 27 15 0; Ldr 4 11 27 off_pid; Str 4 11 15 8; Ldr 4 12 27 off_tgid; Str 4 12 15 12; Str 4 31 15 16].

(** The rest of the frame, the depth and the counter. *)

(** src/binder_hook_builder.cpp:405-419 [emit_pending_push] *)
Definition append_rest_code (base : Z) : code :=
  capture_active_hal_generation_code base ++
  [Ldr 8 16 23 440; Str 8 16 14 24; Ldr 4 16 23 32; Str 4 16 14 32; Ldr 4 16 23 36; Str 4 16 14 36;
   Ldr 4 16 23 348; Str 4 16 14 40; Str 4 31 14 44; Alu ADD W 13 13 (Imm 1); Str 4 13 15 16] ++
  counter_increment_code base pending_pushes.

(** src/binder_hook_builder.cpp:393-419 [emit_pending_push] *)
Definition append_code (base : Z) (overflow : label) : code :=
  [Ldr 4 13 15 16; Cmp X 13 (Imm kPendingDepth); BCond HS overflow;
   Mov X 12 (Imm kFrameBytes); Alu MUL X 14 13 (Reg 12); Alu ADD X 14 14 (Imm 24); Alu ADD X 14 15 (Reg 14);
   Str 8 26 14 0; Ldr 8 16 23 16; Str 8 16 14 8; Ldr 8 16 23 48; Str 8 16 14 16] ++ append_rest_code base.

(** Labels: [ignored_oneway], [found], [reclaim_identity], [use_empty], [claim],
    [claimed], [overflow], [release], [done], three of the lock and four of each way. *)

(** src/binder_hook_builder.cpp:287-435 [emit_pending_push] *)
Definition pending_push_code (base off_pid off_tgid : Z) (fresh : label) : code :=
  let ignored_oneway := fresh in let found := (fresh + 1)%nat in let reclaim_identity := (fresh + 2)%nat in
  let use_empty := (fresh + 3)%nat in let claim := (fresh + 4)%nat in let claimed := (fresh + 5)%nat in
  let overflow := (fresh + 6)%nat in let release := (fresh + 7)%nat in let done := (fresh + 8)%nat in
  [Ldr 4 11 23 36; Tbnz 11 0 ignored_oneway] ++
  bounded_lock_acquire_code base pending_lock_state pending_lock_drops done (fresh + 9) ++
  bucket_code base ++ [Mov X 14 (Reg 31); Mov X 10 (Reg 31); Mov X 17 (Imm UINT64_MAX)] ++
  flat_map (push_ways_code off_pid off_tgid found reclaim_identity (fresh + 12)) (seq 0 8) ++
  [Cbnz X 14 use_empty; Mov X 15 (Reg 10)] ++ counter_increment_code base pending_collisions ++
  [B claim; Bind reclaim_identity] ++ counter_increment_code base pending_collisions ++
  [B claim; Bind use_empty; Mov X 15 (Reg 14); Bind claim] ++ claim_code off_pid off_tgid ++
  [B claimed; Bind found; Bind claimed] ++ append_code base overflow ++
  [B release; Bind overflow] ++ counter_increment_code base pending_overflows ++
  [Bind release] ++ bounded_lock_release_code base pending_lock_state ++
  [B done; Bind ignored_oneway] ++ counter_increment_code base pending_oneway_ignored ++ [Bind done].

Section Push.
Context {lay : layout} {prog : code}.
Implicit Types (m : machine) (ct : contents).

#[local] Abbreviation base := (context_kaddr lay).
#[local] Abbreviation table ct := (pending (ct_ctx ct)).
#[local] Abbreviation ways_code := (push_ways_code (offset_pid lay) (offset_tgid lay)).

(** * The slot is claimed, the frame written *)

Lemma with_slot_id i ct : with_slot i (slot_at (table ct) i) ct = ct.
Proof.
  destruct ct as [c ? ? ? ? ?]. unfold with_slot, with_ctx, set_pending, slot_at. cbn. f_equal. destruct c. cbn.
  f_equal. destruct (_ !! i) as [slot|] eqn:E; cbn; [by apply list_insert_id|].
  apply list_insert_ge. by apply lookup_ge_None.
Qed.

Lemma sets_slot_again ct i f v slot slot' :
  (i < length (table ct))%nat -> slot_sets slot i f v slot' -> sets (with_slot i slot ct) f v (with_slot i slot' ct).
Proof.
  intros Hi Hf. rewrite <-(with_slot_twice i slot' slot ct). apply sets_slot.
  - cbn. by rewrite length_insert.
  - by rewrite slot_at_with_slot.
Qed.

Lemma sets_frame_again ct i j f v slot frame :
  (i < length (table ct))%nat -> (j < length (ps_frames slot))%nat -> (f = FReserved -> v = 0) ->
  sets (with_slot i (with_frame j frame slot) ct) (Frame i j f) v
    (with_slot i (with_frame j (frame_sets frame f v) slot) ct).
Proof.
  intros Hi Hj Hv.
  pose proof (sets_frame (with_slot i (with_frame j frame slot) ct) i j f v) as Hsets. cbn zeta in Hsets.
  rewrite slot_at_with_slot in Hsets by done. rewrite with_slot_twice in Hsets.
  unfold frame_at in Hsets. cbn [with_frame ps_frames] in Hsets. rewrite Nat2Z.id, list_lookup_insert_eq in Hsets by done.
  change (default zero_frame (Some frame)) with frame in Hsets. replace (with_frame j (frame_sets frame f v) (with_frame j frame slot)) with
    (with_frame j (frame_sets frame f v) slot) in Hsets.
  - apply Hsets; [cbn; by rewrite length_insert|by rewrite length_insert|done].
  - unfold with_frame. cbn. by rewrite list_insert_insert_eq.
Qed.

(** The slot becomes the task's. *)
Lemma claim_spec ct i rest m :
  contains lay ct (m_mem m) -> m_reg m 15 = slot_addr lay i -> m_reg m 27 = task_kaddr (ct_task ct) ->
  0 <= task_kaddr (ct_task ct) < 2 ^ 64 -> (i < 256)%nat -> length (table ct) = 256%nat ->
  reaches prog (claim_code (offset_pid lay) (offset_tgid lay) ++ rest) m rest
    (fun m' => contains lay (with_slot i (claim_slot (ct_task ct) (slot_at (table ct) i)) ct) (m_mem m') /\
       same_but [11; 12]%nat m m').
Proof.
  intros Hm H15 H27 Htask Hi Hlen. set (slot := slot_at (table ct) i).
  pose proof (cell_range lay ct (m_mem m) TaskPid Hm Logic.I) as Htp.
  pose proof (cell_range lay ct (m_mem m) TaskTgid Hm Logic.I) as Htt. cbn in Htp, Htt.
  rewrite <-(with_slot_id i ct) in Hm. fold slot in Hm. set (ct0 := with_slot i slot ct) in Hm.
  unfold claim_code. cbn [app].
  eapply (reach_str lay prog ct0 _ (SlotTask i)); [exact Hm|exact Hi|done| | |].
  { regs. rewrite (slot_field_addr i 0 ct0 m Hm Hi H15) by lia. cbn. lia. }
  { regs. rewrite H27, u64_small, Z.mod_small by (cbn; lia). apply sets_slot_again; [lia|split; reflexivity]. }
  intros mem1 Hm1. set (ct1 := with_slot i _ ct) in Hm1.
  eapply (reach_ldr lay prog ct1 TaskPid); [exact Hm1|done|done|apply (task_field_addr TaskPid ct1); auto|].
  eapply (reach_str lay prog ct1 _ (SlotPid i)); [exact Hm1|exact Hi|done|by apply (slot_field_addr i 8 ct1)| |].
  { regs. cbn [field_get]. rewrite u64_small, Z.mod_small by (cbn; lia). apply sets_slot_again; [lia|split; reflexivity]. }
  intros mem2 Hm2. set (ct2 := with_slot i _ ct) in Hm2.
  eapply (reach_ldr lay prog ct2 TaskTgid); [exact Hm2|done|done|apply (task_field_addr TaskTgid ct2); auto|].
  eapply (reach_str lay prog ct2 _ (SlotTgid i)); [exact Hm2|exact Hi|done|by apply (slot_field_addr i 12 ct2)| |].
  { regs. cbn [field_get]. rewrite u64_small, Z.mod_small by (cbn; lia). apply sets_slot_again; [lia|split; reflexivity]. }
  intros mem3 Hm3. set (ct3 := with_slot i _ ct) in Hm3.
  eapply (reach_str lay prog ct3 _ (SlotDepth i)); [exact Hm3|exact Hi|done|by apply (slot_field_addr i 16 ct3)| |].
  { regs. rewrite Z.mod_small by (cbn; lia). apply sets_slot_again; [lia|split; reflexivity]. }
  intros mem4 Hm4. apply reach_here. split; [exact Hm4|same_regs].
Qed.

Section Append.
Context (i j : nat) (slot : BinderPendingSlot) (m0 : machine).
Context (Hi : (i < 256)%nat) (Hj : (j < 4)%nat) (Hframes : length (ps_frames slot) = 4%nat).

(** The registers of the append: x13 the depth, x14 the frame, x15 the slot. *)
Record appending (m : machine) : Prop := {
  ap_scratch : m_reg m 23 = scratch lay;
  ap_slot : m_reg m 15 = slot_addr lay i;
  ap_frame : m_reg m 14 = slot_addr lay i + 24 + kFrameBytes * Z.of_nat j;
  ap_depth : m_reg m 13 = Z.of_nat j;
  ap_same : same_but [9; 10; 11; 12; 13; 14; 16; 31]%nat m0 m;
}.

Lemma appending_step m m' : appending m -> same_but [9; 10; 11; 16]%nat m m' -> appending m'.
Proof.
  intros [H23 H15 H14 H13 Hs] Hs'. split; rewrite ?(proj1 Hs') by reg_solver; try done.
  eapply same_but_trans; [exact Hs|]. eapply same_but_more; [|exact Hs']. reg_solver.
Qed.

#[local] Abbreviation writing frame ct := (with_slot i (with_frame j frame slot) ct).

Lemma frame_str ct frame f v bytes offset w rest m target Q :
  contains lay (writing frame ct) (m_mem m) -> length (table ct) = 256%nat -> appending m ->
  bytes = frame_width f -> offset = frame_offset f ->
  rd m X w mod 256 ^ frame_width f = v -> (f = FReserved -> v = 0) ->
  (forall m', contains lay (writing (frame_sets frame f v) ct) (m_mem m') -> appending m' -> same_but [] m m' ->
     reaches prog rest m' target Q) ->
  reaches prog (Str bytes w 14 offset :: rest) m target Q.
Proof.
  intros Hm Hlen Hap -> -> Hv Hr Hnext.
  eapply (reach_str lay prog (writing frame ct) _ (Frame i j f)); [exact Hm|done|done| | |].
  - apply (frame_field_addr i j f 14 (writing frame ct)); [done..|exact (ap_frame _ Hap)].
  - cbn [field_width]. rewrite Hv. apply sets_frame_again; [lia|lia|exact Hr].
  - intros mem Hmem. apply Hnext; [exact Hmem| |same_regs]. eapply appending_step; [exact Hap|same_regs].
Qed.

(** A field of the scratch goes to the frame by x16. *)
Lemma copy_field ct frame g f bytes from to rest m target Q :
  contains lay (writing frame ct) (m_mem m) -> length (table ct) = 256%nat -> appending m ->
  parser_word g = true -> bytes = frame_width f -> field_width g = frame_width f -> f <> FReserved ->
  from = scratch_offset g -> to = frame_offset f ->
  (forall m', contains lay (writing (frame_sets frame f (field_get ct g)) ct) (m_mem m') -> appending m' ->
     same_but [16]%nat m m' -> reaches prog rest m' target Q) ->
  reaches prog (Ldr bytes 16 23 from :: Str bytes 16 14 to :: rest) m target Q.
Proof.
  intros Hm Hlen Hap Hg -> Hw Hf -> -> Hnext.
  assert (Hok : field_ok g) by (by destruct g).
  assert (Hget : field_get (writing frame ct) g = field_get ct g) by (by destruct g).
  pose proof (cell_range lay _ _ g Hm Hok) as Hr. rewrite Hget in Hr.
  rewrite Hw in Hr. assert (Hle : 256 ^ frame_width f <= 2 ^ 64) by (by destruct f).
  eapply (reach_ldr lay prog (writing frame ct) g); [exact Hm|exact Hok|done| |].
  { by apply (scratch_addr (writing frame ct) m g Hm Hg), ap_scratch. }
  rewrite Hget. eapply (frame_str ct frame f (field_get ct g)); [exact Hm|exact Hlen| |done|done| |done|].
  - eapply appending_step; [exact Hap|same_regs].
  - regs. rewrite u64_small, Z.mod_small by lia. done.
  - intros m' Hm' Hap' Hs. apply Hnext; [exact Hm'|exact Hap'|].
    eapply same_but_trans; [|eapply same_but_more; [|exact Hs]; reg_solver]. same_regs.
Qed.

End Append.

(** The frame a push writes. *)
Definition pushed_frame (id : Z) ct : BinderPendingFrame := {|
  pf_request_event_id := id;
  pf_target := td_target (ct_td ct);
  pf_data_size := td_data_size (ct_td ct);
  pf_hal_identity_generation := current_generation ct;
  pf_code := td_code (ct_td ct);
  pf_flags := td_flags (ct_td ct);
  pf_parcel_flags := ct_scratch ct kParcelFlags |}.

Definition appended (i : nat) (id : Z) ct : contents :=
  with_generation (current_generation ct)
    (with_slot i (append_frame (pushed_frame id ct) (slot_at (table ct) i)) ct).

(** The generation is captured and the rest of the frame written. *)
Lemma append_rest_spec ct i j slot id frame rest m0 m :
  contains lay (with_slot i (with_frame j frame slot) ct) (m_mem m) -> length (table ct) = 256%nat ->
  (i < 256)%nat -> (j < 4)%nat -> length (ps_frames slot) = 4%nat -> ps_depth slot = Z.of_nat j ->
  appending i j m0 m ->
  pf_request_event_id frame = id -> pf_target frame = td_target (ct_td ct) -> pf_data_size frame = td_data_size (ct_td ct) ->
  reaches prog (append_rest_code base ++ rest) m rest
    (fun m' => contains lay (bump pending_pushes 1 (with_generation (current_generation ct)
       (with_slot i (append_frame (pushed_frame id ct) slot) ct))) (m_mem m') /\
       same_but [9; 10; 11; 12; 13; 14; 16; 31]%nat m0 m').
Proof.
  intros Hm Hlen Hi Hj Hframes Hdepth Hap Hid Htarget Hsize. unfold append_rest_code.
  rewrite <-!app_assoc. eapply reach_trans; [apply (capture_generation_code _ m _ Hm), (ap_scratch i j m0 m Hap)|].
  change (current_generation (with_slot i (with_frame j frame slot) ct)) with (current_generation ct).
  intros m1 [Hm1 Hs1]. set (ct1 := with_generation (current_generation ct) ct).
  assert (Hap1 : appending i j m0 m1).
  { eapply appending_step; [exact Hap|eapply same_but_more; [|exact Hs1]; reg_solver]. }
  cbn [app]. clear Hm Hs1 Hap.
  eapply (copy_field i j slot m0 Hi Hj Hframes ct1 frame GenerationScratch FGeneration);
    [exact Hm1|exact Hlen|exact Hap1|done..|]. intros m2 Hm2 Hap2 _.
  eapply (copy_field i j slot m0 Hi Hj Hframes ct1 _ (Td TdCode) FCode); [exact Hm2|exact Hlen|exact Hap2|done..|].
  intros m3 Hm3 Hap3 _.
  eapply (copy_field i j slot m0 Hi Hj Hframes ct1 _ (Td TdFlags) FFlags); [exact Hm3|exact Hlen|exact Hap3|done..|].
  intros m4 Hm4 Hap4 _.
  eapply (copy_field i j slot m0 Hi Hj Hframes ct1 _ (Parsed kParcelFlags) FParcelFlags);
    [exact Hm4|exact Hlen|exact Hap4|done..|]. intros m5 Hm5 Hap5 _.
  eapply (frame_str i j slot m0 Hi Hj Hframes ct1 _ FReserved 0); [exact Hm5|exact Hlen|exact Hap5|done..|].
  intros m6 Hm6 Hap6 _. set (frame' := frame_sets _ FReserved 0) in Hm6.
  assert (Hframe' : frame' = pushed_frame id ct).
  { unfold frame', frame_sets, pushed_frame. cbn. by rewrite Hid, Htarget, Hsize. }
  rewrite Hframe' in Hm6. plain. rewrite (ap_depth _ _ _ _ Hap6). change (u32 1) with 1.
  rewrite (u32_small (Z.of_nat j)) by lia. rewrite u32_small by lia.
  set (frame1 := pushed_frame id ct) in *. set (ct2 := with_slot i (with_frame j frame1 slot) ct1) in *.
  eapply (reach_str lay prog ct2 (with_slot i (append_frame frame1 slot) ct1) (SlotDepth i)); [exact Hm6|exact Hi|done| | |].
  { apply (slot_field_addr i 16 ct2 m6 Hm6 Hi (ap_slot _ _ _ _ Hap6)). lia. }
  { regs. rewrite u64_small, Z.mod_small by (cbn; lia). apply sets_slot_again; [cbn; lia|]. split; [done|].
    unfold append_frame, with_frame. cbn. rewrite Hdepth, Nat2Z.id. done. }
  intros mem Hmem. eapply reach_mono; [apply increment_code; exact Hmem|]. intros m' [Hm' Hs'].
  split; [exact Hm'|]. eapply same_but_trans; [exact (ap_same _ _ _ _ Hap6)|].
  eapply same_but_trans; [|eapply same_but_more; [|exact Hs']; reg_solver]. same_regs.
Qed.

Lemma append_spec ct i id overflow fover rest m :
  find_label prog overflow = Some fover ->
  contains lay ct (m_mem m) -> length (table ct) = 256%nat -> (i < 256)%nat ->
  m_reg m 23 = scratch lay -> m_reg m 15 = slot_addr lay i -> m_reg m 26 = id -> 0 <= id < 2 ^ 64 ->
  let slot := slot_at (table ct) i in length (ps_frames slot) = 4%nat ->
  reaches prog (append_code base overflow ++ rest) m (if kPendingDepth <=? ps_depth slot then fover else rest)
    (fun m' => contains lay (if kPendingDepth <=? ps_depth slot then ct else bump pending_pushes 1 (appended i id ct))
       (m_mem m') /\ same_but [9; 10; 11; 12; 13; 14; 16; 31]%nat m m').
Proof.
  intros Hover Hm Hlen Hi H23 H15 H26 Hid slot Hframes.
  pose proof (cell_range lay ct (m_mem m) (SlotDepth i) Hm Hi) as Hd. cbn in Hd. fold slot in Hd.
  unfold append_code. cbn [app].
  eapply (reach_ldr lay prog ct (SlotDepth i)); [exact Hm|exact Hi|done|by apply (slot_field_addr i 16 ct)|].
  cbn [field_get]. fold slot. plain. change (u64 kPendingDepth) with 4. rewrite u64_small by lia.
  change kPendingDepth with 4. eapply reach_bcond; [exact Hover|..]; regs; intros Hle; rewrite Hle.
  { apply reach_here. split; [exact Hm|same_regs]. }
  apply Z.leb_gt in Hle. do 4 plain. set (m1 := set_reg 14 _ _). set (j := Z.to_nat (ps_depth slot)).
  assert (Hap : appending i j m m1).
  { unfold m1, j. split; regs; [done|done| |lia|same_regs]. rewrite H15. by apply (frame_pointer i _ ct m); [..|lia]. }
  assert (Hj : (j < 4)%nat) by lia.
  assert (Hm1 : contains lay (with_slot i (with_frame j (frame_at slot (ps_depth slot)) slot) ct) (m_mem m1)).
  { replace (with_frame _ _ _) with slot; [unfold slot; by rewrite with_slot_id|].
    unfold with_frame, frame_at. fold j. destruct slot as [t p g d frames]. cbn in *. f_equal.
    destruct (frames !! j) as [fr|] eqn:E; cbn; [by rewrite list_insert_id|].
    apply lookup_ge_None in E. lia. }
  assert (H26' : m_reg m1 26 = id) by (by rewrite (proj1 (ap_same _ _ _ _ Hap)) by reg_solver).
  eapply (frame_str i j slot m Hi Hj Hframes ct _ FId id); [exact Hm1|exact Hlen|exact Hap|done|done| |done|].
  { regs. rewrite H26', u64_small, Z.mod_small by (cbn; lia). done. }
  intros m2 Hm2 Hap2 _.
  eapply (copy_field i j slot m Hi Hj Hframes ct _ (Td TdTarget) FTarget); [exact Hm2|exact Hlen|exact Hap2|done..|].
  intros m3 Hm3 Hap3 _.
  eapply (copy_field i j slot m Hi Hj Hframes ct _ (Td TdDataSize) FDataSize); [exact Hm3|exact Hlen|exact Hap3|done..|].
  intros m4 Hm4 Hap4 _.
  apply (append_rest_spec ct i j slot id _ rest m m4 Hm4); try done. lia.
Qed.

(** * A whole push *)

Section Whole.
Context (fresh : label) (before after : code).
#[local] Abbreviation push := (pending_push_code base (offset_pid lay) (offset_tgid lay) fresh).
Context (Hprog : prog = before ++ push ++ after).
Context (Hfresh : forall l, l ∈ binds before -> (l < fresh)%nat).

(** What stands behind each label, from the last to the first. *)
Definition at_ignored : code := counter_increment_code base pending_oneway_ignored ++ [Bind (fresh + 8)%nat].
Definition at_release : code :=
  bounded_lock_release_code base pending_lock_state ++ [B (fresh + 8)%nat; Bind fresh] ++ at_ignored.
Definition at_overflow : code :=
  counter_increment_code base pending_overflows ++ [Bind (fresh + 7)%nat] ++ at_release.
Definition at_claimed : code :=
  append_code base (fresh + 6) ++ [B (fresh + 7)%nat; Bind (fresh + 6)%nat] ++ at_overflow.
Definition at_claim : code :=
  claim_code (offset_pid lay) (offset_tgid lay) ++ [B (fresh + 5)%nat; Bind (fresh + 1)%nat; Bind (fresh + 5)%nat] ++ at_claimed.
Definition at_use_empty : code := [Mov X 15 (Reg 14); Bind (fresh + 4)%nat] ++ at_claim.
Definition at_reclaim : code :=
  counter_increment_code base pending_collisions ++ [B (fresh + 4)%nat; Bind (fresh + 3)%nat] ++ at_use_empty.
Definition behind_ways : code :=
  [Cbnz X 14 (fresh + 3)%nat; Mov X 15 (Reg 10)] ++ counter_increment_code base pending_collisions ++
  [B (fresh + 4)%nat; Bind (fresh + 2)%nat] ++ at_reclaim.
Definition push_ways : code := flat_map (ways_code (fresh + 1) (fresh + 2) (fresh + 12)) (seq 0 8).
Definition at_acquired : code :=
  bucket_code base ++ [Mov X 14 (Reg 31); Mov X 10 (Reg 31); Mov X 17 (Imm UINT64_MAX)] ++ push_ways ++ behind_ways.
Definition at_lock : code :=
  bounded_lock_acquire_code base pending_lock_state pending_lock_drops (fresh + 8) (fresh + 9).

Lemma push_parts : push = [Ldr 4 11 23 36; Tbnz 11 0 fresh] ++ at_lock ++ at_acquired.
Proof. reflexivity. Qed.

Lemma push_label l target :
  (fresh <= l)%nat -> find_label push l = Some target -> find_label prog l = Some (target ++ after).
Proof.
  intros Hl Hfind. rewrite Hprog, find_label_skip by (intros Hin; apply Hfresh in Hin; lia).
  by apply find_label_app.
Qed.

Lemma binds_all_ways n k l :
  l ∈ binds (flat_map (ways_code (fresh + 1) (fresh + 2) (fresh + 12)) (seq k n)) -> (fresh + 12 <= l)%nat.
Proof.
  revert k. induction n as [|n IH]; intros k; cbn [seq flat_map].
  { intros Hin. by apply elem_of_nil in Hin. }
  unfold push_ways_code at 1. rewrite !binds_app, !elem_of_app. intros [[Hin|Hin]|Hin]; [| |by eapply IH].
  - cbn in Hin. repeat (apply elem_of_cons in Hin as [->|Hin]; [lia|]). by apply elem_of_nil in Hin.
  - destruct (k + 1 <? _)%nat; by apply elem_of_nil in Hin.
Qed.

Lemma binds_some_ways n k l :
  l ∈ binds (flat_map (ways_code (fresh + 1) (fresh + 2) (fresh + 12)) (seq k n)) -> (l < fresh + 12 + 4 * (k + n))%nat.
Proof.
  revert k. induction n as [|n IH]; intros k; cbn [seq flat_map].
  { intros Hin. by apply elem_of_nil in Hin. }
  rewrite binds_app, elem_of_app. intros [Hin|Hin]; [apply binds_ways in Hin; lia|apply IH in Hin; lia].
Qed.

(** The labels of a push. *)
Lemma push_binds l : l ∈ binds push -> (fresh <= l < fresh + 44)%nat.
Proof.
  rewrite push_parts. unfold at_acquired, push_ways. rewrite !binds_app, !elem_of_app.
  intros [Hin|[Hin|[Hin|[Hin|[Hin|Hin]]]]].
  - by apply elem_of_nil in Hin.
  - cbn in Hin. repeat (apply elem_of_cons in Hin as [->|Hin]; [lia|]). by apply elem_of_nil in Hin.
  - by apply elem_of_nil in Hin.
  - by apply elem_of_nil in Hin.
  - pose proof (binds_all_ways _ _ _ Hin). apply binds_some_ways in Hin. lia.
  - cbn in Hin. repeat (apply elem_of_cons in Hin as [->|Hin]; [lia|]). by apply elem_of_nil in Hin.
Qed.

(** The labels below [fresh + 9] are behind the ways. *)
Lemma find_behind l : (l < fresh + 9)%nat -> find_label push l = find_label behind_ways l.
Proof.
  intros Hl. rewrite push_parts. unfold at_acquired. rewrite !app_assoc. apply find_label_skip.
  rewrite !binds_app, !elem_of_app. intros [[[[Hin|Hin]|Hin]|Hin]|Hin].
  - by apply elem_of_nil in Hin.
  - cbn in Hin. repeat (apply elem_of_cons in Hin as [->|Hin]; [lia|]). by apply elem_of_nil in Hin.
  - by apply elem_of_nil in Hin.
  - by apply elem_of_nil in Hin.
  - apply binds_all_ways in Hin. lia.
Qed.

Lemma push_labels :
  find_label prog fresh = Some (at_ignored ++ after) /\
  find_label prog (fresh + 1) = Some ([Bind (fresh + 5)%nat] ++ at_claimed ++ after) /\
  find_label prog (fresh + 2) = Some (at_reclaim ++ after) /\
  find_label prog (fresh + 3) = Some (at_use_empty ++ after) /\
  find_label prog (fresh + 4) = Some (at_claim ++ after) /\
  find_label prog (fresh + 5) = Some (at_claimed ++ after) /\
  find_label prog (fresh + 6) = Some (at_overflow ++ after) /\
  find_label prog (fresh + 7) = Some (at_release ++ after) /\
  find_label prog (fresh + 8) = Some after.
Proof.
  assert (Hfind : forall l target, (fresh <= l < fresh + 9)%nat -> find_label behind_ways l = Some target ->
    find_label prog l = Some (target ++ after)).
  { intros l target Hl Hf. apply push_label; [lia|]. by rewrite find_behind by lia. }
  repeat split; [..|change (Some after) with (Some ([] ++ after))]; rewrite ?(app_assoc [_]); (apply Hfind; [lia|]);
    unfold behind_ways, at_reclaim, at_use_empty, at_claim, at_claimed, at_overflow, at_release, at_ignored;
    cbn -[Nat.eqb word_offset]; find_solver.
Qed.

Lemma push_lock_labels :
  let retry := lock_retry_code base pending_lock_drops (fresh + 8) (fresh + 9) in
  find_label prog (fresh + 9) = Some (retry ++ at_acquired ++ after) /\
  find_label prog (S (fresh + 9)) = Some (drop 5 retry ++ at_acquired ++ after) /\
  find_label prog (S (S (fresh + 9))) = Some (at_acquired ++ after).
Proof.
  intros retry.
  assert (Hfind : forall l target, (fresh <= l)%nat -> find_label at_lock l = Some target ->
    find_label prog l = Some (target ++ at_acquired ++ after)).
  { intros l target Hl Hf. rewrite app_assoc. apply push_label; [lia|]. rewrite push_parts. cbn [app find_label].
    by apply find_label_app. }
  repeat split; [..|change (Some (?a ++ ?b)) with (Some ([] ++ a ++ b))]; (apply Hfind; [lia|]); unfold at_lock, retry;
    cbn -[Nat.eqb word_offset]; find_solver.
Qed.

#[local] Abbreviation written := [9; 10; 11; 12; 13; 14; 15; 16; 17; 31]%nat.

(** The lock is given back. *)
Definition released ct : contents := with_ctx (put_word pending_lock_state 0 (ct_ctx ct)) ct.

(** From [c] the push ends with [ct]. *)
Definition ends (c : code) (m0 m : machine) ct : Prop :=
  reaches prog (c ++ after) m after (fun m' => contains lay (released ct) (m_mem m') /\ same_but written m0 m').

Lemma ends_from c m0 m ct : same_but written m0 m -> ends c m m ct -> ends c m0 m ct.
Proof.
  intros Hs Hends. eapply reach_mono; [exact Hends|]. intros m' [Hm' Hs']. split; [done|]. by eapply same_but_trans.
Qed.

Lemma release_ends ct m : contains lay ct (m_mem m) -> ends at_release m m ct.
Proof.
  intros Hm. destruct push_labels as (_ & _ & _ & _ & _ & _ & _ & _ & Hdone).
  unfold ends, at_release. rewrite <-app_assoc. eapply reach_trans; [by apply lock_release_spec|].
  intros m1 [Hm1 Hs1]. cbn [app]. eapply reach_jump; [exact Hdone|]. apply reach_here. split; [exact Hm1|].
  eapply same_but_more; [|exact Hs1]. reg_solver.
Qed.

Lemma overflow_ends ct m : contains lay ct (m_mem m) -> ends at_overflow m m (bump pending_overflows 1 ct).
Proof.
  intros Hm. unfold ends, at_overflow. rewrite <-!app_assoc. eapply reach_trans; [by apply increment_code|].
  intros m1 [Hm1 Hs1]. cbn [app]. plain. apply (ends_from at_release); [|by apply release_ends].
  eapply same_but_more; [|exact Hs1]. reg_solver.
Qed.

(** The registers of a push. *)
Record pushing (id : Z) ct (m : machine) : Prop := {
  pg_mem : contains lay ct (m_mem m);
  pg_task : m_reg m 27 = task_kaddr (ct_task ct);
  pg_scratch : m_reg m 23 = scratch lay;
  pg_id : m_reg m 26 = id;
}.

Lemma pushing_next id ct ct' m m' :
  pushing id ct m -> same_but written m m' -> contains lay ct' (m_mem m') -> ct_task ct' = ct_task ct ->
  pushing id ct' m'.
Proof. intros [Hm H27 H23 H26] Hs Hm' Ht. split; rewrite ?Ht, ?(proj1 Hs) by reg_solver; done. Qed.

(** What can be pushed to. *)
Definition table_ok ct : Prop :=
  length (table ct) = 256%nat /\ forall i, (i < 256)%nat -> length (ps_frames (slot_at (table ct) i)) = 4%nat.

(** The frame goes into slot [i], if there is room. *)
Definition placed (i : nat) (id : Z) ct : contents :=
  if kPendingDepth <=? ps_depth (slot_at (table ct) i) then bump pending_overflows 1 ct
  else bump pending_pushes 1 (appended i id ct).

Lemma claimed_ends ct i id m :
  pushing id ct m -> table_ok ct -> (i < 256)%nat -> m_reg m 15 = slot_addr lay i -> 0 <= id < 2 ^ 64 ->
  ends at_claimed m m (placed i id ct).
Proof.
  intros [Hm H27 H23 H26] [Hlen Hframes] Hi H15 Hid.
  destruct push_labels as (_ & _ & _ & _ & _ & _ & Hover & Hrel & _).
  unfold ends, at_claimed. rewrite <-!app_assoc. eapply reach_trans.
  { apply (append_spec ct i id (fresh + 6) _ _ m Hover Hm Hlen Hi H23 H15 H26 Hid). by apply Hframes. }
  unfold placed. destruct (kPendingDepth <=? _); intros m1 [Hm1 Hs1].
  - apply (ends_from at_overflow); [eapply same_but_more; [|exact Hs1]; reg_solver|by apply overflow_ends].
  - cbn [app]. eapply reach_jump; [exact Hrel|].
    apply (ends_from at_release); [eapply same_but_more; [|exact Hs1]; reg_solver|by apply release_ends].
Qed.

Definition claimed (i : nat) ct : contents := with_slot i (claim_slot (ct_task ct) (slot_at (table ct) i)) ct.

Lemma claimed_table_ok i ct : table_ok ct -> (i < 256)%nat -> table_ok (claimed i ct).
Proof.
  intros [Hlen Hframes] Hi. split; [cbn; by rewrite length_insert|]. intros j Hj. cbn.
  rewrite slot_at_insert by lia. destruct (decide _) as [<-|]; [by apply Hframes|by apply Hframes].
Qed.

Lemma claim_ends ct i id m :
  pushing id ct m -> table_ok ct -> (i < 256)%nat -> m_reg m 15 = slot_addr lay i -> 0 <= id < 2 ^ 64 ->
  0 <= task_kaddr (ct_task ct) < 2 ^ 64 -> ends at_claim m m (placed i id (claimed i ct)).
Proof.
  intros Hp Hok Hi H15 Hid Htask. destruct push_labels as (_ & _ & _ & _ & _ & H5 & _).
  unfold ends, at_claim. rewrite <-!app_assoc.
  eapply reach_trans; [apply (claim_spec ct i _ m); [apply Hp|done|apply Hp|done|done|apply Hok]|].
  intros m1 [Hm1 Hs1]. cbn [app]. eapply reach_jump; [exact H5|].
  assert (Hs : same_but written m m1) by (eapply same_but_more; [|exact Hs1]; reg_solver).
  apply (ends_from at_claimed); [exact Hs|]. apply claimed_ends; try done.
  - by eapply pushing_next.
  - by apply claimed_table_ok.
  - by rewrite (proj1 Hs1) by reg_solver.
Qed.

Lemma collided_table_ok ct : table_ok ct -> table_ok (bump pending_collisions 1 ct).
Proof. done. Qed.

(** A collision is counted on the way to the claim. *)
Lemma collide_ends ct i id next m :
  pushing id ct m -> table_ok ct -> (i < 256)%nat -> m_reg m 15 = slot_addr lay i -> 0 <= id < 2 ^ 64 ->
  0 <= task_kaddr (ct_task ct) < 2 ^ 64 ->
  ends (counter_increment_code base pending_collisions ++ [B (fresh + 4)%nat] ++ next) m m
    (placed i id (claimed i (bump pending_collisions 1 ct))).
Proof.
  intros Hp Hok Hi H15 Hid Htask. destruct push_labels as (_ & _ & _ & _ & H4 & _).
  unfold ends. rewrite <-!app_assoc. eapply reach_trans; [apply increment_code, Hp|].
  intros m1 [Hm1 Hs1]. cbn [app]. eapply reach_jump; [exact H4|].
  assert (Hs : same_but written m m1) by (eapply same_but_more; [|exact Hs1]; reg_solver).
  apply (ends_from at_claim); [exact Hs|].
  apply (claim_ends (bump pending_collisions 1 ct)); [by eapply pushing_next|exact Hok|done| |done|done].
  by rewrite (proj1 Hs1) by reg_solver.
Qed.

(** Under the lock. *)
Definition push_body (id : Z) ct : contents :=
  match push_select (ct_task ct) (table ct) with
  | PushFound i => placed i id ct
  | PushReclaim i | PushEvict i => placed i id (claimed i (bump pending_collisions 1 ct))
  | PushEmpty i => placed i id (claimed i ct)
  | PushNowhere => ct
  end.

(** From where the scan has ended. *)
Lemma selected_ends ct id t m :
  pushing id ct m -> table_ok ct -> scan_regs (lay := lay) t m -> 0 <= id < 2 ^ 64 -> 0 <= task_kaddr (ct_task ct) < 2 ^ 64 ->
  t = push_select (ct_task ct) (table ct) -> t <> PushNowhere ->
  (forall i, t = PushFound i \/ t = PushReclaim i \/ t = PushEmpty i \/ t = PushEvict i -> (i < 256)%nat) ->
  reaches prog (scan_target t ([Bind (fresh + 5)%nat] ++ at_claimed ++ after) (at_reclaim ++ after) (behind_ways ++ after))
    m after (fun m' => contains lay (released (push_body id ct)) (m_mem m') /\ same_but written m m').
Proof.
  intros Hp Hok Hregs Hid Htask Ht Hsome Hlt. unfold push_body. rewrite <-Ht.
  destruct push_labels as (_ & _ & _ & H3 & H4 & _). pose proof (pg_mem _ _ _ Hp) as Hm.
  destruct t as [i|i|i|i|]; cbn [scan_target scan_regs] in *; [..|done];
    assert (Hi : (i < 256)%nat) by (apply Hlt; auto).
  - cbn [app]. plain. by apply claimed_ends.
  - by apply (collide_ends ct i id _ m).
  - unfold behind_ways. rewrite <-!app_assoc. cbn [app].
    pose proof (slot_addr_range ct m i Hm Hi) as Ha. pose proof (opt_addr_zero (lay := lay) ct m (Some i) Hm) as Hz.
    cbn [opt_addr] in Hz.
    eapply reach_cbnz; [exact H3|..]; regs; rewrite Hregs; intros E;
      [|rewrite Hz in E by (by intros ? [= <-]); discriminate].
    unfold at_use_empty. cbn [app]. plain. plain. set (m1 := set_reg 15 _ m).
    assert (Hs : same_but written m m1) by (unfold m1; same_regs).
    apply (ends_from at_claim); [exact Hs|]. apply claim_ends; try done; [by eapply pushing_next|].
    unfold m1. regs. rewrite Hregs. apply u64_small. lia.
  - destruct Hregs as [H14 H10]. unfold behind_ways. rewrite <-!app_assoc. cbn [app].
    pose proof (slot_addr_range ct m i Hm Hi) as Ha.
    eapply reach_cbnz; [exact H3|..]; regs; rewrite H14; intros E; [discriminate|]. plain. set (m1 := set_reg 15 _ m).
    assert (Hs : same_but written m m1) by (unfold m1; same_regs).
    pose proof (collide_ends ct i id ([Bind (fresh + 2)%nat] ++ at_reclaim) m1) as Hc. unfold ends in Hc.
    rewrite <-!app_assoc in Hc. eapply reach_mono; [apply Hc; try done|].
    + by eapply pushing_next.
    + unfold m1. regs. rewrite H10. apply u64_small. lia.
    + intros m' [Hm' Hs']. split; [done|]. by eapply same_but_trans.
Qed.

(** Where a push goes is a slot of the table. *)
Lemma select_place ct :
  pending_wf (table ct) -> task_kaddr (ct_task ct) <> 0 ->
  let t := push_select (ct_task ct) (table ct) in
  t <> PushNowhere /\
  forall i, t = PushFound i \/ t = PushReclaim i \/ t = PushEmpty i \/ t = PushEvict i -> (i < 256)%nat.
Proof.
  intros Hwf Hnz t. pose proof (push_select_spec _ Hwf (ct_task ct) Hnz) as Hspec. fold t in Hspec.
  assert (Hin : forall i, In i (bucket_ways (task_kaddr (ct_task ct))) -> (i < 256)%nat) by exact (bucket_ways_lt _).
  split.
  - intros Et. rewrite Et in Hspec. by destruct Hspec as (_ & _ & Hways).
  - intros i Ht. destruct Ht as [Et|[Et|[Et|Et]]]; rewrite Et in Hspec; cbn [scan_spec] in Hspec; apply Hin.
    + exact (proj1 Hspec).
    + exact (proj1 Hspec).
    + destruct Hspec as [[?|(_ & ? & _)] _]; done.
    + destruct Hspec as (_ & _ & [[? _]|(? & _)]); done.
Qed.

Lemma table_wf_ok ct :
  pending_wf (table ct) ->
  table_ok ct /\ forall i, (i < 256)%nat -> ps_task_kaddr (slot_at (table ct) i) <> 0 ->
    ps_depth (slot_at (table ct) i) <= 4.
Proof.
  intros Hwf. pose proof (pw_length _ Hwf) as Hlen. change (Z.to_nat kPendingSlotCapacity) with 256%nat in Hlen.
  split; [split; [done|]|]; intros i Hi; destruct (pw_slot _ Hwf i ltac:(lia)) as [Hframes Hd]; [done|].
  intros Hnz. by apply Hd.
Qed.

Lemma acquired_ends ct id m :
  pushing id ct m -> pending_wf (table ct) -> 0 <= id < 2 ^ 64 -> 0 < task_kaddr (ct_task ct) < 2 ^ 64 ->
  ends at_acquired m m (push_body id ct).
Proof.
  intros Hp Hwf Hid Htask. pose proof Hp as [Hm H27 H23 H26]. destruct (table_wf_ok ct Hwf) as [Hok Hdepth].
  destruct push_labels as (_ & H1 & H2 & _). unfold ends, at_acquired. rewrite <-!app_assoc.
  eapply reach_trans; [apply (bucket_spec _ m ct); [done|done|lia]|]. intros m1 (Hmem1 & H15 & Hs1).
  cbn [app]. do 3 plain. set (m2 := set_reg 17 _ _). destruct (bucket_value (task_kaddr (ct_task ct))) as [_ Hb].
  destruct (select_place ct Hwf ltac:(lia)) as [Hsome Hlt].
  assert (Hs2 : same_but written m m2).
  { eapply (same_but_trans _ m m1); [eapply same_but_more; [|exact Hs1]; reg_solver|unfold m2; same_regs]. }
  assert (Hm2 : contains lay ct (m_mem m2)) by (change (m_mem m2) with (m_mem m1); by rewrite Hmem1).
  eapply reach_trans.
  { unfold push_ways.
    apply (push_ways_spec (fresh + 1) (fresh + 2) (fresh + 12) _ _ (behind_ways ++ after)
      (bucket (task_kaddr (ct_task ct))) 8 0
      (before ++ [Ldr 4 11 23 36; Tbnz 11 0 fresh] ++ at_lock ++ bucket_code base ++
        [Mov X 14 (Reg 31); Mov X 10 (Reg 31); Mov X 17 (Imm UINT64_MAX)]) ct None None UINT64_MAX m2 H1 H2).
    - rewrite Hprog, push_parts. unfold at_acquired, push_ways. by rewrite <-!app_assoc.
    - intros l. rewrite !binds_app, !elem_of_app. intros [Hin|[Hin|[Hin|[Hin|Hin]]]].
      + apply Hfresh in Hin. lia.
      + by apply elem_of_nil in Hin.
      + cbn in Hin. repeat (apply elem_of_cons in Hin as [->|Hin]; [lia|]). by apply elem_of_nil in Hin.
      + by apply elem_of_nil in Hin.
      + by apply elem_of_nil in Hin.
    - done.
    - exact Hb.
    - split; try done; unfold m2; regs.
      + by rewrite (proj1 Hs1) by reg_solver.
      + by rewrite Nat.add_0_r.
    - done.
    - lia.
    - exact Hdepth. }
  rewrite Nat.add_0_r, <-bucket_ways_seq. change (push_scan _ _ _ None None UINT64_MAX) with (push_select (ct_task ct) (table ct)).
  intros m3 (Hmem3 & Hregs & Hs3).
  assert (Hs : same_but written m m3).
  { eapply same_but_trans; [exact Hs2|]. eapply same_but_more; [|exact Hs3]. reg_solver. }
  eapply reach_mono; [apply (selected_ends ct id _ m3); try done|].
  - eapply pushing_next; [exact Hp|exact Hs| |done]. by rewrite Hmem3.
  - lia.
  - intros m' [Hm' Hs']. split; [done|]. by eapply same_but_trans.
Qed.

(** A claimed slot has room. *)
Lemma placed_claimed i id ct :
  (i < length (table ct))%nat ->
  placed i id (claimed i ct) =
  bump pending_pushes 1 (with_generation (current_generation ct)
    (with_slot i (append_frame (pushed_frame id ct) (claim_slot (ct_task ct) (slot_at (table ct) i))) ct)).
Proof.
  intros Hi. unfold placed, appended, claimed. rewrite slot_at_with_slot by done. cbn [claim_slot ps_depth].
  change (kPendingDepth <=? 0) with false. cbn iota. by rewrite with_slot_twice.
Qed.

Lemma set_pending_twice i slot slot' c : set_pending <[i := slot]> (set_pending <[i := slot']> c) = set_pending <[i := slot]> c.
Proof. unfold set_pending. cbn. f_equal. apply list_insert_insert_eq. Qed.

Lemma set_pending_id i slot c : slot = slot_at (pending c) i -> set_pending <[i := slot]> c = c.
Proof.
  intros ->. unfold set_pending, slot_at. destruct c. cbn. f_equal.
  destruct (_ !! i) as [slot|] eqn:E; cbn; [by apply list_insert_id|]. apply list_insert_ge. by apply lookup_ge_None.
Qed.

Section Handler.
Context {U : Type} `{UserAccess U}.

(** Under the lock, the operation is the body. *)
Lemma push_run ct id (s : hstate U) :
  h_ctx s = ct_ctx ct -> pending_wf (table ct) -> task_kaddr (ct_task ct) <> 0 ->
  let taken := lock_tries kMapLockTryCount (kc_words (ct_ctx ct) pending_lock_state) (hd [] (h_locks s)) in
  let held := with_ctx (put_word pending_lock_state 1 (ct_ctx ct)) ct in
  let run := emit_pending_push (ct_task ct) id (ct_td ct) (ct_scratch ct kParcelFlags) s in
  h_ctx run.2 = ct_ctx (if Z.testbit (td_flags (ct_td ct)) 0 then bump pending_oneway_ignored 1 ct
                        else if taken then released (push_body id held) else bump pending_lock_drops 1 ct).
Proof.
  destruct s as [c mem parcel locks]. intros Hs Hwf Hnz. cbn [h_ctx] in Hs. subst c.
  intros taken held run. destruct (select_place held Hwf Hnz) as [Hsome Hlt].
  assert (Hlen : length (table ct) = 256%nat) by exact (pw_length _ Hwf).
  unfold run, emit_pending_push, emit_pending_lock_acquire, emit_bounded_lock_acquire, push_claim.
  destruct (Z.testbit _ 0); [reflexivity|].
  unfold mbind, HM_bind, mret, HM_ret, h_get, h_modify, h_lock_script. cbn -[lock_tries kMapLockTryCount push_select].
  change (lock_tries _ _ _) with taken. destruct taken; [cbn -[push_select]|reflexivity].
  unfold push_body. change (push_select (ct_task held) (table held)) with (push_select (ct_task ct) (table ct)) in *.
  destruct (push_select (ct_task ct) (table ct)) as [i|i|i|i|]; [..|done];
    assert (Hi : (i < length (table ct))%nat) by (rewrite Hlen; apply Hlt; auto);
    cbn -[kPendingDepth placed claimed]; rewrite ?placed_claimed by exact Hi.
  2-4: change (kPendingDepth <=? 0) with false; cbn; by rewrite set_pending_twice.
  unfold placed. change (slot_at (table held) i) with (slot_at (table ct) i).
  destruct (kPendingDepth <=? _); cbn; [by rewrite set_pending_id|by rewrite set_pending_twice].
Qed.

(** Outside the context only the scratch generation moves. *)
Lemma body_generation id ct :
  exists g, released (push_body id ct) = with_generation g (with_ctx (ct_ctx (released (push_body id ct))) ct).
Proof.
  destruct ct. unfold push_body, placed, claimed, appended, released.
  destruct (push_select _ _); cbn -[kPendingDepth]; try destruct (kPendingDepth <=? _); eexists; reflexivity.
Qed.

Lemma kept_ctx ct : with_generation (ct_generation ct) (with_ctx (ct_ctx ct) ct) = ct.
Proof. by destruct ct. Qed.

(** The emitted push does what the handler's operation does. *)
Lemma push_code ct id (s : hstate U) m :
  pushing id ct m -> tries_ok (m_tries m) -> pending_wf (table ct) -> 0 <= id < 2 ^ 64 ->
  0 < task_kaddr (ct_task ct) < 2 ^ 64 -> h_ctx s = ct_ctx ct -> hd [] (h_locks s) = m_tries m ->
  let run := emit_pending_push (ct_task ct) id (ct_td ct) (ct_scratch ct kParcelFlags) s in
  reaches prog (push ++ after) m after
    (fun m' => (exists g, contains lay (with_generation g (with_ctx (h_ctx run.2) ct)) (m_mem m')) /\
       kept written m m').
Proof.
  intros Hp Htries Hwf Hid Htask Hctx Hscript run.
  pose proof (push_run ct id s Hctx Hwf ltac:(lia)) as Hrun. fold run in Hrun. rewrite Hscript in Hrun.
  destruct push_labels as (H0 & _ & _ & _ & _ & _ & _ & _ & H8). pose proof (pg_mem _ _ _ Hp) as Hm.
  destruct push_lock_labels as (Hretry & Hbusy & Hacquired).
  pose proof (cell_range lay ct (m_mem m) (Td TdFlags) Hm Logic.I) as Hf. cbn in Hf.
  rewrite push_parts, <-!app_assoc. cbn [app].
  eapply (reach_ldr lay prog ct (Td TdFlags)); [exact Hm|done|done|by apply (scratch_addr ct m (Td TdFlags)), Hp|].
  cbn [field_get td_get]. set (m1 := set_reg 11 _ m).
  assert (Hs1 : same_but [11]%nat m m1) by (unfold m1; same_regs).
  eapply reach_tbnz; [exact H0|..]; unfold m1 at 1; regs; rewrite u64_small by lia; intros Hbit; rewrite Hbit in Hrun.
  { unfold at_ignored. rewrite <-!app_assoc. eapply reach_trans; [by apply (increment_code _ _ m1 ct)|].
    intros m2 [Hm2 Hs2]. cbn [app]. plain. apply reach_here. split.
    - exists (ct_generation ct). by rewrite Hrun.
    - eapply (kept_same written); [|done]. eapply same_but_trans; (eapply same_but_more; [|eassumption]); reg_solver. }
  eapply reach_trans.
  { apply (lock_acquire_spec pending_lock_state pending_lock_drops (fresh + 8) (fresh + 9) after (at_acquired ++ after) m1 ct);
      try done. }
  change (m_tries m1) with (m_tries m). set (taken := lock_tries _ _ _) in *. intros m2 [Hm2 Hk2].
  assert (Hk : kept written m m2).
  { eapply kept_trans; [eapply kept_same; [exact Hs1|reg_solver]|]. eapply kept_more; [|exact Hk2]. reg_solver. }
  destruct taken.
  - set (held := with_ctx _ ct) in *. destruct (body_generation id held) as [g Hg].
    eapply reach_mono; [apply (acquired_ends held id m2); [|exact Hwf|exact Hid|exact Htask]|].
    + split; rewrite ?(proj1 Hk) by reg_solver; [exact Hm2|apply Hp..].
    + intros m' [Hm' Hs']. split; [|eapply kept_trans; [exact Hk|]; eapply kept_same; [exact Hs'|reg_solver]].
      exists g. rewrite Hrun. rewrite Hg in Hm'. exact Hm'.
  - apply reach_here. split; [|exact Hk]. exists (ct_generation ct). by rewrite Hrun.
Qed.

End Handler.

End Whole.

End Push.
