(* ===== verification/EmittedRecord.v ===== *)
(** The code that writes an event into the ring, and the end of emit_record_transaction
    around it: the reservation, the copies, the request that is remembered and the
    publication, and that it does what the handler's operations do. *)

From S2P Require Import Prelude UserMemory KernelContext BinderWire Pending PendingFacts Stream Aarch64 ContextLayout Emitted EmittedScan EmittedPush.

(** * The code *)

(** src/binder_hook_builder.cpp:524-542 [emit_reserve_event] *)
Definition reserve_event_code (base : Z) : code :=
  [Mov X 9 (Imm (base + word_offset event_write_index)); Mov X 10 (Imm 1); Ldaddal 10 11 9;
   Alu ADD X 26 11 (Imm 1); Alu AND X 11 11 (Imm (kTransactionEventCapacity - 1));
   Mov X 12 (Imm kEventBytes); Alu MUL X 11 11 (Reg 12);
   Mov X 28 (Imm (base + events_offset)); Alu ADD X 28 28 (Reg 11);
   Alu LSL X 12 26 (Imm 1); Alu SUB X 12 12 (Imm 1); Str 8 12 28 0; Str 8 26 28 8].

(** src/binder_hook_builder.cpp:546-549 [emit_publish_event] *)
Definition publish_event_code : code := [Alu LSL X 12 26 (Imm 1); Stlr 8 12 28].

(** A word of the scratch goes to a field of the event by x11. *)
Definition copy_code (c : field * event_field) : code :=
  [Ldr (field_width c.1) 11 23 (scratch_offset c.1); Str (event_width c.2) 11 28 (event_offset c.2)].

(** src/binder_hook_builder.cpp:1121-1146 [emit_record_transaction] *)
Definition parsed_copies : list (field * event_field) := [
  (Parsed kParcelTokenKind, EParcelTokenKind); (Parsed kParcelTokenOffset, EParcelTokenOffset);
  (Parsed kParcelPrefixSize, EParcelPrefixSize); (Parsed kParcelFlags, EParcelFlags);
  (Parsed kCorrelatedRequestFlags, ECorrelatedRequestFlags); (Parsed kReplyPrefixSize, EReplyPrefixSize);
  (Parsed kReplyStatus, EReplyStatusCode); (Parsed kReplyArrayLength, EReplyArrayLength);
  (Parsed kReplyArrayOffset, EReplyArrayOffset); (Parsed kReplyFlags, EReplyFlags)].

(** src/binder_hook_builder.cpp:1150-1169 [emit_record_transaction] *)
Definition td_copies : list (field * event_field) := [
  (Td TdTarget, ETarget); (Td TdCookie, ECookie); (Td TdCode, ECode); (Td TdFlags, EFlags);
  (Td TdSenderPid, ESenderPid); (Td TdSenderEuid, ESenderEuid); (Td TdDataSize, EDataSize);
  (Td TdOffsetsSize, EOffsetsSize); (Td TdBuffer, EBuffer); (Td TdOffsets, EOffsets)].

(** src/binder_hook_builder.cpp:1113-1169 [emit_record_transaction] *)
Definition fill_event_code (off_pid off_tgid : Z) : code :=
  [Str 8 27 28 16; Str 8 21 28 72; Ldr 4 11 27 off_pid; Str 4 11 28 80; Ldr 4 12 27 off_tgid; Str 4 12 28 84;
   Str 4 24 28 88] ++ flat_map copy_code parsed_copies ++ [Str 4 31 28 152; Str 4 31 28 156] ++
  flat_map copy_code td_copies.

Definition kind_code (k : BinderEventKind) : code := [Mov X 12 (Imm (kind_num k)); Str 4 12 28 108].

(** What follows the kind of a delivered transaction; [skip] is a label. *)

(** src/binder_hook_builder.cpp:1203-1231 [emit_record_transaction] *)
Definition remember_code (base off_pid off_tgid : Z) (k : BinderEventKind) (publish skip push : label) : code :=
  kind_code k ++ [Ldr 4 11 23 348; Tbz 11 0 skip] ++ counter_increment_code base server_request_hits ++
  pending_push_code base off_pid off_tgid push ++ [Bind skip; B publish].

(** src/binder_hook_builder.cpp:1171-1187 [emit_record_transaction] *)
Definition sent_kind_code (publish is_request : label) : code :=
  [Mov X 12 (Imm BC_TRANSACTION); Cmp W 24 (Reg 12); BCond EQ is_request;
   Mov X 12 (Imm BC_TRANSACTION_SG); Cmp W 24 (Reg 12); BCond EQ is_request] ++
  kind_code kBcReply ++ [B publish; Bind is_request] ++ kind_code kBcTransaction ++ [B publish].

(** src/binder_hook_builder.cpp:1189-1231 [emit_record_transaction] *)
Definition received_kind_code (base off_pid off_tgid : Z) (publish : label) : code :=
  [Mov X 12 (Imm BR_REPLY); Cmp W 24 (Reg 12); BCond NE (publish + 1)] ++ kind_code kBrReply ++
  [B publish; Bind (publish + 1); Mov X 12 (Imm BR_TRANSACTION_SEC_CTX); Cmp W 24 (Reg 12); BCond NE (publish + 2)]%nat ++
  remember_code base off_pid off_tgid kBrTransactionSecCtx publish (publish + 3) (publish + 5) ++
  [Bind (publish + 2)]%nat ++
  remember_code base off_pid off_tgid kBrTransaction publish (publish + 4) (publish + 49).

(** Labels: [publish] and four more, and those of the two pushes. *)

(** src/binder_hook_builder.cpp:1110-1240 [emit_record_transaction] *)
Definition record_tail_code (base off_pid off_tgid expected_ioc_type : Z) (publish : label) : code :=
  reserve_event_code base ++ fill_event_code off_pid off_tgid ++
  (if expected_ioc_type =? ioc_c then sent_kind_code publish (publish + 1)
   else received_kind_code base off_pid off_tgid publish) ++
  [Bind publish] ++ counter_increment_code base transaction_metadata_ok ++ publish_event_code.

(** * Events *)

Section Record.
Context {lay : layout} {prog : code}.
Implicit Types (m : machine) (ct : contents).

#[local] Abbreviation base := (context_kaddr lay).
#[local] Abbreviation evs ct := (events (ct_ctx ct)).

Lemma event_addr_range ct m i :
  contains lay ct (m_mem m) -> (i < 256)%nat -> 0 <= event_addr lay i /\ event_addr lay i + 160 <= 2 ^ 64 - 160.
Proof.
  intros [[Hc _ _ _ _] _ _] Hi. unfold event_addr, events_offset, kEventBytes.
  destruct offsets as (_ & _ & _ & _ & _ & _ & _ & Hbytes & ->). rewrite Hbytes in Hc. lia.
Qed.

Lemma with_event_twice i e e' ct : with_event i e (with_event i e' ct) = with_event i e ct.
Proof. unfold with_event, with_ctx, set_events. cbn. do 2 f_equal. apply list_insert_insert_eq. Qed.

Lemma event_at_with_event i e ct : (i < length (evs ct))%nat -> event_at (evs (with_event i e ct)) i = e.
Proof. intros Hi. cbn. rewrite event_at_insert by done. by rewrite decide_True. Qed.

Lemma sets_event_again ct i f v e :
  (i < length (evs ct))%nat -> event_value_ok f v ->
  sets (with_event i e ct) (Event i f) v (with_event i (event_sets e f v) ct).
Proof.
  intros Hi Hv. pose proof (sets_event (with_event i e ct) i f v) as Hsets.
  rewrite event_at_with_event, with_event_twice in Hsets by done.
  apply Hsets; [cbn; by rewrite length_insert|done].
Qed.

Section Filling.
Context (i : nat) (m0 : machine) (Hi : (i < 256)%nat).

(** The registers while an event is filled: x28 the event. *)
Record filling (m : machine) : Prop := {
  fl_scratch : m_reg m 23 = scratch lay;
  fl_event : m_reg m 28 = event_addr lay i;
  fl_same : same_but [9; 10; 11; 12; 26; 28; 31]%nat m0 m;
}.

Lemma filling_step m m' : filling m -> same_but [9; 10; 11; 12; 31]%nat m m' -> filling m'.
Proof.
  intros [H23 H28 Hs] Hs'. split; rewrite ?(proj1 Hs') by reg_solver; try done.
  eapply same_but_trans; [exact Hs|]. eapply same_but_more; [|exact Hs']. reg_solver.
Qed.

Lemma event_str ct e f v bytes offset w rest m target Q :
  contains lay (with_event i e ct) (m_mem m) -> length (evs ct) = 256%nat -> filling m ->
  bytes = event_width f -> offset = event_offset f ->
  rd m X w mod 256 ^ event_width f = v -> event_value_ok f v ->
  (forall m', contains lay (with_event i (event_sets e f v) ct) (m_mem m') -> filling m' -> same_but [] m m' ->
     reaches prog rest m' target Q) ->
  reaches prog (Str bytes w 28 offset :: rest) m target Q.
Proof.
  intros Hm Hlen Hfl -> -> Hv Hok Hnext.
  eapply (reach_str lay prog (with_event i e ct) _ (Event i f)); [exact Hm|done|done| | |].
  - pose proof (event_addr_range _ m i Hm Hi) as Ha. pose proof (event_place f). regs.
    rewrite (fl_event _ Hfl), (u64_small (event_addr _ _)) by lia. cbn [field_addr]. apply u64_small.
    pose proof (field_width_pos (Event i f)) as Hpos. cbn in Hpos. lia.
  - cbn [field_width]. rewrite Hv. apply sets_event_again; [lia|exact Hok].
  - intros mem Hmem. apply Hnext; [exact Hmem| |same_regs]. eapply filling_step; [exact Hfl|same_regs].
Qed.

Definition copied ct (e : BinderTransactionEvent) (copies : list (field * event_field)) : BinderTransactionEvent :=
  fold_left (fun e c => event_sets e c.2 (field_get ct c.1)) copies e.

Definition copy_ok (c : field * event_field) : bool :=
  parser_word c.1 && (field_width c.1 =? event_width c.2) &&
  match c.2 with EKind | EReserved0 | EReserved1 => false | _ => true end.

(** A list of copies. *)
Lemma copies_spec copies ct e rest m target Q :
  contains lay (with_event i e ct) (m_mem m) -> length (evs ct) = 256%nat -> filling m ->
  forallb copy_ok copies = true ->
  (forall m', contains lay (with_event i (copied ct e copies) ct) (m_mem m') -> filling m' ->
     same_but [11]%nat m m' -> reaches prog rest m' target Q) ->
  reaches prog (flat_map copy_code copies ++ rest) m target Q.
Proof.
  revert e m. induction copies as [|[g f] copies IH]; intros e m Hm Hlen Hfl Hok Hnext.
  { apply Hnext; [exact Hm|exact Hfl|same_regs]. }
  cbn [forallb] in Hok. apply andb_prop in Hok as [Hc Hok]. unfold copy_ok in Hc. cbn [fst snd] in Hc.
  apply andb_prop in Hc as [[Hg Hw]%andb_prop Hf]. apply Z.eqb_eq in Hw.
  assert (Hgok : field_ok g) by (by destruct g).
  assert (Hget : field_get (with_event i e ct) g = field_get ct g) by (by destruct g).
  pose proof (cell_range lay _ _ g Hm Hgok) as Hr. rewrite Hget, Hw in Hr.
  assert (Hle : 256 ^ event_width f <= 2 ^ 64) by (by destruct f).
  cbn [flat_map copy_code fst snd app].
  eapply (reach_ldr lay prog (with_event i e ct) g); [exact Hm|exact Hgok|done| |].
  { apply (scratch_addr (with_event i e ct) m g Hm Hg). apply Hfl. }
  rewrite Hget. eapply (event_str ct e f (field_get ct g)); [exact Hm|exact Hlen| |done|done| | |].
  - eapply filling_step; [exact Hfl|same_regs].
  - regs. rewrite u64_small, Z.mod_small by lia. done.
  - by destruct f.
  - intros m' Hm' Hfl' Hs. apply (IH (event_sets e f (field_get ct g)) m'); [exact Hm'|exact Hlen|exact Hfl'|exact Hok|].
    intros m'' Hm'' Hfl'' Hs'. apply Hnext; [exact Hm''|exact Hfl''|].
    eapply (same_but_trans _ m m'); [|exact Hs']. eapply (same_but_trans _ m (set_reg 11 (field_get ct g) m)); [same_regs|].
    eapply same_but_more; [|exact Hs]. reg_solver.
Qed.

End Filling.

(** * The reservation *)

Lemma reserved_event_sets id e :
  reserved_event id e = event_sets (event_sets e ESequence (u64 (2 * id - 1))) EEventId id.
Proof. by destruct e as [????????????????? []]. Qed.

Lemma published_event_sets id e : published_event id e = event_sets e ESequence (u64 (2 * id)).
Proof. by destruct e as [????????????????? []]. Qed.

(** The stores of a fill, in their order. *)
Definition filled ct (corr command : Z) (e : BinderTransactionEvent) : BinderTransactionEvent :=
  let e := event_sets e ETaskKaddr (task_kaddr (ct_task ct)) in
  let e := event_sets e ECorrelatedRequestId corr in
  let e := event_sets e EPid (task_pid (ct_task ct)) in
  let e := event_sets e ETgid (task_tgid (ct_task ct)) in
  let e := event_sets e ECommand command in
  let e := copied ct e parsed_copies in
  let e := event_sets (event_sets e EReserved0 0) EReserved1 0 in
  copied ct e td_copies.

Lemma fill_event_sets ct corr command k e :
  fill_event (ct_task ct) corr command (ct_scratch ct) (ct_td ct) k e =
  event_sets (filled ct corr command e) EKind (kind_num k).
Proof. destruct e, k; vm_compute; reflexivity. Qed.

Definition ticket ct : Z := kc_words (ct_ctx ct) event_write_index.
Definition next_id ct : Z := u64 (ticket ct + 1).

Lemma ring_slot_value t : 0 <= t -> Z.of_nat (ring_slot t) = Z.land t (kTransactionEventCapacity - 1).
Proof.
  intros Ht. unfold ring_slot. change (kTransactionEventCapacity - 1) with (Z.ones 8). rewrite Z.land_ones by lia.
  pose proof (Z.mod_pos_bound t (2 ^ 8) ltac:(lia)). lia.
Qed.

Lemma with_event_id i ct : with_event i (event_at (evs ct) i) ct = ct.
Proof.
  destruct ct as [c ? ? ? ? ?]. unfold with_event, with_ctx, set_events, event_at. cbn. f_equal. destruct c. cbn.
  f_equal. destruct (_ !! i) as [e|] eqn:E; cbn; [by apply list_insert_id|].
  apply list_insert_ge. by apply lookup_ge_None.
Qed.

(** The event's address, as the code computes it. *)
Lemma event_address ct m :
  contains lay ct (m_mem m) ->
  u64 (u64 (base + events_offset) +
    u64 (u64 (Z.land (u64 (ticket ct)) (u64 (kTransactionEventCapacity - 1))) * u64 kEventBytes)) =
  event_addr lay (ring_slot (ticket ct)).
Proof.
  intros Hm. pose proof (cell_range lay ct (m_mem m) (Word event_write_index) Hm Logic.I) as Ht. cbn in Ht.
  fold (ticket ct) in Ht. pose proof (ring_slot_lt (ticket ct)) as Hi.
  pose proof (event_addr_range ct m _ Hm Hi) as Ha. destruct (cn_layout _ _ _ Hm) as [Hc _ _ _ _].
  rewrite (u64_small (ticket ct)) by lia.
  change (u64 (kTransactionEventCapacity - 1)) with (kTransactionEventCapacity - 1).
  rewrite <-ring_slot_value by lia. change (u64 kEventBytes) with 160. unfold event_addr, events_offset, kEventBytes in *.
  destruct offsets as (_ & _ & _ & _ & _ & _ & _ & Hbytes & Hhead). rewrite Hbytes in Hc. rewrite Hhead in *.
  rewrite (u64_small (Z.of_nat _)), (u64_small (Z.of_nat _ * 160)), (u64_small (base + 496)) by lia.
  rewrite u64_small by lia. lia.
Qed.

(** The contents with the event of the ticket reserved. *)
Definition reserved ct : contents :=
  with_event (ring_slot (ticket ct)) (reserved_event (next_id ct) (event_at (evs ct) (ring_slot (ticket ct))))
    (bump event_write_index 1 ct).

Lemma reserve_spec ct rest m :
  contains lay ct (m_mem m) -> length (evs ct) = 256%nat -> m_reg m 23 = scratch lay ->
  reaches prog (reserve_event_code base ++ rest) m rest
    (fun m' => contains lay (reserved ct) (m_mem m') /\ m_reg m' 26 = next_id ct /\
       filling (ring_slot (ticket ct)) m m').
Proof.
  intros Hm Hlen H23. pose proof (cell_range lay ct (m_mem m) (Word event_write_index) Hm Logic.I) as Ht. cbn in Ht.
  fold (ticket ct) in Ht. set (i := ring_slot (ticket ct)). pose proof (ring_slot_lt (ticket ct)) as Hi. fold i in Hi.
  pose proof (event_addr_range ct m i Hm Hi) as Ha.
  unfold reserve_event_code. cbn [app]. plain. plain. rewrite (word_addr ct m event_write_index Hm).
  set (m1 := set_reg 10 _ _).
  destruct (store_field lay ct m1 (Word event_write_index) (context_kaddr lay + word_offset event_write_index)
    (ticket ct + 1) (bump event_write_index 1 ct) Hm Logic.I eq_refl (sets_word ct _ _)) as (mem & Hstore & Hmem).
  eapply reach_step.
  { cbn [step]. rewrite (load_field lay ct m1 (Word event_write_index)); [|exact Hm|done|].
    - cbn [mbind option_bind field_get]. change (field_width (Word event_write_index)) with 8 in Hstore.
      change (rd m1 X 10) with 1. change (rd m1 X 9) with (u64 (context_kaddr lay + word_offset event_write_index)).
      rewrite (word_addr ct m event_write_index Hm). fold (ticket ct). rewrite Hstore. reflexivity.
    - change (rd m1 X 9) with (u64 (context_kaddr lay + word_offset event_write_index)). by rewrite (word_addr ct m _ Hm). }
  regs. do 8 plain. set (ct1 := bump event_write_index 1 ct) in *. set (m2 := set_reg 12 _ _).
  assert (H26 : m_reg m2 26 = next_id ct).
  { unfold m2, next_id. regs. rewrite (u64_small (ticket ct)) by lia. done. }
  assert (H12 : m_reg m2 12 = u64 (2 * next_id ct - 1)).
  { unfold m2, next_id. regs. rewrite (u64_small (ticket ct)) by lia. change (u64 1) with 1.
    rewrite Z.shiftl_mul_pow2, u64_sub_l by lia. f_equal. lia. }
  assert (Hfl : filling i m m2).
  { split; [exact H23| |unfold m2, m1; same_regs]. unfold m2. regs. rewrite (event_address ct m) by done. done. }
  assert (Hm2 : contains lay (with_event i (event_at (evs ct) i) ct1) (m_mem m2)).
  { change (evs ct) with (evs ct1). rewrite with_event_id. exact Hmem. }
  eapply (event_str i m Hi ct1 _ ESequence (u64 (2 * next_id ct - 1)));
    [exact Hm2|exact Hlen|exact Hfl|done|done| |done|].
  { regs. rewrite H12, u64_u64. apply Z.mod_small. apply u64_range. }
  intros m3 Hm3 Hfl3 Hs3. eapply (event_str i m Hi ct1 _ EEventId (next_id ct));
    [exact Hm3|exact Hlen|exact Hfl3|done|done| |done|].
  { regs. rewrite (proj1 Hs3) by reg_solver. rewrite H26. unfold next_id. rewrite u64_u64. apply Z.mod_small, u64_range. }
  intros m4 Hm4 Hfl4 Hs4. apply reach_here. split; [|split; [|exact Hfl4]].
  - unfold reserved. fold i. rewrite reserved_event_sets. exact Hm4.
  - by rewrite (proj1 Hs4), (proj1 Hs3) by reg_solver.
Qed.

(** * The copies *)

(** The registers that stay as they are while an event is recorded. *)
Record recording (corr command : Z) ct (m : machine) : Prop := {
  rc_task : m_reg m 27 = task_kaddr (ct_task ct);
  rc_scratch : m_reg m 23 = scratch lay;
  rc_corr : m_reg m 21 = corr;
  rc_command : m_reg m 24 = command;
}.

Lemma recording_next corr command ct ct' rs m m' :
  recording corr command ct m -> same_but rs m m' -> (forall r, r ∈ [21; 23; 24; 27]%nat -> r ∉ rs) ->
  ct_task ct' = ct_task ct -> recording corr command ct' m'.
Proof.
  intros [H27 H23 H21 H24] Hs Hin Ht. split; rewrite ?Ht, (proj1 Hs) by (apply Hin; reg_solver); done.
Qed.

(** A field of the current task goes to the event. *)
Lemma task_copy ct i e m0 f ef r off rest m target Q :
  (i < 256)%nat -> contains lay (with_event i e ct) (m_mem m) -> length (evs ct) = 256%nat -> filling i m0 m ->
  m_reg m 27 = task_kaddr (ct_task ct) -> 0 < task_kaddr (ct_task ct) < 2 ^ 64 ->
  (f = TaskPid /\ ef = EPid /\ r = 11%nat \/ f = TaskTgid /\ ef = ETgid /\ r = 12%nat) ->
  off = (if decide (f = TaskPid) then offset_pid lay else offset_tgid lay) ->
  (forall m', contains lay (with_event i (event_sets e ef (field_get ct f)) ct) (m_mem m') -> filling i m0 m' ->
     same_but [11; 12]%nat m m' -> reaches prog rest m' target Q) ->
  reaches prog (Ldr 4 r 27 off :: Str 4 r 28 (event_offset ef) :: rest) m target Q.
Proof.
  intros Hi Hm Hlen Hfl H27 Htask Hf -> Hnext.
  assert (Hok : field_ok f) by (by destruct Hf as [(-> & _)|(-> & _)]).
  assert (Hw : field_width f = 4) by (by destruct Hf as [(-> & _)|(-> & _)]).
  assert (Hew : event_width ef = 4) by (by destruct Hf as [(_ & -> & _)|(_ & -> & _)]).
  assert (Hr : r ∈ [11; 12]%nat /\ r <> 31%nat /\ r <> 28%nat).
  { destruct Hf as [(_ & _ & ->)|(_ & _ & ->)]; (split; [reg_solver|done]). }
  assert (Hs1 : same_but [11; 12]%nat m (set_reg r (field_get ct f) m)).
  { destruct Hf as [(_ & _ & ->)|(_ & _ & ->)]; same_regs. }
  pose proof (cell_range _ _ _ f Hm Hok) as Hv. rewrite Hw in Hv.
  assert (Hget : field_get (with_event i e ct) f = field_get ct f) by (by destruct Hf as [(-> & _)|(-> & _)]).
  rewrite Hget in Hv.
  eapply (reach_ldr lay prog (with_event i e ct) f); [exact Hm|exact Hok|done| |].
  { apply (task_field_addr f (with_event i e ct) m Hm H27); [cbn; lia|]. destruct Hf as [(-> & _)|(-> & _)]; auto. }
  rewrite Hget. eapply (event_str i m0 Hi ct e ef (field_get ct f)); [exact Hm|exact Hlen| |done|done| | |].
  - eapply filling_step; [exact Hfl|]. eapply same_but_more; [|exact Hs1]. reg_solver.
  - unfold rd. rewrite (proj2 (Nat.eqb_neq r 31)) by apply Hr. cbn [mask m_reg set_reg]. rewrite Nat.eqb_refl, Hew.
    rewrite u64_small, Z.mod_small by lia. done.
  - by destruct Hf as [(_ & -> & _)|(_ & -> & _)].
  - intros m' Hm' Hfl' Hs'. apply Hnext; [exact Hm'|exact Hfl'|].
    eapply same_but_trans; [exact Hs1|]. eapply same_but_more; [|exact Hs']. reg_solver.
Qed.

Lemma fill_spec ct i e corr command rest m0 m :
  contains lay (with_event i e ct) (m_mem m) -> length (evs ct) = 256%nat -> (i < 256)%nat ->
  filling i m0 m -> recording corr command ct m ->
  0 <= corr < 2 ^ 64 -> 0 <= command < 2 ^ 32 -> 0 < task_kaddr (ct_task ct) < 2 ^ 64 ->
  reaches prog (fill_event_code (offset_pid lay) (offset_tgid lay) ++ rest) m rest
    (fun m' => contains lay (with_event i (filled ct corr command e) ct) (m_mem m') /\ filling i m0 m' /\
       same_but [11; 12]%nat m m').
Proof.
  intros Hm Hlen Hi Hfl Hrc Hcorr Hcommand Htask. pose proof Hrc as [H27 H23 H21 H24].
  unfold fill_event_code. rewrite <-!app_assoc. cbn [app].
  eapply (event_str i m0 Hi ct e ETaskKaddr (task_kaddr (ct_task ct))); [exact Hm|exact Hlen|exact Hfl|done|done| |done|].
  { regs. rewrite H27, u64_small by lia. apply Z.mod_small. cbn. lia. }
  intros m1 Hm1 Hfl1 Hs1.
  eapply (event_str i m0 Hi ct _ ECorrelatedRequestId corr); [exact Hm1|exact Hlen|exact Hfl1|done|done| |done|].
  { regs. rewrite (proj1 Hs1), H21, u64_small by (reg_solver || lia). apply Z.mod_small. cbn. lia. }
  intros m2 Hm2 Hfl2 Hs2. assert (Hs02 : same_but [] m m2) by (by eapply same_but_trans).
  eapply (task_copy ct i _ m0 TaskPid EPid 11); [done|exact Hm2|exact Hlen|exact Hfl2| |exact Htask|auto|done|].
  { by rewrite (proj1 Hs02) by reg_solver. }
  intros m3 Hm3 Hfl3 Hs3. assert (Hs03 : same_but [11; 12]%nat m m3).
  { eapply (same_but_trans _ m m2); [eapply same_but_more; [|exact Hs02]; reg_solver|exact Hs3]. }
  eapply (task_copy ct i _ m0 TaskTgid ETgid 12); [done|exact Hm3|exact Hlen|exact Hfl3| |exact Htask|auto|done|].
  { by rewrite (proj1 Hs03) by reg_solver. }
  intros m4 Hm4 Hfl4 Hs4. assert (Hs04 : same_but [11; 12]%nat m m4) by (by eapply same_but_trans).
  eapply (event_str i m0 Hi ct _ ECommand command); [exact Hm4|exact Hlen|exact Hfl4|done|done| |done|].
  { regs. rewrite (proj1 Hs04), H24, u64_small by (reg_solver || lia). apply Z.mod_small. cbn. lia. }
  intros m5 Hm5 Hfl5 Hs5. eapply (copies_spec i m0 Hi parsed_copies); [exact Hm5|exact Hlen|exact Hfl5|done|].
  intros m6 Hm6 Hfl6 Hs6.
  eapply (event_str i m0 Hi ct _ EReserved0 0); [exact Hm6|exact Hlen|exact Hfl6|done|done|done|done|].
  intros m7 Hm7 Hfl7 Hs7.
  eapply (event_str i m0 Hi ct _ EReserved1 0); [exact Hm7|exact Hlen|exact Hfl7|done|done|done|done|].
  intros m8 Hm8 Hfl8 Hs8. eapply (copies_spec i m0 Hi td_copies); [exact Hm8|exact Hlen|exact Hfl8|done|].
  intros m9 Hm9 Hfl9 Hs9. apply reach_here. split; [exact Hm9|]. split; [exact Hfl9|].
  eapply same_but_trans; [exact Hs04|]. eapply (same_but_trans _ m4 m5); [eapply same_but_more; [|exact Hs5]; reg_solver|].
  eapply (same_but_trans _ m5 m6); [eapply same_but_more; [|exact Hs6]; reg_solver|].
  eapply (same_but_trans _ m6 m7); [eapply same_but_more; [|exact Hs7]; reg_solver|].
  eapply (same_but_trans _ m7 m8); eapply same_but_more; [|exact Hs8| |exact Hs9]; reg_solver.
Qed.

(** * The kind, the request and the publication *)

Lemma kind_spec ct i e k rest m0 m :
  contains lay (with_event i e ct) (m_mem m) -> length (evs ct) = 256%nat -> (i < 256)%nat -> filling i m0 m ->
  reaches prog (kind_code k ++ rest) m rest
    (fun m' => contains lay (with_event i (event_sets e EKind (kind_num k)) ct) (m_mem m') /\ filling i m0 m' /\
       same_but [12]%nat m m').
Proof.
  intros Hm Hlen Hi Hfl. unfold kind_code. cbn [app]. plain.
  eapply (event_str i m0 Hi ct e EKind (kind_num k)); [exact Hm|exact Hlen| |done|done| |by destruct k|].
  - eapply filling_step; [exact Hfl|same_regs].
  - regs. by destruct k.
  - intros m1 Hm1 Hfl1 Hs1. apply reach_here. split; [exact Hm1|]. split; [exact Hfl1|].
    eapply same_but_trans; [|eapply same_but_more; [|exact Hs1]; reg_solver]. same_regs.
Qed.

(** The contents with event [i] published. *)
Definition published (i : nat) (id : Z) ct : contents :=
  with_event i (published_event id (event_at (evs ct) i)) (bump transaction_metadata_ok 1 ct).

Lemma publish_spec ct i id rest m :
  contains lay ct (m_mem m) -> length (evs ct) = 256%nat -> (i < 256)%nat -> m_reg m 28 = event_addr lay i ->
  m_reg m 26 = id -> 0 <= id < 2 ^ 64 ->
  reaches prog (counter_increment_code base transaction_metadata_ok ++ publish_event_code ++ rest) m rest
    (fun m' => contains lay (published i id ct) (m_mem m') /\ same_but [9; 10; 12; 31]%nat m m').
Proof.
  intros Hm Hlen Hi H28 H26 Hid. eapply reach_trans; [by apply (increment_code _ _ m ct)|]. intros m1 [Hm1 Hs1].
  unfold publish_event_code. cbn [app]. plain. rewrite (proj1 Hs1), H26, (u64_small id) by (reg_solver || lia).
  set (ct1 := bump transaction_metadata_ok 1 ct) in *.
  pose proof (event_addr_range _ m1 i Hm1 Hi) as Ha.
  eapply (reach_stlr lay prog ct1 _ (Event i ESequence)); [exact Hm1|exact Hi|done| | |].
  - regs. rewrite (proj1 Hs1), H28 by reg_solver. cbn. rewrite u64_small by lia. lia.
  - regs. change (u64 1) with 1. rewrite Z.shiftl_mul_pow2 by lia. cbn [field_width].
    change (256 ^ event_width ESequence) with (2 ^ 64). rewrite (Z.mod_small (u64 _)) by apply u64_range.
    apply sets_event; [cbn; lia|done].
  - intros mem Hmem. apply reach_here. split.
    + unfold published. rewrite published_event_sets. rewrite (Z.mul_comm 2 id). rewrite u64_u64 in Hmem. exact Hmem.
    + eapply same_but_trans; [eapply same_but_more; [|exact Hs1]; reg_solver|same_regs].
Qed.

#[local] Abbreviation kept_by_push := [9; 10; 11; 12; 13; 14; 15; 16; 17; 31]%nat.

Section Handler.
Context {U : Type} `{UserAccess U}.

(** The state a push finds. *)
Definition counted_hit (s : hstate U) : hstate U := (emit_counter_increment server_request_hits s).2.

(** A delivered transaction that asks for the identifier is remembered. *)
Lemma remember_spec ct i e id k publish skip push fpub before after rest corr command m0 m (s : hstate U) :
  let ct3 := with_event i (event_sets e EKind (kind_num k)) ct in
  prog = before ++ pending_push_code base (offset_pid lay) (offset_tgid lay) push ++ [Bind skip; B publish] ++ after ->
  (forall l, l ∈ binds before -> (l < push)%nat) ->
  find_label prog skip = Some ([B publish] ++ after) -> find_label prog publish = Some fpub ->
  rest = after -> contains lay (with_event i e ct) (m_mem m) -> length (evs ct) = 256%nat -> (i < 256)%nat ->
  filling i m0 m -> recording corr command ct m -> m_reg m 26 = id -> 0 <= id < 2 ^ 64 ->
  tries_ok (m_tries m) -> pending_wf (pending (ct_ctx ct)) -> 0 < task_kaddr (ct_task ct) < 2 ^ 64 ->
  h_ctx s = ct_ctx ct3 -> hd [] (h_locks s) = m_tries m ->
  let asked := Z.testbit (ct_scratch ct kParcelFlags) 0 in
  let c := if asked then h_ctx (emit_pending_push (ct_task ct) id (ct_td ct) (ct_scratch ct kParcelFlags) (counted_hit s)).2
           else ct_ctx ct3 in
  reaches prog (remember_code base (offset_pid lay) (offset_tgid lay) k publish skip push ++ rest) m fpub
    (fun m' => (exists g, contains lay (with_generation g (with_ctx c ct)) (m_mem m')) /\ kept kept_by_push m m').
Proof.
  intros ct3 Hprog Hbefore Hskip Hpub -> Hm Hlen Hi Hfl Hrc H26 Hid Htries Hwf Htask Hctx Hscript asked c.
  unfold remember_code. rewrite <-!app_assoc.
  eapply reach_trans; [by apply (kind_spec ct i e k _ m0 m)|]. intros m1 (Hm1 & Hfl1 & Hs1). fold ct3 in Hm1.
  pose proof (cell_range _ _ _ (Parsed kParcelFlags) Hm1 Logic.I) as Hf. cbn in Hf.
  cbn [app]. eapply (reach_ldr lay prog ct3 (Parsed kParcelFlags)); [exact Hm1|done|done| |].
  { apply (scratch_addr ct3 m1 (Parsed kParcelFlags) Hm1 eq_refl), Hfl1. }
  cbn [field_get]. change (ct_scratch ct3) with (ct_scratch ct). set (m2 := set_reg 11 _ m1).
  assert (Hs2 : same_but kept_by_push m m2).
  { eapply (same_but_trans _ m m1); [eapply same_but_more; [|exact Hs1]; reg_solver|unfold m2; same_regs]. }
  eapply reach_tbz; [exact Hskip|..]; unfold m2 at 1; regs; rewrite u64_small by lia; intros Hbit;
    unfold c, asked; rewrite Hbit.
  { eapply reach_jump; [exact Hpub|]. apply reach_here. split; [|eapply kept_same; [exact Hs2|done]].
    exists (ct_generation ct). exact Hm1. }
  eapply reach_trans; [apply (increment_code _ _ m2 ct3); exact Hm1|]. intros m3 [Hm3 Hs3].
  assert (Hs03 : same_but kept_by_push m m3).
  { eapply same_but_trans; [exact Hs2|]. eapply same_but_more; [|exact Hs3]. reg_solver. }
  set (ct4 := bump server_request_hits 1 ct3) in *.
  eapply reach_trans.
  { apply (push_code push before ([Bind skip; B publish] ++ after) Hprog Hbefore ct4 id (counted_hit s) m3);
      [|by rewrite (proj1 (proj2 Hs03))|exact Hwf|exact Hid|exact Htask| |by rewrite (proj1 (proj2 Hs03))].
    - destruct Hrc as [H27 H23 _ _]. split; rewrite ?(proj1 Hs03) by reg_solver; done.
    - cbn. by rewrite Hctx. }
  intros m4 [[g Hm4] Hk4]. cbn [app]. plain. eapply reach_jump; [exact Hpub|]. apply reach_here.
  split; [exists g; exact Hm4|]. eapply kept_trans; [|exact Hk4]. eapply kept_same; [exact Hs03|done].
Qed.

End Handler.

(** * The labels *)

Lemma find_push l push rest :
  (l < push)%nat ->
  find_label (pending_push_code base (offset_pid lay) (offset_tgid lay) push ++ rest) l = find_label rest l.
Proof. intros Hl. apply find_label_skip. intros Hin%(push_binds (lay := lay)). lia. Qed.

Lemma find_remember l k publish skip push rest :
  (l < push)%nat ->
  find_label (remember_code base (offset_pid lay) (offset_tgid lay) k publish skip push ++ rest) l =
  if Nat.eqb skip l then Some ([B publish] ++ rest) else find_label rest l.
Proof.
  intros Hl. unfold remember_code. rewrite <-!app_assoc. unfold kind_code, counter_increment_code, atomic_increment_code.
  cbn [app find_label]. rewrite find_push by done. reflexivity.
Qed.

Section Whole.
Context (type : Z) (publish : label) (before after : code).
#[local] Abbreviation tail := (record_tail_code base (offset_pid lay) (offset_tgid lay) type publish).
Context (Hprog : prog = before ++ tail ++ after).
Context (Hbefore : forall l, l ∈ binds before -> (l < publish)%nat).

Definition at_publish : code := counter_increment_code base transaction_metadata_ok ++ publish_event_code.

Definition kinds_code : code :=
  (if type =? ioc_c then sent_kind_code publish (publish + 1)
   else received_kind_code base (offset_pid lay) (offset_tgid lay) publish) ++ [Bind publish] ++ at_publish ++ after.

Lemma tail_parts :
  tail ++ after = reserve_event_code base ++ fill_event_code (offset_pid lay) (offset_tgid lay) ++ kinds_code.
Proof. unfold record_tail_code, kinds_code, at_publish. by rewrite <-!app_assoc. Qed.

Lemma find_kinds l : (publish <= l)%nat -> find_label prog l = find_label kinds_code l.
Proof.
  intros Hl. rewrite Hprog, find_label_skip by (intros Hin; apply Hbefore in Hin; lia). rewrite tail_parts.
  rewrite !find_label_skip by (apply not_elem_of_nil). reflexivity.
Qed.

Lemma sent_labels :
  (type =? ioc_c) = true ->
  find_label prog publish = Some (at_publish ++ after) /\
  find_label prog (publish + 1) = Some (kind_code kBcTransaction ++ [B publish; Bind publish] ++ at_publish ++ after).
Proof.
  intros Ht. rewrite !find_kinds by lia. unfold kinds_code. rewrite Ht. unfold sent_kind_code, kind_code.
  rewrite <-!app_assoc. cbn [app find_label]. split; find_solver.
Qed.

(** Behind the labels [normal_transaction] and [not_reply]. *)
Definition at_normal : code :=
  remember_code base (offset_pid lay) (offset_tgid lay) kBrTransaction publish (publish + 4) (publish + 49) ++
  [Bind publish] ++ at_publish ++ after.

Definition at_not_reply : code :=
  [Mov X 12 (Imm BR_TRANSACTION_SEC_CTX); Cmp W 24 (Reg 12); BCond NE (publish + 2)]%nat ++
  remember_code base (offset_pid lay) (offset_tgid lay) kBrTransactionSecCtx publish (publish + 3) (publish + 5) ++
  [Bind (publish + 2)]%nat ++ at_normal.

Lemma received_code :
  (type =? ioc_c) = false ->
  kinds_code = [Mov X 12 (Imm BR_REPLY); Cmp W 24 (Reg 12); BCond NE (publish + 1)]%nat ++ kind_code kBrReply ++
    [B publish; Bind (publish + 1)]%nat ++ at_not_reply.
Proof.
  intros Ht. unfold kinds_code. rewrite Ht. unfold received_kind_code, at_not_reply, at_normal. by rewrite <-!app_assoc.
Qed.

Lemma received_labels :
  (type =? ioc_c) = false ->
  find_label prog publish = Some (at_publish ++ after) /\
  find_label prog (publish + 1) = Some at_not_reply /\
  find_label prog (publish + 2) = Some at_normal /\
  find_label prog (publish + 3) = Some ([B publish; Bind (publish + 2)]%nat ++ at_normal) /\
  find_label prog (publish + 4) = Some ([B publish; Bind publish] ++ at_publish ++ after).
Proof.
  intros Ht. rewrite !find_kinds by lia. rewrite (received_code Ht). unfold kind_code, at_not_reply, at_normal.
  repeat split; repeat (first [rewrite find_remember by lia|progress cbn [app find_label]|
    match goal with
    | |- context [Nat.eqb ?a ?b] =>
        first [rewrite (proj2 (Nat.eqb_neq a b)) by lia|rewrite (proj2 (Nat.eqb_eq a b)) by lia]
    end]); reflexivity.
Qed.

Section Kinds.
Context {U : Type} `{UserAccess U}.
Context (ct : contents) (i : nat) (e : BinderTransactionEvent) (id corr command : Z) (m0 : machine) (s : hstate U).
#[local] Abbreviation kinded k := (with_event i (event_sets e EKind (kind_num k)) ct).

(** Where the kinds are looked at from. *)
Record at_kinds (m : machine) : Prop := {
  ak_mem : contains lay (with_event i e ct) (m_mem m);
  ak_filling : filling i m0 m;
  ak_recording : recording corr command ct m;
  ak_id : m_reg m 26 = id;
  ak_tries : tries_ok (m_tries m);
  ak_script : hd [] (h_locks s) = m_tries m;
}.

Context (Hlen : length (evs ct) = 256%nat) (Hi : (i < 256)%nat) (Hid : 0 <= id < 2 ^ 64).
Context (Hcommand : 0 <= command < 2 ^ 32) (Hwf : pending_wf (pending (ct_ctx ct))).
Context (Htask : 0 < task_kaddr (ct_task ct) < 2 ^ 64).

Lemma at_kinds_step rs m m' :
  at_kinds m -> m_mem m' = m_mem m -> same_but rs m m' -> (forall r, r ∈ rs -> r ∈ [9; 10; 11; 12; 31]%nat) ->
  at_kinds m'.
Proof.
  intros [Hm Hfl Hrc H26 Ht Hs] Hmem Hsame Hsub.
  assert (Hs' : same_but [9; 10; 11; 12; 31]%nat m m') by (by eapply same_but_more).
  split; rewrite ?Hmem, ?(proj1 (proj2 Hsame)); try done.
  - by eapply filling_step.
  - eapply recording_next; [exact Hrc|exact Hs'| |done]. reg_solver.
  - by rewrite (proj1 Hs') by reg_solver.
Qed.

(** Where a kind is written and nothing else happens. *)
Lemma plain_kind k next m :
  find_label prog publish = Some (at_publish ++ after) -> at_kinds m ->
  reaches prog (kind_code k ++ B publish :: next) m (at_publish ++ after)
    (fun m' => (exists g, contains lay (with_generation g (with_ctx (ct_ctx (kinded k)) ct)) (m_mem m')) /\
       kept kept_by_push m m').
Proof.
  intros Hpub Hak. eapply reach_trans; [apply (kind_spec ct i e k _ m0 m); [apply Hak|done|done|apply Hak]|].
  intros m1 (Hm1 & _ & Hs1). eapply reach_jump; [exact Hpub|]. apply reach_here.
  split; [exists (ct_generation ct); exact Hm1|]. eapply kept_same; [exact Hs1|reg_solver].
Qed.

(** A comparison of the command. *)
Lemma command_test c n rest m target Q :
  0 <= n < 2 ^ 32 -> at_kinds m ->
  (forall m', at_kinds m' -> same_but [12]%nat m m' -> m_zero m' = (command =? n) ->
     reaches prog (BCond c.1 c.2 :: rest) m' target Q) ->
  reaches prog (Mov X 12 (Imm n) :: Cmp W 24 (Reg 12) :: BCond c.1 c.2 :: rest) m target Q.
Proof.
  intros Hn Hak Hnext. plain. plain. apply Hnext.
  - eapply (at_kinds_step [12]%nat); [exact Hak|done|same_regs|]. reg_solver.
  - same_regs.
  - cbn. rewrite (rc_command _ _ _ _ (ak_recording _ Hak)), u32_small, (u64_small n), u32_small by lia. done.
Qed.

Lemma sent_kinds m :
  (type =? ioc_c) = true -> at_kinds m -> h_ctx s = ct_ctx (kinded (event_kind type command)) ->
  reaches prog kinds_code m (at_publish ++ after)
    (fun m' => (exists g, contains lay (with_generation g (with_ctx (h_ctx s) ct)) (m_mem m')) /\ kept kept_by_push m m').
Proof.
  intros Ht Hak Hctx. destruct (sent_labels Ht) as [Hpub Hreq]. rewrite Hctx.
  unfold kinds_code, event_kind. rewrite Ht. unfold sent_kind_code. rewrite <-!app_assoc. cbn [app].
  assert (Hweak : forall m1 k next, at_kinds m1 -> same_but [12]%nat m m1 ->
    reaches prog (kind_code k ++ B publish :: next) m1 (at_publish ++ after)
    (fun m' => (exists g, contains lay (with_generation g (with_ctx (ct_ctx (kinded k)) ct)) (m_mem m')) /\
       kept kept_by_push m m')).
  { intros m1 k next Hak1 Hs1. eapply reach_mono; [by apply plain_kind|]. intros m' [Hg Hk]. split; [exact Hg|].
    eapply kept_trans; [|exact Hk]. eapply kept_same; [exact Hs1|reg_solver]. }
  apply (command_test (EQ, (publish + 1)%nat) BC_TRANSACTION); [by vm_compute|exact Hak|].
  intros m1 Hak1 Hs1 Hz1. eapply reach_bcond; [exact Hreq|..]; cbn [holds fst snd]; rewrite Hz1; intros E1; rewrite E1.
  { by apply Hweak. }
  apply (command_test (EQ, (publish + 1)%nat) BC_TRANSACTION_SG); [by vm_compute|exact Hak1|].
  intros m2 Hak2 Hs2 Hz2. assert (Hs02 : same_but [12]%nat m m2) by (by eapply same_but_trans).
  eapply reach_bcond; [exact Hreq|..]; cbn [holds fst snd]; rewrite Hz2; intros E2; rewrite E2; by apply Hweak.
Qed.

(** A delivered transaction, of one kind or the other. *)
Lemma remembered_kind k skip push pre next m :
  prog = pre ++ pending_push_code base (offset_pid lay) (offset_tgid lay) push ++ [Bind skip; B publish] ++ next ->
  (forall l, l ∈ binds pre -> (l < push)%nat) ->
  find_label prog skip = Some ([B publish] ++ next) -> find_label prog publish = Some (at_publish ++ after) ->
  at_kinds m -> h_ctx s = ct_ctx (kinded k) -> (type =? ioc_c) = false -> (command =? BR_REPLY) = false ->
  reaches prog (remember_code base (offset_pid lay) (offset_tgid lay) k publish skip push ++ next) m (at_publish ++ after)
    (fun m' => (exists g, contains lay (with_generation g (with_ctx
       (h_ctx (remember_request type command id (ct_task ct) (ct_td ct) (ct_scratch ct) s).2) ct)) (m_mem m')) /\
       kept kept_by_push m m').
Proof.
  intros Hpush Hpre Hskip Hpub [Hm Hfl Hrc H26 Htries Hscript] Hctx Ht Hr.
  eapply reach_mono.
  - apply (remember_spec ct i e id k publish skip push (at_publish ++ after) pre next next corr command m0 m s Hpush Hpre
      Hskip Hpub eq_refl Hm Hlen Hi Hfl Hrc H26 Hid Htries Hwf Htask Hctx Hscript).
  - intros m' [[g Hg] Hk]. split; [|exact Hk]. exists g. unfold remember_request. rewrite Ht, Hr. cbn [orb].
    unfold counted_hit in Hg. destruct (Z.testbit (ct_scratch ct kParcelFlags) 0); [exact Hg|].
    cbn. rewrite Hctx. exact Hg.
Qed.

(** The program around the two pushes. *)
Lemma around_pushes :
  (type =? ioc_c) = false ->
  let lead k skip := kind_code k ++ [Ldr 4 11 23 348; Tbz 11 0 skip] ++ counter_increment_code base server_request_hits in
  let push := pending_push_code base (offset_pid lay) (offset_tgid lay) in
  let head := before ++ reserve_event_code base ++ fill_event_code (offset_pid lay) (offset_tgid lay) ++
    [Mov X 12 (Imm BR_REPLY); Cmp W 24 (Reg 12); BCond NE (publish + 1)]%nat ++ kind_code kBrReply ++
    [B publish; Bind (publish + 1)]%nat ++
    [Mov X 12 (Imm BR_TRANSACTION_SEC_CTX); Cmp W 24 (Reg 12); BCond NE (publish + 2)]%nat ++
    lead kBrTransactionSecCtx (publish + 3)%nat in
  prog = head ++ push (publish + 5)%nat ++ [Bind (publish + 3); B publish]%nat ++ [Bind (publish + 2)]%nat ++ at_normal /\
  prog = (head ++ push (publish + 5)%nat ++ [Bind (publish + 3); B publish; Bind (publish + 2)]%nat ++
    lead kBrTransaction (publish + 4)%nat) ++ push (publish + 49)%nat ++ [Bind (publish + 4); B publish]%nat ++
    [Bind publish] ++ at_publish ++ after /\
  (forall l, l ∈ binds head -> (l < publish + 5)%nat) /\
  (forall l, l ∈ binds (head ++ push (publish + 5)%nat ++ [Bind (publish + 3); B publish; Bind (publish + 2)]%nat ++
    lead kBrTransaction (publish + 4)%nat) -> (l < publish + 49)%nat).
Proof.
  intros Ht lead push head.
  assert (Hlead : forall k skip l, l ∈ binds (lead k skip) -> False).
  { intros k skip l Hin. by apply elem_of_nil in Hin. }
  assert (Hhead : forall l, l ∈ binds head -> (l < publish + 5)%nat).
  { intros l. unfold head. rewrite !binds_app, !elem_of_app. intros [Hin|[Hin|[Hin|[Hin|[Hin|[Hin|[Hin|Hin]]]]]]].
    - apply Hbefore in Hin. lia.
    - by apply elem_of_nil in Hin.
    - by apply elem_of_nil in Hin.
    - by apply elem_of_nil in Hin.
    - by apply elem_of_nil in Hin.
    - apply list_elem_of_singleton in Hin. lia.
    - by apply elem_of_nil in Hin.
    - by apply Hlead in Hin. }
  assert (Hfirst : prog = head ++ push (publish + 5)%nat ++ [Bind (publish + 3); B publish]%nat ++ [Bind (publish + 2)]%nat ++ at_normal).
  { rewrite Hprog, tail_parts, (received_code Ht). unfold at_not_reply, head, lead, remember_code, push.
    by rewrite <-!app_assoc. }
  split; [exact Hfirst|]. split; [|split; [exact Hhead|]].
  - rewrite Hfirst at 1. unfold at_normal, remember_code, lead, push. by rewrite <-!app_assoc.
  - intros l. rewrite (binds_app head), elem_of_app. intros [Hin|Hin]; [apply Hhead in Hin; lia|].
    rewrite !binds_app, !elem_of_app in Hin. destruct Hin as [Hin|[Hin|Hin]].
    + apply (push_binds (lay := lay)) in Hin. lia.
    + cbn in Hin. repeat (apply elem_of_cons in Hin as [->|Hin]; [lia|]). by apply elem_of_nil in Hin.
    + by apply Hlead in Hin.
Qed.

Lemma received_kinds m :
  (type =? ioc_c) = false -> at_kinds m -> h_ctx s = ct_ctx (kinded (event_kind type command)) ->
  reaches prog kinds_code m (at_publish ++ after)
    (fun m' => (exists g, contains lay (with_generation g (with_ctx
       (h_ctx (remember_request type command id (ct_task ct) (ct_td ct) (ct_scratch ct) s).2) ct)) (m_mem m')) /\
       kept kept_by_push m m').
Proof.
  intros Ht Hak Hctx. destruct (received_labels Ht) as (Hpub & Hnot & Hnormal & H3 & H4).
  destruct (around_pushes Ht) as (Hprog1 & Hprog2 & Hpre1 & Hpre2).
  rewrite (received_code Ht). unfold event_kind in Hctx. rewrite Ht in Hctx. cbn [app].
  apply (command_test (NE, (publish + 1)%nat) BR_REPLY); [by vm_compute|exact Hak|]. intros m1 Hak1 Hs1 Hz1.
  assert (Hweak : forall m2 P, same_but [12]%nat m m2 ->
    reaches prog P m2 (at_publish ++ after) (fun m' => (exists g, contains lay (with_generation g (with_ctx
       (h_ctx (remember_request type command id (ct_task ct) (ct_td ct) (ct_scratch ct) s).2) ct)) (m_mem m')) /\
       kept kept_by_push m2 m') ->
    reaches prog P m2 (at_publish ++ after) (fun m' => (exists g, contains lay (with_generation g (with_ctx
       (h_ctx (remember_request type command id (ct_task ct) (ct_td ct) (ct_scratch ct) s).2) ct)) (m_mem m')) /\
       kept kept_by_push m m')).
  { intros m2 P Hs Hr. eapply reach_mono; [exact Hr|]. intros m' [Hg Hk]. split; [exact Hg|].
    eapply kept_trans; [|exact Hk]. eapply kept_same; [exact Hs|reg_solver]. }
  eapply reach_bcond; [exact Hnot|..]; cbn [holds fst snd]; rewrite Hz1; intros E1.
  - apply negb_true_iff in E1. rewrite E1 in Hctx. unfold at_not_reply. cbn [app].
    apply (command_test (NE, (publish + 2)%nat) BR_TRANSACTION_SEC_CTX); [by vm_compute|exact Hak1|].
    intros m2 Hak2 Hs2 Hz2. assert (Hs02 : same_but [12]%nat m m2) by (by eapply same_but_trans).
    eapply reach_bcond; [exact Hnormal|..]; cbn [holds fst snd]; rewrite Hz2; intros E2; apply (Hweak m2 _ Hs02).
    + apply negb_true_iff in E2. rewrite E2 in Hctx. by eapply remembered_kind.
    + apply negb_false_iff in E2. rewrite E2 in Hctx. by eapply remembered_kind.
  - apply negb_false_iff in E1. rewrite E1 in Hctx. apply (Hweak m1 _ Hs1).
    eapply reach_mono; [by apply plain_kind|]. intros m' [[g Hg] Hk]. split; [|exact Hk]. exists g.
    unfold remember_request. rewrite Ht, E1. cbn. rewrite Hctx. exact Hg.
Qed.

Lemma kinds_spec m :
  at_kinds m -> h_ctx s = ct_ctx (kinded (event_kind type command)) ->
  reaches prog kinds_code m (at_publish ++ after)
    (fun m' => (exists g, contains lay (with_generation g (with_ctx
       (h_ctx (remember_request type command id (ct_task ct) (ct_td ct) (ct_scratch ct) s).2) ct)) (m_mem m')) /\
       kept kept_by_push m m').
Proof.
  intros Hak Hctx. destruct (type =? ioc_c) eqn:Et; [|by apply received_kinds].
  eapply reach_mono; [by apply sent_kinds|]. intros m' [[g Hg] Hk]. split; [|exact Hk]. exists g.
  unfold remember_request. rewrite Et. exact Hg.
Qed.

End Kinds.

Section Run.
Context {U : Type} `{UserAccess U}.

(** The end of emit_record_transaction. *)

(** src/binder_hook_builder.cpp:1112-1240 [emit_record_transaction] *)
Definition record_tail (corr command : Z) (task : TaskStruct) (td : BinderTransactionData) (sc : Scratch) : HM U unit :=
  '(event_id, slot) ← emit_reserve_event;
  update_event slot (fill_event task corr command sc td (event_kind type command));;
  remember_request type command event_id task td sc;;
  emit_counter_increment transaction_metadata_ok;;
  emit_publish_event event_id slot.

Lemma record_transaction_tail command task td :
  emit_record_transaction type command task td =
  (sc ← recognise_request type command td emit_reset_transaction_parse_scratch;
   '(corr, sc) ← correlate_reply type command task td sc;
   record_tail corr command task td sc : HM U unit).
Proof. reflexivity. Qed.

Lemma alter_event f i evs : (i < length evs)%nat -> alter f i evs = <[i := f (event_at evs i)]> evs.
Proof.
  intros [e He]%lookup_lt_is_Some. unfold event_at. rewrite He. cbn.
  apply list_eq. intros j. destruct (decide (i = j)) as [<-|Hne].
  - rewrite list_lookup_alter_eq, He, list_lookup_insert_eq; [done|]. by eapply lookup_lt_Some.
  - by rewrite list_lookup_alter_ne, list_lookup_insert_ne.
Qed.

Lemma remember_keeps_events command id task td sc s :
  length (events (h_ctx (remember_request (U := U) type command id task td sc s).2)) = length (events (h_ctx s)).
Proof.
  assert (He : effect (keeps (fun s : hstate U => events (h_ctx s)))
    (remember_request type command id task td sc : HM U unit)).
  { unfold remember_request, emit_pending_push. walk. }
  by rewrite (He s).
Qed.

(** The contents with the event written but not published. *)
Definition recorded (corr command : Z) ct : contents :=
  let i := ring_slot (ticket ct) in
  with_event i (event_sets (filled ct corr command (reserved_event (next_id ct) (event_at (evs ct) i))) EKind
    (kind_num (event_kind type command))) (bump event_write_index 1 ct).

Lemma record_run ct corr command (s : hstate U) :
  h_ctx s = ct_ctx ct -> length (evs ct) = 256%nat ->
  let s3 := {| h_ctx := ct_ctx (recorded corr command ct); h_mem := h_mem s; h_parcel := h_parcel s;
               h_locks := h_locks s |} in
  let c := h_ctx (remember_request type command (next_id ct) (ct_task ct) (ct_td ct) (ct_scratch ct) s3).2 in
  h_ctx (record_tail corr command (ct_task ct) (ct_td ct) (ct_scratch ct) s).2 =
  ct_ctx (published (ring_slot (ticket ct)) (next_id ct) (with_ctx c ct)).
Proof.
  destruct s as [c0 mem parcel locks]. intros Hs Hlen. cbn [h_ctx] in Hs. subst c0. intros s3 c.
  pose proof (ring_slot_lt (ticket ct)) as Hi. unfold record_tail, emit_reserve_event, update_event, emit_publish_event.
  unfold mbind, HM_bind, mret, HM_ret, h_get, h_modify. cbn [h_ctx h_mem h_parcel h_locks fst snd].
  fold (ticket ct). change (u64 (ticket ct + 1)) with (next_id ct).
  match goal with |- context [remember_request _ _ _ _ _ _ ?s] => set (s3' := s) end.
  assert (Hs3 : s3' = s3).
  { unfold s3', s3. f_equal. unfold recorded. rewrite <-fill_event_sets. unfold set_events. cbn. f_equal.
    rewrite (alter_event _ _ (evs ct)) by lia. rewrite alter_event by (rewrite length_insert; lia).
    rewrite event_at_insert by lia. rewrite decide_True by done. by rewrite list_insert_insert_eq. }
  rewrite Hs3. unfold c.
  pose proof (remember_keeps_events command (next_id ct) (ct_task ct) (ct_td ct) (ct_scratch ct) s3) as Hevs.
  destruct (remember_request _ _ _ _ _ _ s3) as [u s4]. cbn in Hevs |- *. rewrite length_insert, Hlen in Hevs.
  unfold set_events. cbn. f_equal. rewrite alter_event by lia. done.
Qed.

(** C16: recording a transaction as machine code does what the handler's operations do,
    in either direction and for any command: from the reservation of an event, over the
    copies of all its fields and the push of a request that asks for the identifier, to
    the publication, the run comes to the code behind it, and memory then holds the
    context the operations leave: the ring's next event complete and published, the
    request on its thread's stack, the counters moved.  Only scratch registers have
    changed. *)
Theorem emitted_record_refines ct corr command (s : hstate U) m :
  contains lay ct (m_mem m) -> length (evs ct) = 256%nat -> pending_wf (pending (ct_ctx ct)) ->
  recording corr command ct m -> 0 <= corr < 2 ^ 64 -> 0 <= command < 2 ^ 32 ->
  0 < task_kaddr (ct_task ct) < 2 ^ 64 -> tries_ok (m_tries m) ->
  h_ctx s = ct_ctx ct -> hd [] (h_locks s) = m_tries m ->
  let run := record_tail corr command (ct_task ct) (ct_td ct) (ct_scratch ct) s in
  reaches prog (tail ++ after) m after
    (fun m' => (exists g, contains lay (with_generation g (with_ctx (h_ctx run.2) ct)) (m_mem m')) /\
       kept [9; 10; 11; 12; 13; 14; 15; 16; 17; 26; 28; 31]%nat m m').
Proof.
  intros Hm Hlen Hwf Hrc Hcorr Hcommand Htask Htries Hctx Hscript run.
  unfold run. rewrite (record_run ct corr command s Hctx Hlen). rewrite tail_parts.
  set (i := ring_slot (ticket ct)). pose proof (ring_slot_lt (ticket ct)) as Hi. fold i in Hi.
  set (e0 := reserved_event (next_id ct) (event_at (evs ct) i)). set (ct1 := bump event_write_index 1 ct).
  assert (Hid : 0 <= next_id ct < 2 ^ 64) by apply u64_range.
  eapply reach_trans; [apply (reserve_spec ct _ m Hm Hlen), Hrc|]. intros m1 (Hm1 & H26 & Hfl1).
  pose proof (fl_same _ _ _ Hfl1) as Hs1.
  assert (Hrc1 : recording corr command ct1 m1) by (eapply recording_next; [exact Hrc|exact Hs1|reg_solver|done]).
  eapply reach_trans; [by apply (fill_spec ct1 i e0 corr command _ m m1)|]. intros m2 (Hm2 & Hfl2 & Hs2).
  pose proof (fl_same _ _ _ Hfl2) as Hs02.
  set (s3 := {| h_ctx := ct_ctx (recorded corr command ct); h_mem := h_mem s; h_parcel := h_parcel s;
               h_locks := h_locks s |}).
  assert (Hak : at_kinds ct1 i (filled ct1 corr command e0) (next_id ct) corr command m s3 m2).
  { split; [exact Hm2|exact Hfl2| | | |].
    - eapply recording_next; [exact Hrc1|exact Hs2|reg_solver|done].
    - by rewrite (proj1 Hs2) by reg_solver.
    - by rewrite (proj1 (proj2 Hs02)).
    - by rewrite (proj1 (proj2 Hs02)). }
  eapply reach_trans; [by apply (kinds_spec ct1 i _ (next_id ct) corr command m s3 Hlen Hi Hid Hcommand Hwf Htask m2 Hak)|].
  intros m3 [[g Hg] Hk]. set (c := h_ctx (remember_request _ _ _ _ _ _ s3).2) in *.
  assert (Hevs : length (events c) = 256%nat).
  { unfold c. rewrite (remember_keeps_events command). cbn. by rewrite length_insert. }
  unfold at_publish. rewrite <-app_assoc. eapply reach_mono.
  - apply (publish_spec _ i (next_id ct) after m3 Hg Hevs Hi); [| |exact Hid].
    + by rewrite (proj1 Hk), (fl_event _ _ _ Hfl2) by reg_solver.
    + by rewrite (proj1 Hk), (proj1 Hs2) by reg_solver.
  - intros m' [Hm' Hs']. split; [exists g; exact Hm'|].
    eapply kept_trans; [eapply kept_same; [exact Hs02|reg_solver]|].
    eapply kept_trans; [eapply kept_more; [|exact Hk]; reg_solver|]. eapply kept_same; [exact Hs'|reg_solver].
Qed.

End Run.

End Whole.

End Record.

(** * A concrete record *)

Definition demo_record : code := record_tail_code (2 ^ 40) 1000 1004 ioc_r 0.

(** A delivered request, and the event it leaves. *)
Lemma emitted_record_refines_witness :
  let m := demo_machine BR_TRANSACTION zero_context in
  let run := record_tail (U := AddressSpace) ioc_r 0 BR_TRANSACTION demo_task demo_request
    (ct_scratch (demo_contents zero_context)) demo_state in
  reaches demo_record demo_record m []
    (fun m' => exists g, contains demo_layout (with_generation g (with_ctx (h_ctx run.2) (demo_contents zero_context)))
      (m_mem m')).
Proof.
  eapply reach_mono.
  - rewrite <-(app_nil_r demo_record) at 2.
    apply (emitted_record_refines (lay := demo_layout) (prog := demo_record) ioc_r 0 [] [] eq_refl)
      with (ct := demo_contents zero_context) (corr := 0) (command := BR_TRANSACTION) (s := demo_state).
    + intros l Hl. by apply elem_of_nil in Hl.
    + apply demo_contains. vm_compute. reflexivity.
    + reflexivity.
    + exact zero_table_wf.
    + split; reflexivity.
    + split; [discriminate|reflexivity].
    + split; [discriminate|reflexivity].
    + split; reflexivity.
    + constructor.
    + reflexivity.
    + reflexivity.
  - intros m' [Hg _]. exact Hg.
Defined.
