(* ===== verification/EmittedMatch.v ===== *)
(** The string matchers and the search for a descriptor and a property name as
    binder_hook_builder.cpp emits them, and that they find what the handler's
    operations find. *)

From S2P Require Import Prelude UserMemory KernelContext BinderWire Parcel Aarch64 ContextLayout Emitted.

(** * The code

    Offsets count from x23, the scratch; the parcel area begins at 80. *)

(** src/binder_hook_builder.cpp:27-27 [kParcelPrefixScratchOffset] *)
Definition kParcelPrefixScratchOffset : Z := 80.

(** The characters, [bytes] each, and the terminator behind them. *)
Fixpoint contents_code (bytes : nat) (offset : Z) (value : list Z) (mismatch : label) : code :=
  match value with
  | [] => [Ldr (Z.of_nat bytes) 11 23 offset; Cbnz W 11 mismatch]
  | c :: value =>
      [Ldr (Z.of_nat bytes) 11 23 offset; Cmp W 11 (Imm c); BCond NE mismatch] ++
      contents_code bytes (offset + Z.of_nat bytes) value mismatch
  end.

(** src/binder_hook_builder.cpp:580-600 [emit_match_utf16_contents] *)
Definition match_utf16_contents_code : Z -> list Z -> label -> code := contents_code 2.

(** src/binder_hook_builder.cpp:602-622 [emit_match_utf8_contents] *)
Definition match_utf8_contents_code : Z -> list Z -> label -> code := contents_code 1.

(** src/binder_hook_builder.cpp:555-578 [emit_match_utf16_string] *)
Definition match_utf16_string_code (offset : Z) (value : list Z) (mismatch : label) : code :=
  [Ldr 4 11 23 offset; Cmp W 11 (Imm (Z.of_nat (length value))); BCond NE mismatch] ++
  match_utf16_contents_code (offset + 4) value mismatch.

(** src/binder_hook_builder.cpp:636-645 [emit_match_headered_utf16_string] *)
Definition magic_code (magic_ok : label) (magic : Z) : code :=
  [Mov W 11 (Imm magic); Cmp W 12 (Reg 11); BCond EQ magic_ok].

(** src/binder_hook_builder.cpp:627-664 [emit_match_headered_utf16_string] *)
Definition match_headered_utf16_string_code (offset : Z) (value : list Z) (mismatch magic_ok : label) : code :=
  [Ldr 4 11 23 offset; Cmp W 11 (Imm (Z.of_nat (length value))); BCond NE mismatch; Ldr 4 12 23 (offset + 4)] ++
  flat_map (magic_code magic_ok) kHeaderMagics ++ [B mismatch; Bind magic_ok] ++
  match_utf16_contents_code (offset + 8) value mismatch.

(** The labels of one offset of the search are [l] (try_headered), [l + 1]
    (try_raw_contents), [l + 2] (descriptor_ready), [l + 3] (next) and [l + 4] (magic_ok). *)

(** src/binder_hook_builder.cpp:672-713 [emit_try_parcel_descriptor] *)
Definition descriptor_code (descriptor : list Z) (token_offset : nat) (l : label) : code :=
  let absolute := kParcelPrefixScratchOffset + Z.of_nat token_offset in
  let required := Z.of_nat token_offset + 4 + utf16_bytes descriptor in
  [Cmp X 17 (Imm required); BCond LO l] ++ match_utf16_string_code absolute descriptor l ++
  [Str 4 31 23 (parsed_offset kParcelTokenHeaderExtra); B (l + 2); Bind l;
   Cmp X 17 (Imm (required + 4)); BCond LO (l + 1)] ++
  match_headered_utf16_string_code absolute descriptor (l + 1) (l + 4) ++
  [Mov W 11 (Imm 4); Str 4 11 23 (parsed_offset kParcelTokenHeaderExtra); B (l + 2); Bind (l + 1);
   Cmp X 17 (Imm required); BCond LO (l + 3)] ++
  match_utf16_contents_code (absolute + 4) descriptor (l + 3) ++
  [Str 4 31 23 (parsed_offset kParcelTokenHeaderExtra); Bind (l + 2)]%nat.

(** src/binder_hook_builder.cpp:803-809 [emit_try_parcel_descriptor] *)
Definition found_property_code (base : Z) : code :=
  [Mov X 11 (Imm kParcelFlagDeviceUniqueId); Str 4 11 23 (parsed_offset kParcelFlags)] ++
  counter_increment_code base parcel_device_unique_id_hits.

(** One label, [next_raw], for every offset. *)

(** src/binder_hook_builder.cpp:772-801 [emit_try_parcel_descriptor] *)
Fixpoint raw_code (bytes : nat) (found l : label) (offsets : list nat) : code :=
  match offsets with
  | [] => []
  | raw :: offsets =>
      [Cmp X 17 (Imm (Z.of_nat raw + (Z.of_nat (length kDeviceUniqueId) + 1) * Z.of_nat bytes)); BCond LO l] ++
      contents_code bytes (kParcelPrefixScratchOffset + Z.of_nat raw) kDeviceUniqueId l ++
      [B found; Bind l] ++ raw_code bytes found (S l) offsets
  end.

(** The labels are [l] (headered_property), [l + 1] (property_matched), [l + 2]
    (no_property), [l + 3] (property_already_found), [l + 4] (raw_property_found) and
    those of the raw searches. *)

(** src/binder_hook_builder.cpp:726-810 [emit_try_parcel_descriptor] *)
Definition property_code (base : Z) (descriptor : list Z) (token_offset : nat) (l : label) : code :=
  let property_offset := align4 (Z.of_nat token_offset + 4 + utf16_bytes descriptor) in
  let property_required := property_offset + 4 + utf16_bytes kDeviceUniqueId in
  let absolute := kParcelPrefixScratchOffset + property_offset in
  [Ldr 4 11 23 (parsed_offset kParcelTokenHeaderExtra); Cbnz W 11 l;
   Cmp X 17 (Imm property_required); BCond LO (l + 2)] ++
  match_utf16_string_code absolute kDeviceUniqueId (l + 2) ++
  [B (l + 1); Bind l; Cmp X 17 (Imm (property_required + 4)); BCond LO (l + 2)] ++
  match_utf16_string_code (absolute + 4) kDeviceUniqueId (l + 2) ++
  [Bind (l + 1)] ++ found_property_code base ++
  [Bind (l + 2); Ldr 4 11 23 (parsed_offset kParcelFlags); Tbnz 11 0 (l + 3)] ++
  raw_code 2 (l + 4) (l + 5) raw_offsets ++ raw_code 1 (l + 4) (l + 22) raw_offsets ++
  [B (l + 3); Bind (l + 4)] ++ found_property_code base ++ [Bind (l + 3)]%nat.

(** src/binder_hook_builder.cpp:715-719 [emit_try_parcel_descriptor] *)
Definition token_found_code (base : Z) (hit : ctx_word) (token_kind : Z) (token_offset : nat) : code :=
  [Mov X 11 (Imm token_kind); Str 4 11 23 (parsed_offset kParcelTokenKind);
   Mov X 11 (Imm (Z.of_nat token_offset)); Str 4 11 23 (parsed_offset kParcelTokenOffset)] ++
  counter_increment_code base hit.

(** One round of the search for the plugin's descriptor, with 44 labels. *)

(** src/binder_hook_builder.cpp:672-813 [emit_try_parcel_descriptor] *)
Definition token_code (base : Z) (descriptor : list Z) (hit : ctx_word) (matched : label)
    (token_offset : nat) (l : label) : code :=
  descriptor_code descriptor token_offset l ++ token_found_code base hit 1 token_offset ++
  [Ldr 4 11 23 (16 + td_offset TdCode); Cmp W 11 (Imm kGetPropertyByteArrayTransactionCode); BCond NE (l + 3)] ++
  property_code base descriptor token_offset (l + 5) ++ [B matched; Bind (l + 3)]%nat.

(** src/binder_hook_builder.cpp:666-815 [emit_try_parcel_descriptor] *)
Fixpoint try_parcel_descriptor_code (base : Z) (descriptor : list Z) (hit : ctx_word) (matched : label)
    (offsets : list nat) (l : label) : code :=
  match offsets with
  | [] => []
  | token_offset :: offsets =>
      token_code base descriptor hit matched token_offset l ++
      try_parcel_descriptor_code base descriptor hit matched offsets (l + 44)
  end.

(** * Placed code *)

(** The labels of a piece of a program lead into the piece, and behind it [rest]. *)
Definition placed (prog c rest : code) : Prop :=
  forall l target, find_label c l = Some target -> find_label prog l = Some (target ++ rest).

Lemma find_label_binds c l target : find_label c l = Some target -> l ∈ binds c.
Proof.
  induction c as [|i c IH]; [done|]. destruct i; cbn; try exact IH.
  destruct (Nat.eqb_spec l0 l) as [->|]; [intros _; left|]. intros E. right. by apply IH.
Qed.

Lemma placed_l prog c1 c2 rest : placed prog (c1 ++ c2) rest -> placed prog c1 (c2 ++ rest).
Proof. intros Hp l target E. rewrite (Hp l (target ++ c2)) by by apply find_label_app. by rewrite <-app_assoc. Qed.

Lemma placed_r prog c1 c2 rest :
  placed prog (c1 ++ c2) rest -> (forall l, l ∈ binds c2 -> l ∉ binds c1) -> placed prog c2 rest.
Proof.
  intros Hp Hd l target E. apply Hp. rewrite find_label_skip; [done|]. by eapply Hd, find_label_binds.
Qed.

Lemma placed_bind prog c1 l c2 rest :
  placed prog (c1 ++ Bind l :: c2) rest -> l ∉ binds c1 -> find_label prog l = Some (c2 ++ rest).
Proof. intros Hp Hl. apply Hp. rewrite find_label_skip by done. cbn. by rewrite Nat.eqb_refl. Qed.

Lemma placed_within before c rest :
  (forall l, l ∈ binds c -> l ∉ binds before) -> placed (before ++ c ++ rest) c rest.
Proof.
  intros Hd l target E. rewrite find_label_skip by by eapply Hd, find_label_binds.
  by apply find_label_app.
Qed.

Lemma find_contents bytes offset value mismatch c l :
  find_label (contents_code bytes offset value mismatch ++ c) l = find_label c l.
Proof. revert offset. induction value as [|v value IH]; intros offset; cbn; [done|apply IH]. Qed.

Lemma find_string offset value mismatch c l :
  find_label (match_utf16_string_code offset value mismatch ++ c) l = find_label c l.
Proof. cbn. apply find_contents. Qed.

Lemma find_headered offset value mismatch magic_ok c l :
  find_label (match_headered_utf16_string_code offset value mismatch magic_ok ++ c) l =
  if Nat.eqb magic_ok l then Some (match_utf16_contents_code (offset + 8) value mismatch ++ c) else find_label c l.
Proof. cbn. destruct (Nat.eqb _ _); [done|apply find_contents]. Qed.

Lemma find_counter b w c l : find_label (counter_increment_code b w ++ c) l = find_label c l.
Proof. done. Qed.

Lemma find_found b c l : find_label (found_property_code b ++ c) l = find_label c l.
Proof. done. Qed.

Lemma binds_contents bytes offset value mismatch : binds (contents_code bytes offset value mismatch) = [].
Proof. revert offset. induction value as [|v value IH]; intros offset; [done|apply IH]. Qed.

Lemma binds_both (c1 c2 : code) : binds (c1 ++ c2) = binds c1 ++ binds c2.
Proof. apply omap_app. Qed.

Lemma binds_raw bytes found l offsets : binds (raw_code bytes found l offsets) = seq l (length offsets).
Proof.
  revert l. induction offsets as [|raw offsets IH]; intros l; [done|]. cbn [raw_code length seq].
  rewrite !binds_both, binds_contents, IH. done.
Qed.

Lemma find_raw bytes found k offsets c l :
  (l < k)%nat -> find_label (raw_code bytes found k offsets ++ c) l = find_label c l.
Proof. intros Hl. apply find_label_skip. rewrite binds_raw, elem_of_seq. lia. Qed.

(** Where a label of a piece is bound: the pieces in front are passed. *)
Ltac find_in :=
  unfold match_utf16_contents_code, match_utf8_contents_code;
  repeat (rewrite <-?app_assoc; cbn [find_label app]; rewrite ?find_string, ?find_headered, ?find_contents, ?find_counter, ?find_found;
    rewrite ?find_raw by lia;
    repeat match goal with
    | |- context [Nat.eqb ?a ?b] =>
        first [rewrite (proj2 (Nat.eqb_neq a b)) by lia|rewrite (proj2 (Nat.eqb_eq a b)) by lia]
    end);
  reflexivity.

(** * The matchers *)

(** A known text is bytes. *)
Ltac known_bytes s :=
  let v := eval vm_compute in s in change s with v; repeat (constructor; [by split|]); constructor.

Lemma device_id_bytes : bytes_ok kDeviceUniqueId.
Proof. known_bytes kDeviceUniqueId. Qed.

Lemma descriptor_bytes : bytes_ok kDrmPluginDescriptor.
Proof. known_bytes kDrmPluginDescriptor. Qed.

Section Matchers.
Context {lay : layout} {prog : code}.
Implicit Types (m : machine) (ct : contents).

#[local] Abbreviation base := (context_kaddr lay).
#[local] Abbreviation word bytes ct off := (le_dec (slice off bytes (ct_area ct))).

Lemma area_byte ct m i : contains lay ct (m_mem m) -> (i < 256)%nat -> byte_ok (nth i (ct_area ct) 0).
Proof. intros Hm Hi. exact (cn_range _ _ _ Hm (Parcel i) Hi). Qed.

Lemma area_word_range ct m n off :
  contains lay ct (m_mem m) -> (off + n <= 256)%nat -> 0 <= word n ct off < 256 ^ Z.of_nat n.
Proof.
  intros Hm Hn. assert (Hbytes : bytes_ok (slice off n (ct_area ct))).
  { apply Forall_lookup_2. intros i b Hb. unfold slice in Hb.
    pose proof (lookup_lt_Some _ _ _ Hb) as Hi. rewrite length_take in Hi.
    rewrite lookup_take_lt, lookup_drop in Hb by lia.
    pose proof (area_byte ct m (off + i) Hm ltac:(lia)) as Hr. by rewrite nth_lookup, Hb in Hr. }
  pose proof (le_dec_range _ Hbytes) as Hr. split; [lia|]. eapply Z.lt_le_trans; [apply Hr|].
  apply Z.pow_le_mono_r; [lia|]. unfold slice. rewrite length_take. lia.
Qed.

Lemma reach_area bytes width d offset off ct rest m target Q :
  contains lay ct (m_mem m) -> m_reg m 23 = scratch lay -> width = Z.of_nat bytes ->
  offset = kParcelPrefixScratchOffset + Z.of_nat off -> (0 < bytes)%nat -> (off + bytes <= 256)%nat ->
  reaches prog rest (set_reg d (word bytes ct off) m) target Q ->
  reaches prog (Ldr width d 23 offset :: rest) m target Q.
Proof.
  intros Hm H23 -> -> Hpos Hoff. unfold kParcelPrefixScratchOffset. apply reach_step. cbn [step].
  destruct (cn_layout _ _ _ Hm) as [_ Hs _ _ _].
  rewrite (load_area lay ct m bytes off) by (try done; regs; rewrite H23, (u64_small (scratch lay)) by lia;
    apply u64_small; lia). done.
Qed.

(** A comparison of what was loaded with a small number. *)
Lemma reach_differs bytes v c l next rest m target Q :
  find_label prog l = Some next -> 0 <= v < 2 ^ 32 -> 0 <= c < 2 ^ 32 -> m_reg m bytes = v -> bytes <> 31%nat ->
  (v <> c -> reaches prog next (compare v c m) target Q) ->
  (v = c -> reaches prog rest (compare v c m) target Q) ->
  reaches prog (Cmp W bytes (Imm c) :: BCond NE l :: rest) m target Q.
Proof.
  intros Hl Hv Hc Hr Hne Hdiff Hsame. eapply reach_step; [reflexivity|]. cbn [eval mask].
  unfold rd. rewrite (proj2 (Nat.eqb_neq _ _)) by done. cbn [mask]. rewrite Hr, !u32_small by done.
  eapply reach_bcond; [exact Hl|..]; regs; intros E.
  - apply Hdiff. by apply negb_true_iff, Z.eqb_neq in E.
  - apply Hsame. by apply negb_false_iff, Z.eqb_eq in E.
Qed.

Fixpoint match_contents (bytes : nat) (area : list Z) (off : nat) (value : list Z) : bool :=
  match value with
  | [] => le_dec (slice off bytes area) =? 0
  | c :: value =>
      if le_dec (slice off bytes area) =? c then match_contents bytes area (off + bytes) value else false
  end.

Lemma match_contents_utf16 area off value : match_contents 2 area off value = emit_match_utf16_contents area off value.
Proof. revert off. induction value as [|c value IH]; intros off; cbn; [done|]. by rewrite IH. Qed.

Lemma match_contents_utf8 area off value : match_contents 1 area off value = emit_match_utf8_contents area off value.
Proof. revert off. induction value as [|c value IH]; intros off; cbn; [done|]. by rewrite IH. Qed.

(** A test comes to what follows it or to [mismatch], and changes nothing but scratch
    registers. *)
Definition tests (c : code) (b : bool) (mismatch : code) (rs : list reg) m : Prop :=
  forall rest, reaches prog (c ++ rest) m (if b then rest else mismatch)
    (fun m' => m_mem m' = m_mem m /\ same_but rs m m').

Lemma contents_spec bytes value off offset mismatch mm m ct :
  find_label prog mismatch = Some mm -> contains lay ct (m_mem m) -> m_reg m 23 = scratch lay ->
  bytes_ok value -> (0 < bytes <= 4)%nat -> offset = kParcelPrefixScratchOffset + Z.of_nat off ->
  (off + bytes * (length value + 1) <= 256)%nat ->
  tests (contents_code bytes offset value mismatch) (match_contents bytes (ct_area ct) off value) mm [11]%nat m.
Proof.
  intros Hl Hm H23 Hvalue Hb -> Hoff rest. revert off m Hm H23 Hoff.
  induction Hvalue as [|c value Hc Hvalue IH]; intros off m Hm H23 Hoff; cbn [contents_code match_contents length app] in *;
    (eapply (reach_area bytes); [exact Hm|exact H23|done|done|lia|lia|]);
    pose proof (area_word_range ct m bytes off Hm ltac:(lia)) as Hr;
    assert (Hlt : 256 ^ Z.of_nat bytes <= 2 ^ 32)
      by (change (2 ^ 32) with (256 ^ 4); apply Z.pow_le_mono_r; lia).
  - eapply reach_cbnz; [exact Hl|..]; regs; rewrite u32_small by lia; intros E; rewrite E; apply reach_here;
      (split; [done|same_regs]).
  - eapply reach_differs; [exact Hl|split; [apply Hr|lia]|unfold byte_ok in Hc; lia|done|done|..]; intros E.
    + rewrite (proj2 (Z.eqb_neq _ _) E). apply reach_here. split; [done|same_regs].
    + rewrite (proj2 (Z.eqb_eq _ _) E). rewrite <-Z.add_assoc, <-Nat2Z.inj_add.
      eapply reach_mono; [apply IH; [exact Hm|exact H23|lia]|]. intros m' [Hmem Hs]. split; [exact Hmem|].
      eapply same_but_trans; [|exact Hs]. same_regs.
Qed.

Lemma utf16_string_spec value off offset mismatch mm m ct :
  find_label prog mismatch = Some mm -> contains lay ct (m_mem m) -> m_reg m 23 = scratch lay ->
  bytes_ok value -> offset = kParcelPrefixScratchOffset + Z.of_nat off ->
  Z.of_nat off + 4 + utf16_bytes value <= 256 ->
  tests (match_utf16_string_code offset value mismatch) (emit_match_utf16_string (ct_area ct) off value) mm [11]%nat m.
Proof.
  intros Hl Hm H23 Hvalue -> Hoff rest. unfold utf16_bytes in Hoff.
  unfold match_utf16_string_code, emit_match_utf16_string. cbn [app].
  eapply (reach_area 4); [exact Hm|exact H23|done|done|lia|lia|].
  pose proof (area_word_range ct m 4 off Hm ltac:(lia)) as Hr. change (256 ^ Z.of_nat 4) with (2 ^ 32) in Hr.
  change (le_dec (slice off 4 (ct_area ct))) with (ld32 (ct_area ct) off) in *.
  eapply reach_differs; [exact Hl|exact Hr|lia|done|done|..]; intros E.
  - rewrite (proj2 (Z.eqb_neq _ _) E). apply reach_here. split; [done|same_regs].
  - rewrite (proj2 (Z.eqb_eq _ _) E), <-match_contents_utf16.
    eapply reach_mono; [eapply (contents_spec 2 value (off + 4)); [exact Hl|exact Hm|exact H23|done|lia|lia|lia]|].
    intros m' [Hmem Hs]. split; [exact Hmem|]. eapply same_but_trans; [|exact Hs]. same_regs.
Qed.

Lemma magics_spec magic_ok target w magics rest m :
  find_label prog magic_ok = Some target -> m_reg m 12 = w -> 0 <= w < 2 ^ 32 ->
  Forall (fun magic => 0 <= magic < 2 ^ 32) magics ->
  reaches prog (flat_map (magic_code magic_ok) magics ++ rest) m
    (if existsb (fun magic => w =? magic) magics then target else rest)
    (fun m' => m_mem m' = m_mem m /\ same_but [11]%nat m m').
Proof.
  intros Hl Hr Hw Hall. revert m Hr. induction Hall as [|magic magics Hm _ IH]; intros m Hr.
  { apply reach_here. split; [done|same_regs]. }
  cbn [flat_map existsb magic_code app]. plain. plain. rewrite (u32_small magic) by done.
  rewrite Hr, (u32_small w) by done. eapply reach_bcond; [exact Hl|..]; regs; intros E; rewrite E.
  - apply reach_here. split; [done|same_regs].
  - cbn [orb]. eapply reach_mono; [by apply IH|]. intros m' [Hmem Hs]. split; [exact Hmem|].
    eapply same_but_trans; [|exact Hs]. same_regs.
Qed.

Lemma headered_spec value off offset mismatch magic_ok mm m ct rest :
  find_label prog mismatch = Some mm ->
  find_label prog magic_ok = Some (match_utf16_contents_code (offset + 8) value mismatch ++ rest) ->
  contains lay ct (m_mem m) -> m_reg m 23 = scratch lay ->
  bytes_ok value -> offset = kParcelPrefixScratchOffset + Z.of_nat off ->
  Z.of_nat off + 8 + utf16_bytes value <= 256 ->
  reaches prog (match_headered_utf16_string_code offset value mismatch magic_ok ++ rest) m
    (if emit_match_headered_utf16_string (ct_area ct) off value then rest else mm)
    (fun m' => m_mem m' = m_mem m /\ same_but [11; 12]%nat m m').
Proof.
  intros Hl Hmagic Hm H23 Hvalue -> Hoff. unfold utf16_bytes in Hoff.
  unfold match_headered_utf16_string_code, emit_match_headered_utf16_string. rewrite <-!app_assoc. cbn [app].
  eapply (reach_area 4); [exact Hm|exact H23|done|done|lia|lia|].
  pose proof (area_word_range ct m 4 off Hm ltac:(lia)) as Hr.
  pose proof (area_word_range ct m 4 (off + 4) Hm ltac:(lia)) as Hr4.
  change (256 ^ Z.of_nat 4) with (2 ^ 32) in Hr, Hr4.
  change (le_dec (slice ?o 4 (ct_area ct))) with (ld32 (ct_area ct) o) in *.
  eapply reach_differs; [exact Hl|exact Hr|lia|done|done|..]; intros E.
  { rewrite (proj2 (Z.eqb_neq _ _) E). apply reach_here. split; [done|same_regs]. }
  rewrite (proj2 (Z.eqb_eq _ _) E).
  eapply (reach_area 4 _ _ _ (off + 4)); [exact Hm|exact H23|done|lia|lia|lia|].
  change (le_dec (slice ?o 4 (ct_area ct))) with (ld32 (ct_area ct) o).
  eapply reach_trans; [eapply (magics_spec magic_ok _ (ld32 (ct_area ct) (off + 4)));
    [exact Hmagic|done|exact Hr4|unfold kHeaderMagics; repeat (constructor; [lia|]); constructor]|].
  intros m1 [Hmem1 Hs1]. destruct (existsb _ _).
  - rewrite <-match_contents_utf16. eapply reach_mono.
    + eapply (contents_spec 2 value (off + 8)); [exact Hl|by rewrite Hmem1| |done|lia|lia|lia].
      by rewrite (proj1 Hs1) by reg_solver.
    + intros m' [Hmem Hs]. split; [by rewrite Hmem, Hmem1|].
      eapply same_but_trans; [|eapply same_but_more; [|exact Hs]; reg_solver].
      eapply same_but_trans; [|eapply same_but_more; [|exact Hs1]; reg_solver]. same_regs.
  - cbn [app]. eapply reach_jump; [exact Hl|]. apply reach_here. split; [by rewrite Hmem1|].
    eapply same_but_trans; [|eapply same_but_more; [|exact Hs1]; reg_solver]. same_regs.
Qed.

(** * The descriptor *)

(** The word a register holds goes to the scratch. *)
Lemma store_parsed w r v ct rest m target Q :
  contains lay ct (m_mem m) -> m_reg m 23 = scratch lay -> rd m X r mod 2 ^ 32 = v ->
  (forall mem, contains lay (with_scratch (set_scratch w v (ct_scratch ct)) ct) mem ->
     reaches prog rest (set_mem mem m) target Q) ->
  reaches prog (Str 4 r 23 (parsed_offset w) :: rest) m target Q.
Proof.
  intros Hm H23 Hv Hnext. eapply (reach_str lay prog ct _ (Parsed w)); [exact Hm|done|done| | |exact Hnext].
  - regs. exact (scratch_addr ct m (Parsed w) Hm eq_refl H23).
  - cbn [field_width]. change (256 ^ 4) with (2 ^ 32). rewrite Hv. apply sets_parsed.
Qed.

(** A size that is compared with what is needed. *)
Lemma reach_guard need l next rest m target Q :
  find_label prog l = Some next -> 0 <= m_reg m 17 <= 256 -> 0 <= need < 2 ^ 64 ->
  ((m_reg m 17 <? need) = true -> reaches prog next (compare (m_reg m 17) need m) target Q) ->
  ((m_reg m 17 <? need) = false -> reaches prog rest (compare (m_reg m 17) need m) target Q) ->
  reaches prog (Cmp X 17 (Imm need) :: BCond LO l :: rest) m target Q.
Proof.
  intros Hl Hsize Hneed Hlow Hhigh. eapply reach_step; [reflexivity|]. cbn [eval mask]. regs.
  rewrite !u64_small by lia. rewrite Z.ltb_antisym in Hlow, Hhigh.
  eapply reach_bcond; [exact Hl|..]; regs; assumption.
Qed.

(** Where a search with the result [o] leads, and the contents it leaves: with the header
    extra noted, or as before. *)
Definition leads (o : option Z) (yes no : code) : code := match o with Some _ => yes | None => no end.

Definition with_extra (o : option Z) ct : contents :=
  match o with
  | Some extra => with_scratch (set_scratch kParcelTokenHeaderExtra extra (ct_scratch ct)) ct
  | None => ct
  end.

Section Descriptor.
Context (descriptor : list Z) (t : nat) (l : label) (next rest : code).
Context (Hp : placed prog (descriptor_code descriptor t l) rest) (Hnext : find_label prog (l + 3) = Some next).
Context (Hd : bytes_ok descriptor) (Hlen : (length descriptor + t <= 256)%nat).

#[local] Abbreviation absolute := (kParcelPrefixScratchOffset + Z.of_nat t).
#[local] Abbreviation required := (Z.of_nat t + 4 + utf16_bytes descriptor).

Definition raw_form : code :=
  [Cmp X 17 (Imm required); BCond LO (l + 3)] ++ match_utf16_contents_code (absolute + 4) descriptor (l + 3) ++
  [Str 4 31 23 (parsed_offset kParcelTokenHeaderExtra); Bind (l + 2)]%nat.

Definition headered_form : code :=
  [Cmp X 17 (Imm (required + 4)); BCond LO (l + 1)] ++
  match_headered_utf16_string_code absolute descriptor (l + 1) (l + 4) ++
  [Mov W 11 (Imm 4); Str 4 11 23 (parsed_offset kParcelTokenHeaderExtra); B (l + 2); Bind (l + 1)]%nat ++ raw_form.

Lemma ready_label : find_label prog (l + 2) = Some rest.
Proof. eapply (Hp (l + 2)%nat []). unfold descriptor_code. find_in. Qed.

Lemma raw_label : find_label prog (l + 1) = Some (raw_form ++ rest).
Proof. apply Hp. unfold descriptor_code, raw_form. find_in. Qed.

Lemma headered_label : find_label prog l = Some (headered_form ++ rest).
Proof. apply Hp. unfold descriptor_code, headered_form, raw_form. find_in. Qed.

Lemma magic_label :
  find_label prog (l + 4) = Some (match_utf16_contents_code (absolute + 8) descriptor (l + 1) ++
    ([Mov W 11 (Imm 4); Str 4 11 23 (parsed_offset kParcelTokenHeaderExtra); B (l + 2); Bind (l + 1)]%nat ++ raw_form) ++ rest).
Proof. rewrite app_assoc. apply Hp. unfold descriptor_code, raw_form. find_in. Qed.

Definition raw_result ct size : option Z :=
  if negb (size <? required) && emit_match_utf16_contents (ct_area ct) (t + 4) descriptor then Some 0 else None.

Definition headered_result ct size : option Z :=
  if negb (size <? required + 4) && emit_match_headered_utf16_string (ct_area ct) t descriptor
  then Some 4 else raw_result ct size.

(** What the search is about to look at. *)
Definition looking ct m : Prop :=
  contains lay ct (m_mem m) /\ m_reg m 23 = scratch lay /\ 0 <= m_reg m 17 <= 256.

Lemma looking_next ct m m' rs :
  looking ct m -> m_mem m' = m_mem m -> same_but rs m m' -> 23%nat ∉ rs -> 17%nat ∉ rs ->
  looking ct m' /\ m_reg m' 17 = m_reg m 17.
Proof. intros (H1 & H2 & H3) Hmem Hs H23 H17. unfold looking. by rewrite Hmem, !(proj1 Hs) by done. Qed.

(** Where a form leads, and with what. *)
Definition described ct (o : option Z) (m m' : machine) : Prop :=
  contains lay (with_extra o ct) (m_mem m') /\ same_but [11; 12; 31]%nat m m'.

Lemma described_from ct o m m1 m' rs :
  same_but rs m m1 -> (forall r, r ∈ rs -> r ∈ [11; 12; 31]%nat) -> described ct o m1 m' -> described ct o m m'.
Proof. intros Hs Hsub [Hm Hs']. split; [exact Hm|]. eapply same_but_trans; [by eapply same_but_more|exact Hs']. Qed.

Lemma utf16_bytes_range : 0 < utf16_bytes descriptor /\ required + 4 < 2 ^ 64.
Proof. unfold utf16_bytes. lia. Qed.

Lemma raw_spec ct m :
  looking ct m ->
  reaches prog (raw_form ++ rest) m (leads (raw_result ct (m_reg m 17)) rest next)
    (described ct (raw_result ct (m_reg m 17)) m).
Proof.
  intros (Hm & H23 & Hsize). pose proof utf16_bytes_range as [Hu Hu']. unfold raw_form, raw_result.
  rewrite <-!app_assoc. cbn [app].
  eapply reach_guard; [exact Hnext|exact Hsize|lia|..]; intros E; rewrite E; cbn [negb andb].
  { apply reach_here. split; [exact Hm|same_regs]. }
  apply Z.ltb_ge in E. unfold utf16_bytes in E.
  eapply reach_trans; [eapply (contents_spec 2 descriptor (t + 4));
    [exact Hnext|exact Hm|exact H23|exact Hd|lia|lia|lia]|].
  rewrite match_contents_utf16. intros m1 [Hmem1 Hs1]. destruct (emit_match_utf16_contents _ _ _).
  - cbn [app]. eapply (store_parsed _ _ 0); [by rewrite Hmem1|by rewrite (proj1 Hs1) by reg_solver|done|].
    intros mem Hmem. plain. apply reach_here. split; [exact Hmem|].
    eapply same_but_trans; [|eapply same_but_trans; [eapply same_but_more; [|exact Hs1]; reg_solver|same_regs]]. same_regs.
  - apply reach_here. split; [by rewrite Hmem1|].
    eapply same_but_trans; [|eapply same_but_more; [|exact Hs1]; reg_solver]. same_regs.
Qed.

(** The end of a form that has matched, but the last. *)
Lemma extra_spec ct m extra r code_ :
  looking ct m -> rd m X r mod 2 ^ 32 = extra ->
  reaches prog (Str 4 r 23 (parsed_offset kParcelTokenHeaderExtra) :: B (l + 2)%nat :: code_) m rest
    (described ct (Some extra) m).
Proof.
  intros (Hm & H23 & _) Hr. eapply store_parsed; [exact Hm|exact H23|exact Hr|]. intros mem Hmem.
  eapply reach_jump; [exact ready_label|]. apply reach_here. split; [exact Hmem|same_regs].
Qed.

Lemma headered_form_spec ct m :
  looking ct m ->
  reaches prog (headered_form ++ rest) m (leads (headered_result ct (m_reg m 17)) rest next)
    (described ct (headered_result ct (m_reg m 17)) m).
Proof.
  intros Hlook. destruct (Hlook) as (Hm & H23 & Hsize). pose proof utf16_bytes_range as [Hu Hu'].
  unfold headered_form, headered_result. rewrite <-!app_assoc. cbn [app].
  eapply reach_guard; [exact raw_label|exact Hsize|lia|..]; intros E; rewrite E; cbn [negb andb].
  { destruct (looking_next ct m (compare (m_reg m 17) (required + 4) m) [] Hlook) as [Hl1 H17]; [done|same_regs|reg_solver..|].
    eapply reach_mono; [apply (raw_spec ct _ Hl1)|]. intros m' Hm'. eapply (described_from _ _ _ _ _ []); [|reg_solver|exact Hm']; same_regs. }
  apply Z.ltb_ge in E. unfold utf16_bytes in E.
  eapply reach_trans; [eapply (headered_spec descriptor t);
    [exact raw_label|exact magic_label|exact Hm|exact H23|exact Hd|done|unfold utf16_bytes; lia]|].
  intros m1 [Hmem1 Hs1]. assert (Hs : same_but [11; 12]%nat m m1).
  { eapply same_but_trans; [|exact Hs1]. same_regs. }
  destruct (looking_next ct m m1 _ Hlook Hmem1 Hs ltac:(reg_solver) ltac:(reg_solver)) as [Hl1 H17].
  destruct (emit_match_headered_utf16_string _ _ _).
  - cbn [app]. plain. eapply reach_mono; [apply (extra_spec ct _ 4 11)|].
    + destruct (looking_next ct m1 (set_reg 11 (u32 4) m1) [11]%nat Hl1) as [Hl2 _]; [done|same_regs|reg_solver..|exact Hl2].
    + done.
    + intros m' Hm'. eapply described_from; [exact Hs|reg_solver|]. eapply (described_from _ _ _ _ _ [11]%nat); [|reg_solver|exact Hm']; same_regs.
  - rewrite <-H17. eapply reach_mono; [apply (raw_spec ct m1 Hl1)|]. intros m' Hm'.
    eapply described_from; [exact Hs|reg_solver|exact Hm'].
Qed.

Lemma descriptor_spec ct m :
  looking ct m ->
  let found := match_descriptor (ct_area ct) (m_reg m 17) descriptor t in
  reaches prog (descriptor_code descriptor t l ++ rest) m (leads found rest next) (described ct found m).
Proof.
  intros Hlook found. destruct (Hlook) as (Hm & H23 & Hsize). pose proof utf16_bytes_range as [Hu Hu'].
  assert (Hfound : found = if negb (m_reg m 17 <? required) && emit_match_utf16_string (ct_area ct) t descriptor
    then Some 0 else headered_result ct (m_reg m 17)) by reflexivity.
  rewrite Hfound. unfold descriptor_code. rewrite <-!app_assoc. cbn [app].
  eapply reach_guard; [exact headered_label|exact Hsize|lia|..]; intros E; rewrite E; cbn [negb andb].
  { destruct (looking_next ct m (compare (m_reg m 17) required m) [] Hlook) as [Hl1 H17]; [done|same_regs|reg_solver..|].
    eapply reach_mono; [apply (headered_form_spec ct _ Hl1)|]. intros m' Hm'.
    eapply (described_from _ _ _ _ _ []); [|reg_solver|exact Hm']; same_regs. }
  apply Z.ltb_ge in E. unfold utf16_bytes in E.
  eapply reach_trans; [eapply (utf16_string_spec descriptor t);
    [exact headered_label|exact Hm|exact H23|exact Hd|done|unfold utf16_bytes; lia]|].
  intros m1 [Hmem1 Hs1]. assert (Hs : same_but [11]%nat m m1).
  { eapply same_but_trans; [|exact Hs1]. same_regs. }
  destruct (looking_next ct m m1 _ Hlook Hmem1 Hs ltac:(reg_solver) ltac:(reg_solver)) as [Hl1 H17].
  destruct (emit_match_utf16_string _ _ _).
  - cbn [app]. eapply reach_mono; [by apply (extra_spec ct m1 0 31)|]. intros m' Hm'.
    eapply described_from; [exact Hs|reg_solver|exact Hm'].
  - rewrite <-H17. eapply reach_mono; [apply (headered_form_spec ct m1 Hl1)|]. intros m' Hm'.
    eapply described_from; [exact Hs|reg_solver|exact Hm'].
Qed.

End Descriptor.

(** * The property name *)

(** The property found, and what the search for it makes of the contents. *)
Definition noted ct : contents :=
  with_scratch (set_scratch kParcelFlags kParcelFlagDeviceUniqueId (ct_scratch ct))
    (bump parcel_device_unique_id_hits 1 ct).

Definition searched_raw ct (size : Z) : contents :=
  if Z.testbit (ct_scratch ct kParcelFlags) 0 then ct
  else if match_raw_property (ct_area ct) size then noted ct else ct.

Definition searched ct (size : Z) (descriptor : list Z) (t : nat) (extra : Z) : contents :=
  searched_raw (if match_property (ct_area ct) size descriptor t extra then noted ct else ct) size.

Lemma found_property_spec ct m rest :
  contains lay ct (m_mem m) -> m_reg m 23 = scratch lay ->
  reaches prog (found_property_code base ++ rest) m rest
    (fun m' => contains lay (noted ct) (m_mem m') /\ same_but [9; 10; 11; 31]%nat m m').
Proof.
  intros Hm H23. unfold found_property_code. rewrite <-app_assoc. cbn [app]. plain.
  eapply (store_parsed _ _ 1); [exact Hm|exact H23|done|]. intros mem Hmem. set (m1 := set_mem mem _).
  eapply reach_mono; [by apply (increment_code parcel_device_unique_id_hits rest m1)|].
  intros m' [Hm' Hs]. split; [exact Hm'|].
  eapply same_but_trans; [|eapply same_but_more; [|exact Hs]; reg_solver]. unfold m1. same_regs.
Qed.

Lemma raw_search_spec bytes found target l offsets rest m ct :
  placed prog (raw_code bytes found l offsets) rest -> find_label prog found = Some target ->
  looking ct m -> (0 < bytes <= 2)%nat -> (forall raw, In raw offsets -> (raw <= 64)%nat) ->
  reaches prog (raw_code bytes found l offsets ++ rest) m
    (if existsb (fun raw =>
          negb (m_reg m 17 <? Z.of_nat raw + (Z.of_nat (length kDeviceUniqueId) + 1) * Z.of_nat bytes) &&
          match_contents bytes (ct_area ct) raw kDeviceUniqueId) offsets then target else rest)
    (fun m' => m_mem m' = m_mem m /\ same_but [11]%nat m m').
Proof.
  intros Hp Hfound Hlook Hb Hraw. revert l m Hp Hlook. induction offsets as [|raw offsets IH]; intros l m Hp Hlook.
  { apply reach_here. split; [done|same_regs]. }
  specialize (Hraw raw (or_introl eq_refl)) as Hr. pose proof (fun r Hin => Hraw r (or_intror Hin)) as Hraw'.
  assert (Hl : find_label prog l = Some (raw_code bytes found (S l) offsets ++ rest)).
  { apply Hp. cbn [raw_code]. find_in. }
  assert (Hp' : placed prog (raw_code bytes found (S l) offsets) rest).
  { cbn [raw_code] in Hp. rewrite !app_assoc in Hp. eapply placed_r; [exact Hp|]. intros x Hx.
    rewrite binds_raw, elem_of_seq in Hx. rewrite !binds_both, binds_contents. cbn.
    rewrite list_elem_of_singleton. lia. }
  destruct (Hlook) as (Hm & H23 & Hsize). cbn [raw_code existsb]. rewrite <-!app_assoc. cbn [app].
  assert (Hnext : forall m1, m_mem m1 = m_mem m -> same_but [11]%nat m m1 ->
    reaches prog (raw_code bytes found (S l) offsets ++ rest) m1 (if existsb (fun raw =>
          negb (m_reg m 17 <? Z.of_nat raw + (Z.of_nat (length kDeviceUniqueId) + 1) * Z.of_nat bytes) &&
          match_contents bytes (ct_area ct) raw kDeviceUniqueId) offsets then target else rest)
    (fun m' => m_mem m' = m_mem m /\ same_but [11]%nat m m')).
  { intros m1 Hmem Hs. destruct (looking_next ct m m1 _ Hlook Hmem Hs ltac:(reg_solver) ltac:(reg_solver)) as [Hl1 H17].
    rewrite <-H17. eapply reach_mono; [by apply IH|]. intros m' [Hmem' Hs']. split; [by rewrite Hmem'|].
    by eapply same_but_trans. }
  change (length kDeviceUniqueId) with 14%nat in *.
  eapply reach_guard; [exact Hl|exact Hsize|lia|..]; intros E; rewrite E; cbn [negb andb orb].
  { apply Hnext; [done|same_regs]. }
  apply Z.ltb_ge in E.
  eapply reach_trans; [eapply (contents_spec bytes kDeviceUniqueId raw);
    [exact Hl|exact Hm|exact H23|exact device_id_bytes|lia|done|change (length kDeviceUniqueId) with 14%nat; lia]|].
  intros m1 [Hmem1 Hs1]. assert (Hs : same_but [11]%nat m m1).
  { eapply same_but_trans; [|exact Hs1]. same_regs. }
  destruct (match_contents _ _ _ _); cbn [orb].
  - cbn [app]. eapply reach_jump; [exact Hfound|]. by apply reach_here.
  - by apply Hnext.
Qed.

Section Property.
Context (descriptor : list Z) (t : nat) (l : label) (rest : code).
Context (Hp : placed prog (property_code base descriptor t l) rest).

#[local] Abbreviation offset := (align4 (Z.of_nat t + 4 + utf16_bytes descriptor)).
#[local] Abbreviation required := (offset + 4 + utf16_bytes kDeviceUniqueId).
#[local] Abbreviation absolute := (kParcelPrefixScratchOffset + offset).

Definition found_end : code := found_property_code base ++ [Bind (l + 3)%nat].

Definition raw_end : code :=
  [Ldr 4 11 23 (parsed_offset kParcelFlags); Tbnz 11 0 (l + 3)] ++
  raw_code 2 (l + 4) (l + 5) raw_offsets ++ raw_code 1 (l + 4) (l + 22) raw_offsets ++
  [B (l + 3); Bind (l + 4)]%nat ++ found_end.

Definition matched_end : code := found_property_code base ++ [Bind (l + 2)%nat] ++ raw_end.

Definition headered_end : code :=
  [Cmp X 17 (Imm (required + 4)); BCond LO (l + 2)] ++
  match_utf16_string_code (absolute + 4) kDeviceUniqueId (l + 2) ++ [Bind (l + 1)]%nat ++ matched_end.

Lemma property_labels :
  find_label prog l = Some (headered_end ++ rest) /\ find_label prog (l + 1) = Some (matched_end ++ rest) /\
  find_label prog (l + 2) = Some (raw_end ++ rest) /\ find_label prog (l + 3) = Some rest /\
  find_label prog (l + 4) = Some (found_end ++ rest).
Proof.
  split_and!; [apply Hp|apply Hp|apply Hp|eapply (Hp _ [])|apply Hp]; unfold property_code,
    headered_end, matched_end, raw_end, found_end; find_in.
Qed.

Lemma raw_offsets_small raw : In raw raw_offsets -> (raw <= 64)%nat.
Proof.
  intros Hin. apply list_elem_of_In, list_elem_of_fmap in Hin as (i & -> & Hi).
  apply elem_of_seq in Hi. lia.
Qed.

Definition property_front : code :=
  [Ldr 4 11 23 (parsed_offset kParcelTokenHeaderExtra); Cbnz W 11 l; Cmp X 17 (Imm required); BCond LO (l + 2)] ++
  match_utf16_string_code absolute kDeviceUniqueId (l + 2) ++
  [B (l + 1); Bind l; Cmp X 17 (Imm (required + 4)); BCond LO (l + 2)] ++
  match_utf16_string_code (absolute + 4) kDeviceUniqueId (l + 2) ++
  [Bind (l + 1)] ++ found_property_code base ++
  [Bind (l + 2); Ldr 4 11 23 (parsed_offset kParcelFlags); Tbnz 11 0 (l + 3)]%nat.

Lemma binds_front x : x ∈ binds property_front -> (l <= x < l + 3)%nat.
Proof.
  unfold property_front, match_utf16_string_code, match_utf16_contents_code, found_property_code.
  rewrite !binds_both, !binds_contents. cbn. rewrite !elem_of_cons, elem_of_nil. lia.
Qed.

Lemma placed_raw :
  placed prog (raw_code 2 (l + 4) (l + 5) raw_offsets)
    (raw_code 1 (l + 4) (l + 22) raw_offsets ++ [B (l + 3); Bind (l + 4)]%nat ++ found_end ++ rest) /\
  placed prog (raw_code 1 (l + 4) (l + 22) raw_offsets) ([B (l + 3); Bind (l + 4)]%nat ++ found_end ++ rest).
Proof.
  set (tail := [B (l + 3); Bind (l + 4)]%nat ++ found_end).
  assert (Htail : forall x, x ∈ binds tail -> (l + 3 <= x < l + 5)%nat).
  { intros x. unfold tail, found_end, found_property_code. rewrite !binds_both. cbn. rewrite !elem_of_cons, elem_of_nil. lia. }
  assert (Hback : placed prog (raw_code 2 (l + 4) (l + 5) raw_offsets ++ raw_code 1 (l + 4) (l + 22) raw_offsets ++ tail) rest).
  { eapply (placed_r prog property_front).
    - unfold property_code in Hp. unfold property_front, tail, found_end. rewrite <-!app_assoc in *. exact Hp.
    - intros x. rewrite !binds_both, !binds_raw, !elem_of_app, !elem_of_seq. intros Hx Hin%binds_front.
      destruct Hx as [?|[?|?%Htail]]; lia. }
  assert (Hone : placed prog (raw_code 1 (l + 4) (l + 22) raw_offsets ++ tail) rest).
  { eapply placed_r; [exact Hback|]. intros x.
    rewrite binds_both, !binds_raw, elem_of_app, !elem_of_seq. change (length raw_offsets) with 17%nat.
    intros [?|?%Htail]; lia. }
  apply placed_l in Hback, Hone. rewrite <-!app_assoc in *. split; [exact Hback|exact Hone].
Qed.

(** From the flags on: the raw searches. *)
Lemma raw_end_spec ct m :
  looking ct m ->
  reaches prog (raw_end ++ rest) m rest
    (fun m' => contains lay (searched_raw ct (m_reg m 17)) (m_mem m') /\ same_but [9; 10; 11; 31]%nat m m').
Proof.
  intros Hlook. destruct (Hlook) as (Hm & H23 & Hsize). destruct property_labels as (_ & _ & _ & H3 & H4).
  destruct placed_raw as [Hp2 Hp1]. unfold raw_end, searched_raw. rewrite <-!app_assoc. cbn [app].
  eapply (reach_ldr lay prog ct (Parsed kParcelFlags)); [exact Hm|done|done|exact (scratch_addr ct m (Parsed kParcelFlags) Hm eq_refl H23)|].
  cbn [field_get]. pose proof (cell_range lay ct (m_mem m) (Parsed kParcelFlags) Hm Logic.I) as Hf. cbn in Hf.
  eapply reach_tbnz; [exact H3|..]; regs; rewrite u64_small by lia; intros E; rewrite E.
  { apply reach_here. split; [exact Hm|same_regs]. }
  set (m1 := set_reg 11 _ m). assert (Hs1 : same_but [11]%nat m m1) by (unfold m1; same_regs).
  destruct (looking_next ct m m1 _ Hlook eq_refl Hs1 ltac:(reg_solver) ltac:(reg_solver)) as [Hl1 H17].
  eapply reach_trans; [eapply (raw_search_spec 2); [exact Hp2|exact H4|exact Hl1|lia|exact raw_offsets_small]|].
  intros m2 [Hmem2 Hs2]. rewrite H17. unfold match_raw_property.
  assert (Hfound : forall m3, m_mem m3 = m_mem m1 -> same_but [11]%nat m1 m3 ->
    reaches prog (found_end ++ rest) m3 rest
      (fun m' => contains lay (noted ct) (m_mem m') /\ same_but [9; 10; 11; 31]%nat m m')).
  { intros m3 Hmem3 Hs3. unfold found_end. rewrite <-app_assoc. eapply reach_trans.
    - apply (found_property_spec ct m3); [by rewrite Hmem3|]. by rewrite (proj1 Hs3), (proj1 Hs1) by reg_solver.
    - intros m4 [Hm4 Hs4]. cbn [app]. plain. apply reach_here. split; [exact Hm4|].
      eapply same_but_trans; [eapply same_but_more; [|exact Hs1]; reg_solver|].
      eapply same_but_trans; [eapply same_but_more; [|exact Hs3]; reg_solver|exact Hs4]. }
  rewrite (existsb_agree (fun raw => negb (m_reg m 17 <? Z.of_nat raw + (_ + 1) * Z.of_nat 2) && _)
    (fun raw => negb (m_reg m 17 <? Z.of_nat raw + utf16_bytes kDeviceUniqueId) &&
       emit_match_utf16_contents (ct_area ct) raw kDeviceUniqueId)) by (intros raw; by rewrite match_contents_utf16).
  destruct (existsb _ raw_offsets); cbn [orb]; [apply Hfound; [exact Hmem2|exact Hs2]|].
  destruct (looking_next ct m1 m2 _ Hl1 Hmem2 Hs2 ltac:(reg_solver) ltac:(reg_solver)) as [Hl2 H17'].
  eapply reach_trans; [eapply (raw_search_spec 1); [exact Hp1|exact H4|exact Hl2|lia|exact raw_offsets_small]|].
  rewrite H17', H17. intros m3 [Hmem3 Hs3].
  rewrite (existsb_agree (fun raw => negb (m_reg m 17 <? Z.of_nat raw + (_ + 1) * Z.of_nat 1) && _)
    (fun raw => negb (m_reg m 17 <? Z.of_nat raw + (Z.of_nat (length kDeviceUniqueId) + 1)) &&
       emit_match_utf8_contents (ct_area ct) raw kDeviceUniqueId))
    by (intros raw; by rewrite match_contents_utf8, Z.mul_1_r).
  destruct (existsb _ raw_offsets).
  - apply Hfound; [congruence|by eapply same_but_trans].
  - cbn [app]. eapply reach_jump; [exact H3|]. apply reach_here. split; [by rewrite Hmem3, Hmem2|].
    eapply same_but_more; [|eapply same_but_trans; [exact Hs1|eapply same_but_trans; [exact Hs2|exact Hs3]]]. reg_solver.
Qed.

Lemma matched_end_spec ct m :
  looking ct m ->
  reaches prog (matched_end ++ rest) m rest
    (fun m' => contains lay (searched_raw (noted ct) (m_reg m 17)) (m_mem m') /\ same_but [9; 10; 11; 31]%nat m m').
Proof.
  intros (Hm & H23 & Hsize). unfold matched_end. rewrite <-!app_assoc.
  eapply reach_trans; [by apply (found_property_spec ct m)|]. intros m1 [Hm1 Hs1]. cbn [app]. plain.
  assert (Hl1 : looking (noted ct) m1).
  { split; [exact Hm1|]. by rewrite !(proj1 Hs1) by reg_solver. }
  replace (m_reg m 17) with (m_reg m1 17) by (apply (proj1 Hs1); reg_solver).
  eapply reach_mono; [apply (raw_end_spec _ m1 Hl1)|]. intros m' [Hm' Hs']. split; [exact Hm'|].
  by eapply same_but_trans.
Qed.

Lemma offset_range : 0 <= offset < 2 ^ 32.
Proof.
  split; [apply align4_nonneg|]. unfold align4.
  destruct (land_range 32 (u32 (Z.of_nat t + 4 + utf16_bytes descriptor + 3)) (Z.lxor 3 UINT32_MAX)); [lia|apply u32_range|done|done].
Qed.

(** One of the two places of the property's name. *)
Lemma string_at_spec ct m need at_ extra rest' :
  looking ct m -> need = at_ + 4 + utf16_bytes kDeviceUniqueId -> 0 <= at_ < 2 ^ 33 ->
  let found := negb (m_reg m 17 <? need) && emit_match_utf16_string (ct_area ct) (Z.to_nat at_) kDeviceUniqueId in
  found = match_property (ct_area ct) (m_reg m 17) descriptor t extra ->
  (forall m1, m_mem m1 = m_mem m -> same_but [11]%nat m m1 -> found = true ->
     reaches prog rest' m1 rest
       (fun m' => contains lay (searched_raw (noted ct) (m_reg m 17)) (m_mem m') /\ same_but [9; 10; 11; 31]%nat m m')) ->
  reaches prog ([Cmp X 17 (Imm need); BCond LO (l + 2)%nat] ++
      match_utf16_string_code (kParcelPrefixScratchOffset + at_) kDeviceUniqueId (l + 2) ++ rest') m rest
    (fun m' => contains lay (searched ct (m_reg m 17) descriptor t extra) (m_mem m') /\ same_but [9; 10; 11; 31]%nat m m').
Proof.
  intros Hlook Hneed Hat found Hfound Hyes. destruct (Hlook) as (Hm & H23 & Hsize).
  destruct property_labels as (_ & _ & H2 & _). unfold searched. rewrite <-Hfound.
  assert (Hu : utf16_bytes kDeviceUniqueId = 30) by reflexivity.
  assert (Hmiss : forall m1, m_mem m1 = m_mem m -> same_but [11]%nat m m1 ->
    reaches prog (raw_end ++ rest) m1 rest
      (fun m' => contains lay (searched_raw ct (m_reg m 17)) (m_mem m') /\ same_but [9; 10; 11; 31]%nat m m')).
  { intros m1 Hmem Hs. destruct (looking_next ct m m1 _ Hlook Hmem Hs ltac:(reg_solver) ltac:(reg_solver)) as [Hl1 H17].
    rewrite <-H17. eapply reach_mono; [apply (raw_end_spec ct m1 Hl1)|]. intros m' [Hm' Hs']. split; [exact Hm'|].
    eapply same_but_trans; [eapply same_but_more; [|exact Hs]; reg_solver|exact Hs']. }
  cbn [app]. eapply reach_guard; [exact H2|exact Hsize|lia|..]; intros E; unfold found in Hyes |- *; rewrite E in Hyes |- *;
    cbn [negb andb] in Hyes |- *; [apply Hmiss; [done|same_regs]|].
  apply Z.ltb_ge in E.
  eapply reach_trans; [eapply (utf16_string_spec kDeviceUniqueId (Z.to_nat at_));
    [exact H2|exact Hm|exact H23|exact device_id_bytes|by rewrite Z2Nat.id by lia|lia]|].
  intros m1 [Hmem1 Hs1]. assert (Hs : same_but [11]%nat m m1).
  { eapply same_but_trans; [|exact Hs1]. same_regs. }
  destruct (emit_match_utf16_string _ _ _); [by apply Hyes|by apply Hmiss].
Qed.

Lemma property_spec ct m :
  looking ct m ->
  reaches prog (property_code base descriptor t l ++ rest) m rest
    (fun m' => contains lay
       (searched ct (m_reg m 17) descriptor t (ct_scratch ct kParcelTokenHeaderExtra)) (m_mem m') /\
       same_but [9; 10; 11; 31]%nat m m').
Proof.
  intros Hlook. destruct (Hlook) as (Hm & H23 & Hsize). destruct property_labels as (H0 & H1 & _).
  pose proof offset_range as Ho. set (extra := ct_scratch ct kParcelTokenHeaderExtra).
  unfold property_code. rewrite <-!app_assoc. cbn [app].
  eapply (reach_ldr lay prog ct (Parsed kParcelTokenHeaderExtra));
    [exact Hm|done|done|exact (scratch_addr ct m (Parsed kParcelTokenHeaderExtra) Hm eq_refl H23)|].
  cbn [field_get]. fold extra.
  pose proof (cell_range lay ct (m_mem m) (Parsed kParcelTokenHeaderExtra) Hm Logic.I) as Hf. cbn in Hf. fold extra in Hf.
  set (m1 := set_reg 11 _ m). assert (Hs1 : same_but [11]%nat m m1) by (unfold m1; same_regs).
  destruct (looking_next ct m m1 _ Hlook eq_refl Hs1 ltac:(reg_solver) ltac:(reg_solver)) as [Hl1 H17].
  assert (Hend : forall m2, m_mem m2 = m_mem m1 -> same_but [11]%nat m1 m2 ->
    reaches prog (matched_end ++ rest) m2 rest (fun m' => contains lay (searched_raw (noted ct) (m_reg m1 17)) (m_mem m') /\
      same_but [9; 10; 11; 31]%nat m1 m')).
  { intros m2 Hmem2 Hs2.
    destruct (looking_next ct m1 m2 _ Hl1 Hmem2 Hs2 ltac:(reg_solver) ltac:(reg_solver)) as [Hl2 H17'].
    rewrite <-H17'. eapply reach_mono; [apply (matched_end_spec ct m2 Hl2)|]. intros m' [Hm' Hs']. split; [exact Hm'|].
    eapply same_but_trans; [eapply same_but_more; [|exact Hs2]; reg_solver|exact Hs']. }
  eapply (reach_mono _ _ _ _ (fun m' => contains lay (searched ct (m_reg m1 17) descriptor t extra) (m_mem m') /\
    same_but [9; 10; 11; 31]%nat m1 m')).
  2: { intros m' [Hm' Hs']. rewrite H17 in Hm'. split; [exact Hm'|].
       eapply same_but_trans; [eapply same_but_more; [|exact Hs1]; reg_solver|exact Hs']. }
  eapply reach_cbnz; [exact H0|..]; intros E.
  - unfold headered_end. rewrite <-!app_assoc.
    replace (absolute + 4) with (kParcelPrefixScratchOffset + (offset + 4)) by lia.
    apply (string_at_spec ct m1 _ (offset + 4)); [exact Hl1|lia|lia| |].
    + unfold match_property. unfold m1 in E. cbn [rd set_reg m_reg Nat.eqb mask] in E. rewrite u32_small in E by lia.
      rewrite E. replace (required + 4) with (offset + 4 + 4 + utf16_bytes kDeviceUniqueId) by lia. done.
    + intros m2 Hmem2 Hs2 _. cbn [app]. plain. by apply Hend.
  - apply (string_at_spec ct m1 _ offset); [exact Hl1|lia|lia| |].
    + unfold match_property. unfold m1 in E. cbn [rd set_reg m_reg Nat.eqb mask] in E. rewrite u32_small in E by lia.
      by rewrite E.
    + intros m2 Hmem2 Hs2 _. eapply reach_jump; [exact H1|]. by apply Hend.
Qed.

End Property.

End Matchers.
