(* ===== verification/EmittedCapture.v ===== *)
(** The search through the captured prefix of a parcel, and its capture, as
    binder_hook_builder.cpp emits them. *)

From S2P Require Import Prelude UserMemory KernelContext BinderWire PendingFacts Parcel Aarch64 ContextLayout Emitted EmittedMatch.

Section Search.
Context {lay : layout} {prog : code}.
Implicit Types (m : machine) (ct : contents).

#[local] Abbreviation base := (context_kaddr lay).
#[local] Abbreviation looks := (looking (lay := lay)).

(** * The rounds of the search *)

(** What a descriptor found at [t] leaves, and the whole search from some offset on. *)
Definition token_noted ct (hit : ctx_word) (t : nat) : contents :=
  with_scratch (set_scratch kParcelTokenOffset (Z.of_nat t) (set_scratch kParcelTokenKind 1 (ct_scratch ct)))
    (bump hit 1 ct).

Fixpoint searched_tokens ct (size : Z) (descriptor : list Z) (hit : ctx_word) (offsets : list nat) : bool * contents :=
  match offsets with
  | [] => (false, ct)
  | t :: offsets =>
      match match_descriptor (ct_area ct) size descriptor t with
      | None => searched_tokens ct size descriptor hit offsets
      | Some extra =>
          let ct1 := token_noted (with_extra (Some extra) ct) hit t in
          if td_code (ct_td ct) =? kGetPropertyByteArrayTransactionCode
          then (true, searched ct1 size descriptor t extra)
          else searched_tokens ct1 size descriptor hit offsets
      end
  end.

Lemma binds_property descriptor t l x : x ∈ binds (property_code base descriptor t l) -> (l <= x < l + 39)%nat.
Proof.
  unfold property_code, found_property_code, match_utf16_string_code, match_utf16_contents_code.
  rewrite !binds_both, !binds_contents, !binds_raw. change (length raw_offsets) with 17%nat.
  rewrite !elem_of_app, !elem_of_seq. cbn. rewrite !elem_of_cons, !elem_of_nil. lia.
Qed.

Lemma binds_token descriptor hit matched t l x :
  x ∈ binds (token_code base descriptor hit matched t l) -> (l <= x < l + 44)%nat.
Proof.
  unfold token_code, descriptor_code, match_utf16_string_code, match_headered_utf16_string_code,
    match_utf16_contents_code, token_found_code.
  rewrite !binds_both, !binds_contents, !elem_of_app. pose proof (binds_property descriptor t (l + 5) x) as Hx.
  set (P := x ∈ binds (property_code _ _ _ _)) in *. clearbody P. cbn. rewrite !elem_of_cons, !elem_of_nil. intros Hin.
  repeat match type of Hin with _ \/ _ => destruct Hin as [Hin|Hin] end; try (apply Hx in Hin); lia.
Qed.

Lemma find_property descriptor t k c x :
  (x < k)%nat -> find_label (property_code base descriptor t k ++ c) x = find_label c x.
Proof. intros Hx. apply find_label_skip. intros Hin%binds_property. lia. Qed.

Lemma find_found_token hit k t c x : find_label (token_found_code base hit k t ++ c) x = find_label c x.
Proof. done. Qed.

Lemma find_next descriptor hit matched t l : find_label (token_code base descriptor hit matched t l) (l + 3) = Some [].
Proof.
  unfold token_code, descriptor_code, match_utf16_contents_code. rewrite <-!app_assoc.
  repeat (cbn [find_label app]; rewrite ?find_string, ?find_headered, ?find_contents, ?find_found_token;
    rewrite ?find_property by lia; repeat match goal with
    | |- context [Nat.eqb ?a ?b] =>
        first [rewrite (proj2 (Nat.eqb_neq a b)) by lia|rewrite (proj2 (Nat.eqb_eq a b)) by lia]
    end). reflexivity.
Qed.

Lemma binds_descriptor descriptor t l x :
  x ∈ binds (descriptor_code descriptor t l) -> (l <= x < l + 3 \/ x = l + 4)%nat.
Proof.
  unfold descriptor_code, match_utf16_string_code, match_headered_utf16_string_code, match_utf16_contents_code.
  rewrite !binds_both, !binds_contents. cbn. rewrite !elem_of_cons, !elem_of_nil. lia.
Qed.

Lemma placed_property descriptor hit matched t l rest :
  placed prog (token_code base descriptor hit matched t l) rest ->
  placed prog (property_code base descriptor t (l + 5)) ([B matched; Bind (l + 3)%nat] ++ rest).
Proof.
  unfold token_code. rewrite !app_assoc, <-(app_assoc _ (property_code _ _ _ _)). intros Hp.
  apply placed_l. eapply placed_r; [exact Hp|]. intros x. rewrite !binds_both, !elem_of_app.
  intros [Hx%binds_property|Hx].
  - intros [[Hin%binds_descriptor|Hin]|Hin]; [lia|cbn in Hin; by rewrite elem_of_nil in Hin..].
  - cbn in Hx. apply list_elem_of_singleton in Hx. subst x.
    intros [[Hin%binds_descriptor|Hin]|Hin]; [lia|cbn in Hin; by rewrite elem_of_nil in Hin..].
Qed.

Lemma token_found_spec ct hit t m rest :
  contains lay ct (m_mem m) -> m_reg m 23 = scratch lay -> (t <= 256)%nat ->
  reaches prog (token_found_code base hit 1 t ++ rest) m rest
    (fun m' => contains lay (token_noted ct hit t) (m_mem m') /\ same_but [9; 10; 11; 31]%nat m m').
Proof.
  intros Hm H23 Ht. unfold token_found_code. rewrite <-app_assoc. cbn [app]. plain.
  eapply (store_parsed _ _ 1); [exact Hm|exact H23|done|]. intros mem1 Hmem1. plain.
  eapply (store_parsed _ _ (Z.of_nat t)); [exact Hmem1|exact H23| |].
  { regs. rewrite ?u64_u64, u64_small by lia. apply Z.mod_small. lia. }
  intros mem2 Hmem2. set (m1 := set_mem mem2 _).
  eapply reach_mono; [by apply (increment_code hit rest m1)|].
  intros m' [Hm' Hs]. split; [exact Hm'|].
  eapply same_but_trans; [|eapply same_but_more; [|exact Hs]; reg_solver]. unfold m1. same_regs.
Qed.

Lemma binds_rounds descriptor hit matched offsets l x :
  x ∈ binds (try_parcel_descriptor_code base descriptor hit matched offsets l) ->
  (l <= x < l + 44 * length offsets)%nat.
Proof.
  revert l. induction offsets as [|t offsets IH]; intros l; cbn [try_parcel_descriptor_code length].
  - by rewrite elem_of_nil.
  - rewrite binds_both, elem_of_app. intros [?%binds_token|?%IH]; lia.
Qed.

Section Tokens.
Context (descriptor : list Z) (hit : ctx_word) (matched : label) (target : code).
Context (Hmatched : find_label prog matched = Some target) (Hd : bytes_ok descriptor).
Context (Hlen : (length descriptor <= 200)%nat).

Lemma token_spec ct m t l rest :
  placed prog (token_code base descriptor hit matched t l) rest -> looks ct m -> (t <= 56)%nat ->
  let size := m_reg m 17 in
  let found := match_descriptor (ct_area ct) size descriptor t in
  let ct1 := token_noted (with_extra found ct) hit t in
  let right := td_code (ct_td ct) =? kGetPropertyByteArrayTransactionCode in
  reaches prog (token_code base descriptor hit matched t l ++ rest) m
    (match found with Some _ => if right then target else rest | None => rest end)
    (fun m' => contains lay
       (match found with
        | Some extra => if right then searched ct1 size descriptor t extra else ct1
        | None => ct
        end) (m_mem m') /\ same_but [9; 10; 11; 12; 31]%nat m m').
Proof.
  intros Hp Hlook Ht size found ct1 right. destruct (Hlook) as (Hm & H23 & Hsize).
  assert (H3 : find_label prog (l + 3) = Some rest).
  { apply (Hp (l + 3)%nat []), find_next. }
  assert (Hpd : placed prog (descriptor_code descriptor t l)
    ((token_found_code base hit 1 t ++ [Ldr 4 11 23 (16 + td_offset TdCode);
        Cmp W 11 (Imm kGetPropertyByteArrayTransactionCode); BCond NE (l + 3)%nat] ++
      property_code base descriptor t (l + 5) ++ [B matched; Bind (l + 3)%nat]) ++ rest)).
  { apply placed_l. exact Hp. }
  unfold token_code. rewrite <-app_assoc.
  eapply reach_trans; [apply (descriptor_spec descriptor t l rest _ Hpd H3 Hd ltac:(lia) ct m Hlook)|].
  fold size. fold found. intros m1 [Hm1 Hs1]. destruct found as [extra|] eqn:Ef.
  2: { apply reach_here. split; [exact Hm1|]. eapply same_but_more; [|exact Hs1]. reg_solver. }
  cbn [leads]. rewrite <-!app_assoc.
  eapply reach_trans; [apply (token_found_spec (with_extra (Some extra) ct) hit t m1); [exact Hm1|by rewrite (proj1 Hs1) by reg_solver|lia]|].
  intros m2 [Hm2 Hs2]. fold ct1 in Hm2. assert (Hs02 : same_but [9; 10; 11; 12; 31]%nat m m2).
  { eapply same_but_trans; [eapply same_but_more; [|exact Hs1]; reg_solver|eapply same_but_more; [|exact Hs2]; reg_solver]. }
  assert (Hl2 : looks ct1 m2) by (split; [exact Hm2|by rewrite !(proj1 Hs02) by reg_solver]).
  assert (H17 : m_reg m2 17 = size) by (apply (proj1 Hs02); reg_solver).
  destruct (Hl2) as (_ & H23' & _). cbn [app].
  eapply (reach_ldr lay prog ct1 (Td TdCode)); [exact Hm2|done|done|exact (scratch_addr ct1 m2 (Td TdCode) Hm2 eq_refl H23')|].
  cbn [field_get td_get]. change (ct_td ct1) with (ct_td ct).
  pose proof (cell_range lay ct1 (m_mem m2) (Td TdCode) Hm2 Logic.I) as Hcode. cbn in Hcode.
  set (m3 := set_reg 11 _ m2). assert (Hs3 : same_but [11]%nat m2 m3) by (unfold m3; same_regs).
  eapply reach_differs; [exact H3|exact Hcode|done|done|done|..]; intros E; unfold right.
  - rewrite (proj2 (Z.eqb_neq _ _) E). apply reach_here. split; [exact Hm2|].
    eapply same_but_trans; [exact Hs02|]. unfold m3. same_regs.
  - rewrite (proj2 (Z.eqb_eq _ _) E). set (m4 := compare _ _ m3).
    assert (Hs4 : same_but [11]%nat m2 m4) by (unfold m4, m3; same_regs).
    destruct (looking_next ct1 m2 m4 _ Hl2 eq_refl Hs4 ltac:(reg_solver) ltac:(reg_solver)) as [Hl4 H17'].
    eapply reach_trans; [apply (property_spec descriptor t (l + 5) _ (placed_property _ _ _ _ _ _ Hp));
      exact Hl4|].
    rewrite H17', H17. intros m5 [Hm5 Hs5]. cbn [app]. eapply reach_jump; [exact Hmatched|]. apply reach_here.
    split; [exact Hm5|]. eapply same_but_trans; [exact Hs02|].
    eapply same_but_trans; eapply same_but_more; [|exact Hs4| |exact Hs5]; reg_solver.
Qed.

Lemma placed_rounds t offsets l rest :
  placed prog (try_parcel_descriptor_code base descriptor hit matched (t :: offsets) l) rest ->
  placed prog (token_code base descriptor hit matched t l)
    (try_parcel_descriptor_code base descriptor hit matched offsets (l + 44) ++ rest) /\
  placed prog (try_parcel_descriptor_code base descriptor hit matched offsets (l + 44)) rest.
Proof.
  cbn [try_parcel_descriptor_code]. intros Hp. split; [by apply placed_l|].
  eapply placed_r; [exact Hp|]. intros x Hx%binds_rounds Hin%binds_token. lia.
Qed.

Lemma rounds_spec ct m offsets l rest :
  placed prog (try_parcel_descriptor_code base descriptor hit matched offsets l) rest -> looks ct m ->
  (forall t, In t offsets -> (t <= 56)%nat) ->
  let result := searched_tokens ct (m_reg m 17) descriptor hit offsets in
  reaches prog (try_parcel_descriptor_code base descriptor hit matched offsets l ++ rest) m
    (if result.1 then target else rest)
    (fun m' => contains lay result.2 (m_mem m') /\ same_but [9; 10; 11; 12; 31]%nat m m').
Proof.
  revert ct m l. induction offsets as [|t offsets IH]; intros ct m l Hp Hlook Hoffsets result.
  { apply reach_here. split; [apply Hlook|same_regs]. }
  destruct (placed_rounds _ _ _ _ Hp) as [Ht Hrest]. subst result. cbn [try_parcel_descriptor_code searched_tokens].
  rewrite <-app_assoc.
  eapply reach_trans; [apply (token_spec ct m t l _ Ht Hlook), Hoffsets; by left|].
  pose proof (fun r Hin => Hoffsets r (or_intror Hin)) as Hoffsets'.
  assert (Hgo : forall ct' m1, contains lay ct' (m_mem m1) -> same_but [9; 10; 11; 12; 31]%nat m m1 ->
    reaches prog (try_parcel_descriptor_code base descriptor hit matched offsets (l + 44) ++ rest) m1
      (if (searched_tokens ct' (m_reg m 17) descriptor hit offsets).1 then target else rest)
      (fun m' => contains lay (searched_tokens ct' (m_reg m 17) descriptor hit offsets).2 (m_mem m') /\
         same_but [9; 10; 11; 12; 31]%nat m m')).
  { intros ct' m1 Hm1 Hs1. rewrite <-(proj1 Hs1 17%nat) by reg_solver. eapply reach_mono.
    - apply (IH ct' m1 (l + 44)%nat Hrest); [|exact Hoffsets']. split; [exact Hm1|].
      rewrite !(proj1 Hs1) by reg_solver. apply Hlook.
    - intros m' [Hm' Hs']. split; [exact Hm'|]. by eapply same_but_trans. }
  intros m1 [Hm1 Hs1]. destruct (match_descriptor _ _ _ t) as [extra|]; [|by apply Hgo].
  destruct (_ =? kGetPropertyByteArrayTransactionCode); [|by apply Hgo].
  apply reach_here. by split.
Qed.

End Tokens.

End Search.

(** * The search is the handler's *)

Section Handler.
Context {U : Type} `{UserAccess U}.
Implicit Types (ct : contents) (s : hstate U).

(** The contents the operations of a state belong to. *)
Definition run_of ct s : hstate U :=
  {| h_ctx := ct_ctx ct; h_mem := h_mem s; h_parcel := h_parcel s; h_locks := h_locks s |}.

Lemma run_of_id ct s : h_ctx s = ct_ctx ct -> run_of ct s = s.
Proof. intros E. unfold run_of. rewrite <-E. by destruct s. Qed.

Lemma searched_run ct size descriptor t extra s :
  let ct' := searched ct size descriptor t extra in
  emit_property_search (ct_area ct) size descriptor t extra (ct_scratch ct) (run_of ct s) =
  (ct_scratch ct', run_of ct' s).
Proof.
  unfold emit_property_search, searched, searched_raw. unfold mbind, HM_bind.
  destruct (match_property _ _ _ _ _); cbn [emit_counter_increment h_modify mret HM_ret].
  - change (ct_area (noted ct)) with (ct_area ct).
    change (ct_scratch (noted ct)) with (set_scratch kParcelFlags kParcelFlagDeviceUniqueId (ct_scratch ct)).
    destruct (Z.testbit _ 0); [done|]. by destruct (match_raw_property _ _).
  - destruct (Z.testbit _ 0); [done|]. by destruct (match_raw_property _ _).
Qed.

Lemma searched_keeps ct size descriptor t extra :
  let ct' := searched ct size descriptor t extra in
  ct' = with_scratch (ct_scratch ct') (with_ctx (ct_ctx ct') ct).
Proof.
  unfold searched, searched_raw. destruct ct.
  destruct (match_property _ _ _ _ _), (Z.testbit _ 0); cbn; try done; by destruct (match_raw_property _ _).
Qed.

Lemma searched_tokens_run ct size descriptor hit offsets s :
  let result := searched_tokens ct size descriptor hit offsets in
  emit_try_parcel_descriptor (ct_area ct) size descriptor kDrmPlugin hit (td_code (ct_td ct)) offsets
    (ct_scratch ct) (run_of ct s) = (result.1, ct_scratch result.2, run_of result.2 s) /\
  result.2 = with_scratch (ct_scratch result.2) (with_ctx (ct_ctx result.2) ct).
Proof.
  revert ct. induction offsets as [|t offsets IH]; intros ct.
  { split; [done|]. by destruct ct. }
  cbn [searched_tokens emit_try_parcel_descriptor]. destruct (match_descriptor _ _ _ _) as [extra|]; [|apply IH].
  set (ct1 := token_noted (with_extra (Some extra) ct) hit t).
  unfold mbind, HM_bind. cbn [emit_counter_increment h_modify].
  change (set_scratch kParcelTokenOffset _ _) with (ct_scratch ct1).
  change {| h_ctx := _ |} with (run_of ct1 s). destruct (_ =? _).
  - change (ct_area ct) with (ct_area ct1). rewrite searched_run. split; [done|].
    rewrite searched_keeps at 1. by destruct ct.
  - destruct (IH ct1) as [Hrun Hkeep]. split; [exact Hrun|]. rewrite Hkeep at 1. by destruct ct.
Qed.

End Handler.

(** * The capture *)

(** src/binder_hook_builder.cpp:846-850 [emit_capture_parcel_prefix] *)
Definition request_match_code (request : label) (command : Z) : code :=
  [Mov X 11 (Imm command); Cmp W 24 (Reg 11); BCond EQ request].

(** src/binder_hook_builder.cpp:851-857 [emit_capture_parcel_prefix] *)
Definition request_commands (expected_ioc_type : Z) : list Z :=
  if expected_ioc_type =? ioc_c then [BC_TRANSACTION; BC_TRANSACTION_SG]
  else [BR_TRANSACTION; BR_TRANSACTION_SEC_CTX].

(** src/binder_hook_builder.cpp:861-877 [emit_capture_parcel_prefix] *)
Definition copy_prefix_code (base : Z) (copy_fault scan size_ready : label) : code :=
  [Ldr 8 17 23 (16 + td_offset TdDataSize); Ldr 8 16 23 (16 + td_offset TdBuffer); Cbz X 17 scan; Cbz X 16 copy_fault;
   Mov X 15 (Imm kParcelPrefixMaxBytes); Cmp X 17 (Reg 15); BCond LS size_ready; Mov X 17 (Reg 15); Bind size_ready;
   Alu ADD X 13 23 (Imm kParcelPrefixScratchOffset); CopyFromUser 13 16 17; Cbnz X 0 copy_fault;
   Str 4 17 23 (parsed_offset kParcelPrefixSize)] ++ counter_increment_code base parcel_prefix_ok.

(** src/binder_hook_builder.cpp:888-901 [emit_capture_parcel_prefix] *)
Definition scan_code (base : Z) (matched done_ l : label) : code :=
  try_parcel_descriptor_code base kDrmPluginDescriptor parcel_plugin_hits matched token_offsets l ++
  counter_increment_code base parcel_unknown_tokens ++ [B done_; Bind matched; Bind done_].

(** The labels are [l] (request), [l + 1] (copy_fault), [l + 2] (scan), [l + 3] (matched),
    [l + 4] (done), [l + 5] (size_ready) and those of the search. *)

(** src/binder_hook_builder.cpp:833-902 [emit_capture_parcel_prefix] *)
Definition capture_parcel_prefix_code (base expected_ioc_type : Z) (l : label) : code :=
  flat_map (request_match_code l) (request_commands expected_ioc_type) ++ [B (l + 4); Bind l]%nat ++
  copy_prefix_code base (l + 1) (l + 2) (l + 5) ++ [B (l + 2); Bind (l + 1)]%nat ++
  counter_increment_code base parcel_prefix_faults ++ [B (l + 4); Bind (l + 2)]%nat ++
  scan_code base (l + 3) (l + 4) (l + 6).

(** The port of a machine delivers what the user memory holds. *)
Definition user_port {U} `{UserAccess U} (u : U) (port : Z -> Z -> list Z * Z) : Prop :=
  forall a n, 0 <= n -> let copied := port a n in
    bytes_ok copied.1 /\ (length copied.1 <= Z.to_nat n)%nat /\ 0 <= copied.2 < 2 ^ 64 /\
    copy_from_user u a n = (if copied.2 =? 0 then Some copied.1 else None) /\
    (copied.2 = 0 -> length copied.1 = Z.to_nat n).

Section Capture.
Context {U : Type} `{UserAccess U}.
Context {lay : layout} {prog : code}.
Implicit Types (m : machine) (ct : contents) (s : hstate U).

#[local] Abbreviation base := (context_kaddr lay).
#[local] Abbreviation looks := (looking (lay := lay)).

(** The contents after a computation of the handler. *)
Definition after_run ct (run : Scratch * hstate U) : contents := with_scratch run.1 (with_ctx (h_ctx run.2) ct).

Lemma token_offsets_small t : In t token_offsets -> (t <= 56)%nat.
Proof.
  intros Hin. apply list_elem_of_In, list_elem_of_fmap in Hin as (i & -> & Hi).
  apply elem_of_seq in Hi. lia.
Qed.

Lemma scan_spec ct s matched done_ l rest m :
  placed prog (scan_code base matched done_ l) rest -> (matched < l)%nat -> (done_ < l)%nat -> matched <> done_ ->
  looks ct m -> h_ctx s = ct_ctx ct -> take (Z.to_nat (m_reg m 17)) (h_parcel s) = take (Z.to_nat (m_reg m 17)) (ct_area ct) ->
  let run := emit_scan_prefix (m_reg m 17) (ct_td ct) (ct_scratch ct) s in
  reaches prog (scan_code base matched done_ l ++ rest) m rest
    (fun m' => contains lay (after_run ct run) (m_mem m') /\ same_but [9; 10; 11; 12; 31]%nat m m').
Proof.
  intros Hp Hml Hdl Hne Hlook Hctx Harea run.
  assert (Hskip : forall x, (x < l)%nat -> x ∉ binds (try_parcel_descriptor_code base kDrmPluginDescriptor
    parcel_plugin_hits matched token_offsets l)) by (intros x Hx Hin%binds_rounds; lia).
  assert (Hmatched : find_label prog matched = Some ([Bind done_] ++ rest)).
  { apply Hp. unfold scan_code. rewrite find_label_skip by by apply Hskip. rewrite find_counter. cbn.
    by rewrite Nat.eqb_refl. }
  assert (Hdone : find_label prog done_ = Some rest).
  { apply (Hp done_ []). unfold scan_code. rewrite find_label_skip by by apply Hskip. rewrite find_counter. cbn.
    rewrite (proj2 (Nat.eqb_neq _ _)) by done. by rewrite Nat.eqb_refl. }
  set (result := searched_tokens ct (m_reg m 17) kDrmPluginDescriptor parcel_plugin_hits token_offsets).
  destruct (searched_tokens_run ct (m_reg m 17) kDrmPluginDescriptor parcel_plugin_hits token_offsets s) as [Hrun Hkeep].
  fold result in Hrun, Hkeep. rewrite run_of_id in Hrun by done.
  assert (Hr : run = (let s' := run_of result.2 s in
    (ct_scratch result.2, if result.1 then s' else (emit_counter_increment parcel_unknown_tokens s').2))).
  { subst run. unfold emit_scan_prefix, mbind, HM_bind, h_parcel_area.
    rewrite <-(Z2Nat.id (m_reg m 17)) by apply Hlook.
    rewrite (emit_try_parcel_descriptor_agree _ _ _ Harea). rewrite Z2Nat.id by apply Hlook. rewrite Hrun.
    by destruct result.1. }
  unfold scan_code in Hp |- *. pose proof (placed_l _ _ _ _ Hp) as Hrounds. rewrite <-!app_assoc.
  eapply reach_trans; [apply (rounds_spec kDrmPluginDescriptor parcel_plugin_hits matched _ Hmatched descriptor_bytes);
    [by apply Nat.leb_le|exact Hrounds|exact Hlook|exact token_offsets_small]|].
  fold result. intros m1 [Hm1 Hs1]. rewrite Hr. unfold after_run. cbn [fst snd]. destruct result.1.
  - cbn [app]. plain. apply reach_here. split; [rewrite Hkeep in Hm1; exact Hm1|exact Hs1].
  - eapply reach_trans; [by apply (increment_code parcel_unknown_tokens _ m1 result.2)|].
    intros m2 [Hm2 Hs2]. cbn [app]. eapply reach_jump; [exact Hdone|]. apply reach_here. split.
    + rewrite Hkeep in Hm2. exact Hm2.
    + eapply same_but_trans; [exact Hs1|]. eapply same_but_more; [|exact Hs2]. reg_solver.
Qed.

(** * The whole of it *)

Section Whole.
Context (type : Z) (l : label) (rest : code).
Context (Hp : placed prog (capture_parcel_prefix_code base type l) rest).

Definition fault_end : code :=
  counter_increment_code base parcel_prefix_faults ++ [B (l + 4); Bind (l + 2)]%nat ++
  scan_code base (l + 3) (l + 4) (l + 6).

Definition ready_end : code :=
  [Alu ADD X 13 23 (Imm kParcelPrefixScratchOffset); CopyFromUser 13 16 17; Cbnz X 0 (l + 1)%nat;
   Str 4 17 23 (parsed_offset kParcelPrefixSize)] ++ counter_increment_code base parcel_prefix_ok ++
  [B (l + 2); Bind (l + 1)]%nat ++ fault_end.

Definition request_end : code :=
  copy_prefix_code base (l + 1) (l + 2) (l + 5) ++ [B (l + 2); Bind (l + 1)]%nat ++ fault_end.

Lemma find_matches x y c cs : find_label (flat_map (request_match_code y) cs ++ c) x = find_label c x.
Proof. induction cs as [|k cs IH]; [done|exact IH]. Qed.

Lemma find_scan x c k : (x < l + 3)%nat -> k = (l + 6)%nat ->
  find_label (scan_code base (l + 3) (l + 4) k ++ c) x = find_label c x.
Proof.
  intros Hx ->. unfold scan_code. rewrite <-!app_assoc. rewrite find_label_skip.
  - rewrite find_counter. cbn [find_label app]. rewrite !(proj2 (Nat.eqb_neq _ _)) by lia. done.
  - intros Hin%binds_rounds. lia.
Qed.

Lemma find_front x c :
  find_label (flat_map (request_match_code l) (request_commands type) ++ c) x = find_label c x.
Proof. apply find_matches. Qed.

Lemma capture_labels :
  find_label prog l = Some (request_end ++ rest) /\ find_label prog (l + 1) = Some (fault_end ++ rest) /\
  find_label prog (l + 2) = Some (scan_code base (l + 3) (l + 4) (l + 6) ++ rest) /\
  find_label prog (l + 5) = Some (ready_end ++ rest).
Proof.
  split_and!; apply Hp; unfold capture_parcel_prefix_code, copy_prefix_code, request_end, ready_end, fault_end;
    rewrite find_front; rewrite <-?app_assoc; cbn [app find_label]; rewrite ?find_counter; find_in.
Qed.

Lemma done_label : find_label prog (l + 4) = Some rest.
Proof.
  apply (Hp (l + 4)%nat []). unfold capture_parcel_prefix_code, copy_prefix_code, scan_code.
  rewrite find_front. rewrite <-?app_assoc. cbn [app find_label]. rewrite ?find_counter.
  repeat (cbn [app find_label]; rewrite ?find_counter, ?(find_label_skip (try_parcel_descriptor_code _ _ _ _ _ _))
    by (intros Hin%binds_rounds; lia); repeat match goal with
    | |- context [Nat.eqb ?a ?b] =>
        first [rewrite (proj2 (Nat.eqb_neq a b)) by lia|rewrite (proj2 (Nat.eqb_eq a b)) by lia]
    end). reflexivity.
Qed.

Lemma placed_scan : placed prog (scan_code base (l + 3) (l + 4) (l + 6)) rest.
Proof.
  unfold capture_parcel_prefix_code, copy_prefix_code in Hp. rewrite !app_assoc in Hp. eapply placed_r; [exact Hp|].
  intros x Hx. assert (Hl : (x = l + 3 \/ x = l + 4 \/ l + 6 <= x)%nat).
  { unfold scan_code in Hx. rewrite !binds_both, !elem_of_app in Hx.
    destruct Hx as [Hx%binds_rounds|[Hx|Hx]]; [lia|by rewrite elem_of_nil in Hx|].
    cbn in Hx. rewrite !elem_of_cons, elem_of_nil in Hx. lia. }
  rewrite !binds_both. assert (Hnone : binds (flat_map (request_match_code l) (request_commands type)) = []).
  { unfold request_commands. by destruct (_ =? _). }
  rewrite Hnone. cbn. rewrite !elem_of_cons, elem_of_nil. lia.
Qed.

Definition changed : list reg := [0; 9; 10; 11; 12; 13; 15; 16; 17; 31]%nat.

(** What the capture is to come to. *)
Definition captured ct (run : Scratch * hstate U) m m' : Prop :=
  (exists area, contains lay (with_area area (after_run ct run)) (m_mem m')) /\ same_but changed m m'.

Lemma captured_from ct run rs m m1 m' :
  same_but rs m m1 -> (forall r, r ∈ rs -> r ∈ changed) -> captured ct run m1 m' -> captured ct run m m'.
Proof. intros Hs Hsub [Hm Hs']. split; [exact Hm|]. eapply same_but_trans; [by eapply same_but_more|exact Hs']. Qed.

Lemma matches_spec command cs c target m :
  find_label prog l = Some target -> m_reg m 24 = command -> 0 <= command < 2 ^ 32 ->
  Forall (fun k => 0 <= k < 2 ^ 32) cs ->
  reaches prog (flat_map (request_match_code l) cs ++ c) m
    (if existsb (fun k => command =? k) cs then target else c)
    (fun m' => m_mem m' = m_mem m /\ same_but [11]%nat m m').
Proof.
  intros Hl Hr Hcommand Hcs. revert m Hr. induction Hcs as [|k cs Hk _ IH]; intros m Hr.
  { apply reach_here. split; [done|same_regs]. }
  cbn [flat_map existsb request_match_code app]. plain. plain. rewrite Hr, (u64_small k), !u32_small by lia.
  eapply reach_bcond; [exact Hl|..]; regs; intros E; rewrite E; cbn [orb].
  - apply reach_here. split; [done|same_regs].
  - eapply reach_mono; [by apply IH|]. intros m' [Hmem Hs]. split; [exact Hmem|].
    eapply same_but_trans; [|exact Hs]. same_regs.
Qed.

Lemma fault_end_spec ct area s m :
  contains lay (with_area area ct) (m_mem m) -> h_ctx s = ct_ctx ct ->
  reaches prog (fault_end ++ rest) m rest
    (captured ct ((emit_counter_increment parcel_prefix_faults;; mret (ct_scratch ct)) s) m).
Proof.
  intros Hm Hctx. unfold fault_end. rewrite <-!app_assoc.
  eapply reach_trans; [by apply (increment_code parcel_prefix_faults _ m (with_area area ct))|].
  intros m1 [Hm1 Hs1]. cbn [app]. eapply reach_jump; [exact done_label|]. apply reach_here. split.
  - exists area. change (contains lay (with_area area (with_scratch (ct_scratch ct)
      (with_ctx (add_word parcel_prefix_faults 1 (h_ctx s)) ct))) (m_mem m1)). rewrite Hctx. exact Hm1.
  - eapply same_but_more; [|exact Hs1]. unfold changed. reg_solver.
Qed.

(** The scan, from contents whose area holds what was copied. *)
Lemma captured_scan ct s size m :
  looks ct m -> m_reg m 17 = size -> h_ctx s = ct_ctx ct ->
  take (Z.to_nat size) (h_parcel s) = take (Z.to_nat size) (ct_area ct) ->
  reaches prog (scan_code base (l + 3) (l + 4) (l + 6) ++ rest) m rest
    (captured ct (emit_scan_prefix size (ct_td ct) (ct_scratch ct) s) m).
Proof.
  intros Hlook <- Hctx Harea. eapply reach_mono; [apply (scan_spec ct s _ _ _ _ m placed_scan); try done; lia|].
  intros m' [Hm' Hs]. split; [exists (ct_area ct); exact Hm'|].
  eapply same_but_more; [|exact Hs]. unfold changed. reg_solver.
Qed.

(** From the copy on, with the bounded size in x17 and the source in x16. *)
Lemma ready_end_spec ct s size m :
  looks ct m -> m_reg m 17 = size -> m_reg m 16 = td_buffer (ct_td ct) -> h_ctx s = ct_ctx ct ->
  user_port (h_mem s) (m_user m) ->
  reaches prog (ready_end ++ rest) m rest
    (captured ct ((copied ← h_read (td_buffer (ct_td ct)) size;
       match copied with
       | None => emit_counter_increment parcel_prefix_faults;; mret (ct_scratch ct)
       | Some bs =>
           h_fill_parcel 0 bs;; emit_counter_increment parcel_prefix_ok;;
           emit_scan_prefix size (ct_td ct) (set_scratch kParcelPrefixSize size (ct_scratch ct))
       end) s) m).
Proof.
  intros Hlook H17 H16 Hctx Hport. destruct (Hlook) as (Hm & H23 & Hsize). rewrite H17 in Hsize.
  pose proof (cell_range lay ct (m_mem m) (Td TdBuffer) Hm Logic.I) as Hbuffer. cbn in Hbuffer.
  destruct (Hport (td_buffer (ct_td ct)) size ltac:(lia)) as (Hbytes & Hlen & Hleft & Hread & Hfull).
  destruct capture_labels as (_ & H1 & H2 & _). pose proof (cn_layout _ _ _ Hm) as [_ Hscratch _ _ _].
  unfold mbind, HM_bind, h_read. rewrite Hread. unfold ready_end. rewrite <-!app_assoc. cbn [app]. plain.
  set (copied := m_user m (td_buffer (ct_td ct)) size) in *.
  destruct (store_area lay ct (m_mem m) 0 copied.1 Hm Hbytes ltac:(lia)) as (mem & Hstore & Hmem).
  eapply reach_step.
  { cbn [step m_user set_reg]. regs. rewrite H16, H17, H23. rewrite (u64_small (td_buffer _)), (u64_small size) by lia.
    fold copied. unfold kParcelPrefixScratchOffset. rewrite (u64_small 80), (u64_small (scratch lay)), u64_u64 by lia.
    rewrite u64_small by lia. change 80 with (80 + Z.of_nat 0). rewrite Hstore. reflexivity. }
  set (area := fill_area 0 copied.1 (ct_area ct)) in *. regs.
  eapply reach_cbnz; [exact H1|..]; regs; rewrite u64_small by lia; intros E; rewrite E.
  { eapply reach_mono; [apply (fault_end_spec ct area s); [exact Hmem|exact Hctx]|]. intros m' Hm'.
    eapply (captured_from _ _ [0; 13; 16]%nat); [|unfold changed; reg_solver|exact Hm']. same_regs. }
  apply Z.eqb_eq in E. specialize (Hfull E).
  set (sc := set_scratch kParcelPrefixSize size (ct_scratch ct)).
  eapply (store_parsed _ _ size (with_area area ct)); [exact Hmem|exact H23| |].
  { regs. rewrite H17, u64_small, Z.mod_small by lia. done. }
  intros mem2 Hmem2. set (m2 := set_mem mem2 _).
  assert (Hs2 : same_but [0; 13; 16]%nat m m2) by (unfold m2; same_regs).
  set (s1 := (h_fill_parcel 0 copied.1 s).2).
  set (ct2 := bump parcel_prefix_ok 1 (with_scratch sc (with_area area ct))).
  eapply reach_trans; [apply (increment_code parcel_prefix_ok _ m2 (with_scratch sc (with_area area ct))); exact Hmem2|].
  intros m3 [Hm3 Hs3]. assert (Hs03 : same_but [0; 9; 10; 13; 16; 31]%nat m m3).
  { eapply same_but_trans; [eapply same_but_more; [|exact Hs2]; reg_solver|eapply same_but_more; [|exact Hs3]; reg_solver]. }
  cbn [app]. eapply reach_jump; [exact H2|].
  eapply reach_mono; [apply (captured_scan ct2 (emit_counter_increment parcel_prefix_ok s1).2 size m3)|].
  - split; [exact Hm3|]. rewrite !(proj1 Hs03) by reg_solver. rewrite H17. by split.
  - rewrite (proj1 Hs03) by reg_solver. exact H17.
  - change (add_word parcel_prefix_ok 1 (h_ctx s) = add_word parcel_prefix_ok 1 (ct_ctx ct)). by rewrite Hctx.
  - change (take (Z.to_nat size) (take 0 (h_parcel s) ++ copied.1 ++ drop (0 + length copied.1) (h_parcel s)) =
      take (Z.to_nat size) area). rewrite <-Hfull, take_0, app_nil_l, take_app_length.
    symmetry. apply take_fill_area. lia.
  - intros m' Hm'. eapply (captured_from _ _ [0; 9; 10; 13; 16; 31]%nat); [exact Hs03|unfold changed; reg_solver|exact Hm'].
Qed.

(** What a request leads to. *)
Definition request_run (td : BinderTransactionData) (sc : Scratch) : HM U Scratch :=
  if td_data_size td =? 0 then emit_scan_prefix 0 td sc
  else if td_buffer td =? 0 then emit_counter_increment parcel_prefix_faults;; mret sc
  else
    let size := if td_data_size td <=? kParcelPrefixMaxBytes then td_data_size td else kParcelPrefixMaxBytes in
    copied ← h_read (td_buffer td) size;
    match copied with
    | None => emit_counter_increment parcel_prefix_faults;; mret sc
    | Some bs =>
        h_fill_parcel 0 bs;; emit_counter_increment parcel_prefix_ok;;
        emit_scan_prefix size td (set_scratch kParcelPrefixSize size sc)
    end.

Lemma capture_run command td sc s :
  emit_capture_parcel_prefix type command td sc s =
  (if existsb (fun k => command =? k) (request_commands type) then request_run td sc s else (sc, s)).
Proof.
  unfold emit_capture_parcel_prefix, is_request_command, request_commands.
  destruct (type =? ioc_c); cbn [existsb]; rewrite orb_false_r; by destruct (_ || _).
Qed.

Lemma request_end_spec ct s m :
  contains lay ct (m_mem m) -> m_reg m 23 = scratch lay -> user_port (h_mem s) (m_user m) -> h_ctx s = ct_ctx ct ->
  reaches prog (request_end ++ rest) m rest (captured ct (request_run (ct_td ct) (ct_scratch ct) s) m).
Proof.
  intros Hm H23 Hport Hctx. destruct capture_labels as (_ & H1 & H2 & H5).
  pose proof (cell_range lay ct (m_mem m) (Td TdDataSize) Hm Logic.I) as Hds. cbn in Hds.
  pose proof (cell_range lay ct (m_mem m) (Td TdBuffer) Hm Logic.I) as Hb. cbn in Hb.
  unfold request_end, copy_prefix_code, request_run. rewrite <-!app_assoc. cbn [app].
  eapply (reach_ldr lay prog ct (Td TdDataSize)); [exact Hm|done|done|exact (scratch_addr ct m (Td TdDataSize) Hm eq_refl H23)|].
  eapply (reach_ldr lay prog ct (Td TdBuffer)); [exact Hm|done|done|exact (scratch_addr ct m (Td TdBuffer) Hm eq_refl H23)|].
  cbn [field_get td_get]. set (m1 := set_reg 16 _ _).
  assert (Hs1 : same_but [16; 17]%nat m m1) by (unfold m1; same_regs).
  assert (H17 : rd m1 X 17 = td_data_size (ct_td ct)) by (unfold m1; regs; apply u64_small; lia).
  assert (H16 : rd m1 X 16 = td_buffer (ct_td ct)) by (unfold m1; regs; apply u64_small; lia).
  eapply reach_cbz; [exact H2|..]; rewrite H17; intros Ezero; rewrite Ezero.
  { eapply reach_mono; [apply (captured_scan ct s 0 m1); [|unfold m1; regs; lia|exact Hctx|done]|].
    - split; [exact Hm|]. rewrite (proj1 Hs1) by reg_solver. split; [exact H23|]. unfold m1. regs. lia.
    - intros m' Hm'. eapply captured_from; [exact Hs1|unfold changed; reg_solver|exact Hm']. }
  eapply reach_cbz; [exact H1|..]; rewrite H16; intros Ebuffer; rewrite Ebuffer.
  { eapply reach_mono; [apply (fault_end_spec ct (ct_area ct) s); [destruct ct; exact Hm|exact Hctx]|].
    intros m' Hm'. eapply captured_from; [exact Hs1|unfold changed; reg_solver|exact Hm']. }
  set (size := if _ <=? _ then _ else _).
  assert (Hend : forall m2, m_mem m2 = m_mem m -> same_but [15; 16; 17]%nat m m2 -> m_user m2 = m_user m ->
    m_reg m2 17 = size -> m_reg m2 16 = td_buffer (ct_td ct) -> 0 <= size <= 256 ->
    reaches prog (ready_end ++ rest) m2 rest (captured ct (request_run (ct_td ct) (ct_scratch ct) s) m)).
  { intros m2 Hmem2 Hs2 Huser H17' H16' Hsize. unfold request_run. rewrite Ezero, Ebuffer. fold size.
    eapply reach_mono; [apply (ready_end_spec ct s size m2); [|exact H17'|exact H16'|exact Hctx|by rewrite Huser]|].
    - split; [by rewrite Hmem2|]. rewrite (proj1 Hs2) by reg_solver. rewrite H17'. by split.
    - intros m' Hm'. eapply captured_from; [exact Hs2|unfold changed; reg_solver|exact Hm']. }
  unfold request_run in Hend. rewrite Ezero, Ebuffer in Hend. fold size in Hend.
  plain. plain. change (u64 kParcelPrefixMaxBytes) with 256. change (u64 (m_reg m1 17)) with (rd m1 X 17).
  rewrite H17. unfold m1 in H17, H16. cbn [rd set_reg m_reg Nat.eqb mask] in H17, H16.
  pose proof (eq_refl : size = if td_data_size (ct_td ct) <=? 256 then td_data_size (ct_td ct) else 256) as Hsize.
  eapply reach_bcond; [exact H5|..]; regs; intros Els;
    destruct (Z.leb_spec 256 (td_data_size (ct_td ct))), (Z.eqb_spec (td_data_size (ct_td ct)) 256),
      (Z.leb_spec (td_data_size (ct_td ct)) 256); try discriminate Els; try lia;
    try (plain; plain; change (u64 256) with 256);
    (apply Hend; [done|unfold m1; same_regs|done|unfold m1; regs; lia|done|lia]).
Qed.

(** C17: the capture of a parcel's prefix as machine code: it does what the operation of the
    handler does.  For any command, any transaction and whatever can be read of the
    user's memory the run comes to the code behind it; memory then holds the context with
    the counters moved, and the words of the scratch the operation computes: the
    descriptor and the property found, where, and how many bytes were looked at.  What a
    failed copy leaves in the parcel area is not specified, and nothing depends on it. *)
Theorem emitted_capture_refines ct command s m :
  contains lay ct (m_mem m) -> m_reg m 23 = scratch lay -> m_reg m 24 = command -> 0 <= command < 2 ^ 32 ->
  user_port (h_mem s) (m_user m) -> h_ctx s = ct_ctx ct ->
  let run := emit_capture_parcel_prefix type command (ct_td ct) (ct_scratch ct) s in
  reaches prog (capture_parcel_prefix_code base type l ++ rest) m rest
    (fun m' => (exists area, contains lay (with_area area (with_scratch run.1 (with_ctx (h_ctx run.2) ct))) (m_mem m')) /\
       same_but [0; 9; 10; 11; 12; 13; 15; 16; 17; 31]%nat m m').
Proof.
  intros Hm H23 H24 Hcommand Hport Hctx run. unfold run. rewrite capture_run. clear run.
  destruct capture_labels as (H0 & _). unfold capture_parcel_prefix_code. rewrite <-!app_assoc.
  eapply reach_trans; [apply reach_user, (matches_spec command _ _ _ m H0 H24 Hcommand)|].
  { unfold request_commands. destruct (_ =? _); repeat (constructor; [by split|]); constructor. }
  intros m1 [[Hmem1 Hs1] Huser1]. rewrite <-Hmem1 in Hm. destruct (existsb _ _).
  - eapply reach_mono; [apply (request_end_spec ct s m1 Hm); [|by rewrite Huser1|exact Hctx]|].
    + by rewrite (proj1 Hs1) by reg_solver.
    + intros m' Hm'. eapply captured_from; [exact Hs1|unfold changed; reg_solver|exact Hm'].
  - cbn [app]. eapply reach_jump; [exact done_label|]. apply reach_here. split.
    + exists (ct_area ct). cbn [fst snd]. rewrite Hctx. destruct ct. exact Hm.
    + eapply same_but_more; [|exact Hs1]. reg_solver.
Qed.

End Whole.

End Capture.

(** * A concrete capture *)

(** The port of a machine whose user memory is known. *)
Definition port_of {U} `{UserAccess U} (u : U) : Z -> Z -> list Z * Z := fun a n =>
  match copy_from_user u a n with Some bs => (bs, 0) | None => ([], 1) end.

Lemma port_of_ok {U} `{UserAccessLaws U} (u : U) : user_port u (port_of u).
Proof.
  intros a n Hn. unfold port_of. destruct (copy_from_user u a n) as [bs|] eqn:E; cbn.
  - pose proof (cfu_length _ _ _ _ E) as Hlen. pose proof (cfu_bytes _ _ _ _ E). split_and!; try done; lia.
  - split_and!; try done; [constructor|lia].
Qed.

Definition demo_capture : code := capture_parcel_prefix_code (2 ^ 40) ioc_r 0.

(** A request has been received, and its parcel is yet to be looked at. *)
Definition demo_received : contents := {|
  ct_ctx := zero_context; ct_task := demo_task; ct_td := demo_td demo_parcel;
  ct_scratch := emit_reset_transaction_parse_scratch; ct_config_pointer := 0; ct_generation := 0; ct_area := [] |}.

Definition demo_receiver : machine := {|
  m_reg := fun r => match r with 23%nat => 2 ^ 41 | 24%nat => BR_TRANSACTION | _ => 0 end;
  m_zero := false; m_carry := false; m_mem := memory_of demo_layout demo_received; m_tries := [];
  m_current := 4096; m_user := port_of (h_mem (demo_delivery demo_parcel));
  m_left := (77, (true, true)) |}.

(** The request is recognised: its flag, the word at 348 of the scratch, is set. *)
Lemma emitted_capture_refines_witness :
  reaches demo_capture demo_capture demo_receiver [] (fun m' => m_mem m' (2 ^ 41 + 348) = Some (4, 1)).
Proof.
  eapply reach_mono.
  - rewrite <-(app_nil_r demo_capture) at 2.
    apply (emitted_capture_refines (lay := demo_layout) (prog := demo_capture) ioc_r 0 [])
      with (ct := demo_received) (command := BR_TRANSACTION) (s := demo_delivery demo_parcel).
    + rewrite <-(app_nil_r demo_capture). apply (placed_within []). intros l _ Hl. by apply elem_of_nil in Hl.
    + apply contains_memory_of; [exact demo_layout_ok|]. vm_compute. reflexivity.
    + reflexivity.
    + reflexivity.
    + split; [discriminate|reflexivity].
    + apply port_of_ok.
    + reflexivity.
  - intros m' [[area [_ Hcell _]] _]. exact (Hcell (Parsed kParcelFlags) Logic.I).
Defined.
