(* ===== verification/Lock.v ===== *)
(** The bounded try-lock of the pending table (binder_hook_builder.cpp) under
    concurrency: load-exclusive, store-exclusive, clear-exclusive and the release
    store as steps of threads over one word with exclusive reservations. *)

From S2P Require Import Prelude Pending.

(** Where a thread is in [emit_bounded_lock_acquire]; [left] is w11. *)

(** src/binder_hook_builder.cpp:235-256 [emit_bounded_lock_acquire] *)
Inductive lock_pc :=
  | PcOut
  | PcTry (left : nat)
  | PcStore (left : nat)
  | PcIn
  | PcDropped.

#[global] Instance lock_pc_eq_dec : EqDecision lock_pc.
Proof. solve_decision. Defined.

(** The word, the threads, and who holds an exclusive reservation on the word. *)
Record lock_state := {
  lk_word : Z;
  lk_pc : nat -> lock_pc;
  lk_monitor : nat -> bool;
}.

(** [busy]: the reservation is dropped and one try is used up. *)

(** src/binder_hook_builder.cpp:250-254 [emit_bounded_lock_acquire] *)
Definition busy_pc (left : nat) : lock_pc :=
  if decide (left - 1 = 0)%nat then PcDropped else PcTry (left - 1).

(** One instruction of one thread.  A store-exclusive needs the reservation and
    may also fail without a reason; a store to the word drops every reservation. *)

(** src/binder_hook_builder.cpp:243-266 [emit_bounded_lock_acquire, emit_bounded_lock_release] *)
Inductive lock_step (t : nat) : lock_state -> lock_state -> Prop :=
  | LkEnter s :
      lk_pc s t = PcOut ->
      lock_step t s {| lk_word := lk_word s; lk_pc := <[t := PcTry kMapLockTryCount]> (lk_pc s);
                       lk_monitor := lk_monitor s |}
  | LkLoadFree s left :
      lk_pc s t = PcTry left -> lk_word s = 0 ->
      lock_step t s {| lk_word := lk_word s; lk_pc := <[t := PcStore left]> (lk_pc s);
                       lk_monitor := <[t := true]> (lk_monitor s) |}
  | LkLoadBusy s left :
      lk_pc s t = PcTry left -> lk_word s <> 0 ->
      lock_step t s {| lk_word := lk_word s; lk_pc := <[t := busy_pc left]> (lk_pc s);
                       lk_monitor := <[t := false]> (lk_monitor s) |}
  | LkStoreOk s left :
      lk_pc s t = PcStore left -> lk_monitor s t = true ->
      lock_step t s {| lk_word := 1; lk_pc := <[t := PcIn]> (lk_pc s);
                       lk_monitor := fun _ => false |}
  | LkStoreFail s left :
      lk_pc s t = PcStore left ->
      lock_step t s {| lk_word := lk_word s; lk_pc := <[t := busy_pc left]> (lk_pc s);
                       lk_monitor := <[t := false]> (lk_monitor s) |}
  | LkRelease s :
      lk_pc s t = PcIn ->
      lock_step t s {| lk_word := 0; lk_pc := <[t := PcOut]> (lk_pc s);
                       lk_monitor := fun _ => false |}
  | LkLeave s :
      lk_pc s t = PcDropped ->
      lock_step t s {| lk_word := lk_word s; lk_pc := <[t := PcOut]> (lk_pc s);
                       lk_monitor := lk_monitor s |}.

Definition lock_initial : lock_state :=
  {| lk_word := 0; lk_pc := fun _ => PcOut; lk_monitor := fun _ => false |}.

Definition lock_reachable (s : lock_state) : Prop :=
  rtc (fun a b => exists t, lock_step t a b) lock_initial s.

(** * Mutual exclusion *)

Record lock_inv (s : lock_state) : Prop := {
  li_word : lk_word s = 0 \/ lk_word s = 1;
  li_in : forall t, lk_pc s t = PcIn -> lk_word s = 1;
  li_one : forall t t', lk_pc s t = PcIn -> lk_pc s t' = PcIn -> t = t';
  li_reserved : forall t, lk_monitor s t = true -> lk_word s = 0;
  li_tries : forall t left, lk_pc s t = PcTry left \/ lk_pc s t = PcStore left ->
    (1 <= left <= kMapLockTryCount)%nat;
}.

Lemma busy_pc_cases left :
  (1 <= left <= kMapLockTryCount)%nat ->
  busy_pc left <> PcIn /\
  forall k, busy_pc left = PcTry k \/ busy_pc left = PcStore k -> (1 <= k <= kMapLockTryCount)%nat.
Proof. unfold busy_pc. case_decide; (split; [done|]); intros k [[=]|[=]]; lia. Qed.

(** A thread moved; what it was is known, and it is not inside. *)
Lemma lock_inv_move s t pc word monitor :
  lock_inv s -> lk_pc s t <> PcIn -> pc <> PcIn -> word = lk_word s ->
  (forall u, monitor u = true -> lk_word s = 0) ->
  (forall left, pc = PcTry left \/ pc = PcStore left -> (1 <= left <= kMapLockTryCount)%nat) ->
  lock_inv {| lk_word := word; lk_pc := <[t := pc]> (lk_pc s); lk_monitor := monitor |}.
Proof.
  intros [Hw Hin Hone Hres Htries] Hout Hpc -> Hmon Hleft. split; cbn; [done| | | |].
  - intros u. destruct (decide (t = u)) as [<-|]; [by rewrite fn_lookup_insert|].
    rewrite fn_lookup_insert_ne by done. apply Hin.
  - intros u u'. destruct (decide (t = u)) as [<-|]; [by rewrite fn_lookup_insert|].
    destruct (decide (t = u')) as [<-|]; [by rewrite fn_lookup_insert|].
    rewrite !fn_lookup_insert_ne by done. apply Hone.
  - apply Hmon.
  - intros u left. destruct (decide (t = u)) as [<-|].
    + rewrite fn_lookup_insert. apply Hleft.
    + rewrite fn_lookup_insert_ne by done. apply Htries.
Qed.

Lemma lock_step_inv t s s' : lock_step t s s' -> lock_inv s -> lock_inv s'.
Proof.
  intros Hstep Hinv. pose proof Hinv as [Hw Hin Hone Hres Htries].
  assert (Hmon : forall b, (b = true -> lk_word s = 0) ->
    forall u, (<[t := b]> (lk_monitor s)) u = true -> lk_word s = 0).
  { intros b Hb u. destruct (decide (t = u)) as [<-|]; [by rewrite fn_lookup_insert|].
    rewrite fn_lookup_insert_ne by done. apply Hres. }
  destruct Hstep as [s Hpc|s left Hpc H0|s left Hpc Hn|s left Hpc Hm|s left Hpc|s Hpc|s Hpc].
  - apply lock_inv_move; [done|congruence|done|done|done|]. intros left [[= <-]|[=]].
    unfold kMapLockTryCount. lia.
  - apply lock_inv_move; [done|congruence|done|done|by apply Hmon|].
    intros k [[=]|[= <-]]. apply (Htries t). by left.
  - destruct (busy_pc_cases left) as [? ?]; [apply (Htries t); by left|].
    apply lock_inv_move; [done|congruence|done|done|by apply Hmon|done].
  - pose proof (Hres t Hm) as Hz. split; cbn; [by right|done| |done|].
    + intros u u'. destruct (decide (t = u)) as [<-|Hu], (decide (t = u')) as [<-|Hu'];
        rewrite ?fn_lookup_insert, ?fn_lookup_insert_ne by done; intros H1 H2;
        [done|specialize (Hin _ H2); lia|specialize (Hin _ H1); lia|by apply Hone].
    + intros u k. destruct (decide (t = u)) as [<-|]; [rewrite fn_lookup_insert; intros [|]; done|].
      rewrite fn_lookup_insert_ne by done. apply Htries.
  - destruct (busy_pc_cases left) as [? ?]; [apply (Htries t); by right|].
    apply lock_inv_move; [done|congruence|done|done|by apply Hmon|done].
  - split; cbn; [by left| | |done|].
    + intros u. destruct (decide (t = u)) as [<-|Hu]; [by rewrite fn_lookup_insert|].
      rewrite fn_lookup_insert_ne by done. intros H1. by destruct (Hu (Hone _ _ Hpc H1)).
    + intros u u'. destruct (decide (t = u)) as [<-|]; [by rewrite fn_lookup_insert|].
      destruct (decide (t = u')) as [<-|]; [by rewrite fn_lookup_insert|].
      rewrite !fn_lookup_insert_ne by done. apply Hone.
    + intros u k. destruct (decide (t = u)) as [<-|]; [rewrite fn_lookup_insert; intros [|]; done|].
      rewrite fn_lookup_insert_ne by done. apply Htries.
  - apply lock_inv_move; [done|congruence|done|done|done|by intros k [|]].
Qed.

Lemma lock_reachable_inv s : lock_reachable s -> lock_inv s.
Proof.
  unfold lock_reachable. intros Hr. remember lock_initial as s0 eqn:E.
  assert (lock_inv s0) as Hinv.
  { subst s0. split; cbn; [by left|done|done|done|by intros t left [|]]. }
  clear E. induction Hr as [|s1 s2 s3 [t Hstep] _ IH]; [done|].
  apply IH. by apply (lock_step_inv t s1).
Qed.

(** C19: whatever the interleaving of the threads' instructions, and whichever
    store-exclusives fail, at most one thread is inside the pending table at a
    time, the word says so, and a thread outside has at most eight tries left. *)
Theorem lock_mutual_exclusion s t t' :
  lock_reachable s -> lk_pc s t = PcIn ->
  lk_word s = 1 /\ (lk_pc s t' = PcIn -> t = t') /\
  (forall left, lk_pc s t' = PcTry left \/ lk_pc s t' = PcStore left ->
     (1 <= left <= kMapLockTryCount)%nat).
Proof.
  intros Hr%lock_reachable_inv Hin. destruct Hr as [Hw Hi Hone Hres Htries].
  split; [by apply (Hi t)|]. split; [by apply Hone|by apply Htries].
Qed.

(** * One acquisition *)

(** The attempts of thread [t] between entering and leaving the loop, as the pairs
    of observed word and store status, with other threads' steps in between. *)
Inductive own_attempts (t : nat) : list (Z * Z) -> lock_state -> lock_state -> Prop :=
  | OaEnd s : lk_pc s t = PcIn \/ lk_pc s t = PcDropped -> own_attempts t [] s s
  | OaOther u script s s1 s2 :
      u <> t -> lock_step u s s1 -> own_attempts t script s1 s2 -> own_attempts t script s s2
  | OaBusy left script s s1 s2 :
      lk_pc s t = PcTry left -> lk_word s <> 0 -> lock_step t s s1 ->
      own_attempts t script s1 s2 -> own_attempts t ((lk_word s, 0) :: script) s s2
  | OaLoad left script s s1 s2 :
      lk_pc s t = PcTry left -> lk_word s = 0 -> lock_step t s s1 ->
      own_attempts t script s1 s2 -> own_attempts t script s s2
  | OaStored left s s1 :
      lk_pc s t = PcStore left -> lock_step t s s1 -> lk_pc s1 t = PcIn ->
      own_attempts t [(0, 0)] s s1
  | OaLost left script s s1 s2 :
      lk_pc s t = PcStore left -> lock_step t s s1 -> lk_pc s1 t = busy_pc left ->
      own_attempts t script s1 s2 -> own_attempts t ((0, 1) :: script) s s2.

Lemma lock_step_other t u s s' : u <> t -> lock_step u s s' -> lk_pc s' t = lk_pc s t.
Proof. intros Hne Hstep. destruct Hstep; cbn; by rewrite fn_lookup_insert_ne. Qed.

Lemma lock_step_try t s s' left :
  lock_step t s s' -> lk_pc s t = PcTry left ->
  lk_pc s' t = if lk_word s =? 0 then PcStore left else busy_pc left.
Proof.
  intros Hstep Hpc.
  destruct Hstep as [s Ht|s k Ht H0|s k Ht Hn|s k Ht Hm|s k Ht|s Ht|s Ht]; cbn;
    rewrite fn_lookup_insert; rewrite Hpc in Ht; try done; injection Ht as <-.
  - by rewrite H0.
  - by rewrite (proj2 (Z.eqb_neq _ _) Hn).
Qed.

(** What [lock_tries] says of an attempt script, by the number of tries left. *)
Definition script_result (pc : lock_pc) (script : list (Z * Z)) : bool :=
  match pc with
  | PcTry n | PcStore n => lock_tries n 0 script
  | PcIn => true
  | _ => false
  end.

Lemma script_busy n word status script :
  (1 <= n)%nat -> word <> 0 \/ status <> 0 ->
  lock_tries n 0 ((word, status) :: script) = script_result (busy_pc n) script.
Proof.
  intros Hn Hbusy. destruct n as [|n]; [lia|]. cbn.
  assert ((if word =? 0 then if status =? 0 then true else lock_tries n 0 script
    else lock_tries n 0 script) = lock_tries n 0 script) as ->.
  { destruct (Z.eqb_spec word 0), (Z.eqb_spec status 0); try done. lia. }
  unfold busy_pc. replace (S n - 1)%nat with n by lia. case_decide as Hz; [by rewrite Hz|done].
Qed.

(** the sequential model of an acquisition, a bounded search through a script
    of attempts, is what any interleaved acquisition of a thread amounts to: the
    thread ends inside the table exactly when the script of its attempts says so,
    and otherwise gives up. *)
Lemma lock_script_refines t script s s' n :
  lock_inv s -> lk_pc s t = PcTry n -> own_attempts t script s s' ->
  (lk_pc s' t = PcIn /\ lock_tries n 0 script = true) \/
  (lk_pc s' t = PcDropped /\ lock_tries n 0 script = false).
Proof.
  intros Hinv Hpc Hrun.
  enough (forall pc, lk_pc s t = pc -> (exists k, pc = PcTry k \/ pc = PcStore k) \/
      pc = PcIn \/ pc = PcDropped ->
    (lk_pc s' t = PcIn /\ script_result pc script = true) \/
    (lk_pc s' t = PcDropped /\ script_result pc script = false)) as Hall
    by (apply (Hall (PcTry n)); [done|left; exists n; by left]).
  clear n Hpc. induction Hrun as [s Hend|u script s s1 s2 Hne Hstep Hrun IH
    |left script s s1 s2 Hpc Hw Hstep Hrun IH|left script s s1 s2 Hpc Hw Hstep Hrun IH
    |left s s1 Hpc Hstep Hin|left script s s1 s2 Hpc Hstep Hlost Hrun IH]; intros pc Heq Hcase.
  - destruct Hend as [He|He]; rewrite He in Heq; subst pc; [by left|by right].
  - apply IH; [by apply (lock_step_inv u s)| |done].
    by rewrite (lock_step_other t u s s1 Hne Hstep).
  - rewrite Hpc in Heq. subst pc. pose proof (li_tries _ Hinv t left (or_introl Hpc)) as Hb.
    cbn [script_result]. rewrite script_busy by (lia || by left).
    apply IH; [by apply (lock_step_inv t s)| |].
    + rewrite (lock_step_try t s s1 left Hstep Hpc). by rewrite (proj2 (Z.eqb_neq _ _) Hw).
    + unfold busy_pc. case_decide; [by right; right|]. left. eexists. by left.
  - rewrite Hpc in Heq. subst pc. apply (IH (lock_step_inv t s s1 Hstep Hinv) (PcStore left)).
    + rewrite (lock_step_try t s s1 left Hstep Hpc). by rewrite Hw.
    + left. eexists. by right.
  - rewrite Hpc in Heq. subst pc. left. split; [done|]. cbn [script_result].
    pose proof (li_tries _ Hinv t left (or_intror Hpc)). by destruct left; [lia|].
  - rewrite Hpc in Heq. subst pc. pose proof (li_tries _ Hinv t left (or_intror Hpc)) as Hb.
    cbn [script_result]. rewrite script_busy by (lia || by right).
    apply IH; [by apply (lock_step_inv t s)|done|].
    unfold busy_pc. case_decide; [by right; right|]. left. eexists. by left.
Qed.

(** * Concrete runs *)

(** Thread 0 enters, loads the free word and stores. *)
Definition demo_entered : lock_state :=
  {| lk_word := 0; lk_pc := <[0%nat := PcTry kMapLockTryCount]> (lk_pc lock_initial);
     lk_monitor := lk_monitor lock_initial |}.
Definition demo_loaded : lock_state :=
  {| lk_word := 0; lk_pc := <[0%nat := PcStore kMapLockTryCount]> (lk_pc demo_entered);
     lk_monitor := <[0%nat := true]> (lk_monitor demo_entered) |}.
Definition demo_inside : lock_state :=
  {| lk_word := 1; lk_pc := <[0%nat := PcIn]> (lk_pc demo_loaded);
     lk_monitor := fun _ => false |}.

Lemma demo_step1 : lock_step 0 lock_initial demo_entered.
Proof. apply (LkEnter 0 lock_initial). done. Qed.
Lemma demo_step2 : lock_step 0 demo_entered demo_loaded.
Proof. by apply (LkLoadFree 0 demo_entered). Qed.
Lemma demo_step3 : lock_step 0 demo_loaded demo_inside.
Proof. by apply (LkStoreOk 0 demo_loaded kMapLockTryCount). Qed.

Lemma demo_inside_reachable : lock_reachable demo_inside.
Proof.
  apply rtc_l with demo_entered; [exists 0%nat; apply demo_step1|].
  apply rtc_l with demo_loaded; [exists 0%nat; apply demo_step2|].
  apply rtc_once. exists 0%nat. apply demo_step3.
Qed.

Lemma demo_entered_reachable : lock_reachable demo_entered.
Proof. apply rtc_once. exists 0%nat. apply demo_step1. Qed.

Lemma lock_mutual_exclusion_witness : lk_word demo_inside = 1.
Proof. apply (lock_mutual_exclusion demo_inside 0 1 demo_inside_reachable ltac:(done)). Defined.

Lemma lock_script_refines_witness : lock_tries kMapLockTryCount 0 [(0, 0)] = true.
Proof.
  destruct (lock_script_refines 0 [(0, 0)] demo_entered demo_inside kMapLockTryCount) as [[_ H]|[H _]].
  - apply lock_reachable_inv, demo_entered_reachable.
  - done.
  - apply (OaLoad 0 kMapLockTryCount _ demo_entered demo_loaded); [done|done|apply demo_step2|].
    apply (OaStored 0 kMapLockTryCount); [done|apply demo_step3|done].
  - exact H.
  - discriminate H.
Defined.
