(* ===== verification/Slots.v ===== *)
(** The daemon's side of the shared context (binder_hook_builder.cpp): validation
    of configurations and identity sets, installation, publication through the
    inactive slot, snapshots, removal.  The SDK calls (kernel memory, kernel code
    execution, hooks) are parameters: an outcome per call, where a call that
    reports an error may have left anything in the memory it was to write. *)

From stdpp Require Import sorting.
From S2P Require Import Prelude UserMemory KernelContext BinderWire Pending Stream.

(** src/binder_hook_builder.h:16-23 [ReplacementConfig] *)
Record ReplacementConfig := {
  cfg_mode : Z;
  cfg_virtual_id_length : Z;
  cfg_config_generation : Z;
  cfg_seed_generation : Z;
  cfg_profile_fingerprint : Z;
  cfg_virtual_id : list Z;
}.

(** src/binder_hook_builder.h:25-29 [HalIdentityConfig] *)
Record HalIdentityConfig := {
  hi_generation : Z;
  hi_count : Z;
  hi_tgids : list Z;
}.

(** src/binder_hook_builder.h:31-36 [CounterHookSession] *)
Record CounterHookSession := {
  cs_target_kaddr : Z;
  cs_context_kaddr : Z;
  cs_active_at_remove : Z;
  cs_hook : Z;
}.

Definition empty_session : CounterHookSession := Build_CounterHookSession 0 0 0 0.

(** src/binder_hook_builder.cpp:74-80 [validate_runtime_config] *)
Definition validate_runtime_config (config : ReplacementConfig) : bool :=
  negb (cfg_config_generation config =? 0) && negb (cfg_seed_generation config =? 0) &&
  negb (cfg_profile_fingerprint config =? 0) &&
  (cfg_mode config <=? mode_num kWriteTest) &&
  (cfg_virtual_id_length config =? kWidevineDeviceUniqueIdBytes).

(** src/binder_hook_builder.cpp:87-97 [validate_hal_identities] *)
Fixpoint validate_tgids (count : Z) (index : nat) (previous : Z) (tgids : list Z) : bool :=
  match tgids with
  | [] => true
  | value :: tgids =>
      (if Z.of_nat index <? count then
         negb (value =? 0) && negb (negb (Z.of_nat index =? 0) && (value <=? previous))
       else value =? 0) &&
      validate_tgids count (S index) value tgids
  end.

(** src/binder_hook_builder.cpp:82-99 [validate_hal_identities] *)
Definition validate_hal_identities (identities : HalIdentityConfig) : bool :=
  if (hi_generation identities =? 0) || (kHalIdentityLimit <? hi_count identities) then false
  else validate_tgids (hi_count identities) 0 0 (hi_tgids identities).

(** The context as it lies in kernel memory, with its two tags. *)
Record KernelMemory := {
  km_magic : Z;
  km_abi_version : Z;
  km_context : KernelCounterContext;
}.

Definition with_context (f : KernelCounterContext -> KernelCounterContext) (k : KernelMemory)
    : KernelMemory := {|
  km_magic := km_magic k; km_abi_version := km_abi_version k; km_context := f (km_context k) |}.

(** A write that is answered with [o.1] leaves the new value, or on an error
    whatever [o.2] is. *)
Definition write_kernel_mem {A} (o : KModErr * A) (new : A) : KModErr * A :=
  if is_failed o.1 then o else (OK, new).

(** * Snapshots *)

(** src/binder_hook_builder.cpp:1834-1849 [read_counter_snapshot] *)
Definition read_counter_snapshot (session : CounterHookSession) (read : KModErr)
    (k : KernelMemory) : KModErr * option KernelCounterContext :=
  if cs_context_kaddr session =? 0 then (ERR_MODULE_PARAM, None)
  else if is_failed read then (read, None)
  else if negb (km_magic k =? kCounterContextMagic) ||
          negb (km_abi_version k =? kCounterContextAbi) then (ERR_MODULE_PARAM, None)
  else (OK, Some (km_context k)).

(** * Publication *)

(** src/binder_hook_builder.cpp:1742-1750 [publish_runtime_config] *)
Definition make_config_slot (config : ReplacementConfig) : RuntimeConfigSlot := {|
  rc_config_generation := cfg_config_generation config;
  rc_seed_generation := cfg_seed_generation config;
  rc_profile_fingerprint := cfg_profile_fingerprint config;
  rc_replacement_mode := cfg_mode config;
  rc_virtual_id_length := cfg_virtual_id_length config;
  rc_virtual_id :=
    take (Z.to_nat (cfg_virtual_id_length config)) (cfg_virtual_id config) ++
    replicate (64 - Z.to_nat (cfg_virtual_id_length config)) 0 |}.

(** src/binder_hook_builder.cpp:1800-1805 [publish_hal_identities] *)
Definition make_hal_set (identities : HalIdentityConfig) : HalIdentitySet := {|
  hs_generation := hi_generation identities;
  hs_count := hi_count identities;
  hs_tgids := hi_tgids identities |}.

(** The outcome of running the generated index store in the kernel: an error of
    the assembler, or of the execution (which may have happened all the same), or
    the function's result. *)
Record flip_io := {
  fl_asm_failed : bool;
  fl_exec : KModErr;
  fl_ran : bool;
  fl_result : Z;
}.

(** The store of the index is the flip; it happens when the function ran. *)

(** src/binder_hook_builder.cpp:1694-1720 [flip_slot_index] *)
Definition flip_slot_index (o : flip_io) (active slot : Z) : KModErr * Z :=
  if fl_asm_failed o || (1 <? slot) then (ERR_MODULE_ASM, active)
  else
    let active := if fl_ran o then slot else active in
    if is_failed (fl_exec o) then (fl_exec o, active)
    else if u32 (fl_result o) =? 0 then (OK, active) else (ERR_MODULE_WRITE_FILE, active).

Record publish_io (A : Type) := {
  po_read : KModErr;
  po_slot : KModErr * A;
  po_switches : KModErr * Z;
  po_flip : flip_io;
}.
Arguments po_read {A} _.
Arguments po_slot {A} _.
Arguments po_switches {A} _.
Arguments po_flip {A} _.

(** src/binder_hook_builder.cpp:1724-1779 [publish_runtime_config] *)
Definition publish_runtime_config (io : publish_io RuntimeConfigSlot)
    (session : CounterHookSession) (config : ReplacementConfig) (k : KernelMemory)
    : KModErr * Z * KernelMemory :=
  if (cs_context_kaddr session =? 0) || negb (validate_runtime_config config)
  then (ERR_MODULE_PARAM, 0, k)
  else match read_counter_snapshot session (po_read io) k with
  | (err, None) => (err, 0, k)
  | (_, Some snapshot) =>
      let active := Z.land (active_config_slot snapshot) 1 in
      let inactive := Z.lxor active 1 in
      if cfg_config_generation config <=?
         rc_config_generation (nth (Z.to_nat active) (config_slots snapshot) zero_config_slot)
      then (ERR_MODULE_PARAM, 0, k)
      else
        let '(err, slot) := write_kernel_mem (po_slot io) (make_config_slot config) in
        let k := with_context (fun c => set_config (active_config_slot c)
                   (<[Z.to_nat inactive := slot]> (config_slots c)) c) k in
        if is_failed err then (err, 0, k)
        else
          let '(err, switches) := write_kernel_mem (po_switches io)
                (u64 (kc_words snapshot runtime_config_switches + 1)) in
          let k := with_context (put_word runtime_config_switches switches) k in
          if is_failed err then (err, 0, k)
          else
            let '(err, index) :=
              flip_slot_index (po_flip io) (active_config_slot (km_context k)) inactive in
            let k := with_context (fun c => set_config index (config_slots c) c) k in
            if is_failed err then (err, 0, k) else (OK, inactive, k)
  end.

(** src/binder_hook_builder.cpp:1781-1832 [publish_hal_identities] *)
Definition publish_hal_identities (io : publish_io HalIdentitySet)
    (session : CounterHookSession) (identities : HalIdentityConfig) (k : KernelMemory)
    : KModErr * Z * KernelMemory :=
  if (cs_context_kaddr session =? 0) || negb (validate_hal_identities identities)
  then (ERR_MODULE_PARAM, 0, k)
  else match read_counter_snapshot session (po_read io) k with
  | (err, None) => (err, 0, k)
  | (_, Some snapshot) =>
      let active := Z.land (active_hal_identity_slot snapshot) 1 in
      let inactive := Z.lxor active 1 in
      if hi_generation identities <=?
         hs_generation (nth (Z.to_nat active) (hal_identity_slots snapshot) zero_hal_set)
      then (ERR_MODULE_PARAM, 0, k)
      else
        let '(err, set) := write_kernel_mem (po_slot io) (make_hal_set identities) in
        let k := with_context (fun c => set_hal (active_hal_identity_slot c)
                   (<[Z.to_nat inactive := set]> (hal_identity_slots c)) c) k in
        if is_failed err then (err, 0, k)
        else
          let '(err, switches) := write_kernel_mem (po_switches io)
                (u64 (kc_words snapshot hal_identity_switches + 1)) in
          let k := with_context (put_word hal_identity_switches switches) k in
          if is_failed err then (err, 0, k)
          else
            let '(err, index) :=
              flip_slot_index (po_flip io) (active_hal_identity_slot (km_context k)) inactive in
            let k := with_context (fun c => set_hal index (hal_identity_slots c) c) k in
            if is_failed err then (err, 0, k) else (OK, inactive, k)
  end.

(** * Installation and removal *)

Record install_io := {
  io_alloc : KModErr * Z;
  io_write : KModErr * KernelMemory;
  io_build : KModErr;
  io_hook : KModErr * Z;
}.

(** src/binder_hook_builder.cpp:1646-1669 [install_readonly_parser_hook] *)
Definition initial_memory (config : ReplacementConfig) (identities : HalIdentityConfig)
    : KernelMemory := {|
  km_magic := kCounterContextMagic;
  km_abi_version := kCounterContextAbi;
  km_context :=
    set_hal 0 [make_hal_set identities; make_hal_set identities]
      (set_config 0 [make_config_slot config; make_config_slot config] zero_context) |}.

(** The result carries the session and the memory the session refers to. *)

(** src/binder_hook_builder.cpp:1632-1690 [install_readonly_parser_hook] *)
Definition install_readonly_parser_hook (io : install_io) (target_kaddr : Z)
    (config : ReplacementConfig) (identities : HalIdentityConfig)
    : KModErr * CounterHookSession * option KernelMemory :=
  let session := Build_CounterHookSession target_kaddr 0 0 0 in
  if negb (validate_runtime_config config) || negb (validate_hal_identities identities)
  then (ERR_MODULE_PARAM, session, None)
  else if is_failed (io_alloc io).1 then ((io_alloc io).1, session, None)
  else
    let session := Build_CounterHookSession target_kaddr (io_alloc io).2 0 0 in
    let '(err, memory) := write_kernel_mem (io_write io) (initial_memory config identities) in
    if is_failed err then (err, empty_session, None)
    else if is_failed (io_build io) then (io_build io, empty_session, None)
    else if is_failed (io_hook io).1 then ((io_hook io).1, empty_session, None)
    else (OK, Build_CounterHookSession target_kaddr (io_alloc io).2 0 (io_hook io).2, Some memory).

(** src/binder_hook_builder.cpp:1851-1875 [remove_readonly_parser_hook] *)
Definition remove_readonly_parser_hook (uninstall read : KModErr) (k : KernelMemory)
    (session : CounterHookSession) : KModErr * CounterHookSession :=
  let unhook := negb (cs_hook session =? 0) in
  if unhook && is_failed uninstall then (uninstall, session)
  else
    let session := Build_CounterHookSession (cs_target_kaddr session) (cs_context_kaddr session)
                     (cs_active_at_remove session) 0 in
    if cs_context_kaddr session =? 0
    then (OK, Build_CounterHookSession 0 0 (cs_active_at_remove session) 0)
    else match read_counter_snapshot session read k with
    | (err, None) => (err, session)
    | (_, Some snapshot) =>
        (OK, Build_CounterHookSession 0 (cs_context_kaddr session)
               (kc_words snapshot active_calls) 0)
    end.

(** * Validation *)

(** Strictly ascending positive identities, then zeros. *)
Definition identities_ok (identities : HalIdentityConfig) : Prop :=
  hi_generation identities <> 0 /\ hi_count identities <= kHalIdentityLimit /\
  Sorted Z.lt (0 :: take (Z.to_nat (hi_count identities)) (hi_tgids identities)) /\
  Forall (fun t => t = 0) (drop (Z.to_nat (hi_count identities)) (hi_tgids identities)).

Lemma Sorted_cons_iff a b l : Sorted Z.lt (a :: b :: l) <-> a < b /\ Sorted Z.lt (b :: l).
Proof.
  split.
  - intros Hs. inversion Hs as [|? ? Hr Hd]; subst. by inversion Hd; subst.
  - intros [Hlt Hs]. constructor; [done|by constructor].
Qed.

Lemma validate_tgids_spec count tgids index previous :
  Forall (fun t => 0 <= t) tgids -> 0 <= previous -> (index = 0%nat -> previous = 0) ->
  validate_tgids count index previous tgids = true <->
  Sorted Z.lt (previous :: take (Z.to_nat count - index) tgids) /\
  Forall (fun t => t = 0) (drop (Z.to_nat count - index) tgids).
Proof.
  revert index previous. induction tgids as [|t tgids IH]; intros index previous Hpos Hp H0.
  { rewrite take_nil, drop_nil. cbn. split; [by repeat constructor|done]. }
  apply Forall_cons in Hpos as [Ht Hpos]. cbn [validate_tgids]. rewrite andb_true_iff.
  rewrite IH by (done || lia). destruct (Z.ltb_spec (Z.of_nat index) count) as [Hlt|Hge].
  - replace (Z.to_nat count - index)%nat with (S (Z.to_nat count - S index)) by lia.
    cbn [take drop]. rewrite Sorted_cons_iff.
    assert (negb (t =? 0) && negb (negb (Z.of_nat index =? 0) && (t <=? previous)) = true <->
      previous < t) as ->; [|tauto].
    destruct (Z.eqb_spec t 0) as [->|Hnz]; cbn [negb andb]; [split; [done|lia]|].
    destruct (Z.eqb_spec (Z.of_nat index) 0); cbn [negb andb]; [rewrite H0 by lia; lia|].
    destruct (Z.leb_spec t previous); cbn [negb]; [split; [done|lia]|split; [lia|done]].
  - replace (Z.to_nat count - S index)%nat with 0%nat by lia.
    replace (Z.to_nat count - index)%nat with 0%nat by lia.
    rewrite !take_0, !drop_0, Forall_cons, Z.eqb_eq.
    assert (Sorted Z.lt [t] /\ Sorted Z.lt [previous]) as [? ?]
      by (split; by repeat constructor). tauto.
Qed.

Lemma validate_identities_iff identities :
  Forall (fun t => 0 <= t) (hi_tgids identities) ->
  validate_hal_identities identities = true <-> identities_ok identities.
Proof.
  intros Hpos. unfold validate_hal_identities, identities_ok.
  pose proof (validate_tgids_spec (hi_count identities) (hi_tgids identities) 0 0 Hpos
    ltac:(lia) ltac:(done)) as Hspec. rewrite Nat.sub_0_r in Hspec.
  destruct (Z.eqb_spec (hi_generation identities) 0); [split; [done|tauto]|].
  destruct (Z.ltb_spec kHalIdentityLimit (hi_count identities)); cbn [orb];
    [split; [done|lia]|]. rewrite Hspec. tauto.
Qed.

(** an identity set is accepted exactly when its generation is set, its count
    fits the four slots, its identities are positive, in strictly ascending order
    (so without repetition), and the unused slots are zero. *)
Lemma validate_hal_identities_spec identities :
  Forall (fun t => 0 <= t) (hi_tgids identities) ->
  validate_hal_identities identities = true <-> identities_ok identities.
Proof. apply validate_identities_iff. Qed.

(** * Publication *)

Lemma land_1_cases a : Z.land a 1 = 0 \/ Z.land a 1 = 1.
Proof.
  assert (Z.land a 1 = a mod 2 ^ 1) as -> by exact (Z.land_ones a 1 ltac:(lia)).
  pose proof (Z.mod_pos_bound a (2 ^ 1) ltac:(lia)). lia.
Qed.

(** The two slots of an index: the one readers are sent to and the other. *)
Lemma inactive_slot_other {A} active (slots : list A) x d :
  length slots = 2%nat ->
  nth (slot_of active) (<[Z.to_nat (Z.lxor (Z.land active 1) 1) := x]> slots) d =
    nth (slot_of active) slots d /\
  nth (slot_of (Z.lxor (Z.land active 1) 1))
    (<[Z.to_nat (Z.lxor (Z.land active 1) 1) := x]> slots) d = x.
Proof.
  intros Hl. destruct slots as [|a [|b [|]]]; try done.
  unfold slot_of. destruct (land_1_cases active) as [-> | ->]; done.
Qed.

(** The SDK reports success only for a function that ran. *)
Definition flip_faithful (o : flip_io) : Prop := fl_exec o = OK -> fl_ran o = true.

Lemma flip_slot_index_cases o active slot :
  flip_faithful o -> 0 <= slot <= 1 ->
  flip_slot_index o active slot = (OK, slot) \/
  (exists err, flip_slot_index o active slot = (err, active) /\ is_failed err = true) \/
  (exists err, flip_slot_index o active slot = (err, slot) /\ is_failed err = true).
Proof.
  intros Ho Hs. unfold flip_slot_index, flip_faithful in *.
  rewrite (proj2 (Z.ltb_ge 1 slot)) by lia.
  destruct (fl_asm_failed o); cbn; [right; left; by eexists|].
  destruct (is_failed (fl_exec o)) eqn:E.
  - destruct (fl_ran o); right; [right|left]; by eexists.
  - apply is_failed_false in E. rewrite (Ho E).
    destruct (u32 (fl_result o) =? 0); [by left|]. right; right. by eexists.
Qed.

Lemma write_kernel_mem_cases {A} (o : KModErr * A) new :
  write_kernel_mem o new = (OK, new) \/
  exists err left, write_kernel_mem o new = (err, left) /\ is_failed err = true.
Proof.
  unfold write_kernel_mem. destruct o as [err left]. cbn.
  destruct (is_failed err) eqn:E; [right; by exists err, left|by left].
Qed.

Lemma is_failed_not_ok err : is_failed err = true -> err <> OK.
Proof. by intros H ->. Qed.

(** What a publication must leave alone. *)
Definition same_besides_config (k k' : KernelMemory) : Prop :=
  km_magic k' = km_magic k /\ km_abi_version k' = km_abi_version k /\
  events (km_context k') = events (km_context k) /\
  pending (km_context k') = pending (km_context k) /\
  active_hal (km_context k') = active_hal (km_context k) /\
  (forall w, w <> runtime_config_switches ->
     kc_words (km_context k') w = kc_words (km_context k) w).

Lemma publish_config_outcome io session config k :
  length (config_slots (km_context k)) = 2%nat -> flip_faithful (po_flip io) ->
  let '(err, slot, k') := publish_runtime_config io session config k in
  same_besides_config k k' /\
  nth (slot_of (active_config_slot (km_context k))) (config_slots (km_context k'))
    zero_config_slot = active_config (km_context k) /\
  (err = OK ->
   validate_runtime_config config = true /\
   rc_config_generation (active_config (km_context k)) < cfg_config_generation config /\
   slot = Z.lxor (Z.land (active_config_slot (km_context k)) 1) 1 /\
   active_config (km_context k') = make_config_slot config) /\
  (err <> OK ->
   active_config (km_context k') = active_config (km_context k) \/
   active_config (km_context k') = make_config_slot config /\
     validate_runtime_config config = true).
Proof.
  intros Hlen Hflip. unfold publish_runtime_config.
  destruct (validate_runtime_config config) eqn:Hvalid; cbn [negb].
  2: { rewrite orb_true_r. split; [done|]. split; [done|]. split; [done|by left]. }
  rewrite orb_false_r. unfold read_counter_snapshot.
  destruct (cs_context_kaddr session =? 0).
  { split; [done|]. split; [done|]. split; [done|by left]. }
  destruct (is_failed (po_read io)) eqn:Er.
  { split; [done|]. split; [done|]. split; [|by left]. intros E. by rewrite E in Er. }
  destruct (_ || _). { split; [done|]. split; [done|]. split; [done|by left]. }
  set (a := active_config_slot (km_context k)).
  set (slots := config_slots (km_context k)) in *.
  change (nth (Z.to_nat (Z.land a 1)) slots zero_config_slot) with (active_config (km_context k)).
  destruct (Z.leb_spec (cfg_config_generation config)
    (rc_config_generation (active_config (km_context k)))) as [|Hgen].
  { split; [done|]. split; [done|]. split; [done|by left]. }
  assert (Hother : forall x,
    nth (slot_of a) (<[Z.to_nat (Z.lxor (Z.land a 1) 1) := x]> slots) zero_config_slot =
      active_config (km_context k)) by (intros x; by apply inactive_slot_other).
  assert (Hidx : 0 <= Z.lxor (Z.land a 1) 1 <= 1) by (by destruct (land_1_cases a) as [-> | ->]).
  destruct (write_kernel_mem_cases (po_slot io) (make_config_slot config))
    as [-> | (e1 & junk & -> & He1)]; cbn [fst snd].
  2: { rewrite He1. split; [done|]. split; [apply Hother|].
       split; [by intros ->|]. left. apply Hother. }
  destruct (write_kernel_mem_cases (po_switches io)
    (u64 (kc_words (km_context k) runtime_config_switches + 1))) as [-> | (e2 & junk & -> & He2)].
  2: { rewrite He2. split; [repeat split; try done; intros w Hw; cbn; by rewrite fn_lookup_insert_ne|].
       split; [apply Hother|]. split; [by intros ->|]. left. apply Hother. }
  assert (Hnew : nth (slot_of (Z.lxor (Z.land a 1) 1))
    (<[Z.to_nat (Z.lxor (Z.land a 1) 1) := make_config_slot config]> slots) zero_config_slot =
      make_config_slot config) by (by apply inactive_slot_other).
  destruct (flip_slot_index_cases (po_flip io) a (Z.lxor (Z.land a 1) 1) Hflip Hidx)
    as [Hf|[(e3 & Hf & He3)|(e3 & Hf & He3)]]; change (is_failed OK) with false; cbv iota;
    change (active_config_slot (km_context (with_context _ _))) with a; rewrite Hf;
    rewrite ?He3; change (is_failed OK) with false; cbv iota;
    (split; [repeat split; try done; intros w Hw; cbn; by rewrite fn_lookup_insert_ne|]);
    (split; [apply Hother|]).
  - split; [intros _|done]. split; [done|]. split; [done|]. split; [done|exact Hnew].
  - split; [by intros ->|]. intros _. left. apply Hother.
  - split; [by intros ->|]. intros _. right. split; [exact Hnew|done].
Qed.

(** C20: publishing a configuration is all or nothing for whoever reads the active
    slot afterwards: it reads either the old configuration or the complete new
    one, whatever call failed and whatever a failed write left behind.  Success
    means the new one, with a valid configuration of a higher generation; the slot
    that was active is not written, and nothing else in the context changes. *)
Theorem publish_config_atomic io session config k :
  length (config_slots (km_context k)) = 2%nat -> flip_faithful (po_flip io) ->
  let '(err, slot, k') := publish_runtime_config io session config k in
  same_besides_config k k' /\
  nth (slot_of (active_config_slot (km_context k))) (config_slots (km_context k'))
    zero_config_slot = active_config (km_context k) /\
  (err = OK ->
   validate_runtime_config config = true /\
   rc_config_generation (active_config (km_context k)) < cfg_config_generation config /\
   slot = Z.lxor (Z.land (active_config_slot (km_context k)) 1) 1 /\
   active_config (km_context k') = make_config_slot config) /\
  (err <> OK ->
   active_config (km_context k') = active_config (km_context k) \/
   active_config (km_context k') = make_config_slot config /\
     validate_runtime_config config = true).
Proof. apply publish_config_outcome. Qed.

(** What the publication of an identity set must leave alone. *)
Definition same_besides_hal (k k' : KernelMemory) : Prop :=
  km_magic k' = km_magic k /\ km_abi_version k' = km_abi_version k /\
  events (km_context k') = events (km_context k) /\
  pending (km_context k') = pending (km_context k) /\
  active_config (km_context k') = active_config (km_context k) /\
  (forall w, w <> hal_identity_switches ->
     kc_words (km_context k') w = kc_words (km_context k) w).

Lemma publish_hal_outcome io session identities k :
  length (hal_identity_slots (km_context k)) = 2%nat -> flip_faithful (po_flip io) ->
  let '(err, slot, k') := publish_hal_identities io session identities k in
  same_besides_hal k k' /\
  nth (slot_of (active_hal_identity_slot (km_context k))) (hal_identity_slots (km_context k'))
    zero_hal_set = active_hal (km_context k) /\
  (err = OK ->
   validate_hal_identities identities = true /\
   hs_generation (active_hal (km_context k)) < hi_generation identities /\
   slot = Z.lxor (Z.land (active_hal_identity_slot (km_context k)) 1) 1 /\
   active_hal (km_context k') = make_hal_set identities) /\
  (err <> OK ->
   active_hal (km_context k') = active_hal (km_context k) \/
   active_hal (km_context k') = make_hal_set identities /\
     validate_hal_identities identities = true).
Proof.
  intros Hlen Hflip. unfold publish_hal_identities.
  destruct (validate_hal_identities identities) eqn:Hvalid; cbn [negb].
  2: { rewrite orb_true_r. split; [done|]. split; [done|]. split; [done|by left]. }
  rewrite orb_false_r. unfold read_counter_snapshot.
  destruct (cs_context_kaddr session =? 0).
  { split; [done|]. split; [done|]. split; [done|by left]. }
  destruct (is_failed (po_read io)) eqn:Er.
  { split; [done|]. split; [done|]. split; [|by left]. intros E. by rewrite E in Er. }
  destruct (_ || _). { split; [done|]. split; [done|]. split; [done|by left]. }
  set (a := active_hal_identity_slot (km_context k)).
  set (slots := hal_identity_slots (km_context k)) in *.
  change (nth (Z.to_nat (Z.land a 1)) slots zero_hal_set) with (active_hal (km_context k)).
  destruct (Z.leb_spec (hi_generation identities)
    (hs_generation (active_hal (km_context k)))) as [|Hgen].
  { split; [done|]. split; [done|]. split; [done|by left]. }
  assert (Hother : forall x,
    nth (slot_of a) (<[Z.to_nat (Z.lxor (Z.land a 1) 1) := x]> slots) zero_hal_set =
      active_hal (km_context k)) by (intros x; by apply inactive_slot_other).
  assert (Hidx : 0 <= Z.lxor (Z.land a 1) 1 <= 1) by (by destruct (land_1_cases a) as [-> | ->]).
  destruct (write_kernel_mem_cases (po_slot io) (make_hal_set identities))
    as [-> | (e1 & junk & -> & He1)]; cbn [fst snd].
  2: { rewrite He1. split; [done|]. split; [apply Hother|].
       split; [by intros ->|]. left. apply Hother. }
  destruct (write_kernel_mem_cases (po_switches io)
    (u64 (kc_words (km_context k) hal_identity_switches + 1))) as [-> | (e2 & junk & -> & He2)].
  2: { rewrite He2. split; [repeat split; try done; intros w Hw; cbn; by rewrite fn_lookup_insert_ne|].
       split; [apply Hother|]. split; [by intros ->|]. left. apply Hother. }
  assert (Hnew : nth (slot_of (Z.lxor (Z.land a 1) 1))
    (<[Z.to_nat (Z.lxor (Z.land a 1) 1) := make_hal_set identities]> slots) zero_hal_set =
      make_hal_set identities) by (by apply inactive_slot_other).
  destruct (flip_slot_index_cases (po_flip io) a (Z.lxor (Z.land a 1) 1) Hflip Hidx)
    as [Hf|[(e3 & Hf & He3)|(e3 & Hf & He3)]]; change (is_failed OK) with false; cbv iota;
    change (active_hal_identity_slot (km_context (with_context _ _))) with a; rewrite Hf;
    rewrite ?He3; change (is_failed OK) with false; cbv iota;
    (split; [repeat split; try done; intros w Hw; cbn; by rewrite fn_lookup_insert_ne|]);
    (split; [apply Hother|]).
  - split; [intros _|done]. split; [done|]. split; [done|]. split; [done|exact Hnew].
  - split; [by intros ->|]. intros _. left. apply Hother.
  - split; [by intros ->|]. intros _. right. split; [exact Hnew|done].
Qed.

(** the same of an identity set: readers of the active slot see the old or the
    complete new set, success means the new one with a higher generation, and the
    slot that was active, the configuration and the tables stay as they are. *)
Lemma publish_hal_atomic io session identities k :
  length (hal_identity_slots (km_context k)) = 2%nat -> flip_faithful (po_flip io) ->
  let '(err, slot, k') := publish_hal_identities io session identities k in
  same_besides_hal k k' /\
  nth (slot_of (active_hal_identity_slot (km_context k))) (hal_identity_slots (km_context k'))
    zero_hal_set = active_hal (km_context k) /\
  (err = OK ->
   validate_hal_identities identities = true /\
   hs_generation (active_hal (km_context k)) < hi_generation identities /\
   slot = Z.lxor (Z.land (active_hal_identity_slot (km_context k)) 1) 1 /\
   active_hal (km_context k') = make_hal_set identities) /\
  (err <> OK ->
   active_hal (km_context k') = active_hal (km_context k) \/
   active_hal (km_context k') = make_hal_set identities /\
     validate_hal_identities identities = true).
Proof. apply publish_hal_outcome. Qed.

(** A publication keeps two slots of each kind, and the tables of the other kind. *)
Lemma publish_hal_shape io session identities k :
  let '(_, _, k') := publish_hal_identities io session identities k in
  length (hal_identity_slots (km_context k')) = length (hal_identity_slots (km_context k)) /\
  config_slots (km_context k') = config_slots (km_context k) /\
  active_config_slot (km_context k') = active_config_slot (km_context k) /\
  km_magic k' = km_magic k /\ km_abi_version k' = km_abi_version k.
Proof.
  unfold publish_hal_identities, read_counter_snapshot.
  repeat case_match; simplify_eq; cbn; rewrite ?length_insert; done.
Qed.

Lemma publish_config_shape io session config k :
  let '(_, _, k') := publish_runtime_config io session config k in
  length (config_slots (km_context k')) = length (config_slots (km_context k)) /\
  hal_identity_slots (km_context k') = hal_identity_slots (km_context k) /\
  active_hal_identity_slot (km_context k') = active_hal_identity_slot (km_context k) /\
  km_magic k' = km_magic k /\ km_abi_version k' = km_abi_version k.
Proof.
  unfold publish_runtime_config, read_counter_snapshot.
  repeat case_match; simplify_eq; cbn; rewrite ?length_insert; done.
Qed.

(** An answer that reports failure only for a store that did not happen. *)
Definition flip_lossless (o : flip_io) : Prop :=
  forall active slot, (flip_slot_index o active slot).1 <> OK ->
    (flip_slot_index o active slot).2 = active.

(** Then a failed publication has not changed the set readers work with. *)
Lemma publish_hal_lossless io session identities k :
  length (hal_identity_slots (km_context k)) = 2%nat -> flip_lossless (po_flip io) ->
  let '(err, _, k') := publish_hal_identities io session identities k in
  err <> OK -> active_hal (km_context k') = active_hal (km_context k).
Proof.
  intros Hlen Hflip. unfold publish_hal_identities.
  destruct (_ || _); [done|]. destruct (read_counter_snapshot _ _ _) as [e [snapshot|]] eqn:Es; [|done].
  assert (snapshot = km_context k) as ->.
  { unfold read_counter_snapshot in Es. repeat case_match; by simplify_eq. }
  destruct (_ <=? _); [done|].
  set (a := active_hal_identity_slot (km_context k)).
  assert (Hother : forall x, nth (slot_of a) (<[Z.to_nat (Z.lxor (Z.land a 1) 1) := x]>
    (hal_identity_slots (km_context k))) zero_hal_set = active_hal (km_context k))
    by (intros x; by apply inactive_slot_other).
  destruct (write_kernel_mem _ _) as [e1 x]. destruct (is_failed e1); [by intros _; apply Hother|].
  destruct (write_kernel_mem _ _) as [e2 y]. destruct (is_failed e2); [by intros _; apply Hother|].
  change (active_hal_identity_slot (km_context (with_context _ _))) with a.
  pose proof (Hflip a (Z.lxor (Z.land a 1) 1)) as Hidx.
  destruct (flip_slot_index _ _ _) as [e3 index]. cbn [fst snd] in Hidx.
  destruct (is_failed e3) eqn:E3; [|done]. intros He. rewrite (Hidx He). apply Hother.
Qed.

(** * Installation *)

(** What the handler's theorems ask of the context when the hook goes live. *)
Record context_ready (config : ReplacementConfig) (identities : HalIdentityConfig)
    (k : KernelMemory) : Prop := {
  cr_tags : km_magic k = kCounterContextMagic /\ km_abi_version k = kCounterContextAbi;
  cr_config : config_slots (km_context k) = [make_config_slot config; make_config_slot config];
  cr_active : active_config (km_context k) = make_config_slot config;
  cr_hal : active_hal (km_context k) = make_hal_set identities;
  cr_lock : kc_words (km_context k) pending_lock_state = 0;
  cr_running : kc_words (km_context k) active_calls = 0;
  cr_pending : pending_wf (pending (km_context k));
  cr_events : ring_ok (events (km_context k)) (kc_words (km_context k) event_write_index);
}.

Lemma zero_ring_ok : ring_ok (events zero_context) (kc_words zero_context event_write_index).
Proof. split; [done|done|]. intros j Hj Hpos. cbn in Hj. lia. Qed.

Lemma initial_memory_ready config identities :
  context_ready config identities (initial_memory config identities).
Proof. split; try done; [apply zero_pending_wf|apply zero_ring_ok]. Qed.

(** A 32-byte configuration slot is one the replacement can copy out of. *)
Lemma make_config_slot_wf config :
  validate_runtime_config config = true -> length (cfg_virtual_id config) = 64%nat ->
  bytes_ok (cfg_virtual_id config) ->
  rc_virtual_id_length (make_config_slot config) = kWidevineDeviceUniqueIdBytes /\
  length (rc_virtual_id (make_config_slot config)) = 64%nat /\
  bytes_ok (rc_virtual_id (make_config_slot config)) /\
  take 32 (rc_virtual_id (make_config_slot config)) = take 32 (cfg_virtual_id config) /\
  (rc_replacement_mode (make_config_slot config) <= 1).
Proof.
  unfold validate_runtime_config. intros Hv Hl Hb. btrue. cbn.
  assert (cfg_virtual_id_length config = 32) as -> by done. change (Z.to_nat 32) with 32%nat.
  split; [done|]. split; [rewrite length_app, length_take, length_replicate, Hl; done|].
  split; [apply bytes_ok_app; split; [by apply bytes_ok_take|by apply bytes_ok_replicate]|].
  split; [|done]. rewrite take_app_le by (rewrite length_take, Hl; done).
  rewrite take_take. done.
Qed.

(** installation hands out a session exactly when every step succeeded, and
    then the context it points to is ready for the handler: tagged, both slots
    hold the validated configuration, the identity set is the given one, the lock
    is free, and the pending table and the event ring are empty and well formed.
    Any failure yields no context, and an invalid input is refused before the
    kernel is touched. *)
Lemma install_ready io target config identities :
  let '(err, session, memory) := install_readonly_parser_hook io target config identities in
  (err = OK <->
   validate_runtime_config config = true /\ validate_hal_identities identities = true /\
   (io_alloc io).1 = OK /\ (io_write io).1 = OK /\ io_build io = OK /\ (io_hook io).1 = OK) /\
  (err = OK -> exists k, memory = Some k /\ context_ready config identities k /\
     cs_context_kaddr session = (io_alloc io).2 /\ cs_hook session = (io_hook io).2) /\
  (err <> OK -> memory = None /\ cs_hook session = 0).
Proof.
  unfold install_readonly_parser_hook.
  assert (Hn : forall e, is_failed e = true -> e <> OK) by (by intros e He ->).
  assert (Ho : forall e, is_failed e = false -> e = OK) by (by intros e He%is_failed_false).
  destruct (validate_runtime_config config); cbn [negb orb]; [|by naive_solver].
  destruct (validate_hal_identities identities); cbn [negb]; [|by naive_solver].
  destruct (is_failed (io_alloc io).1) eqn:E1; [specialize (Hn _ E1); naive_solver|].
  unfold write_kernel_mem. destruct (is_failed (io_write io).1) eqn:E2.
  { destruct (io_write io) as [e m]. cbn in *. rewrite E2. specialize (Hn _ E2). naive_solver. }
  change (is_failed OK) with false. cbv iota.
  destruct (is_failed (io_build io)) eqn:E3; [specialize (Hn _ E3); naive_solver|].
  destruct (is_failed (io_hook io).1) eqn:E4; [specialize (Hn _ E4); naive_solver|].
  split; [split; [intros _|done]|split; [|done]].
  - repeat split; by apply Ho.
  - intros _. eexists. split; [done|]. split; [apply initial_memory_ready|done].
Qed.

(** removal never frees the context: the session keeps its address on every
    path (handlers may still run), an uninstall that fails leaves the session as
    it was, and a success reports the count of running handlers. *)
Lemma remove_keeps_context uninstall read k session :
  let '(err, session') := remove_readonly_parser_hook uninstall read k session in
  cs_context_kaddr session' = cs_context_kaddr session /\
  (cs_hook session <> 0 -> uninstall <> OK -> err = uninstall /\ session' = session) /\
  (err = OK -> cs_hook session' = 0 /\ cs_target_kaddr session' = 0 /\
     (cs_context_kaddr session <> 0 ->
      cs_active_at_remove session' = kc_words (km_context k) active_calls)).
Proof.
  unfold remove_readonly_parser_hook.
  destruct (Z.eqb_spec (cs_hook session) 0) as [Hh|Hh]; cbn [negb andb].
  2: destruct (is_failed uninstall) eqn:Eu;
       [split; [done|split; [done|by intros ->]]|apply is_failed_false in Eu].
  all: cbn [cs_context_kaddr cs_active_at_remove cs_target_kaddr];
    destruct (Z.eqb_spec (cs_context_kaddr session) 0) as [Hz|Hz];
    [split; [done|split; [done|by intros _]]|].
  all: unfold read_counter_snapshot; cbn [cs_context_kaddr];
    rewrite (proj2 (Z.eqb_neq _ _) Hz); destruct (is_failed read) eqn:Er;
    [split; [done|split; [done|by intros ->]]|];
    destruct (negb _ || negb _); (split; [done|split; [done|done]]).
Qed.

(** * Concrete runs *)

Definition demo_replacement (generation : Z) : ReplacementConfig := {|
  cfg_mode := 1; cfg_virtual_id_length := 32; cfg_config_generation := generation;
  cfg_seed_generation := 1; cfg_profile_fingerprint := 9; cfg_virtual_id := replicate 64 7 |}.
Definition demo_identities (generation : Z) : HalIdentityConfig :=
  {| hi_generation := generation; hi_count := 2; hi_tgids := [600; 700; 0; 0] |}.
Definition demo_session : CounterHookSession := Build_CounterHookSession 1 2 0 3.
Definition demo_memory : KernelMemory := initial_memory (demo_replacement 1) (demo_identities 1).

(** The identity write fails half-way; the configuration publication succeeds. *)
Definition demo_flip : flip_io :=
  {| fl_asm_failed := false; fl_exec := OK; fl_ran := true; fl_result := 0 |}.
Definition demo_publish_ok : publish_io RuntimeConfigSlot :=
  {| po_read := OK; po_slot := (OK, zero_config_slot); po_switches := (OK, 0); po_flip := demo_flip |}.
Definition demo_publish_torn : publish_io HalIdentitySet :=
  {| po_read := OK; po_slot := (ERR_MODULE_SDK 5, Build_HalIdentitySet 2 9 [1; 1; 0; 0]);
     po_switches := (OK, 0); po_flip := demo_flip |}.

Lemma validate_hal_identities_spec_witness : identities_ok (demo_identities 1).
Proof.
  apply (validate_hal_identities_spec (demo_identities 1)); [|done]. repeat constructor; lia.
Defined.

Lemma publish_config_atomic_witness :
  active_config (km_context (publish_runtime_config demo_publish_ok demo_session
    (demo_replacement 2) demo_memory).2) = make_config_slot (demo_replacement 2).
Proof.
  pose proof (publish_config_atomic demo_publish_ok demo_session (demo_replacement 2) demo_memory
    ltac:(done) ltac:(done)) as Hp.
  destruct (publish_runtime_config _ _ _ _) as [[err slot] k'] eqn:E.
  destruct Hp as (_ & _ & Hok & _). apply Hok. by inversion E.
Defined.

Lemma publish_hal_atomic_witness :
  active_hal (km_context (publish_hal_identities demo_publish_torn demo_session
    (demo_identities 2) demo_memory).2) = make_hal_set (demo_identities 1).
Proof.
  pose proof (publish_hal_atomic demo_publish_torn demo_session (demo_identities 2) demo_memory
    ltac:(done) ltac:(done)) as Hp.
  destruct (publish_hal_identities _ _ _ _) as [[err slot] k'] eqn:E.
  destruct Hp as (_ & Hold & _ & _). inversion E; subst. exact Hold.
Defined.
