(* ===== verification/ContextLife.v ===== *)
(** The shared context over its life: the installation makes it well formed, and every
    call of the handler and every publication keeps it so, whatever the calls, the
    lock and user memory do.  Well-formedness is what the theorems about the pending
    table and the event ring start from. *)

From S2P Require Import Prelude UserMemory KernelContext BinderWire Pending PendingFacts Parcel Reply Stream Handler Slots.

(** The table's slots are in their buckets, their stacks within bounds, no thread has
    two; the newest 256 events are complete and in place; the lock is free. *)
Record context_wf (c : KernelCounterContext) : Prop := {
  cw_pending : pending_wf (pending c);
  cw_ring : ring_ok (events c) (kc_words c event_write_index);
  cw_lock : kc_words c pending_lock_state = 0;
}.

Section Preservation.
Context {U : Type} `{UserAccessLaws U}.
Implicit Types s : hstate U.

(** The table and the lock. *)
Definition table_view s := (pending (h_ctx s), kc_words (h_ctx s) pending_lock_state).

Definition tidy s : Prop := pending_wf (table_view s).1 /\ (table_view s).2 = 0.

Definition tidy_step s s' : Prop := tidy s -> tidy s'.

#[global] Instance tidy_step_refl : Reflexive tidy_step.
Proof. intros s Hs. exact Hs. Qed.

#[global] Instance tidy_step_trans : Transitive tidy_step.
Proof. intros s1 s2 s3 H1 H2 Hs. by apply H2, H1. Qed.

Lemma tidy_keeps {A} (m : HM U A) : effect (keeps table_view) m -> effect tidy_step m.
Proof. intros Hm s. unfold tidy_step, tidy. by rewrite (Hm s). Qed.

Lemma tidy_counter w :
  w <> pending_lock_state -> effect tidy_step (emit_counter_increment w : HM U unit).
Proof.
  intros Hw. apply tidy_keeps. intros s. unfold keeps, table_view. cbn.
  by rewrite fn_lookup_insert_ne.
Qed.

Lemma lock_decided s : lock_granted s \/ lock_refused s.
Proof. unfold lock_granted, lock_refused. destruct (lock_tries _ _ _); [by left|by right]. Qed.

Lemma push_tidy task id td fl :
  task_kaddr task <> 0 -> effect tidy_step (emit_pending_push task id td fl : HM U unit).
Proof.
  intros Hnz s [Hwf Hlock]. destruct (Z.testbit (td_flags td) 0) eqn:Esync.
  { unfold emit_pending_push. rewrite Esync. by split. }
  destruct (lock_decided s) as [Hl|Hl].
  - destruct (emit_pending_push_run task id td fl s Esync Hl) as (Ht & Hz & _).
    split; [|exact Hz]. change (pending_wf (table (emit_pending_push task id td fl s).2)).
    rewrite Ht. by apply push_result_wf.
  - destruct (pending_contended task false id td fl s Esync Hl) as [-> _]. by split.
Qed.

Lemma pop_tidy task terminal :
  task_kaddr task <> 0 -> effect tidy_step (emit_pending_pop task terminal : HM U (Z * Z)).
Proof.
  intros Hnz s [Hwf Hlock]. destruct (lock_decided s) as [Hl|Hl].
  - pose proof (emit_pending_pop_run task terminal s Hl) as Hrun.
    destruct (emit_pending_pop task terminal s) as [reply s']. destruct Hrun as (Ht & Hz & _).
    split; [|exact Hz]. change (pending_wf (table s')). rewrite Ht. by apply pop_result_wf.
  - destruct (pending_contended task terminal 0 (decode_transaction []) 0 s eq_refl Hl) as [_ ->]. by split.
Qed.

Lemma recognise_tidy type command td sc :
  effect tidy_step (recognise_request type command td sc : HM U Scratch).
Proof.
  apply tidy_keeps. unfold recognise_request. destruct (type =? ioc_r); [|apply effect_ret, _].
  apply capture_prefix_keeps; [|done]. intros w s Hw. unfold parcel_counters in Hw.
  by repeat (destruct Hw as [<-|Hw]; [done|]).
Qed.

Lemma correlate_tidy type command task td sc :
  task_kaddr task <> 0 -> effect tidy_step (correlate_reply type command task td sc : HM U (Z * Scratch)).
Proof.
  intros Hnz. unfold correlate_reply. destruct (_ && _); [|apply effect_ret, _].
  apply effect_bind; [apply _|by apply pop_tidy|intros popped].
  apply effect_bind; [apply _| |intros sc'; apply effect_ret, _]. apply tidy_keeps.
  intros s. destruct (reply_class_effect popped.1 popped.2 td sc s) as (_ & Hc & _).
  unfold keeps, table_view. rewrite Hc. unfold reply_context. by destruct (classify_reply _ _ _ _ _).
Qed.

Lemma tidy_modify g :
  (forall c, pending (g c) = pending c /\ kc_words (g c) pending_lock_state = kc_words c pending_lock_state) ->
  effect tidy_step (h_modify g : HM U unit).
Proof.
  intros Hg. apply tidy_keeps. intros s. destruct (Hg (h_ctx s)) as [Hp Hw].
  unfold keeps, table_view. cbn. by rewrite Hp, Hw.
Qed.

Lemma record_tidy type command task td :
  task_kaddr task <> 0 -> effect tidy_step (emit_record_transaction type command task td : HM U unit).
Proof.
  intros Hnz. unfold emit_record_transaction, emit_reserve_event, emit_publish_event, update_event.
  apply effect_bind; [apply _|apply recognise_tidy|intros sc].
  apply effect_bind; [apply _|by apply correlate_tidy|intros [correlated sc']].
  apply effect_bind; [apply _| |intros [id slot]].
  { apply effect_bind; [apply _|apply effect_get, _|intros ticket].
    do 2 (apply effect_bind; [apply _|by apply tidy_modify|intros _]). apply effect_ret, _. }
  apply effect_bind; [apply _|by apply tidy_modify|intros _].
  apply effect_bind; [apply _| |intros _].
  { unfold remember_request. destruct (_ || _); [apply effect_ret, _|].
    destruct (Z.testbit _ _); [|apply effect_ret, _].
    apply effect_bind; [apply _|by apply tidy_counter|intros _; by apply push_tidy]. }
  apply effect_bind; [apply _|by apply tidy_modify|intros _]. by apply tidy_modify.
Qed.

Lemma direction_tidy type st :
  direction type st -> Forall (fun w => w <> pending_lock_state)
    [st_stream st; st_command st; st_transaction st; st_boundary st; st_copy_fault st; st_capped st].
Proof. intros [[_ ->]|[_ ->]]; repeat constructor; done. Qed.

Lemma parse_tidy type st task buffer consumed :
  direction type st -> task_kaddr task <> 0 ->
  effect tidy_step (emit_parse_command_stream task buffer consumed type st : HM U stream_exit).
Proof.
  intros Hd Hnz. pose proof (direction_tidy _ _ Hd) as Hc.
  rewrite !Forall_cons in Hc. destruct Hc as (H1 & H2 & H3 & H4 & H5 & H6 & _).
  assert (forall w (e : stream_exit), w <> pending_lock_state ->
    effect tidy_step (emit_counter_increment w;; mret e : HM U stream_exit)) as Hexit.
  { intros w e Hw. apply effect_bind; [apply _|by apply tidy_counter|]. intros _. apply effect_ret, _. }
  assert (forall fuel buffer remaining count, effect tidy_step
    (stream_loop fuel task type st buffer remaining count : HM U stream_exit)) as Hloop.
  { induction fuel as [|fuel IH]; intros b r c; cbn [stream_loop]; [apply effect_ret, _|].
    destruct (_ <=? c); [by apply Hexit|]. destruct (r <? 4); [by apply Hexit|].
    apply effect_bind; [apply _|apply effect_read, _|intros [bs|]]; [|by apply Hexit].
    destruct (negb _); [by apply Hexit|]. destruct (r <? _); [by apply Hexit|].
    apply effect_bind; [apply _| |intros _; destruct (_ =? 0); [apply effect_ret, _|apply IH]].
    unfold process_command. apply effect_bind; [apply _|by apply tidy_counter|intros _].
    destruct (is_transaction_command _ _); [|apply effect_ret, _].
    apply effect_bind; [apply _|by apply tidy_counter|intros _].
    apply effect_bind; [apply _|apply effect_read, _|intros [bs'|]];
      [by apply record_tidy|by apply tidy_counter]. }
  unfold emit_parse_command_stream. destruct (consumed =? 0); [apply effect_ret, _|].
  destruct (buffer =? 0); [by apply Hexit|]. destruct (_ <? consumed); [by apply Hexit|].
  apply effect_bind; [apply _|by apply tidy_counter|intros _; apply Hloop].
Qed.

Lemma parse_ring type st task buffer consumed :
  direction type st ->
  effect (ring_step 128) (emit_parse_command_stream task buffer consumed type st : HM U stream_exit).
Proof.
  intros Hd. pose proof (direction_counter _ _ Hd) as Hc.
  rewrite !Forall_cons in Hc. destruct Hc as (H1 & H2 & H3 & H4 & H5 & H6 & _).
  unfold emit_parse_command_stream. destruct (consumed =? 0); [by intros s; apply ring_step_quiet|].
  destruct (buffer =? 0); [by apply stream_exit_ring|]. destruct (_ <? consumed); [by apply stream_exit_ring|].
  apply (ring_step_bind 0 128); [by apply ring_step_counter|intros _]. by apply (stream_loop_ring _ _ _ _ _ _ 0).
Qed.

(** * The phases and the handler *)

(** A step that keeps the table and the lock, and records at most [k] transactions. *)
Definition life_step (k : nat) s s' : Prop := tidy_step s s' /\ ring_step k s s'.

Lemma life_bind {A B} k1 k2 (m : HM U A) (f : A -> HM U B) :
  effect (life_step k1) m -> (forall a, effect (life_step k2) (f a)) -> effect (life_step (k1 + k2)) (m ≫= f).
Proof.
  intros Hm Hf s. split.
  - apply (effect_bind tidy_step); [intros s1; apply Hm|intros a s1; apply Hf].
  - apply ring_step_bind; [intros s1; apply Hm|intros a s1; apply Hf].
Qed.

Lemma life_more {A} k1 k2 (m : HM U A) :
  (k1 <= k2)%nat -> effect (life_step k1) m -> effect (life_step k2) m.
Proof.
  intros Hk Hm s. destruct (Hm s) as [Ht (n & Hn & Hr)]. split; [done|]. exists n. split; [lia|done].
Qed.

Lemma life_quiet {A} (m : HM U A) : (forall s, (m s).2 = s) -> effect (life_step 0) m.
Proof. intros Hm s. rewrite Hm. split; [done|by apply ring_step_quiet]. Qed.

Lemma life_counter w :
  w <> pending_lock_state -> w <> event_write_index ->
  effect (life_step 0) (emit_counter_increment w : HM U unit).
Proof. intros Ht Hr s. split; [by apply tidy_counter|by apply ring_step_counter]. Qed.

Lemma life_parse type st task buffer consumed :
  direction type st -> task_kaddr task <> 0 ->
  effect (life_step 128) (emit_parse_command_stream task buffer consumed type st : HM U stream_exit).
Proof. intros Hd Hnz s. split; [by apply parse_tidy|by apply parse_ring]. Qed.

Lemma life_pre task cmd arg :
  task_kaddr task <> 0 -> effect (life_step 128) (pre_phase task cmd arg : HM U (option BinderWriteRead)).
Proof.
  intros Hnz. unfold pre_phase.
  destruct (_ =? _); [|apply (life_more 0); [lia|by apply life_quiet]]. unfold pre_call.
  assert (Hf : effect (life_step 128)
    (emit_counter_increment pre_header_faults;; mret None : HM U (option BinderWriteRead))).
  { apply (life_bind 0 128); [by apply life_counter|intros _].
    apply (life_more 0); [lia|by apply life_quiet]. }
  apply (life_bind 0 128); [by apply life_counter|intros _]. destruct (arg =? 0); [exact Hf|].
  apply (life_bind 0 128); [by apply life_quiet|intros [bs|]]; [|exact Hf].
  apply (life_bind 0 128); [by apply life_counter|intros _]. cbv zeta. destruct (_ <? _); [exact Hf|].
  apply (life_bind 128 0); [apply life_parse; [by left|done]|intros _; by apply life_quiet].
Qed.

Lemma life_post task arg pre :
  task_kaddr task <> 0 -> effect (life_step 128) (post_phase task arg pre : HM U unit).
Proof.
  intros Hnz. destruct pre as [bwr|]; [|apply (life_more 0); [lia|by apply life_quiet]].
  unfold post_phase, post_call.
  assert (Hf : forall w, w <> pending_lock_state -> w <> event_write_index ->
    effect (life_step 128) (emit_counter_increment w : HM U unit)).
  { intros w Ht Hr. apply (life_more 0); [lia|by apply life_counter]. }
  destruct (arg =? 0); [by apply Hf|].
  apply (life_bind 0 128); [by apply life_quiet|intros [bs|]]; [|by apply Hf].
  apply (life_bind 0 128); [by apply life_counter|intros _]. cbv zeta.
  destruct (post_header_valid _ _); [|by apply Hf].
  apply (life_bind 128 0); [apply life_parse; [by right|done]|intros _; by apply life_quiet].
Qed.

(** What a step of at most [k] transactions makes of a well-formed context. *)
Lemma life_wf k s s' :
  life_step k s s' -> context_wf (h_ctx s) -> recorded s + Z.of_nat k < 2 ^ 63 ->
  context_wf (h_ctx s') /\ recorded s <= recorded s' <= recorded s + Z.of_nat k.
Proof.
  intros [Ht (n & Hn & Hr)] [Hp Hring Hl] Hmax.
  destruct (Ht (conj Hp Hl)) as [Hp' Hl']. pose proof (ring_count _ _ Hring) as Hpos.
  unfold recorded in *. destruct Hr as [Hw Hring']; [done|lia|]. split; [|lia].
  split; [exact Hp'|by apply Hring'|exact Hl'].
Qed.

(** The driver's ioctl and the handlers that run meanwhile do as the handler does. *)
Definition driver_keeps (original_ioctl : Z -> Z -> Z -> HM U Z) (bound : Z) : Prop :=
  forall file cmd arg s, context_wf (h_ctx s) -> recorded s < bound ->
    context_wf (h_ctx (original_ioctl file cmd arg s).2) /\
    recorded (original_ioctl file cmd arg s).2 < bound.

Lemma handler_wf original_ioctl installer task file cmd arg s bound :
  driver_keeps original_ioctl bound -> bound + 128 < 2 ^ 63 ->
  context_wf (h_ctx s) -> recorded s + 128 < bound ->
  context_wf (h_ctx (parser_handler original_ioctl installer task file cmd arg s).2).
Proof.
  intros Hdriver Hbound Hwf Hrec. unfold parser_handler. unfold mbind at 1, HM_bind, h_get.
  destruct (emit_hal_identity_gate installer task (h_ctx s)) eqn:Egate; cbn [negb].
  2: { apply Hdriver; [done|lia]. }
  assert (Hnz : task_kaddr task <> 0).
  { unfold emit_hal_identity_gate in Egate. by destruct (Z.eqb_spec (task_kaddr task) 0). }
  assert (Hcount : forall w s1, w <> pending_lock_state -> w <> event_write_index ->
    context_wf (h_ctx s1) -> context_wf (add_word w 1 (h_ctx s1))).
  { intros w s1 Hw Hi [Hp Hr Hl]. split; cbn; [done|by rewrite fn_lookup_insert_ne..]. }
  unfold mbind, HM_bind, emit_counter_increment, emit_atomic_decrement, h_modify. cbv beta iota.
  set (s0 := {| h_ctx := add_word pre_calls 1 _ |}).
  assert (Hwf0 : context_wf (h_ctx s0)).
  { apply (Hcount pre_calls {| h_ctx := _; h_mem := h_mem s; h_parcel := _; h_locks := _ |}); [done..|].
    apply (Hcount active_calls {| h_ctx := _; h_mem := h_mem s; h_parcel := _; h_locks := _ |}); [done..|].
    by apply (Hcount hal_gate_hits s). }
  assert (Hrec0 : recorded s0 = recorded s) by done.
  destruct (life_wf 128 s0 _ (life_pre task cmd arg Hnz s0) Hwf0 ltac:(lia)) as [Hwf1 Hrec1].
  destruct (pre_phase task cmd arg s0) as [pre s1]. cbn [snd] in *.
  destruct (Hdriver file cmd arg s1 Hwf1 ltac:(lia)) as [Hwf2 Hrec2].
  destruct (original_ioctl file cmd arg s1) as [ret s2]. cbn [snd] in *.
  destruct (life_wf 128 s2 _ (life_post task arg pre Hnz s2) Hwf2 ltac:(lia)) as [[Hp3 Hr3 Hl3] _].
  destruct (post_phase task arg pre s2) as [u s3]. cbn [snd] in *. by split.
Qed.

End Preservation.

(** * The life of a context *)

(** Readers see the words of the context through any memory and lock script. *)
Inductive context_life `{UserAccessLaws U} (config : ReplacementConfig) (identities : HalIdentityConfig)
    : KernelCounterContext -> Prop :=
  | LifeInstalled io target session k :
      install_readonly_parser_hook io target config identities = (OK, session, Some k) ->
      context_life config identities (km_context k)
  | LifeCalled original_ioctl installer task file cmd arg bound (s : hstate U) :
      context_life config identities (h_ctx s) ->
      driver_keeps original_ioctl bound -> bound + 128 < 2 ^ 63 -> recorded s + 128 < bound ->
      context_life config identities
        (h_ctx (parser_handler original_ioctl installer task file cmd arg s).2)
  | LifeConfigured io session new k :
      context_life config identities (km_context k) ->
      context_life config identities (km_context (publish_runtime_config io session new k).2)
  | LifeGated io session new k :
      context_life config identities (km_context k) ->
      context_life config identities (km_context (publish_hal_identities io session new k).2).

(** What the handler's tables and the lock are is not the publications' business. *)
Lemma publish_config_tables io session config k :
  let c := km_context k in let c' := km_context (publish_runtime_config io session config k).2 in
  pending c' = pending c /\ events c' = events c /\
  kc_words c' pending_lock_state = kc_words c pending_lock_state /\
  kc_words c' event_write_index = kc_words c event_write_index.
Proof.
  cbv zeta. unfold publish_runtime_config, read_counter_snapshot.
  repeat case_match; simplify_eq; cbn; rewrite ?fn_lookup_insert_ne; done.
Qed.

Lemma publish_hal_tables io session identities k :
  let c := km_context k in let c' := km_context (publish_hal_identities io session identities k).2 in
  pending c' = pending c /\ events c' = events c /\
  kc_words c' pending_lock_state = kc_words c pending_lock_state /\
  kc_words c' event_write_index = kc_words c event_write_index.
Proof.
  cbv zeta. unfold publish_hal_identities, read_counter_snapshot.
  repeat case_match; simplify_eq; cbn; rewrite ?fn_lookup_insert_ne; done.
Qed.

(** C8: the context is well formed for as long as it lives: from its installation on,
    through calls of the handler for any thread and with any user memory, lock
    contention and driver that keeps it so, and through publications of which any
    step may fail: every slot of the pending table is in its thread's bucket with its
    stack within bounds and no thread has two, the newest 256 events are in the ring,
    complete, and the lock is free between the calls. *)
Theorem context_stays_wf `{UserAccessLaws U} config identities c :
  context_life (U := U) config identities c -> context_wf c.
Proof.
  intros Hlife. induction Hlife as [io target session k Hinstall|original_ioctl installer task file cmd arg
    bound s Hlife IH Hdriver Hbound Hrec|io session new k Hlife IH|io session new k Hlife IH].
  - pose proof (install_ready io target config identities) as Hready. rewrite Hinstall in Hready.
    destruct Hready as (_ & Hok & _). destruct (Hok eq_refl) as (k' & Hk & Hready & _).
    apply (inj Some) in Hk as <-. by destruct Hready.
  - by eapply handler_wf.
  - destruct (publish_config_tables io session new k) as (Hp & He & Hl & Hw). destruct IH as [IHp IHr IHl].
    split; by rewrite ?Hp, ?He, ?Hl, ?Hw.
  - destruct (publish_hal_tables io session new k) as (Hp & He & Hl & Hw). destruct IH as [IHp IHr IHl].
    split; by rewrite ?Hp, ?He, ?Hl, ?Hw.
Qed.

(** * A concrete life *)

Definition demo_install : install_io := {|
  io_alloc := (OK, 4096); io_write := (OK, demo_memory); io_build := OK; io_hook := (OK, 77) |}.

(** The installed context, with a HAL thread's memory. *)
Definition demo_live : hstate AddressSpace := {|
  h_ctx := km_context (initial_memory (demo_replacement 1) (demo_identities 1));
  h_mem := h_mem demo_call; h_parcel := replicate 256 0; h_locks := [] |}.

Definition demo_called : KernelCounterContext :=
  h_ctx (parser_handler demo_driver 1 demo_thread 3 BINDER_WRITE_READ 4 demo_live).2.

Lemma context_stays_wf_witness :
  kc_words demo_called hal_gate_hits = 1 /\ context_wf demo_called.
Proof.
  split; [vm_compute; reflexivity|].
  apply (context_stays_wf (U := AddressSpace) (demo_replacement 1) (demo_identities 1)).
  apply (LifeCalled _ _ demo_driver 1 demo_thread 3 BINDER_WRITE_READ 4 1000 demo_live).
  - apply (LifeInstalled _ _ demo_install 1 (Build_CounterHookSession 1 4096 0 77)
      (initial_memory (demo_replacement 1) (demo_identities 1))). reflexivity.
  - intros file cmd arg s Hwf Hrec. split; [exact Hwf|exact Hrec].
  - lia.
  - vm_compute. reflexivity.
Defined.
