(* ===== verification/SlotRace.v ===== *)
(** Readers and the publisher of a double-buffered slot running concurrently
    (binder_hook_builder.cpp): a reader acquires the index once and then reads the
    slot word by word; the publisher fills the other slot word by word and
    release-stores the index.  One publication never disturbs a reader; a second
    one that starts while the reader is still reading does. *)

From S2P Require Import Prelude.

Section slot_race.
(** The number of words of a slot. *)
Context (size : nat).

(** src/binder_hook_builder.cpp:1752-1776 [publish_runtime_config] *)
Inductive writer_pc :=
  | WIdle
  | WFilling (slot : bool) (value : list Z) (written : nat).

(** A reader holds a slot and has read some of its words. *)

(** src/binder_hook_builder.cpp:171-187 [emit_capture_active_runtime_config] *)
Inductive reader_pc :=
  | RIdle
  | RHolding (slot : bool) (seen : list Z).

(** The two slots, the index, the two programs, and three ghosts: the value the
    reader's slot had when it was acquired, the publications since then, and every
    value published so far. *)
Record race_state := {
  rs_slots : bool -> list Z;
  rs_active : bool;
  rs_writer : writer_pc;
  rs_reader : reader_pc;
  rs_captured : list Z;
  rs_flips : nat;
  rs_published : list (list Z);
}.

(** The publisher starts on the inactive slot, stores one more word of it, and
    release-stores the index. *)

(** src/binder_hook_builder.cpp:1736-1750 [publish_runtime_config] *)
Definition w_begin (value : list Z) (s : race_state) : race_state := {|
  rs_slots := rs_slots s; rs_active := rs_active s;
  rs_writer := WFilling (negb (rs_active s)) value 0; rs_reader := rs_reader s;
  rs_captured := rs_captured s; rs_flips := rs_flips s; rs_published := rs_published s |}.

(** src/binder_hook_builder.cpp:1752-1759 [publish_runtime_config] *)
Definition w_word (slot : bool) (value : list Z) (n : nat) (word : Z) (s : race_state)
    : race_state := {|
  rs_slots := <[slot := <[n := word]> (rs_slots s slot)]> (rs_slots s);
  rs_active := rs_active s; rs_writer := WFilling slot value (S n);
  rs_reader := rs_reader s; rs_captured := rs_captured s; rs_flips := rs_flips s;
  rs_published := rs_published s |}.

(** src/binder_hook_builder.cpp:1768-1773 [publish_runtime_config] *)
Definition w_flip (slot : bool) (value : list Z) (s : race_state) : race_state := {|
  rs_slots := rs_slots s; rs_active := slot; rs_writer := WIdle; rs_reader := rs_reader s;
  rs_captured := rs_captured s; rs_flips := S (rs_flips s);
  rs_published := value :: rs_published s |}.

(** The reader takes the index, and loads one more word through it. *)

(** src/binder_hook_builder.cpp:173-186 [emit_capture_active_runtime_config] *)
Definition r_acquire (s : race_state) : race_state := {|
  rs_slots := rs_slots s; rs_active := rs_active s; rs_writer := rs_writer s;
  rs_reader := RHolding (rs_active s) []; rs_captured := rs_slots s (rs_active s);
  rs_flips := 0; rs_published := rs_published s |}.

(** src/binder_hook_builder.cpp:1000-1012 [emit_parse_hal_correlated_reply] *)
Definition r_word (slot : bool) (seen : list Z) (word : Z) (s : race_state) : race_state := {|
  rs_slots := rs_slots s; rs_active := rs_active s; rs_writer := rs_writer s;
  rs_reader := RHolding slot (seen ++ [word]); rs_captured := rs_captured s;
  rs_flips := rs_flips s; rs_published := rs_published s |}.

Definition r_done (s : race_state) : race_state := {|
  rs_slots := rs_slots s; rs_active := rs_active s; rs_writer := rs_writer s;
  rs_reader := RIdle; rs_captured := rs_captured s; rs_flips := rs_flips s;
  rs_published := rs_published s |}.

Inductive race_step : race_state -> race_state -> Prop :=
  | WBegin s value :
      rs_writer s = WIdle -> length value = size -> race_step s (w_begin value s)
  | WWord s slot value n word :
      rs_writer s = WFilling slot value n -> value !! n = Some word ->
      race_step s (w_word slot value n word s)
  | WFlip s slot value :
      rs_writer s = WFilling slot value size -> race_step s (w_flip slot value s)
  | RAcquire s : rs_reader s = RIdle -> race_step s (r_acquire s)
  | RWord s slot seen word :
      rs_reader s = RHolding slot seen -> rs_slots s slot !! length seen = Some word ->
      race_step s (r_word slot seen word s)
  | RDone s slot seen : rs_reader s = RHolding slot seen -> race_step s (r_done s).

Definition race_initial (value : list Z) : race_state :=
  {| rs_slots := fun _ => value; rs_active := false; rs_writer := WIdle; rs_reader := RIdle;
     rs_captured := value; rs_flips := 0; rs_published := [value] |}.

Definition race_reachable (value : list Z) (s : race_state) : Prop :=
  rtc race_step (race_initial value) s.

(** A publication that has started after the one the reader missed. *)
Definition second_publication (s : race_state) : Prop :=
  (2 <= rs_flips s)%nat \/ rs_flips s = 1%nat /\ rs_writer s <> WIdle.


(** Until then the reader's slot is the one the writer does not touch. *)
Record race_inv (s : race_state) : Prop := {
  ri_length : forall b, length (rs_slots s b) = size;
  ri_active : rs_slots s (rs_active s) ∈ rs_published s;
  ri_writer : forall slot value n, rs_writer s = WFilling slot value n ->
    slot = negb (rs_active s) /\ length value = size /\ (n <= size)%nat /\
    take n (rs_slots s slot) = take n value;
  ri_reader : forall slot seen, rs_reader s = RHolding slot seen ->
    rs_captured s ∈ rs_published s /\
    (~ second_publication s ->
     rs_slots s slot = rs_captured s /\ seen `prefix_of` rs_captured s /\
     slot = if decide (rs_flips s = 0%nat) then rs_active s else negb (rs_active s));
}.

Lemma race_initial_inv value : length value = size -> race_inv (race_initial value).
Proof. intros Hl. split; [by intros []|by constructor|done|done]. Qed.

Lemma prefix_snoc_lookup (seen l : list Z) word :
  seen `prefix_of` l -> l !! length seen = Some word -> seen ++ [word] `prefix_of` l.
Proof.
  intros [k ->] Hl. rewrite lookup_app_r, Nat.sub_diag in Hl by done.
  destruct k as [|w k]; [done|]. injection Hl as ->. exists k. by rewrite <-app_assoc.
Qed.

Lemma race_step_inv s s' : race_step s s' -> race_inv s -> race_inv s'.
Proof.
  intros Hstep Hinv. pose proof Hinv as [Hlen Hact Hwr Hrd].
  destruct Hstep as [s value Hw Hl|s slot value n word Hw Hv|s slot value Hw|s Hr
    |s slot seen word Hr Hv|s slot seen Hr]; split; cbn; try done.
  - intros slot v n [= <- <- <-]. rewrite !take_0. split; [done|]. split; [done|]. split; [lia|done].
  - intros slot seen Hr. destruct (Hrd slot seen Hr) as [Hp Hread]. split; [done|].
    unfold second_publication in *. cbn in *. intros Hns. apply Hread. intros [|[? Hi]]; [tauto|].
    apply Hns. right. by split.
  - intros b. destruct (decide (slot = b)) as [<-|]; [rewrite fn_lookup_insert, length_insert|
      rewrite fn_lookup_insert_ne by done]; apply Hlen.
  - destruct (Hwr _ _ _ Hw) as (-> & _). rewrite fn_lookup_insert_ne by (by destruct (rs_active s)).
    done.
  - intros slot' v n' [= <- <- <-]. destruct (Hwr _ _ _ Hw) as (-> & Hvl & Hn & Ht).
    pose proof (lookup_lt_Some _ _ _ Hv). split; [done|]. split; [done|]. split; [lia|].
    rewrite fn_lookup_insert, (take_S_r _ _ word) by (apply list_lookup_insert_eq; rewrite Hlen; lia).
    by rewrite take_insert_ge, Ht, <-(take_S_r _ _ _ Hv) by lia.
  - intros slot' seen Hr. destruct (Hrd slot' seen Hr) as [Hp Hread]. split; [done|].
    unfold second_publication in *. cbn in *. intros Hns.
    assert (rs_flips s = 0%nat) as H0.
    { destruct (rs_flips s) as [|[|k]]; [done| |]; exfalso; apply Hns; [by right|left; lia]. }
    destruct Hread as (Hslot & Hseen & Hs'); [rewrite H0; intros [|[]]; lia|].
    rewrite H0 in *. cbn in Hs' |- *. subst slot'. destruct (Hwr _ _ _ Hw) as (-> & _).
    rewrite fn_lookup_insert_ne by (by destruct (rs_active s)). done.
  - destruct (Hwr _ _ _ Hw) as (-> & Hvl & _ & Ht).
    rewrite !firstn_all2 in Ht by (rewrite ?Hlen; lia). rewrite Ht. by constructor.
  - intros slot' seen Hr. destruct (Hrd slot' seen Hr) as [Hp Hread]. split; [by constructor|].
    unfold second_publication in *. cbn in *. intros Hns.
    assert (rs_flips s = 0%nat) as H0 by (destruct (rs_flips s); [done|]; exfalso; apply Hns; lia).
    destruct Hread as (Hslot & Hseen & Hs'); [rewrite H0; intros [|[]]; lia|].
    rewrite H0 in *. cbn in Hs' |- *. destruct (Hwr _ _ _ Hw) as (-> & _).
    rewrite negb_involutive. done.
  - intros slot seen [= <- <-]. split; [done|]. intros _. split; [done|]. split; [apply prefix_nil|done].
  - intros slot' seen' [= <- <-]. destruct (Hrd slot seen Hr) as [Hp Hread]. split; [done|].
    intros Hns. destruct (Hread Hns) as (Hslot & Hseen & Hs'). split; [done|]. split; [|done].
    rewrite Hslot in Hv. by apply prefix_snoc_lookup.
Qed.

(** C21: a reader that acquires the slot reads words of one published value only,
    the one that was active when it acquired it, as long as no second publication
    has started since: a concurrent publication fills the other slot. *)
Theorem reader_consistent value s slot seen :
  length value = size -> race_reachable value s -> rs_reader s = RHolding slot seen ->
  ~ second_publication s ->
  rs_captured s ∈ rs_published s /\ seen `prefix_of` rs_captured s /\
  (length seen = size -> seen ∈ rs_published s).
Proof.
  intros Hl Hreach Hr Hns.
  assert (race_inv s) as Hinv.
  { unfold race_reachable in Hreach. remember (race_initial value) as s0 eqn:E.
    assert (race_inv s0) as H0 by (subst; by apply race_initial_inv). clear E.
    induction Hreach as [|s1 s2 s3 Hstep _ IH]; [done|]. apply IH; [done|done|].
    by apply (race_step_inv s1). }
  destruct Hinv as [Hlen _ _ Hrd]. destruct (Hrd slot seen Hr) as [Hp Hread].
  destruct (Hread Hns) as (Hslot & Hseen & _). split; [done|]. split; [done|]. intros Hfull.
  destruct Hseen as [k Hk]. destruct k as [|w k].
  - rewrite app_nil_r in Hk. by rewrite <-Hk.
  - exfalso. apply (f_equal length) in Hk. rewrite <-Hslot, Hlen, length_app in Hk. cbn in Hk. lia.
Qed.

End slot_race.

(** * Concrete runs, with slots of two words *)

Definition demo_v0 : list Z := [0; 0].
Definition demo_v1 : list Z := [1; 1].
Definition demo_v2 : list Z := [2; 2].

(** The reader reads a word of the initial value, and a publication completes. *)
Definition demo_once : race_state :=
  w_flip true demo_v1 (w_word true demo_v1 1 1 (w_word true demo_v1 0 1 (w_begin demo_v1
    (r_word false [] 0 (r_acquire (race_initial demo_v0)))))).

(** A second publication fills the reader's slot, and the reader reads on. *)
Definition demo_torn : race_state :=
  r_word false [0] 2 (w_word false demo_v2 1 2 (w_word false demo_v2 0 2
    (w_begin demo_v2 demo_once))).

Lemma demo_once_reachable : race_reachable 2 demo_v0 demo_once.
Proof.
  unfold race_reachable, demo_once.
  eapply rtc_l; [by apply RAcquire|]. eapply rtc_l; [by apply (RWord 2 _ false [] 0)|].
  eapply rtc_l; [by apply (WBegin 2 _ demo_v1)|].
  eapply rtc_l; [by apply (WWord 2 _ true demo_v1 0 1)|].
  eapply rtc_l; [by apply (WWord 2 _ true demo_v1 1 1)|].
  apply rtc_once. by apply (WFlip 2 _ true demo_v1).
Qed.

Lemma demo_torn_reachable : race_reachable 2 demo_v0 demo_torn.
Proof.
  unfold race_reachable, demo_torn. etrans; [apply demo_once_reachable|].
  eapply rtc_l; [by apply (WBegin 2 _ demo_v2)|].
  eapply rtc_l; [by apply (WWord 2 _ false demo_v2 0 2)|].
  eapply rtc_l; [by apply (WWord 2 _ false demo_v2 1 2)|].
  apply rtc_once. by apply (RWord 2 _ false [0] 2).
Qed.

(** when a second publication starts while a reader still reads, the reader can
    put together a value that was never published: here the first word of the
    initial configuration and the second word of the third. *)
Lemma reader_torn :
  exists s seen, race_reachable 2 demo_v0 s /\ rs_reader s = RHolding false seen /\
    length seen = 2%nat /\ second_publication s /\ seen ∉ rs_published s.
Proof.
  exists demo_torn, [0; 2]. split; [apply demo_torn_reachable|].
  split; [done|]. split; [done|]. split; [by right|].
  change (rs_published demo_torn) with [demo_v1; demo_v0].
  rewrite !not_elem_of_cons. split; [done|]. split; [done|]. apply not_elem_of_nil.
Qed.

(** The same reader, reading on while only one publication has run. *)
Lemma reader_consistent_witness : demo_v0 ∈ rs_published (r_word false [0] 0 demo_once).
Proof.
  apply (reader_consistent 2 demo_v0 (r_word false [0] 0 demo_once) false demo_v0);
    [done| |done| |done].
  - unfold race_reachable. etrans; [apply demo_once_reachable|].
    apply rtc_once. by apply (RWord 2 _ false [0] 0).
  - unfold second_publication. cbn. intros [|[_ []]]; [lia|done].
Defined.
