(* ===== verification/Checksum.v ===== *)
(** The checksums of the private records: the bitwise CRC-32 that every record
    format carries (the same routine appears in runtime_control.cpp,
    runtime_profile.cpp, control_ipc.cpp, device_id_fingerprint.cpp and
    binder_ioctl_resolver.cpp) and the FNV-1a fingerprint of the hooked entry. *)

From S2P Require Import Prelude.

Definition crc_polynomial : Z := 0xedb88320.

(** One bit: the mask is all ones when the low bit is set. *)

(** src/runtime_control.cpp:66-69 [crc32] *)
Definition crc_bit (value : Z) : Z :=
  let mask := u32 (0 - Z.land value 1) in
  Z.lxor (Z.shiftr value 1) (Z.land crc_polynomial mask).

(** src/runtime_control.cpp:65-70 [crc32] *)
Definition crc_byte (value byte : Z) : Z := Nat.iter 8 crc_bit (Z.lxor value byte).

(** src/runtime_control.cpp:61-72 [crc32] *)
Definition crc32 (data : list Z) : Z :=
  Z.lxor (foldl crc_byte 0xffffffff data) 0xffffffff.

(** The variant that complements the register at the end. *)

(** src/runtime_profile.cpp:235-246 [crc32] *)
Definition crc32_complement (data : list Z) : Z :=
  u32 (Z.lnot (foldl crc_byte 0xffffffff data)).

(** src/binder_ioctl_resolver.cpp:85-93 [fnv1a64] *)
Definition fnv1a64 (data : list Z) : Z :=
  foldl (fun value byte => u64 (Z.lxor value byte * 1099511628211)) 14695981039346656037 data.

#[global] Arguments crc32 : simpl never.
#[global] Arguments crc32_complement : simpl never.

(** * The register stays a 32-bit word *)

Lemma low_bit value : Z.land value 1 = Z.b2z (Z.testbit value 0).
Proof.
  assert (Z.land value 1 = value mod 2 ^ 1) as -> by exact (Z.land_ones value 1 ltac:(lia)).
  change (2 ^ 1) with 2. by rewrite <-Z.bit0_mod.
Qed.

Lemma crc_bit_eq value :
  crc_bit value = Z.lxor (Z.shiftr value 1) (if Z.testbit value 0 then crc_polynomial else 0).
Proof. unfold crc_bit. rewrite low_bit. by destruct (Z.testbit value 0). Qed.

Lemma crc_bit_range value : 0 <= value < 2 ^ 32 -> 0 <= crc_bit value < 2 ^ 32.
Proof.
  intros Hv. rewrite crc_bit_eq. apply lxor_range; [lia| |].
  - rewrite Z.shiftr_div_pow2 by lia. change (2 ^ 1) with 2.
    split; [apply Z.div_pos; lia|]. apply Z.div_lt_upper_bound; lia.
  - by destruct (Z.testbit value 0).
Qed.

Lemma crc_iter_range n value :
  0 <= value < 2 ^ 32 -> 0 <= Nat.iter n crc_bit value < 2 ^ 32.
Proof. intros Hv. induction n as [|n IH]; [done|]. by apply crc_bit_range. Qed.

Lemma crc_byte_range value byte :
  0 <= value < 2 ^ 32 -> byte_ok byte -> 0 <= crc_byte value byte < 2 ^ 32.
Proof.
  intros Hv Hb. apply crc_iter_range, lxor_range; [lia|done|]. unfold byte_ok in Hb. lia.
Qed.

Lemma crc_fold_range data value :
  0 <= value < 2 ^ 32 -> bytes_ok data -> 0 <= foldl crc_byte value data < 2 ^ 32.
Proof.
  intros Hv Hd. revert value Hv. induction Hd as [|b data Hb _ IH]; intros value Hv; [done|].
  apply IH. by apply crc_byte_range.
Qed.

Lemma crc32_range data : bytes_ok data -> 0 <= crc32 data < 2 ^ 32.
Proof. intros Hd. apply lxor_range; [lia|by apply crc_fold_range|done]. Qed.

(** Both forms of the final complement agree. *)
Lemma crc32_complement_eq data : bytes_ok data -> crc32_complement data = crc32 data.
Proof.
  intros Hd. unfold crc32_complement, crc32. set (v := foldl _ _ _).
  assert (Hv : 0 <= v < 2 ^ 32) by (by apply crc_fold_range).
  apply Z.bits_inj'. intros n Hn. unfold u32. rewrite Z.lxor_spec.
  change 0xffffffff with (Z.ones 32). destruct (Z.lt_ge_cases n 32).
  - rewrite Z.mod_pow2_bits_low, Z.lnot_spec, Z.ones_spec_low by lia. by rewrite xorb_true_r.
  - rewrite Z.mod_pow2_bits_high, Z.ones_spec_high by lia.
    by rewrite (testbit_above v 32 n Hv) by lia.
Qed.

(** * Error detection *)

(** The polynomial's top bit makes one bit step invertible. *)
Lemma crc_bit_top value :
  0 <= value < 2 ^ 32 -> Z.testbit (crc_bit value) 31 = Z.testbit value 0.
Proof.
  intros Hv. rewrite crc_bit_eq, Z.lxor_spec, Z.shiftr_spec by lia.
  change (31 + 1) with 32. rewrite (testbit_above value 32) by lia.
  by destruct (Z.testbit value 0).
Qed.

Lemma crc_bit_inj a b :
  0 <= a < 2 ^ 32 -> 0 <= b < 2 ^ 32 -> crc_bit a = crc_bit b -> a = b.
Proof.
  intros Ha Hb Heq. pose proof (crc_bit_top a Ha) as Ta. pose proof (crc_bit_top b Hb) as Tb.
  assert (Hlow : Z.testbit a 0 = Z.testbit b 0) by congruence.
  rewrite !crc_bit_eq, Hlow in Heq.
  assert (Z.shiftr a 1 = Z.shiftr b 1) as Hshift.
  { rewrite <-(Z.lxor_0_r (Z.shiftr a 1)), <-(Z.lxor_0_r (Z.shiftr b 1)).
    rewrite <-(Z.lxor_nilpotent (if Z.testbit b 0 then crc_polynomial else 0)).
    by rewrite <-!Z.lxor_assoc, Heq. }
  apply Z.bits_inj'. intros n Hn. destruct (decide (n = 0)) as [->|]; [done|].
  replace n with (n - 1 + 1) by lia. by rewrite <-!Z.shiftr_spec, Hshift by lia.
Qed.

Lemma crc_iter_inj n a b :
  0 <= a < 2 ^ 32 -> 0 <= b < 2 ^ 32 -> Nat.iter n crc_bit a = Nat.iter n crc_bit b -> a = b.
Proof.
  intros Ha Hb. induction n as [|n IH]; [done|]. intros Heq. apply IH.
  apply (crc_bit_inj _ _ (crc_iter_range n a Ha) (crc_iter_range n b Hb) Heq).
Qed.

Lemma lxor_cancel_r a b c : Z.lxor a c = Z.lxor b c -> a = b.
Proof.
  intros H. rewrite <-(Z.lxor_0_r a), <-(Z.lxor_0_r b), <-(Z.lxor_nilpotent c).
  by rewrite <-!Z.lxor_assoc, H.
Qed.

Lemma crc_byte_inj a x b y :
  0 <= a < 2 ^ 32 -> byte_ok x -> 0 <= b < 2 ^ 32 -> byte_ok y ->
  crc_byte a x = crc_byte b y -> Z.lxor a x = Z.lxor b y.
Proof.
  intros Ha Hx Hb Hy. unfold crc_byte, byte_ok in *. generalize 8%nat. intros n.
  apply crc_iter_inj; (apply lxor_range; lia).
Qed.

#[local] Opaque crc_byte.

(** Different registers stay different whatever follows. *)
Lemma crc_fold_inj data a b :
  0 <= a < 2 ^ 32 -> 0 <= b < 2 ^ 32 -> bytes_ok data ->
  foldl crc_byte a data = foldl crc_byte b data -> a = b.
Proof.
  intros Ha Hb Hd. revert a b Ha Hb.
  induction Hd as [|x data Hx _ IH]; intros a b Ha Hb Heq; [done|].
  apply IH in Heq; [|by apply crc_byte_range..].
  by apply crc_byte_inj, lxor_cancel_r in Heq.
Qed.

(** The record checksum detects every corruption that is confined to one byte,
    wherever in the covered bytes it is. *)
Lemma crc32_detects_byte before byte byte' after :
  bytes_ok before -> bytes_ok after -> byte_ok byte -> byte_ok byte' -> byte <> byte' ->
  crc32 (before ++ byte :: after) <> crc32 (before ++ byte' :: after).
Proof.
  intros Hbefore Hafter Hb Hb' Hne Heq. apply Hne.
  unfold crc32 in Heq. apply lxor_cancel_r in Heq. rewrite !foldl_app in Heq. cbn [foldl] in Heq.
  set (v := foldl crc_byte 0xffffffff before) in *.
  assert (Hv : 0 <= v < 2 ^ 32) by (by apply crc_fold_range).
  apply crc_fold_inj in Heq; [|by apply crc_byte_range..|done].
  apply crc_byte_inj in Heq; [|done..].
  apply (lxor_cancel_r _ _ v). by rewrite !(Z.lxor_comm _ v).
Qed.

#[local] Transparent crc_byte.

(** The check value of the standard: the digits 1 to 9. *)
Example crc32_check : crc32 (bytes_of_string "123456789") = 0xcbf43926.
Proof. vm_compute. reflexivity. Qed.

(** The same of a buffer and an index into it. *)
Lemma crc32_insert_differs i b (l : list Z) x :
  l !! i = Some x -> bytes_ok l -> byte_ok b -> x <> b -> crc32 (<[i := b]> l) <> crc32 l.
Proof.
  intros Hx Hok Hb Hne.
  assert (Hi : (i < length l)%nat) by (by eapply lookup_lt_Some).
  rewrite insert_take_drop by done. rewrite <-(take_drop_middle l i x Hx) at 3.
  assert (Hxok : byte_ok x) by (by eapply Forall_lookup_1).
  apply crc32_detects_byte; [by apply bytes_ok_take|by apply bytes_ok_drop|done..].
Qed.
