(* ===== verification/Sha256.v ===== *)
(** The hash functions of the profile generator (runtime_profile.cpp): the
    streaming SHA-256 class, HMAC and HKDF over it, with their reference forms. *)

From S2P Require Import Prelude.

(** * The class *)

(** src/runtime_profile.cpp:164-168 [Sha256] *)
Record Sha256 := {
  state_ : list Z;
  buffer_ : list Z;
  total_bytes_ : Z;
  buffered_ : nat;
}.

(** src/runtime_profile.cpp:37-39 [rotr] *)
Definition rotr (value bits : Z) : Z :=
  Z.lor (Z.shiftr value bits) (u32 (Z.shiftl value (32 - bits))).

(** src/runtime_profile.cpp:46-49 [Sha256::reset] *)
Definition sha256_iv : list Z :=
  [0x6a09e667; 0xbb67ae85; 0x3c6ef372; 0xa54ff53a;
   0x510e527f; 0x9b05688c; 0x1f83d9ab; 0x5be0cd19].

(** src/runtime_profile.cpp:45-53 [Sha256::reset] *)
Definition reset : Sha256 := {|
  state_ := sha256_iv; buffer_ := replicate 64 0; total_bytes_ := 0; buffered_ := 0 |}.

(** The table of the source in decimal; each row has the source's numbers before it. *)

(** src/runtime_profile.cpp:97-114 [Sha256::transform] *)
Definition sha256_k : list Z := [
  (* 428a2f98 71374491 b5c0fbcf e9b5dba5 3956c25b 59f111f1 923f82a4 ab1c5ed5 *)
  1116352408; 1899447441; 3049323471; 3921009573;
  961987163; 1508970993; 2453635748; 2870763221;
  (* d807aa98 12835b01 243185be 550c7dc3 72be5d74 80deb1fe 9bdc06a7 c19bf174 *)
  3624381080; 310598401; 607225278; 1426881987;
  1925078388; 2162078206; 2614888103; 3248222580;
  (* e49b69c1 efbe4786 0fc19dc6 240ca1cc 2de92c6f 4a7484aa 5cb0a9dc 76f988da *)
  3835390401; 4022224774; 264347078; 604807628;
  770255983; 1249150122; 1555081692; 1996064986;
  (* 983e5152 a831c66d b00327c8 bf597fc7 c6e00bf3 d5a79147 06ca6351 14292967 *)
  2554220882; 2821834349; 2952996808; 3210313671;
  3336571891; 3584528711; 113926993; 338241895;
  (* 27b70a85 2e1b2138 4d2c6dfc 53380d13 650a7354 766a0abb 81c2c92e 92722c85 *)
  666307205; 773529912; 1294757372; 1396182291;
  1695183700; 1986661051; 2177026350; 2456956037;
  (* a2bfe8a1 a81a664b c24b8b70 c76c51a3 d192e819 d6990624 f40e3585 106aa070 *)
  2730485921; 2820302411; 3259730800; 3345764771;
  3516065817; 3600352804; 4094571909; 275423344;
  (* 19a4c116 1e376c08 2748774c 34b0bcb5 391c0cb3 4ed8aa4a 5b9cca4f 682e6ff3 *)
  430227734; 506948616; 659060556; 883997877;
  958139571; 1322822218; 1537002063; 1747873779;
  (* 748f82ee 78a5636f 84c87814 8cc70208 90befffa a4506ceb bef9a3f7 c67178f2 *)
  1955562222; 2024104815; 2227730452; 2361852424;
  2428436474; 2756734187; 3204031479; 3329325298].

(** src/runtime_profile.cpp:115-121 [Sha256::transform] *)
Definition block_words (block : list Z) : list Z :=
  (fun i => Z.lor (Z.lor (Z.lor
     (Z.shiftl (nth (4 * i) block 0) 24) (Z.shiftl (nth (4 * i + 1) block 0) 16))
     (Z.shiftl (nth (4 * i + 2) block 0) 8)) (nth (4 * i + 3) block 0)) <$> seq 0 16.

(** src/runtime_profile.cpp:122-128 [Sha256::transform] *)
Fixpoint expand_words (steps i : nat) (w : list Z) : list Z :=
  match steps with
  | O => w
  | S steps =>
      let w15 := nth (i - 15) w 0 in
      let w2 := nth (i - 2) w 0 in
      let s0 := Z.lxor (Z.lxor (rotr w15 7) (rotr w15 18)) (Z.shiftr w15 3) in
      let s1 := Z.lxor (Z.lxor (rotr w2 17) (rotr w2 19)) (Z.shiftr w2 10) in
      expand_words steps (S i)
        (w ++ [u32 (nth (i - 16) w 0 + s0 + nth (i - 7) w 0 + s1)])
  end.

(** The working variables [a] to [h]. *)
Definition vars : Type := Z * Z * Z * Z * Z * Z * Z * Z.

(** src/runtime_profile.cpp:138-153 [Sha256::transform] *)
Definition sha256_round (v : vars) (kw : Z * Z) : vars :=
  let '(a, b, c, d, e, f, g, h) := v in
  let '(k, w) := kw in
  let s1 := Z.lxor (Z.lxor (rotr e 6) (rotr e 11)) (rotr e 25) in
  let ch := Z.lxor (Z.land e f) (Z.land (u32 (Z.lnot e)) g) in
  let t1 := u32 (h + s1 + ch + k + w) in
  let s0 := Z.lxor (Z.lxor (rotr a 2) (rotr a 13)) (rotr a 22) in
  let maj := Z.lxor (Z.lxor (Z.land a b) (Z.land a c)) (Z.land b c) in
  let t2 := u32 (s0 + maj) in
  (u32 (t1 + t2), a, b, c, u32 (d + t1), e, f, g).

(** src/runtime_profile.cpp:96-162 [Sha256::transform] *)
Definition compress (state block : list Z) : list Z :=
  match state with
  | [s0; s1; s2; s3; s4; s5; s6; s7] =>
      let w := expand_words 48 16 (block_words block) in
      let '(a, b, c, d, e, f, g, h) :=
        foldl sha256_round (s0, s1, s2, s3, s4, s5, s6, s7) (zip sha256_k w) in
      [u32 (s0 + a); u32 (s1 + b); u32 (s2 + c); u32 (s3 + d);
       u32 (s4 + e); u32 (s5 + f); u32 (s6 + g); u32 (s7 + h)]
  | _ => state
  end.

Definition transform (s : Sha256) : Sha256 := {|
  state_ := compress (state_ s) (buffer_ s);
  buffer_ := buffer_ s; total_bytes_ := total_bytes_ s; buffered_ := buffered_ s |}.

(** [bytes] copied into a buffer at [offset]. *)
Definition write_at (offset : nat) (bytes buffer : list Z) : list Z :=
  take offset buffer ++ bytes ++ drop (offset + length bytes) buffer.

(** One iteration of the loop of [update]: the [n] bytes taken now. *)

(** src/runtime_profile.cpp:59-68 [Sha256::update] *)
Definition absorb (s : Sha256) (bytes : list Z) : Sha256 :=
  let buffered := (buffered_ s + length bytes)%nat in
  let s := {| state_ := state_ s; buffer_ := write_at (buffered_ s) bytes (buffer_ s);
              total_bytes_ := total_bytes_ s; buffered_ := buffered |} in
  if Nat.eqb buffered 64 then
    let s := transform s in
    {| state_ := state_ s; buffer_ := buffer_ s; total_bytes_ := total_bytes_ s; buffered_ := 0 |}
  else s.

(** Every iteration takes at least one byte, so the length is enough fuel. *)

(** src/runtime_profile.cpp:58-69 [Sha256::update] *)
Fixpoint update_loop (fuel : nat) (s : Sha256) (data : list Z) : Sha256 :=
  match fuel, data with
  | S fuel, _ :: _ =>
      let n := Nat.min (length data) (64 - buffered_ s) in
      update_loop fuel (absorb s (take n data)) (drop n data)
  | _, _ => s
  end.

(** src/runtime_profile.cpp:55-69 [Sha256::update] *)
Definition update (s : Sha256) (data : list Z) : Sha256 :=
  update_loop (length data)
    {| state_ := state_ s; buffer_ := buffer_ s;
       total_bytes_ := u64 (total_bytes_ s + Z.of_nat (length data)); buffered_ := buffered_ s |}
    data.

Definition be_enc (n : nat) (z : Z) : list Z := rev (le_enc n z).

(** src/runtime_profile.cpp:85-92 [Sha256::finish] *)
Definition digest (state : list Z) : list Z := state ≫= be_enc 4.

(** src/runtime_profile.cpp:71-93 [Sha256::finish] *)
Definition finish (s : Sha256) : list Z :=
  let total_bits := u64 (total_bytes_ s * 8) in
  let fill buffered s buffer :=
    {| state_ := state_ s; buffer_ := buffer; total_bytes_ := total_bytes_ s; buffered_ := buffered |} in
  let n := S (buffered_ s) in
  let s := fill n s (write_at (buffered_ s) [0x80] (buffer_ s)) in
  let s := if (56 <? n)%nat
           then fill 0%nat (transform (fill n s (write_at n (replicate (64 - n) 0) (buffer_ s))))
                  (write_at n (replicate (64 - n) 0) (buffer_ s))
           else s in
  let s := fill (buffered_ s) s (write_at (buffered_ s) (replicate (56 - buffered_ s) 0) (buffer_ s)) in
  let s := fill (buffered_ s) s (write_at 56 (be_enc 8 total_bits) (buffer_ s)) in
  digest (state_ (transform s)).

(** src/runtime_profile.cpp:170-174 [sha256] *)
Definition sha256 (data : list Z) : list Z := finish (update reset data).

(** * HMAC and HKDF *)

(** src/runtime_profile.cpp:180-186 [hmac_sha256] *)
Definition normalize_key (key : list Z) : list Z :=
  if (64 <? length key)%nat then write_at 0 (sha256 key) (replicate 64 0)
  else write_at 0 key (replicate 64 0).

(** src/runtime_profile.cpp:176-201 [hmac_sha256] *)
Definition hmac_sha256 (key data : list Z) : list Z :=
  let normalized := normalize_key key in
  let inner_pad := (fun b => Z.lxor b 0x36) <$> normalized in
  let outer_pad := (fun b => Z.lxor b 0x5c) <$> normalized in
  let inner_digest := finish (update (update reset inner_pad) data) in
  finish (update (update reset outer_pad) inner_digest).

(** src/runtime_profile.cpp:219-231 [hkdf_sha256] *)
Fixpoint expand_loop (fuel : nat) (prk info previous : list Z) (counter : Z)
    (output_size : nat) (output : list Z) : option (list Z) :=
  match fuel with
  | O => None
  | S fuel =>
      if (length output <? output_size)%nat then
        let block := hmac_sha256 prk (previous ++ info ++ [counter]) in
        let n := Nat.min (length block) (output_size - length output) in
        expand_loop fuel prk info block (u8 (counter + 1)) output_size (output ++ take n block)
      else Some output
  end.

(** The loop runs at most 255 times, so 256 units of fuel are enough. *)

(** src/runtime_profile.cpp:203-233 [hkdf_sha256] *)
Definition hkdf_sha256 (ikm salt info : list Z) (output_size : nat) : option (list Z) :=
  if (255 * 32 <? output_size)%nat then None
  else expand_loop 256 (hmac_sha256 salt ikm) info [] 1 output_size [].

(** src/runtime_profile.cpp:406-414 [virtual_id_fingerprint] *)
Definition virtual_id_fingerprint (data : list Z) : Z :=
  match data with
  | [] => 0
  | _ => foldl (fun value '(i, byte) => Z.lor value (Z.shiftl byte (8 * Z.of_nat i))) 0
           (zip (seq 0 8) (sha256 data))
  end.

(** src/runtime_profile.cpp:369-404 [runtime_crypto_self_test] *)
Definition runtime_crypto_self_test : bool :=
  bool_decide (sha256 (bytes_of_string "abc") =
    [0xba; 0x78; 0x16; 0xbf; 0x8f; 0x01; 0xcf; 0xea; 0x41; 0x41; 0x40; 0xde; 0x5d; 0xae; 0x22; 0x23;
     0xb0; 0x03; 0x61; 0xa3; 0x96; 0x17; 0x7a; 0x9c; 0xb4; 0x10; 0xff; 0x61; 0xf2; 0x00; 0x15; 0xad])
  && bool_decide (hkdf_sha256 (replicate 22 0x0b) (seqZ 0 13) (seqZ 0xf0 10) 42 = Some
    [0x3c; 0xb2; 0x5f; 0x25; 0xfa; 0xac; 0xd5; 0x7a; 0x90; 0x43; 0x4f; 0x64; 0xd0; 0x36; 0x2f; 0x2a;
     0x2d; 0x2d; 0x0a; 0x90; 0xcf; 0x1a; 0x5a; 0x4c; 0x5d; 0xb0; 0x2d; 0x56; 0xec; 0xc4; 0xc5; 0xbf;
     0x34; 0x00; 0x72; 0x08; 0xd5; 0xb8; 0x87; 0x18; 0x58; 0x65]).

(** Both known-answer tests pass. *)
Lemma self_test_passes : runtime_crypto_self_test = true.
Proof. vm_compute. reflexivity. Qed.

(** * The reference hash

    The padded message cut into blocks, folded through the compression function. *)

Fixpoint blocks (n : nat) (l : list Z) : list (list Z) :=
  match n with O => [] | S n => take 64 l :: blocks n (drop 64 l) end.

Definition pad (data : list Z) : list Z :=
  data ++ 0x80 :: replicate ((119 - length data `mod` 64) `mod` 64) 0 ++
  be_enc 8 (u64 (Z.of_nat (length data) * 8)).

Definition sha256_spec (data : list Z) : list Z :=
  digest (foldl compress sha256_iv (blocks (length (pad data) / 64) (pad data))).

Lemma blocks_app m k l r :
  length l = (64 * m)%nat -> blocks (m + k) (l ++ r) = blocks m l ++ blocks k r.
Proof.
  revert l. induction m as [|m IH]; intros l Hl; [by destruct l|].
  cbn [blocks Nat.add app]. f_equal; [by rewrite take_app_le by lia|].
  rewrite drop_app_le by lia. apply IH. rewrite length_drop. lia.
Qed.

Lemma be_enc_length n z : length (be_enc n z) = n.
Proof. unfold be_enc. by rewrite length_rev, le_enc_length. Qed.

Lemma write_at_length off bytes l :
  (off + length bytes <= length l)%nat -> length (write_at off bytes l) = length l.
Proof. intros. unfold write_at. rewrite !length_app, length_take, length_drop. lia. Qed.

Lemma take_write_at off bytes l :
  (off <= length l)%nat -> take (off + length bytes) (write_at off bytes l) = take off l ++ bytes.
Proof.
  intros. unfold write_at. rewrite app_assoc, take_app_le, take_ge; [done|..];
    rewrite length_app, length_take; lia.
Qed.

(** * Streaming *)

(** The whole blocks of [data] are in the state, the rest is in the buffer. *)
Definition holds (s : Sha256) (data : list Z) : Prop :=
  length (buffer_ s) = 64%nat /\ (buffered_ s < 64)%nat /\
  exists m whole, length whole = (64 * m)%nat /\ data = whole ++ take (buffered_ s) (buffer_ s) /\
    state_ s = foldl compress sha256_iv (blocks m whole).

Lemma holds_reset : holds reset [].
Proof. split_and!; [done|simpl; lia|]. by exists 0%nat, []. Qed.

Lemma holds_absorb s data bytes :
  holds s data -> (length bytes <= 64 - buffered_ s)%nat -> holds (absorb s bytes) (data ++ bytes).
Proof.
  intros (Hb & Hlt & m & whole & Hw & -> & Hs) Hn. unfold absorb.
  assert (Hlen : length (write_at (buffered_ s) bytes (buffer_ s)) = 64%nat)
    by (rewrite write_at_length; lia).
  assert (Htake : take (buffered_ s + length bytes) (write_at (buffered_ s) bytes (buffer_ s)) =
                  take (buffered_ s) (buffer_ s) ++ bytes) by (apply take_write_at; lia).
  destruct (Nat.eqb_spec (buffered_ s + length bytes) 64) as [E|E]; cbn.
  - split_and!; cbn; [done|lia|]. rewrite E, take_ge in Htake by lia.
    exists (m + 1)%nat, (whole ++ write_at (buffered_ s) bytes (buffer_ s)). split_and!.
    + rewrite length_app. lia.
    + cbn. by rewrite take_0, app_nil_r, Htake, app_assoc.
    + rewrite blocks_app by done. cbn [blocks]. rewrite take_ge by lia.
      by rewrite foldl_app, Hs.
  - split_and!; cbn; [done|lia|]. exists m, whole. by rewrite Htake, app_assoc.
Qed.

Lemma absorb_total s bytes : total_bytes_ (absorb s bytes) = total_bytes_ s.
Proof. unfold absorb. by destruct (Nat.eqb _ _). Qed.

Lemma update_loop_holds fuel s data input :
  (length input <= fuel)%nat -> holds s data ->
  holds (update_loop fuel s input) (data ++ input) /\
  total_bytes_ (update_loop fuel s input) = total_bytes_ s.
Proof.
  revert s data input. induction fuel as [|fuel IH]; intros s data input Hf Hs.
  { destruct input; [|simpl in Hf; lia]. by rewrite app_nil_r. }
  destruct input as [|x input]; [by rewrite app_nil_r|].
  cbn [update_loop]. set (n := Nat.min _ _).
  assert (Hn : (0 < n <= length (x :: input))%nat).
  { destruct Hs as (_ & ? & _). unfold n. cbn [length]. lia. }
  destruct (IH (absorb s (take n (x :: input))) (data ++ take n (x :: input)) (drop n (x :: input)))
    as [Hh Ht].
  - rewrite length_drop. cbn [length] in *. lia.
  - apply holds_absorb; [done|]. rewrite length_take. unfold n. lia.
  - by rewrite <-app_assoc, take_drop, absorb_total in *.
Qed.

Lemma u64_add_l a b : u64 (u64 a + b) = u64 (a + b).
Proof. apply Zplus_mod_idemp_l. Qed.

Definition streamed (s : Sha256) (data : list Z) : Prop :=
  holds s data /\ total_bytes_ s = u64 (Z.of_nat (length data)).

Lemma streamed_update s data input : streamed s data -> streamed (update s input) (data ++ input).
Proof.
  intros [Hh Ht]. unfold update.
  edestruct (update_loop_holds (length input)
    {| state_ := state_ s; buffer_ := buffer_ s;
       total_bytes_ := u64 (total_bytes_ s + Z.of_nat (length input)); buffered_ := buffered_ s |}
    data input) as [Hh' Ht']; [done|exact Hh|].
  split; [done|]. rewrite Ht'. cbn. rewrite Ht, u64_add_l, length_app. f_equal. lia.
Qed.

Lemma streamed_updates s data parts :
  streamed s data -> streamed (foldl update s parts) (data ++ concat parts).
Proof.
  revert s data. induction parts as [|p parts IH]; intros s data Hs; [by rewrite app_nil_r|].
  cbn [foldl concat]. rewrite app_assoc. by apply IH, streamed_update.
Qed.

Lemma write_at_end off bytes l :
  (off + length bytes = length l)%nat -> write_at off bytes l = take off l ++ bytes.
Proof.
  intros Hl. unfold write_at. by rewrite drop_ge, app_nil_r by lia.
Qed.

Lemma fill_to off n l :
  (off <= n <= length l)%nat ->
  take n (write_at off (replicate (n - off) 0) l) = take off l ++ replicate (n - off) 0.
Proof.
  intros Hn. pose proof (take_write_at off (replicate (n - off) 0) l ltac:(lia)) as H.
  rewrite length_replicate in H. by replace (off + (n - off))%nat with n in H by lia.
Qed.

(** The padding of a message whose last block holds [n] bytes. *)
Lemma pad_length n : (n < 64)%nat ->
  ((119 - n) `mod` 64 = if (56 <? S n) then 119 - n else 55 - n)%nat.
Proof.
  intros Hn. destruct (Nat.ltb_spec 56 (S n)).
  - apply Nat.mod_small. lia.
  - replace (119 - n)%nat with (55 - n + 1 * 64)%nat by lia.
    rewrite Nat.Div0.mod_add. apply Nat.mod_small. lia.
Qed.

Lemma foldl_blocks m k whole tail :
  length whole = (64 * m)%nat -> length tail = (64 * k)%nat ->
  foldl compress sha256_iv (blocks (length (whole ++ tail) / 64) (whole ++ tail)) =
  foldl compress (foldl compress sha256_iv (blocks m whole)) (blocks k tail).
Proof.
  intros Hw Ht. rewrite length_app, Hw, Ht.
  replace (64 * m + 64 * k)%nat with ((m + k) * 64)%nat by lia.
  by rewrite Nat.div_mul, blocks_app, foldl_app by done.
Qed.

Definition length_bytes (data : list Z) : list Z := be_enc 8 (u64 (Z.of_nat (length data) * 8)).

Lemma pad_split m n whole rest :
  length whole = (64 * m)%nat -> length rest = n -> (n < 64)%nat ->
  pad (whole ++ rest) = whole ++ rest ++ [0x80] ++
    replicate (if (56 <? S n)%nat then 119 - n else 55 - n)%nat 0 ++ length_bytes (whole ++ rest).
Proof.
  intros Hw Hr Hn. unfold pad. rewrite <-app_assoc. do 3 f_equal.
  rewrite <-pad_length by done. do 2 f_equal.
  replace (length (whole ++ rest)) with (n + m * 64)%nat by (rewrite length_app; lia).
  by rewrite Nat.Div0.mod_add, (Nat.mod_small n) by lia.
Qed.

(** The one or two blocks the padding completes. *)
Lemma spec_short m n whole rest :
  length whole = (64 * m)%nat -> length rest = n -> (S n <= 56)%nat ->
  sha256_spec (whole ++ rest) = digest (compress (foldl compress sha256_iv (blocks m whole))
    ((rest ++ [0x80] ++ replicate (56 - S n) 0) ++ length_bytes (whole ++ rest))).
Proof.
  intros Hw Hr Hn. unfold sha256_spec. rewrite (pad_split m n) by (done || lia).
  assert ((56 <? S n)%nat = false) as -> by (apply Nat.ltb_ge; lia).
  assert (Hl : length (length_bytes (whole ++ rest)) = 8%nat) by apply be_enc_length.
  rewrite (foldl_blocks m 1); [|done|rewrite !length_app, length_replicate; simpl; lia].
  cbn [blocks foldl]. rewrite take_ge by (rewrite !length_app, length_replicate; simpl; lia).
  rewrite <-!app_assoc. done.
Qed.

Lemma spec_long m n whole rest :
  length whole = (64 * m)%nat -> length rest = n -> (n < 64)%nat -> (56 < S n)%nat ->
  sha256_spec (whole ++ rest) = digest (compress (compress (foldl compress sha256_iv (blocks m whole))
    (rest ++ [0x80] ++ replicate (64 - S n) 0))
    (replicate 56 0 ++ length_bytes (whole ++ rest))).
Proof.
  intros Hw Hr Hn H56. unfold sha256_spec. rewrite (pad_split m n) by (done || lia).
  assert ((56 <? S n)%nat = true) as -> by (apply Nat.ltb_lt; lia).
  assert (Hl : length (length_bytes (whole ++ rest)) = 8%nat) by apply be_enc_length.
  replace (119 - n)%nat with ((64 - S n) + 56)%nat by lia. rewrite replicate_add.
  set (lb := length_bytes _) in *.
  replace (rest ++ [0x80] ++ (replicate (64 - S n) 0 ++ replicate 56 0) ++ lb)
    with ((rest ++ [0x80] ++ replicate (64 - S n) 0) ++ replicate 56 0 ++ lb)
    by by rewrite <-!app_assoc.
  assert (Hfirst : length (rest ++ [0x80] ++ replicate (64 - S n) 0) = 64%nat)
    by (rewrite !length_app, length_replicate; simpl; lia).
  rewrite (foldl_blocks m 2);
    [|done|rewrite length_app, Hfirst, length_app, length_replicate; lia].
  cbn [blocks foldl]. rewrite take_app_le, take_ge, drop_app_ge, Hfirst by lia.
  cbn [Nat.sub]. rewrite drop_0, take_ge by (rewrite length_app, length_replicate; lia). done.
Qed.

Lemma finish_streamed s data : streamed s data -> finish s = sha256_spec data.
Proof.
  intros [(Hb & Hlt & m & whole & Hw & Hdata & Hs) Ht].
  set (n := buffered_ s) in *. set (rest := take n (buffer_ s)) in *.
  assert (Hrest : length rest = n) by (unfold rest; rewrite length_take; lia).
  assert (Htotal : be_enc 8 (u64 (total_bytes_ s * 8)) = length_bytes data).
  { unfold length_bytes. f_equal. rewrite Ht. apply Zmult_mod_idemp_l. }
  assert (Hl : length (length_bytes data) = 8%nat) by apply be_enc_length.
  set (marked := write_at n [0x80] (buffer_ s)).
  assert (Hmark : take (S n) marked = rest ++ [0x80]).
  { rewrite <-Nat.add_1_r. apply (take_write_at n [0x80]). lia. }
  assert (Hmlen : length marked = 64%nat) by (unfold marked; rewrite write_at_length; simpl; lia).
  unfold finish. rewrite Htotal. fold n. fold marked.
  destruct (Nat.ltb_spec 56 (S n)); cbv zeta.
  - (* two blocks: the padding does not fit behind the marker *)
    set (first := write_at (S n) (replicate (64 - S n) 0) marked).
    assert (first = rest ++ [0x80] ++ replicate (64 - S n) 0) as Hfirst.
    { unfold first. rewrite write_at_end, Hmark by (rewrite length_replicate; lia).
      by rewrite <-app_assoc. }
    assert (Hflen : length first = 64%nat) by (rewrite Hfirst, !length_app, length_replicate; simpl; lia).
    change (digest (compress (compress (state_ s) first)
      (write_at 56 (length_bytes data) (write_at 0 (replicate (56 - 0) 0) first))) = sha256_spec data).
    rewrite write_at_end by (rewrite Hl, write_at_length; [|rewrite length_replicate]; lia).
    rewrite (fill_to 0 56), take_0 by lia. rewrite Hdata, (spec_long m n) by (done || lia).
    rewrite Hs, Hfirst, <-Hdata. reflexivity.
  - change (digest (compress (state_ s)
      (write_at 56 (length_bytes data) (write_at (S n) (replicate (56 - S n) 0) marked))) = sha256_spec data).
    rewrite write_at_end by (rewrite Hl, write_at_length; [|rewrite length_replicate]; lia).
    rewrite (fill_to (S n) 56), Hmark by lia. rewrite Hdata, (spec_short m n) by (done || lia).
    rewrite Hs, <-Hdata, <-!app_assoc. reflexivity.
Qed.

Lemma finish_updates parts : finish (foldl update reset parts) = sha256_spec (concat parts).
Proof.
  apply finish_streamed. change (concat parts) with ([] ++ concat parts).
  apply streamed_updates. split; [apply holds_reset|done].
Qed.

Lemma sha256_eq data : sha256 data = sha256_spec data.
Proof. rewrite <-(app_nil_r data) at 2. apply (finish_updates [data]). Qed.

(** C25: feeding a message to the hash in any number of pieces, of any sizes, gives the
    hash of the whole message: the padded message folded block by block. *)
Theorem sha256_streaming parts :
  finish (foldl update reset parts) = sha256_spec (concat parts).
Proof. apply finish_updates. Qed.

(** * HMAC and HKDF *)

Definition hmac_spec (key data : list Z) : list Z :=
  let key := if (64 <? length key)%nat then sha256_spec key else key in
  let block := key ++ replicate (64 - length key) 0 in
  sha256_spec (((fun b => Z.lxor b 0x5c) <$> block) ++
    sha256_spec (((fun b => Z.lxor b 0x36) <$> block) ++ data)).

(** The blocks of the expansion: each covers the one before it, the context and its
    number. *)
Fixpoint hkdf_blocks (n : nat) (prk info previous : list Z) (counter : Z) : list (list Z) :=
  match n with
  | O => []
  | S n =>
      let block := hmac_spec prk (previous ++ info ++ [counter]) in
      block :: hkdf_blocks n prk info block (counter + 1)
  end.

Definition hkdf_spec (ikm salt info : list Z) (size : nat) : list Z :=
  take size (concat (hkdf_blocks 255 (hmac_spec salt ikm) info [] 1)).

Lemma compress_length state block : length state = 8%nat -> length (compress state block) = 8%nat.
Proof.
  intros Hl. do 8 (destruct state as [|? state]; [discriminate|]). destruct state; [|discriminate].
  unfold compress. by destruct (foldl _ _ _) as [[[[[[[]]]]]]].
Qed.

Lemma digest_length state : length state = 8%nat -> length (digest state) = 32%nat.
Proof.
  intros Hl. do 8 (destruct state as [|? state]; [discriminate|]). destruct state; [|discriminate].
  unfold digest. by rewrite !bind_cons, !length_app, !be_enc_length.
Qed.

Lemma foldl_compress_length state bs :
  length state = 8%nat -> length (foldl compress state bs) = 8%nat.
Proof.
  revert state. induction bs as [|b bs IH]; intros state Hs; [done|].
  cbn [foldl]. by apply IH, compress_length.
Qed.

Lemma sha256_spec_length data : length (sha256_spec data) = 32%nat.
Proof. by apply digest_length, foldl_compress_length. Qed.

Lemma hmac_spec_length key data : length (hmac_spec key data) = 32%nat.
Proof. apply sha256_spec_length. Qed.

Lemma finish_two a b : finish (update (update reset a) b) = sha256_spec (a ++ b).
Proof. rewrite <-(app_nil_r b) at 2. apply (finish_updates [a; b]). Qed.

Lemma hmac_eq key data : hmac_sha256 key data = hmac_spec key data.
Proof.
  assert (Hkey : normalize_key key =
    let key := if (64 <? length key)%nat then sha256_spec key else key in
    key ++ replicate (64 - length key) 0).
  { unfold normalize_key, write_at. rewrite sha256_eq.
    destruct (Nat.ltb_spec 64 (length key)); cbn [take app Nat.add];
      by rewrite take_0, drop_replicate. }
  unfold hmac_sha256, hmac_spec. rewrite Hkey. cbv zeta.
  by rewrite !finish_two.
Qed.

Lemma expand_loop_eq n fuel prk info previous counter size output :
  (n < fuel)%nat -> 0 < counter -> counter + Z.of_nat n <= 256 ->
  (length output <= size <= length output + 32 * n)%nat ->
  expand_loop fuel prk info previous (u8 counter) size output =
  Some (take size (output ++ concat (hkdf_blocks n prk info previous counter))).
Proof.
  revert fuel previous counter output.
  induction n as [|n IH]; intros fuel previous counter output Hfuel Hc Hlast Hsize;
    (destruct fuel as [|fuel]; [lia|]); cbn [expand_loop hkdf_blocks concat].
  { assert ((length output <? size)%nat = false) as -> by (apply Nat.ltb_ge; lia).
    by rewrite app_nil_r, take_ge by lia. }
  destruct (Nat.ltb_spec (length output) size).
  2: { f_equal. rewrite take_app_le, take_ge by lia. done. }
  rewrite hmac_eq, (u8_small counter) by lia. set (block := hmac_spec _ _).
  assert (Hb : length block = 32%nat) by apply hmac_spec_length.
  rewrite IH by (rewrite ?length_app, ?length_take; lia).
  f_equal. rewrite Hb. set (rest := concat _).
  destruct (Nat.le_gt_cases 32 (size - length output)).
  - by rewrite Nat.min_l, (take_ge block), <-app_assoc by lia.
  - rewrite Nat.min_r by lia. rewrite !take_app.
    replace (size - length (output ++ take (size - length output) block))%nat with 0%nat
      by (rewrite length_app, length_take; lia).
    replace (size - length output - length block)%nat with 0%nat by lia.
    rewrite !take_0, !app_nil_r. by rewrite take_take, Nat.min_id.
Qed.

Lemma hkdf_eq ikm salt info size :
  (size <= 255 * 32)%nat -> hkdf_sha256 ikm salt info size = Some (hkdf_spec ikm salt info size).
Proof.
  intros Hs. unfold hkdf_sha256, hkdf_spec.
  assert ((255 * 32 <? size)%nat = false) as -> by by apply Nat.ltb_ge.
  rewrite hmac_eq. change 1 with (u8 1) at 1. by rewrite (expand_loop_eq 255) by (simpl length; lia).
Qed.

(** A shorter output is a prefix of a longer one. *)
Lemma hkdf_spec_prefix ikm salt info n m :
  (n <= m)%nat -> hkdf_spec ikm salt info n = take n (hkdf_spec ikm salt info m).
Proof. intros. unfold hkdf_spec. by rewrite take_take, Nat.min_l by lia. Qed.

Lemma hkdf_blocks_length n prk info previous counter :
  length (concat (hkdf_blocks n prk info previous counter)) = (32 * n)%nat.
Proof.
  revert previous counter. induction n as [|n IH]; intros previous counter; [done|].
  cbn [hkdf_blocks concat]. rewrite length_app, hmac_spec_length, IH. lia.
Qed.

Lemma hkdf_spec_length ikm salt info n :
  (n <= 255 * 32)%nat -> length (hkdf_spec ikm salt info n) = n.
Proof. intros. unfold hkdf_spec. rewrite length_take, hkdf_blocks_length. lia. Qed.

(** the key derivation delivers exactly the requested number of bytes of the
    HKDF expansion (each block an HMAC over the one before it, the context and its
    number) for every size it accepts, and refuses the others. *)
Lemma hkdf_sha256_expands ikm salt info size :
  match hkdf_sha256 ikm salt info size with
  | Some output =>
      (size <= 255 * 32)%nat /\ length output = size /\
      output = take size (concat (hkdf_blocks 255 (hmac_spec salt ikm) info [] 1))
  | None => (255 * 32 < size)%nat
  end.
Proof.
  destruct (Nat.le_gt_cases size (255 * 32)) as [Hs|Hs].
  - rewrite hkdf_eq by done. split_and!; [done|by apply hkdf_spec_length|done].
  - unfold hkdf_sha256. by assert ((255 * 32 <? size)%nat = true) as -> by by apply Nat.ltb_lt.
Qed.
