(* ===== verification/Posix.v ===== *)
(** The file system calls the daemon's private records go through, and the two
    transfer loops every record format repeats.  Which calls fail, are interrupted
    or transfer less than was asked is the operating system's choice, a parameter
    of the model ([OperatingSystem]); what a call that succeeds does to the files
    is POSIX.  The world keeps every state the files went through, so a theorem
    can speak of what another process, or a restarted daemon, may find. *)

From S2P Require Import Prelude.

Notation files_t := (gmap string (list Z)).

(** [Done n]: the call succeeds, and a transfer moves at most [n] bytes (never
    none, unless there are none); [Interrupted]: it reports EINTR; [Failed]: it
    reports another error. *)
Inductive outcome := Done (limit : Z) | Interrupted | Failed.

(** Outcomes and random bytes are indexed by the number of calls made before. *)
Class OperatingSystem := {
  outcome_of : nat -> outcome;
  random_of : nat -> nat -> Z;
  getpid : N;
}.

Record World := {
  w_files : files_t;
  w_calls : nat;
  w_trace : list files_t;
}.

Definition initial_world (files : files_t) : World := Build_World files 0 [].

(** A computation in the world; [None] is one that is still looping when its fuel
    is spent. *)
Definition io (A : Type) : Type := World -> option (A * World).

#[global] Instance io_ret : MRet io := fun A a w => Some (a, w).
#[global] Instance io_bind : MBind io := fun A B k m w =>
  match m w with Some (a, w') => k a w' | None => None end.

Definition io_diverge {A} : io A := fun _ => None.

Definition set_files (f : files_t) (w : World) : World :=
  Build_World f (w_calls w) (f :: w_trace w).

Definition get_files : io files_t := fun w => Some (w_files w, w).
Definition put_files (f : files_t) : io unit := fun w => Some (tt, set_files f w).

(** Bytes one transfer moves. *)
Definition transfer (limit : Z) (want : nat) : nat := Nat.min want (Z.to_nat (Z.max 1 limit)).

#[global] Arguments transfer : simpl never.

Inductive open_result := Opened (content : list Z) | Open_enoent | Open_error.
Inductive transfer_result := Moved (bytes : list Z) | Move_eintr | Move_error.

(** The position after the last slash of a path; 0 without one. *)
Fixpoint after_last_slash (path : string) (index best : nat) : nat :=
  match path with
  | EmptyString => best
  | String c path =>
      after_last_slash path (S index)
        (if Ascii.eqb c (Ascii.ascii_of_nat 47) then S index else best)
  end.

Section Calls.
Context `{OperatingSystem}.

Definition next : io outcome := fun w =>
  Some (outcome_of (w_calls w), Build_World (w_files w) (S (w_calls w)) (w_trace w)).

(** Any call whose only interesting result is whether it succeeded: close, fsync,
    fchmod, opening a directory, mkdir of a directory that may exist. *)
Definition sys_ok : io bool :=
  o ← next; mret (match o with Done _ => true | _ => false end).

(** Opening a directory only to sync it: nothing depends on which one it is. *)
Definition sys_open_directory (path : string) : io bool := sys_ok.

Definition sys_open_read (path : string) : io open_result :=
  o ← next; f ← get_files;
  mret (match o, f !! path with
        | Done _, Some content => Opened content
        | Done _, None => Open_enoent
        | _, _ => Open_error
        end).

(** O_CREAT with O_TRUNC, or with O_EXCL. *)
Definition sys_open_write (exclusive : bool) (path : string) : io bool :=
  o ← next; f ← get_files;
  match o with
  | Done _ =>
      if exclusive && bool_decide (is_Some (f !! path)) then mret false
      else (_ ← put_files (<[path := []]> f); mret true)
  | _ => mret false
  end.

Definition sys_read (content : list Z) (offset want : nat) : io transfer_result :=
  o ← next;
  mret (match o with
        | Done limit => Moved (slice offset (transfer limit want) content)
        | Interrupted => Move_eintr
        | Failed => Move_error
        end).

Definition sys_write (path : string) (bytes : list Z) : io transfer_result :=
  o ← next; f ← get_files;
  match o with
  | Done limit =>
      let moved := take (transfer limit (length bytes)) bytes in
      _ ← put_files (<[path := default [] (f !! path) ++ moved]> f); mret (Moved moved)
  | Interrupted => mret Move_eintr
  | Failed => mret Move_error
  end.

(** getrandom, and read on the random device. *)
Definition sys_random (want : nat) : io transfer_result := fun w =>
  (o ← next;
   mret (match o with
         | Done limit => Moved ((fun i => u8 (random_of (w_calls w) i)) <$> seq 0 (transfer limit want))
         | Interrupted => Move_eintr
         | Failed => Move_error
         end)) w.

Definition sys_unlink (path : string) : io unit :=
  o ← next; f ← get_files;
  match o with Done _ => put_files (delete path f) | _ => mret tt end.

Definition sys_rename (from to : string) : io bool :=
  o ← next; f ← get_files;
  match o, f !! from with
  | Done _, Some content => _ ← put_files (<[to := content]> (delete from f)); mret true
  | _, _ => mret false
  end.

(** Both conditions of an [a && b], the second only when the first holds. *)
Definition io_and (a b : io bool) : io bool := r ← a; if (r : bool) then b else mret false.

(** * The transfer loops *)

(** The bytes read so far in [used]; stops at [size], at the end and on errors. *)

(** src/runtime_control.cpp:82-95 [read_exact_record] *)
Fixpoint read_loop (fuel : nat) (content : list Z) (size : nat) (used : list Z) : io (list Z) :=
  match fuel with
  | O => io_diverge
  | S fuel =>
      if (length used <? size)%nat then
        count ← sys_read content (length used) (size - length used);
        match count with
        | Moved [] | Move_error => mret used
        | Moved bytes => read_loop fuel content size (used ++ bytes)
        | Move_eintr => read_loop fuel content size used
        end
      else mret used
  end.

(** src/runtime_control.cpp:176-191 [write_record] *)
Fixpoint write_loop (fuel : nat) (path : string) (data : list Z) : io bool :=
  match fuel with
  | O => io_diverge
  | S fuel =>
      match data with
      | [] => mret true
      | _ :: _ =>
          count ← sys_write path data;
          match count with
          | Moved [] | Move_error => mret false
          | Moved bytes => write_loop fuel path (drop (length bytes) data)
          | Move_eintr => write_loop fuel path data
          end
      end
  end.

(** src/runtime_profile.cpp:249-260 [fill_random] *)
Fixpoint random_loop (fuel : nat) (size : nat) (output : list Z) : io (list Z) :=
  match fuel with
  | O => io_diverge
  | S fuel =>
      if (length output <? size)%nat then
        count ← sys_random (size - length output);
        match count with
        | Moved [] | Move_error => mret output
        | Moved bytes => random_loop fuel size (output ++ bytes)
        | Move_eintr => random_loop fuel size output
        end
      else mret output
  end.

End Calls.

(** * Reasoning about computations

    [wp d m Q w]: if [m] returns from [w], the result satisfies [Q]; with [d]
    false it also returns. *)

Definition wp (d : Prop) {A} (m : io A) (Q : A -> World -> Prop) (w : World) : Prop :=
  match m w with Some (a, w') => Q a w' | None => d end.

Lemma wp_ret d {A} (a : A) Q w : Q a w -> wp d (mret a) Q w.
Proof. done. Qed.

Lemma wp_bind d {A B} (m : io A) (k : A -> io B) Q w :
  wp d m (fun a w' => wp d (k a) Q w') w -> wp d (a ← m; k a) Q w.
Proof. unfold wp, mbind, io_bind. intros Hm. destruct (m w) as [[a w0]|]; exact Hm. Qed.

Lemma wp_mono d {A} (m : io A) (Q Q' : A -> World -> Prop) w :
  wp d m Q w -> (forall a w', Q a w' -> Q' a w') -> wp d m Q' w.
Proof. unfold wp. intros Hm HQ. destruct (m w) as [[a w0]|]; [by apply HQ|exact Hm]. Qed.

Lemma wp_result {A} (m : io A) Q w a w' : wp True m Q w -> m w = Some (a, w') -> Q a w'.
Proof. unfold wp. intros H E. rewrite E in H. exact H. Qed.

Lemma wp_total {A} (m : io A) Q w : wp False m Q w -> exists a w', m w = Some (a, w') /\ Q a w'.
Proof. unfold wp. destruct (m w) as [[a w']|]; [eauto|done]. Qed.

(** The files and their history are as before. *)
Definition quiet (w w' : World) : Prop := w_files w' = w_files w /\ w_trace w' = w_trace w.

#[global] Instance quiet_preorder : PreOrder quiet.
Proof. split; [done|]. intros x y z [] []. split; congruence. Qed.

(** Every state the files go through from [w] to [w'] satisfies [G]. *)
Definition evolves (G : files_t -> Prop) (w w' : World) : Prop :=
  G (w_files w') /\ exists steps, w_trace w' = steps ++ w_trace w /\ Forall G steps.

Lemma evolves_refl G w : G (w_files w) -> evolves G w w.
Proof. intros. split; [done|]. by exists []. Qed.

Lemma evolves_trans G x y z : evolves G x y -> evolves G y z -> evolves G x z.
Proof.
  intros [_ [l [Hl Fl]]] [Gz [k [Hk Fk]]]. split; [done|]. exists (k ++ l).
  rewrite Hk, Hl, app_assoc. split; [done|]. by apply Forall_app.
Qed.

Lemma evolves_quiet G x y z : evolves G x y -> quiet y z -> evolves G x z.
Proof. intros [Gy H] [Hf Ht]. split; by rewrite ?Hf, ?Ht. Qed.

Lemma quiet_evolves G x y z : quiet x y -> evolves G y z -> evolves G x z.
Proof. intros [_ Ht] [Gz H]. split; [done|]. by rewrite <-Ht. Qed.

Lemma evolves_mono (G G' : files_t -> Prop) x y :
  (forall f, G f -> G' f) -> evolves G x y -> evolves G' x y.
Proof.
  intros HG [Gy [l [Hl Fl]]]. split; [auto|]. exists l. split; [done|]. by eapply Forall_impl.
Qed.

Lemma evolves_set (G : files_t -> Prop) w0 w f : evolves G w0 w -> G f -> evolves G w0 (set_files f w).
Proof.
  intros [_ [l [Hl Fl]]] Hf. split; [done|]. exists (f :: l). simpl. rewrite Hl.
  split; [done|]. by constructor.
Qed.

Section Reasoning.
Context `{OperatingSystem}.
Context (d : Prop).

(** What each call does, in the form the proofs below use. *)
Lemma wp_next Q w :
  (forall w', quiet w w' -> w_calls w' = S (w_calls w) -> Q (outcome_of (w_calls w)) w') ->
  wp d next Q w.
Proof. intros HQ. by apply HQ. Qed.

Lemma wp_sys_ok Q w : (forall b w', quiet w w' -> Q b w') -> wp d sys_ok Q w.
Proof. intros HQ. by apply HQ. Qed.

Lemma wp_open_read path Q w :
  (forall r w', quiet w w' ->
    match r with
    | Opened content => w_files w !! path = Some content
    | Open_enoent => w_files w !! path = None
    | Open_error => True
    end -> Q r w') ->
  wp d (sys_open_read path) Q w.
Proof.
  intros HQ. apply wp_bind, wp_next. intros w' Hq _. apply wp_bind. cbn.
  apply HQ; [done|]. destruct Hq as [-> _].
  destruct (outcome_of (w_calls w)); [|done..]. by destruct (w_files w !! path).
Qed.

Lemma wp_open_write exclusive path (Q : bool -> World -> Prop) w :
  (forall w', quiet w w' -> Q true (set_files (<[path := []]> (w_files w)) w')) ->
  (forall w', quiet w w' -> Q false w') ->
  wp d (sys_open_write exclusive path) Q w.
Proof.
  intros Ht Hf. apply wp_bind, wp_next. intros w' Hq _. apply wp_bind. cbn.
  destruct (outcome_of (w_calls w)); [|by apply Hf..].
  destruct (exclusive && _); [by apply Hf|].
  unfold wp, mbind, io_bind, put_files. cbn.
  pose proof Hq as [-> _]. by apply (Ht w').
Qed.

Lemma wp_unlink path (Q : unit -> World -> Prop) w :
  (forall w', quiet w w' -> Q tt (set_files (delete path (w_files w)) w')) ->
  (forall w', quiet w w' -> Q tt w') ->
  wp d (sys_unlink path) Q w.
Proof.
  intros Ht Hf. apply wp_bind, wp_next. intros w' Hq _. apply wp_bind. cbn.
  destruct (outcome_of (w_calls w)); [|by apply Hf..]. unfold wp, put_files.
  pose proof Hq as [-> _]. by apply (Ht w').
Qed.

Lemma wp_rename from to (Q : bool -> World -> Prop) w :
  (forall w' content, quiet w w' -> w_files w !! from = Some content ->
     Q true (set_files (<[to := content]> (delete from (w_files w))) w')) ->
  (forall w', quiet w w' -> Q false w') ->
  wp d (sys_rename from to) Q w.
Proof.
  intros Ht Hf. apply wp_bind, wp_next. intros w' Hq _. apply wp_bind. cbn.
  destruct (outcome_of (w_calls w)); [|by apply Hf..].
  destruct (w_files w' !! from) as [content|] eqn:E; [|by apply Hf].
  unfold wp, mbind, io_bind, put_files. cbn.
  pose proof Hq as [Hfiles _]. rewrite Hfiles in E |- *. by apply (Ht w' content).
Qed.

Lemma wp_io_and a b Q w :
  wp d a (fun r w' => if (r : bool) then wp d b Q w' else Q false w') w -> wp d (io_and a b) Q w.
Proof. intros Hw. apply wp_bind. eapply wp_mono; [exact Hw|]. intros [] w' Hq; exact Hq. Qed.

End Reasoning.

(** * The loops *)

(** Among any [B] consecutive calls one is not interrupted. *)
Definition responsive `{OperatingSystem} (B : nat) : Prop :=
  forall n, exists i, (i < B)%nat /\ outcome_of (n + i) <> Interrupted.

Section Loops.
Context `{OperatingSystem}.
Context (d : Prop) (B : nat).

(** Fuel for a transfer of [n] bytes from world [w]: [s] bounds the interrupted
    calls before the next effective one. *)
Definition budget (fuel s n : nat) (w : World) : Prop :=
  d \/ responsive B /\ (exists i, (i < s)%nat /\ outcome_of (w_calls w + i) <> Interrupted) /\
       (s + B * n <= fuel)%nat.

Lemma budget_start fuel n w :
  d \/ responsive B /\ (B * S n <= fuel)%nat -> budget fuel B n w.
Proof. intros [?|[HB Hf]]; [by left|]. right. split_and!; [done|apply HB|lia]. Qed.

Lemma budget_zero s n w : budget 0 s n w -> d.
Proof. intros [?|(_ & (i & Hi & _) & Hf)]; [done|lia]. Qed.

Lemma budget_interrupted fuel s n w w' :
  budget (S fuel) s n w -> w_calls w' = S (w_calls w) ->
  outcome_of (w_calls w) = Interrupted -> budget fuel (s - 1) n w'.
Proof.
  intros [?|(HB & (i & Hi & Ho) & Hf)] Hw E; [by left|right].
  destruct i as [|i]; [by rewrite Nat.add_0_r in Ho|].
  split_and!; [done| |lia]. exists i. split; [lia|]. rewrite Hw.
  by replace (S (w_calls w) + i)%nat with (w_calls w + S i)%nat by lia.
Qed.

Lemma budget_progress fuel s n n' w w' :
  budget (S fuel) s n w -> (n' < n)%nat -> budget fuel B n' w'.
Proof.
  intros [?|(HB & (i & Hi & _) & Hf)] Hn; [by left|right].
  split_and!; [done|apply HB|nia].
Qed.

Lemma transfer_pos limit want : (0 < want)%nat -> (0 < transfer limit want <= want)%nat.
Proof. unfold transfer. lia. Qed.

(** What was read is a prefix of the file, and the read stops early only at its end
    or on an error. *)
Lemma wp_read_loop fuel s content size n (Q : list Z -> World -> Prop) w :
  (n <= size)%nat -> (n <= length content)%nat -> budget fuel s (size - n) w ->
  (forall m w', quiet w w' -> (n <= m <= size)%nat -> (m <= length content)%nat ->
     Q (take m content) w') ->
  wp d (read_loop fuel content size (take n content)) Q w.
Proof.
  revert s n w. induction fuel as [|fuel IH]; intros s n w Hn Hc Hb HQ.
  { by apply budget_zero in Hb. }
  simpl. rewrite length_take_le by done.
  destruct (Nat.ltb_spec n size); [|by apply HQ].
  apply wp_bind, wp_bind, wp_next. intros w' Hq Hcalls. cbn.
  destruct (outcome_of (w_calls w)) as [limit| |] eqn:E; cbn.
  - destruct (transfer_pos limit (size - n) ltac:(lia)) as [Hpos Hle].
    set (k := transfer limit (size - n)) in *.
    destruct (slice n k content) as [|b bs] eqn:Es; [by apply HQ|].
    assert (n < length content)%nat.
    { apply (f_equal length) in Es. unfold slice in Es.
      rewrite length_take, length_drop in Es. simpl in Es. lia. }
    assert (take n content ++ b :: bs = take (Nat.min (n + k) (length content)) content) as ->.
    { rewrite <-Es. unfold slice. by rewrite take_take_drop, <-take_take, firstn_all. }
    apply (IH B); [lia|lia|by eapply budget_progress; [exact Hb|lia]|].
    intros m w'' Hq' Hm Hl. apply HQ; [by transitivity w'|lia|lia].
  - apply (IH (s - 1)%nat); [done..|by eapply budget_interrupted|].
    intros m w'' Hq' Hm Hl. apply HQ; [by transitivity w'|lia|lia].
  - by apply HQ.
Qed.

(** Every state of the file being written satisfies what the caller maintains, and
    success means that all of the data is there. *)
Lemma wp_write_loop fuel s path done_bytes data (G : files_t -> Prop) w0 (Q : bool -> World -> Prop) w :
  (forall f c, G f -> G (<[path := c]> f)) ->
  evolves G w0 w -> w_files w !! path = Some done_bytes -> budget fuel s (length data) w ->
  (forall b w', evolves G w0 w' ->
     (b = true -> w_files w' !! path = Some (done_bytes ++ data)) -> Q b w') ->
  wp d (write_loop fuel path data) Q w.
Proof.
  intros HG. revert s done_bytes data w.
  induction fuel as [|fuel IH]; intros s bs data w Hev Hp Hb HQ.
  { by apply budget_zero in Hb. }
  destruct data as [|x data]; simpl.
  { apply HQ; [done|]. intros _. by rewrite app_nil_r. }
  apply wp_bind, wp_bind, wp_next. intros w' Hq Hcalls. apply wp_bind. cbn.
  destruct (outcome_of (w_calls w)) as [limit| |] eqn:E.
  - destruct (transfer_pos limit (length (x :: data)) (Nat.lt_0_succ _)) as [Hpos Hle].
    set (k := transfer _ _) in *. clearbody k. cbn [length] in Hle. apply wp_bind. unfold wp at 1, put_files. cbn.
    destruct k as [|k]; [lia|]. cbn. rewrite length_take_le by lia.
    pose proof Hq as [Hf _]. rewrite Hf, Hp. cbn.
    apply (IH B (bs ++ x :: take k data) (drop k data)).
    + apply evolves_set; [by eapply evolves_quiet|]. apply HG, Hev.
    + apply lookup_insert_eq.
    + eapply budget_progress; [done|]. rewrite length_drop. simpl. lia.
    + intros b w'' Hev' Hd. apply HQ; [done|]. intros Hbt. rewrite (Hd Hbt).
      by rewrite <-app_assoc, <-app_comm_cons, take_drop.
  - apply (IH (s - 1)%nat bs (x :: data)); [by eapply evolves_quiet| |by eapply budget_interrupted|done].
    by destruct Hq as [-> _].
  - apply HQ; [by eapply evolves_quiet|done].
Qed.

Lemma wp_random_loop fuel s size output (Q : list Z -> World -> Prop) w :
  (length output <= size)%nat -> bytes_ok output -> budget fuel s (size - length output) w ->
  (forall out w', quiet w w' -> bytes_ok out -> (length out <= size)%nat -> Q out w') ->
  wp d (random_loop fuel size output) Q w.
Proof.
  revert s output w. induction fuel as [|fuel IH]; intros s output w Hn Hok Hb HQ.
  { by apply budget_zero in Hb. }
  simpl. destruct (Nat.ltb_spec (length output) size); [|by apply HQ].
  apply wp_bind. unfold sys_random, wp at 1, mbind at 1, io_bind at 1. cbn [next mret io_ret].
  set (w' := Build_World _ _ _). assert (Hq : quiet w w') by done.
  destruct (outcome_of (w_calls w)) as [limit| |] eqn:E; cbn.
  - destruct (transfer_pos limit (size - length output) ltac:(lia)) as [Hpos Hle].
    set (k := transfer limit _) in *. set (bytes := _ <$> seq 0 k).
    assert (Hlen : length bytes = k) by (by unfold bytes; rewrite length_fmap, length_seq).
    assert (Hbytes : bytes_ok bytes).
    { apply Forall_fmap, Forall_true. intros i. unfold byte_ok. cbn. pose proof (u8_range (random_of (w_calls w) i)). lia. }
    destruct bytes as [|b bytes]; [simpl in Hlen; lia|].
    apply (IH B).
    + rewrite length_app, Hlen. lia.
    + by apply bytes_ok_app.
    + eapply budget_progress; [done|]. rewrite length_app, Hlen. lia.
    + intros out w'' Hq' Ho Hl. apply HQ; [by transitivity w'|done..].
  - apply (IH (s - 1)%nat); [done..|by eapply budget_interrupted|].
    intros out w'' Hq' Ho Hl. apply HQ; [by transitivity w'|done..].
  - by apply HQ.
Qed.

End Loops.

(** * A concrete system

    It moves at most 20 bytes per call and interrupts the sixth call. *)

Definition sample_system : OperatingSystem := {|
  outcome_of n := if Nat.eqb n 5 then Interrupted else Done 20;
  random_of n i := Z.of_nat (7 * n + i);
  getpid := 321 |}.

Lemma sample_responsive : @responsive sample_system 2.
Proof.
  intros n. destruct (decide (n = 5%nat)) as [-> | Hn].
  - exists 1%nat. split; [lia|discriminate].
  - exists 0%nat. split; [lia|]. rewrite Nat.add_0_r. cbn.
    by rewrite (proj2 (Nat.eqb_neq n 5) Hn).
Qed.

Definition world_after {A} (m : option (A * World)) : World :=
  match m with Some (_, w) => w | None => initial_world ∅ end.
