(* ===== verification/AtomicFile.v ===== *)
(** Replacing a file by writing a temporary one and renaming it, as every writer of
    the daemon does: what the others can see at any moment, and what is left after
    a failure.  The writers instantiate these lemmas with their own call order. *)

From S2P Require Import Prelude Posix.

(** The states a replacement of [path] by [content] may go through: the old file or
    the complete new one, everything but the temporary file as it was. *)
Definition replacing (path tmp : string) (content : list Z) (old f : files_t) : Prop :=
  (f !! path = old !! path \/ f !! path = Some content) /\
  forall p, p <> path -> p <> tmp -> f !! p = old !! p.

(** The files other than the temporary one are as they were. *)
Definition spared (tmp : string) (old f : files_t) : Prop :=
  forall p, p <> tmp -> f !! p = old !! p.

(** What a write of [path] may have done when it reports [err]. *)
Definition write_result (path tmp : string) (new : list Z) (w : World) (err : KModErr) (w' : World)
    : Prop :=
  evolves (replacing path tmp new (w_files w)) w w' /\
  (err = OK -> w_files w' = <[path := new]> (delete tmp (w_files w))) /\
  (err <> OK -> err = ERR_MODULE_STORAGE_WRITE /\ w_files w' !! path = w_files w !! path).

Lemma app_ne (s : string) c t : s <> s +:+ String c t.
Proof. induction s as [|a s IH]; [done|]. intros [=]. by apply IH. Qed.

Lemma spared_insert tmp old f c : spared tmp old f -> spared tmp old (<[tmp := c]> f).
Proof. intros Hf p Hp. rewrite lookup_insert_ne by done. by apply Hf. Qed.

Lemma spared_delete tmp old f : spared tmp old f -> spared tmp old (delete tmp f).
Proof. intros Hf p Hp. rewrite lookup_delete_ne by done. by apply Hf. Qed.

Section Replacing.
Context (path tmp : string) (Htmp : path <> tmp).

Lemma spared_replacing new old f : spared tmp old f -> replacing path tmp new old f.
Proof. intros Hf. split; [left; by apply Hf|]. intros p _ Hp. by apply Hf. Qed.

Lemma write_failed new w w' :
  evolves (spared tmp (w_files w)) w w' ->
  write_result path tmp new w ERR_MODULE_STORAGE_WRITE w'.
Proof.
  intros Hev. split_and!; [|done|].
  - eapply evolves_mono; [|exact Hev]. intros f. apply spared_replacing.
  - intros _. split; [done|]. by apply Hev.
Qed.

Lemma write_result_quiet new w err w2 w3 :
  write_result path tmp new w err w2 -> quiet w2 w3 -> write_result path tmp new w err w3.
Proof.
  intros (Hev & Hok & Herr) Hq. split_and!; [by eapply evolves_quiet|..];
    destruct Hq as [-> _]; done.
Qed.

(** The rename of the complete temporary file. *)
Lemma renamed_ok new w w2 w3 :
  evolves (spared tmp (w_files w)) w w2 -> quiet w2 w3 ->
  write_result path tmp new w OK
    (set_files (<[path := new]> (delete tmp (w_files w2))) w3).
Proof.
  intros Hev Hq. destruct (Hev) as [Hs _].
  assert (Hfinal : <[path := new]> (delete tmp (w_files w2)) = <[path := new]> (delete tmp (w_files w))).
  { apply map_eq. intros p. destruct (decide (p = path)) as [->|]; [by rewrite !lookup_insert_eq|].
    rewrite !lookup_insert_ne by done.
    destruct (decide (p = tmp)) as [->|]; [by rewrite !lookup_delete_eq|].
    rewrite !lookup_delete_ne by done. by apply Hs. }
  rewrite Hfinal. split_and!; [|done..].
  apply evolves_set.
  - eapply evolves_mono; [intros f; apply spared_replacing|]. by eapply evolves_quiet.
  - split; [right; apply lookup_insert_eq|]. intros p Hp Hp'.
    by rewrite lookup_insert_ne, lookup_delete_ne by done.
Qed.

Context `{OperatingSystem}.
Context (d : Prop) (B fuel : nat).

(** Either the results are only claimed when the loops end, or the fuel is enough
    for [n] bytes on a responsive system. *)
Definition enough (n : nat) : Prop := d \/ responsive B /\ (B * S n <= fuel)%nat.

Lemma wp_discard new w w2 :
  evolves (spared tmp (w_files w)) w w2 ->
  wp d (_ ← sys_unlink tmp; mret ERR_MODULE_STORAGE_WRITE) (write_result path tmp new w) w2.
Proof.
  intros Hev. apply wp_bind. apply wp_unlink; intros w3 Hq; apply wp_ret, write_failed.
  - apply evolves_set; [by eapply evolves_quiet|]. apply spared_delete, Hev.
  - by eapply evolves_quiet.
Qed.

(** The rename, unless something before it failed, and the sync of the directory. *)
Lemma wp_commit new directory (blocked : bool) w w2 :
  evolves (spared tmp (w_files w)) w w2 -> w_files w2 !! tmp = Some new ->
  wp d (renamed ← (if blocked then mret false else sys_rename tmp path);
        if negb renamed then _ ← sys_unlink tmp; mret ERR_MODULE_STORAGE_WRITE
        else dir_fd ← sys_open_directory directory;
             (if (dir_fd : bool) then _ ← sys_ok; _ ← sys_ok; mret OK else mret OK))
    (write_result path tmp new w) w2.
Proof.
  intros Hev Hnew. apply wp_bind. destruct blocked; [by apply wp_discard|].
  apply wp_rename; [|intros w5 Hq5; apply wp_discard; by eapply evolves_quiet].
  intros w5 content Hq5 Hcontent. rewrite Hnew in Hcontent. injection Hcontent as <-.
  pose proof (renamed_ok new w w2 w5 Hev Hq5) as Hdone.
  apply wp_bind, wp_sys_ok. intros [] w6 Hq6; [|apply wp_ret; by eapply write_result_quiet].
  apply wp_bind, wp_sys_ok. intros _ w7 Hq7. apply wp_bind, wp_sys_ok. intros _ w8 Hq8.
  apply wp_ret. do 3 (eapply write_result_quiet; [|eassumption]). done.
Qed.

(** Creating and filling the temporary file; [after] is what the writer does then. *)
Lemma wp_fill new exclusive (after : bool -> io KModErr) w w0 :
  enough (length new) -> quiet w w0 ->
  (forall w2, evolves (spared tmp (w_files w)) w w2 -> w_files w2 !! tmp = Some new ->
     wp d (after true) (write_result path tmp new w) w2) ->
  (forall w2, evolves (spared tmp (w_files w)) w w2 ->
     wp d (after false) (write_result path tmp new w) w2) ->
  wp d (fd ← sys_open_write exclusive tmp;
        if negb fd then mret ERR_MODULE_STORAGE_WRITE
        else written ← write_loop fuel tmp new; after written)
    (write_result path tmp new w) w0.
Proof.
  intros Hfuel Hq0 Hafter Hfailed. destruct (Hq0) as [Hf0 _].
  assert (Hev0 : evolves (spared tmp (w_files w)) w w0).
  { eapply evolves_quiet; [|done]. by apply evolves_refl. }
  apply wp_bind, wp_open_write.
  2: { intros w1 Hq. apply wp_ret, write_failed. by eapply evolves_quiet. }
  intros w1 Hq1. apply wp_bind. rewrite Hf0.
  eapply (wp_write_loop d B fuel B tmp [] new (spared tmp (w_files w)) w).
  - intros f c. apply spared_insert.
  - apply evolves_set; [by eapply evolves_quiet|]. by apply spared_insert.
  - apply lookup_insert_eq.
  - by apply budget_start.
  - intros [] w2 H2 Hdone; [apply Hafter; [done|by apply Hdone]|by apply Hfailed].
Qed.

End Replacing.
