(* ===== verification/Records.v ===== *)
(** The on-disk and on-wire records of the daemon: C structs of little-endian
    words and byte arrays, written and read as the bytes of the object. *)

From S2P Require Import Prelude.

(** What a record type provides: its size, the bytes of an object, the object a
    buffer of that size holds, and the ranges its C types impose. *)
Class Layout (R : Type) := {
  size_of : nat;
  bytes_of : R -> list Z;
  of_bytes : list Z -> R;
  in_range : R -> Prop;
}.
Arguments size_of _ {_}.

Class LayoutLaws (R : Type) `{Layout R} : Prop := {
  bytes_of_length : forall r : R, in_range r -> length (bytes_of r) = size_of R;
  bytes_of_bytes_ok : forall r : R, in_range r -> bytes_ok (bytes_of r);
  of_bytes_bytes_of : forall r : R, in_range r -> of_bytes (bytes_of r) = r;
  bytes_of_of_bytes : forall l, length l = size_of R -> bytes_ok l -> bytes_of (of_bytes l : R) = l;
  of_bytes_in_range : forall l, length l = size_of R -> bytes_ok l -> in_range (of_bytes l : R);
}.

(** An unsigned field of [n] bytes. *)
Definition word_ok (n : nat) (z : Z) : Prop := 0 <= z < 256 ^ Z.of_nat n.

#[global] Instance word_ok_dec n z : Decision (word_ok n z).
Proof. unfold word_ok. apply _. Defined.

(** * Fields at an offset *)

Lemma slice_head {A} n (l r : list A) : length l = n -> slice 0 n (l ++ r) = l.
Proof. intros <-. unfold slice. by rewrite drop_0, take_app_length. Qed.

Lemma slice_app_r {A} off n (l r : list A) :
  (length l <= off)%nat -> slice off n (l ++ r) = slice (off - length l) n r.
Proof. intros. unfold slice. by rewrite drop_app_ge. Qed.

Lemma slice_join {A} off n m (l : list A) :
  slice off n l ++ slice (off + n) m l = slice off (n + m) l.
Proof. unfold slice. by rewrite <-drop_drop, take_take_drop. Qed.

Lemma slice_join_app {A} off n m (l k : list A) :
  slice off n l ++ slice (off + n) m l ++ k = slice off (n + m) l ++ k.
Proof. by rewrite app_assoc, slice_join. Qed.

Lemma slice_all {A} n (l : list A) : length l = n -> slice 0 n l = l.
Proof. intros <-. unfold slice. by rewrite drop_0, firstn_all. Qed.

Lemma bytes_ok_slice off n l : bytes_ok l -> bytes_ok (slice off n l).
Proof. intros. by apply bytes_ok_take, bytes_ok_drop. Qed.

Definition word_at (n off : nat) (l : list Z) : Z := le_dec (slice off n l).

Lemma enc_word_at n off l :
  (off + n <= length l)%nat -> bytes_ok l -> le_enc n (word_at n off l) = slice off n l.
Proof.
  intros Hl Hok. unfold word_at. rewrite <-(slice_length off n l Hl) at 1.
  apply le_enc_dec. by apply bytes_ok_slice.
Qed.

Lemma word_at_range n off l :
  (off + n <= length l)%nat -> bytes_ok l -> 0 <= word_at n off l < 256 ^ Z.of_nat n.
Proof.
  intros Hl Hok. pose proof (le_dec_range (slice off n l) (bytes_ok_slice _ _ _ Hok)) as H.
  by rewrite slice_length in H.
Qed.

Lemma dec_word n z r : 0 <= z < 256 ^ Z.of_nat n -> word_at n 0 (le_enc n z ++ r) = z.
Proof.
  intros Hz. unfold word_at. rewrite slice_head by apply le_enc_length.
  rewrite le_dec_enc. by apply Z.mod_small.
Qed.

(** Arrays of words. *)
Definition words_enc (n : nat) (ws : list Z) : list Z := ws ≫= le_enc n.
Definition words_at (n count off : nat) (l : list Z) : list Z :=
  (fun i => word_at n (off + n * i) l) <$> seq 0 count.

Lemma words_enc_length n ws : length (words_enc n ws) = (n * length ws)%nat.
Proof.
  unfold words_enc. induction ws as [|w ws IH]; [simpl; lia|].
  rewrite bind_cons, length_app, le_enc_length, IH. simpl. lia.
Qed.

Lemma words_enc_ok n ws : bytes_ok (words_enc n ws).
Proof. apply Forall_bind, Forall_true. intros w. apply le_enc_bytes_ok. Qed.

Lemma words_at_length n count off l : length (words_at n count off l) = count.
Proof. unfold words_at. by rewrite length_fmap, length_seq. Qed.

Lemma words_at_cons n count off l :
  words_at n (S count) off l = word_at n off l :: words_at n count (off + n) l.
Proof.
  unfold words_at. cbn [seq]. rewrite fmap_cons, <-fmap_S_seq, <-list_fmap_compose.
  f_equal; [f_equal; lia|]. apply list_fmap_ext. intros i x Hi. simpl. f_equal. lia.
Qed.

Lemma enc_words_at n count off l :
  (off + n * count <= length l)%nat -> bytes_ok l ->
  words_enc n (words_at n count off l) = slice off (n * count) l.
Proof.
  revert off. induction count as [|count IH]; intros off Hl Hok.
  { by rewrite Nat.mul_0_r. }
  rewrite words_at_cons. unfold words_enc. rewrite bind_cons, enc_word_at by (done || lia).
  change (words_at n count (off + n) l ≫= le_enc n) with (words_enc n (words_at n count (off + n) l)).
  rewrite IH by (done || lia). rewrite slice_join. f_equal. lia.
Qed.

Lemma words_at_range n count off l :
  (off + n * count <= length l)%nat -> bytes_ok l ->
  Forall (fun w => 0 <= w < 256 ^ Z.of_nat n) (words_at n count off l).
Proof.
  revert off. induction count as [|count IH]; intros off Hl Hok; [constructor|].
  rewrite words_at_cons. constructor; [apply word_at_range; [lia|done]|].
  apply IH; [lia|done].
Qed.

Lemma dec_words n ws r :
  Forall (fun w => 0 <= w < 256 ^ Z.of_nat n) ws ->
  words_at n (length ws) 0 (words_enc n ws ++ r) = ws.
Proof.
  intros Hws. enough (Hgen : forall pre, words_at n (length ws) (length pre) (pre ++ words_enc n ws ++ r) = ws)
    by apply (Hgen []).
  induction Hws as [|w ws Hw _ IH]; intros pre; [done|].
  cbn [length]. rewrite words_at_cons. unfold words_enc. rewrite bind_cons, <-app_assoc.
  f_equal.
  - unfold word_at. rewrite slice_app_r, Nat.sub_diag by done. by apply dec_word.
  - specialize (IH (pre ++ le_enc n w)). rewrite length_app, le_enc_length, <-app_assoc in IH.
    exact IH.
Qed.

(** Moves a field access past the fields before it. *)
Lemma word_at_skip n off l r :
  (length l <= off)%nat -> word_at n off (l ++ r) = word_at n (off - length l) r.
Proof. intros. unfold word_at. by rewrite slice_app_r. Qed.

Lemma words_at_skip n count off l r :
  (length l <= off)%nat -> words_at n count off (l ++ r) = words_at n count (off - length l) r.
Proof.
  intros. apply list_fmap_ext. intros i x _. rewrite word_at_skip by lia. f_equal. lia.
Qed.

Lemma slice_skip {A} n off (l r : list A) k :
  length l = k -> (k <= off)%nat -> slice off n (l ++ r) = slice (off - k) n r.
Proof. intros <-. apply slice_app_r. Qed.

Lemma dec_word_last n z : 0 <= z < 256 ^ Z.of_nat n -> word_at n 0 (le_enc n z) = z.
Proof. intros Hz. rewrite <-(app_nil_r (le_enc n z)). by apply dec_word. Qed.

Lemma words_at_skip_word n count off k z r :
  (k <= off)%nat -> words_at n count off (le_enc k z ++ r) = words_at n count (off - k) r.
Proof. intros. rewrite words_at_skip; by rewrite le_enc_length. Qed.

Lemma word_at_skip_word n off k z r :
  (k <= off)%nat -> word_at n off (le_enc k z ++ r) = word_at n (off - k) r.
Proof. intros. rewrite word_at_skip; by rewrite le_enc_length. Qed.

Lemma slice_skip_word n off k z r :
  (k <= off)%nat -> slice off n (le_enc k z ++ r) = slice (off - k) n r.
Proof. intros. by apply slice_skip; [apply le_enc_length|]. Qed.

Lemma dec_words_at n count ws r :
  length ws = count -> Forall (fun w => 0 <= w < 256 ^ Z.of_nat n) ws ->
  words_at n count 0 (words_enc n ws ++ r) = ws.
Proof. intros <-. apply dec_words. Qed.

(** * Changed bytes *)

Lemma word_at_inj n off l k :
  length l = length k -> (off + n <= length l)%nat -> bytes_ok l -> bytes_ok k ->
  word_at n off l = word_at n off k -> slice off n l = slice off n k.
Proof. intros Hlen Hl Hok Hok' Hw. by rewrite <-!enc_word_at, Hw by (done || lia). Qed.

Lemma slice_insert_ne off n i b (l : list Z) :
  (off <= i < off + n)%nat -> (i < length l)%nat -> slice off n (<[i := b]> l) = slice off n l ->
  l !! i = Some b.
Proof.
  intros Hi Hlt Hs. apply (f_equal (.!! (i - off)%nat)) in Hs. unfold slice in Hs.
  rewrite !lookup_take_lt, !lookup_drop in Hs by lia.
  replace (off + (i - off))%nat with i in Hs by lia.
  by rewrite list_lookup_insert_eq in Hs by done.
Qed.

#[global] Arguments word_at : simpl never.
#[global] Arguments words_at : simpl never.
#[global] Arguments words_enc : simpl never.
#[global] Arguments slice : simpl never.
#[global] Arguments le_enc : simpl never.

(** Proves that reading a field of an object's bytes gives the field: skips the
    words before it, then (with the array lemmas the caller gives) reads it. *)
Ltac skip_words :=
  repeat (first [rewrite word_at_skip_word by lia | rewrite words_at_skip_word by lia
                | rewrite slice_skip_word by lia
                | match goal with H : length ?l = _ |- context [?l ++ _] =>
                    first [rewrite (word_at_skip _ _ l) by lia
                          | rewrite (slice_app_r _ _ l) by lia]; rewrite H end];
          cbn [Nat.sub]).

Ltac read_field :=
  skip_words; first [apply dec_word; assumption | apply dec_words_at; assumption | apply dec_word_last; assumption
                    | apply slice_head; assumption].

(** The range of a field read back from a buffer of the right size. *)
Ltac field_range :=
  first [apply word_at_range; [lia|done] | rewrite slice_length; lia
        | apply bytes_ok_slice; done | apply words_at_range; [lia|done]
        | apply words_at_length ].

(** Joins the fields of a re-encoded buffer. *)
Ltac join_fields :=
  rewrite ?enc_word_at, ?enc_words_at by (done || lia);
  repeat (rewrite slice_join_app; cbn [Nat.add]); rewrite slice_join; cbn [Nat.add Nat.mul];
  by apply slice_all.
