(* ===== verification/RuntimeControl.v ===== *)
(** The runtime control file (runtime_control.cpp): the v3 record that holds the
    replacement policy, its validation, reading, atomic replacement, and the
    one-time conversion of a v2 record. *)

From S2P Require Import Prelude KernelContext Slots Checksum Records Posix AtomicFile.

(** src/runtime_control.h:10-10 [kRuntimeControlMagic] *)
Definition kRuntimeControlMagic : Z := 0x38314c54434d5244.
(** src/runtime_control.h:11-11 [kRuntimeControlVersion] *)
Definition kRuntimeControlVersion : Z := 3.
(** src/runtime_control.h:12-12 [kRuntimeControlRecordBytes] *)
Definition kRuntimeControlRecordBytes : Z := 128.

(** src/runtime_control.cpp:15-16 [kRuntimeControlV2Magic] *)
Definition kRuntimeControlV2Magic : Z := 0x36314c54434d5244.
(** src/runtime_control.cpp:17-17 [kRuntimeControlV2Version] *)
Definition kRuntimeControlV2Version : Z := 2.
(** src/runtime_control.cpp:18-18 [kRuntimeControlV2Bytes] *)
Definition kRuntimeControlV2Bytes : Z := 256.
(** src/runtime_control.cpp:19-19 [kLegacyTargetLimit] *)
Definition kLegacyTargetLimit : nat := 32.

(** src/runtime_control.cpp:21-36 [RuntimeControlRecordV2] *)
Record RuntimeControlRecordV2 := {
  v2_magic : Z;
  v2_version : Z;
  v2_record_size : Z;
  v2_config_generation : Z;
  v2_seed_generation : Z;
  v2_profile_fingerprint : Z;
  v2_replacement_mode : Z;
  v2_rule_mode : Z;
  v2_target_count : Z;
  v2_virtual_id_length : Z;
  v2_target_euids : list Z;
  v2_virtual_id : list Z;
  v2_crc32 : Z;
  v2_tail_reserved : Z;
}.

(** src/runtime_control.cpp:38-51 [RuntimeControlRecordV3] *)
Record RuntimeControlRecordV3 := {
  v3_magic : Z;
  v3_version : Z;
  v3_record_size : Z;
  v3_config_generation : Z;
  v3_seed_generation : Z;
  v3_profile_fingerprint : Z;
  v3_replacement_mode : Z;
  v3_virtual_id_length : Z;
  v3_virtual_id : list Z;
  v3_reserved : Z;
  v3_crc32 : Z;
  v3_tail_reserved : Z;
}.

#[global] Instance V2_layout : Layout RuntimeControlRecordV2 := {|
  size_of := 256;
  bytes_of r :=
    le_enc 8 (v2_magic r) ++ le_enc 4 (v2_version r) ++ le_enc 4 (v2_record_size r) ++
    le_enc 8 (v2_config_generation r) ++ le_enc 8 (v2_seed_generation r) ++
    le_enc 8 (v2_profile_fingerprint r) ++ le_enc 4 (v2_replacement_mode r) ++
    le_enc 4 (v2_rule_mode r) ++ le_enc 4 (v2_target_count r) ++
    le_enc 4 (v2_virtual_id_length r) ++ words_enc 4 (v2_target_euids r) ++
    v2_virtual_id r ++ le_enc 4 (v2_crc32 r) ++ le_enc 4 (v2_tail_reserved r);
  of_bytes l := {|
    v2_magic := word_at 8 0 l; v2_version := word_at 4 8 l; v2_record_size := word_at 4 12 l;
    v2_config_generation := word_at 8 16 l; v2_seed_generation := word_at 8 24 l;
    v2_profile_fingerprint := word_at 8 32 l; v2_replacement_mode := word_at 4 40 l;
    v2_rule_mode := word_at 4 44 l; v2_target_count := word_at 4 48 l;
    v2_virtual_id_length := word_at 4 52 l; v2_target_euids := words_at 4 32 56 l;
    v2_virtual_id := slice 184 64 l; v2_crc32 := word_at 4 248 l;
    v2_tail_reserved := word_at 4 252 l |};
  in_range r :=
    word_ok 8 (v2_magic r) /\ word_ok 4 (v2_version r) /\ word_ok 4 (v2_record_size r) /\
    word_ok 8 (v2_config_generation r) /\ word_ok 8 (v2_seed_generation r) /\
    word_ok 8 (v2_profile_fingerprint r) /\ word_ok 4 (v2_replacement_mode r) /\
    word_ok 4 (v2_rule_mode r) /\ word_ok 4 (v2_target_count r) /\
    word_ok 4 (v2_virtual_id_length r) /\
    length (v2_target_euids r) = 32%nat /\ Forall (word_ok 4) (v2_target_euids r) /\
    length (v2_virtual_id r) = 64%nat /\ bytes_ok (v2_virtual_id r) /\
    word_ok 4 (v2_crc32 r) /\ word_ok 4 (v2_tail_reserved r)
|}.

#[global] Instance V3_layout : Layout RuntimeControlRecordV3 := {|
  size_of := 128;
  bytes_of r :=
    le_enc 8 (v3_magic r) ++ le_enc 4 (v3_version r) ++ le_enc 4 (v3_record_size r) ++
    le_enc 8 (v3_config_generation r) ++ le_enc 8 (v3_seed_generation r) ++
    le_enc 8 (v3_profile_fingerprint r) ++ le_enc 4 (v3_replacement_mode r) ++
    le_enc 4 (v3_virtual_id_length r) ++ v3_virtual_id r ++ le_enc 8 (v3_reserved r) ++
    le_enc 4 (v3_crc32 r) ++ le_enc 4 (v3_tail_reserved r);
  of_bytes l := {|
    v3_magic := word_at 8 0 l; v3_version := word_at 4 8 l; v3_record_size := word_at 4 12 l;
    v3_config_generation := word_at 8 16 l; v3_seed_generation := word_at 8 24 l;
    v3_profile_fingerprint := word_at 8 32 l; v3_replacement_mode := word_at 4 40 l;
    v3_virtual_id_length := word_at 4 44 l; v3_virtual_id := slice 48 64 l;
    v3_reserved := word_at 8 112 l; v3_crc32 := word_at 4 120 l;
    v3_tail_reserved := word_at 4 124 l |};
  in_range r :=
    word_ok 8 (v3_magic r) /\ word_ok 4 (v3_version r) /\ word_ok 4 (v3_record_size r) /\
    word_ok 8 (v3_config_generation r) /\ word_ok 8 (v3_seed_generation r) /\
    word_ok 8 (v3_profile_fingerprint r) /\ word_ok 4 (v3_replacement_mode r) /\
    word_ok 4 (v3_virtual_id_length r) /\
    length (v3_virtual_id r) = 64%nat /\ bytes_ok (v3_virtual_id r) /\
    word_ok 8 (v3_reserved r) /\ word_ok 4 (v3_crc32 r) /\ word_ok 4 (v3_tail_reserved r)
|}.

(** [record = {}]. *)
Definition zero_v3 : RuntimeControlRecordV3 := of_bytes (replicate 128 0).
Definition zero_v2 : RuntimeControlRecordV2 := of_bytes (replicate 256 0).

#[global] Instance V3_laws : LayoutLaws RuntimeControlRecordV3.
Proof.
  split; cbn.
  - intros r Hr. destruct_and! Hr. rewrite !length_app, !le_enc_length. lia.
  - intros r Hr. destruct_and! Hr. unfold bytes_ok in *. rewrite !Forall_app.
    split_and!; (done || apply le_enc_bytes_ok).
  - intros [] Hr. cbn in *. destruct_and! Hr. unfold word_ok in *. f_equal; read_field.
  - intros l Hl Hok. join_fields.
  - intros l Hl Hok. unfold word_ok. split_and!; field_range.
Qed.

#[global] Instance V2_laws : LayoutLaws RuntimeControlRecordV2.
Proof.
  split; cbn.
  - intros r Hr. destruct_and! Hr. rewrite !length_app, !le_enc_length, words_enc_length. lia.
  - intros r Hr. destruct_and! Hr. unfold bytes_ok in *. rewrite !Forall_app.
    split_and!; (done || apply le_enc_bytes_ok || apply words_enc_ok).
  - intros [] Hr. cbn in *. destruct_and! Hr. unfold word_ok in *.
    assert (Hw : length (words_enc 4 v2_target_euids0) = 128%nat) by (rewrite words_enc_length; lia).
    f_equal; read_field.
  - intros l Hl Hok. join_fields.
  - intros l Hl Hok. unfold word_ok. split_and!; field_range.
Qed.

(** * Validation *)

(** src/runtime_control.cpp:114-124 [valid_legacy_target_set] *)
Fixpoint valid_targets (index : nat) (previous target_count : Z) (target_euids : list Z) : bool :=
  match target_euids with
  | [] => true
  | euid :: target_euids =>
      (if Z.of_nat index <? target_count then
         negb ((euid =? 0) || negb (Nat.eqb index 0) && (euid <=? previous))
       else euid =? 0) &&
      valid_targets (S index) euid target_count target_euids
  end.

(** src/runtime_control.cpp:106-126 [valid_legacy_target_set] *)
Definition valid_legacy_target_set (rule_mode target_count : Z) (target_euids : list Z) : bool :=
  if (2 <? rule_mode) || (Z.of_nat kLegacyTargetLimit <? target_count) then false
  else if (rule_mode =? 0) && negb (target_count =? 0) ||
          negb (rule_mode =? 0) && (target_count =? 0) then false
  else valid_targets 0 0 target_count target_euids.

(** src/runtime_control.cpp:128-142 [validate_v2_record] *)
Definition validate_v2_record (record : RuntimeControlRecordV2) : bool :=
  (v2_magic record =? kRuntimeControlV2Magic) && (v2_version record =? kRuntimeControlV2Version) &&
  (v2_record_size record =? kRuntimeControlV2Bytes) &&
  negb (v2_config_generation record =? 0) && negb (v2_seed_generation record =? 0) &&
  (v2_replacement_mode record <=? mode_num kWriteTest) &&
  valid_legacy_target_set (v2_rule_mode record) (v2_target_count record) (v2_target_euids record) &&
  (v2_virtual_id_length record =? kWidevineDeviceUniqueIdBytes) &&
  (v2_tail_reserved record =? 0) &&
  (v2_crc32 record =? crc32 (take 248 (bytes_of record))).

(** src/runtime_control.cpp:144-156 [validate_v3_record] *)
Definition validate_v3_record (record : RuntimeControlRecordV3) : bool :=
  (v3_magic record =? kRuntimeControlMagic) && (v3_version record =? kRuntimeControlVersion) &&
  (v3_record_size record =? kRuntimeControlRecordBytes) &&
  negb (v3_config_generation record =? 0) && negb (v3_seed_generation record =? 0) &&
  (v3_replacement_mode record <=? mode_num kWriteTest) &&
  (v3_virtual_id_length record =? kWidevineDeviceUniqueIdBytes) &&
  negb (v3_profile_fingerprint record =? 0) && (v3_reserved record =? 0) &&
  (v3_tail_reserved record =? 0) &&
  (v3_crc32 record =? crc32 (take 120 (bytes_of record))).

(** src/runtime_control.cpp:158-164 [validate_config] *)
Definition validate_config (config : ReplacementConfig) : bool :=
  negb (cfg_config_generation config =? 0) && negb (cfg_seed_generation config =? 0) &&
  negb (cfg_profile_fingerprint config =? 0) &&
  (cfg_mode config <=? mode_num kWriteTest) &&
  (cfg_virtual_id_length config =? kWidevineDeviceUniqueIdBytes).

#[global] Arguments validate_v3_record : simpl never.
#[global] Arguments validate_v2_record : simpl never.

(** [config = {}]: the default member values of the struct. *)
Definition zero_config : ReplacementConfig :=
  Build_ReplacementConfig (mode_num kDryRun) 0 0 0 0 (replicate 64 0).

(** [memcpy] of the first [n] bytes of one 64-byte array over a cleared one. *)
Definition copy_id (id : list Z) (n : Z) : list Z :=
  take (Z.to_nat n) id ++ replicate (64 - Z.to_nat n) 0.

(** src/runtime_control.cpp:219-230 [fill_config_from_v3] *)
Definition fill_config_from_v3 (record : RuntimeControlRecordV3) : ReplacementConfig := {|
  cfg_config_generation := v3_config_generation record;
  cfg_seed_generation := v3_seed_generation record;
  cfg_profile_fingerprint := v3_profile_fingerprint record;
  cfg_mode := v3_replacement_mode record;
  cfg_virtual_id_length := v3_virtual_id_length record;
  cfg_virtual_id := copy_id (v3_virtual_id record) (v3_virtual_id_length record) |}.

(** src/runtime_control.cpp:254-262 [write_runtime_control_file] *)
Definition make_v3_record (config : ReplacementConfig) : RuntimeControlRecordV3 := {|
  v3_magic := 0; v3_version := 0; v3_record_size := 0;
  v3_config_generation := cfg_config_generation config;
  v3_seed_generation := cfg_seed_generation config;
  v3_profile_fingerprint := cfg_profile_fingerprint config;
  v3_replacement_mode := cfg_mode config;
  v3_virtual_id_length := cfg_virtual_id_length config;
  v3_virtual_id := copy_id (cfg_virtual_id config) (cfg_virtual_id_length config);
  v3_reserved := 0; v3_crc32 := 0; v3_tail_reserved := 0 |}.

(** src/runtime_control.cpp:292-301 [migrate_runtime_control_v2] *)
Definition convert_v2 (legacy : RuntimeControlRecordV2) : ReplacementConfig := {|
  cfg_config_generation := v2_config_generation legacy;
  cfg_seed_generation := v2_seed_generation legacy;
  cfg_profile_fingerprint := v2_profile_fingerprint legacy;
  cfg_mode := v2_replacement_mode legacy;
  cfg_virtual_id_length := v2_virtual_id_length legacy;
  cfg_virtual_id := copy_id (v2_virtual_id legacy) (v2_virtual_id_length legacy) |}.

(** src/runtime_control.cpp:167-170 [write_record] *)
Definition seal_v3_record (record : RuntimeControlRecordV3) : RuntimeControlRecordV3 :=
  let sealed crc := {|
    v3_magic := kRuntimeControlMagic; v3_version := kRuntimeControlVersion;
    v3_record_size := kRuntimeControlRecordBytes;
    v3_config_generation := v3_config_generation record;
    v3_seed_generation := v3_seed_generation record;
    v3_profile_fingerprint := v3_profile_fingerprint record;
    v3_replacement_mode := v3_replacement_mode record;
    v3_virtual_id_length := v3_virtual_id_length record;
    v3_virtual_id := v3_virtual_id record;
    v3_reserved := v3_reserved record; v3_crc32 := crc;
    v3_tail_reserved := v3_tail_reserved record |} in
  sealed (crc32 (take 120 (bytes_of (sealed (v3_crc32 record))))).

(** * Paths *)

(** src/runtime_control.cpp:210-217 [sibling_path] *)
Definition sibling_path (path file_name : string) : string :=
  String.substring 0 (after_last_slash path 0 0) path +:+ file_name.

(** src/runtime_control.cpp:318-326 [default_runtime_control_path] *)
Definition default_runtime_control_path (module_private_dir : option string) : string :=
  match module_private_dir with
  | None | Some EmptyString => EmptyString
  | Some dir =>
      (if Nat.eqb (after_last_slash dir 0 0) (String.length dir) then dir else dir +:+ "/")
      +:+ "drmid_runtime_control_v3.bin"
  end.

(** A C string argument that must be neither null nor empty. *)
Definition c_path (path : option string) : option string :=
  match path with None | Some EmptyString => None | Some p => Some p end.

(** src/runtime_control.cpp:198-200 [write_record] *)
Definition directory_of (path : string) : string :=
  match after_last_slash path 0 0 with
  | O => "."
  | S slash => String.substring 0 slash path
  end.

(** * The file operations *)

Section Operations.
Context `{OperatingSystem}.
Context (fuel : nat).

(** src/runtime_control.cpp:74-104 [read_exact_record] *)
Definition read_exact_record {Record} `{Layout Record} (path : string) : io (KModErr * Record) :=
  let cleared := of_bytes (replicate (size_of Record) 0) in
  fd ← sys_open_read path;
  match fd with
  | Open_enoent => mret (ERR_MODULE_STORAGE_NOT_FOUND, cleared)
  | Open_error => mret (ERR_MODULE_STORAGE_READ, cleared)
  | Opened content =>
      used ← read_loop fuel content (size_of Record) [];
      tail ← sys_read content (length used) 1;
      _ ← sys_ok;
      let at_end := match tail with Moved [] => true | _ => false end in
      if negb (Nat.eqb (length used) (size_of Record)) || negb at_end
      then mret (ERR_MODULE_STORAGE_READ, cleared)
      else mret (OK, of_bytes used)
  end.

(** src/runtime_control.cpp:166-208 [write_record] *)
Definition write_record (path : string) (record : RuntimeControlRecordV3) : io KModErr :=
  let record := seal_v3_record record in
  let temporary := path +:+ ".tmp" in
  fd ← sys_open_write false temporary;
  if negb fd then mret ERR_MODULE_STORAGE_WRITE
  else
    written ← write_loop fuel temporary (bytes_of record);
    if negb written then
      _ ← sys_ok; _ ← sys_unlink temporary; mret ERR_MODULE_STORAGE_WRITE
    else
      sync_ok ← io_and sys_ok sys_ok;
      close_ok ← sys_ok;
      renamed ← (if negb sync_ok || negb close_ok then mret false
                 else sys_rename temporary path);
      if negb renamed then
        _ ← sys_unlink temporary; mret ERR_MODULE_STORAGE_WRITE
      else
        dir_fd ← sys_open_directory (directory_of path);
        (if (dir_fd : bool) then _ ← sys_ok; _ ← sys_ok; mret OK else mret OK).

(** src/runtime_control.cpp:234-247 [read_runtime_control_file] *)
Definition read_runtime_control_file (path : option string) : io (KModErr * ReplacementConfig) :=
  match c_path path with
  | None => mret (ERR_MODULE_PARAM, zero_config)
  | Some path =>
      '(err, record) ← read_exact_record path;
      if is_failed err then mret (err, zero_config)
      else if negb (validate_v3_record record) then mret (ERR_MODULE_STORAGE_TYPE, zero_config)
      else mret (OK, fill_config_from_v3 record)
  end.

(** src/runtime_control.cpp:249-264 [write_runtime_control_file] *)
Definition write_runtime_control_file (path : option string) (config : ReplacementConfig)
    : io KModErr :=
  match c_path path with
  | None => mret ERR_MODULE_PARAM
  | Some path =>
      if negb (validate_config config) then mret ERR_MODULE_PARAM
      else write_record path (make_v3_record config)
  end.

(** The comparison of the configuration read back with the one written. *)

(** src/runtime_control.cpp:306-313 [migrate_runtime_control_v2] *)
Definition same_config (verified converted : ReplacementConfig) : bool :=
  (cfg_config_generation verified =? cfg_config_generation converted) &&
  (cfg_seed_generation verified =? cfg_seed_generation converted) &&
  (cfg_profile_fingerprint verified =? cfg_profile_fingerprint converted) &&
  (cfg_mode verified =? cfg_mode converted) &&
  (cfg_virtual_id_length verified =? cfg_virtual_id_length converted) &&
  bool_decide (cfg_virtual_id verified = cfg_virtual_id converted).

(** src/runtime_control.cpp:266-316 [migrate_runtime_control_v2] *)
Definition migrate_runtime_control_v2 (v3_path : option string) : io (KModErr * bool) :=
  match c_path v3_path with
  | None => mret (ERR_MODULE_PARAM, false)
  | Some path =>
      '(v3_err, current) ← read_exact_record (Record := RuntimeControlRecordV3) path;
      if is_ok v3_err then
        mret (if validate_v3_record current then OK else ERR_MODULE_STORAGE_TYPE, false)
      else if bool_decide (v3_err <> ERR_MODULE_STORAGE_NOT_FOUND) then mret (v3_err, false)
      else
        '(legacy_err, legacy) ← read_exact_record (Record := RuntimeControlRecordV2)
                                  (sibling_path path "drmid_runtime_control_v2.bin");
        if bool_decide (legacy_err = ERR_MODULE_STORAGE_NOT_FOUND) then mret (OK, false)
        else if is_failed legacy_err then mret (legacy_err, false)
        else if negb (validate_v2_record legacy) then mret (ERR_MODULE_STORAGE_TYPE, false)
        else
          let converted := convert_v2 legacy in
          err ← write_runtime_control_file (Some path) converted;
          if is_failed err then mret (err, false)
          else
            '(err, verified) ← read_runtime_control_file (Some path);
            if is_failed err then mret (err, false)
            else if negb (same_config verified converted) then mret (ERR_MODULE_STORAGE_READ, false)
            else mret (OK, true)
  end.

End Operations.

(** * Records and configurations *)

(** The ranges of the C types of a configuration. *)
Definition config_in_range (config : ReplacementConfig) : Prop :=
  word_ok 4 (cfg_mode config) /\ word_ok 4 (cfg_virtual_id_length config) /\
  word_ok 8 (cfg_config_generation config) /\ word_ok 8 (cfg_seed_generation config) /\
  word_ok 8 (cfg_profile_fingerprint config) /\
  length (cfg_virtual_id config) = 64%nat /\ bytes_ok (cfg_virtual_id config).

(** The configuration a record keeps: the identifier, and zeros behind it. *)
Definition stored_config (config : ReplacementConfig) : ReplacementConfig := {|
  cfg_mode := cfg_mode config;
  cfg_virtual_id_length := cfg_virtual_id_length config;
  cfg_config_generation := cfg_config_generation config;
  cfg_seed_generation := cfg_seed_generation config;
  cfg_profile_fingerprint := cfg_profile_fingerprint config;
  cfg_virtual_id := copy_id (cfg_virtual_id config) (cfg_virtual_id_length config) |}.

Lemma copy_id_length id n : length id = 64%nat -> 0 <= n <= 64 -> length (copy_id id n) = 64%nat.
Proof. intros. unfold copy_id. rewrite length_app, length_take, length_replicate. lia. Qed.

Lemma copy_id_ok id n : bytes_ok id -> bytes_ok (copy_id id n).
Proof.
  intros. apply bytes_ok_app. split; [by apply bytes_ok_take|].
  apply bytes_ok_replicate. unfold byte_ok. lia.
Qed.

Lemma copy_id_idem id n : length id = 64%nat -> 0 <= n <= 64 -> copy_id (copy_id id n) n = copy_id id n.
Proof.
  intros. unfold copy_id at 1. f_equal. unfold copy_id.
  rewrite take_app_le by (rewrite length_take; lia). by rewrite take_take, Nat.min_id.
Qed.

Lemma validate_config_length config :
  validate_config config = true -> cfg_virtual_id_length config = 32.
Proof. unfold validate_config. intros Hv. btrue. done. Qed.

Lemma crc_word data : bytes_ok data -> word_ok 4 (crc32 data).
Proof. apply crc32_range. Qed.

Lemma seal_in_range config :
  config_in_range config -> validate_config config = true ->
  in_range (seal_v3_record (make_v3_record config)).
Proof.
  intros Hr Hv. apply validate_config_length in Hv. destruct Hr as (?&?&?&?&?&?&?).
  assert (Hcrc : forall crc, word_ok 4 crc -> in_range
    {| v3_magic := kRuntimeControlMagic; v3_version := kRuntimeControlVersion;
       v3_record_size := kRuntimeControlRecordBytes;
       v3_config_generation := cfg_config_generation config;
       v3_seed_generation := cfg_seed_generation config;
       v3_profile_fingerprint := cfg_profile_fingerprint config;
       v3_replacement_mode := cfg_mode config;
       v3_virtual_id_length := cfg_virtual_id_length config;
       v3_virtual_id := copy_id (cfg_virtual_id config) (cfg_virtual_id_length config);
       v3_reserved := 0; v3_crc32 := crc; v3_tail_reserved := 0 |}).
  { intros crc Hcrc. cbn. unfold word_ok in *. rewrite Hv.
    split_and!; try (done || lia); [by apply copy_id_length|by apply copy_id_ok]. }
  apply Hcrc, crc_word, bytes_ok_take, bytes_of_bytes_ok. by apply Hcrc.
Qed.

(** The bytes the checksum covers. *)
Definition v3_front (r : RuntimeControlRecordV3) : list Z :=
  le_enc 8 (v3_magic r) ++ le_enc 4 (v3_version r) ++ le_enc 4 (v3_record_size r) ++
  le_enc 8 (v3_config_generation r) ++ le_enc 8 (v3_seed_generation r) ++
  le_enc 8 (v3_profile_fingerprint r) ++ le_enc 4 (v3_replacement_mode r) ++
  le_enc 4 (v3_virtual_id_length r) ++ v3_virtual_id r ++ le_enc 8 (v3_reserved r).

Lemma v3_covered r : length (v3_virtual_id r) = 64%nat -> take 120 (bytes_of r) = v3_front r.
Proof.
  intros Hid.
  assert (Hl : length (v3_front r) = 120%nat).
  { unfold v3_front. rewrite !length_app, !le_enc_length. lia. }
  transitivity (take 120 (v3_front r ++ le_enc 4 (v3_crc32 r) ++ le_enc 4 (v3_tail_reserved r))).
  - f_equal. unfold v3_front. by rewrite <-!app_assoc.
  - by rewrite take_app_le, take_ge by lia.
Qed.

Lemma seal_valid config :
  config_in_range config -> validate_config config = true ->
  validate_v3_record (seal_v3_record (make_v3_record config)) = true.
Proof.
  intros Hr Hv. pose proof (validate_config_length _ Hv) as Hlen.
  assert (Hid : length (copy_id (cfg_virtual_id config) (cfg_virtual_id_length config)) = 64%nat).
  { destruct Hr as (?&?&?&?&?&?&?). apply copy_id_length; [done|lia]. }
  unfold validate_config in Hv. btrue. unfold validate_v3_record. rewrite !andb_true_iff.
  split_and!; try (apply Z.eqb_eq; done); try (apply negb_true_iff, Z.eqb_neq; done);
    try (apply Z.leb_le; done).
  apply Z.eqb_eq. rewrite v3_covered by done. unfold seal_v3_record at 1. cbn [v3_crc32].
  f_equal. by rewrite v3_covered.
Qed.

Lemma fill_seal config :
  config_in_range config -> validate_config config = true ->
  fill_config_from_v3 (seal_v3_record (make_v3_record config)) = stored_config config.
Proof.
  intros (?&?&?&?&?&?&?) Hv. apply validate_config_length in Hv.
  unfold fill_config_from_v3, stored_config. cbn. f_equal. apply copy_id_idem; [done|lia].
Qed.

(** A record that validates gives a configuration that validates. *)
Lemma fill_valid record :
  validate_v3_record record = true -> validate_config (fill_config_from_v3 record) = true.
Proof.
  unfold validate_v3_record, validate_config. intros Hv. btrue. cbn. rewrite !andb_true_iff.
  split_and!; try (apply Z.eqb_eq; done); try (apply negb_true_iff, Z.eqb_neq; done);
    by apply Z.leb_le.
Qed.

(** * Corruption *)

(** One changed byte anywhere in a valid record, its checksum and padding included,
    makes it invalid. *)
Lemma v3_corrupted content i b x :
  length content = 128%nat -> bytes_ok content -> byte_ok b ->
  content !! i = Some x -> x <> b ->
  validate_v3_record (of_bytes content) = true ->
  validate_v3_record (of_bytes (<[i := b]> content)) = false.
Proof.
  intros Hlen Hok Hb Hx Hne Hv. apply not_true_is_false. intros Hv'.
  assert (Hok' : bytes_ok (<[i := b]> content)) by (by apply Forall_insert).
  assert (Hlen' : length (<[i := b]> content) = 128%nat) by (by rewrite length_insert).
  assert (Hi : (i < 128)%nat) by (rewrite <-Hlen; by eapply lookup_lt_Some).
  unfold validate_v3_record in Hv, Hv'. rewrite bytes_of_of_bytes in Hv, Hv' by done.
  cbn in Hv, Hv'. btrue.
  assert (Hfield : forall off, (off + 4 <= 128)%nat ->
    word_at 4 off (<[i := b]> content) = word_at 4 off content -> ~ (off <= i < off + 4)%nat).
  { intros off Hoff Hw Hin. apply word_at_inj in Hw; [|lia..|done|done].
    apply slice_insert_ne in Hw; [congruence|done|lia]. }
  destruct (Nat.lt_ge_cases i 120).
  - apply (crc32_insert_differs i b (take 120 content) x);
      [by rewrite lookup_take_lt|by apply bytes_ok_take|done..|].
    rewrite <-take_insert_lt by done.
    assert (Hcrc : word_at 4 120 (<[i := b]> content) = word_at 4 120 content).
    { unfold word_at, slice. by rewrite drop_insert_lt by lia. }
    congruence.
  - destruct (Nat.lt_ge_cases i 124).
    + apply (Hfield 120%nat); [lia| |lia]. rewrite take_insert_ge in * by lia. congruence.
    + apply (Hfield 124%nat); [lia|congruence|lia].
Qed.

(** * The operations *)

Lemma tmp_ne (path : string) : path <> path +:+ ".tmp".
Proof. apply app_ne. Qed.

Section OperationSpecs.
Context `{OperatingSystem}.
Context (d : Prop) (B fuel : nat).

#[local] Notation enough := (enough d B fuel).
#[local] Notation write_result path := (write_result path (path +:+ ".tmp")).

Lemma wp_read_exact_record {R} `{Layout R} path w :
  enough (size_of R) ->
  wp d (read_exact_record fuel (Record := R) path) (fun '(err, record) w' => quiet w w' /\
    (err = OK -> exists content, w_files w !! path = Some content /\
       length content = size_of R /\ record = of_bytes content) /\
    (err = ERR_MODULE_STORAGE_NOT_FOUND -> w_files w !! path = None) /\
    (err = OK \/ err = ERR_MODULE_STORAGE_NOT_FOUND \/ err = ERR_MODULE_STORAGE_READ)) w.
Proof.
  intros Hfuel. apply wp_bind, wp_open_read. intros [content| |] w1 Hq1 Hr.
  2, 3: by apply wp_ret; split_and!; [done|intros ?; congruence|intros ?; congruence|auto].
  apply wp_bind. change [] with (take 0 content).
  apply (wp_read_loop d B fuel B content _ 0); [lia|lia|apply budget_start; by rewrite Nat.sub_0_r|].
  intros m w2 Hq2 Hm Hl. apply wp_bind, wp_bind, wp_next. intros w3 Hq3 _.
  apply wp_bind, wp_sys_ok. intros _ w4 Hq4. rewrite length_take_le by done.
  assert (quiet w w4) by (do 3 (etransitivity; [eassumption|]); done).
  destruct (Nat.eqb_spec m (size_of R)) as [->|]; cbn [negb orb].
  2: { apply wp_ret. split_and!; [done|intros ?; congruence|intros ?; congruence|auto]. }
  destruct (outcome_of _) as [limit| |]; [|apply wp_ret; split_and!; auto; intros ?; congruence..].
  destruct (slice _ _ content) as [|b bs] eqn:Es;
    [|apply wp_ret; split_and!; auto; intros ?; congruence].
  assert (length content = size_of R).
  { apply (f_equal length) in Es. destruct (transfer_pos limit 1) as [? _]; [lia|].
    unfold slice in Es. rewrite length_take, length_drop in Es. simpl in Es. lia. }
  apply wp_ret. split_and!; [done| |intros ?; congruence|auto].
  intros _. exists content. by rewrite take_ge by lia.
Qed.

Lemma wp_write_record path record w :
  let new := bytes_of (seal_v3_record record) in
  enough (length new) -> wp d (write_record fuel path record) (write_result path new w) w.
Proof.
  intros new Hfuel. eapply (wp_fill path); [apply tmp_ne|done|done|..].
  - intros w2 Hev Hnew. cbn [negb]. apply wp_bind, wp_io_and, wp_sys_ok.
    intros synced w3 Hq3.
    assert (Hrest : forall sync_ok w3, quiet w2 w3 ->
      wp d (close_ok ← sys_ok;
            renamed ← (if negb sync_ok || negb close_ok then mret false
                       else sys_rename (path +:+ ".tmp") path);
            if negb renamed then _ ← sys_unlink (path +:+ ".tmp"); mret ERR_MODULE_STORAGE_WRITE
            else dir_fd ← sys_open_directory (directory_of path);
                 (if (dir_fd : bool) then _ ← sys_ok; _ ← sys_ok; mret OK else mret OK))
        (write_result path new w) w3).
    { clear Hq3 w3. intros sync_ok w3 Hq3. apply wp_bind, wp_sys_ok. intros close_ok w4 Hq4.
      assert (Hq : quiet w2 w4) by by etransitivity.
      apply wp_commit; [apply tmp_ne|by eapply evolves_quiet|]. by destruct Hq as [-> _]. }
    destruct synced; [apply wp_sys_ok; intros b w4 Hq4|]; apply Hrest; [by etransitivity|done].
  - intros w2 Hev. cbn [negb]. apply wp_bind, wp_sys_ok. intros _ w3 Hq3.
    apply wp_discard; [apply tmp_ne|by eapply evolves_quiet].
Qed.

(** What a read of [path] reports about the file. *)
Definition read_result (path : string) (w : World) (result : KModErr * ReplacementConfig)
    (w' : World) : Prop :=
  let '(err, config) := result in
  quiet w w' /\
  (err = OK -> exists content, w_files w !! path = Some content /\ length content = 128%nat /\
     validate_v3_record (of_bytes content) = true /\ config = fill_config_from_v3 (of_bytes content)) /\
  (err = ERR_MODULE_STORAGE_TYPE -> exists content, w_files w !! path = Some content /\
     validate_v3_record (of_bytes content) = false) /\
  (err = ERR_MODULE_STORAGE_NOT_FOUND -> w_files w !! path = None) /\
  (err <> OK -> config = zero_config /\
     (err = ERR_MODULE_STORAGE_TYPE \/ err = ERR_MODULE_STORAGE_NOT_FOUND \/
      err = ERR_MODULE_STORAGE_READ)).

Lemma wp_read_runtime_control_file arg path w :
  c_path arg = Some path -> enough 128 ->
  wp d (read_runtime_control_file fuel arg) (read_result path w) w.
Proof.
  intros Harg Hfuel. unfold read_runtime_control_file. rewrite Harg. apply wp_bind.
  eapply wp_mono; [by apply wp_read_exact_record|].
  intros [err record] w' (Hq & Hok & Hmissing & [-> |[-> | ->]]).
  - destruct (Hok eq_refl) as (content & Hc & Hl & ->). clear Hok Hmissing. cbn [is_failed negb].
    change (is_failed OK) with false. cbn [negb].
    destruct (validate_v3_record (of_bytes content)) eqn:Ev; apply wp_ret; (split; [exact Hq|]).
    + split_and!; [|discriminate..|intros []; reflexivity]. intros _. by exists content.
    + split_and!; [discriminate| |discriminate|intros _; auto]. intros _. by exists content.
  - apply wp_ret. split; [exact Hq|]. split_and!; [discriminate..|exact Hmissing|auto].
  - apply wp_ret. split; [exact Hq|]. split_and!; [discriminate..|auto].
Qed.

Lemma wp_write_runtime_control_file arg path config w :
  c_path arg = Some path -> config_in_range config -> validate_config config = true -> enough 128 ->
  wp d (write_runtime_control_file fuel arg config)
    (write_result path (bytes_of (seal_v3_record (make_v3_record config))) w) w.
Proof.
  intros Harg Hr Hv Hfuel. unfold write_runtime_control_file. rewrite Harg, Hv. cbn [negb].
  apply wp_write_record. rewrite bytes_of_length by by apply seal_in_range. done.
Qed.

(** The v3 file a legacy file is converted to. *)
Definition migrated_bytes (legacy : list Z) : list Z :=
  bytes_of (seal_v3_record (make_v3_record (convert_v2 (of_bytes legacy)))).

Definition legacy_path (path : string) : string :=
  sibling_path path "drmid_runtime_control_v2.bin".

(** What a migration towards [path] may have done. *)
Definition migrate_result (path : string) (w : World) (result : KModErr * bool) (w' : World)
    : Prop :=
  let '(err, migrated) := result in
  (quiet w w' /\ migrated = false /\
     (err = OK ->
        (exists content, w_files w !! path = Some content /\
           validate_v3_record (of_bytes content) = true) \/
        (w_files w !! path = None /\ w_files w !! legacy_path path = None))) \/
  (exists legacy, w_files w !! path = None /\ w_files w !! legacy_path path = Some legacy /\
     length legacy = 256%nat /\ validate_v2_record (of_bytes legacy) = true /\
     validate_config (convert_v2 (of_bytes legacy)) = true /\
     evolves (replacing path (path +:+ ".tmp") (migrated_bytes legacy) (w_files w)) w w' /\
     (err = OK <-> migrated = true) /\
     (migrated = true ->
        w_files w' = <[path := migrated_bytes legacy]> (delete (path +:+ ".tmp") (w_files w)))).

Lemma convert_v2_in_range legacy :
  length legacy = 256%nat -> bytes_ok legacy -> validate_v2_record (of_bytes legacy) = true ->
  config_in_range (convert_v2 (of_bytes legacy)).
Proof.
  intros Hl Hok Hv. unfold validate_v2_record in Hv. btrue.
  pose proof (of_bytes_in_range (R := RuntimeControlRecordV2) legacy Hl Hok) as Hr.
  cbn in Hr. destruct_and! Hr. unfold config_in_range. split_and!; try done.
  - apply copy_id_length; [done|]. cbn in *. unfold kWidevineDeviceUniqueIdBytes in *. lia.
  - by apply copy_id_ok.
Qed.

(** The writing half of a migration. *)
Lemma wp_convert path legacy w w2 :
  c_path (Some path) = Some path -> enough 128 -> quiet w w2 ->
  w_files w !! path = None -> w_files w !! legacy_path path = Some legacy ->
  length legacy = 256%nat -> bytes_ok legacy -> validate_v2_record (of_bytes legacy) = true ->
  wp d (err ← write_runtime_control_file fuel (Some path) (convert_v2 (of_bytes legacy));
        if is_failed err then mret (err, false)
        else
          '(err, verified) ← read_runtime_control_file fuel (Some path);
          if is_failed err then mret (err, false)
          else if negb (same_config verified (convert_v2 (of_bytes legacy)))
          then mret (ERR_MODULE_STORAGE_READ, false)
          else mret (OK, true)) (migrate_result path w) w2.
Proof.
  intros Hpath Hfuel Hq Hnone Hlegacy Hl Hok Hv.
  destruct (validate_config (convert_v2 (of_bytes legacy))) eqn:Ec.
  2: { unfold write_runtime_control_file. rewrite Hpath, Ec. apply wp_ret. left.
       split_and!; [done..|discriminate]. }
  apply wp_bind. eapply wp_mono.
  { apply wp_write_runtime_control_file; [done|by apply convert_v2_in_range|done..]. }
  fold (migrated_bytes legacy). intros err w3 (Hev & Hdone & _).
  destruct (Hq) as [Hf _]. rewrite Hf in *. apply (quiet_evolves _ _ _ _ Hq) in Hev.
  assert (Hfail : forall e w4, quiet w3 w4 -> e <> OK -> migrate_result path w (e, false) w4).
  { intros e w4 Hq4 He. right. exists legacy. split_and!; try done. by eapply evolves_quiet. }
  destruct (decide (err = OK)) as [-> | He].
  2: { assert (is_failed err = true) as ->.
       { destruct (is_failed err) eqn:E; [done|]. by apply is_failed_false in E. }
       by apply wp_ret, Hfail. }
  change (is_failed OK) with false. cbv iota. apply wp_bind.
  eapply wp_mono; [by apply wp_read_runtime_control_file|].
  intros [err verified] w4 (Hq4 & _).
  destruct (is_failed err) eqn:E.
  { apply wp_ret, Hfail; [done|]. intros ->. done. }
  destruct (same_config _ _); cbn [negb]; apply wp_ret; [|by apply Hfail].
  right. exists legacy. split_and!; try done; [by eapply evolves_quiet|].
  intros _. destruct Hq4 as [-> _]. by apply Hdone.
Qed.

Lemma wp_migrate arg path w :
  c_path arg = Some path ->
  (forall legacy, w_files w !! legacy_path path = Some legacy -> bytes_ok legacy) ->
  enough 256 ->
  wp d (migrate_runtime_control_v2 fuel arg) (migrate_result path w) w.
Proof.
  intros Harg Hbytes Hfuel. assert (Hfuel' : enough 128).
  { destruct Hfuel as [?|[? ?]]; [by left|right; split; [done|lia]]. }
  assert (Hpath : c_path (Some path) = Some path).
  { destruct arg as [[|c p]|]; try done. by injection Harg as <-. }
  unfold migrate_runtime_control_v2. rewrite Harg. apply wp_bind.
  eapply wp_mono; [by apply wp_read_exact_record|].
  intros [v3_err current] w1 (Hq1 & Hok & Hmissing & [-> | [-> | ->]]).
  { destruct (Hok eq_refl) as (content & Hc & _ & ->). change (is_ok OK) with true. cbn [andb].
    apply wp_ret. left. split_and!; [done..|]. intros Hv. left. exists content.
    by destruct (validate_v3_record (of_bytes content)). }
  2: { apply wp_ret. left. split_and!; [done..|discriminate]. }
  change (is_ok _) with false. rewrite bool_decide_eq_false_2 by auto.
  specialize (Hmissing eq_refl). clear Hok. apply wp_bind.
  eapply wp_mono; [by apply wp_read_exact_record|].
  intros [legacy_err legacy] w2 (Hq2 & Hok & Habsent & Herr). destruct (Hq1) as [Hf1 _].
  fold (legacy_path path) in *. rewrite Hf1 in *.
  assert (Hq : quiet w w2) by by etransitivity.
  case_bool_decide as Hnf.
  { apply wp_ret. left. split_and!; [done..|]. intros _. right. auto. }
  destruct Herr as [-> | [? | ->]]; [|done|].
  2: { apply wp_ret. left. split_and!; [done..|discriminate]. }
  destruct (Hok eq_refl) as (content & Hc & Hl & ->). change (is_failed OK) with false.
  cbv zeta iota. destruct (validate_v2_record (of_bytes content)) eqn:Ev; cbn [negb].
  2: { apply wp_ret. left. split_and!; [done..|discriminate]. }
  apply (wp_convert path content w w2); [done..|by apply Hbytes|done].
Qed.

End OperationSpecs.

(** The last character, which tells the temporary file from the legacy one. *)
Fixpoint last_char (s : string) : option Ascii.ascii :=
  match s with
  | EmptyString => None
  | String c EmptyString => Some c
  | String _ s => last_char s
  end.

Lemma last_char_app s c t : last_char (s +:+ String c t) = last_char (String c t).
Proof.
  induction s as [|a s IH]; [done|].
  change (String a s +:+ String c t) with (String a (s +:+ String c t)). rewrite <-IH.
  by destruct s.
Qed.

Lemma legacy_path_ne_tmp path : legacy_path path <> path +:+ ".tmp".
Proof.
  intros E. apply (f_equal last_char) in E. unfold legacy_path, sibling_path in E.
  by rewrite !last_char_app in E.
Qed.

Lemma stored_convert legacy :
  length legacy = 256%nat -> validate_v2_record (of_bytes legacy) = true ->
  stored_config (convert_v2 (of_bytes legacy)) = convert_v2 (of_bytes legacy).
Proof.
  intros Hl Hv. unfold validate_v2_record in Hv. btrue.
  unfold stored_config, convert_v2. cbn [cfg_virtual_id cfg_virtual_id_length] in *.
  f_equal. unfold kWidevineDeviceUniqueIdBytes in *. apply copy_id_idem; [|lia].
  cbn. by apply slice_length; lia.
Qed.

(** * Properties *)

Section Properties.
Context `{OperatingSystem}.

(** C22: replacing the control file is all or nothing for everybody who looks at the
    directory at any moment of it, whatever calls fail, are interrupted or move only
    part of the data: the file is the old one or the complete new record, and no
    other file but the temporary one changes.  It reports success exactly when the
    new record is in place and no temporary file is left; an invalid configuration
    touches nothing. *)
Theorem write_runtime_control_atomic fuel arg path config w err w' :
  c_path arg = Some path -> config_in_range config ->
  write_runtime_control_file fuel arg config w = Some (err, w') ->
  if validate_config config then
    let new := bytes_of (seal_v3_record (make_v3_record config)) in
    validate_v3_record (of_bytes new) = true /\
    evolves (replacing path (path +:+ ".tmp") new (w_files w)) w w' /\
    (err = OK -> w_files w' = <[path := new]> (delete (path +:+ ".tmp") (w_files w))) /\
    (err <> OK -> err = ERR_MODULE_STORAGE_WRITE /\ w_files w' !! path = w_files w !! path)
  else err = ERR_MODULE_PARAM /\ w' = w.
Proof.
  intros Harg Hr Hrun. destruct (validate_config config) eqn:Hv.
  - intros new. split.
    + unfold new. rewrite of_bytes_bytes_of by by apply seal_in_range. by apply seal_valid.
    + change (write_result path (path +:+ ".tmp") new w err w'). eapply wp_result; [|exact Hrun].
      by apply (wp_write_runtime_control_file True 0); [..|left].
  - unfold write_runtime_control_file in Hrun. rewrite Harg, Hv in Hrun. by injection Hrun as <- <-.
Qed.

(** C23: what a successful write stored is what every later read of the unchanged file
    delivers: the configuration, with the identifier's unused bytes cleared.  A read
    can only fail with a storage error, and then delivers the default configuration. *)
Theorem runtime_control_roundtrip fuel fuel' arg path config w w1 w2 err config' w3 :
  c_path arg = Some path -> config_in_range config ->
  write_runtime_control_file fuel arg config w = Some (OK, w1) ->
  w_files w2 !! path = w_files w1 !! path ->
  read_runtime_control_file fuel' arg w2 = Some ((err, config'), w3) ->
  (err = OK /\ config' = stored_config config) \/
  (err = ERR_MODULE_STORAGE_READ /\ config' = zero_config).
Proof.
  intros Harg Hr Hwrite Hsame Hread.
  destruct (validate_config config) eqn:Hv.
  2: { unfold write_runtime_control_file in Hwrite. by rewrite Harg, Hv in Hwrite. }
  assert (Hw : write_result path (path +:+ ".tmp") (bytes_of (seal_v3_record (make_v3_record config))) w OK w1).
  { eapply wp_result; [|exact Hwrite].
    by apply (wp_write_runtime_control_file True 0); [..|left]. }
  destruct Hw as (_ & Hw & _). specialize (Hw eq_refl).
  rewrite Hw, lookup_insert_eq in Hsame.
  assert (Hback : of_bytes (bytes_of (seal_v3_record (make_v3_record config)))
                  = seal_v3_record (make_v3_record config))
    by by apply of_bytes_bytes_of, seal_in_range.
  assert (Hres : read_result path w2 (err, config') w3).
  { eapply wp_result; [|exact Hread]. by apply (wp_read_runtime_control_file True 0); [|left]. }
  destruct Hres as (_ & Hok & Htype & Hnone & Herr).
  destruct (decide (err = OK)) as [-> |Hne].
  - left. destruct (Hok eq_refl) as (content & Hc & _ & _ & ->). split; [done|].
    rewrite Hsame in Hc. apply (inj Some) in Hc as <-. rewrite Hback. by apply fill_seal.
  - right. destruct (Herr Hne) as [-> [-> | [-> | ->]]]; [| |done].
    + destruct (Htype eq_refl) as (content & Hc & Hbad). rewrite Hsame in Hc.
      apply (inj Some) in Hc as <-. rewrite Hback, seal_valid in Hbad by done. discriminate.
    + specialize (Hnone eq_refl). congruence.
Qed.

(** C24: after any one byte of a valid control file has changed (in a field, in the
    padding or in the checksum itself), no read accepts the file. *)
Theorem read_rejects_corruption fuel arg path content i b x w err config w' :
  c_path arg = Some path -> bytes_ok content -> length content = 128%nat ->
  validate_v3_record (of_bytes content) = true ->
  content !! i = Some x -> byte_ok b -> x <> b ->
  w_files w !! path = Some (<[i := b]> content) ->
  read_runtime_control_file fuel arg w = Some ((err, config), w') ->
  err <> OK /\ config = zero_config.
Proof.
  intros Harg Hok Hl Hv Hx Hb Hne Hfile Hread.
  assert (Hres : read_result path w (err, config) w').
  { eapply wp_result; [|exact Hread]. by apply (wp_read_runtime_control_file True 0); [|left]. }
  destruct Hres as (_ & Hread_ok & _ & _ & Herr).
  assert (err <> OK); [|split; [done|by apply Herr]].
  intros ->. destruct (Hread_ok eq_refl) as (content' & Hc & _ & Hv' & _).
  rewrite Hfile in Hc. apply (inj Some) in Hc as <-. by rewrite (v3_corrupted content i b x) in Hv'.
Qed.

(** the one-time conversion never touches an existing v3 file, and creates one
    only from a valid v2 record, of which it keeps the mode, both generations, the
    fingerprint and the 32 identifier bytes exactly; on the way the v3 file is absent
    or complete, and the legacy file stays. *)
Lemma migrate_preserves_id fuel arg path w err migrated w' :
  c_path arg = Some path ->
  (forall legacy, w_files w !! legacy_path path = Some legacy -> bytes_ok legacy) ->
  migrate_runtime_control_v2 fuel arg w = Some ((err, migrated), w') ->
  (migrated = true ->
     err = OK /\ w_files w !! path = None /\
     exists legacy content, w_files w !! legacy_path path = Some legacy /\
       w_files w' !! legacy_path path = Some legacy /\
       validate_v2_record (of_bytes legacy) = true /\ w_files w' !! path = Some content /\
       validate_v3_record (of_bytes content) = true /\
       fill_config_from_v3 (of_bytes content) = convert_v2 (of_bytes legacy)) /\
  (migrated = false -> err = OK -> w_files w' = w_files w) /\
  (is_Some (w_files w !! path) -> quiet w w') /\
  evolves (fun f => f !! path = w_files w !! path \/
    exists content, f !! path = Some content /\ validate_v3_record (of_bytes content) = true) w w'.
Proof.
  intros Harg Hbytes Hrun.
  assert (Hres : migrate_result path w (err, migrated) w').
  { eapply wp_result; [|exact Hrun]. by apply (wp_migrate True 0); [..|left]. }
  destruct Hres as [(Hq & -> & _)|(legacy & Hnone & Hlegacy & Hl & Hv & Hc & Hev & Herr & Hdone)].
  { split_and!; [done| |done|].
    - intros _ _. by destruct Hq.
    - eapply evolves_quiet; [|done]. apply evolves_refl. by left. }
  pose proof (convert_v2_in_range legacy Hl (Hbytes _ Hlegacy) Hv) as Hr.
  split_and!; [|intros -> E; by apply Herr in E|intros [c ?]; congruence|].
  2: { eapply evolves_mono; [|exact Hev]. intros f [[Hf|Hf] _]; [by left|right].
       exists (migrated_bytes legacy). split; [done|]. unfold migrated_bytes.
       rewrite of_bytes_bytes_of by by apply seal_in_range. by apply seal_valid. }
  intros Hm. pose proof (Hdone Hm) as Hfiles. split_and!; [by apply Herr|done|].
  exists legacy, (migrated_bytes legacy). unfold migrated_bytes.
  rewrite of_bytes_bytes_of by by apply seal_in_range.
  rewrite fill_seal, stored_convert by done. split_and!; try done.
  - rewrite Hfiles, lookup_insert_ne by congruence.
    rewrite lookup_delete_ne by (apply not_eq_sym, legacy_path_ne_tmp). done.
  - rewrite Hfiles. apply lookup_insert_eq.
  - by apply seal_valid.
Qed.

(** with fuel for the largest record, reading, writing and migrating return on
    every system that does not interrupt calls for ever. *)
Lemma runtime_control_terminates B fuel arg config w :
  responsive B -> (B * 257 <= fuel)%nat -> config_in_range config ->
  (forall path legacy, w_files w !! path = Some legacy -> bytes_ok legacy) ->
  is_Some (read_runtime_control_file fuel arg w) /\
  is_Some (write_runtime_control_file fuel arg config w) /\
  is_Some (migrate_runtime_control_v2 fuel arg w).
Proof.
  intros HB Hfuel Hr Hbytes.
  assert (Hn : forall n, (n <= 256)%nat -> enough False B fuel n).
  { intros n Hn. right. split; [done|nia]. }
  destruct (c_path arg) as [path|] eqn:Harg.
  - split_and!.
    + destruct (wp_total _ _ _ (wp_read_runtime_control_file False B fuel arg path w Harg
        (Hn 128%nat ltac:(lia)))) as (? & ? & -> & _). eauto.
    + destruct (validate_config config) eqn:Hv.
      * destruct (wp_total _ _ _ (wp_write_runtime_control_file False B fuel arg path config w
          Harg Hr Hv (Hn 128%nat ltac:(lia)))) as (? & ? & -> & _). eauto.
      * unfold write_runtime_control_file. rewrite Harg, Hv. by eexists.
    + destruct (wp_total _ _ _ (wp_migrate False B fuel arg path w Harg
        (Hbytes (legacy_path path)) (Hn 256%nat ltac:(lia)))) as (? & ? & -> & _). eauto.
  - unfold read_runtime_control_file, write_runtime_control_file, migrate_runtime_control_v2.
    rewrite Harg. split_and!; by eexists.
Qed.

End Properties.

(** * Concrete runs *)

#[local] Existing Instance sample_system.

Definition sample_config : ReplacementConfig := {|
  cfg_mode := 1; cfg_virtual_id_length := 32; cfg_config_generation := 5;
  cfg_seed_generation := 7; cfg_profile_fingerprint := 99;
  cfg_virtual_id := seqZ 1 64 |}.

Definition sample_path : option string := Some "/data/drmid_runtime_control_v3.bin".
Definition sample_file : string := "/data/drmid_runtime_control_v3.bin".
Definition sample_bytes : list Z := bytes_of (seal_v3_record (make_v3_record sample_config)).

Definition sample_legacy : list Z :=
  let record crc := {|
    v2_magic := kRuntimeControlV2Magic; v2_version := 2; v2_record_size := 256;
    v2_config_generation := 5; v2_seed_generation := 7; v2_profile_fingerprint := 99;
    v2_replacement_mode := 1; v2_rule_mode := 1; v2_target_count := 2;
    v2_virtual_id_length := 32; v2_target_euids := [10001; 10002] ++ replicate 30 0;
    v2_virtual_id := seqZ 1 64; v2_crc32 := crc; v2_tail_reserved := 0 |} in
  bytes_of (record (crc32 (take 248 (bytes_of (record 0))))).

Lemma sample_config_in_range : config_in_range sample_config.
Proof. apply (bool_decide_unpack _). vm_compute. reflexivity. Qed.

Definition sample_written : World :=
  world_after (write_runtime_control_file 200 sample_path sample_config (initial_world ∅)).

Definition sample_legacy_world : World :=
  initial_world {["/data/drmid_runtime_control_v2.bin" := sample_legacy]}.

Definition sample_migrated : World :=
  world_after (migrate_runtime_control_v2 600 sample_path sample_legacy_world).

Lemma sample_write_run :
  write_runtime_control_file 200 sample_path sample_config (initial_world ∅)
  = Some (OK, sample_written).
Proof. vm_compute. reflexivity. Qed.

Lemma sample_migrate_run :
  migrate_runtime_control_v2 600 sample_path sample_legacy_world
  = Some ((OK, true), sample_migrated).
Proof. vm_compute. reflexivity. Qed.

Lemma write_runtime_control_atomic_witness :
  evolves (replacing sample_file (sample_file +:+ ".tmp") sample_bytes ∅) (initial_world ∅) sample_written /\
  w_files sample_written !! sample_file = Some sample_bytes.
Proof.
  pose proof (write_runtime_control_atomic 200 sample_path sample_file sample_config
    (initial_world ∅) OK sample_written eq_refl sample_config_in_range sample_write_run) as H.
  change (validate_config sample_config) with true in H. cbv iota zeta in H.
  destruct H as (_ & Hev & Hok & _). split; [exact Hev|].
  rewrite (Hok eq_refl). apply lookup_insert_eq.
Defined.

Lemma sample_read_err :
  (fun r => r.1.1) <$> read_runtime_control_file 200 sample_path sample_written = Some OK.
Proof. vm_compute. reflexivity. Qed.

Lemma runtime_control_roundtrip_witness :
  exists w, read_runtime_control_file 200 sample_path sample_written
            = Some ((OK, stored_config sample_config), w).
Proof.
  pose proof sample_read_err as Herr.
  destruct (read_runtime_control_file 200 sample_path sample_written) as [[[err c] w]|] eqn:E;
    [|discriminate Herr].
  apply (inj Some) in Herr. cbn in Herr. subst err.
  destruct (runtime_control_roundtrip 200 200 sample_path sample_file sample_config
    (initial_world ∅) sample_written sample_written OK c w eq_refl sample_config_in_range
    sample_write_run eq_refl E) as [[_ ->]|[? _]]; [by eexists|discriminate].
Defined.

Lemma read_rejects_corruption_witness :
  exists err w, read_runtime_control_file 200 sample_path
    (initial_world {[sample_file := <[60%nat := 255]> sample_bytes]}) = Some ((err, zero_config), w) /\
    err <> OK.
Proof.
  destruct (read_runtime_control_file 200 sample_path
    (initial_world {[sample_file := <[60%nat := 255]> sample_bytes]})) as [[[err c] w]|] eqn:E.
  2: { exfalso. revert E. vm_compute. discriminate. }
  assert (H1 : bytes_ok sample_bytes) by (apply (bool_decide_unpack _); vm_compute; reflexivity).
  assert (H2 : length sample_bytes = 128%nat) by (vm_compute; reflexivity).
  assert (H3 : validate_v3_record (of_bytes sample_bytes) = true) by (vm_compute; reflexivity).
  assert (H4 : sample_bytes !! 60%nat = Some 13) by (vm_compute; reflexivity).
  assert (H5 : byte_ok 255) by (unfold byte_ok; lia).
  assert (H6 : 13 <> 255) by discriminate.
  destruct (read_rejects_corruption 200 sample_path sample_file sample_bytes 60 255 13
    _ err c w eq_refl H1 H2 H3 H4 H5 H6 (lookup_singleton_eq _ _) E) as [Hne ->].
  exists err, w. split; [reflexivity|exact Hne].
Defined.

Lemma migrate_preserves_id_witness :
  exists content, w_files sample_migrated !! sample_file = Some content /\
    fill_config_from_v3 (of_bytes content) = convert_v2 (of_bytes sample_legacy).
Proof.
  destruct (migrate_preserves_id 600 sample_path sample_file sample_legacy_world OK true
    sample_migrated eq_refl) as (H & _).
  - intros legacy Hl. assert (legacy = sample_legacy) as ->.
    { apply (inj Some). rewrite <-Hl. vm_compute. reflexivity. }
    apply (bool_decide_unpack _). vm_compute. reflexivity.
  - apply sample_migrate_run.
  - destruct (H eq_refl) as (_ & _ & legacy & content & Hl & _ & _ & Hc & _ & Hfill).
    exists content. split; [done|]. rewrite Hfill. f_equal. f_equal.
    apply (inj Some). rewrite <-Hl. vm_compute. reflexivity.
Defined.

Lemma runtime_control_terminates_witness :
  is_Some (migrate_runtime_control_v2 514 sample_path sample_legacy_world).
Proof.
  apply (runtime_control_terminates 2 514 sample_path sample_config sample_legacy_world
    sample_responsive); [lia|apply sample_config_in_range|].
  intros path legacy Hl. unfold sample_legacy_world in Hl. cbn [w_files initial_world] in Hl.
  apply lookup_singleton_Some in Hl as [_ <-].
  apply (bool_decide_unpack _). vm_compute. reflexivity.
Defined.
