(* ===== verification/RuntimeProfile.v ===== *)
(** The runtime profile (runtime_profile.cpp): the seed record on disk, its
    creation and atomic replacement, and the identifier derived from it. *)

From stdpp Require Import pretty.
From S2P Require Import Prelude Checksum Sha256 Records Posix AtomicFile.

(** src/runtime_profile.h:11-11 [kSeedBytes] *)
Definition kSeedBytes : nat := 32.
(** src/runtime_profile.h:12-12 [kVirtualIdBytes] *)
Definition kVirtualIdBytes : nat := 32.
(** src/runtime_profile.h:13-13 [kVirtualStreamBytes] *)
Definition kVirtualStreamBytes : nat := 64.

(** src/runtime_profile.h:15-20 [RuntimeProfile] *)
Record RuntimeProfile := {
  virtual_stream : list Z;
  seed_generation : Z;
  profile_fingerprint : Z;
  seed_created : bool;
}.

(** src/runtime_profile.cpp:20-20 [kSeedFileName] *)
Definition kSeedFileName : string := "drmid_seed_record_v1.bin".
(** src/runtime_profile.cpp:21-21 [kSeedMagic] *)
Definition kSeedMagic : Z := 0x30354445534d5244.
(** src/runtime_profile.cpp:22-22 [kSeedVersion] *)
Definition kSeedVersion : Z := 1.

(** src/runtime_profile.cpp:24-32 [SeedRecord] *)
Record SeedRecord := {
  sd_magic : Z;
  sd_version : Z;
  sd_seed_size : Z;
  sd_generation : Z;
  sd_seed : list Z;
  sd_crc32 : Z;
  sd_reserved : Z;
}.

#[global] Instance Seed_layout : Layout SeedRecord := {|
  size_of := 64;
  bytes_of r :=
    le_enc 8 (sd_magic r) ++ le_enc 4 (sd_version r) ++ le_enc 4 (sd_seed_size r) ++
    le_enc 8 (sd_generation r) ++ sd_seed r ++ le_enc 4 (sd_crc32 r) ++ le_enc 4 (sd_reserved r);
  of_bytes l := {|
    sd_magic := word_at 8 0 l; sd_version := word_at 4 8 l; sd_seed_size := word_at 4 12 l;
    sd_generation := word_at 8 16 l; sd_seed := slice 24 32 l; sd_crc32 := word_at 4 56 l;
    sd_reserved := word_at 4 60 l |};
  in_range r :=
    word_ok 8 (sd_magic r) /\ word_ok 4 (sd_version r) /\
    word_ok 4 (sd_seed_size r) /\ word_ok 8 (sd_generation r) /\
    length (sd_seed r) = 32%nat /\ bytes_ok (sd_seed r) /\
    word_ok 4 (sd_crc32 r) /\ word_ok 4 (sd_reserved r)
|}.

#[global] Instance Seed_laws : LayoutLaws SeedRecord.
Proof.
  split; cbn.
  - intros r Hr. destruct_and! Hr. rewrite !length_app, !le_enc_length. lia.
  - intros r Hr. destruct_and! Hr. unfold bytes_ok in *. rewrite !Forall_app.
    split_and!; (done || apply le_enc_bytes_ok).
  - intros [] Hr. cbn in *. destruct_and! Hr. unfold word_ok in *. f_equal; read_field.
  - intros l Hl Hok. join_fields.
  - intros l Hl Hok. unfold word_ok. split_and!; field_range.
Qed.

(** [SeedRecord record{}]. *)
Definition zero_seed : SeedRecord := of_bytes (replicate 64 0).

(** src/runtime_profile.cpp:284-288 [validate_seed_record] *)
Definition validate_seed_record (record : SeedRecord) : bool :=
  (sd_magic record =? kSeedMagic) && (sd_version record =? kSeedVersion) &&
  (sd_seed_size record =? Z.of_nat kSeedBytes) && negb (sd_generation record =? 0) &&
  (sd_crc32 record =? crc32_complement (take 56 (bytes_of record))).

#[global] Arguments validate_seed_record : simpl never.

(** src/runtime_profile.cpp:290-297 [seed_path] *)
Definition seed_path (module_private_dir : string) : string :=
  (if negb (bool_decide (module_private_dir = EmptyString)) &&
      negb (Nat.eqb (after_last_slash module_private_dir 0 0) (String.length module_private_dir))
   then module_private_dir +:+ "/" else module_private_dir) +:+ kSeedFileName.

(** src/runtime_profile.cpp:444-452 [load_or_create_runtime_profile] *)
Definition make_seed_record (previous_generation : Z) (seed : list Z) : SeedRecord :=
  let record crc := {|
    sd_magic := kSeedMagic; sd_version := kSeedVersion; sd_seed_size := Z.of_nat kSeedBytes;
    sd_generation := u64 (previous_generation + 1); sd_seed := seed;
    sd_crc32 := crc; sd_reserved := 0 |} in
  record (crc32_complement (take 56 (bytes_of (record 0)))).

(** src/runtime_profile.cpp:463-476 [load_or_create_runtime_profile] *)
Definition derive_profile (record : SeedRecord) (created : bool) : option RuntimeProfile :=
  stream ← hkdf_sha256 (sd_seed record) (bytes_of_string "SKP-DRMID-SALT-v1")
             (bytes_of_string "global-widevine-v1") kVirtualStreamBytes;
  mret {| virtual_stream := stream;
          seed_generation := sd_generation record;
          profile_fingerprint := virtual_id_fingerprint (take kVirtualIdBytes stream);
          seed_created := created |}.

(** [profile = {}]. *)
Definition empty_profile (created : bool) : RuntimeProfile :=
  {| virtual_stream := replicate kVirtualStreamBytes 0; seed_generation := 0;
     profile_fingerprint := 0; seed_created := created |}.

Section Operations.
Context `{OperatingSystem}.
Context (fuel : nat).

(** src/runtime_profile.cpp:248-282 [fill_random] *)
Definition fill_random (size : nat) : io (option (list Z)) :=
  output ← random_loop fuel size [];
  if Nat.eqb (length output) size then mret (Some output)
  else
    fd ← sys_ok;
    if negb fd then mret None
    else
      output ← random_loop fuel size [];
      _ ← sys_ok;
      mret (if Nat.eqb (length output) size then Some output else None).

(** The record argument is only written on success. *)

(** src/runtime_profile.cpp:299-323 [read_seed_file] *)
Definition read_seed_file (path : string) (record : SeedRecord) : io (KModErr * SeedRecord) :=
  fd ← sys_open_read path;
  match fd with
  | Open_enoent => mret (ERR_MODULE_STORAGE_NOT_FOUND, record)
  | Open_error => mret (ERR_MODULE_STORAGE_READ, record)
  | Opened content =>
      raw ← read_loop fuel content (size_of SeedRecord + 1) [];
      _ ← sys_ok;
      mret (if Nat.eqb (length raw) (size_of SeedRecord) then (OK, of_bytes raw)
            else (ERR_MODULE_STORAGE_TYPE, record))
  end.

(** src/runtime_profile.cpp:331-332 [write_seed_file] *)
Definition seed_temporary (path : string) : string := path +:+ (".tmp." +:+ pretty getpid).

(** src/runtime_profile.cpp:325-365 [write_seed_file] *)
Definition write_seed_file (module_private_dir path : string) (record : SeedRecord) : io KModErr :=
  made ← sys_ok;
  if negb made then mret ERR_MODULE_CREATE_DIR
  else
    let temporary := seed_temporary path in
    fd ← sys_open_write true temporary;
    if negb fd then mret ERR_MODULE_STORAGE_WRITE
    else
      written ← write_loop fuel temporary (bytes_of record);
      if negb written then
        _ ← sys_ok; _ ← sys_unlink temporary; mret ERR_MODULE_STORAGE_WRITE
      else
        file_ok ← sys_ok;
        _ ← sys_ok;
        renamed ← (if negb file_ok then mret false else sys_rename temporary path);
        if negb renamed then _ ← sys_unlink temporary; mret ERR_MODULE_STORAGE_WRITE
        else
          dir_fd ← sys_open_directory module_private_dir;
          (if (dir_fd : bool) then _ ← sys_ok; _ ← sys_ok; mret OK else mret OK).

(** The creation of a seed after the old record has been read. *)

(** src/runtime_profile.cpp:441-461 [load_or_create_runtime_profile] *)
Definition create_seed (module_private_dir path : string) (record : SeedRecord)
    : io (KModErr * SeedRecord) :=
  let previous_generation := if validate_seed_record record then sd_generation record else 0 in
  seed ← fill_random kSeedBytes;
  match seed with
  | None => mret (ERR_MODULE_STORAGE_READ, record)
  | Some seed =>
      let record := make_seed_record previous_generation seed in
      err ← write_seed_file module_private_dir path record;
      if is_failed err then mret (err, record)
      else
        '(err, verified) ← read_seed_file path zero_seed;
        if is_failed err then mret (err, record)
        else if bool_decide (bytes_of record <> bytes_of verified) ||
                negb (validate_seed_record verified)
        then mret (ERR_MODULE_STORAGE_READ, record)
        else mret (OK, record)
  end.

(** src/runtime_profile.cpp:416-477 [load_or_create_runtime_profile] *)
Definition load_or_create_runtime_profile (regenerate_seed : bool)
    (module_private_dir : option string) : io (KModErr * RuntimeProfile) :=
  match module_private_dir with
  | None | Some EmptyString => mret (ERR_MODULE_PARAM, empty_profile false)
  | Some dir =>
      if negb runtime_crypto_self_test then mret (ERR_MODULE_TEST_CHANNEL, empty_profile false)
      else
        let path := seed_path dir in
        '(read_err, record) ← read_seed_file path zero_seed;
        if is_ok read_err && negb (validate_seed_record record)
        then mret (ERR_MODULE_STORAGE_TYPE, empty_profile false)
        else if negb (is_ok read_err) && bool_decide (read_err <> ERR_MODULE_STORAGE_NOT_FOUND)
        then mret (read_err, empty_profile false)
        else
          let create := regenerate_seed || bool_decide (read_err = ERR_MODULE_STORAGE_NOT_FOUND) in
          '(err, record) ← (if create then create_seed dir path record else mret (OK, record));
          if is_failed err then mret (err, empty_profile false)
          else
            mret (match derive_profile record create with
                  | Some profile => (OK, profile)
                  | None => (ERR_MODULE_TEST_CHANNEL, empty_profile create)
                  end)
  end.

End Operations.

(** * Seed records *)

Lemma make_seed_in_range previous seed :
  length seed = 32%nat -> bytes_ok seed -> in_range (make_seed_record previous seed).
Proof.
  intros Hl Hok.
  assert (Hcrc : forall crc, word_ok 4 crc -> in_range
    {| sd_magic := kSeedMagic; sd_version := kSeedVersion; sd_seed_size := Z.of_nat kSeedBytes;
       sd_generation := u64 (previous + 1); sd_seed := seed; sd_crc32 := crc; sd_reserved := 0 |}).
  { intros crc Hcrc. pose proof (u64_range (previous + 1)). cbn. unfold word_ok in *.
    split_and!; try (done || lia). }
  apply Hcrc. assert (Hbytes : bytes_ok (take 56 (bytes_of
    {| sd_magic := kSeedMagic; sd_version := kSeedVersion; sd_seed_size := Z.of_nat kSeedBytes;
       sd_generation := u64 (previous + 1); sd_seed := seed; sd_crc32 := 0; sd_reserved := 0 |}))).
  { apply bytes_ok_take, bytes_of_bytes_ok, Hcrc. unfold word_ok. lia. }
  rewrite crc32_complement_eq by done. by apply crc32_range.
Qed.

(** The bytes the checksum covers. *)
Definition seed_front (r : SeedRecord) : list Z :=
  le_enc 8 (sd_magic r) ++ le_enc 4 (sd_version r) ++ le_enc 4 (sd_seed_size r) ++
  le_enc 8 (sd_generation r) ++ sd_seed r.

Lemma seed_covered r : length (sd_seed r) = 32%nat -> take 56 (bytes_of r) = seed_front r.
Proof.
  intros Hl. assert (Hf : length (seed_front r) = 56%nat).
  { unfold seed_front. rewrite !length_app, !le_enc_length. lia. }
  transitivity (take 56 (seed_front r ++ le_enc 4 (sd_crc32 r) ++ le_enc 4 (sd_reserved r))).
  - unfold seed_front. by rewrite <-!app_assoc.
  - by rewrite take_app_le, take_ge by lia.
Qed.

(** A new record is valid unless the generation has wrapped around. *)
Lemma make_seed_valid previous seed :
  length seed = 32%nat ->
  validate_seed_record (make_seed_record previous seed) = negb (u64 (previous + 1) =? 0).
Proof.
  intros Hl. set (r := make_seed_record previous seed).
  assert (Hcrc : sd_crc32 r = crc32_complement (seed_front r)).
  { unfold r, make_seed_record. cbn [sd_crc32]. by rewrite seed_covered. }
  unfold validate_seed_record. rewrite seed_covered, <-Hcrc by done.
  rewrite (Z.eqb_refl (sd_crc32 r)), andb_true_r. reflexivity.
Qed.

Section Specs.
Context `{OperatingSystem}.
Context (d : Prop) (B fuel : nat).
#[local] Notation enough := (enough d B fuel).

Lemma enough_le n m : (n <= m)%nat -> enough m -> enough n.
Proof. intros Hn [?|[? ?]]; [by left|right]. split; [done|nia]. Qed.

Lemma wp_fill_random size w :
  enough size ->
  wp d (fill_random fuel size) (fun r w' => quiet w w' /\
    (forall output, r = Some output -> length output = size /\ bytes_ok output)) w.
Proof.
  intros Hfuel. apply wp_bind.
  apply (wp_random_loop d B fuel B size []); [simpl; lia|constructor| |].
  { apply budget_start. by rewrite Nat.sub_0_r. }
  intros out w1 Hq1 Hok Hl. destruct (Nat.eqb_spec (length out) size).
  { apply wp_ret. split; [done|]. by intros ? [= <-]. }
  apply wp_bind, wp_sys_ok. intros [] w2 Hq2; cbn [negb].
  2: { apply wp_ret. split; [by etransitivity|done]. }
  apply wp_bind, (wp_random_loop d B fuel B size []); [simpl; lia|constructor| |].
  { apply budget_start. by rewrite Nat.sub_0_r. }
  intros out2 w3 Hq3 Hok2 Hl2. apply wp_bind, wp_sys_ok. intros _ w4 Hq4. apply wp_ret.
  split; [do 3 (etransitivity; [eassumption|]); done|].
  destruct (Nat.eqb_spec (length out2) size); [|done]. by intros ? [= <-].
Qed.

Lemma wp_read_seed_file path record w :
  enough 65 ->
  wp d (read_seed_file fuel path record) (fun '(err, r) w' => quiet w w' /\
    (err = OK -> exists content, w_files w !! path = Some content /\
       (64 <= length content)%nat /\ r = of_bytes (take 64 content)) /\
    (err <> OK -> r = record) /\
    (err = ERR_MODULE_STORAGE_NOT_FOUND -> w_files w !! path = None) /\
    (err = OK \/ err = ERR_MODULE_STORAGE_NOT_FOUND \/ err = ERR_MODULE_STORAGE_READ \/
     err = ERR_MODULE_STORAGE_TYPE)) w.
Proof.
  intros Hfuel. apply wp_bind, wp_open_read. intros [content| |] w1 Hq1 Hr.
  2, 3: apply wp_ret; split; [done|]; split_and!; [discriminate|done|done|auto].
  apply wp_bind. change [] with (take 0 content).
  apply (wp_read_loop d B fuel B content _ 0); [lia|lia|apply budget_start; by rewrite Nat.sub_0_r|].
  intros m w2 Hq2 Hm Hl. apply wp_bind, wp_sys_ok. intros _ w3 Hq3. apply wp_ret.
  assert (quiet w w3) by (do 2 (etransitivity; [eassumption|]); done).
  rewrite length_take_le by done. change (size_of SeedRecord) with 64%nat.
  destruct (Nat.eqb_spec m 64) as [->|].
  - split; [done|]. split_and!; [|done|discriminate|auto]. intros _. by exists content.
  - split; [done|]. split_and!; [discriminate|done|discriminate|auto].
Qed.

Lemma seed_tmp_ne path : path <> seed_temporary path.
Proof. apply app_ne. Qed.

Lemma wp_write_seed_file dir path record w :
  let new := bytes_of record in
  enough (length new) ->
  wp d (write_seed_file fuel dir path record) (fun err w' =>
    (quiet w w' /\ err = ERR_MODULE_CREATE_DIR) \/
    write_result path (seed_temporary path) new w err w') w.
Proof.
  intros new Hfuel. apply wp_bind, wp_sys_ok. intros [] w1 Hq1; cbn [negb].
  2: { apply wp_ret. by left. }
  eapply wp_mono; [|intros err w' Hres; right; exact Hres].
  eapply (wp_fill path); [apply seed_tmp_ne|done|done|..].
  - intros w2 Hev Hnew. cbn [negb]. apply wp_bind, wp_sys_ok. intros file_ok w3 Hq3.
    apply wp_bind, wp_sys_ok. intros _ w4 Hq4. assert (Hq : quiet w2 w4) by by etransitivity.
    apply wp_commit; [apply seed_tmp_ne|by eapply evolves_quiet|]. by destruct Hq as [-> _].
  - intros w2 Hev. cbn [negb]. apply wp_bind, wp_sys_ok. intros _ w3 Hq3.
    apply wp_discard; [apply seed_tmp_ne|by eapply evolves_quiet].
Qed.

(** What creating a seed may have done to the file at [path]. *)
Definition create_result (path : string) (previous : Z) (w : World)
    (result : KModErr * SeedRecord) (w' : World) : Prop :=
  (quiet w w' /\ result.1 <> OK) \/
  (exists seed, let record := make_seed_record previous seed in
     length seed = 32%nat /\ bytes_ok seed /\
     evolves (replacing path (seed_temporary path) (bytes_of record) (w_files w)) w w' /\
     (result.1 = OK -> result.2 = record /\ validate_seed_record record = true /\
        w_files w' !! path = Some (bytes_of record))).

Lemma of_bytes_stored previous seed content :
  length seed = 32%nat -> bytes_ok seed -> content = bytes_of (make_seed_record previous seed) ->
  of_bytes (take 64 content) = make_seed_record previous seed.
Proof.
  intros Hl Hok ->. pose proof (make_seed_in_range previous seed Hl Hok) as Hr.
  rewrite take_ge by (rewrite bytes_of_length by done; done). by apply of_bytes_bytes_of.
Qed.

Lemma wp_create_seed dir path record w :
  enough 65 ->
  wp d (create_seed fuel dir path record)
    (create_result path (if validate_seed_record record then sd_generation record else 0) w) w.
Proof.
  intros Hfuel. set (previous := if validate_seed_record record then _ else _).
  apply wp_bind. eapply wp_mono; [apply wp_fill_random; by apply (enough_le 32 65); [lia|]|].
  intros [seed|] w1 [Hq1 Hseed]; [|apply wp_ret; by left].
  destruct (Hseed seed eq_refl) as [Hl Hok]. clear Hseed. fold previous.
  pose proof (make_seed_in_range previous seed Hl Hok) as Hr.
  set (new := make_seed_record previous seed) in *. cbv zeta.
  apply wp_bind. eapply wp_mono; [apply wp_write_seed_file|].
  { rewrite bytes_of_length by done. by apply (enough_le _ 65); [cbn; lia|]. }
  intros err w2 [[Hq2 ->]|(Hev & Hdone & Herr)].
  { apply wp_ret. left. split; [by etransitivity|done]. }
  destruct (Hq1) as [Hf1 _]. rewrite Hf1 in *. apply (quiet_evolves _ _ _ _ Hq1) in Hev.
  assert (Hfail : forall e r w3, quiet w2 w3 -> e <> OK -> create_result path previous w (e, r) w3).
  { intros e r w3 Hq3 He. right. exists seed. split_and!; try done. by eapply evolves_quiet. }
  destruct (decide (err = OK)) as [-> | He].
  2: { assert (is_failed err = true) as -> by (by destruct err). by apply wp_ret, Hfail. }
  change (is_failed OK) with false. cbv iota. specialize (Hdone eq_refl).
  apply wp_bind. eapply wp_mono; [by apply wp_read_seed_file|].
  intros [err verified] w3 (Hq3 & Hread & _).
  destruct (decide (err = OK)) as [-> | He].
  2: { assert (is_failed err = true) as -> by (by destruct err). by apply wp_ret, Hfail. }
  change (is_failed OK) with false. cbv iota.
  destruct (Hread eq_refl) as (content & Hc & _ & ->).
  rewrite Hdone, lookup_insert_eq in Hc. apply (inj Some) in Hc. symmetry in Hc.
  rewrite (of_bytes_stored previous seed) by done. fold new.
  destruct (bool_decide _ || negb _) eqn:Ev; apply wp_ret; [by apply Hfail|].
  apply orb_false_elim in Ev as [_ Ev]. apply negb_false_iff in Ev.
  right. exists seed. split_and!; try done; [by eapply evolves_quiet|].
  intros _. split_and!; [done..|]. destruct Hq3 as [-> _]. rewrite Hdone. apply lookup_insert_eq.
Qed.

Lemma derive_profile_total record created : exists p, derive_profile record created = Some p.
Proof.
  unfold derive_profile, kVirtualStreamBytes. rewrite hkdf_eq by lia. by eexists.
Qed.

(** The generation a new seed follows. *)
Definition previous_generation (file : option (list Z)) : Z :=
  match file with Some content => sd_generation (of_bytes (take 64 content)) | None => 0 end.

Definition load_result (regenerate : bool) (path : string) (w : World)
    (result : KModErr * RuntimeProfile) (w' : World) : Prop :=
  let '(err, profile) := result in
  ((quiet w w' /\ (err = OK -> regenerate = false /\ seed_created profile = false)) \/
   (regenerate = true \/ w_files w !! path = None) /\
   (exists seed, let record := make_seed_record (previous_generation (w_files w !! path)) seed in
      length seed = 32%nat /\ bytes_ok seed /\
      evolves (replacing path (seed_temporary path) (bytes_of record) (w_files w)) w w' /\
      (err = OK -> w_files w' !! path = Some (bytes_of record) /\ seed_created profile = true))) /\
  (err = OK -> exists content, w_files w' !! path = Some content /\ (64 <= length content)%nat /\
     validate_seed_record (of_bytes (take 64 content)) = true /\
     derive_profile (of_bytes (take 64 content)) (seed_created profile) = Some profile) /\
  (err <> OK -> profile = empty_profile false).

Lemma derive_created record created p : derive_profile record created = Some p -> seed_created p = created.
Proof. unfold derive_profile. destruct (hkdf_sha256 _ _ _ _); [|done]. by intros [= <-]. Qed.
(** The profile of the record in use. *)
Lemma wp_derive regenerate path w err record create w' :
  (err = OK -> exists content, w_files w' !! path = Some content /\ (64 <= length content)%nat /\
     validate_seed_record (of_bytes (take 64 content)) = true /\ record = of_bytes (take 64 content)) ->
  ((quiet w w' /\ (err = OK -> regenerate = false /\ create = false)) \/
   (regenerate = true \/ w_files w !! path = None) /\
   (exists seed, let new := make_seed_record (previous_generation (w_files w !! path)) seed in
      length seed = 32%nat /\ bytes_ok seed /\
      evolves (replacing path (seed_temporary path) (bytes_of new) (w_files w)) w w' /\
      (err = OK -> w_files w' !! path = Some (bytes_of new) /\ create = true))) ->
  wp d (if is_failed err then mret (err, empty_profile false)
        else mret (match derive_profile record create with
                   | Some profile => (OK, profile)
                   | None => (ERR_MODULE_TEST_CHANNEL, empty_profile create)
                   end)) (load_result regenerate path w) w'.
Proof.
  intros Hin Hcases. destruct (derive_profile_total record create) as [p Hp].
  destruct (decide (err = OK)) as [-> | He].
  - change (is_failed OK) with false. cbv iota. rewrite Hp. apply wp_ret.
    pose proof (derive_created _ _ _ Hp) as Hcreated.
    split_and!; [|intros _|done].
    + rewrite Hcreated. exact Hcases.
    + destruct (Hin eq_refl) as (content & Hc & Hl & Hv & Hrec). exists content.
      split_and!; [done..|]. by rewrite Hcreated, <-Hrec.
  - assert (is_failed err = true) as -> by (by destruct err). apply wp_ret.
    split_and!; [|done|done].
    destruct Hcases as [[Hq _]|(Hr & seed & Hl & Hok & Hev & _)]; [by left|].
    right. split; [done|]. by exists seed.
Qed.

(** What loading takes from the record it read, or found missing: its generation, and
    that it may be used. *)
Lemma previous_record (files : gmap string (list Z)) path (err : KModErr) record :
  (err = OK -> exists content, files !! path = Some content /\
     (64 <= length content)%nat /\ record = of_bytes (take 64 content)) ->
  (err <> OK -> record = zero_seed) ->
  (err = ERR_MODULE_STORAGE_NOT_FOUND -> files !! path = None) ->
  is_ok err && negb (validate_seed_record record) = false ->
  negb (is_ok err) && bool_decide (err <> ERR_MODULE_STORAGE_NOT_FOUND) = false ->
  (if validate_seed_record record then sd_generation record else 0) = previous_generation (files !! path) /\
  (err = OK -> validate_seed_record record = true) /\
  (err = OK \/ err = ERR_MODULE_STORAGE_NOT_FOUND).
Proof.
  intros Hread Hkept Hmissing Ebad Eerr. destruct (decide (err = OK)) as [-> | He].
  - cbn in Ebad. apply negb_false_iff in Ebad. rewrite Ebad.
    destruct (Hread eq_refl) as (content & Hc & _ & ->). rewrite Hc. auto.
  - assert (is_ok err = false) as Eok by (by destruct err). rewrite Eok in Eerr.
    apply bool_decide_eq_false, dec_stable in Eerr. rewrite Hkept, Hmissing by done.
    split_and!; [|done|by right]. assert (validate_seed_record zero_seed = false) as -> by (vm_compute; reflexivity). done.
Qed.

Lemma wp_load regenerate dir w :
  dir <> EmptyString -> enough 65 ->
  wp d (load_or_create_runtime_profile fuel regenerate (Some dir))
    (load_result regenerate (seed_path dir) w) w.
Proof.
  intros Hdir Hfuel. unfold load_or_create_runtime_profile.
  destruct dir as [|c dir']; [done|]. set (dir := String c dir') in *. rewrite self_test_passes.
  cbn [negb]. set (path := seed_path dir). apply wp_bind.
  eapply wp_mono; [by apply wp_read_seed_file|].
  intros [err record] w1 (Hq1 & Hread & Hkept & Hmissing & Hcodes).
  assert (Hfail : forall e, e <> OK ->
    wp d (mret (e, empty_profile false)) (load_result regenerate path w) w1).
  { intros e He. apply wp_ret. split_and!; [by left|done|done]. }
  destruct (is_ok err && negb (validate_seed_record record)) eqn:Ebad; [by apply Hfail|].
  destruct (negb (is_ok err) && bool_decide (err <> ERR_MODULE_STORAGE_NOT_FOUND)) eqn:Eerr.
  { apply andb_true_iff in Eerr as [Eerr _]. apply Hfail. intros ->. discriminate. }
  destruct (Hq1) as [Hf1 _].
  destruct (previous_record (w_files w) path err record Hread Hkept Hmissing Ebad Eerr)
    as (Hprev & Hvalid & Hcode). clear Ebad Eerr Hcodes Hkept.
  destruct (regenerate || bool_decide (err = ERR_MODULE_STORAGE_NOT_FOUND)) eqn:Ecreate.
  - apply wp_bind. eapply wp_mono; [by apply wp_create_seed|]. rewrite Hprev.
    intros [e r] w2 Hres. unfold create_result in Hres. cbn [fst snd] in Hres. apply wp_derive.
    + intros ->. destruct Hres as [[_ []]|(seed & Hl & Hok & _ & Hdone)]; [done|].
      destruct (Hdone eq_refl) as (-> & Hv & Hc). exists (bytes_of (make_seed_record
        (previous_generation (w_files w !! path)) seed)).
      rewrite (of_bytes_stored (previous_generation (w_files w !! path)) seed) by done.
      split_and!; [done| |done..].
      rewrite bytes_of_length by by apply make_seed_in_range. done.
    + destruct Hres as [[Hq He]|(seed & Hl & Hok & Hev & Hdone)].
      { left. split; [by etransitivity|]. intros ->. by destruct He. }
      right. split.
      * apply orb_true_iff in Ecreate as [->|Ec]; [by left|right]. apply Hmissing.
        by apply bool_decide_eq_true in Ec.
      * exists seed. rewrite Hf1 in Hev. split_and!; [done..| |].
        -- by eapply quiet_evolves.
        -- intros ->. by destruct (Hdone eq_refl) as (_ & _ & ?).
  - apply orb_false_elim in Ecreate as [-> Ec]. apply bool_decide_eq_false in Ec.
    destruct Hcode as [-> | Hnf]; [|destruct (Ec Hnf)]. apply wp_bind, wp_ret, wp_derive.
    + intros _. destruct (Hread eq_refl) as (content & Hc & Hl & Hrec). exists content.
      rewrite Hf1. split_and!; [exact Hc|exact Hl| |exact Hrec].
      rewrite <-Hrec. by apply Hvalid.
    + left. split; [exact Hq1|]. intros _. split; reflexivity.
Qed.

End Specs.

Lemma derive_same record c c' p p' :
  derive_profile record c = Some p -> derive_profile record c' = Some p' ->
  virtual_stream p' = virtual_stream p /\ seed_generation p' = seed_generation p /\
  profile_fingerprint p' = profile_fingerprint p /\ seed_created p' = c'.
Proof.
  unfold derive_profile. generalize (hkdf_sha256 (sd_seed record)
    (bytes_of_string "SKP-DRMID-SALT-v1") (bytes_of_string "global-widevine-v1") kVirtualStreamBytes).
  intros [stream|] Hp Hp'; [|discriminate].
  apply (inj Some) in Hp, Hp'. by subst.
Qed.

(** * Properties *)

Section Properties.
Context `{OperatingSystem}.

(** C26: the seed file is at every moment the old one or a complete new record whose
    generation follows the old one's, and a profile is only reported together with the
    valid record it was derived from.  Without a request to regenerate, an existing
    file is never replaced, whatever it holds. *)
Theorem seed_file_protected fuel regenerate dir w err profile w' :
  dir <> EmptyString ->
  load_or_create_runtime_profile fuel regenerate (Some dir) w = Some ((err, profile), w') ->
  let path := seed_path dir in
  evolves (fun f => f !! path = w_files w !! path \/
    exists seed, length seed = 32%nat /\ f !! path =
      Some (bytes_of (make_seed_record (previous_generation (w_files w !! path)) seed))) w w' /\
  (regenerate = false -> is_Some (w_files w !! path) -> quiet w w') /\
  (err = OK -> exists content, w_files w' !! path = Some content /\
     validate_seed_record (of_bytes (take 64 content)) = true /\
     derive_profile (of_bytes (take 64 content)) (seed_created profile) = Some profile) /\
  (err <> OK -> profile = empty_profile false).
Proof.
  intros Hdir Hrun path.
  assert (Hres : load_result regenerate path w (err, profile) w').
  { eapply wp_result; [|exact Hrun]. by apply (wp_load True 0); [|left]. }
  destruct Hres as (Hcases & Hok & Herr). split_and!; [..|exact Herr].
  - destruct Hcases as [[Hq _]|(_ & seed & Hl & _ & Hev & _)].
    + eapply evolves_quiet; [|exact Hq]. apply evolves_refl. by left.
    + eapply evolves_mono; [|exact Hev]. intros f [[Hf|Hf] _]; [by left|right]. by exists seed.
  - intros -> [content Hc]. destruct Hcases as [[Hq _]|([? | Hnone] & _)];
      [exact Hq|discriminate|congruence].
  - intros HOK. destruct (Hok HOK) as (content & Hc & _ & Hv & Hp). by exists content.
Qed.

(** C27: the virtual identifier is stable: once a profile has been reported, every
    later load of the unchanged seed file delivers the same 64-byte stream, generation
    and fingerprint, and leaves all files alone; only a storage error can come instead. *)
Theorem profile_stable fuel fuel' regenerate dir w profile w1 w2 err profile' w3 :
  dir <> EmptyString ->
  load_or_create_runtime_profile fuel regenerate (Some dir) w = Some ((OK, profile), w1) ->
  w_files w2 !! seed_path dir = w_files w1 !! seed_path dir ->
  load_or_create_runtime_profile fuel' false (Some dir) w2 = Some ((err, profile'), w3) ->
  quiet w2 w3 /\
  (err = OK -> virtual_stream profile' = virtual_stream profile /\
     seed_generation profile' = seed_generation profile /\
     profile_fingerprint profile' = profile_fingerprint profile /\
     seed_created profile' = false) /\
  (err <> OK -> profile' = empty_profile false).
Proof.
  intros Hdir Hfirst Hsame Hsecond.
  assert (H1 : load_result regenerate (seed_path dir) w (OK, profile) w1).
  { eapply wp_result; [|exact Hfirst]. by apply (wp_load True 0); [|left]. }
  assert (H2 : load_result false (seed_path dir) w2 (err, profile') w3).
  { eapply wp_result; [|exact Hsecond]. by apply (wp_load True 0); [|left]. }
  destruct H1 as (_ & H1 & _). destruct (H1 eq_refl) as (content & Hc & Hl & Hv & Hp).
  destruct H2 as (Hcases & H2 & Herr).
  destruct Hcases as [[Hq Hflags]|([? | Hnone] & _)]; [|discriminate|congruence].
  split_and!; [exact Hq| |exact Herr]. intros HOK.
  destruct (H2 HOK) as (content' & Hc' & _ & _ & Hp').
  destruct Hq as [Hf _]. rewrite Hf, Hsame, Hc in Hc'. apply (inj Some) in Hc'. subst content'.
  destruct (Hflags HOK) as [_ Hcreated]. rewrite Hcreated in Hp'.
  exact (derive_same _ _ _ _ _ Hp Hp').
Qed.

Lemma load_terminates B fuel regenerate dir w :
  responsive B -> (B * 66 <= fuel)%nat ->
  is_Some (load_or_create_runtime_profile fuel regenerate dir w).
Proof.
  intros HB Hfuel. destruct dir as [[|c dir]|]; [by eexists| |by eexists].
  destruct (wp_total _ _ _ (wp_load False B fuel regenerate (String c dir) w ltac:(done)
    (or_intror (conj HB Hfuel)))) as (? & ? & -> & _). by eexists.
Qed.

End Properties.

(** * Concrete runs *)

#[local] Existing Instance sample_system.

Definition sample_created : World :=
  world_after (load_or_create_runtime_profile 300 false (Some "/data") (initial_world ∅)).

Definition run_code (m : option ((KModErr * RuntimeProfile) * World)) : option (KModErr * bool) :=
  (fun '((err, p), _) => (err, seed_created p)) <$> m.

Lemma sample_create_code :
  run_code (load_or_create_runtime_profile 300 false (Some "/data") (initial_world ∅))
  = Some (OK, true).
Proof. vm_compute. reflexivity. Qed.

Lemma sample_reload_code :
  run_code (load_or_create_runtime_profile 300 false (Some "/data") sample_created) = Some (OK, false).
Proof. vm_compute. reflexivity. Qed.

(** The generation counter wraps: a regeneration after the last one leaves a record
    with generation zero, which no load accepts any more. *)
Definition exhausted_world : World :=
  initial_world {["/data/drmid_seed_record_v1.bin" :=
    bytes_of (make_seed_record (UINT64_MAX - 1) (seqZ 1 32))]}.

Lemma regenerate_exhausted :
  run_code (load_or_create_runtime_profile 300 true (Some "/data") exhausted_world)
    = Some (ERR_MODULE_STORAGE_READ, false) /\
  run_code (load_or_create_runtime_profile 300 true (Some "/data")
    (world_after (load_or_create_runtime_profile 300 true (Some "/data") exhausted_world)))
    = Some (ERR_MODULE_STORAGE_TYPE, false).
Proof. split; vm_compute; reflexivity. Qed.

Lemma sample_create_run :
  exists p, load_or_create_runtime_profile 300 false (Some "/data") (initial_world ∅)
            = Some ((OK, p), sample_created) /\ seed_created p = true.
Proof.
  pose proof sample_create_code as Hcode. unfold sample_created.
  destruct (load_or_create_runtime_profile 300 false (Some "/data") (initial_world ∅))
    as [[[err p] w]|]; [|discriminate Hcode].
  cbn in Hcode. injection Hcode as -> ?. by exists p.
Qed.

Lemma seed_file_protected_witness :
  exists content, w_files sample_created !! seed_path "/data" = Some content /\
    validate_seed_record (of_bytes (take 64 content)) = true.
Proof.
  destruct sample_create_run as (p & Hrun & _).
  destruct (seed_file_protected 300 false "/data" (initial_world ∅) OK p sample_created
    ltac:(discriminate) Hrun) as (_ & _ & Hok & _).
  destruct (Hok eq_refl) as (content & Hc & Hv & _). exists content. split; [exact Hc|exact Hv].
Defined.

Lemma profile_stable_witness :
  exists p p' w, load_or_create_runtime_profile 300 false (Some "/data") sample_created
                 = Some ((OK, p'), w) /\
    virtual_stream p' = virtual_stream p /\ seed_created p = true /\ seed_created p' = false.
Proof.
  destruct sample_create_run as (p & Hrun & Hp). pose proof sample_reload_code as Hcode.
  destruct (load_or_create_runtime_profile 300 false (Some "/data") sample_created)
    as [[[err p'] w]|] eqn:E; [|discriminate Hcode].
  cbn in Hcode. injection Hcode as -> _.
  destruct (profile_stable 300 300 false "/data" (initial_world ∅) p sample_created sample_created
    OK p' w ltac:(discriminate) Hrun eq_refl E) as (_ & Hok & _).
  destruct (Hok eq_refl) as (Hs & _ & _ & Hc). exists p, p', w. split_and!; [reflexivity|exact Hs|exact Hp|exact Hc].
Defined.
