(* ===== verification/HalIdentity.v ===== *)
(** Discovery of the Widevine HAL processes (hal_identity.cpp): which entries of
    procfs qualify, and the identity set built from them. *)

From stdpp Require Import sorting.
From Stdlib Require String.
From S2P Require Import Prelude KernelContext Slots Posix.

#[local] Notation length_s := String.length.

(** src/hal_identity.h:11-17 [HalProcessInfo] *)
Record HalProcessInfo := {
  hp_tgid : Z;
  hp_uid : Z;
  hp_exe : string;
  hp_domain : string;
  hp_binder_path : string;
}.

(** What one read of an open file delivers; a script that has ended reads as the end
    of the file. *)
Inductive read_event := Chunk (bytes : string) | Read_eintr | Read_error.

(** Procfs as the discovery reaches it: links, the names in a directory, and the
    reads an opened file answers with. *)
Class ProcFs := {
  readlink : string -> option string;
  list_dir : string -> option (list string);
  open_file : string -> option (list read_event);
}.

(** * Strings *)

Definition contains (sub s : string) : bool :=
  match String.index 0 sub s with Some _ => true | None => false end.

Definition digit_of (c : Ascii.ascii) : option Z :=
  let n := Z.of_nat (Ascii.nat_of_ascii c) in
  if (48 <=? n) && (n <=? 57) then Some (n - 48) else None.

Fixpoint all_digits (s : string) : bool :=
  match s with
  | EmptyString => true
  | String c s => bool_decide (is_Some (digit_of c)) && all_digits s
  end.

(** src/hal_identity.cpp:21-27 [decimal_name] *)
Definition decimal_name (text : string) : bool :=
  negb (bool_decide (text = EmptyString)) && all_digits text.

(** The digits at the head of a string, as a number. *)
Fixpoint decimal (value : Z) (s : string) : Z :=
  match s with
  | EmptyString => value
  | String c s =>
      match digit_of c with Some d => decimal (10 * value + d) s | None => value end
  end.

(** [strtoul] in base 10 on a decimal name: saturates at the largest value. *)
Definition strtoul (s : string) : Z := Z.min (decimal 0 s) UINT64_MAX.

(** src/hal_identity.cpp:29-32 [join_path] *)
Definition join_path (left right : string) : string :=
  match left with
  | EmptyString => right
  | _ => if Nat.eqb (after_last_slash left 0 0) (length_s left) then left +:+ right
         else left +:+ "/" +:+ right
  end.

(** src/hal_identity.cpp:71-74 [basename_of] *)
Definition basename_of (path : string) : string :=
  let slash := after_last_slash path 0 0 in
  String.substring slash (length_s path - slash) path.

(** src/hal_identity.cpp:76-81 [looks_like_widevine_exe] *)
Definition looks_like_widevine_exe (exe : string) : bool :=
  let base := basename_of exe in
  contains "drm" base && (contains "widevine" base || contains "/widevine/" exe).

(** The text before the first NUL. *)
Fixpoint before_nul (s : string) : string :=
  match s with
  | EmptyString => EmptyString
  | String c s => if Ascii.eqb c Ascii.zero then EmptyString else String c (before_nul s)
  end.

(** src/hal_identity.cpp:83-88 [cmdline_matches_exe] *)
Definition cmdline_matches_exe (cmdline exe : string) : bool :=
  let argv0 := before_nul cmdline in
  negb (bool_decide (argv0 = EmptyString)) &&
  bool_decide (basename_of argv0 = basename_of exe).

Definition is_space (c : Ascii.ascii) : bool :=
  let n := Z.of_nat (Ascii.nat_of_ascii c) in (n =? 32) || (9 <=? n) && (n <=? 13).

Fixpoint skip_spaces (s : string) : string :=
  match s with
  | EmptyString => EmptyString
  | String c s' => if is_space c then skip_spaces s' else s
  end.

(** An unsigned conversion: spaces, a sign, and at least one digit.  The number is read
    in 64 bits, where a larger one saturates, and cut to the 32 of the variable. *)
Definition scan_unsigned (s : string) : option Z :=
  let number negative s :=
    match s with
    | String c _ =>
        match digit_of c with
        | Some _ =>
            let v := decimal 0 s in
            Some (u32 (if UINT64_MAX <? v then UINT64_MAX
                       else if (negative : bool) then - v else v))
        | None => None
        end
    | EmptyString => None
    end in
  match skip_spaces s with
  | String c s' =>
      if Ascii.eqb c (Ascii.ascii_of_nat 45) then number true s'
      else if Ascii.eqb c (Ascii.ascii_of_nat 43) then number false s'
      else number false (String c s')
  | EmptyString => None
  end.

(** src/hal_identity.cpp:90-99 [parse_uid] *)
Definition parse_uid (status : string) : option Z :=
  match String.index 0 "Uid:" status with
  | None => None
  | Some offset =>
      match scan_unsigned (String.substring (offset + 4) (length_s status - (offset + 4)) status) with
      | None => None
      | Some uid => if (uid =? 1013) || (uid =? 1019) || (uid =? 1031) then Some uid else None
      end
  end.

(** src/hal_identity.cpp:101-105 [widevine_domain] *)
Definition widevine_domain (domain : string) : bool :=
  contains "hal_drm_widevine" domain || contains "drm" domain && contains "widevine" domain.

(** * Reading procfs *)

(** src/hal_identity.cpp:51-61 [read_bounded_file] *)
Fixpoint bounded_loop (limit : nat) (used : string) (reads : list read_event)
    : string * list read_event :=
  match reads with
  | [] => (used, [])
  | event :: rest =>
      if (length_s used <? limit)%nat then
        match event with
        | Chunk EmptyString | Read_error => (used, rest)
        | Read_eintr => bounded_loop limit used rest
        | Chunk bytes =>
            let room := (limit - length_s used)%nat in
            if (length_s bytes <=? room)%nat then bounded_loop limit (used +:+ bytes) rest
            else (used +:+ String.substring 0 room bytes,
                  Chunk (String.substring room (length_s bytes - room) bytes) :: rest)
        end
      else (used, reads)
  end.

(** Whether the one-byte read after the loop delivers a byte. *)
Definition tail_byte (reads : list read_event) : bool :=
  match reads with Chunk (String _ _) :: _ => true | _ => false end.

Section Discovery.
Context `{ProcFs}.

(** src/hal_identity.cpp:44-69 [read_bounded_file] *)
Definition read_bounded_file (path : string) (limit : nat) : option string :=
  match open_file path with
  | None => None
  | Some reads =>
      let '(used, rest) := bounded_loop limit EmptyString reads in
      if tail_byte rest then None else Some used
  end.

Definition PATH_MAX : nat := 4096.

(** src/hal_identity.cpp:34-42 [read_link] *)
Definition read_link (path : string) : option string :=
  match readlink path with
  | None | Some EmptyString => None
  | Some target => Some (String.substring 0 PATH_MAX target)
  end.

(** src/hal_identity.cpp:113-124 [find_binder_fd] *)
Fixpoint find_binder_entry (fd_root : string) (entries : list string) : option string :=
  match entries with
  | [] => None
  | entry :: entries =>
      if negb (decimal_name entry) then find_binder_entry fd_root entries
      else match read_link (join_path fd_root entry) with
      | None => find_binder_entry fd_root entries
      | Some target =>
          let base := basename_of target in
          if bool_decide (base = "binder") || bool_decide (base = "hwbinder") ||
             bool_decide (base = "vndbinder")
          then Some target else find_binder_entry fd_root entries
      end
  end.

(** src/hal_identity.cpp:107-127 [find_binder_fd] *)
Definition find_binder_fd (process_root : string) : option string :=
  let fd_root := join_path process_root "fd" in
  match list_dir fd_root with
  | None => None
  | Some entries => find_binder_entry fd_root entries
  end.

Definition guard_bool (b : bool) : option unit := if b then Some tt else None.

(** src/hal_identity.cpp:129-153 [inspect_candidate] *)
Definition inspect_candidate (proc_root pid_text : string) : option HalProcessInfo :=
  _ ← guard_bool (decimal_name pid_text);
  let parsed := strtoul pid_text in
  _ ← guard_bool (negb ((parsed =? 0) || (UINT32_MAX <? parsed)));
  let root := join_path proc_root pid_text in
  exe ← read_link (join_path root "exe");
  _ ← guard_bool (looks_like_widevine_exe exe);
  cmdline ← read_bounded_file (join_path root "cmdline") 4096;
  _ ← guard_bool (cmdline_matches_exe cmdline exe);
  status ← read_bounded_file (join_path root "status") 32768;
  uid ← parse_uid status;
  domain ← read_bounded_file (join_path root "attr/current") 512;
  _ ← guard_bool (widevine_domain domain);
  binder_path ← find_binder_fd root;
  mret {| hp_tgid := parsed; hp_uid := uid; hp_exe := exe; hp_domain := domain;
          hp_binder_path := binder_path |}.

(** * The identity set *)

Definition tgid_le (left right : HalProcessInfo) : Prop := hp_tgid left <= hp_tgid right.

#[global] Instance tgid_le_dec left right : Decision (tgid_le left right).
Proof. unfold tgid_le. apply _. Defined.

(** [std::unique]: drops an element with the identity of the one kept before it. *)

(** src/hal_identity.cpp:181-187 [discover_widevine_hal_identities] *)
Fixpoint unique_after (previous : HalProcessInfo) (l : list HalProcessInfo) : list HalProcessInfo :=
  match l with
  | [] => []
  | x :: l => if hp_tgid previous =? hp_tgid x then unique_after previous l
              else x :: unique_after x l
  end.

Definition unique (l : list HalProcessInfo) : list HalProcessInfo :=
  match l with [] => [] | x :: l => x :: unique_after x l end.

(** [HalIdentityConfig{}]. *)
Definition no_identities : HalIdentityConfig := Build_HalIdentityConfig 0 0 [0; 0; 0; 0].

(** The sort is some sort by identity: which of two entries with the same identity
    comes first is not determined, and only shows in the details. *)

(** src/hal_identity.cpp:157-198 [discover_widevine_hal_identities] *)
Definition discover_widevine_hal_identities (proc_root : option string) (generation : Z)
    : KModErr * HalIdentityConfig * list HalProcessInfo :=
  match proc_root with
  | None | Some EmptyString => (ERR_MODULE_PARAM, no_identities, [])
  | Some root =>
      if generation =? 0 then (ERR_MODULE_PARAM, no_identities, [])
      else match list_dir root with
      | None => (ERR_MODULE_OPEN_FILE, no_identities, [])
      | Some entries =>
          let matches := omap (inspect_candidate root) entries in
          let matches := unique (merge_sort tgid_le matches) in
          if kHalIdentityLimit <? Z.of_nat (length matches)
          then (ERR_MODULE_PARAM, no_identities, [])
          else (OK,
            {| hi_generation := generation; hi_count := Z.of_nat (length matches);
               hi_tgids := (hp_tgid <$> matches) ++ replicate (4 - length matches) 0 |}, matches)
      end
  end.

End Discovery.

(** * Facts *)

#[local] Instance tgid_le_total : Total tgid_le.
Proof. intros x y. unfold tgid_le. lia. Qed.

Lemma inspect_tgid `{ProcFs} root text info :
  inspect_candidate root text = Some info -> 0 < hp_tgid info <= UINT32_MAX.
Proof.
  unfold inspect_candidate. intros Hi.
  repeat match type of Hi with
  | mbind _ _ = Some _ => apply bind_Some in Hi as (? & ? & Hi)
  end.
  injection Hi as <-. cbn [hp_tgid].
  repeat match goal with
  | H : guard_bool ?b = Some _ |- _ =>
      let E := fresh "E" in destruct b eqn:E; [clear H|discriminate H]
  end.
  assert (0 <= decimal 0 text).
  { generalize text. assert (Hgen : forall s v, 0 <= v -> 0 <= decimal v s).
    { induction s as [|c s IH]; intros v Hv; cbn [decimal]; [done|].
      destruct (digit_of c) as [d|] eqn:Ed; [|done]. apply IH. unfold digit_of in Ed.
      destruct (_ && _) eqn:Edigit in Ed; [|done]. injection Ed as <-. btrue. lia. }
    intros s. by apply Hgen. }
  btrue. unfold strtoul, UINT32_MAX, UINT64_MAX in *. lia.
Qed.

(** Sorting and dropping repetitions gives strictly ascending identities, and neither
    loses nor invents one. *)
Lemma unique_after_spec previous l :
  Sorted tgid_le (previous :: l) ->
  Sorted Z.lt (hp_tgid <$> previous :: unique_after previous l) /\
  forall t, t ∈ hp_tgid <$> previous :: unique_after previous l <-> t ∈ hp_tgid <$> previous :: l.
Proof.
  revert previous. induction l as [|x l IH]; intros previous Hs; [by split; [repeat constructor|]|].
  apply Sorted_inv in Hs as [Hl Hx]. apply HdRel_inv in Hx. unfold tgid_le in Hx.
  cbn [unique_after]. destruct (Z.eqb_spec (hp_tgid previous) (hp_tgid x)) as [E|E].
  - destruct (IH previous) as [IHs IHin].
    { apply Sorted_inv in Hl as [Hl Hh]. constructor; [done|].
      destruct Hh as [|y l Hy]; constructor. unfold tgid_le in *. lia. }
    split; [done|]. intros t. rewrite IHin. rewrite !fmap_cons, !elem_of_cons, E. tauto.
  - destruct (IH x Hl) as [IHs IHin]. split.
    + rewrite fmap_cons. constructor; [done|]. rewrite fmap_cons. constructor. lia.
    + intros t. rewrite fmap_cons, elem_of_cons, IHin, (fmap_cons _ previous), elem_of_cons. done.
Qed.

Lemma unique_spec l :
  Sorted tgid_le l ->
  Sorted Z.lt (hp_tgid <$> unique l) /\
  forall t, t ∈ hp_tgid <$> unique l <-> t ∈ hp_tgid <$> l.
Proof. destruct l as [|x l]; [done|]. apply unique_after_spec. Qed.

Lemma sorted_lt_nodup l : Sorted Z.lt l -> NoDup l.
Proof.
  intros Hs. apply Sorted_StronglySorted in Hs; [|intros x y z; lia].
  induction Hs as [|a l Hs IH Ha]; constructor; [|done].
  intros Hin. rewrite Forall_forall in Ha. specialize (Ha a Hin). lia.
Qed.

Section Properties.
Context `{ProcFs}.

(** The identities of the entries of [root] that qualify. *)
Definition qualifies (root : string) (t : Z) : Prop :=
  exists entries entry info, list_dir root = Some entries /\ entry ∈ entries /\
    inspect_candidate root entry = Some info /\ hp_tgid info = t.

Lemma discovered_tgids root entries t :
  list_dir root = Some entries ->
  t ∈ hp_tgid <$> unique (merge_sort tgid_le (omap (inspect_candidate root) entries)) <->
  qualifies root t.
Proof.
  intros Hdir. rewrite (proj2 (unique_spec _ (Sorted_merge_sort tgid_le _))).
  rewrite list_elem_of_fmap. unfold qualifies. rewrite Hdir. split.
  - intros (info & -> & Hin). rewrite merge_sort_Permutation, list_elem_of_omap in Hin.
    destruct Hin as (entry & Hentry & Hi). by exists entries, entry, info.
  - intros (? & entry & info & [= <-] & Hentry & Hi & <-). exists info. split; [done|].
    rewrite merge_sort_Permutation, list_elem_of_omap. by exists entry.
Qed.

(** C28: discovery reports exactly the processes that qualify, each once and in
    ascending order, as a set the publication accepts, and with the generation it was
    given.  It fails, and reports nothing, exactly when it was called without a
    directory or a generation, cannot list the directory, or finds more distinct
    processes than the four slots hold. *)
Theorem discover_exact root generation :
  let '(err, identities, details) := discover_widevine_hal_identities root generation in
  let tgids := take (Z.to_nat (hi_count identities)) (hi_tgids identities) in
  (err = OK -> exists dir, root = Some dir /\
     validate_hal_identities identities = true /\ hi_generation identities = generation /\
     (forall t, t ∈ tgids <-> qualifies dir t) /\ Sorted Z.lt tgids /\
     tgids = hp_tgid <$> details) /\
  (err <> OK -> identities = no_identities /\ details = []) /\
  (err = OK <-> exists dir entries, root = Some dir /\ dir <> EmptyString /\ generation <> 0 /\
     list_dir dir = Some entries /\
     exists l, NoDup l /\ (length l <= 4)%nat /\ forall t, qualifies dir t -> t ∈ l).
Proof.
  destruct root as [[|c dir']|]; cbn [discover_widevine_hal_identities].
  1, 3: split_and!; [discriminate|done|]; split; [discriminate|naive_solver].
  set (dir := String c dir').
  destruct (Z.eqb_spec generation 0).
  { split_and!; [discriminate|done|]. split; [discriminate|naive_solver]. }
  destruct (list_dir dir) as [entries|] eqn:Hdir.
  2: { split_and!; [discriminate|done|]. split; [discriminate|naive_solver]. }
  set (matches := unique (merge_sort tgid_le (omap (inspect_candidate dir) entries))).
  assert (Hin : forall t, t ∈ hp_tgid <$> matches <-> qualifies dir t)
    by (intros t; by apply discovered_tgids).
  assert (Hsorted : Sorted Z.lt (hp_tgid <$> matches))
    by apply (unique_spec _ (Sorted_merge_sort tgid_le _)).
  destruct (Z.ltb_spec kHalIdentityLimit (Z.of_nat (length matches))) as [Hmany|Hfew];
    unfold kHalIdentityLimit in *.
  - split_and!; [discriminate|done|]. split; [discriminate|].
    intros (d & es & [= <-] & _ & _ & _ & l & Hnd & Hl & Hall). exfalso.
    assert (length (hp_tgid <$> matches) <= length l)%nat; [|rewrite length_fmap in *; lia].
    apply submseteq_length, NoDup_submseteq; [by apply sorted_lt_nodup|].
    intros t Ht. by apply Hall, Hin.
  - cbn [hi_count hi_tgids hi_generation]. rewrite Nat2Z.id.
    rewrite take_app_le, take_ge by (rewrite length_fmap; lia).
    split_and!; [|done|].
    + intros _. exists dir. split_and!; try done. apply validate_identities_iff; cbn [hi_tgids].
      { apply Forall_app. split; [|by apply Forall_replicate]. apply Forall_forall.
        intros t Ht. apply Hin in Ht as (? & ? & info & _ & _ & Hi & <-).
        apply inspect_tgid in Hi. lia. }
      unfold identities_ok. cbn [hi_generation hi_count hi_tgids]. rewrite Nat2Z.id.
      rewrite take_app_le, take_ge, drop_app_ge, length_fmap, Nat.sub_diag, drop_0
        by (rewrite length_fmap; lia).
      split_and!; [done|unfold kHalIdentityLimit; lia| |by apply Forall_replicate].
      constructor; [done|]. destruct (hp_tgid <$> matches) as [|t ts] eqn:Et; constructor.
      assert (Ht : t ∈ t :: ts) by left. apply Hin in Ht as (? & ? & info & _ & _ & Hi & <-).
      apply inspect_tgid in Hi. lia.
    + split; [|done]. intros _. exists dir, entries. split_and!; [done..|].
      exists (hp_tgid <$> matches). split_and!; [by apply sorted_lt_nodup|rewrite length_fmap; lia|].
      intros t. apply Hin.
Qed.

End Properties.
