(* ===== verification/ControlIpc.v ===== *)
(** The request and response records of the control socket (control_ipc.cpp). *)

From S2P Require Import Prelude Checksum Records.

(** * Records on the socket *)

(** src/control_ipc.h:10-10 [kControlIpcMagic] *)
Definition kControlIpcMagic : Z := 0x30324350494d5244.
(** src/control_ipc.h:11-11 [kControlIpcVersion] *)
Definition kControlIpcVersion : Z := 5.

(** src/control_ipc.h:13-17 [ControlIpcOperation] *)
Inductive ControlIpcOperation := kStatus | kApply | kStop.

Definition operation_num (o : ControlIpcOperation) : Z :=
  match o with kStatus => 1 | kApply => 2 | kStop => 3 end.

Definition operation_of (n : Z) : option ControlIpcOperation :=
  if n =? 1 then Some kStatus else if n =? 2 then Some kApply
  else if n =? 3 then Some kStop else None.

(** src/control_ipc.cpp:33-40 [ControlIpcRequest] *)
Record ControlIpcRequest := {
  rq_magic : Z;
  rq_version : Z;
  rq_operation : Z;
  rq_request_id : Z;
  rq_crc32 : Z;
  rq_reserved : Z;
}.

#[global] Instance Request_layout : Layout ControlIpcRequest := {|
  size_of := 32;
  bytes_of r :=
    le_enc 8 (rq_magic r) ++ le_enc 4 (rq_version r) ++ le_enc 4 (rq_operation r) ++
    le_enc 8 (rq_request_id r) ++ le_enc 4 (rq_crc32 r) ++ le_enc 4 (rq_reserved r);
  of_bytes l := {|
    rq_magic := word_at 8 0 l; rq_version := word_at 4 8 l; rq_operation := word_at 4 12 l;
    rq_request_id := word_at 8 16 l; rq_crc32 := word_at 4 24 l; rq_reserved := word_at 4 28 l |};
  in_range r :=
    word_ok 8 (rq_magic r) /\ word_ok 4 (rq_version r) /\ word_ok 4 (rq_operation r) /\
    word_ok 8 (rq_request_id r) /\ word_ok 4 (rq_crc32 r) /\ word_ok 4 (rq_reserved r)
|}.

#[global] Instance Request_laws : LayoutLaws ControlIpcRequest.
Proof.
  split; cbn.
  - intros r Hr. rewrite !length_app, !le_enc_length. lia.
  - intros r Hr. unfold bytes_ok in *. rewrite !Forall_app. split_and!; apply le_enc_bytes_ok.
  - intros [] Hr. cbn in *. destruct_and! Hr. unfold word_ok in *. f_equal; read_field.
  - intros l Hl Hok. join_fields.
  - intros l Hl Hok. unfold word_ok. split_and!; field_range.
Qed.

(** src/control_ipc.h:19-49 [ControlIpcResponse] *)
Record ControlIpcResponse := {
  rs_magic : Z;
  rs_version : Z;
  rs_result : Z;
  rs_request_id : Z;
  rs_daemon_pid : Z;
  rs_active_calls : Z;
  rs_config_generation : Z;
  rs_seed_generation : Z;
  rs_profile_fingerprint : Z;
  rs_switches : Z;
  rs_rejections : Z;
  rs_server_request_hits : Z;
  rs_correlated_reply_candidates : Z;
  rs_replacement_candidates : Z;
  rs_replacement_dry_run_hits : Z;
  rs_replacement_write_ok : Z;
  rs_replacement_write_faults : Z;
  rs_hal_identity_generation : Z;
  rs_hal_identity_switches : Z;
  rs_hal_gate_hits : Z;
  rs_active_slot : Z;
  rs_replacement_mode : Z;
  rs_virtual_id_length : Z;
  rs_hal_state : Z;
  rs_hal_count : Z;
  rs_hal_tgids : list Z;
  rs_hal_monitor_backend : Z;
  rs_hal_monitor_wakeups : Z;
  rs_crc32 : Z;
}.

#[global] Instance Response_layout : Layout ControlIpcResponse := {|
  size_of := 200;
  bytes_of r :=
    le_enc 8 (rs_magic r) ++ le_enc 4 (rs_version r) ++ le_enc 4 (rs_result r) ++
    le_enc 8 (rs_request_id r) ++ le_enc 8 (rs_daemon_pid r) ++ le_enc 8 (rs_active_calls r) ++
    le_enc 8 (rs_config_generation r) ++ le_enc 8 (rs_seed_generation r) ++
    le_enc 8 (rs_profile_fingerprint r) ++ le_enc 8 (rs_switches r) ++ le_enc 8 (rs_rejections r) ++
    le_enc 8 (rs_server_request_hits r) ++ le_enc 8 (rs_correlated_reply_candidates r) ++
    le_enc 8 (rs_replacement_candidates r) ++ le_enc 8 (rs_replacement_dry_run_hits r) ++
    le_enc 8 (rs_replacement_write_ok r) ++ le_enc 8 (rs_replacement_write_faults r) ++
    le_enc 8 (rs_hal_identity_generation r) ++ le_enc 8 (rs_hal_identity_switches r) ++
    le_enc 8 (rs_hal_gate_hits r) ++ le_enc 4 (rs_active_slot r) ++
    le_enc 4 (rs_replacement_mode r) ++ le_enc 4 (rs_virtual_id_length r) ++
    le_enc 4 (rs_hal_state r) ++ le_enc 4 (rs_hal_count r) ++ words_enc 4 (rs_hal_tgids r) ++
    le_enc 4 (rs_hal_monitor_backend r) ++ le_enc 4 (rs_hal_monitor_wakeups r) ++
    le_enc 4 (rs_crc32 r);
  of_bytes l := {|
    rs_magic := word_at 8 0 l; rs_version := word_at 4 8 l; rs_result := word_at 4 12 l;
    rs_request_id := word_at 8 16 l; rs_daemon_pid := word_at 8 24 l;
    rs_active_calls := word_at 8 32 l; rs_config_generation := word_at 8 40 l;
    rs_seed_generation := word_at 8 48 l; rs_profile_fingerprint := word_at 8 56 l;
    rs_switches := word_at 8 64 l; rs_rejections := word_at 8 72 l;
    rs_server_request_hits := word_at 8 80 l; rs_correlated_reply_candidates := word_at 8 88 l;
    rs_replacement_candidates := word_at 8 96 l; rs_replacement_dry_run_hits := word_at 8 104 l;
    rs_replacement_write_ok := word_at 8 112 l; rs_replacement_write_faults := word_at 8 120 l;
    rs_hal_identity_generation := word_at 8 128 l; rs_hal_identity_switches := word_at 8 136 l;
    rs_hal_gate_hits := word_at 8 144 l; rs_active_slot := word_at 4 152 l;
    rs_replacement_mode := word_at 4 156 l; rs_virtual_id_length := word_at 4 160 l;
    rs_hal_state := word_at 4 164 l; rs_hal_count := word_at 4 168 l;
    rs_hal_tgids := words_at 4 4 172 l; rs_hal_monitor_backend := word_at 4 188 l;
    rs_hal_monitor_wakeups := word_at 4 192 l; rs_crc32 := word_at 4 196 l |};
  in_range r :=
    Forall (word_ok 8) [rs_magic r; rs_request_id r; rs_daemon_pid r; rs_active_calls r;
      rs_config_generation r; rs_seed_generation r; rs_profile_fingerprint r; rs_switches r;
      rs_rejections r; rs_server_request_hits r; rs_correlated_reply_candidates r;
      rs_replacement_candidates r; rs_replacement_dry_run_hits r; rs_replacement_write_ok r;
      rs_replacement_write_faults r; rs_hal_identity_generation r; rs_hal_identity_switches r;
      rs_hal_gate_hits r] /\
    Forall (word_ok 4) [rs_version r; rs_result r; rs_active_slot r; rs_replacement_mode r;
      rs_virtual_id_length r; rs_hal_state r; rs_hal_count r; rs_hal_monitor_backend r;
      rs_hal_monitor_wakeups r; rs_crc32 r] /\
    length (rs_hal_tgids r) = 4%nat /\ Forall (word_ok 4) (rs_hal_tgids r)
|}.

#[global] Instance Response_laws : LayoutLaws ControlIpcResponse.
Proof.
  split; cbn.
  - intros r Hr. destruct_and! Hr. rewrite !length_app, !le_enc_length, words_enc_length. lia.
  - intros r Hr. unfold bytes_ok in *. rewrite !Forall_app.
    split_and!; (apply le_enc_bytes_ok || apply words_enc_ok).
  - intros [] (H8 & H4 & Hl & Hw). cbn in *.
    repeat match goal with H : Forall _ (_ :: _) |- _ => apply Forall_cons in H as [? H] end.
    assert (Hlen : length (words_enc 4 rs_hal_tgids0) = 16%nat) by (rewrite words_enc_length; lia).
    unfold word_ok in *. f_equal; read_field.
  - intros l Hl Hok. join_fields.
  - intros l Hl Hok. unfold word_ok.
    split_and!; [repeat constructor; field_range..|field_range|field_range].
Qed.
