(* ===== verification/SocketIo.v ===== *)
(** The local socket of the control daemon (control_ipc.cpp): the transfers of whole
    records over it, its address, and the server's end with the signal handlers that
    are in place while it serves. *)

From S2P Require Import Prelude Posix HalIdentity.

(** The bytes of [sun_path]; a null pointer is [None]. *)

(** src/control_ipc.cpp:298-307 [fill_unix_address] *)
Definition fill_unix_address (path : option string) : option (list Z) :=
  match path with
  | None => None
  | Some path =>
      if bool_decide (path = EmptyString) || Nat.leb 108 (String.length path) then None
      else Some (bytes_of_string path ++ replicate (108 - String.length path) 0)
  end.

(** * Transfers *)

Section Transfers.
Context `{OperatingSystem}.

(** [incoming] is what the peer sends before it closes its end, [used] what has been
    read of it. *)

(** src/control_ipc.cpp:265-279 [read_exact] *)
Fixpoint receive_exact (fuel : nat) (incoming : list Z) (size : nat) (used : list Z)
    : io (bool * list Z) :=
  match fuel with
  | O => io_diverge
  | S fuel =>
      if (length used <? size)%nat then
        count ← sys_read incoming (length used) (size - length used);
        match count with
        | Moved [] | Move_error => mret (false, used)
        | Moved bytes => receive_exact fuel incoming size (used ++ bytes)
        | Move_eintr => receive_exact fuel incoming size used
        end
      else mret (true, used)
  end.

(** [sent] is what the peer has been sent. *)

(** src/control_ipc.cpp:281-296 [write_exact] *)
Fixpoint send_exact (fuel : nat) (data : list Z) (sent : list Z) : io (bool * list Z) :=
  match fuel with
  | O => io_diverge
  | S fuel =>
      if (length sent <? length data)%nat then
        count ← next;
        match count with
        | Done limit =>
            send_exact fuel data (sent ++ slice (length sent) (transfer limit (length data - length sent)) data)
        | Interrupted => send_exact fuel data sent
        | Failed => mret (false, sent)
        end
      else mret (true, sent)
  end.

(** A transfer that is done: what was moved is a prefix, and all of it when the call
    says so; no call fails without cause. *)
Lemma receive_spec B fuel s incoming size n w :
  (n <= size)%nat -> (n <= length incoming)%nat -> budget False B fuel s (size - n) w ->
  exists ok m w', receive_exact fuel incoming size (take n incoming) w = Some ((ok, take m incoming), w') /\
    quiet w w' /\ (m <= length incoming)%nat /\ (m <= size)%nat /\ (ok = true <-> m = size) /\
    ((forall k, outcome_of k <> Failed) -> (size <= length incoming)%nat -> ok = true).
Proof.
  revert s n w. induction fuel as [|fuel IH]; intros s n w Hn Hc Hb; [by apply budget_zero in Hb|].
  cbn [receive_exact]. rewrite length_take_le by done. destruct (Nat.ltb_spec n size) as [Hlt|Hge].
  2: { exists true, n, w. by split_and!; [| | |lia|split; [lia|]|]. }
  unfold sys_read, mbind, io_bind, next. set (w1 := Build_World (w_files w) (S (w_calls w)) (w_trace w)).
  assert (Hq : quiet w w1) by done.
  destruct (outcome_of (w_calls w)) as [limit| |] eqn:E; cbn.
  - destruct (transfer_pos limit (size - n) ltac:(lia)) as [Hpos Hle]. set (k := transfer _ _) in *. clearbody k.
    destruct (slice n k incoming) as [|b bytes] eqn:Es.
    { exists false, n, w1. split_and!; [done..|split; [done|lia]|]. intros _ Hsize.
      apply (f_equal length) in Es. unfold slice in Es. rewrite length_take, length_drop in Es. cbn in Es. lia. }
    assert (n < length incoming)%nat.
    { apply (f_equal length) in Es. unfold slice in Es. rewrite length_take, length_drop in Es. cbn in Es. lia. }
    assert (take n incoming ++ b :: bytes = take (Nat.min (n + k) (length incoming)) incoming) as ->.
    { rewrite <-Es. unfold slice. by rewrite take_take_drop, <-take_take, firstn_all. }
    destruct (IH B (Nat.min (n + k) (length incoming)) w1) as (ok & m & w' & Hrun & Hq' & Hm & Hrest);
      [lia|lia|by eapply budget_progress; [exact Hb|lia]|].
    exists ok, m, w'. split; [exact Hrun|]. split; [by transitivity w1|]. by split.
  - destruct (IH (s - 1)%nat n w1) as (ok & m & w' & Hrun & Hq' & Hm & Hrest);
      [done..|by eapply budget_interrupted|].
    exists ok, m, w'. split; [exact Hrun|]. split; [by transitivity w1|]. by split.
  - exists false, n, w1. split_and!; [done..|split; [done|lia]|]. intros Hok. by destruct (Hok (w_calls w)).
Qed.

Lemma send_spec B fuel s data n w :
  (n <= length data)%nat -> budget False B fuel s (length data - n) w ->
  exists ok m w', send_exact fuel data (take n data) w = Some ((ok, take m data), w') /\
    quiet w w' /\ (m <= length data)%nat /\ (ok = true <-> m = length data) /\
    ((forall k, outcome_of k <> Failed) -> ok = true).
Proof.
  revert s n w. induction fuel as [|fuel IH]; intros s n w Hn Hb; [by apply budget_zero in Hb|].
  cbn [send_exact]. rewrite length_take_le by done. destruct (Nat.ltb_spec n (length data)) as [Hlt|Hge].
  2: { exists true, n, w. split_and!; [done..|split; [lia|done]|done]. }
  unfold mbind, io_bind, next. set (w1 := Build_World (w_files w) (S (w_calls w)) (w_trace w)).
  assert (Hq : quiet w w1) by done.
  destruct (outcome_of (w_calls w)) as [limit| |] eqn:E.
  - destruct (transfer_pos limit (length data - n) ltac:(lia)) as [Hpos Hle]. set (k := transfer _ _) in *.
    clearbody k. unfold slice. rewrite take_take_drop.
    destruct (IH B (n + k)%nat w1) as (ok & m & w' & Hrun & Hq' & Hrest);
      [lia|by eapply budget_progress; [exact Hb|lia]|].
    exists ok, m, w'. split; [exact Hrun|]. split; [by transitivity w1|done].
  - destruct (IH (s - 1)%nat n w1) as (ok & m & w' & Hrun & Hq' & Hrest); [done|by eapply budget_interrupted|].
    exists ok, m, w'. split; [exact Hrun|]. split; [by transitivity w1|done].
  - exists false, n, w1. split_and!; [done..|split; [done|lia]|]. intros Hok. by destruct (Hok (w_calls w)).
Qed.

End Transfers.

(** * The server's end *)

(** What the calls that set the server up answer; [su_mode] is the mode [bind] creates
    the socket's file with. *)
Record setup_io := {
  su_socket : bool;
  su_bind : bool;
  su_mode : Z;
  su_chmod : bool;
  su_listen : bool;
  su_term : bool;
  su_int : bool;
}.

Definition SIGINT : Z := 2.
Definition SIGTERM : Z := 15.

Inductive endpoint_event :=
  | SocketOpened
  | PathUnlinked
  | SocketBound (mode : Z)
  | PathRestricted (mode : Z)
  | SocketListening
  | HandlerSet (signal : Z)
  | HandlerRestored (signal : Z)
  | SocketClosed.

(** 0600. *)
Definition kSocketMode : Z := 384.

(** src/control_ipc.cpp:400-411 [run_control_socket_server] *)
Definition open_endpoint (setup : setup_io) : bool * list endpoint_event :=
  if negb (su_socket setup) then (false, [])
  else
    let bound := su_bind setup in
    let restricted := bound && su_chmod setup in
    let listening := restricted && su_listen setup in
    (listening,
     [SocketOpened; PathUnlinked] ++
     (if bound then [SocketBound (su_mode setup)] else []) ++
     (if restricted then [PathRestricted kSocketMode] else []) ++
     (if listening then [SocketListening] else [SocketClosed; PathUnlinked])).

(** src/control_ipc.cpp:417-424 [run_control_socket_server] *)
Definition set_handlers (setup : setup_io) : list endpoint_event :=
  (if su_term setup then [HandlerSet SIGTERM] else []) ++ (if su_int setup then [HandlerSet SIGINT] else []).

(** On both ways out. *)

(** src/control_ipc.cpp:591-594 [run_control_socket_server] *)
Definition close_endpoint (setup : setup_io) : list endpoint_event :=
  (if su_term setup then [HandlerRestored SIGTERM] else []) ++
  (if su_int setup then [HandlerRestored SIGINT] else []) ++ [SocketClosed; PathUnlinked].

(** What of the process and of the file system these calls change: whether the socket is
    open and takes connections, the mode of the file at its path, and the signals the
    server handles. *)
Record endpoint := {
  ep_open : bool;
  ep_listening : bool;
  ep_path : option Z;
  ep_handlers : list Z;
}.

Definition endpoint_step (e : endpoint) (event : endpoint_event) : endpoint :=
  match event with
  | SocketOpened => Build_endpoint true (ep_listening e) (ep_path e) (ep_handlers e)
  | PathUnlinked => Build_endpoint (ep_open e) (ep_listening e) None (ep_handlers e)
  | SocketBound mode => Build_endpoint (ep_open e) (ep_listening e) (Some mode) (ep_handlers e)
  | PathRestricted mode =>
      Build_endpoint (ep_open e) (ep_listening e) ((fun _ => mode) <$> ep_path e) (ep_handlers e)
  | SocketListening => Build_endpoint (ep_open e) true (ep_path e) (ep_handlers e)
  | HandlerSet signal => Build_endpoint (ep_open e) (ep_listening e) (ep_path e) (signal :: ep_handlers e)
  | HandlerRestored signal =>
      Build_endpoint (ep_open e) (ep_listening e) (ep_path e)
        (filter (fun s => s <> signal) (ep_handlers e))
  | SocketClosed => Build_endpoint false false (ep_path e) (ep_handlers e)
  end.

(** Every state on the way, the last one included. *)
Fixpoint endpoint_states (e : endpoint) (events : list endpoint_event) : list endpoint :=
  match events with
  | [] => [e]
  | event :: events => e :: endpoint_states (endpoint_step e event) events
  end.

(** A process that has not set anything up; a file may be left over at the path. *)
Definition endpoint_idle (e : endpoint) : Prop :=
  ep_open e = false /\ ep_listening e = false /\ ep_handlers e = [].

(** Connections are taken only through a file nobody else may open. *)
Definition endpoint_private (e : endpoint) : Prop :=
  ep_listening e = true -> ep_open e = true /\ ep_path e = Some kSocketMode.

Definition endpoint_ends (e : endpoint) (events : list endpoint_event) : Prop :=
  Forall endpoint_private (endpoint_states e events) /\ endpoint_idle (foldl endpoint_step e events) /\
  (events <> [] -> ep_path (foldl endpoint_step e events) = None).

#[local] Ltac private_states :=
  repeat (apply Forall_cons; split); try apply Forall_nil_2;
  (let Hlistening := fresh in intros Hlistening; first [discriminate Hlistening | done]).

Lemma refused_ends setup e :
  endpoint_idle e -> (open_endpoint setup).1 = false -> endpoint_ends e (open_endpoint setup).2.
Proof.
  destruct setup as [[] [] mode [] [] ? ?], e; unfold endpoint_idle; cbn; intros (-> & -> & ->) Hrefused;
    try discriminate Hrefused; (split; [private_states|done]).
Qed.

Lemma served_ends setup e :
  endpoint_idle e -> (open_endpoint setup).1 = true ->
  endpoint_ends e ((open_endpoint setup).2 ++ set_handlers setup ++ close_endpoint setup).
Proof.
  destruct setup as [[] [] mode [] [] [] []], e; unfold endpoint_idle; cbn; intros (-> & -> & ->) Hserved;
    try discriminate Hserved; (split; [private_states|done]).
Qed.
