(* ===== verification/Monitor.v ===== *)
(** The HAL monitor of the control daemon (control_ipc.cpp): it keeps the kernel's
    set of HAL identities in step with the processes it watches. *)

From S2P Require Import Prelude KernelContext Slots HalIdentity.

(** * The daemon's world *)

(** What opening a pidfd answers: a descriptor, or an errno that means the kernel has
    no usable pidfds (ENOSYS, EPERM, EACCES), or another one. *)
Inductive pidfd_answer := Pidfd_opened | Pidfd_unsupported | Pidfd_error.

(** The answers of the kernel interface, indexed by the calls made before. *)
Class KernelCalls := {
  read_answer : nat -> KModErr;
  hal_answer : nat -> publish_io HalIdentitySet;
  config_answer : nat -> publish_io RuntimeConfigSlot;
  counter_answer : nat -> KModErr * Z;
  open_answer : nat -> pidfd_answer;
}.

(** The kernel's context, the number of calls made, and the open pidfds. *)
Record KState := {
  ks_kernel : KernelMemory;
  ks_calls : nat;
  ks_open : gset Z;
}.

Definition kio (A : Type) : Type := KState -> A * KState.

#[global] Instance kio_ret : MRet kio := fun A a s => (a, s).
#[global] Instance kio_bind : MBind kio := fun A B k m s => let '(a, s') := m s in k a s'.

(** src/control_ipc.cpp:48-48 [kHalRediscoveryInitialMs] *)
Definition kHalRediscoveryInitialMs : Z := 50.
(** src/control_ipc.cpp:49-49 [kHalRediscoveryMaximumMs] *)
Definition kHalRediscoveryMaximumMs : Z := 2000.
(** src/control_ipc.cpp:50-50 [kHalProcFallbackPollMs] *)
Definition kHalProcFallbackPollMs : Z := 5000.

(** src/control_ipc.cpp:52-56 [HalMonitorBackend] *)
Inductive HalMonitorBackend := kWaiting | kPidfd | kProcfsFallback.

Definition backend_num (b : HalMonitorBackend) : Z :=
  match b with kWaiting => 0 | kPidfd => 1 | kProcfsFallback => 2 end.

#[global] Instance HalMonitorBackend_eq_dec : EqDecision HalMonitorBackend.
Proof. solve_decision. Defined.

(** src/control_ipc.cpp:58-64 [HalMonitorState] *)
Record HalMonitorState := {
  hm_active : HalIdentityConfig;
  hm_backend : HalMonitorBackend;
  hm_wakeups : Z;
  hm_retry_ms : Z;
  hm_pidfds : list Z;
}.

Definition initial_monitor : HalMonitorState := {|
  hm_active := no_identities; hm_backend := kWaiting; hm_wakeups := 0;
  hm_retry_ms := kHalRediscoveryInitialMs; hm_pidfds := [] |}.

Definition set_active active m := Build_HalMonitorState active (hm_backend m) (hm_wakeups m)
  (hm_retry_ms m) (hm_pidfds m).
Definition set_backend backend retry m := Build_HalMonitorState (hm_active m) backend (hm_wakeups m)
  retry (hm_pidfds m).
Definition set_wakeups wakeups m := Build_HalMonitorState (hm_active m) (hm_backend m) wakeups
  (hm_retry_ms m) (hm_pidfds m).
Definition set_pidfds pidfds m := Build_HalMonitorState (hm_active m) (hm_backend m) (hm_wakeups m)
  (hm_retry_ms m) pidfds.

Inductive PidfdOpenResult := kReady | kUnsupported | kProcessGone.

Section Monitor.
Context `{KernelCalls}.
Context (session : CounterHookSession).

Definition next_call : kio nat := fun s =>
  (ks_calls s, Build_KState (ks_kernel s) (S (ks_calls s)) (ks_open s)).

Definition get_kernel : kio KernelMemory := fun s => (ks_kernel s, s).
Definition put_kernel (k : KernelMemory) : kio unit := fun s =>
  (tt, Build_KState k (ks_calls s) (ks_open s)).

Definition snapshot_kernel : kio (KModErr * option KernelCounterContext) :=
  n ← next_call; k ← get_kernel; mret (read_counter_snapshot session (read_answer n) k).

(** src/control_ipc.cpp:66-71 [close_pidfds] *)
Definition close_pidfds (monitor : HalMonitorState) : kio HalMonitorState := fun s =>
  (set_pidfds [] monitor,
   Build_KState (ks_kernel s) (ks_calls s) (ks_open s ∖ list_to_set (hm_pidfds monitor))).

(** src/control_ipc.cpp:73-80 [same_hal_tgids] *)
Definition same_hal_tgids (left right : HalIdentityConfig) : bool :=
  (hi_count left =? hi_count right) &&
  bool_decide (take (Z.to_nat (hi_count left)) (hi_tgids left) =
               take (Z.to_nat (hi_count left)) (hi_tgids right)).

(** A descriptor that is not open yet. *)
Definition open_fd : kio Z := fun s =>
  let fd := fresh (ks_open s) in
  (fd, Build_KState (ks_kernel s) (ks_calls s) ({[fd]} ∪ ks_open s)).

(** src/hal_identity.cpp:200-213 [open_hal_pidfd] *)
Definition open_hal_pidfd (tgid : Z) : kio (pidfd_answer * Z) :=
  if tgid =? 0 then mret (Pidfd_error, -1)
  else
    n ← next_call;
    match open_answer n with
    | Pidfd_opened => fd ← open_fd; mret (Pidfd_opened, fd)
    | answer => mret (answer, -1)
    end.

(** src/control_ipc.cpp:91-104 [open_identity_pidfds] *)
Fixpoint open_pidfds (tgids : list Z) (monitor : HalMonitorState)
    : kio (PidfdOpenResult * HalMonitorState) :=
  match tgids with
  | [] => mret (kReady, monitor)
  | tgid :: tgids =>
      '(answer, fd) ← open_hal_pidfd tgid;
      match answer with
      | Pidfd_opened => open_pidfds tgids (set_pidfds (hm_pidfds monitor ++ [fd]) monitor)
      | Pidfd_unsupported => monitor ← close_pidfds monitor; mret (kUnsupported, monitor)
      | Pidfd_error => monitor ← close_pidfds monitor; mret (kProcessGone, monitor)
      end
  end.

(** src/control_ipc.cpp:88-106 [open_identity_pidfds] *)
Definition open_identity_pidfds (identities : HalIdentityConfig) (monitor : HalMonitorState)
    : kio (PidfdOpenResult * HalMonitorState) :=
  monitor ← close_pidfds monitor;
  open_pidfds (take (Z.to_nat (hi_count identities)) (hi_tgids identities)) monitor.

(** src/control_ipc.cpp:108-123 [increment_kernel_counter] *)
Definition increment_kernel_counter (word : ctx_word) : kio KModErr :=
  '(err, snapshot) ← snapshot_kernel;
  match snapshot with
  | None => mret err
  | Some snapshot =>
      let current := kc_words snapshot word in
      if current =? UINT64_MAX then mret ERR_MODULE_PARAM
      else
        n ← next_call; k ← get_kernel;
        let '(err, value) := write_kernel_mem (counter_answer n) (current + 1) in
        _ ← put_kernel (with_context (put_word word value) k);
        mret err
  end.

Definition publish_hal (identities : HalIdentityConfig) : kio KModErr :=
  n ← next_call; k ← get_kernel;
  let '(err, _, k) := publish_hal_identities (hal_answer n) session identities k in
  _ ← put_kernel k; mret err.

Definition with_generation (generation : Z) (i : HalIdentityConfig) : HalIdentityConfig :=
  Build_HalIdentityConfig generation (hi_count i) (hi_tgids i).

(** src/control_ipc.cpp:125-147 [publish_monitored_identities] *)
Definition publish_monitored_identities (monitor : HalMonitorState) (identities : HalIdentityConfig)
    : kio (KModErr * HalMonitorState) :=
  if hi_generation (hm_active monitor) =? UINT64_MAX then mret (ERR_MODULE_PARAM, monitor)
  else
    let identities := with_generation (hi_generation (hm_active monitor) + 1) identities in
    err ← publish_hal identities;
    if is_failed err then _ ← increment_kernel_counter hal_identity_rejections; mret (err, monitor)
    else mret (OK, set_active identities monitor).

(** src/control_ipc.cpp:149-167 [clear_monitored_identities] *)
Definition clear_monitored_identities (monitor : HalMonitorState) (count_restart : bool)
    : kio (KModErr * HalMonitorState) :=
  monitor ← close_pidfds monitor;
  if hi_count (hm_active monitor) =? 0
  then mret (OK, set_backend kWaiting kHalRediscoveryInitialMs monitor)
  else
    '(err, monitor) ← publish_monitored_identities monitor no_identities;
    if is_failed err then mret (err, monitor)
    else
      _ ← (if count_restart then increment_kernel_counter hal_identity_restarts else mret OK);
      mret (OK, set_backend kWaiting kHalRediscoveryInitialMs monitor).

Definition backoff (monitor : HalMonitorState) : HalMonitorState :=
  set_backend kWaiting (Z.min (u32 (hm_retry_ms monitor * 2)) kHalRediscoveryMaximumMs) monitor.

(** src/control_ipc.cpp:169-204 [adopt_discovered_identities] *)
Definition adopt_discovered_identities (monitor : HalMonitorState) (discovered : HalIdentityConfig)
    : kio (KModErr * HalMonitorState) :=
  if hi_count discovered =? 0 then mret (OK, backoff monitor)
  else
    let force_procfs := bool_decide (hm_backend monitor = kProcfsFallback) in
    '(pidfd_result, monitor) ← (if (force_procfs : bool) then mret (kUnsupported, monitor)
                                else open_identity_pidfds discovered monitor);
    match pidfd_result with
    | kProcessGone => mret (OK, backoff monitor)
    | _ =>
        '(err, monitor) ← (if negb (same_hal_tgids (hm_active monitor) discovered)
                           then publish_monitored_identities monitor discovered
                           else mret (OK, monitor));
        if is_failed err then mret (err, monitor)
        else mret (OK, set_backend (match pidfd_result with kReady => kPidfd | _ => kProcfsFallback end)
                         kHalRediscoveryInitialMs monitor)
    end.

Definition count_wakeup (monitor : HalMonitorState) : HalMonitorState :=
  if hm_wakeups monitor =? UINT32_MAX then monitor
  else set_wakeups (hm_wakeups monitor + 1) monitor.

(** src/control_ipc.cpp:206-222 [rediscover_hal_identities] *)
Definition rediscover_hal_identities (proc : ProcFs) (monitor : HalMonitorState)
    : kio (KModErr * HalMonitorState) :=
  let monitor := count_wakeup monitor in
  let generation := if hi_generation (hm_active monitor) =? UINT64_MAX then UINT64_MAX
                    else hi_generation (hm_active monitor) + 1 in
  let '(err, discovered, _) := discover_widevine_hal_identities (Some "/proc") generation in
  if is_failed err then mret (err, monitor)
  else
    '(err, monitor) ←
      (if negb (hi_count (hm_active monitor) =? 0) &&
          negb (same_hal_tgids (hm_active monitor) discovered)
       then clear_monitored_identities monitor true else mret (OK, monitor));
    if is_failed err then mret (err, monitor)
    else adopt_discovered_identities monitor discovered.

(** src/control_ipc.cpp:224-250 [initialize_hal_monitor] *)
Definition initialize_hal_monitor (monitor : HalMonitorState) : kio (KModErr * HalMonitorState) :=
  '(err, snapshot) ← snapshot_kernel;
  match snapshot with
  | None => mret (err, monitor)
  | Some snapshot =>
      let active := active_hal snapshot in
      let monitor := set_active (Build_HalIdentityConfig (hs_generation active) (hs_count active)
                                   (hs_tgids active)) initial_monitor in
      if hi_count (hm_active monitor) =? 0 then mret (OK, monitor)
      else
        '(result, monitor) ← open_identity_pidfds (hm_active monitor) monitor;
        match result with
        | kReady => mret (OK, set_backend kPidfd (hm_retry_ms monitor) monitor)
        | kUnsupported => mret (OK, set_backend kProcfsFallback (hm_retry_ms monitor) monitor)
        | kProcessGone => clear_monitored_identities monitor true
        end
  end.

End Monitor.

(** * Reasoning about the daemon *)

Definition kwp {A} (m : kio A) (Q : A -> KState -> Prop) (s : KState) : Prop :=
  Q (m s).1 (m s).2.

Lemma kwp_ret {A} (a : A) Q s : Q a s -> kwp (mret a) Q s.
Proof. done. Qed.

Lemma kwp_bind {A B} (m : kio A) (k : A -> kio B) Q s :
  kwp m (fun a s' => kwp (k a) Q s') s -> kwp (a ← m; k a) Q s.
Proof. unfold kwp, mbind, kio_bind. intros Hm. destruct (m s) as [a s0]. exact Hm. Qed.

Lemma kwp_mono {A} (m : kio A) (Q Q' : A -> KState -> Prop) s :
  kwp m Q s -> (forall a s', Q a s' -> Q' a s') -> kwp m Q' s.
Proof. unfold kwp. auto. Qed.

Lemma kwp_result {A} (m : kio A) Q s a s' : kwp m Q s -> m s = (a, s') -> Q a s'.
Proof. unfold kwp. intros Hq E. rewrite E in Hq. exact Hq. Qed.

Lemma kwp_next_call (Q : nat -> KState -> Prop) s :
  (forall s', ks_kernel s' = ks_kernel s -> ks_open s' = ks_open s -> Q (ks_calls s) s') ->
  kwp next_call Q s.
Proof. intros HQ. by apply HQ. Qed.

Lemma kwp_get_kernel (Q : KernelMemory -> KState -> Prop) s :
  Q (ks_kernel s) s -> kwp get_kernel Q s.
Proof. done. Qed.

Lemma kwp_put_kernel k (Q : unit -> KState -> Prop) s :
  Q tt (Build_KState k (ks_calls s) (ks_open s)) -> kwp (put_kernel k) Q s.
Proof. done. Qed.

(** The SDK answers of every publication are faithful. *)
Definition faithful `{KernelCalls} : Prop := forall n, flip_faithful (po_flip (hal_answer n)).

(** No publication is reported as failed when its flip has happened. *)
Definition lossless `{KernelCalls} : Prop := forall n, flip_lossless (po_flip (hal_answer n)).

(** The identity set readers of the kernel context are sent to. *)
Definition kernel_hal (s : KState) : HalIdentitySet := active_hal (km_context (ks_kernel s)).

Definition two_slots (s : KState) : Prop :=
  length (hal_identity_slots (km_context (ks_kernel s))) = 2%nat.

(** The open descriptors are the monitor's. *)
Definition owns (s : KState) (m : HalMonitorState) : Prop := ks_open s = list_to_set (hm_pidfds m).

(** The monitor's record of the published set is the kernel's. *)
Definition in_step (s : KState) (m : HalMonitorState) : Prop :=
  kernel_hal s = make_hal_set (hm_active m) /\ two_slots s /\ owns s m.

(** The kernel's identity sets are as before. *)
Definition same_hal (s s' : KState) : Prop :=
  kernel_hal s' = kernel_hal s /\ (two_slots s -> two_slots s').

#[global] Instance same_hal_preorder : PreOrder same_hal.
Proof.
  split; [by split|]. intros x y z [H1 H2] [H3 H4]. split; [by rewrite H3|auto].
Qed.

Section MonitorFacts.
Context `{KernelCalls} (Hfaithful : faithful).
Context (session : CounterHookSession).

Lemma close_spec monitor s (Q : HalMonitorState -> KState -> Prop) :
  owns s monitor ->
  (forall s', ks_kernel s' = ks_kernel s -> owns s' (set_pidfds [] monitor) ->
     Q (set_pidfds [] monitor) s') ->
  kwp (close_pidfds monitor) Q s.
Proof.
  intros Ho HQ. apply HQ; [done|]. unfold owns in *. cbn. rewrite Ho. set_solver.
Qed.

Lemma snapshot_spec s (Q : KModErr * option KernelCounterContext -> KState -> Prop) :
  (forall err snapshot s', ks_kernel s' = ks_kernel s -> ks_open s' = ks_open s ->
     (err = OK <-> snapshot = Some (km_context (ks_kernel s))) ->
     (err <> OK <-> snapshot = None) -> Q (err, snapshot) s') ->
  kwp (snapshot_kernel session) Q s.
Proof.
  intros HQ. apply kwp_bind, kwp_next_call. intros s' Hk Hop.
  apply kwp_bind, kwp_get_kernel, kwp_ret. rewrite Hk. unfold read_counter_snapshot.
  destruct (cs_context_kaddr session =? 0); [by apply HQ|].
  destruct (is_failed (read_answer (ks_calls s))) eqn:E.
  { apply is_failed_not_ok in E. by apply HQ. }
  destruct (_ || _); by apply HQ.
Qed.

Lemma open_pidfds_spec tgids monitor s (Q : PidfdOpenResult * HalMonitorState -> KState -> Prop) :
  owns s monitor ->
  (forall r pidfds s', ks_kernel s' = ks_kernel s -> owns s' (set_pidfds pidfds monitor) ->
     (r = kReady -> length pidfds = (length (hm_pidfds monitor) + length tgids)%nat) ->
     (r <> kReady -> pidfds = []) -> Q (r, set_pidfds pidfds monitor) s') ->
  kwp (open_pidfds tgids monitor) Q s.
Proof.
  revert monitor s. induction tgids as [|tgid tgids IH]; intros monitor s Ho HQ; cbn [open_pidfds].
  { apply kwp_ret. destruct monitor. apply (HQ kReady); [done..|simpl; lia|done]. }
  apply kwp_bind.
  assert (Hgone : forall r s', ks_kernel s' = ks_kernel s -> ks_open s' = ks_open s -> r <> kReady ->
    kwp (monitor ← close_pidfds monitor; mret (r, monitor)) Q s').
  { intros r s' Hk Hop Hr. apply kwp_bind, close_spec; [unfold owns in *; congruence|].
    intros s'' Hk' Ho'. apply kwp_ret, HQ; [congruence|done..]. }
  unfold open_hal_pidfd. destruct (tgid =? 0); [by apply kwp_ret, Hgone|].
  apply kwp_bind, kwp_next_call. intros s1 Hk1 Hop1.
  destruct (open_answer (ks_calls s)); [|by apply kwp_ret, Hgone..].
  apply kwp_bind. unfold kwp at 1, open_fd. cbn [fst snd]. apply kwp_ret. apply IH.
  - unfold owns in *. cbn. rewrite Hop1, Ho, list_to_set_app_L. set_solver.
  - intros r pidfds s' Hk Ho' Hr Hr'. cbn in Hk. apply (HQ r pidfds); [congruence|done| |done].
    intros E. rewrite (Hr E). cbn. rewrite length_app. simpl. lia.
Qed.

Lemma increment_spec word s (Q : KModErr -> KState -> Prop) :
  (forall err s', same_hal s s' -> ks_open s' = ks_open s -> Q err s') ->
  kwp (increment_kernel_counter session word) Q s.
Proof.
  intros HQ. apply kwp_bind, snapshot_spec. intros err snapshot s1 Hk Hop _ _.
  assert (Hsame : same_hal s s1) by (split; unfold kernel_hal, two_slots; by rewrite Hk).
  destruct snapshot as [snapshot|]; [|by apply kwp_ret, HQ].
  cbv zeta. destruct (kc_words snapshot word =? UINT64_MAX); [by apply kwp_ret, HQ|].
  apply kwp_bind, kwp_next_call. intros s2 Hk2 Hop2. apply kwp_bind, kwp_get_kernel.
  destruct (write_kernel_mem _ _) as [e v]. apply kwp_bind, kwp_put_kernel, kwp_ret, HQ; cbn.
  - etransitivity; [exact Hsame|]. split; unfold kernel_hal, two_slots; cbn; by rewrite Hk2.
  - congruence.
Qed.

Lemma publish_hal_spec identities s (Q : KModErr -> KState -> Prop) :
  two_slots s ->
  (forall s', kernel_hal s' = make_hal_set identities -> two_slots s' -> ks_open s' = ks_open s ->
     validate_hal_identities identities = true -> Q OK s') ->
  (forall err s', err <> OK -> two_slots s' -> ks_open s' = ks_open s ->
     kernel_hal s' = kernel_hal s \/ kernel_hal s' = make_hal_set identities ->
     (lossless -> kernel_hal s' = kernel_hal s) -> Q err s') ->
  kwp (publish_hal session identities) Q s.
Proof.
  intros Htwo Hok Herr. apply kwp_bind, kwp_next_call. intros s1 Hk1 Hop1.
  apply kwp_bind, kwp_get_kernel. rewrite Hk1.
  pose proof (publish_hal_outcome (hal_answer (ks_calls s)) session identities (ks_kernel s)
    Htwo (Hfaithful (ks_calls s))) as Hout.
  pose proof (publish_hal_shape (hal_answer (ks_calls s)) session identities (ks_kernel s)) as Hshape.
  pose proof (fun Hl : lossless => publish_hal_lossless (hal_answer (ks_calls s)) session identities
    (ks_kernel s) Htwo (Hl (ks_calls s))) as Hless.
  destruct (publish_hal_identities _ _ _ _) as [[err slot] k'].
  destruct Hout as (_ & _ & Hsuccess & Hfailure). destruct Hshape as (Hlen & _).
  apply kwp_bind, kwp_put_kernel, kwp_ret.
  assert (Htwo' : length (hal_identity_slots (km_context k')) = 2%nat) by (by rewrite Hlen).
  destruct (decide (err = OK)) as [-> | He].
  - destruct (Hsuccess eq_refl) as (Hv & _ & _ & Hset). by apply Hok.
  - apply Herr; [done..| |].
    + destruct (Hfailure He) as [? | [? _]]; auto.
    + intros Hl. by apply (Hless Hl).
Qed.

Lemma publish_monitored_spec monitor identities s
    (Q : KModErr * HalMonitorState -> KState -> Prop) :
  let new := with_generation (hi_generation (hm_active monitor) + 1) identities in
  two_slots s -> owns s monitor ->
  (forall s', in_step s' (set_active new monitor) -> validate_hal_identities new = true ->
     Q (OK, set_active new monitor) s') ->
  (forall err s', err <> OK -> two_slots s' -> owns s' monitor ->
     kernel_hal s' = kernel_hal s \/ kernel_hal s' = make_hal_set new ->
     (lossless -> kernel_hal s' = kernel_hal s) -> Q (err, monitor) s') ->
  kwp (publish_monitored_identities session monitor identities) Q s.
Proof.
  intros new Htwo Hown Hok Herr. unfold publish_monitored_identities. fold new.
  destruct (hi_generation (hm_active monitor) =? UINT64_MAX); [apply kwp_ret, Herr; auto; done|].
  cbv zeta. fold new. apply kwp_bind, publish_hal_spec; [done|..].
  - intros s' Hset Htwo' Hop Hv. change (is_failed OK) with false. apply kwp_ret, Hok; [|done].
    split_and!; [done|done|]. unfold owns in *. cbn. congruence.
  - intros err s' He Htwo' Hop Hset Hless.
    assert (is_failed err = true) as -> by (by destruct err).
    apply kwp_bind, increment_spec. intros e s2 [Hsame Htwo2] Hop2. apply kwp_ret, Herr;
      [done|auto|unfold owns in *; congruence|by rewrite Hsame..].
Qed.

(** What holds of any operation's result: the descriptors are the monitor's, and the
    monitor is in step with the kernel after a success, and also after a failure if no
    flip was lost. *)
Definition monitor_result (result : KModErr * HalMonitorState) (s' : KState) : Prop :=
  two_slots s' /\ owns s' result.2 /\ (lossless \/ result.1 = OK -> in_step s' result.2).

Lemma clear_spec monitor restart s :
  in_step s monitor ->
  kwp (clear_monitored_identities session monitor restart) (fun result s' =>
    monitor_result result s' /\ hm_pidfds result.2 = [] /\
    (result.1 = OK -> hi_count (hm_active result.2) = 0 /\ hm_backend result.2 = kWaiting /\
       hs_count (kernel_hal s') = 0)) s.
Proof.
  intros (Hset & Htwo & Hown). apply kwp_bind, close_spec; [done|]. intros s1 Hk1 Hown1.
  assert (Hset1 : kernel_hal s1 = make_hal_set (hm_active monitor)) by (unfold kernel_hal; by rewrite Hk1).
  assert (Htwo1 : two_slots s1) by (unfold two_slots; by rewrite Hk1).
  cbn [hm_active set_pidfds].
  destruct (Z.eqb_spec (hi_count (hm_active monitor)) 0) as [Hzero|_].
  { apply kwp_ret. split; [by split_and!|]. split; [done|]. intros _.
    split; [done|]. split; [done|]. by rewrite Hset1. }
  apply kwp_bind, publish_monitored_spec; [done|done|..].
  - intros s2 (Hset2 & Htwo2 & Hown2) _. change (is_failed OK) with false. cbv iota.
    apply kwp_bind. eapply (kwp_mono _ (fun _ s3 => same_hal s2 s3 /\ ks_open s3 = ks_open s2)).
    { destruct restart; [by apply increment_spec|by apply kwp_ret]. }
    intros _ s3 [[Hsame Htwo3] Hop3]. apply kwp_ret.
    assert (in_step s3 (set_active (with_generation (hi_generation (hm_active monitor) + 1)
      no_identities) (set_pidfds [] monitor))).
    { split; [by rewrite Hsame|]. split; [auto|]. unfold owns in *. by rewrite Hop3. }
    match goal with Hin : in_step s3 _ |- _ => destruct (Hin) as (_ & Htwo' & Hown') end.
    split; [by split_and!|]. split; [done|]. intros _.
    split; [done|]. split; [done|]. by rewrite Hsame, Hset2.
  - intros err s2 He Htwo2 Hown2 _ Hless. assert (is_failed err = true) as -> by (by destruct err).
    apply kwp_ret. split; [|by split]. split; [done|]. split; [done|].
    intros [Hl|?]; [|done]. split; [|done]. by rewrite (Hless Hl).
Qed.

Lemma in_step_backend s monitor backend retry :
  in_step s monitor -> in_step s (set_backend backend retry monitor).
Proof. done. Qed.

Lemma adopt_spec monitor discovered s :
  in_step s monitor ->
  kwp (adopt_discovered_identities session monitor discovered) monitor_result s.
Proof.
  intros Hstep. unfold adopt_discovered_identities.
  destruct (hi_count discovered =? 0).
  { apply kwp_ret. destruct Hstep as (?&?&?). by split_and!. }
  assert (Hpublish : forall r m s1, in_step s1 m -> r <> kProcessGone ->
    kwp ('(err, monitor) ← (if negb (same_hal_tgids (hm_active m) discovered)
                            then publish_monitored_identities session m discovered
                            else mret (OK, m));
         if is_failed err then mret (err, monitor)
         else mret (OK, set_backend (match r with kReady => kPidfd | _ => kProcfsFallback end)
                kHalRediscoveryInitialMs monitor)) monitor_result s1).
  { intros r m s1 (Hset & Htwo & Hown) _. apply kwp_bind.
    destruct (negb _); [|by apply kwp_ret, kwp_ret].
    apply publish_monitored_spec; [done|done|..].
    - intros s2 Hstep2 _. apply kwp_ret. destruct (Hstep2) as (?&?&?). by split_and!.
    - intros err s2 He Htwo2 Hown2 _ Hless.
      assert (is_failed err = true) as -> by (by destruct err).
      apply kwp_ret. split; [done|]. split; [done|].
      intros [Hl|?]; [|done]. split; [|done]. by rewrite (Hless Hl). }
  apply kwp_bind. destruct (bool_decide _).
  { apply kwp_ret. by apply (Hpublish kUnsupported). }
  unfold open_identity_pidfds. destruct Hstep as (Hset & Htwo & Hown).
  apply kwp_bind, close_spec; [done|]. intros s1 Hk1 Hown1.
  apply open_pidfds_spec; [done|]. intros r pidfds s2 Hk2 Hown2 _ _. cbn [set_pidfds] in *.
  assert (Hstep2 : in_step s2 (set_pidfds pidfds (set_pidfds [] monitor))).
  { split_and!; [|unfold two_slots; by rewrite Hk2, Hk1|exact Hown2].
    unfold kernel_hal. by rewrite Hk2, Hk1. }
  destruct r; [by apply (Hpublish kReady)|by apply (Hpublish kUnsupported)|].
  apply kwp_ret. destruct (Hstep2) as (?&?&?). by split_and!.
Qed.

Lemma rediscover_spec (proc : ProcFs) monitor s :
  in_step s monitor ->
  kwp (rediscover_hal_identities session proc monitor) monitor_result s.
Proof.
  intros Hstep. unfold rediscover_hal_identities.
  set (m := count_wakeup monitor).
  assert (Hm : in_step s m).
  { unfold m, count_wakeup. by destruct (hm_wakeups monitor =? UINT32_MAX). }
  clearbody m. cbv zeta.
  destruct (discover_widevine_hal_identities _ _) as [[err discovered] details].
  destruct (is_failed err) eqn:Ee.
  { apply kwp_ret. destruct (Hm) as (?&?&?). by split_and!. }
  apply kwp_bind.
  eapply (kwp_mono _ (fun result s' => monitor_result result s')).
  { destruct (_ && _).
    - eapply kwp_mono; [by apply clear_spec|]. by intros result s' [? _].
    - apply kwp_ret. destruct (Hm) as (?&?&?). by split_and!. }
  intros [err' m'] s' (Htwo & Hown & Hok). cbn [fst snd] in *.
  destruct (is_failed err') eqn:Ee'; [apply kwp_ret; by split_and!|].
  apply is_failed_false in Ee' as ->. apply adopt_spec, Hok. by right.
Qed.

Lemma initialize_spec s :
  two_slots s -> ks_open s = ∅ ->
  kwp (initialize_hal_monitor session initial_monitor) (fun result s' =>
    two_slots s' /\ owns s' result.2 /\ (result.1 = OK -> in_step s' result.2)) s.
Proof.
  intros Htwo Hopen. apply kwp_bind, snapshot_spec. intros err snapshot s1 Hk1 Hop1 Hok Hnone.
  assert (Hown1 : owns s1 initial_monitor) by (unfold owns; cbn; congruence).
  assert (Htwo1 : two_slots s1) by (unfold two_slots; by rewrite Hk1).
  destruct snapshot as [snapshot|].
  2: { apply kwp_ret. split_and!; [done|done|]. cbn. intros ->. by destruct (proj2 Hnone eq_refl). }
  assert (err = OK) as ->.
  { destruct (decide (err = OK)) as [|He]; [done|]. by apply (proj1 Hnone) in He. }
  specialize (proj1 Hok eq_refl) as [= ->]. cbv zeta.
  set (m := set_active _ initial_monitor).
  assert (Hstep : in_step s1 m).
  { split; [|by split]. unfold kernel_hal, m. rewrite Hk1. cbn. by destruct (active_hal _). }
  clearbody m. destruct (hi_count (hm_active m) =? 0); [apply kwp_ret; destruct (Hstep) as (?&?&?); by split_and!|].
  destruct (Hstep) as (Hset & _ & Hown). apply kwp_bind. unfold open_identity_pidfds.
  apply kwp_bind, close_spec; [done|]. intros s2 Hk2 Hown2.
  apply open_pidfds_spec; [done|]. intros r pidfds s3 Hk3 Hown3 _ _.
  assert (Hstep3 : in_step s3 (set_pidfds pidfds (set_pidfds [] m))).
  { split; [unfold kernel_hal; by rewrite Hk3, Hk2|]. split; [|exact Hown3].
    unfold two_slots. by rewrite Hk3, Hk2. }
  destruct r.
  - apply kwp_ret. destruct (Hstep3) as (?&?&?). by split_and!.
  - apply kwp_ret. destruct (Hstep3) as (?&?&?). by split_and!.
  - eapply kwp_mono; [by apply clear_spec|]. intros result s' [(?&?&Hres) _].
    split_and!; [done..|]. intros. apply Hres. by right.
Qed.

End MonitorFacts.

(** * The monitor as a state machine

    Between two operations the handlers and the configuration updates go on; they
    change neither the identity sets nor the descriptors. *)

Inductive monitor_reach `{KernelCalls} (session : CounterHookSession)
    : KState -> HalMonitorState -> Prop :=
  | reach_initialize s m s' :
      two_slots s -> ks_open s = ∅ ->
      initialize_hal_monitor session initial_monitor s = ((OK, m), s') ->
      monitor_reach session s' m
  | reach_clear s m restart m' s' :
      monitor_reach session s m ->
      clear_monitored_identities session m restart s = ((OK, m'), s') ->
      monitor_reach session s' m'
  | reach_rediscover s m proc m' s' :
      monitor_reach session s m ->
      rediscover_hal_identities session proc m s = ((OK, m'), s') ->
      monitor_reach session s' m'
  | reach_elsewhere s m s' :
      monitor_reach session s m -> same_hal s s' -> ks_open s' = ks_open s ->
      monitor_reach session s' m.

Lemma reach_in_step `{KernelCalls} session s m :
  faithful -> monitor_reach session s m -> in_step s m.
Proof.
  intros Hf. induction 1 as [s m s' Htwo Ho Hrun|s m restart m' s' _ IH Hrun|
    s m proc m' s' _ IH Hrun|s m s' _ IH [Hsame Hkeep] Ho].
  - by apply (kwp_result _ _ _ _ _ (initialize_spec Hf session s Htwo Ho) Hrun).
  - destruct (kwp_result _ _ _ _ _ (clear_spec Hf session m restart s IH) Hrun) as ((_&_&Hok)&_).
    apply Hok. by right.
  - destruct (kwp_result _ _ _ _ _ (rediscover_spec Hf session proc m s IH) Hrun) as (_&_&Hok).
    apply Hok. by right.
  - destruct IH as (Hset & Htwo & Hown). split; [by rewrite Hsame|]. split; [auto|].
    unfold owns in *. by rewrite Ho.
Qed.

(** C29: as long as its operations succeed, the monitor's record of the published
    identities is exactly the set the kernel's gate works with, whatever the processes
    do and whichever calls of an operation fail on the way; and it holds exactly the
    descriptors that are open.  When a watched process goes, the operation that reacts
    closes every descriptor, and either fails or leaves a gate that lets nothing in. *)
Theorem monitor_keeps_gate_in_step `{KernelCalls} session s m restart err m' s' :
  faithful -> monitor_reach session s m ->
  clear_monitored_identities session m restart s = ((err, m'), s') ->
  kernel_hal s = make_hal_set (hm_active m) /\ ks_open s = list_to_set (hm_pidfds m) /\
  ks_open s' = ∅ /\
  (err = OK -> hs_count (kernel_hal s') = 0 /\ kernel_hal s' = make_hal_set (hm_active m') /\
     hm_backend m' = kWaiting).
Proof.
  intros Hf Hreach Hrun. pose proof (reach_in_step session s m Hf Hreach) as Hstep.
  destruct (kwp_result _ _ _ _ _ (clear_spec Hf session m restart s Hstep) Hrun)
    as ((_ & Hown & Hok) & Hfds & Hclosed). cbn [fst snd] in *.
  destruct (Hstep) as (Hset & _ & Howned). split; [done|]. split; [done|].
  split; [unfold owns in Hown; by rewrite Hfds in Hown|].
  intros HOK. destruct (Hclosed HOK) as (_ & Hb & Hc). destruct (Hok (or_intror HOK)) as (Hset' & _ & _). done.
Qed.

(** * Concrete runs *)

Definition calls_with (answer : publish_io HalIdentitySet) : KernelCalls := {|
  read_answer _ := OK;
  hal_answer _ := answer;
  config_answer _ := {| po_read := OK; po_slot := (OK, zero_config_slot);
                        po_switches := (OK, 0); po_flip := demo_flip |};
  counter_answer _ := (OK, 0);
  open_answer _ := Pidfd_opened |}.

Definition good_answer : publish_io HalIdentitySet :=
  {| po_read := OK; po_slot := (OK, zero_hal_set); po_switches := (OK, 0); po_flip := demo_flip |}.

Definition demo_state : KState := Build_KState demo_memory 0 ∅.

(** Initialised from a kernel with two identities, both of them watched. *)
Definition demo_watching : KState :=
  (@initialize_hal_monitor (calls_with good_answer) demo_session initial_monitor demo_state).2.
Definition demo_monitor : HalMonitorState :=
  (@initialize_hal_monitor (calls_with good_answer) demo_session initial_monitor demo_state).1.2.

Lemma monitor_keeps_gate_in_step_witness :
  hs_count (kernel_hal demo_watching) = 2 /\
  (let '(r, s) := @clear_monitored_identities (calls_with good_answer) demo_session demo_monitor
     true demo_watching in
   r.1 = OK /\ ks_open s = ∅ /\ hs_count (kernel_hal s) = 0).
Proof.
  split; [reflexivity|].
  destruct (@clear_monitored_identities (calls_with good_answer) demo_session demo_monitor
    true demo_watching) as [[err m'] s'] eqn:E.
  assert (err = OK) as ->.
  { change err with ((err, m', s').1.1). rewrite <-E. reflexivity. }
  destruct (@monitor_keeps_gate_in_step (calls_with good_answer) demo_session demo_watching
    demo_monitor true OK m' s') as (_ & _ & Hopen & Hok).
  - intros n Hexec. reflexivity.
  - apply (reach_initialize demo_session demo_state); reflexivity.
  - exact E.
  - destruct (Hok eq_refl) as (Hc & _). split; [reflexivity|]. split; [exact Hopen|exact Hc].
Defined.

(** A flip that happened but was reported as failed: the monitor does not know about
    the set it published, and the later attempts to close the gate do nothing. *)
Definition lost_answer : publish_io HalIdentitySet :=
  {| po_read := OK; po_slot := (OK, zero_hal_set); po_switches := (OK, 0);
     po_flip := {| fl_asm_failed := false; fl_exec := ERR_MODULE_SDK 7; fl_ran := true;
                   fl_result := 0 |} |}.

Definition empty_gate : KState := Build_KState
  (initial_memory (demo_replacement 1) (with_generation 1 no_identities)) 0 ∅.

Lemma torn_flip_leaves_gate_open :
  let discovered := with_generation 2 (demo_identities 2) in
  let m := set_active (with_generation 1 no_identities) initial_monitor in
  let '(adopted, s) := @adopt_discovered_identities (calls_with lost_answer) demo_session m
                         discovered empty_gate in
  let '(cleared, s) := @clear_monitored_identities (calls_with lost_answer) demo_session
                         adopted.2 true s in
  adopted.1 = ERR_MODULE_SDK 7 /\ cleared.1 = OK /\ hs_count (kernel_hal s) = 2.
Proof. cbv. auto. Qed.
