(* ===== verification/ControlServer.v ===== *)
(** The socket server of the control daemon (control_ipc.cpp): one iteration of its
    loop, the requests it serves, and the client's side of an exchange. *)

From S2P Require Import Prelude KernelContext Slots Checksum Records ControlIpc HalIdentity Posix SocketIo Monitor.

(** src/control_ipc.cpp:309-318 [validate_request] *)
Definition validate_request (request : ControlIpcRequest) : bool :=
  (rq_magic request =? kControlIpcMagic) && (rq_version request =? kControlIpcVersion) &&
  (rq_reserved request =? 0) &&
  (operation_num kStatus <=? rq_operation request) &&
  (rq_operation request <=? operation_num kStop) &&
  (rq_crc32 request =? crc32 (take 24 (bytes_of request))).

(** src/control_ipc.cpp:615-622 [send_control_ipc_request] *)
Definition make_request (operation : ControlIpcOperation) (pid tid : Z) : ControlIpcRequest :=
  let request crc := {|
    rq_magic := kControlIpcMagic; rq_version := kControlIpcVersion;
    rq_operation := operation_num operation;
    rq_request_id := Z.lxor (u64 (Z.shiftl (u64 pid) 32)) (u64 tid);
    rq_crc32 := crc; rq_reserved := 0 |} in
  request (crc32 (take 24 (bytes_of (request 0)))).

(** src/control_ipc.cpp:626-630 [send_control_ipc_request] *)
Definition accept_response (request : ControlIpcRequest) (response : ControlIpcResponse) : bool :=
  negb (negb (rs_magic response =? kControlIpcMagic) ||
        negb (rs_version response =? kControlIpcVersion) ||
        negb (rs_request_id response =? rq_request_id request) ||
        negb (rs_crc32 response =? crc32 (take 196 (bytes_of response)))).

Definition zero_response : ControlIpcResponse := of_bytes (replicate 200 0).

(** The client, given the bytes the socket delivered for its request ([None] when the
    exchange failed). *)

(** src/control_ipc.cpp:623-634 [send_control_ipc_request] *)
Definition receive_response (request : ControlIpcRequest) (reply : option (list Z))
    : KModErr * ControlIpcResponse :=
  match reply with
  | None => (ERR_MODULE_SOCKET, zero_response)
  | Some bytes =>
      if accept_response request (of_bytes bytes) then (OK, of_bytes bytes)
      else (ERR_MODULE_SOCKET, zero_response)
  end.

(** src/control_ipc.cpp:378-386 [default_control_socket_path] *)
Definition default_control_socket_path (module_private_dir : option string) : string :=
  match module_private_dir with
  | None => EmptyString
  | Some dir =>
      if bool_decide (dir = EmptyString) then EmptyString
      else (if Nat.eqb (after_last_slash dir 0 0) (String.length dir) then dir else dir +:+ "/")
           +:+ "drmid_control_v5.sock"
  end.

Section Server.
Context `{KernelCalls}.
Context (session : CounterHookSession).
(** The SDK's number of an error, and the daemon's process. *)
Context (to_num : KModErr -> Z) (daemon_pid : Z).

(** src/control_ipc.cpp:320-362 [fill_response] *)
Definition fill_response (snapshot : KernelCounterContext) (request_id : Z) (result : KModErr)
    (monitor : HalMonitorState) : ControlIpcResponse :=
  let word w := kc_words snapshot w in
  let slot := Z.land (active_config_slot snapshot) 1 in
  let config := active_config snapshot in
  let hal := active_hal snapshot in
  let response crc := {|
    rs_magic := kControlIpcMagic; rs_version := kControlIpcVersion;
    rs_result := u32 (to_num result); rs_request_id := request_id;
    rs_daemon_pid := u64 daemon_pid; rs_active_calls := word active_calls;
    rs_config_generation := rc_config_generation config;
    rs_seed_generation := rc_seed_generation config;
    rs_profile_fingerprint := rc_profile_fingerprint config;
    rs_switches := word runtime_config_switches;
    rs_rejections := word runtime_config_rejections;
    rs_server_request_hits := word server_request_hits;
    rs_correlated_reply_candidates := word correlated_reply_candidates;
    rs_replacement_candidates := word replacement_candidates;
    rs_replacement_dry_run_hits := word replacement_dry_run_hits;
    rs_replacement_write_ok := word replacement_write_ok;
    rs_replacement_write_faults := word replacement_write_faults;
    rs_hal_identity_generation := hs_generation hal;
    rs_hal_identity_switches := word hal_identity_switches;
    rs_hal_gate_hits := word hal_gate_hits;
    rs_active_slot := slot;
    rs_replacement_mode := rc_replacement_mode config;
    rs_virtual_id_length := rc_virtual_id_length config;
    rs_hal_state := if hs_count hal =? 0 then 0 else 1;
    rs_hal_count := hs_count hal; rs_hal_tgids := hs_tgids hal;
    rs_hal_monitor_backend := backend_num (hm_backend monitor);
    rs_hal_monitor_wakeups := hm_wakeups monitor; rs_crc32 := crc |} in
  response (crc32 (take 196 (bytes_of (response 0)))).

(** src/control_ipc.cpp:364-374 [increment_rejections] *)
Definition increment_rejections : kio KModErr :=
  '(err, snapshot) ← snapshot_kernel session;
  match snapshot with
  | None => mret err
  | Some snapshot =>
      n ← next_call; k ← get_kernel;
      let '(err, value) := write_kernel_mem (counter_answer n)
                             (u64 (kc_words snapshot runtime_config_rejections + 1)) in
      _ ← put_kernel (with_context (put_word runtime_config_rejections value) k);
      mret err
  end.

Definition publish_config (config : ReplacementConfig) : kio KModErr :=
  n ← next_call; k ← get_kernel;
  let '(err, _, k) := publish_runtime_config (config_answer n) session config k in
  _ ← put_kernel k; mret err.

(** [config_file] is what reading the control file delivers at this moment. *)

(** src/control_ipc.cpp:537-563 [run_control_socket_server] *)
Definition serve_apply (config_file : KModErr * ReplacementConfig) : kio KModErr :=
  let '(read_err, config) := config_file in
  result ←
    (if is_failed read_err then mret read_err
     else
       '(err, current) ← snapshot_kernel session;
       match current with
       | None => mret err
       | Some current =>
           if cfg_config_generation config =? rc_config_generation (active_config current)
           then mret OK
           else publish_config config
       end);
  if is_failed result then _ ← increment_rejections; mret result else mret result.

(** What arrived of the client's request, in a cleared buffer; nothing is read behind
    its 32 bytes. *)
Definition request_buffer (sent : list Z) : ControlIpcRequest :=
  of_bytes (take 32 sent ++ replicate (32 - length sent) 0).

(** src/control_ipc.cpp:529-568 [run_control_socket_server] *)
Definition serve_request (config_file : KModErr * ReplacementConfig) (sent : list Z)
    : kio (KModErr * bool) :=
  let request := request_buffer sent in
  if (length sent <? 32)%nat || negb (validate_request request)
  then mret (ERR_MODULE_PARAM, false)
  else match operation_of (rq_operation request) with
  | Some kStatus => mret (OK, false)
  | Some kApply => result ← serve_apply config_file; mret (result, false)
  | Some kStop => mret (OK, true)
  | None => mret (ERR_MODULE_PARAM, false)
  end.

(** A snapshot that cannot be taken is a cleared one. *)

(** src/control_ipc.cpp:529-582 [run_control_socket_server] *)
Definition serve_client (monitor : HalMonitorState) (config_file : KModErr * ReplacementConfig)
    (sent : list Z) : kio (ControlIpcResponse * bool) :=
  '(operation_result, stop) ← serve_request config_file sent;
  '(snapshot_err, snapshot) ← snapshot_kernel session;
  let operation_result :=
    if is_failed snapshot_err && is_ok operation_result then snapshot_err else operation_result in
  mret (fill_response (default zero_context snapshot) (rq_request_id (request_buffer sent))
          operation_result monitor, stop).

(** * The loop *)

(** What [poll] answers, and what the iteration then finds. *)
Inductive poll_answer :=
  | Poll_interrupted
  | Poll_error
  | Poll_timeout
  | Poll_ready (server pidfd : bool).

Record iteration := {
  it_elapsed_before : Z;
  it_poll : poll_answer;
  it_elapsed_after : Z;
  it_proc : ProcFs;
  it_accepted : bool;
  it_sent : list Z;
  it_config_file : KModErr * ReplacementConfig;
}.

Record server := {
  sv_monitor : HalMonitorState;
  sv_elapsed_ms : Z;
  sv_result : KModErr;
  sv_stop : bool;
  sv_broken : bool;
}.

Definition with_monitor monitor sv := Build_server monitor (sv_elapsed_ms sv) (sv_result sv)
  (sv_stop sv) (sv_broken sv).
Definition with_elapsed elapsed sv := Build_server (sv_monitor sv) elapsed (sv_result sv)
  (sv_stop sv) (sv_broken sv).
Definition break_with monitor err sv := Build_server monitor (sv_elapsed_ms sv) err (sv_stop sv) true.

(** src/control_ipc.cpp:446-452 [run_control_socket_server] *)
Definition lifecycle_timeout (monitor : HalMonitorState) : Z :=
  match hm_backend monitor with
  | kWaiting => hm_retry_ms monitor
  | kProcfsFallback => kHalProcFallbackPollMs
  | kPidfd => -1
  end.

(** src/control_ipc.cpp:453-466 [run_control_socket_server] *)
Definition poll_timeout (max_runtime_ms elapsed_ms timeout : Z) : Z :=
  if max_runtime_ms =? 0 then timeout
  else let remaining := max_runtime_ms - elapsed_ms in
       if timeout <? 0 then i32 remaining else Z.min timeout (i32 remaining).

(** The reaction to the watched processes, and to the rediscovery timer. *)

(** src/control_ipc.cpp:483-517 [run_control_socket_server] *)
Definition react (pidfd_event timer : bool) (proc : ProcFs) (monitor : HalMonitorState)
    : kio (KModErr * HalMonitorState) :=
  if pidfd_event then clear_monitored_identities session (count_wakeup monitor) true
  else if timer then
    '(discover_err, monitor) ← rediscover_hal_identities session proc monitor;
    if is_failed discover_err then
      '(clear_err, monitor) ← clear_monitored_identities session monitor true;
      if is_failed clear_err then mret (clear_err, monitor)
      else mret (OK, set_backend (hm_backend monitor)
                   (Z.min (u32 (hm_retry_ms monitor * 2)) kHalRediscoveryMaximumMs) monitor)
    else mret (OK, monitor)
  else mret (OK, monitor).

(** The response is what the client is sent; [None] when there is no client. *)

(** src/control_ipc.cpp:439-583 [run_control_socket_server] *)
Definition server_iteration (max_runtime_ms : Z) (it : iteration) (sv : server)
    : kio (server * option ControlIpcResponse) :=
  let timeout := lifecycle_timeout (sv_monitor sv) in
  let elapsed e := if max_runtime_ms =? 0 then sv_elapsed_ms sv else Z.min e max_runtime_ms in
  let sv := with_elapsed (elapsed (it_elapsed_before it)) sv in
  if negb (max_runtime_ms =? 0) && (max_runtime_ms <=? sv_elapsed_ms sv)
  then mret (break_with (sv_monitor sv) (sv_result sv) sv, None)
  else
    let waited := poll_timeout max_runtime_ms (sv_elapsed_ms sv) timeout in
    match it_poll it with
    | Poll_interrupted => mret (sv, None)
    | Poll_error => mret (break_with (sv_monitor sv) ERR_MODULE_SOCKET sv, None)
    | answer =>
        let sv := with_elapsed (if max_runtime_ms =? 0 then sv_elapsed_ms sv
                                else Z.min (it_elapsed_after it) max_runtime_ms) sv in
        let '(server_ready, pidfd_event, timer) :=
          match answer with
          | Poll_ready server pidfd => (server, pidfd, false)
          | _ => (false, false, (0 <=? timeout) && (waited =? timeout))
          end in
        '(err, monitor) ← react pidfd_event timer (it_proc it) (sv_monitor sv);
        if is_failed err then mret (break_with monitor err sv, None)
        else
          let sv := with_monitor monitor sv in
          if negb server_ready || negb (it_accepted it) then mret (sv, None)
          else
            '(response, stop) ← serve_client monitor (it_config_file it) (it_sent it);
            mret (Build_server monitor (sv_elapsed_ms sv) (sv_result sv) (sv_stop sv || stop)
                    (sv_broken sv), Some response)
    end.

(** The signal flag is looked at before every iteration. *)

(** src/control_ipc.cpp:437-439 [run_control_socket_server] *)
Definition keeps_running (max_runtime_ms : Z) (signalled : bool) (sv : server) : bool :=
  negb (sv_broken sv) && negb (sv_stop sv) && negb signalled &&
  ((max_runtime_ms =? 0) || (sv_elapsed_ms sv <? max_runtime_ms)).

(** src/control_ipc.cpp:585-590 [run_control_socket_server] *)
Definition server_shutdown (sv : server) : kio KModErr :=
  '(clear_err, monitor) ← clear_monitored_identities session (sv_monitor sv) false;
  _ ← close_pidfds monitor;
  mret (if is_failed clear_err && is_ok (sv_result sv) then clear_err else sv_result sv).

(** The loop is not bounded: [its] are the iterations that have been looked at so far,
    each with the signal flag found before it, and the result is [None] as long as the
    server goes on behind them. *)

(** src/control_ipc.cpp:437-596 [run_control_socket_server] *)
Fixpoint server_loop (max_runtime_ms : Z) (its : list (bool * iteration)) (sv : server)
    : kio (option (KModErr * list ControlIpcResponse)) :=
  match its with
  | (signalled, it) :: its =>
      if keeps_running max_runtime_ms signalled sv then
        '(sv, response) ← server_iteration max_runtime_ms it sv;
        ended ← server_loop max_runtime_ms its sv;
        mret (prod_map id (app (option_list response)) <$> ended)
      else result ← server_shutdown sv; mret (Some (result, []))
  | [] =>
      if keeps_running max_runtime_ms false sv then mret None
      else result ← server_shutdown sv; mret (Some (result, []))
  end.

(** What the run leaves behind for its caller: the answers it gave, and what it did to
    the socket, its path and the signal handlers. *)
Record ServerLog := {
  sl_responses : list ControlIpcResponse;
  sl_endpoint : list endpoint_event;
}.

(** src/control_ipc.cpp:388-436 [run_control_socket_server] *)
Definition run_control_socket_server (setup : setup_io) (socket_path runtime_control_path : option string)
    (max_runtime_ms : Z) (its : list (bool * iteration)) : kio (option (KModErr * ServerLog)) :=
  let ends result responses events := mret (Some (result, Build_ServerLog responses events)) in
  if (cs_context_kaddr session =? 0) || bool_decide (socket_path = None) ||
     bool_decide (runtime_control_path = None)
  then ends ERR_MODULE_PARAM [] []
  else match fill_unix_address socket_path with
  | None => ends ERR_MODULE_PARAM [] []
  | Some _ =>
      let '(listening, opened) := open_endpoint setup in
      if negb listening then ends ERR_MODULE_SOCKET [] opened
      else
        let events := opened ++ set_handlers setup ++ close_endpoint setup in
        '(server_result, hal_monitor) ← initialize_hal_monitor session initial_monitor;
        if is_failed server_result then ends server_result [] events
        else
          ended ← server_loop max_runtime_ms its {|
             sv_monitor := hal_monitor; sv_elapsed_ms := 0; sv_result := server_result;
             sv_stop := false; sv_broken := false |};
          match ended with
          | Some (result, responses) => ends result responses events
          | None => mret None
          end
  end.

End Server.

(** * Facts *)

(** The configuration readers of the kernel context are sent to. *)
Definition kernel_config (s : KState) : RuntimeConfigSlot := active_config (km_context (ks_kernel s)).

Definition two_config_slots (s : KState) : Prop :=
  length (config_slots (km_context (ks_kernel s))) = 2%nat.

(** The monitor's part of the state is as before. *)
Definition hal_untouched (s s' : KState) : Prop := same_hal s s' /\ ks_open s' = ks_open s.

#[global] Instance hal_untouched_preorder : PreOrder hal_untouched.
Proof.
  split; [by split|]. intros x y z [H1 H2] [H3 H4]. split; [by etransitivity|congruence].
Qed.

Section Facts.
Context `{KernelCalls}.
Context (session : CounterHookSession).
Context (Hflips : forall n, flip_faithful (po_flip (config_answer n))).

Lemma publish_config_spec config s (Q : KModErr -> KState -> Prop) :
  two_config_slots s ->
  (forall err s', hal_untouched s s' ->
     (err = OK -> validate_runtime_config config = true /\
        rc_config_generation (kernel_config s) < cfg_config_generation config /\
        kernel_config s' = make_config_slot config) ->
     (err <> OK -> kernel_config s' = kernel_config s \/
        kernel_config s' = make_config_slot config /\ validate_runtime_config config = true) ->
     Q err s') ->
  kwp (publish_config session config) Q s.
Proof.
  intros Htwo HQ. apply kwp_bind, kwp_next_call. intros s1 Hk1 Hop1.
  apply kwp_bind, kwp_get_kernel. rewrite Hk1.
  pose proof (publish_config_outcome (config_answer (ks_calls s)) session config (ks_kernel s)
    Htwo (Hflips (ks_calls s))) as Hout.
  pose proof (publish_config_shape (config_answer (ks_calls s)) session config (ks_kernel s)) as Hshape.
  destruct (publish_runtime_config _ _ _ _) as [[err slot] k'].
  destruct Hout as (_ & _ & Hok & Herr). destruct Hshape as (_ & Hslots & Hactive & _).
  apply kwp_bind, kwp_put_kernel, kwp_ret. apply HQ.
  - split; [|done]. split; [|unfold two_slots; cbn; by rewrite Hslots].
    unfold kernel_hal, active_hal. cbn. by rewrite Hslots, Hactive.
  - intros HOK. by destruct (Hok HOK) as (? & ? & _ & ?).
  - exact Herr.
Qed.

Lemma rejections_spec s (Q : KModErr -> KState -> Prop) :
  (forall err s', hal_untouched s s' -> kernel_config s' = kernel_config s -> Q err s') ->
  kwp (increment_rejections session) Q s.
Proof.
  intros HQ. apply kwp_bind, snapshot_spec. intros err snapshot s1 Hk1 Hop1 _ _.
  assert (H1 : hal_untouched s s1).
  { split; [|done]. split; unfold kernel_hal, two_slots; by rewrite Hk1. }
  destruct snapshot as [snapshot|]; [|apply kwp_ret, HQ; [done|unfold kernel_config; by rewrite Hk1]].
  apply kwp_bind, kwp_next_call. intros s2 Hk2 Hop2. apply kwp_bind, kwp_get_kernel.
  destruct (write_kernel_mem _ _) as [e v]. apply kwp_bind, kwp_put_kernel, kwp_ret, HQ.
  - split; [split|]; unfold kernel_hal, two_slots; cbn; rewrite ?Hk2, ?Hk1; first [done|congruence].
  - unfold kernel_config. cbn. by rewrite Hk2, Hk1.
Qed.

(** What serving an application of the file's configuration may do. *)
Definition apply_result (config_file : KModErr * ReplacementConfig) (s : KState) (result : KModErr)
    (s' : KState) : Prop :=
  hal_untouched s s' /\
  (result = OK -> config_file.1 = OK /\
     ((kernel_config s' = kernel_config s /\
       rc_config_generation (kernel_config s) = cfg_config_generation config_file.2) \/
      (kernel_config s' = make_config_slot config_file.2 /\
       validate_runtime_config config_file.2 = true /\
       rc_config_generation (kernel_config s) < cfg_config_generation config_file.2))) /\
  (result <> OK -> kernel_config s' = kernel_config s \/
     kernel_config s' = make_config_slot config_file.2 /\
     validate_runtime_config config_file.2 = true).

Lemma serve_apply_spec config_file s :
  two_config_slots s -> kwp (serve_apply session config_file) (apply_result config_file s) s.
Proof.
  intros Htwo. destruct config_file as [read_err config]. unfold serve_apply. apply kwp_bind.
  eapply (kwp_mono _ (apply_result (read_err, config) s)).
  - destruct (is_failed read_err) eqn:Ee.
    { apply is_failed_not_ok in Ee. apply kwp_ret. split_and!; [done|by intros ->|by left]. }
    apply is_failed_false in Ee as ->. apply kwp_bind, snapshot_spec.
    intros err current s1 Hk1 Hop1 Hok Hnone.
    assert (H1 : hal_untouched s s1).
    { split; [|done]. split; unfold kernel_hal, two_slots; by rewrite Hk1. }
    assert (Hc1 : kernel_config s1 = kernel_config s) by (unfold kernel_config; by rewrite Hk1).
    destruct current as [current|].
    2: { apply kwp_ret. split_and!; [done| |by left]. intros ->. by destruct (proj2 Hnone eq_refl). }
    assert (err = OK) as ->.
    { destruct (decide (err = OK)) as [|He]; [done|]. by apply (proj1 Hnone) in He. }
    specialize (proj1 Hok eq_refl) as [= ->]. fold (kernel_config s).
    destruct (Z.eqb_spec (cfg_config_generation config) (rc_config_generation (kernel_config s))) as [Hg|Hg].
    { apply kwp_ret. split_and!; [done| |done]. intros _. split; [done|]. by left. }
    apply publish_config_spec; [unfold two_config_slots; by rewrite Hk1|].
    intros err s2 H2 Hpub Hfail. rewrite Hc1 in *. split; [by etransitivity|]. split; [|exact Hfail].
    intros HOK. destruct (Hpub HOK) as (? & ? & ?). split; [done|]. by right.
  - intros result s1 Hres. destruct (is_failed result) eqn:Ee; [|by apply kwp_ret].
    apply is_failed_not_ok in Ee. apply kwp_bind, rejections_spec. intros e s2 H2 Hc2.
    apply kwp_ret. destruct Hres as (H1 & _ & Hfail).
    split; [by etransitivity|]. split; [done|]. intros He. rewrite Hc2. by apply Hfail.
Qed.

End Facts.

(** * What an application answers *)

(** The flip is assembled, runs, and says so. *)
Definition flip_succeeds (o : flip_io) : Prop :=
  fl_asm_failed o = false /\ fl_exec o = OK /\ fl_ran o = true /\ u32 (fl_result o) = 0.

(** No call on the context fails. *)
Definition calls_succeed `{KernelCalls} : Prop := forall n,
  read_answer n = OK /\ (counter_answer n).1 = OK /\ po_read (config_answer n) = OK /\
  (po_slot (config_answer n)).1 = OK /\ (po_switches (config_answer n)).1 = OK /\
  flip_succeeds (po_flip (config_answer n)).

(** The session has a context, and it carries its tags. *)
Definition context_there (session : CounterHookSession) (k : KernelMemory) : Prop :=
  cs_context_kaddr session <> 0 /\ km_magic k = kCounterContextMagic /\
  km_abi_version k = kCounterContextAbi.

Definition rejections (s : KState) : Z :=
  kc_words (km_context (ks_kernel s)) runtime_config_rejections.

(** The answer to an application and the configuration in force after it, from what
    reading the file delivers and the configuration in force before. *)
Inductive apply_answer (current : RuntimeConfigSlot)
    : KModErr * ReplacementConfig -> KModErr -> RuntimeConfigSlot -> Prop :=
  | answer_unread err config : err <> OK -> apply_answer current (err, config) err current
  | answer_same config :
      cfg_config_generation config = rc_config_generation current ->
      apply_answer current (OK, config) OK current
  | answer_newer config :
      validate_runtime_config config = true ->
      rc_config_generation current < cfg_config_generation config ->
      apply_answer current (OK, config) OK (make_config_slot config)
  | answer_refused config :
      validate_runtime_config config = false \/
        cfg_config_generation config < rc_config_generation current ->
      cfg_config_generation config <> rc_config_generation current ->
      apply_answer current (OK, config) ERR_MODULE_PARAM current.

Lemma snapshot_succeeds session k :
  context_there session k -> read_counter_snapshot session OK k = (OK, Some (km_context k)).
Proof.
  intros (Hc & Hm & Ha). unfold read_counter_snapshot. rewrite (proj2 (Z.eqb_neq _ _) Hc), Hm, Ha.
  reflexivity.
Qed.

Lemma publish_succeeds `{KernelCalls} session config k n :
  calls_succeed -> context_there session k ->
  let '(err, _, k') := publish_runtime_config (config_answer n) session config k in
  if validate_runtime_config config &&
     (rc_config_generation (active_config (km_context k)) <? cfg_config_generation config)
  then err = OK else err = ERR_MODULE_PARAM /\ k' = k.
Proof.
  intros Hcalls Hthere. destruct (Hcalls n) as (_ & _ & Hread & Hslot & Hsw & Hasm & Hexec & Hran & Hres).
  pose proof Hthere as (Hc & _). unfold publish_runtime_config. rewrite (proj2 (Z.eqb_neq _ _) Hc).
  destruct (validate_runtime_config config); [|done]. cbn [orb negb andb].
  rewrite Hread, snapshot_succeeds by done. cbv zeta.
  fold (slot_of (active_config_slot (km_context k))). fold (active_config (km_context k)).
  rewrite Z.leb_antisym. destruct (_ <? _); [|done]. cbn [negb].
  unfold write_kernel_mem, flip_slot_index. rewrite Hslot, Hsw, Hasm, Hexec, Hran, Hres.
  assert (H1 : forall z, (1 <? Z.lxor (Z.land z 1) 1) = false).
  { intros z. change 1 with (Z.ones 1) at 2. rewrite Z.land_ones by done. change (2 ^ 1) with 2.
    pose proof (Z.mod_pos_bound z 2 ltac:(done)).
    assert (z mod 2 = 0 \/ z mod 2 = 1) as [-> | ->] by lia; reflexivity. }
  cbn. by rewrite H1.
Qed.

Section Exact.
Context `{KernelCalls} (session : CounterHookSession).
Context (Hflips : forall n, flip_faithful (po_flip (config_answer n))).

(** Reading and publishing, before a failure is counted. *)
Definition answers_exactly (config_file : KModErr * ReplacementConfig) (s : KState) (result : KModErr)
    (s' : KState) : Prop :=
  (config_file.1 <> OK -> result = config_file.1 /\ kernel_config s' = kernel_config s) /\
  (calls_succeed -> context_there session (ks_kernel s) ->
     apply_answer (kernel_config s) config_file result (kernel_config s')).

Lemma publish_config_exact config s :
  two_config_slots s -> cfg_config_generation config <> rc_config_generation (kernel_config s) ->
  kwp (publish_config session config) (fun err s' => answers_exactly (OK, config) s err s' /\
    rejections s' = rejections s /\
    (context_there session (ks_kernel s) -> context_there session (ks_kernel s'))) s.
Proof.
  intros Htwo Hne. apply kwp_bind, kwp_next_call. intros s1 Hk1 _. apply kwp_bind, kwp_get_kernel.
  rewrite Hk1. set (n := ks_calls s).
  pose proof (publish_config_outcome (config_answer n) session config (ks_kernel s) Htwo (Hflips n)) as Hout.
  pose proof (publish_succeeds session config (ks_kernel s) n) as Hres.
  destruct (publish_runtime_config _ _ _ _) as [[err slot] k'].
  destruct Hout as ((Hmagic & Habi & _ & _ & _ & Hwords) & _ & Hok & Herr).
  apply kwp_bind, kwp_put_kernel, kwp_ret. split; [split; [done|]|].
  - intros Hcalls Hthere. specialize (Hres Hcalls Hthere). fold (kernel_config s) in Hres, Hok.
    destruct (validate_runtime_config config) eqn:Ev; cbn [andb] in Hres.
    + destruct (Z.ltb_spec (rc_config_generation (kernel_config s)) (cfg_config_generation config)).
      * destruct (Hok Hres) as (_ & _ & _ & Hnew). subst err. unfold kernel_config at 2. cbn [ks_kernel].
        rewrite Hnew. by constructor.
      * destruct Hres as [-> ->]. change (kernel_config {| ks_kernel := ks_kernel s; ks_calls := _; ks_open := _ |}) with (kernel_config s).
        constructor; [right; lia|done].
    + destruct Hres as [-> ->]. constructor; [by left|done].
  - split; [unfold rejections; cbn; by apply Hwords|].
    intros (? & ? & ?). split; [done|]. cbn. by rewrite Hmagic, Habi.
Qed.

(** The count of rejections after an answer. *)
Definition counts_exactly (s : KState) (result : KModErr) (s' : KState) : Prop :=
  (result = OK -> rejections s' = rejections s) /\
  (calls_succeed -> context_there session (ks_kernel s) -> result <> OK ->
     rejections s' = u64 (rejections s + 1)).

Lemma increment_exact s (Q : KModErr -> KState -> Prop) :
  (forall err s', kernel_config s' = kernel_config s ->
     (calls_succeed -> context_there session (ks_kernel s) ->
        rejections s' = u64 (rejections s + 1)) -> Q err s') ->
  kwp (increment_rejections session) Q s.
Proof.
  intros HQ. apply kwp_bind, kwp_bind, kwp_next_call. intros s1 Hk1 _. apply kwp_bind, kwp_get_kernel, kwp_ret.
  rewrite Hk1. destruct (read_counter_snapshot _ _ _) as [err snapshot] eqn:Esnap.
  assert (Hsnap : calls_succeed -> context_there session (ks_kernel s) ->
    snapshot = Some (km_context (ks_kernel s))).
  { intros Hcalls Hthere. destruct (Hcalls (ks_calls s)) as [Hread _].
    rewrite Hread, snapshot_succeeds in Esnap by done. by apply (inj2 pair) in Esnap as [_ <-]. }
  destruct snapshot as [snapshot|].
  2: { apply kwp_ret, HQ; [unfold kernel_config; by rewrite Hk1|]. intros Hc Ht. by specialize (Hsnap Hc Ht). }
  apply kwp_bind, kwp_next_call. intros s2 Hk2 _. apply kwp_bind, kwp_get_kernel.
  destruct (write_kernel_mem _ _) as [e v] eqn:Ewrite. apply kwp_bind, kwp_put_kernel, kwp_ret, HQ.
  - unfold kernel_config. cbn. by rewrite Hk2, Hk1.
  - intros Hcalls Hthere. specialize (Hsnap Hcalls Hthere). apply (inj Some) in Hsnap as ->.
    destruct (Hcalls (ks_calls s1)) as (_ & Hcount & _). unfold write_kernel_mem in Ewrite.
    rewrite Hcount in Ewrite. apply (inj2 pair) in Ewrite as [_ <-].
    unfold rejections. cbn. by rewrite fn_lookup_insert.
Qed.

Lemma read_and_publish_exact read_err config s :
  two_config_slots s ->
  kwp (if is_failed read_err then mret read_err
       else
         '(err, current) ← snapshot_kernel session;
         match current with
         | None => mret err
         | Some current =>
             if cfg_config_generation config =? rc_config_generation (active_config current)
             then mret OK
             else publish_config session config
         end)
    (fun result s' => answers_exactly (read_err, config) s result s' /\ rejections s' = rejections s /\
       (context_there session (ks_kernel s) -> context_there session (ks_kernel s'))) s.
Proof.
  intros Htwo. destruct (is_failed read_err) eqn:Ee.
  { apply is_failed_not_ok in Ee. apply kwp_ret. split; [|done]. split; [done|]. intros _ _. by constructor. }
  apply is_failed_false in Ee as ->. apply kwp_bind, kwp_bind, kwp_next_call. intros s1 Hk1 _.
  apply kwp_bind, kwp_get_kernel, kwp_ret. rewrite Hk1.
  assert (Hc1 : kernel_config s1 = kernel_config s) by (unfold kernel_config; by rewrite Hk1).
  assert (Hr1 : rejections s1 = rejections s) by (unfold rejections; by rewrite Hk1).
  destruct (read_counter_snapshot _ _ _) as [err snapshot] eqn:Esnap.
  destruct snapshot as [current|].
  2: { apply kwp_ret. split; [|by rewrite Hk1]. split; [done|]. intros Hcalls Hthere.
       destruct (Hcalls (ks_calls s)) as [Hread _]. by rewrite Hread, snapshot_succeeds in Esnap. }
  assert (current = km_context (ks_kernel s)) as ->.
  { unfold read_counter_snapshot in Esnap. repeat case_match; by simplify_eq. }
  fold (kernel_config s).
  destruct (Z.eqb_spec (cfg_config_generation config) (rc_config_generation (kernel_config s))) as [Hg|Hg].
  { apply kwp_ret. split; [|by rewrite Hk1]. split; [done|]. intros _ _. rewrite Hc1. by constructor. }
  eapply kwp_mono.
  { apply publish_config_exact; [unfold two_config_slots; by rewrite Hk1|by rewrite Hc1]. }
  intros result s2 ((Hfile & Hexact) & Hr2 & Hthere2). unfold answers_exactly. rewrite Hc1, Hk1 in *.
  split; [done|]. split; [congruence|done].
Qed.

Lemma serve_apply_exact config_file s :
  two_config_slots s ->
  kwp (serve_apply session config_file) (fun result s' =>
    answers_exactly config_file s result s' /\ counts_exactly s result s') s.
Proof.
  intros Htwo. destruct config_file as [read_err config]. apply kwp_bind.
  eapply kwp_mono; [by apply read_and_publish_exact|].
  intros result s1 (Hanswer & Hr1 & Hthere). destruct (is_failed result) eqn:Ee.
  - apply is_failed_not_ok in Ee. apply kwp_bind, increment_exact. intros err s2 Hc2 Hcount.
    apply kwp_ret. unfold answers_exactly, counts_exactly in *. rewrite Hc2. split; [exact Hanswer|].
    split; [done|]. intros Hcalls Ht _. rewrite Hcount by auto. by rewrite Hr1.
  - apply is_failed_false in Ee. apply kwp_ret. split; [exact Hanswer|]. by split.
Qed.

End Exact.

(** * Serving a client leaves the monitor's part alone *)

Definition keeps_hal {A} (m : kio A) : Prop := forall s, hal_untouched s (m s).2.

Lemma keeps_ret {A} (a : A) : keeps_hal (mret a).
Proof. intros s. reflexivity. Qed.

Lemma keeps_bind {A B} (m : kio A) (k : A -> kio B) :
  keeps_hal m -> (forall a, keeps_hal (k a)) -> keeps_hal (a ← m; k a).
Proof.
  intros Hm Hk s. specialize (Hm s). unfold mbind, kio_bind. destruct (m s) as [a s1].
  etransitivity; [exact Hm|apply Hk].
Qed.

Lemma keeps_next_call : keeps_hal next_call.
Proof. intros s. by split. Qed.

Section Keeps.
Context `{KernelCalls} (session : CounterHookSession).

Lemma keeps_snapshot : keeps_hal (snapshot_kernel session).
Proof. intros s. by split. Qed.

Lemma keeps_publish_config config : keeps_hal (publish_config session config).
Proof.
  intros s. unfold publish_config, mbind, kio_bind, next_call, get_kernel, put_kernel, mret, kio_ret.
  cbn [ks_kernel ks_calls ks_open].
  pose proof (publish_config_shape (config_answer (ks_calls s)) session config (ks_kernel s)) as Hshape.
  destruct (publish_runtime_config _ _ _ _) as [[err slot] k'].
  destruct Hshape as (_ & Hslots & Hactive & _). cbn [snd].
  split; [|done]. split; [|unfold two_slots; cbn; by rewrite Hslots].
  unfold kernel_hal, active_hal. cbn. by rewrite Hslots, Hactive.
Qed.

Lemma keeps_rejections : keeps_hal (increment_rejections session).
Proof.
  apply keeps_bind; [apply keeps_snapshot|]. intros [err [snapshot|]]; [|apply keeps_ret].
  intros s. unfold mbind, kio_bind, next_call, get_kernel, put_kernel, mret, kio_ret.
  cbn [ks_kernel ks_calls ks_open]. by destruct (write_kernel_mem _ _).
Qed.

Lemma keeps_serve_apply config_file : keeps_hal (serve_apply session config_file).
Proof.
  destruct config_file as [read_err config]. unfold serve_apply. apply keeps_bind.
  - destruct (is_failed read_err); [apply keeps_ret|]. apply keeps_bind; [apply keeps_snapshot|].
    intros [err [current|]]; [|apply keeps_ret].
    destruct (_ =? _); [apply keeps_ret|apply keeps_publish_config].
  - intros result. destruct (is_failed result); [|apply keeps_ret].
    apply keeps_bind; [apply keeps_rejections|]. intros _. apply keeps_ret.
Qed.

Lemma keeps_serve_client to_num pid monitor config_file sent :
  keeps_hal (serve_client session to_num pid monitor config_file sent).
Proof.
  apply keeps_bind.
  - unfold serve_request. destruct (_ || _); [apply keeps_ret|].
    destruct (operation_of _) as [[]|]; [apply keeps_ret| |apply keeps_ret..].
    apply keeps_bind; [apply keeps_serve_apply|]. intros result. apply keeps_ret.
  - intros [result stop]. apply keeps_bind; [apply keeps_snapshot|].
    intros [err snapshot]. apply keeps_ret.
Qed.

Lemma untouched_in_step s s' m : in_step s m -> hal_untouched s s' -> in_step s' m.
Proof.
  intros (Hset & Htwo & Hown) [[Hsame Hkeep] Ho]. split; [by rewrite Hsame|].
  split; [auto|]. unfold owns in *. by rewrite Ho.
Qed.

(** * The loop *)

Context (Hfaithful : faithful) (Hlossless : lossless).
Context (to_num : KModErr -> Z) (daemon_pid : Z).

Lemma react_spec pidfd timer proc m s :
  in_step s m ->
  kwp (react session pidfd timer proc m) (fun result s' => in_step s' result.2) s.
Proof.
  intros Hstep. unfold react.
  assert (Hcount : in_step s (count_wakeup m)).
  { unfold count_wakeup. by destruct (hm_wakeups m =? UINT32_MAX). }
  assert (Hclear : forall restart m s, in_step s m ->
    kwp (clear_monitored_identities session m restart) (fun result s' => in_step s' result.2) s).
  { intros restart m1 s1 H1. eapply kwp_mono; [by apply clear_spec|].
    intros result s2 [(_ & _ & Hok) _]. apply Hok. by left. }
  destruct pidfd; [by apply Hclear|]. destruct timer; [|by apply kwp_ret].
  apply kwp_bind. eapply kwp_mono; [by apply rediscover_spec|].
  intros [err m1] s1 (_ & _ & Hok). specialize (Hok (or_introl Hlossless)). cbn [fst snd] in *.
  destruct (is_failed err); [|by apply kwp_ret].
  apply kwp_bind. eapply kwp_mono; [by apply Hclear|].
  intros [err2 m2] s2 H2. destruct (is_failed err2); by apply kwp_ret.
Qed.

Lemma iteration_spec max it sv s :
  in_step s (sv_monitor sv) ->
  kwp (server_iteration session to_num daemon_pid max it sv)
    (fun result s' => in_step s' (sv_monitor result.1)) s.
Proof.
  intros Hstep. unfold server_iteration. cbv zeta. destruct (_ && _); [by apply kwp_ret|].
  assert (Hrest : forall sv server_ready pidfd timer, in_step s (sv_monitor sv) ->
    kwp ('(err, monitor) ← react session pidfd timer (it_proc it) (sv_monitor sv);
         if is_failed err then mret (break_with monitor err sv, None)
         else
           if negb server_ready || negb (it_accepted it) then mret (with_monitor monitor sv, None)
           else
             '(response, stop) ← serve_client session to_num daemon_pid monitor (it_config_file it)
                                   (it_sent it);
             mret (Build_server monitor (sv_elapsed_ms (with_monitor monitor sv))
                     (sv_result (with_monitor monitor sv)) (sv_stop (with_monitor monitor sv) || stop)
                     (sv_broken (with_monitor monitor sv)), Some response))
      (fun result s' => in_step s' (sv_monitor result.1)) s).
  { intros sv1 server_ready pidfd timer H1. apply kwp_bind.
    eapply kwp_mono; [by apply react_spec|]. intros [err m] s2 H2. cbn [snd] in H2.
    destruct (is_failed err); [by apply kwp_ret|].
    destruct (_ || _); [by apply kwp_ret|]. apply kwp_bind.
    unfold kwp at 1. pose proof (keeps_serve_client to_num daemon_pid m (it_config_file it) (it_sent it) s2) as H3.
    destruct (serve_client _ _ _ _ _ _ _) as [[response stop] s3]. cbn [fst snd] in *.
    apply kwp_ret. by eapply untouched_in_step. }
  destruct (it_poll it) as [| | |server pidfd]; [by apply kwp_ret..|by apply Hrest|by apply Hrest].
Qed.

Lemma shutdown_spec sv s :
  in_step s (sv_monitor sv) ->
  kwp (server_shutdown session sv) (fun result s' => ks_open s' = ∅ /\
    (result = OK -> sv_result sv = OK /\ hs_count (kernel_hal s') = 0)) s.
Proof.
  intros Hstep. apply kwp_bind. eapply kwp_mono; [by apply clear_spec|].
  intros [err m] s1 ((_ & Hown & Hok) & Hfds & Hclosed). cbn [fst snd] in *.
  apply kwp_bind, (close_spec Hfaithful); [done|]. intros s2 Hk2 Hown2. apply kwp_ret.
  split; [exact Hown2|]. unfold kernel_hal. rewrite Hk2. fold (kernel_hal s1).
  destruct (is_failed err) eqn:Ee.
  - apply is_failed_not_ok in Ee. destruct (is_ok (sv_result sv)) eqn:Er; cbn [andb]; [by intros ->|].
    intros Hr. by rewrite Hr in Er.
  - apply is_failed_false in Ee as ->. cbn [andb]. intros ->. by destruct (Hclosed eq_refl) as (_ & _ & ?).
Qed.

Lemma loop_spec max its sv s :
  in_step s (sv_monitor sv) ->
  kwp (server_loop session to_num daemon_pid max its sv) (fun ended s' =>
    forall result, ended = Some result -> ks_open s' = ∅ /\
      (result.1 = OK -> hs_count (kernel_hal s') = 0)) s.
Proof.
  assert (Hend : forall sv s, in_step s (sv_monitor sv) ->
    kwp (result ← server_shutdown session sv; mret (Some (result, [])))
      (fun (ended : option (KModErr * list ControlIpcResponse)) s' =>
        forall result, ended = Some result -> ks_open s' = ∅ /\
          (result.1 = OK -> hs_count (kernel_hal s') = 0)) s).
  { intros sv1 s1 H1. apply kwp_bind. eapply kwp_mono; [by apply shutdown_spec|].
    intros result s2 [Ho Hr]. apply kwp_ret. intros r Hsome. apply (inj Some) in Hsome as <-.
    split; [done|]. intros HOK. by destruct (Hr HOK). }
  revert sv s. induction its as [|[signalled it] its IH]; intros sv s Hstep; cbn [server_loop].
  { destruct (keeps_running _ _ _); [by apply kwp_ret|by apply Hend]. }
  destruct (keeps_running _ _ _); [|by apply Hend].
  apply kwp_bind. eapply kwp_mono; [by apply iteration_spec|].
  intros [sv' response] s1 H1. cbn [fst] in H1. apply kwp_bind.
  eapply kwp_mono; [by apply IH|]. intros ended s2 H2. apply kwp_ret.
  intros result Hsome. apply fmap_Some in Hsome as (r & -> & ->). destruct r as [r rs].
  by apply (H2 (r, rs)).
Qed.

End Keeps.

(** * The records of an exchange *)

Definition request_front (r : ControlIpcRequest) : list Z :=
  le_enc 8 (rq_magic r) ++ le_enc 4 (rq_version r) ++ le_enc 4 (rq_operation r) ++
  le_enc 8 (rq_request_id r).

Lemma request_covered r : take 24 (bytes_of r) = request_front r.
Proof.
  transitivity (take 24 (request_front r ++ le_enc 4 (rq_crc32 r) ++ le_enc 4 (rq_reserved r))).
  - unfold request_front. by rewrite <-!app_assoc.
  - rewrite take_app_le, take_ge; [done|..]; unfold request_front;
      rewrite !length_app, !le_enc_length; lia.
Qed.

Lemma operation_num_of operation : operation_of (operation_num operation) = Some operation.
Proof. by destruct operation. Qed.

Lemma make_request_in_range operation pid tid : in_range (make_request operation pid tid).
Proof.
  assert (Hid : 0 <= Z.lxor (u64 (Z.shiftl (u64 pid) 32)) (u64 tid) < 2 ^ 64)
    by (apply lxor_range; [lia|apply u64_range..]).
  assert (Hop : 1 <= operation_num operation <= 3) by (destruct operation; cbn; lia).
  assert (Hcrc : forall crc, word_ok 4 crc -> in_range
    {| rq_magic := kControlIpcMagic; rq_version := kControlIpcVersion;
       rq_operation := operation_num operation;
       rq_request_id := Z.lxor (u64 (Z.shiftl (u64 pid) 32)) (u64 tid);
       rq_crc32 := crc; rq_reserved := 0 |}).
  { intros crc Hc. revert Hc Hid Hop. generalize (Z.lxor (u64 (Z.shiftl (u64 pid) 32)) (u64 tid)).
    generalize (operation_num operation). intros op id Hc Hid Hop. cbn. unfold word_ok in *.
    split_and!; (done || lia). }
  apply Hcrc, crc32_range. rewrite request_covered.
  unfold request_front, bytes_ok. rewrite !Forall_app. split_and!; apply le_enc_bytes_ok.
Qed.

Lemma make_request_valid operation pid tid :
  validate_request (make_request operation pid tid) = true.
Proof.
  assert (Hop : 1 <= operation_num operation <= 3) by (destruct operation; cbn; lia).
  unfold validate_request. rewrite !andb_true_iff.
  split_and!; try (apply Z.eqb_eq; reflexivity); try (apply Z.leb_le; cbn; lia).
Qed.

(** The server finds in its buffer the message the client made. *)
Lemma message_request operation pid tid :
  request_buffer (bytes_of (make_request operation pid tid)) = make_request operation pid tid.
Proof.
  pose proof (make_request_in_range operation pid tid) as Hq. unfold request_buffer.
  pose proof (bytes_of_length _ Hq) as Hl. change (size_of _) with 32%nat in Hl.
  rewrite take_ge, Hl, app_nil_r by lia. by apply of_bytes_bytes_of.
Qed.

(** The checksum field covers the bytes before it, whatever it holds itself. *)
Lemma response_prefix l crc : length l = 196%nat -> take 196 (l ++ le_enc 4 crc) = l.
Proof. intros Hl. by rewrite take_app_le, take_ge by lia. Qed.

Lemma fill_response_checksum to_num pid snapshot id result monitor :
  let r := fill_response to_num pid snapshot id result monitor in
  in_range r -> rs_crc32 r = crc32 (take 196 (bytes_of r)).
Proof.
  intros r Hr. pose proof (bytes_of_length r Hr) as Hlen. change (size_of _) with 200%nat in Hlen.
  set (prefix := take 196 (bytes_of r)).
  assert (Hsplit : exists l, bytes_of r = l ++ le_enc 4 (rs_crc32 r) /\
    rs_crc32 r = crc32 (take 196 (l ++ le_enc 4 0))).
  { unfold r, fill_response. cbn [rs_crc32]. unfold bytes_of, Response_layout. cbn [rs_crc32].
    rewrite !app_assoc. eexists. split; reflexivity. }
  destruct Hsplit as (l & Hl & Hcrc).
  assert (Hll : length l = 196%nat) by (rewrite Hl, length_app, le_enc_length in Hlen; lia).
  unfold prefix. rewrite Hl, response_prefix by done. by rewrite response_prefix in Hcrc.
Qed.

Lemma response_corrupted content i b x :
  length content = 200%nat -> bytes_ok content -> byte_ok b -> content !! i = Some x -> x <> b ->
  word_at 4 196 content = crc32 (take 196 content) ->
  word_at 4 196 (<[i := b]> content) <> crc32 (take 196 (<[i := b]> content)).
Proof.
  intros Hlen Hok Hb Hx Hne Hcrc Hcrc'.
  assert (Hok' : bytes_ok (<[i := b]> content)) by (by apply Forall_insert).
  assert (Hi : (i < 200)%nat) by (rewrite <-Hlen; by eapply lookup_lt_Some).
  destruct (Nat.lt_ge_cases i 196).
  - apply (crc32_insert_differs i b (take 196 content) x);
      [by rewrite lookup_take_lt|by apply bytes_ok_take|done..|].
    rewrite <-take_insert_lt, <-Hcrc', <-Hcrc by done.
    unfold word_at, slice. by rewrite drop_insert_lt by lia.
  - rewrite take_insert_ge, <-Hcrc in Hcrc' by lia.
    apply word_at_inj in Hcrc'; [|by rewrite length_insert|rewrite length_insert; lia|done..].
    apply slice_insert_ne in Hcrc'; [congruence|lia|lia].
Qed.

(** * Properties *)

(** an exchange over the socket is sound: the server recognises every request the
    client makes as the operation asked for; the client accepts the server's answer to
    its request, and delivers it unchanged; and it refuses that answer after any one
    byte of it has changed. *)
Lemma exchange_sound to_num pid snapshot result monitor operation client tid :
  let request := make_request operation client tid in
  let response := fill_response to_num pid snapshot (rq_request_id request) result monitor in
  in_range response ->
  request_buffer (bytes_of request) = request /\ validate_request request = true /\
  operation_of (rq_operation request) = Some operation /\
  receive_response request (Some (bytes_of response)) = (OK, response) /\
  (forall i b x, bytes_of response !! i = Some x -> byte_ok b -> x <> b ->
     receive_response request (Some (<[i := b]> (bytes_of response))) =
       (ERR_MODULE_SOCKET, zero_response)).
Proof.
  intros request response Hr. pose proof (make_request_in_range operation client tid) as Hq.
  pose proof (fill_response_checksum to_num pid snapshot (rq_request_id request) result monitor Hr)
    as Hcrc. fold response in Hcrc.
  split; [|split; [apply make_request_valid|split; [apply operation_num_of|split]]].
  - unfold request_buffer. pose proof (bytes_of_length request Hq) as Hl.
    change (size_of _) with 32%nat in Hl. rewrite take_ge, Hl, app_nil_r by lia. by apply of_bytes_bytes_of.
  - unfold receive_response. rewrite of_bytes_bytes_of by done.
    assert (accept_response request response = true) as ->; [|done].
    unfold accept_response. rewrite <-Hcrc, !Z.eqb_refl. reflexivity.
  - intros i b x Hx Hb Hne. unfold receive_response.
    assert (accept_response request (of_bytes (<[i := b]> (bytes_of response))) = false) as ->; [|done].
    pose proof (bytes_of_length response Hr) as Hlen. change (size_of _) with 200%nat in Hlen.
    pose proof (bytes_of_bytes_ok response Hr) as Hok.
    assert (Hfield : word_at 4 196 (bytes_of response) = crc32 (take 196 (bytes_of response))).
    { rewrite <-Hcrc. by rewrite <-(of_bytes_bytes_of response Hr) at 2. }
    pose proof (response_corrupted _ i b x Hlen Hok Hb Hx Hne Hfield) as Hbad.
    unfold accept_response. rewrite bytes_of_of_bytes; [|by rewrite length_insert|by apply Forall_insert].
    change (rs_crc32 (of_bytes (<[i := b]> (bytes_of response))))
      with (word_at 4 196 (<[i := b]> (bytes_of response))).
    apply Z.eqb_neq in Hbad. rewrite Hbad. by rewrite !orb_true_r.
Qed.

(** A request is well formed: it arrived whole, and is accepted. *)
Definition well_formed (sent : list Z) : Prop :=
  (32 <= length sent)%nat /\ validate_request (request_buffer sent) = true.

#[global] Instance well_formed_dec sent : Decision (well_formed sent).
Proof. unfold well_formed. apply _. Defined.

Lemma well_formed_guard sent :
  (length sent <? 32)%nat || negb (validate_request (request_buffer sent)) =
    negb (bool_decide (well_formed sent)).
Proof.
  destruct (bool_decide_reflect (well_formed sent)) as [[Hl Hv]|Hn].
  { rewrite Hv. by rewrite (proj2 (Nat.ltb_ge _ _) Hl). }
  destruct (Nat.ltb_spec (length sent) 32) as [Hl|Hl]; [reflexivity|].
  destruct (validate_request (request_buffer sent)) eqn:Hv; [|reflexivity]. by destruct Hn.
Qed.

Lemma well_formed_operation sent :
  well_formed sent -> exists operation, operation_of (rq_operation (request_buffer sent)) = Some operation.
Proof.
  intros [_ Hv]. unfold validate_request in Hv. rewrite !andb_true_iff in Hv.
  destruct Hv as [[[_ Hlo] Hhi] _]. apply Z.leb_le in Hlo, Hhi.
  change (operation_num kStatus) with 1 in Hlo. change (operation_num kStop) with 3 in Hhi.
  revert Hlo Hhi. generalize (rq_operation (request_buffer sent)). intros op Hlo Hhi.
  assert (op = 1 \/ op = 2 \/ op = 3) as [ -> |[ -> | -> ]] by lia; cbn; by eexists.
Qed.

(** What is asked for: nothing by a malformed request. *)
Definition asked (sent : list Z) : option ControlIpcOperation :=
  if bool_decide (well_formed sent) then operation_of (rq_operation (request_buffer sent)) else None.

Lemma serve_request_asked `{KernelCalls} session config_file sent :
  serve_request session config_file sent =
    match asked sent with
    | Some kStatus => mret (OK, false)
    | Some kApply => result ← serve_apply session config_file; mret (result, false)
    | Some kStop => mret (OK, true)
    | None => mret (ERR_MODULE_PARAM, false)
    end.
Proof.
  unfold serve_request, asked. cbv zeta. rewrite well_formed_guard. by destruct (bool_decide _).
Qed.

(** C30: what the server does with whatever arrived as a request.  Something malformed (a
    short message, or one the checks refuse) is answered with a parameter error, a
    status request and a stop request with success, and none of them changes anything;
    the server stops for a stop request only.  A request to apply reads the control
    file: when that fails, its error is the answer and the configuration in force stays;
    success means that the file was read, and that its configuration is of the
    generation in force, which then stays, or is a newer valid one that is now in force;
    and on a failure the configuration in force is the old one, or the file's valid one
    when the failure was reported after the flip.  When no call fails and the context is
    there the answer is
    exactly that: success for the generation in force or for a newer valid one, a
    parameter error for any other, and each failure has raised the count of rejections
    by one (modulo 2^64), which a success leaves alone.  Nothing moves the identity gate. *)
Theorem serve_request_spec `{KernelCalls} session config_file sent s result stop s' :
  (forall n, flip_faithful (po_flip (config_answer n))) -> two_config_slots s ->
  serve_request session config_file sent s = ((result, stop), s') ->
  (asked sent = None <-> ~ well_formed sent) /\
  hal_untouched s s' /\
  match asked sent with
  | None => result = ERR_MODULE_PARAM /\ stop = false /\ s' = s
  | Some kStatus => result = OK /\ stop = false /\ s' = s
  | Some kStop => result = OK /\ stop = true /\ s' = s
  | Some kApply => stop = false /\ apply_result config_file s result s' /\
      answers_exactly session config_file s result s' /\ counts_exactly session s result s'
  end.
Proof.
  intros Hflips Htwo. rewrite serve_request_asked. intros Hrun. split.
  { unfold asked. destruct (bool_decide_reflect (well_formed sent)) as [Hw|Hw]; [|done].
    destruct (well_formed_operation sent Hw) as [operation ->]. split; [done|by intros []]. }
  assert (Hret : forall r b, (mret (r, b) : kio (KModErr * bool)) s = ((result, stop), s') ->
    r = result /\ b = stop /\ s = s').
  { intros r b E. apply (inj2 pair) in E as [E ->]. by apply (inj2 pair) in E as [-> ->]. }
  destruct (asked sent) as [[]|].
  - by apply Hret in Hrun as (<- & <- & <-).
  - pose proof (serve_apply_spec session Hflips config_file s Htwo) as Happly.
    pose proof (serve_apply_exact session Hflips config_file s Htwo) as Hexact.
    revert Hrun. unfold kwp in *. unfold mbind, kio_bind.
    destruct (serve_apply session config_file s) as [err s1]. cbn [fst snd] in *.
    intros Hrun. apply (inj2 pair) in Hrun as [Hr <-]. apply (inj2 pair) in Hr as [<- <-].
    split; [by destruct Happly|]. by split.
  - by apply Hret in Hrun as (<- & <- & <-).
  - by apply Hret in Hrun as (<- & <- & <-).
Qed.

Lemma run_spec `{KernelCalls} session to_num daemon_pid setup socket_path control_path max its s e :
  faithful -> lossless -> two_slots s -> ks_open s = ∅ -> endpoint_idle e ->
  kwp (run_control_socket_server session to_num daemon_pid setup socket_path control_path max its)
    (fun ended s' => forall result, ended = Some result -> endpoint_ends e (sl_endpoint result.2) /\
       (result.1 = OK -> ks_open s' = ∅ /\ hs_count (kernel_hal s') = 0)) s.
Proof.
  intros Hf Hl Htwo Hopen He. unfold run_control_socket_server.
  assert (Hnone : endpoint_ends e []) by (split; [|by split]; constructor; [|constructor]; intros Hlistening;
    destruct He as (_ & E & _); congruence).
  assert (Hends : forall result responses events s', endpoint_ends e events ->
    (result = OK -> ks_open s' = ∅ /\ hs_count (kernel_hal s') = 0) ->
    kwp (mret (Some (result, Build_ServerLog responses events))) (fun ended s' =>
      forall result, ended = Some result -> endpoint_ends e (sl_endpoint result.2) /\
        (result.1 = OK -> ks_open s' = ∅ /\ hs_count (kernel_hal s') = 0)) s').
  { intros result responses events s' H1 H2. apply kwp_ret. intros r Hr. apply (inj Some) in Hr as <-.
    by split. }
  cbv zeta. destruct (_ || _); [by apply Hends|]. destruct (fill_unix_address _); [|by apply Hends].
  pose proof (refused_ends setup e He) as Hrefused. pose proof (served_ends setup e He) as Hserved.
  destruct (open_endpoint setup) as [[] opened]; cbn [fst snd negb] in *; [|by apply Hends; [apply Hrefused|]].
  apply kwp_bind. eapply kwp_mono; [by apply initialize_spec|]. intros [err m] s1 (_ & _ & Hok). cbn [fst snd] in *.
  destruct (is_failed err) eqn:Ee.
  { apply Hends; [by apply Hserved|]. intros Herr. by rewrite Herr in Ee. }
  apply is_failed_false in Ee. apply kwp_bind. eapply kwp_mono; [by apply loop_spec, Hok|].
  intros [[result responses]|] s2 Hr; [|by apply kwp_ret].
  destruct (Hr _ eq_refl) as [Ho Hgate]. apply Hends; [by apply Hserved|]. auto.
Qed.

(** A visit behind which the server does not go on: the signal has arrived, the time is
    up, waiting has failed, or a client asks to stop. *)
Definition last_visit (max_runtime_ms : Z) (visit : bool * iteration) : Prop :=
  visit.1 = true \/
  (max_runtime_ms <> 0 /\ max_runtime_ms <= it_elapsed_before visit.2) \/
  it_poll visit.2 = Poll_error \/
  ((exists pidfd, it_poll visit.2 = Poll_ready true pidfd) /\ it_accepted visit.2 = true /\
   well_formed (it_sent visit.2) /\
   operation_of (rq_operation (request_buffer (it_sent visit.2))) = Some kStop).

Section Ends.
Context `{KernelCalls} (session : CounterHookSession) (to_num : KModErr -> Z) (daemon_pid : Z).
#[local] Abbreviation loop := (server_loop session to_num daemon_pid).

Lemma loop_done max its sv s :
  sv_broken sv = true \/ sv_stop sv = true -> (loop max its sv s).1 <> None.
Proof.
  intros Hdone. assert (Hk : forall signalled, keeps_running max signalled sv = false).
  { intros signalled. unfold keeps_running. destruct Hdone as [-> | ->]; [done|].
    by rewrite andb_false_r. }
  destruct its as [|[signalled it] its]; cbn [server_loop]; rewrite Hk; unfold mbind, kio_bind;
    by destruct (server_shutdown _ _ _).
Qed.

Lemma stop_served config_file sent s :
  well_formed sent -> operation_of (rq_operation (request_buffer sent)) = Some kStop ->
  serve_request session config_file sent s = ((OK, true), s).
Proof.
  intros Hw Hop. unfold serve_request. cbv zeta. rewrite well_formed_guard, Hop.
  by rewrite bool_decide_eq_true_2.
Qed.

Lemma visit_ends max visit sv s :
  last_visit max visit -> visit.1 = false ->
  let sv' := (server_iteration session to_num daemon_pid max visit.2 sv s).1.1 in
  sv_broken sv' = true \/ sv_stop sv' = true.
Proof.
  unfold last_visit. intros Hlast Hsig. destruct visit as [signalled it]. cbn [fst snd] in *. cbv zeta.
  unfold server_iteration. cbv zeta.
  destruct (negb (max =? 0) && _) eqn:Etime; [by left|].
  destruct Hlast as [?|[[Hmax Htime]|[Hpoll|((pidfd & Hpoll) & Hacc & Hwf & Hop)]]].
  - congruence.
  - exfalso. revert Etime. cbn [sv_elapsed_ms with_elapsed].
    rewrite (proj2 (Z.eqb_neq max 0)) by done. cbn [negb andb].
    rewrite Z.min_r by done. by rewrite Z.leb_refl.
  - rewrite Hpoll. by left.
  - rewrite Hpoll, Hacc. unfold mbind, kio_bind.
    destruct (react _ _ _ _ _ s) as [[err m] s1]. destruct (is_failed err); [by left|]. cbn [negb orb].
    unfold serve_client, mbind, kio_bind. rewrite (stop_served _ _ _ Hwf Hop).
    destruct (snapshot_kernel session s1) as [[e snapshot] s2]. right. apply orb_true_r.
Qed.

Lemma loop_ends max its sv s : Exists (last_visit max) its -> (loop max its sv s).1 <> None.
Proof.
  intros Hex. revert sv s. induction Hex as [visit its Hlast|visit its _ IH]; intros sv s;
    destruct visit as [signalled it]; cbn [server_loop];
    (destruct (keeps_running max signalled sv) eqn:Ek;
      [|unfold mbind, kio_bind; by destruct (server_shutdown _ _ _)]).
  - assert (signalled = false) as ->.
    { unfold keeps_running in Ek. by destruct signalled; [rewrite andb_false_r in Ek|]. }
    pose proof (visit_ends max (false, it) sv s Hlast eq_refl) as Hdone. cbn [fst snd] in Hdone.
    unfold mbind, kio_bind. destruct (server_iteration _ _ _ _ _ _ _) as [[sv' response] s1].
    cbn [fst] in Hdone. pose proof (loop_done max its sv' s1 Hdone) as Hl.
    destruct (server_loop _ _ _ _ _ _ s1) as [[result|] s2]; [done|by destruct Hl].
  - unfold mbind, kio_bind. destruct (server_iteration _ _ _ _ _ _ _) as [[sv' response] s1].
    specialize (IH sv' s1). destruct (server_loop _ _ _ _ _ _ s1) as [[result|] s2]; [done|by destruct IH].
Qed.

Lemma run_ends setup socket_path control_path max its s :
  Exists (last_visit max) its ->
  (run_control_socket_server session to_num daemon_pid setup socket_path control_path max its s).1 <> None.
Proof.
  intros Hex. unfold run_control_socket_server. destruct (_ || _); [done|].
  destruct (fill_unix_address _); [|done]. destruct (open_endpoint setup) as [[] opened]; [|done].
  cbn [negb]. unfold mbind, kio_bind. destruct (initialize_hal_monitor _ _ s) as [[err m] s1].
  destruct (is_failed err); [done|].
  match goal with |- context [server_loop _ _ _ _ _ ?sv s1] => pose proof (loop_ends max its sv s1 Hex) as Hl end.
  destruct (server_loop _ _ _ _ _ _ s1) as [[[result responses]|] s2]; [done|by destruct Hl].
Qed.

End Ends.

(** C31: the control daemon never reports success with the gate open, and it always takes
    its endpoint down: started with no descriptor of its own, whatever clients,
    processes and the clock do and whichever calls fail on the way with an honest
    report, it takes connections only while the file of its socket can be opened by its
    owner alone, and when it returns the socket is closed, its file is gone and the
    signal handlers are the caller's again; and a server that returns success has
    closed every descriptor it opened, and the kernel's identity gate lets nothing in.
    It may serve for ever; it does return once the signal to stop, the end of its time,
    a failed wait or a well-formed request to stop is among what it meets. *)
Theorem server_leaves_gate_closed `{KernelCalls} session to_num daemon_pid setup socket_path
    control_path max its s e ended s' :
  faithful -> lossless -> two_slots s -> ks_open s = ∅ -> endpoint_idle e ->
  run_control_socket_server session to_num daemon_pid setup socket_path control_path max its s =
    (ended, s') ->
  (forall result log, ended = Some (result, log) ->
     endpoint_ends e (sl_endpoint log) /\
     (result = OK -> ks_open s' = ∅ /\ hs_count (kernel_hal s') = 0)) /\
  (Exists (last_visit max) its -> exists result log, ended = Some (result, log)).
Proof.
  intros Hf Hl Htwo Hopen He Hrun. split.
  - intros result log ->. exact (kwp_result _ _ _ _ _ (run_spec session to_num daemon_pid setup
      socket_path control_path max its s e Hf Hl Htwo Hopen He) Hrun (result, log) eq_refl).
  - intros Hex. pose proof (run_ends session to_num daemon_pid setup socket_path control_path max its s Hex) as Hne.
    rewrite Hrun in Hne. cbn [fst] in Hne. destruct ended as [[result log]|]; [by exists result, log|done].
Qed.

(** * Concrete runs *)

Definition demo_number (err : KModErr) : Z := if is_ok err then 0 else 1.

#[local] Instance demo_calls : KernelCalls := calls_with good_answer.

(** No process is there. *)
Definition demo_procfs : ProcFs := {|
  readlink _ := None; list_dir _ := None; open_file _ := None |}.

(** A client that asks for the new configuration, then one that asks to stop. *)
Definition demo_sent operation : list Z := bytes_of (make_request operation 10 11).
Definition demo_arrival operation : iteration := {|
  it_elapsed_before := 0; it_poll := Poll_ready true false; it_elapsed_after := 0;
  it_proc := demo_procfs; it_accepted := true; it_sent := demo_sent operation;
  it_config_file := (OK, demo_replacement 2) |}.

Lemma demo_flip_lossless : flip_lossless demo_flip.
Proof.
  intros active slot Hfail. revert Hfail. unfold flip_slot_index. cbn. by destruct (1 <? slot).
Qed.

Definition demo_setup : setup_io := {|
  su_socket := true; su_bind := true; su_mode := 493; su_chmod := true; su_listen := true;
  su_term := true; su_int := true |}.

#[local] Abbreviation demo_run :=
  (run_control_socket_server demo_session demo_number 321 demo_setup
    (Some "/data/drmid_control_v5.sock") (Some "/data/drmid_runtime_control_v3.bin") 0
    [(false, demo_arrival kApply); (false, demo_arrival kStop)] demo_state) (only parsing).

Definition demo_log : ServerLog :=
  match demo_run.1 with Some (_, log) => log | None => Build_ServerLog [] [] end.

Lemma demo_run_result : demo_run.1 = Some (OK, demo_log) /\
  (rs_result <$> sl_responses demo_log) = [0; 0] /\
  (rs_config_generation <$> sl_responses demo_log) = [2; 2] /\
  length (sl_endpoint demo_log) = 11%nat.
Proof. split_and!; vm_compute; reflexivity. Qed.

Lemma demo_run_returns : demo_run = (Some (OK, demo_log), demo_run.2).
Proof.
  pose proof (proj1 demo_run_result) as Hresult. revert Hresult. generalize demo_run.
  intros [ended s]. cbn. by intros ->.
Qed.

(** Before the client that asks to stop has come, the server goes on. *)
Lemma demo_still_serving :
  (run_control_socket_server demo_session demo_number 321 demo_setup
    (Some "/data/drmid_control_v5.sock") (Some "/data/drmid_runtime_control_v3.bin") 0
    [(false, demo_arrival kApply)] demo_state).1 = None.
Proof. vm_compute. reflexivity. Qed.

Lemma demo_stop_last : last_visit 0 (false, demo_arrival kStop).
Proof.
  right. right. right. split; [by exists false|]. split; [done|].
  split; [|vm_compute; reflexivity]. apply (bool_decide_unpack _). vm_compute. exact I.
Qed.

(** The run of the demonstration, over a socket file that was left behind. *)
Lemma server_leaves_gate_closed_witness :
  endpoint_ends (Build_endpoint false false (Some 493) []) (sl_endpoint demo_log) /\
  ks_open demo_run.2 = ∅ /\ hs_count (kernel_hal demo_run.2) = 0.
Proof.
  destruct (@server_leaves_gate_closed demo_calls demo_session demo_number 321 demo_setup
    (Some "/data/drmid_control_v5.sock") (Some "/data/drmid_runtime_control_v3.bin") 0
    [(false, demo_arrival kApply); (false, demo_arrival kStop)] demo_state
    (Build_endpoint false false (Some 493) []) (Some (OK, demo_log)) demo_run.2) as [Hrun _].
  - intros n Hexec. reflexivity.
  - intros n. exact demo_flip_lossless.
  - reflexivity.
  - reflexivity.
  - split; [reflexivity|split; reflexivity].
  - exact demo_run_returns.
  - destruct (Hrun OK demo_log eq_refl) as [Hends Hgate]. split; [exact Hends|]. exact (Hgate eq_refl).
Defined.

#[local] Abbreviation demo_apply :=
  (serve_request demo_session (OK, demo_replacement 2) (demo_sent kApply) demo_state) (only parsing).

Lemma demo_apply_result : demo_apply.1 = (OK, false) /\ asked (demo_sent kApply) = Some kApply.
Proof. split; vm_compute; reflexivity. Qed.

Lemma demo_apply_returns : demo_apply = ((OK, false), demo_apply.2).
Proof.
  pose proof (proj1 demo_apply_result) as Hresult. revert Hresult. generalize demo_apply.
  intros [result s]. cbn. by intros ->.
Qed.

Lemma demo_calls_succeed : calls_succeed.
Proof. intros n. repeat split. Qed.

Lemma serve_request_spec_witness :
  apply_answer (kernel_config demo_state) (OK, demo_replacement 2) OK (kernel_config demo_apply.2) /\
  rejections demo_apply.2 = rejections demo_state.
Proof.
  destruct (@serve_request_spec demo_calls demo_session (OK, demo_replacement 2) (demo_sent kApply)
    demo_state OK false demo_apply.2) as (_ & _ & Hasked).
  - intros n Hexec. reflexivity.
  - reflexivity.
  - exact demo_apply_returns.
  - rewrite (proj2 demo_apply_result) in Hasked. destruct Hasked as (_ & _ & [_ Hexact] & [Hcount _]).
    split; [|exact (Hcount eq_refl)]. apply Hexact; [exact demo_calls_succeed|].
    split; [discriminate|split; reflexivity].
Defined.

#[local] Abbreviation demo_response :=
  (fill_response demo_number 321 zero_context (rq_request_id (make_request kStatus 10 11)) OK
    initial_monitor) (only parsing).

Lemma demo_response_in_range : in_range demo_response.
Proof.
  split; [|split; [|split; [reflexivity|]]]; apply (bool_decide_unpack _); vm_compute; exact I.
Qed.

Lemma exchange_sound_witness :
  receive_response (make_request kStatus 10 11) (Some (bytes_of demo_response)) = (OK, demo_response).
Proof.
  destruct (exchange_sound demo_number 321 zero_context OK initial_monitor kStatus 10 11)
    as (_ & _ & _ & H & _).
  - exact demo_response_in_range.
  - exact H.
Defined.
