(* ===== verification/ControlClient.v ===== *)
(** The client of the control socket (send_control_ipc_request): one request, its
    answer, and what the two ends of a connection agree on. *)

From S2P Require Import Prelude KernelContext Posix Records Slots Checksum SocketIo ControlIpc Monitor ControlServer.

(** What socket and connect answer. *)
Record client_calls := {
  cl_socket : bool;
  cl_connect : bool;
}.

Section Client.
Context `{OperatingSystem}.

(** [peer] is what the daemon sends, given what it has been sent, before it closes the
    connection. *)

(** src/control_ipc.cpp:600-635 [send_control_ipc_request] *)
Definition send_control_ipc_request (fuel : nat) (calls : client_calls) (peer : list Z -> list Z)
    (socket_path : option string) (operation : ControlIpcOperation) (tid : Z)
    : io (KModErr * ControlIpcResponse * list endpoint_event) :=
  match fill_unix_address socket_path with
  | None => mret (ERR_MODULE_PARAM, zero_response, [])
  | Some _ =>
      if negb (cl_socket calls) then mret (ERR_MODULE_SOCKET, zero_response, [])
      else if negb (cl_connect calls)
      then mret (ERR_MODULE_SOCKET, zero_response, [SocketOpened; SocketClosed])
      else
        let request := make_request operation (Z.of_N getpid) tid in
        '(written, sent) ← send_exact fuel (bytes_of request) [];
        '(ok, received) ← (if (written : bool) then receive_exact fuel (peer sent) 200 []
                             else mret (false, []));
        mret (receive_response request (if (ok : bool) then Some received else None), [SocketOpened; SocketClosed])
  end.

End Client.

(** * Facts *)

Lemma receive_response_cases request reply :
  (exists bytes, reply = Some bytes /\ accept_response request (of_bytes bytes) = true /\
     receive_response request reply = (OK, of_bytes bytes)) \/
  receive_response request reply = (ERR_MODULE_SOCKET, zero_response).
Proof.
  destruct reply as [bytes|]; [|by right]. cbn. destruct (accept_response _ _) eqn:E; [left|by right].
  by exists bytes.
Qed.

(** What the server makes of a client's request. *)
Definition served `{KernelCalls} session to_num daemon_pid monitor config_file (s : KState)
    (request : ControlIpcRequest) : ControlIpcResponse :=
  (serve_client session to_num daemon_pid monitor config_file (bytes_of request) s).1.1.

Lemma served_filled `{KernelCalls} session to_num daemon_pid monitor config_file s operation pid tid :
  exists snapshot result, served session to_num daemon_pid monitor config_file s (make_request operation pid tid) =
    fill_response to_num daemon_pid snapshot (rq_request_id (make_request operation pid tid)) result monitor.
Proof.
  unfold served, serve_client, mbind, kio_bind.
  destruct (serve_request _ _ _ _) as [[result stop] s1]. destruct (snapshot_kernel session s1) as [[err snapshot] s2].
  cbv zeta. rewrite message_request. by eexists _, _.
Qed.

(** What becomes of the server's answer on its way: whole it is accepted, with one byte
    changed it is refused. *)
Lemma served_response_received `{KernelCalls} session to_num daemon_pid monitor config_file s operation pid tid reply
    result received :
  let request := make_request operation pid tid in
  let response := served session to_num daemon_pid monitor config_file s request in
  in_range response -> receive_response request reply = (result, received) ->
  (reply = Some (bytes_of response) -> result = OK /\ received = response) /\
  (forall i b x, bytes_of response !! i = Some x -> byte_ok b -> x <> b ->
     reply = Some (<[i := b]> (bytes_of response)) -> result = ERR_MODULE_SOCKET).
Proof.
  intros request response Hr Hreply.
  destruct (served_filled session to_num daemon_pid monitor config_file s operation pid tid)
    as (snapshot & outcome & Hserved). fold request response in Hserved. rewrite Hserved in Hr |- *.
  destruct (exchange_sound to_num daemon_pid snapshot outcome monitor operation pid tid Hr)
    as (_ & _ & _ & Haccept & Hrefuse). fold request in Haccept, Hrefuse. split.
  - intros ->. rewrite Haccept in Hreply. by apply (inj2 pair) in Hreply as [<- <-].
  - intros i b x Hx Hb Hne ->. rewrite (Hrefuse i b x Hx Hb Hne) in Hreply. congruence.
Qed.

(** C32: a request over the control socket: on a system that answers one of any [B] calls it
    comes to an end, with its socket closed if it was opened; it succeeds only with a
    complete answer to this very request, the first 200 bytes of what the peer sent,
    and delivers nothing otherwise; when no call fails and the path is one, it
    delivers, in whatever pieces the two messages travel, the very response the server
    made for the operation asked for; and a peer that changes any one byte of that
    response gets it refused. *)
Theorem client_request_exact `{OperatingSystem} `{KernelCalls} B fuel calls peer socket_path operation tid
    session to_num daemon_pid monitor config_file s w :
  let request := make_request operation (Z.of_N getpid) tid in
  let response := served session to_num daemon_pid monitor config_file s request in
  responsive B -> (B * 201 <= fuel)%nat -> in_range response ->
  exists result received events w',
    send_control_ipc_request fuel calls peer socket_path operation tid w = Some ((result, received, events), w') /\
    endpoint_idle (foldl endpoint_step (Build_endpoint false false None []) events) /\ quiet w w' /\
    (result <> OK -> received = zero_response) /\
    (result = OK -> exists bytes, length bytes = 200%nat /\ bytes `prefix_of` peer (bytes_of request) /\
       received = of_bytes bytes /\ accept_response request received = true) /\
    (cl_socket calls = true -> cl_connect calls = true -> (forall n, outcome_of n <> Failed) ->
     is_Some (fill_unix_address socket_path) ->
       (peer (bytes_of request) = bytes_of response -> result = OK /\ received = response) /\
       (forall i b x, bytes_of response !! i = Some x -> byte_ok b -> x <> b ->
          peer (bytes_of request) = <[i := b]> (bytes_of response) -> result = ERR_MODULE_SOCKET)).
Proof.
  intros request response HB Hfuel Hr.
  pose proof (make_request_in_range operation (Z.of_N getpid) tid) as Hq. fold request in Hq.
  pose proof (bytes_of_length _ Hq) as Hql. change (size_of _) with 32%nat in Hql.
  unfold send_control_ipc_request. destruct (fill_unix_address socket_path); cycle 1.
  { eexists _, _, _, w. do 4 (split; [done|]). split; [discriminate|]. by intros _ _ _ []. }
  destruct (cl_socket calls); cbn [negb]; cycle 1.
  { eexists _, _, _, w. do 4 (split; [done|]). by split. }
  destruct (cl_connect calls); cbn [negb]; cycle 1.
  { eexists _, _, _, w. do 4 (split; [done|]). by split. }
  fold request.
  destruct (send_spec B fuel B (bytes_of request) 0 w) as (written & m & w1 & Hsend & Hq1 & Hm & Hok & Hfull);
    [lia|apply budget_start; right; split; [done|]; rewrite Hql; nia|].
  rewrite take_0 in Hsend. unfold mbind, io_bind at 1. rewrite Hsend.
  destruct written; cycle 1.
  { eexists _, _, _, w1. do 4 (split; [done|]). split; [discriminate|]. intros _ _ Hcalls _.
    by specialize (Hfull Hcalls). }
  rewrite (proj1 Hok eq_refl), firstn_all.
  destruct (receive_spec B fuel B (peer (bytes_of request)) 200 0 w1) as (ok & k & w2 & Hreceive & Hq2 & Hk & _ & Hdone & Hall);
    [lia..|apply budget_start; right; split; [done|lia]|].
  rewrite take_0 in Hreceive. unfold io_bind. rewrite Hreceive. clear Hsend Hreceive.
  set (reply := if ok then _ else None).
  assert (Hw : quiet w w2) by (by transitivity w1).
  assert (Hpeer : forall bytes, length bytes = 200%nat -> peer (bytes_of request) = bytes ->
    (forall n, outcome_of n <> Failed) -> reply = Some bytes).
  { intros bytes Hbytes Hsent Hcalls. unfold reply. rewrite Hsent in Hall, Hk |- *.
    rewrite (Hall Hcalls) by lia. rewrite (proj1 Hdone (Hall Hcalls ltac:(lia))). by rewrite take_ge by lia. }
  destruct (receive_response request reply) as [result received] eqn:Hreply.
  exists result, received, [SocketOpened; SocketClosed], w2. split; [done|]. split; [done|]. split; [done|].
  split; [|split].
  - intros Hne. destruct (receive_response_cases request reply) as [(bytes & _ & _ & E)|E]; congruence.
  - intros ->. destruct (receive_response_cases request reply) as [(bytes & Hbytes & Haccept & E)|E]; [|congruence].
    exists bytes. unfold reply in Hbytes. destruct ok; [|done]. apply (inj Some) in Hbytes as <-.
    assert (k = 200%nat) as -> by (by apply Hdone). rewrite E in Hreply.
    apply (inj2 pair) in Hreply as [_ <-]. split_and!; [by rewrite length_take_le|apply prefix_take|done..].
  - intros _ _ Hcalls _. pose proof (bytes_of_length _ Hr) as Hrl. change (size_of _) with 200%nat in Hrl.
    destruct (served_response_received session to_num daemon_pid monitor config_file s operation
      (Z.of_N getpid) tid reply result received Hr Hreply) as [Haccept Hrefuse]. split.
    + intros Hsent. by apply Haccept, Hpeer.
    + intros i b x Hx Hb Hne Hsent. eapply Hrefuse; try done. apply Hpeer; try done.
      by rewrite length_insert.
Qed.

(** * A concrete exchange *)

(** Seven bytes at a time, and every third call is interrupted. *)
Definition piecewise_system : OperatingSystem := {|
  outcome_of n := if Nat.eqb (Nat.modulo n 3) 0 then Interrupted else Done 7;
  random_of n i := 0; getpid := 10 |}.

Lemma piecewise_responsive : responsive (H := piecewise_system) 2.
Proof.
  intros n. destruct (Nat.eqb (n mod 3) 0) eqn:E; [exists 1%nat|exists 0%nat]; (split; [lia|]);
    cbn [outcome_of piecewise_system].
  - apply Nat.eqb_eq in E. by rewrite Nat.Div0.add_mod, E.
  - by rewrite Nat.add_0_r, E.
Qed.

#[local] Existing Instances piecewise_system demo_calls.

Definition demo_request : ControlIpcRequest := make_request kStatus 10 11.
Definition demo_served : ControlIpcResponse :=
  served demo_session demo_number 321 initial_monitor (OK, demo_replacement 2) demo_state demo_request.

#[local] Abbreviation demo_client :=
  (send_control_ipc_request 402 (Build_client_calls true true) (fun _ => bytes_of demo_served)
     (Some "/data/drmid_control_v5.sock") kStatus 11 (initial_world ∅)) (only parsing).

Lemma demo_client_calls : (fun r => (r.1.1.1, w_calls r.2)) <$> demo_client = Some (OK, 51%nat).
Proof. vm_compute. reflexivity. Qed.

Lemma demo_served_in_range : in_range demo_served.
Proof.
  split; [|split; [|split; [reflexivity|]]]; apply (bool_decide_unpack _); vm_compute; exact I.
Qed.

Lemma client_request_exact_witness :
  exists events w', demo_client = Some ((OK, demo_served, events), w').
Proof.
  destruct (client_request_exact 2 402 (Build_client_calls true true) (fun _ => bytes_of demo_served)
    (Some "/data/drmid_control_v5.sock") kStatus 11 demo_session demo_number 321 initial_monitor
    (OK, demo_replacement 2) demo_state (initial_world ∅))
    as (result & received & events & w' & Hrun & _ & _ & _ & _ & Hexact).
  - exact piecewise_responsive.
  - lia.
  - exact demo_served_in_range.
  - destruct (Hexact eq_refl eq_refl) as [Hdelivered _].
    + intros n. cbn [outcome_of piecewise_system]. by destruct (Nat.eqb (n mod 3) 0).
    + by eexists.
    + destruct (Hdelivered eq_refl) as [-> ->]. exists events, w'. exact Hrun.
Defined.
