(* ===== verification/HookSite.v ===== *)
(** Where the ioctl may be hooked (binder_ioctl_resolver.cpp): the decoders of the
    AArch64 instructions an entry may begin with, and the classification of an entry
    and of a veneer in front of it.  The reference here is the instruction set's own
    encoding: fields of bits, and the instructions built from them. *)

From S2P Require Import Prelude KernelContext Slots.

(** * Decoders

    An instruction word is a number below [2 ^ 32]; a decoder that returns its result
    through a reference returns an option. *)

(** src/binder_ioctl_resolver.cpp:306-309 [is_bti] *)
Definition is_bti (word : Z) : bool :=
  (word =? 0xd503245f) || (word =? 0xd503249f) || (word =? 0xd50324df).

(** src/binder_ioctl_resolver.cpp:311-313 [is_pac_stack] *)
Definition is_pac_stack (word : Z) : bool := (word =? 0xd503233f) || (word =? 0xd503237f).

(** src/binder_ioctl_resolver.cpp:315-325 [decode_sub_sp_frame] *)
Definition decode_sub_sp_frame (word : Z) : option Z :=
  if negb (Z.land word 0xffc003ff =? 0xd10003ff) then None
  else
    let immediate := Z.land (Z.shiftr word 10) 0xfff in
    let shift := Z.land (Z.shiftr word 22) 1 in
    if negb (shift =? 0) || (immediate <? 16) || (4096 <? immediate) ||
       negb (Z.land immediate 0xf =? 0)
    then None else Some immediate.

(** src/binder_ioctl_resolver.cpp:327-335 [is_store_pair_to_sp] *)
Definition is_store_pair_to_sp (word : Z) : bool :=
  negb (Z.land word 0x80000000 =? 0) && (Z.land word 0x3b400000 =? 0x29000000) &&
  (Z.land (Z.shiftr word 5) 0x1f =? 31).

(** src/binder_ioctl_resolver.cpp:337-340 [is_frame_link_store] *)
Definition is_frame_link_store (word : Z) : bool :=
  is_store_pair_to_sp word && (Z.land word 0x1f =? 29) &&
  (Z.land (Z.shiftr word 10) 0x1f =? 30).

(** src/binder_ioctl_resolver.cpp:342-356 [decode_preindex_frame_link] *)
Definition decode_preindex_frame_link (word : Z) : option Z :=
  if negb (is_frame_link_store word) || negb (Z.land word 0x01800000 =? 0x01800000) then None
  else
    let immediate := Z.land (Z.shiftr word 15) 0x7f in
    let immediate := if negb (Z.land immediate 0x40 =? 0) then immediate - 0x80 else immediate in
    let immediate := immediate * 8 in
    if (0 <=? immediate) || (4096 <? - immediate) || negb (Z.land (- immediate) 0xf =? 0)
    then None else Some (- immediate).

(** src/binder_ioctl_resolver.cpp:358-360 [is_mov_fp_sp] *)
Definition is_mov_fp_sp (word : Z) : bool := word =? 0x910003fd.

(** src/binder_ioctl_resolver.cpp:362-371 [is_pc_relative_or_control_flow] *)
Definition is_pc_relative_or_control_flow (word : Z) : bool :=
  (Z.land word 0x7c000000 =? 0x14000000) || (Z.land word 0xff000010 =? 0x54000000) ||
  (Z.land word 0x7e000000 =? 0x34000000) || (Z.land word 0x7e000000 =? 0x36000000) ||
  (Z.land word 0x1f000000 =? 0x10000000) || (Z.land word 0x9f000000 =? 0x90000000) ||
  (Z.land word 0x3b000000 =? 0x18000000) || (Z.land word 0xfe000000 =? 0xd6000000).

(** src/binder_ioctl_resolver.cpp:403-411 [decode_unconditional_branch] *)
Definition decode_unconditional_branch (word : Z) : option Z :=
  if negb (Z.land word 0x7c000000 =? 0x14000000) then None
  else
    let immediate := Z.land word 0x03ffffff in
    let immediate := if negb (Z.land immediate (Z.shiftl 1 25) =? 0)
                     then immediate - Z.shiftl 1 26 else immediate in
    let displacement := Z.shiftl immediate 2 in
    if displacement =? 0 then None else Some displacement.

(** * Classification *)

(** src/binder_ioctl_resolver.h:38-38 [BinderEntrySemantic] *)
Definition kEntryHasBti : Z := Z.shiftl 1 0.
(** src/binder_ioctl_resolver.h:39-39 [BinderEntrySemantic] *)
Definition kEntryHasPac : Z := Z.shiftl 1 1.
(** src/binder_ioctl_resolver.h:40-40 [BinderEntrySemantic] *)
Definition kEntryHasStackFrame : Z := Z.shiftl 1 2.
(** src/binder_ioctl_resolver.h:41-41 [BinderEntrySemantic] *)
Definition kEntrySavesFrameLink : Z := Z.shiftl 1 3.
(** src/binder_ioctl_resolver.h:42-42 [BinderEntrySemantic] *)
Definition kEntrySetsFramePointer : Z := Z.shiftl 1 4.
(** src/binder_ioctl_resolver.h:43-43 [BinderEntrySemantic] *)
Definition kEntryRelocatablePrefix : Z := Z.shiftl 1 5.
(** src/binder_ioctl_resolver.h:48-48 [BinderEntrySemantic] *)
Definition kEntryHasVeneer : Z := Z.shiftl 1 6.
(** src/binder_ioctl_resolver.h:52-52 [BinderEntrySemantic] *)
Definition kEntryHookSiteBti : Z := Z.shiftl 1 7.
(** src/binder_ioctl_resolver.h:53-53 [BinderEntrySemantic] *)
Definition kEntryHookSitePac : Z := Z.shiftl 1 8.
(** src/binder_ioctl_resolver.h:54-54 [BinderEntrySemantic] *)
Definition kEntryHookSiteFrame : Z := Z.shiftl 1 9.

(** src/binder_ioctl_resolver.h:64-66 [kBinderEntryProbeWords] *)
Definition kBinderEntryProbeWords : nat := 64.

Definition word_of (words : list Z) (index : nat) : Z := nth index words 0.

(** src/binder_ioctl_resolver.cpp:378-401 [classify_single_instruction_hook_site] *)
Definition classify_single_instruction_hook_site (word : Z) : option Z :=
  if is_bti word then Some kEntryHookSiteBti
  else if is_pac_stack word then Some kEntryHookSitePac
  else match decode_sub_sp_frame word, decode_preindex_frame_link word with
  | None, None => None
  | _, _ => Some kEntryHookSiteFrame
  end.

(** src/binder_ioctl_resolver.cpp:501-508 [classify_semantic_entry] *)
Definition has_frame_link (words : list Z) (index : nat) : bool :=
  existsb (fun cursor => is_frame_link_store (word_of words cursor))
    (seq index (Nat.min (index + 3) 8 - index)).

(** The frame at [index], behind the instructions already seen. *)

(** src/binder_ioctl_resolver.cpp:495-525 [classify_semantic_entry] *)
Definition classify_frame (words : list Z) (semantics : Z) (index : nat) : option Z :=
  let framed :=
    match decode_sub_sp_frame (word_of words index) with
    | Some frame_bytes =>
        if has_frame_link words (S index)
        then Some (Z.lor (Z.lor semantics kEntryHasStackFrame) kEntrySavesFrameLink, frame_bytes)
        else None
    | None =>
        match decode_preindex_frame_link (word_of words index) with
        | Some frame_bytes =>
            let semantics := Z.lor semantics (Z.lor kEntryHasStackFrame kEntrySavesFrameLink) in
            Some (if Nat.ltb (S index) 8 && is_mov_fp_sp (word_of words (S index))
                  then Z.lor semantics kEntrySetsFramePointer else semantics, frame_bytes)
        | None => None
        end
    end in
  match framed with
  | None => None
  | Some (semantics, frame_bytes) =>
      if existsb (fun cursor => is_pc_relative_or_control_flow (word_of words cursor)) (seq 0 4)
      then None
      else if frame_bytes =? 0 then None
      else Some (Z.lor semantics kEntryRelocatablePrefix)
  end.

(** src/binder_ioctl_resolver.cpp:482-526 [classify_semantic_entry] *)
Definition classify_semantic_entry (words : list Z) : option Z :=
  let index := 0%nat in
  let semantics := 0 in
  let '(semantics, index) :=
    if is_bti (word_of words index) then (Z.lor semantics kEntryHasBti, S index)
    else (semantics, index) in
  let '(semantics, index) :=
    if is_pac_stack (word_of words index) then (Z.lor semantics kEntryHasPac, S index)
    else (semantics, index) in
  if Nat.leb 4 index then None else classify_frame words semantics index.

(** src/binder_ioctl_resolver.cpp:63-66 [is_kernel_pointer] *)
Definition is_kernel_pointer (value : Z) : bool :=
  negb (value =? 0) && (Z.land value 3 =? 0) && (i64 value <? 0).

(** The kernel as the resolver probes it: symbols, and the instruction words at an
    address.  Both are those of the running kernel's text and do not change while the
    resolver runs. *)
Class KernelText := {
  kallsyms_lookup_name : string -> KModErr * Z;
  read_entry_words : Z -> KModErr * list Z;
}.

Section Classification.
Context `{KernelText}.

Definition core_text_ranges : list (string * string) := [("_stext", "_etext"); ("_text", "_etext")].

(** src/binder_ioctl_resolver.cpp:533-541 [address_in_core_text] *)
Definition within_range (address : Z) (names : string * string) : bool :=
  let '(begin_err, first) := kallsyms_lookup_name names.1 in
  let '(end_err, last) := kallsyms_lookup_name names.2 in
  is_ok begin_err && is_ok end_err && is_kernel_pointer first && is_kernel_pointer last &&
  (first <? last) && (first <=? address) && (address <? last).

(** src/binder_ioctl_resolver.cpp:528-544 [address_in_core_text] *)
Definition address_in_core_text (address : Z) : bool :=
  existsb (within_range address) core_text_ranges.

(** The words of a failed read are zeros. *)

(** src/binder_ioctl_resolver.cpp:413-463 [classify_veneer_target] *)
Definition classify_veneer_target (entry_address : Z) (entry_words : list Z) : option Z :=
  let branch_index := 0%nat in
  let branch_index := if is_bti (word_of entry_words branch_index) then S branch_index
                      else branch_index in
  let branch_index := if is_pac_stack (word_of entry_words branch_index) then S branch_index
                      else branch_index in
  if Nat.eqb branch_index 0 || Nat.leb 4 branch_index then None
  else match classify_single_instruction_hook_site (word_of entry_words 0) with
  | None => None
  | Some hook_site_semantics =>
      match decode_unconditional_branch (word_of entry_words branch_index) with
      | None => None
      | Some displacement =>
          if displacement <=? 0 then None
          else
            let branch_pc := u64 (entry_address + Z.of_nat branch_index * 4) in
            let target := u64 (branch_pc + displacement) in
            if (target <=? entry_address) || negb (is_kernel_pointer target) ||
               negb (address_in_core_text target)
            then None
            else
              let '(read_err, target_words) := read_entry_words target in
              if is_failed read_err then None
              else match classify_semantic_entry target_words with
              | None => None
              | Some target_semantics =>
                  Some (Z.lor (Z.lor target_semantics hook_site_semantics) kEntryHasVeneer)
              end
      end
  end.

(** src/binder_ioctl_resolver.cpp:465-480 [classify_hookable_entry] *)
Definition classify_hookable_entry (entry_address : Z) (entry_words : list Z) : option Z :=
  match classify_semantic_entry entry_words with
  | Some entry_semantics =>
      match classify_single_instruction_hook_site (word_of entry_words 0) with
      | None => None
      | Some hook_site_semantics => Some (Z.lor entry_semantics hook_site_semantics)
      end
  | None => classify_veneer_target entry_address entry_words
  end.

End Classification.

(** * Bit fields *)

(** The [n] bits of [w] from bit [lo] up. *)
Definition field (w n lo : Z) : Z := (w / 2 ^ lo) mod 2 ^ n.

Lemma land_field w n lo :
  0 <= lo -> 0 <= n -> Z.land w (Z.shiftl (Z.ones n) lo) = Z.shiftl (field w n lo) lo.
Proof.
  intros Hlo Hn. unfold field. rewrite <-Z.land_ones, <-Z.shiftr_div_pow2 by done.
  apply Z.bits_inj'. intros i Hi. rewrite Z.land_spec, !Z.shiftl_spec by done.
  destruct (Z.lt_ge_cases i lo).
  - rewrite (Z.testbit_neg_r _ (i - lo)), (Z.testbit_neg_r _ (i - lo)) by lia. apply andb_false_r.
  - rewrite Z.land_spec, Z.shiftr_spec by lia. by replace (i - lo + lo) with i by lia.
Qed.

Lemma mask_test w m c lo n v :
  m = Z.shiftl (Z.ones n) lo -> c = Z.shiftl v lo -> 0 <= lo -> 0 <= n ->
  (Z.land w m =? c) = (field w n lo =? v).
Proof.
  intros -> -> Hlo Hn. rewrite land_field by done. apply eq_true_iff_eq.
  rewrite !Z.eqb_eq, !Z.shiftl_mul_pow2 by done. apply Z.mul_cancel_r.
  apply Z.pow_nonzero; lia.
Qed.

(** A mask of two parts asks for both. *)
Lemma mask_two w m1 c1 m2 c2 m c :
  m = Z.lor m1 m2 -> c = Z.lor c1 c2 -> Z.land m m1 = m1 -> Z.land m m2 = m2 ->
  Z.land c m1 = c1 -> Z.land c m2 = c2 ->
  (Z.land w m =? c) = (Z.land w m1 =? c1) && (Z.land w m2 =? c2).
Proof.
  intros Hm Hc Hm1 Hm2 Hc1 Hc2. apply eq_true_iff_eq. rewrite andb_true_iff, !Z.eqb_eq. split.
  - intros Hw. split; [rewrite <-Hm1, Z.land_assoc, Hw|rewrite <-Hm2, Z.land_assoc, Hw]; done.
  - intros [H1 H2]. by rewrite Hm, Z.land_lor_distr_r, H1, H2.
Qed.

(** * The instruction set *)

(** The instructions whose meaning depends on where they are, or that branch: B and BL,
    B.cond, CBZ and CBNZ, TBZ and TBNZ, ADR and ADRP, LDR (literal), and the branches to
    a register. *)
Definition isa_pc_relative (w : Z) : Prop :=
  field w 5 26 = 5 \/ (field w 8 24 = 0x54 /\ field w 1 4 = 0) \/ field w 6 25 = 26 \/
  field w 6 25 = 27 \/ field w 5 24 = 16 \/ (field w 3 27 = 3 /\ field w 2 24 = 0) \/
  field w 7 25 = 107.

(** The conditional branch that hints at consistent behaviour. *)
Definition isa_bc_cond (w : Z) : Prop := field w 8 24 = 0x54 /\ field w 1 4 = 1.

(** [sub sp, sp, #n]. *)
Definition isa_sub_sp (n : Z) : Z := 0xd10003ff + n * 2 ^ 10.

(** [stp x29, x30, [sp, #-n]!] is [isa_stp_pre 0 0 n]; [v] is the bit that makes the
    registers vectors, [q] belongs to the size. *)
Definition isa_stp_pre (q v n : Z) : Z :=
  0xa9807bfd + q * 2 ^ 30 + v * 2 ^ 26 + (128 - n / 8) * 2 ^ 15.

(** [b] and, with [link], [bl] over a distance of [d] bytes. *)
Definition isa_branch (link d : Z) : Z := link * 2 ^ 31 + 0x14000000 + (d / 4) mod 2 ^ 26.

(** * The decoders against the instruction set *)

Lemma pc_relative_exact_fields w :
  is_pc_relative_or_control_flow w = true <-> isa_pc_relative w.
Proof.
  unfold is_pc_relative_or_control_flow, isa_pc_relative.
  rewrite (mask_test w 0x7c000000 0x14000000 26 5 5) by done.
  rewrite (mask_two w 0xff000000 0x54000000 0x10 0 0xff000010) by done.
  rewrite (mask_test w 0xff000000 0x54000000 24 8 0x54), (mask_test w 0x10 0 4 1 0) by done.
  rewrite (mask_test w 0x7e000000 0x34000000 25 6 26) by done.
  rewrite (mask_test w 0x7e000000 0x36000000 25 6 27) by done.
  rewrite (mask_test w 0x1f000000 0x10000000 24 5 16) by done.
  rewrite (mask_two w 0x80000000 0x80000000 0x1f000000 0x10000000 0x9f000000) by done.
  rewrite (mask_test w 0x1f000000 0x10000000 24 5 16) by done.
  rewrite (mask_two w 0x38000000 0x18000000 0x03000000 0 0x3b000000) by done.
  rewrite (mask_test w 0x38000000 0x18000000 27 3 3), (mask_test w 0x03000000 0 24 2 0) by done.
  rewrite (mask_test w 0xfe000000 0xd6000000 25 7 107) by done.
  rewrite !orb_true_iff, !andb_true_iff, !Z.eqb_eq. naive_solver.
Qed.

Lemma field_shiftr w n lo : 0 <= lo -> 0 <= n -> Z.land (Z.shiftr w lo) (Z.ones n) = field w n lo.
Proof. intros Hlo Hn. unfold field. by rewrite Z.land_ones, Z.shiftr_div_pow2. Qed.

Lemma field_land w n : 0 <= n -> Z.land w (Z.ones n) = field w n 0.
Proof. intros Hn. by rewrite <-field_shiftr, Z.shiftr_0_r. Qed.

(** Fields of a known word, by linear arithmetic. *)
Ltac fields := unfold field; Z.to_euclidean_division_equations; lia.

(** A word is put together again from its fields. *)
Lemma field_step w n lo next :
  0 <= lo -> 0 <= n -> next = lo + n -> w / 2 ^ lo = field w n lo + 2 ^ n * (w / 2 ^ next).
Proof.
  intros Hlo Hn ->. unfold field. rewrite Z.pow_add_r by done.
  assert (0 < 2 ^ lo) by (apply Z.pow_pos_nonneg; lia).
  assert (0 < 2 ^ n) by (apply Z.pow_pos_nonneg; lia).
  rewrite <-Z.div_div by lia. rewrite Z.add_comm. apply Z.div_mod. lia.
Qed.

Lemma field_range w n lo : 0 <= n -> 0 <= field w n lo < 2 ^ n.
Proof. intros Hn. apply Z.mod_pos_bound, Z.pow_pos_nonneg; lia. Qed.

Lemma decode_sub_sp_exact w n :
  0 <= w < 2 ^ 32 ->
  decode_sub_sp_frame w = Some n <-> w = isa_sub_sp n /\ 16 <= n < 4096 /\ n mod 16 = 0.
Proof.
  intros Hw. unfold decode_sub_sp_frame, isa_sub_sp.
  rewrite (mask_two w 0xffc00000 0xd1000000 0x3ff 0x3ff 0xffc003ff) by done.
  rewrite (mask_test w 0xffc00000 0xd1000000 22 10 836), (mask_test w 0x3ff 0x3ff 0 10 1023) by done.
  change 0xfff with (Z.ones 12). rewrite (field_shiftr w 12 10) by done.
  change (Z.land (Z.shiftr w 22) 1) with (Z.land (Z.shiftr w 22) (Z.ones 1)).
  rewrite (field_shiftr w 1 22) by done.
  change 0xf with (Z.ones 4). rewrite Z.land_ones by done.
  split.
  - destruct (_ && _) eqn:E1; [|done]. cbn [negb]. destruct (_ || _) eqn:E2; [done|].
    apply andb_true_iff in E1 as [H1 H2]. rewrite !orb_false_iff, negb_false_iff in E2.
    destruct E2 as (((_ & H3) & H4) & H5).
    apply Z.eqb_eq in H1, H2. apply Z.ltb_ge in H3, H4. rewrite negb_false_iff, Z.eqb_eq in H5.
    intros Hsome. apply (inj Some) in Hsome. subst n.
    pose proof (field_step w 10 0 10 ltac:(done) ltac:(done) eq_refl).
    pose proof (field_step w 12 10 22 ltac:(done) ltac:(done) eq_refl).
    pose proof (field_step w 10 22 32 ltac:(done) ltac:(done) eq_refl).
    pose proof (field_range w 12 10 ltac:(done)).
    change (w / 2 ^ 0) with (w / 1) in *. rewrite Z.div_1_r in *.
    rewrite (Z.div_small w (2 ^ 32)) in * by done. split; [lia|]. split; [lia|done].
  - intros (-> & Hn & Hm).
    assert (H1 : field (0xd10003ff + n * 2 ^ 10) 10 22 = 836) by fields.
    assert (H2 : field (0xd10003ff + n * 2 ^ 10) 10 0 = 1023) by fields.
    assert (H3 : field (0xd10003ff + n * 2 ^ 10) 12 10 = n) by fields.
    assert (H4 : field (0xd10003ff + n * 2 ^ 10) 1 22 = 0) by fields.
    rewrite H1, H2, H3, H4. change (2 ^ 4) with 16. rewrite Hm.
    rewrite (proj2 (Z.ltb_ge n 16)), (proj2 (Z.ltb_ge 4096 n)) by lia. reflexivity.
Qed.

Lemma frame_link_fields w :
  0 <= w < 2 ^ 32 ->
  is_frame_link_store w = true <->
  field w 5 0 = 29 /\ field w 5 5 = 31 /\ field w 5 10 = 30 /\ field w 1 22 = 0 /\
  field w 2 24 = 1 /\ field w 3 27 = 5 /\ field w 1 31 = 1.
Proof.
  intros Hw. unfold is_frame_link_store, is_store_pair_to_sp.
  assert (H31 : negb (Z.land w 0x80000000 =? 0) = (field w 1 31 =? 1)).
  { rewrite (mask_test w 0x80000000 0 31 1 0) by done.
    pose proof (field_range w 1 31 ltac:(done)). 
    destruct (Z.eqb_spec (field w 1 31) 0), (Z.eqb_spec (field w 1 31) 1); (done || lia). }
  rewrite H31.
  rewrite (mask_two w 0x38000000 0x28000000 0x03400000 0x01000000 0x3b400000) by done.
  rewrite (mask_two w 0x03000000 0x01000000 0x00400000 0 0x03400000) by done.
  rewrite (mask_test w 0x38000000 0x28000000 27 3 5), (mask_test w 0x03000000 0x01000000 24 2 1),
    (mask_test w 0x00400000 0 22 1 0) by done.
  change 0x1f with (Z.ones 5). rewrite !field_shiftr, field_land by done.
  rewrite !andb_true_iff, !Z.eqb_eq. naive_solver.
Qed.

(** The offset of a pre-indexed pair, from its seven bits. *)
Lemma preindex_offset imm :
  0 <= imm < 128 ->
  let signed := (if negb (Z.land imm 0x40 =? 0) then imm - 0x80 else imm) * 8 in
  signed = if 64 <=? imm then (imm - 128) * 8 else imm * 8.
Proof.
  intros Hi. cbv zeta. rewrite (mask_test imm 0x40 0 6 1 0) by done.
  destruct (Z.leb_spec 64 imm).
  - assert (field imm 1 6 = 1) as -> by fields. reflexivity.
  - assert (field imm 1 6 = 0) as -> by fields. reflexivity.
Qed.

Lemma stp_pre_split w n :
  0 <= w < 2 ^ 32 -> is_frame_link_store w = true -> field w 1 23 = 1 ->
  16 <= n <= 512 -> n mod 16 = 0 -> field w 7 15 = 128 - n / 8 ->
  w = isa_stp_pre (field w 1 30) (field w 1 26) n.
Proof.
  intros Hw Hlink H23 Hn Hm Himm. apply frame_link_fields in Hlink; [|done].
  destruct Hlink as (H0 & H5 & H10 & H22 & H24 & H27 & H31). unfold isa_stp_pre.
  pose proof (field_step w 5 0 5 ltac:(done) ltac:(done) eq_refl) as S0.
  pose proof (field_step w 5 5 10 ltac:(done) ltac:(done) eq_refl) as S5.
  pose proof (field_step w 5 10 15 ltac:(done) ltac:(done) eq_refl) as S10.
  pose proof (field_step w 7 15 22 ltac:(done) ltac:(done) eq_refl) as S15.
  pose proof (field_step w 1 22 23 ltac:(done) ltac:(done) eq_refl) as S22.
  pose proof (field_step w 1 23 24 ltac:(done) ltac:(done) eq_refl) as S23.
  pose proof (field_step w 2 24 26 ltac:(done) ltac:(done) eq_refl) as S24.
  pose proof (field_step w 1 26 27 ltac:(done) ltac:(done) eq_refl) as S26.
  pose proof (field_step w 3 27 30 ltac:(done) ltac:(done) eq_refl) as S27.
  pose proof (field_step w 1 30 31 ltac:(done) ltac:(done) eq_refl) as S30.
  pose proof (field_step w 1 31 32 ltac:(done) ltac:(done) eq_refl) as S31.
  change (w / 2 ^ 0) with (w / 1) in *. rewrite Z.div_1_r in S0.
  rewrite (Z.div_small w (2 ^ 32)) in S31 by done.
  rewrite H0, H5, H10, Himm, H22, H23, H24, H27, H31 in *. lia.
Qed.

Lemma preindex_fields w :
  0 <= w < 2 ^ 32 ->
  decode_preindex_frame_link w =
    if is_frame_link_store w && (field w 1 23 =? 1) &&
       (64 <=? field w 7 15) && (field w 7 15 mod 2 =? 0)
    then Some ((128 - field w 7 15) * 8) else None.
Proof.
  intros Hw. unfold decode_preindex_frame_link.
  assert (H23 : is_frame_link_store w = true ->
    (Z.land w 0x01800000 =? 0x01800000) = (field w 1 23 =? 1)).
  { intros Hlink. apply frame_link_fields in Hlink as (_ & _ & _ & _ & H24 & _); [|done].
    rewrite (mask_two w 0x01000000 0x01000000 0x00800000 0x00800000 0x01800000) by done.
    rewrite (mask_test w 0x01000000 0x01000000 24 1 1), (mask_test w 0x00800000 0x00800000 23 1 1)
      by done.
    assert (field w 1 24 = 1) as -> by (revert H24; fields). reflexivity. }
  destruct (is_frame_link_store w); [|reflexivity]. rewrite H23 by done. cbn [negb orb andb].
  destruct (field w 1 23 =? 1); [|reflexivity]. cbn [negb orb andb].
  change 0x7f with (Z.ones 7). rewrite (field_shiftr w 7 15) by done.
  pose proof (field_range w 7 15 ltac:(done)) as Hr. change (2 ^ 7) with 128 in Hr.
  revert Hr. generalize (field w 7 15). intros imm Hr. cbv zeta. rewrite preindex_offset by done.
  change 0xf with (Z.ones 4). rewrite Z.land_ones by done. change (2 ^ 4) with 16.
  destruct (Z.leb_spec 64 imm) as [Hi|Hi]; cbn [andb].
  2: { rewrite (proj2 (Z.leb_le 0 (imm * 8))) by lia. reflexivity. }
  rewrite (proj2 (Z.leb_gt 0 ((imm - 128) * 8))), (proj2 (Z.ltb_ge 4096 _)) by lia. cbn [orb].
  replace (- ((imm - 128) * 8)) with ((128 - imm) * 8) by lia.
  assert (Heven : ((128 - imm) * 8 mod 16 =? 0) = (imm mod 2 =? 0)).
  { apply eq_true_iff_eq. rewrite !Z.eqb_eq. Z.to_euclidean_division_equations. lia. }
  rewrite Heven. by destruct (imm mod 2 =? 0).
Qed.

Lemma decode_preindex_exact w n :
  0 <= w < 2 ^ 32 ->
  decode_preindex_frame_link w = Some n <->
  (exists q v, 0 <= q <= 1 /\ 0 <= v <= 1 /\ w = isa_stp_pre q v n) /\ 16 <= n <= 512 /\ n mod 16 = 0.
Proof.
  intros Hw. rewrite preindex_fields by done. split.
  - destruct (_ && _) eqn:E; [|done]. rewrite !andb_true_iff, Z.leb_le, !Z.eqb_eq in E.
    destruct E as [[[Hlink H23] Hhi] Heven]. intros Hn. apply (inj Some) in Hn.
    pose proof (field_range w 7 15 ltac:(done)) as Hr. change (2 ^ 7) with 128 in Hr.
    assert (Hm : n mod 16 = 0) by (subst n; Z.to_euclidean_division_equations; lia).
    assert (Hle : 16 <= n <= 512) by (Z.to_euclidean_division_equations; lia).
    split; [|done]. exists (field w 1 30), (field w 1 26).
    pose proof (field_range w 1 30 ltac:(done)). pose proof (field_range w 1 26 ltac:(done)).
    change (2 ^ 1) with 2 in *. split; [lia|]. split; [lia|].
    apply stp_pre_split; try done. Z.to_euclidean_division_equations. lia.
  - intros ((q & v & Hq & Hv & Hw') & Hn & Hm).
    assert (Hlink : is_frame_link_store w = true).
    { apply frame_link_fields; [done|]. rewrite Hw'. unfold isa_stp_pre. split_and!; fields. }
    assert (H23 : field w 1 23 = 1) by (rewrite Hw'; unfold isa_stp_pre; fields).
    assert (Himm : field w 7 15 = 128 - n / 8) by (rewrite Hw'; unfold isa_stp_pre; fields).
    rewrite Hlink, H23, Himm. cbn [andb Z.eqb Pos.eqb].
    assert (Heven : (128 - n / 8) mod 2 = 0) by (Z.to_euclidean_division_equations; lia).
    rewrite (proj2 (Z.leb_le 64 _)) by (Z.to_euclidean_division_equations; lia).
    rewrite Heven. cbn [andb Z.eqb]. f_equal. Z.to_euclidean_division_equations. lia.
Qed.

Lemma decode_branch_exact w d :
  0 <= w < 2 ^ 32 ->
  decode_unconditional_branch w = Some d <->
  d <> 0 /\ d mod 4 = 0 /\ - 2 ^ 27 <= d < 2 ^ 27 /\
  (w = isa_branch 0 d \/ w = isa_branch 1 d).
Proof.
  intros Hw. unfold decode_unconditional_branch, isa_branch.
  rewrite (mask_test w 0x7c000000 0x14000000 26 5 5) by done.
  change 0x03ffffff with (Z.ones 26). rewrite (field_land w 26) by done.
  rewrite (mask_test _ (Z.shiftl 1 25) 0 25 1 0) by done.
  rewrite Z.shiftl_mul_pow2 by done. change (Z.shiftl 1 26) with (2 ^ 26).
  pose proof (field_range w 26 0 ltac:(done)) as Hi.
  pose proof (field_step w 26 0 26 ltac:(done) ltac:(done) eq_refl) as S0.
  pose proof (field_step w 5 26 31 ltac:(done) ltac:(done) eq_refl) as S26.
  pose proof (field_step w 1 31 32 ltac:(done) ltac:(done) eq_refl) as S31.
  pose proof (field_range w 1 31 ltac:(done)) as H31.
  change (w / 2 ^ 0) with (w / 1) in *. rewrite Z.div_1_r in S0.
  rewrite (Z.div_small w (2 ^ 32)) in S31 by done.
  assert (Himm : forall link e, w = link * 2 ^ 31 + 0x14000000 + e -> 0 <= e < 2 ^ 26 ->
    field w 26 0 = e /\ field w 5 26 = 5) by (intros link e -> He; split; fields).
  revert Hi S0 H31 S26 S31 Himm. generalize (field w 26 0) (field w 5 26) (field w 1 31).
  intros imm op link Hi S0 H31 S26 S31 Himm.
  assert (Htop : field imm 1 25 = if 2 ^ 25 <=? imm then 1 else 0).
  { destruct (Z.leb_spec (2 ^ 25) imm); fields. }
  rewrite Htop. split.
  - destruct (Z.eqb_spec op 5); [|done]. cbn [negb].
    destruct (Z.eqb_spec ((if negb ((if 2 ^ 25 <=? imm then 1 else 0) =? 0) then imm - 2 ^ 26 else imm)
      * 2 ^ 2) 0) as [|Hd]; [done|]. intros Hsome. apply (inj Some) in Hsome. rewrite Hsome in Hd.
    destruct (Z.leb_spec (2 ^ 25) imm); cbn [negb Z.eqb] in Hsome;
      (split; [done|]; split; [Z.to_euclidean_division_equations; lia|]; split; [lia|]).
    all: assert (Himm' : (d / 4) mod 2 ^ 26 = imm) by (Z.to_euclidean_division_equations; lia).
    all: rewrite Himm'; assert (link = 0 \/ link = 1) as [-> | ->] by lia; [left|right]; lia.
  - intros (Hd & Hm & Hr & Hor).
    assert (He : 0 <= (d / 4) mod 2 ^ 26 < 2 ^ 26) by (apply Z.mod_pos_bound; done).
    assert (imm = (d / 4) mod 2 ^ 26 /\ op = 5) as [-> ->]
      by (destruct Hor as [Hor|Hor]; exact (Himm _ _ Hor He)).
    cbn [Z.eqb Pos.eqb negb].
    assert (Hback : (if negb ((if 2 ^ 25 <=? (d / 4) mod 2 ^ 26 then 1 else 0) =? 0)
      then (d / 4) mod 2 ^ 26 - 2 ^ 26 else (d / 4) mod 2 ^ 26) * 2 ^ 2 = d).
    { destruct (Z.leb_spec (2 ^ 25) ((d / 4) mod 2 ^ 26)); cbn [negb Z.eqb];
        Z.to_euclidean_division_equations; lia. }
    rewrite Hback. destruct (Z.eqb_spec d 0); done.
Qed.

(** * What is accepted *)

Definition is_word (w : Z) : Prop := 0 <= w < 2 ^ 32.

(** The instructions the SDK may move to its trampoline: BTI c, j and jc, PACIASP and
    PACIBSP, and the two that open a frame of [n] bytes. *)
Inductive movable : Z -> Prop :=
  | movable_bti w : w = 0xd503245f \/ w = 0xd503249f \/ w = 0xd50324df -> movable w
  | movable_pac w : w = 0xd503233f \/ w = 0xd503237f -> movable w
  | movable_sub n : 16 <= n < 4096 -> n mod 16 = 0 -> movable (isa_sub_sp n)
  | movable_stp q v n : 0 <= q <= 1 -> 0 <= v <= 1 -> 16 <= n <= 512 -> n mod 16 = 0 ->
      movable (isa_stp_pre q v n).

Definition position_independent (w : Z) : Prop := ~ isa_pc_relative w /\ ~ isa_bc_cond w.

Lemma movable_position_independent w : movable w -> position_independent w.
Proof.
  assert (Hconst : forall c,
    bool_decide (field c 5 26 <> 5 /\ field c 8 24 <> 0x54 /\ field c 6 25 <> 26 /\
      field c 6 25 <> 27 /\ field c 5 24 <> 16 /\ field c 3 27 <> 3 /\ field c 7 25 <> 107) = true ->
    position_independent c).
  { intros c Hc. apply bool_decide_eq_true in Hc as (?&?&?&?&?&?&?).
    unfold position_independent, isa_pc_relative, isa_bc_cond. naive_solver. }
  destruct 1 as [w Hw|w Hw|n Hn Hm|q v n Hq Hv Hn Hm].
  - destruct Hw as [-> |[-> | ->]]; apply Hconst; vm_compute; reflexivity.
  - destruct Hw as [-> | ->]; apply Hconst; vm_compute; reflexivity.
  - apply Hconst, bool_decide_eq_true. unfold isa_sub_sp. split_and!; fields.
  - apply Hconst, bool_decide_eq_true. unfold isa_stp_pre. split_and!; fields.
Qed.

Lemma hook_site_movable w :
  is_word w ->
  (exists semantics, classify_single_instruction_hook_site w = Some semantics) <-> movable w.
Proof.
  intros Hw. unfold classify_single_instruction_hook_site. split.
  - intros [sem Hsem]. revert Hsem. destruct (is_bti w) eqn:E1.
    { intros _. apply movable_bti. unfold is_bti in E1. rewrite !orb_true_iff, !Z.eqb_eq in E1. naive_solver. }
    destruct (is_pac_stack w) eqn:E2.
    { intros _. apply movable_pac. unfold is_pac_stack in E2. by rewrite orb_true_iff, !Z.eqb_eq in E2. }
    destruct (decode_sub_sp_frame w) as [n|] eqn:E3.
    { intros _. apply decode_sub_sp_exact in E3 as (-> & ? & ?); [|done]. by apply movable_sub. }
    destruct (decode_preindex_frame_link w) as [n|] eqn:E4; [|discriminate]. intros _.
    apply decode_preindex_exact in E4 as ((q & v & ? & ? & ->) & ? & ?); [|done].
    by apply movable_stp.
  - intros Hmov. destruct (is_bti w) eqn:E1; [by eexists|]. destruct (is_pac_stack w) eqn:E2; [by eexists|].
    unfold is_bti in E1. unfold is_pac_stack in E2. rewrite !orb_false_iff, !Z.eqb_neq in E1. rewrite orb_false_iff, !Z.eqb_neq in E2.
    inversion Hmov as [w' Hc|w' Hc|n Hn Hm Heq|q v n Hq Hv Hn Hm Heq]; subst.
    + naive_solver.
    + naive_solver.
    + assert (decode_sub_sp_frame (isa_sub_sp n) = Some n) as -> by (by apply decode_sub_sp_exact).
      by eexists.
    + assert (decode_preindex_frame_link (isa_stp_pre q v n) = Some n) as ->.
      { apply decode_preindex_exact; [done|]. split; [|done]. by exists q, v. }
      destruct (decode_sub_sp_frame _); by eexists.
Qed.

(** A store of the pair of registers numbered 29 and 30 to the stack.  The bit that makes
    them vector registers is not part of it, as it is not of the code's mask. *)
Definition saves_link (w : Z) : Prop :=
  field w 5 0 = 29 /\ field w 5 5 = 31 /\ field w 5 10 = 30 /\ field w 1 22 = 0 /\
  field w 2 24 = 1 /\ field w 3 27 = 5 /\ field w 1 31 = 1.

(** A frame of [n] bytes is opened at [index]: by a subtraction with such a store in one
    of the next three instructions, or by such a store with pre-indexing. *)
Inductive opens_frame (words : list Z) (index : nat) : Prop :=
  | opens_sub n cursor :
      word_of words index = isa_sub_sp n -> 16 <= n < 4096 -> n mod 16 = 0 ->
      (index < cursor <= index + 3)%nat -> saves_link (word_of words cursor) ->
      opens_frame words index
  | opens_stp q v n :
      word_of words index = isa_stp_pre q v n -> 16 <= n <= 512 -> n mod 16 = 0 ->
      opens_frame words index.

(** What the code takes for a prologue: optional BTI and PAC, then a frame; and none of
    the first four instructions is on the list of [isa_pc_relative], which BC.cond is
    not on. *)
Definition prologue (words : list Z) : Prop :=
  (exists index, (index <= 2)%nat /\ opens_frame words index /\
     forall i, (i < index)%nat -> is_bti (word_of words i) = true \/ is_pac_stack (word_of words i) = true) /\
  forall i, (i < 4)%nat -> ~ isa_pc_relative (word_of words i).

Lemma word_of_word words i : Forall is_word words -> is_word (word_of words i).
Proof.
  intros Hw. unfold word_of. rewrite nth_lookup. destruct (words !! i) eqn:E; [|done].
  by eapply Forall_lookup_1.
Qed.

Lemma has_frame_link_spec words index :
  Forall is_word words -> has_frame_link words index = true ->
  exists cursor, (index <= cursor < index + 3)%nat /\ saves_link (word_of words cursor).
Proof.
  intros Hw Hlink. apply existsb_exists in Hlink as (cursor & Hin & Hstore).
  apply in_seq in Hin. exists cursor. split; [lia|].
  by apply frame_link_fields, Hstore; apply word_of_word.
Qed.

Lemma classify_frame_spec words semantics index result :
  Forall is_word words -> classify_frame words semantics index = Some result ->
  opens_frame words index /\ (forall i, (i < 4)%nat -> ~ isa_pc_relative (word_of words i)) /\
  exists more, result = Z.lor semantics more /\ Z.testbit more 5 = true /\ 0 <= more < 2 ^ 6.
Proof.
  intros Hw. unfold classify_frame.
  destruct (match decode_sub_sp_frame _ with Some _ => _ | None => _ end)
    as [[flags bytes]|] eqn:Eframed; [|done].
  destruct (existsb _ _) eqn:Epc; [done|]. destruct (bytes =? 0); [done|].
  intros Hres. apply (inj Some) in Hres.
  assert (Hpc : forall i, (i < 4)%nat -> ~ isa_pc_relative (word_of words i)).
  { intros i Hi Hrel. apply pc_relative_exact_fields in Hrel.
    assert (Hex : existsb (fun cursor => is_pc_relative_or_control_flow (word_of words cursor))
      (seq 0 4) = true) by (apply existsb_exists; exists i; split; [apply in_seq; lia|exact Hrel]).
    by rewrite Hex in Epc. }
  destruct (decode_sub_sp_frame (word_of words index)) as [n|] eqn:Esub.
  - destruct (has_frame_link words (S index)) eqn:Elink; [|done].
    apply (inj Some), (inj2 pair) in Eframed as [Hflags _].
    apply decode_sub_sp_exact in Esub as (Hword & Hn & Hm); [|by apply word_of_word].
    apply has_frame_link_spec in Elink as (cursor & Hc & Hsaves); [|done].
    split; [|split; [exact Hpc|]].
    + by apply (opens_sub _ _ n cursor); try lia.
    + exists (Z.lor (Z.lor kEntryHasStackFrame kEntrySavesFrameLink) kEntryRelocatablePrefix).
      split; [by rewrite <-Hres, <-Hflags, !Z.lor_assoc|]. split; [reflexivity|done].
  - destruct (decode_preindex_frame_link (word_of words index)) as [n|] eqn:Epre; [|done].
    apply (inj Some), (inj2 pair) in Eframed as [Hflags _].
    apply decode_preindex_exact in Epre as ((q & v & _ & _ & Hword) & Hn & Hm);
      [|by apply word_of_word].
    split; [|split; [exact Hpc|]]; [by apply (opens_stp _ _ q v n)|].
    destruct (_ && _).
    + exists (Z.lor (Z.lor (Z.lor kEntryHasStackFrame kEntrySavesFrameLink) kEntrySetsFramePointer)
        kEntryRelocatablePrefix).
      split; [by rewrite <-Hres, <-Hflags, !Z.lor_assoc|]. split; [reflexivity|done].
    + exists (Z.lor (Z.lor kEntryHasStackFrame kEntrySavesFrameLink) kEntryRelocatablePrefix).
      split; [by rewrite <-Hres, <-Hflags, !Z.lor_assoc|]. split; [reflexivity|done].
Qed.

Lemma low_bits_not_veneer a b :
  0 <= a < 2 ^ 6 -> 0 <= b < 2 ^ 6 -> Z.testbit (Z.lor a b) 6 = false.
Proof. intros Ha Hb. rewrite Z.lor_spec. by rewrite !(testbit_above _ 6 6). Qed.

Lemma semantic_entry_spec words result :
  Forall is_word words -> classify_semantic_entry words = Some result ->
  prologue words /\ Z.testbit result 5 = true /\ Z.testbit result 6 = false.
Proof.
  intros Hw Hclass.
  assert (Hframe : exists semantics index, classify_frame words semantics index = Some result /\
    0 <= semantics < 2 ^ 6 /\ (index <= 2)%nat /\ forall i, (i < index)%nat ->
      is_bti (word_of words i) = true \/ is_pac_stack (word_of words i) = true).
  { revert Hclass. unfold classify_semantic_entry.
    destruct (is_bti (word_of words 0)) eqn:E0; destruct (is_pac_stack _) eqn:E1; cbn [Nat.leb];
      intros Hc; eexists _, _; (split; [exact Hc|]); (split; [done|]); (split; [lia|]);
      intros i Hi; try lia.
    - destruct i as [|i]; [by left|]. replace i with 0%nat by lia. by right.
    - replace i with 0%nat by lia. by left.
    - replace i with 0%nat by lia. by right. }
  destruct Hframe as (semantics & index & Hcf & Hsem & Hidx & Hbefore).
  apply classify_frame_spec in Hcf as (Hopens & Hpc & more & -> & H5 & Hmore); [|done].
  split; [split; [by exists index|exact Hpc]|].
  split; [by rewrite Z.lor_spec, H5, orb_true_r|by apply low_bits_not_veneer].
Qed.

Lemma hook_site_bits w semantics :
  classify_single_instruction_hook_site w = Some semantics -> Z.testbit semantics 6 = false.
Proof.
  unfold classify_single_instruction_hook_site.
  destruct (is_bti w); [by intros [= <-]|]. destruct (is_pac_stack w); [by intros [= <-]|].
  destruct (decode_sub_sp_frame w); [by intros [= <-]|].
  by destruct (decode_preindex_frame_link w); [intros [= <-]|].
Qed.

(** The reported bits are the ten of the enumeration. *)
Lemma semantic_entry_range words result :
  classify_semantic_entry words = Some result -> 0 <= result < 2 ^ 10.
Proof.
  assert (Hframe : forall semantics index, 0 <= semantics < 2 ^ 10 ->
    classify_frame words semantics index = Some result -> 0 <= result < 2 ^ 10).
  { intros semantics index Hs. unfold classify_frame.
    destruct (match decode_sub_sp_frame _ with Some _ => _ | None => _ end)
      as [[flags bytes]|] eqn:Eframed; [|done].
    destruct (existsb _ _); [done|]. destruct (bytes =? 0); [done|]. intros Hres.
    apply (inj Some) in Hres as <-. apply lor_range; [done| |done].
    destruct (decode_sub_sp_frame _) as [n|].
    - destruct (has_frame_link _ _); [|done]. apply (inj Some), (inj2 pair) in Eframed as [<- _].
      repeat (apply lor_range; [done| |done]). exact Hs.
    - destruct (decode_preindex_frame_link _) as [n|]; [|done].
      apply (inj Some), (inj2 pair) in Eframed as [<- _].
      destruct (_ && _); repeat (apply lor_range; [done| |done]); exact Hs. }
  unfold classify_semantic_entry.
  destruct (is_bti (word_of words 0)); destruct (is_pac_stack _); cbn [Nat.leb];
    apply Hframe; done.
Qed.

Lemma hookable_entry_range `{KernelText} address words result :
  classify_hookable_entry address words = Some result -> 0 <= result < 2 ^ 10.
Proof.
  assert (Hsite : forall w semantics, classify_single_instruction_hook_site w = Some semantics ->
    0 <= semantics < 2 ^ 10).
  { intros w semantics. unfold classify_single_instruction_hook_site.
    destruct (is_bti w); [by intros [= <-]|]. destruct (is_pac_stack w); [by intros [= <-]|].
    destruct (decode_sub_sp_frame w); [by intros [= <-]|].
    by destruct (decode_preindex_frame_link w); [intros [= <-]|]. }
  unfold classify_hookable_entry. destruct (classify_semantic_entry words) as [entry|] eqn:Eentry.
  - destruct (classify_single_instruction_hook_site _) as [site|] eqn:Esite; [|done].
    intros Hres. apply (inj Some) in Hres as <-.
    apply lor_range; [done|by eapply semantic_entry_range|by eapply Hsite].
  - unfold classify_veneer_target. destruct (_ || _); [done|].
    destruct (classify_single_instruction_hook_site _) as [site|] eqn:Esite; [|done].
    destruct (decode_unconditional_branch _) as [d|]; [|done]. destruct (d <=? 0); [done|].
    cbv zeta. destruct (_ || _); [done|]. destruct (read_entry_words _) as [err target_words].
    destruct (is_failed err); [done|].
    destruct (classify_semantic_entry target_words) as [semantics|] eqn:Esem; [|done].
    intros Hres. apply (inj Some) in Hres as <-. repeat apply lor_range; try done.
    + by eapply semantic_entry_range.
    + by eapply Hsite.
Qed.

(** The address lies between the two symbols that bound the kernel's text. *)
Definition in_core_text `{KernelText} (address : Z) : Prop :=
  exists first_name first last, (first_name = "_stext" \/ first_name = "_text") /\
    kallsyms_lookup_name first_name = (OK, first) /\ kallsyms_lookup_name "_etext" = (OK, last) /\
    first <= address < last.

Lemma address_in_core_text_spec `{KernelText} address :
  address_in_core_text address = true -> in_core_text address.
Proof.
  assert (Hrange : forall name, within_range address (name, "_etext") = true ->
    (name = "_stext" \/ name = "_text") -> in_core_text address).
  { intros name. unfold within_range, in_core_text. cbn [fst snd].
    destruct (kallsyms_lookup_name name) as [e1 first] eqn:E1.
    destruct (kallsyms_lookup_name "_etext") as [e2 last] eqn:E2.
    rewrite !andb_true_iff, Z.leb_le, !Z.ltb_lt. intros [[[[[[H1 H2] _] _] _] H3] H4] Hname.
    apply is_ok_true in H1 as ->. apply is_ok_true in H2 as ->. by exists name, first, last. }
  unfold address_in_core_text, core_text_ranges. cbn [existsb]. rewrite orb_false_r, orb_true_iff.
  intros [Hs|Hs]; apply (Hrange _ Hs); auto.
Qed.

(** * Properties *)

(** the decoders are the instruction set's: on every 32-bit word they recognise
    exactly the stack adjustments and pre-indexed frame saves of a 16-byte aligned
    frame, with the size of the frame (at most 4080 and 512 bytes), exactly the
    unconditional branches, with the signed distance, and exactly the instructions
    whose meaning depends on their place, BC.cond apart. *)
Lemma decoders_exact w :
  is_word w ->
  (forall n, decode_sub_sp_frame w = Some n <->
     w = isa_sub_sp n /\ 16 <= n < 4096 /\ n mod 16 = 0) /\
  (forall n, decode_preindex_frame_link w = Some n <->
     (exists q v, 0 <= q <= 1 /\ 0 <= v <= 1 /\ w = isa_stp_pre q v n) /\
     16 <= n <= 512 /\ n mod 16 = 0) /\
  (forall d, decode_unconditional_branch w = Some d <->
     d <> 0 /\ d mod 4 = 0 /\ - 2 ^ 27 <= d < 2 ^ 27 /\
     (w = isa_branch 0 d \/ w = isa_branch 1 d)) /\
  (is_pc_relative_or_control_flow w = true <-> isa_pc_relative w).
Proof.
  intros Hw. split_and!; intros; [by apply decode_sub_sp_exact|by apply decode_preindex_exact|
    by apply decode_branch_exact|by apply pc_relative_exact_fields].
Qed.

(** The instructions a veneer may have in front of its branch at [index]: a BTI, a
    signing of the return address, or the two in this order. *)
Definition veneer_prefix (words : list Z) (index : nat) : Prop :=
  (index = 1%nat /\ is_bti (word_of words 0) = true /\ is_pac_stack (word_of words 1) = false) \/
  (index = 1%nat /\ is_bti (word_of words 0) = false /\ is_pac_stack (word_of words 0) = true) \/
  (index = 2%nat /\ is_bti (word_of words 0) = true /\ is_pac_stack (word_of words 1) = true).

(** The veneer at [address] branches forward over [d] bytes from its [index]-th
    instruction, with B or BL, to [target], where the kernel's text holds [code]. *)
Record leads_to `{KernelText} (address : Z) (words : list Z) (index : nat) (d target : Z)
    (code : list Z) : Prop := {
  lt_prefix : veneer_prefix words index;
  lt_branch : word_of words index = isa_branch 0 d \/ word_of words index = isa_branch 1 d;
  lt_distance : 0 < d < 2 ^ 27 /\ d mod 4 = 0;
  lt_target : target = u64 (u64 (address + Z.of_nat index * 4) + d);
  lt_forward : address < target;
  lt_text : in_core_text target;
  lt_code : read_entry_words target = (OK, code);
}.

Lemma veneer_spec `{KernelText} address words result :
  Forall is_word words -> classify_veneer_target address words = Some result ->
  exists index d target code site semantics, leads_to address words index d target code /\
    classify_single_instruction_hook_site (word_of words 0) = Some site /\
    classify_semantic_entry code = Some semantics /\
    result = Z.lor (Z.lor semantics site) kEntryHasVeneer.
Proof.
  intros Hw. unfold classify_veneer_target. cbv zeta.
  set (index := if is_pac_stack _ then S _ else _). destruct (Nat.eqb index 0 || _) eqn:Eindex; [done|].
  destruct (classify_single_instruction_hook_site _) as [site|] eqn:Esite; [|done].
  destruct (decode_unconditional_branch _) as [d|] eqn:Ed; [|done].
  apply decode_branch_exact in Ed as (_ & Hmod & Hrange & Hbranch); [|by apply word_of_word].
  destruct (Z.leb_spec d 0); [done|]. set (target := u64 (_ + d)).
  destruct (_ || negb (address_in_core_text target)) eqn:Ebad; [done|].
  destruct (read_entry_words target) as [err code] eqn:Eread.
  destruct (is_failed err) eqn:Eerr; [done|]. apply is_failed_false in Eerr as ->.
  destruct (classify_semantic_entry code) as [semantics|] eqn:Esem; [|done].
  intros Hres. apply (inj Some) in Hres as <-.
  rewrite !orb_false_iff, !negb_false_iff in Ebad. destruct Ebad as [[Hlt _] Htext].
  apply Z.leb_gt in Hlt. exists index, d, target, code, site, semantics. split; [|done].
  split; try done; [|lia|by apply address_in_core_text_spec].
  unfold veneer_prefix, index in *. destruct (is_bti (word_of words 0)) eqn:Eb.
  - destruct (is_pac_stack (word_of words 1)) eqn:Ep; [by right; right|by left].
  - destruct (is_pac_stack (word_of words 0)) eqn:Ep; [by right; left|done].
Qed.

(** C36: an entry is accepted only where it can be hooked.  Its first instruction, the
    one the SDK moves, is a BTI, a signing of the return address, or one of the two that
    open a frame, and so does not depend on its place.  Either the entry itself begins
    with what the code takes for a prologue, and the veneer bit is not set; or it is a
    veneer, whose bit is set: behind a BTI, a signing, or both stands a B or BL over a
    positive distance, and the address that branch leads to (the address of the branch
    instruction plus its distance) lies further on in the kernel's core text and holds
    such a prologue.  The other bits are those of the prologue and of the first
    instruction.  A prologue here opens a 16-byte aligned frame behind an optional BTI
    and signing and has a store of the registers numbered 29 and 30 (general or vector
    ones) to the stack, and none of its first four instructions is a branch or relative
    to its place, BC.cond apart. *)
Theorem hookable_entry_sound `{KernelText} address words result :
  Forall is_word words -> (forall a, Forall is_word (read_entry_words a).2) ->
  classify_hookable_entry address words = Some result ->
  movable (word_of words 0) /\ position_independent (word_of words 0) /\
  exists site semantics, classify_single_instruction_hook_site (word_of words 0) = Some site /\
  ((prologue words /\ classify_semantic_entry words = Some semantics /\
    result = Z.lor semantics site /\ Z.testbit result 6 = false) \/
   (exists index d target code, leads_to address words index d target code /\ prologue code /\
      classify_semantic_entry code = Some semantics /\
      result = Z.lor (Z.lor semantics site) kEntryHasVeneer /\ Z.testbit result 6 = true)).
Proof.
  intros Hw Hread. unfold classify_hookable_entry.
  assert (Hsite : forall semantics,
    classify_single_instruction_hook_site (word_of words 0) = Some semantics ->
    movable (word_of words 0) /\ position_independent (word_of words 0)).
  { intros semantics Hs. assert (Hm : movable (word_of words 0)).
    { apply hook_site_movable; [by apply word_of_word|]. by exists semantics. }
    split; [exact Hm|by apply movable_position_independent]. }
  destruct (classify_semantic_entry words) as [entry|] eqn:Eentry.
  - destruct (classify_single_instruction_hook_site _) as [site|] eqn:Esite; [|done].
    intros Hres. apply (inj Some) in Hres as <-.
    destruct (Hsite site eq_refl) as [Hm Hp]. split; [exact Hm|]. split; [exact Hp|].
    exists site, entry. split; [done|]. left.
    apply semantic_entry_spec in Eentry as (Hpro & _ & H6); [|done]. split_and!; [exact Hpro|done..|].
    by rewrite Z.lor_spec, H6, (hook_site_bits _ _ Esite).
  - intros (index & d & target & code & site & semantics & Hleads & Esite & Esem & ->)%veneer_spec; [|done].
    destruct (Hsite site Esite) as [Hm Hp]. split; [exact Hm|]. split; [exact Hp|].
    exists site, semantics. split; [exact Esite|]. right. exists index, d, target, code.
    pose proof (Hread target) as Hcode. rewrite (lt_code _ _ _ _ _ _ Hleads) in Hcode.
    split; [exact Hleads|]. split; [by apply semantic_entry_spec in Esem as (Hpro & _)|].
    split; [exact Esem|]. split; [done|]. by rewrite Z.lor_spec, orb_true_r.
Qed.

(** * Concrete entries *)

(** A BTI with a branch behind it, to a function that signs its return address and
    opens a frame of 32 bytes. *)
Definition demo_entry : list Z := [0xd503245f; 0x14000040; 0; 0].
Definition demo_function : list Z := [0xd503233f; 0xa9be7bfd; 0x910003fd; 0xd503201f].
Definition demo_entry_address : Z := 0xffffffc008010000.

#[local] Instance demo_text : KernelText := {|
  kallsyms_lookup_name name :=
    if bool_decide (name = "_stext") then (OK, 0xffffffc008000000)
    else if bool_decide (name = "_etext") then (OK, 0xffffffc009000000)
    else (ERR_MODULE_SDK 3, 0);
  read_entry_words address :=
    if address =? 0xffffffc008010104 then (OK, demo_function) else (ERR_MODULE_SDK 4, []) |}.

Lemma decoders_exact_witness : decode_preindex_frame_link 0xa9be7bfd = Some 32.
Proof.
  apply (decoders_exact 0xa9be7bfd); [split; [discriminate|reflexivity]|].
  split; [exists 0, 0; repeat split; discriminate|]. repeat split; discriminate.
Defined.

Lemma demo_entry_accepted :
  classify_hookable_entry demo_entry_address demo_entry = Some 0xfe.
Proof. vm_compute. reflexivity. Qed.

Lemma demo_words_ok a : Forall is_word (read_entry_words a).2.
Proof.
  unfold read_entry_words, demo_text. destruct (a =? _); cbn [snd]; [|constructor].
  apply (bool_decide_unpack (Forall (fun w => 0 <= w < 2 ^ 32) _)). vm_compute. exact I.
Qed.

(** There is one way to read the demonstration. *)
Lemma demo_branch index d target code :
  leads_to demo_entry_address demo_entry index d target code ->
  index = 1%nat /\ d = 256 /\ target = demo_entry_address + 260.
Proof.
  intros [Hprefix Hbranch [Hd Hmod] -> _ _ _].
  assert (index = 1%nat) as ->.
  { destruct Hprefix as [[-> _]|[(_ & Hb & _)|(_ & _ & Hp)]]; [done|discriminate Hb|discriminate Hp]. }
  assert (d = 256) as ->; [|by vm_compute].
  change (word_of demo_entry 1) with 0x14000040 in Hbranch. unfold isa_branch in Hbranch.
  Z.to_euclidean_division_equations. lia.
Qed.

Lemma hookable_entry_sound_witness :
  exists code, leads_to demo_entry_address demo_entry 1 256 (demo_entry_address + 260) code /\
    prologue code.
Proof.
  destruct (hookable_entry_sound demo_entry_address demo_entry 0xfe) as (_ & _ & site & semantics & _ &
    [(_ & _ & _ & Hbit)|(index & d & target & code & Hleads & Hpro & _)]).
  - apply (bool_decide_unpack (Forall (fun w => 0 <= w < 2 ^ 32) _)). vm_compute. exact I.
  - exact demo_words_ok.
  - exact demo_entry_accepted.
  - discriminate Hbit.
  - exists code. split; [|exact Hpro]. pose proof (demo_branch _ _ _ _ Hleads) as (-> & -> & ->). exact Hleads.
Defined.

(** A store of two vector registers passes for a frame save. *)
Lemma vector_pair_accepted :
  decode_preindex_frame_link 0xadbf7bfd = Some 16 /\ 0xadbf7bfd = isa_stp_pre 0 1 16.
Proof. split; reflexivity. Qed.

(** A branch with link passes for a veneer's branch, and BC.cond is not refused. *)
Lemma link_branch_accepted :
  decode_unconditional_branch 0x94000040 = Some 256 /\ 0x94000040 = isa_branch 1 256.
Proof. split; reflexivity. Qed.

Lemma bc_cond_not_refused :
  isa_bc_cond 0x54000050 /\ is_pc_relative_or_control_flow 0x54000050 = false.
Proof. split; [split|]; reflexivity. Qed.
