(* ===== verification/Resolver.v ===== *)
(** From an open binder descriptor to the driver's ioctl (binder_ioctl_resolver.cpp):
    the walk through the task's files, the members of [struct file] and of the file
    operations, the cross-check with the kernel's symbols, and the entry. *)

From S2P Require Import Prelude KernelContext Slots Checksum HookSite.

(** src/binder_ioctl_resolver.cpp:25-25 [kMaxStructureOffset] *)
Definition kMaxStructureOffset : Z := 0x4000.
(** src/binder_ioctl_resolver.cpp:26-26 [kMaxFileMemberScan] *)
Definition kMaxFileMemberScan : Z := 0x200.
(** src/binder_ioctl_resolver.cpp:27-27 [kMaxFopsMemberScan] *)
Definition kMaxFopsMemberScan : Z := 0x200.

(** src/binder_ioctl_resolver.h:12-16 [BinderBackend] *)
Inductive BinderBackend := BackendUnknown | BackendClassic | BackendRust.

(** src/binder_ioctl_resolver.h:18-22 [BinderOffsetSource] *)
Inductive BinderOffsetSource := SourceUnknown | SourceSdk | SourceSymbolScan.

#[global] Instance BinderBackend_eq_dec : EqDecision BinderBackend.
Proof. solve_decision. Defined.
#[global] Instance BinderOffsetSource_eq_dec : EqDecision BinderOffsetSource.
Proof. solve_decision. Defined.

(** The ten capabilities, in the order of their bits. *)

(** src/binder_ioctl_resolver.h:24-35 [BinderCapability] *)
Inductive BinderCapability :=
  | kCapabilityFdWalk | kCapabilityFopsResolved | kCapabilityIoctlResolved
  | kCapabilitySymbolCrossValidated | kCapabilityKernelTextTarget | kCapabilitySemanticPrologue
  | kCapabilityHookRelocatablePrefix | kCapabilityBinderWriteRead | kCapabilityTransactionStreams
  | kCapabilityEqualLengthReplacement.

Definition capability_bit (c : BinderCapability) : Z :=
  Z.shiftl 1 (match c with
    | kCapabilityFdWalk => 0 | kCapabilityFopsResolved => 1 | kCapabilityIoctlResolved => 2
    | kCapabilitySymbolCrossValidated => 3 | kCapabilityKernelTextTarget => 4
    | kCapabilitySemanticPrologue => 5 | kCapabilityHookRelocatablePrefix => 6
    | kCapabilityBinderWriteRead => 7 | kCapabilityTransactionStreams => 8
    | kCapabilityEqualLengthReplacement => 9 end).

Definition capabilities_of (cs : list BinderCapability) : Z :=
  foldl (fun acc c => Z.lor acc (capability_bit c)) 0 cs.

(** src/binder_ioctl_resolver.h:105-115 [kRequiredBinderCapabilities] *)
Definition kRequiredBinderCapabilities : Z :=
  capabilities_of [kCapabilityFdWalk; kCapabilityFopsResolved; kCapabilityIoctlResolved;
    kCapabilitySymbolCrossValidated; kCapabilityKernelTextTarget; kCapabilitySemanticPrologue;
    kCapabilityHookRelocatablePrefix; kCapabilityBinderWriteRead; kCapabilityTransactionStreams;
    kCapabilityEqualLengthReplacement].

(** src/binder_ioctl_resolver.cpp:55-61 [SymbolCandidate] *)
Record SymbolCandidate := {
  sy_name : string;
  sy_backend : BinderBackend;
  sy_validation_bit : Z;
  sy_address : Z;
  sy_available : bool;
}.

(** src/binder_ioctl_resolver.h:68-74 [BinderKernelOffsets] *)
Record BinderKernelOffsets := {
  task_files : Z;
  files_fdt : Z;
  fdtable_fd : Z;
  file_f_op : Z;
  fops_unlocked_ioctl : Z;
}.

(** src/binder_ioctl_resolver.h:76-91 [BinderIoctlResolution] *)
Record BinderIoctlResolution := {
  br_binder_fd : Z;
  br_file_kaddr : Z;
  br_fops_kaddr : Z;
  br_ioctl_kaddr : Z;
  br_offsets : BinderKernelOffsets;
  br_file_f_op_source : BinderOffsetSource;
  br_fops_unlocked_ioctl_source : BinderOffsetSource;
  br_entry_words : list Z;
  br_entry_fingerprint : Z;
  br_capabilities : Z;
  br_entry_semantics : Z;
  br_symbol_validations : Z;
  br_backend : BinderBackend;
}.

(** What else the resolver asks: the SDK's structure offsets, atomic reads of kernel
    memory, and the run of the generated walk with the loads it makes. *)
Class KernelProbe := {
  #[global] probe_text :: KernelText;
  get_task_struct_files_offset : KModErr * Z;
  get_file_struct_fdt_offset : KModErr * Z;
  get_fdtable_fd_offset : KModErr * Z;
  get_file_f_op_offset : KModErr * Z;
  get_file_operations_unlocked_ioctl_offset : KModErr * Z;
  read_kernel_mem_atomic64 : Z -> KModErr * Z;
  asm_failed : bool;
  execute_kernel_asm_func : KModErr;
  current_task : Z;
  kernel_load : Z -> Z;
}.

(** src/binder_ioctl_resolver.cpp:68-70 [valid_member_offset] *)
Definition valid_member_offset (value limit : Z) : bool :=
  (value <=? limit) && (Z.land value 7 =? 0).

Section Resolve.
Context `{KernelProbe}.

(** An offset the walk cannot do without. *)
Definition required_offset (answer : KModErr * Z) : KModErr + Z :=
  let '(err, offset) := answer in
  if is_failed err then inl err
  else if negb (valid_member_offset offset kMaxStructureOffset) then inl ERR_MODULE_OFFSET_NOT_FOUND
  else inr offset.

(** An offset that a scan can replace. *)
Definition optional_offset (answer : KModErr * Z) (limit : Z) : Z * BinderOffsetSource :=
  let '(err, offset) := answer in
  if is_ok err && valid_member_offset offset limit then (offset, SourceSdk) else (0, SourceUnknown).

(** src/binder_ioctl_resolver.cpp:146-198 [load_offsets] *)
Definition load_offsets
    : KModErr + BinderKernelOffsets * BinderOffsetSource * BinderOffsetSource :=
  match required_offset get_task_struct_files_offset with
  | inl err => inl err
  | inr files =>
      match required_offset get_file_struct_fdt_offset with
      | inl err => inl err
      | inr fdt =>
          match required_offset get_fdtable_fd_offset with
          | inl err => inl err
          | inr fd =>
              let '(f_op, file_source) := optional_offset get_file_f_op_offset kMaxFileMemberScan in
              let '(ioctl, ioctl_source) :=
                optional_offset get_file_operations_unlocked_ioctl_offset kMaxFopsMemberScan in
              inr ({| task_files := files; files_fdt := fdt; fdtable_fd := fd;
                      file_f_op := f_op; fops_unlocked_ioctl := ioctl |}, file_source, ioctl_source)
          end
      end
  end.

(** The generated function: zero when a pointer on the way is null. *)

(** src/binder_ioctl_resolver.cpp:207-225 [resolve_file_from_current_fd] *)
Definition walk_fd (fd : Z) (offsets : BinderKernelOffsets) : Z :=
  if current_task =? 0 then 0
  else
    let files := kernel_load (u64 (current_task + task_files offsets)) in
    if files =? 0 then 0
    else
      let fdt := kernel_load (u64 (files + files_fdt offsets)) in
      if fdt =? 0 then 0
      else
        let table := kernel_load (u64 (fdt + fdtable_fd offsets)) in
        if table =? 0 then 0 else kernel_load (u64 (table + fd * 8)).

(** src/binder_ioctl_resolver.cpp:200-236 [resolve_file_from_current_fd] *)
Definition resolve_file_from_current_fd (fd : Z) (offsets : BinderKernelOffsets) : KModErr + Z :=
  if (fd <? 0) || (4095 <? fd) then inl ERR_MODULE_PARAM
  else if asm_failed then inl ERR_MODULE_ASM
  else if is_failed execute_kernel_asm_func then inl execute_kernel_asm_func
  else
    let file_kaddr := walk_fd fd offsets in
    if is_kernel_pointer file_kaddr then inr file_kaddr else inl ERR_MODULE_NOT_KADDR.

(** src/binder_ioctl_resolver.cpp:238-249 [resolve_symbols] *)
Definition resolve_symbols (symbols : list (string * BinderBackend * Z)) : list SymbolCandidate :=
  (fun s : string * BinderBackend * Z =>
     let '(err, address) := kallsyms_lookup_name s.1.1 in
     {| sy_name := s.1.1; sy_backend := s.1.2; sy_validation_bit := s.2; sy_address := address;
        sy_available := is_ok err && is_kernel_pointer address |}) <$> symbols.

(** src/binder_ioctl_resolver.cpp:251-259 [matching_symbol] *)
Definition matching_symbol (address : Z) (symbols : list SymbolCandidate) : option SymbolCandidate :=
  List.find (fun s => sy_available s && (sy_address s =? address)) symbols.

(** src/binder_ioctl_resolver.cpp:261-267 [any_symbol_available] *)
Definition any_symbol_available (symbols : list SymbolCandidate) : bool :=
  existsb sy_available symbols.

(** src/binder_ioctl_resolver.cpp:269-278 [backend_symbol_available] *)
Definition backend_symbol_available (symbols : list SymbolCandidate) (backend : BinderBackend) : bool :=
  existsb (fun s => sy_available s && bool_decide (sy_backend s = backend)) symbols.

(** The offsets 0, 8, ... up to the limit. *)

(** src/binder_ioctl_resolver.cpp:288-303 [scan_pointer_member] *)
Fixpoint scan_offsets (base : Z) (symbols : list SymbolCandidate) (offsets : list Z)
    : KModErr + Z * Z * SymbolCandidate :=
  match offsets with
  | [] => inl ERR_MODULE_OFFSET_NOT_FOUND
  | offset :: offsets =>
      let '(err, candidate) := read_kernel_mem_atomic64 (u64 (base + offset)) in
      if is_failed err then inl err
      else match matching_symbol candidate symbols with
      | Some symbol => inr (offset, candidate, symbol)
      | None => scan_offsets base symbols offsets
      end
  end.

(** src/binder_ioctl_resolver.cpp:280-304 [scan_pointer_member] *)
Definition scan_pointer_member (base limit : Z) (symbols : list SymbolCandidate)
    : KModErr + Z * Z * SymbolCandidate :=
  scan_offsets base symbols ((fun i => 8 * Z.of_nat i) <$> seq 0 (Z.to_nat (limit / 8 + 1))).

(** src/binder_ioctl_resolver.cpp:546-550 [compatible_symbol_backends] *)
Definition compatible_symbol_backends (fops ioctl : option SymbolCandidate) : bool :=
  match fops, ioctl with
  | Some fops, Some ioctl => bool_decide (sy_backend fops = sy_backend ioctl)
  | _, _ => true
  end.

(** src/binder_ioctl_resolver.cpp:557-563 [sdk_symbol_match] *)
Definition sdk_symbol_match (address : Z) (symbols : list SymbolCandidate) : option SymbolCandidate :=
  if is_kernel_pointer address then matching_symbol address symbols else None.

(** src/binder_ioctl_resolver.cpp:565-580 [all_available_ioctl_symbols_are_text] *)
Definition all_available_ioctl_symbols_are_text (symbols : list SymbolCandidate) : bool :=
  forallb (fun s => negb (sy_available s) || address_in_core_text (sy_address s)) symbols.

(** A member that holds a kernel pointer: the offset, the pointer, where the offset is
    from, and the symbol the pointer was tied to. *)
Record member := {
  mb_offset : Z;
  mb_value : Z;
  mb_source : BinderOffsetSource;
  mb_match : option SymbolCandidate;
}.

(** The value behind an SDK offset counts when it is a symbol's; otherwise the member is
    searched for, and failing that the SDK's value is kept.  The code has this twice,
    for [file.f_op] and for [unlocked_ioctl]. *)

(** src/binder_ioctl_resolver.cpp:720-750 [resolve_binder_ioctl_from_fd] *)
Definition locate_member (base offset limit : Z) (source : BinderOffsetSource)
    (symbols : list SymbolCandidate) : member :=
  let value :=
    if bool_decide (source = SourceSdk) then
      let '(err, value) := read_kernel_mem_atomic64 (u64 (base + offset)) in
      if is_failed err || negb (is_kernel_pointer value) then 0 else value
    else 0 in
  match sdk_symbol_match value symbols with
  | Some symbol => {| mb_offset := offset; mb_value := value; mb_source := source;
                      mb_match := Some symbol |}
  | None =>
      match (if any_symbol_available symbols then scan_pointer_member base limit symbols
             else inl ERR_MODULE_OFFSET_NOT_FOUND) with
      | inr (scanned_offset, scanned_value, symbol) =>
          {| mb_offset := scanned_offset; mb_value := scanned_value;
             mb_source := SourceSymbolScan; mb_match := Some symbol |}
      | inl _ => {| mb_offset := offset; mb_value := value; mb_source := source; mb_match := None |}
      end
  end.

Definition validation_bits (m : option SymbolCandidate) : Z :=
  match m with Some symbol => sy_validation_bit symbol | None => 0 end.

(** src/binder_ioctl_resolver.cpp:795-799 [resolve_binder_ioctl_from_fd] *)
Definition matched_backend (fops ioctl : option SymbolCandidate) : BinderBackend :=
  match ioctl, fops with
  | Some ioctl, _ => sy_backend ioctl
  | None, Some fops => sy_backend fops
  | None, None => BackendUnknown
  end.

(** A visible symbol of the backend that the member is not tied to. *)

(** src/binder_ioctl_resolver.cpp:804-812 [resolve_binder_ioctl_from_fd] *)
Definition contradicts (symbols : list SymbolCandidate) (m : option SymbolCandidate)
    (backend : BinderBackend) : bool :=
  backend_symbol_available symbols backend &&
  match m with None => true | Some symbol => negb (bool_decide (sy_backend symbol = backend)) end.

(** src/binder_ioctl_resolver.cpp:705-708 [resolve_binder_ioctl_from_fd] *)
Definition fops_symbol_names : list (string * BinderBackend * Z) :=
  [("binder_fops", BackendClassic, 1); ("rust_binder_fops", BackendRust, 4)].

(** src/binder_ioctl_resolver.cpp:709-716 [resolve_binder_ioctl_from_fd] *)
Definition ioctl_symbol_names : list (string * BinderBackend * Z) :=
  [("binder_ioctl", BackendClassic, 2); ("rust_binder_unlocked_ioctl", BackendRust, 8);
   ("rust_binder_ioctl", BackendRust, 8); ("rust_binder_compat_ioctl", BackendRust, 8)].

(** What has been stored in the result when every check has passed. *)

(** src/binder_ioctl_resolver.cpp:795-840 [resolve_binder_ioctl_from_fd] *)
Definition resolution_of (binder_fd file_kaddr : Z) (offsets : BinderKernelOffsets)
    (fops ioctl : member) (words : list Z) (semantics : Z) : BinderIoctlResolution := {|
  br_binder_fd := binder_fd; br_file_kaddr := file_kaddr;
  br_fops_kaddr := mb_value fops; br_ioctl_kaddr := mb_value ioctl;
  br_offsets := {|
    task_files := task_files offsets; files_fdt := files_fdt offsets;
    fdtable_fd := fdtable_fd offsets; file_f_op := mb_offset fops;
    fops_unlocked_ioctl := mb_offset ioctl |};
  br_file_f_op_source := mb_source fops; br_fops_unlocked_ioctl_source := mb_source ioctl;
  br_entry_words := words; br_entry_fingerprint := fnv1a64 (concat (le_enc 4 <$> words));
  br_capabilities := capabilities_of
    ([kCapabilityFdWalk; kCapabilityFopsResolved; kCapabilityIoctlResolved;
      kCapabilitySymbolCrossValidated; kCapabilityKernelTextTarget] ++
     [kCapabilitySemanticPrologue; kCapabilityHookRelocatablePrefix; kCapabilityBinderWriteRead;
      kCapabilityTransactionStreams; kCapabilityEqualLengthReplacement]);
  br_entry_semantics := semantics;
  br_symbol_validations := Z.lor (validation_bits (mb_match fops)) (validation_bits (mb_match ioctl));
  br_backend := matched_backend (mb_match fops) (mb_match ioctl) |}.

(** src/binder_ioctl_resolver.cpp:695-841 [resolve_binder_ioctl_from_fd] *)
Definition resolve_binder_ioctl_from_fd (binder_fd : Z) : KModErr + BinderIoctlResolution :=
  match load_offsets with
  | inl err => inl err
  | inr (offsets, file_source, ioctl_source) =>
      match resolve_file_from_current_fd binder_fd offsets with
      | inl err => inl err
      | inr file_kaddr =>
          let fops_symbols := resolve_symbols fops_symbol_names in
          let ioctl_symbols := resolve_symbols ioctl_symbol_names in
          let fops := locate_member file_kaddr (file_f_op offsets) kMaxFileMemberScan file_source
                        fops_symbols in
          if negb (is_kernel_pointer (mb_value fops)) then inl ERR_MODULE_OFFSET_NOT_FOUND
          else
            let ioctl := locate_member (mb_value fops) (fops_unlocked_ioctl offsets)
                           kMaxFopsMemberScan ioctl_source ioctl_symbols in
            if negb (is_kernel_pointer (mb_value ioctl)) then inl ERR_MODULE_OFFSET_NOT_FOUND
            else if negb (compatible_symbol_backends (mb_match fops) (mb_match ioctl))
            then inl ERR_MODULE_FUNC_NOT_STANDARD
            else
              let backend := matched_backend (mb_match fops) (mb_match ioctl) in
              let validations := Z.lor (validation_bits (mb_match fops))
                                   (validation_bits (mb_match ioctl)) in
              if (validations =? 0) || bool_decide (backend = BackendUnknown)
              then inl ERR_MODULE_FUNC_NOT_STANDARD
              else if contradicts fops_symbols (mb_match fops) backend ||
                      contradicts ioctl_symbols (mb_match ioctl) backend
              then inl ERR_MODULE_FUNC_NOT_STANDARD
              else if negb (all_available_ioctl_symbols_are_text ioctl_symbols) ||
                      negb (address_in_core_text (mb_value ioctl))
              then inl ERR_MODULE_NOT_KADDR
              else
                let '(read_err, words) := read_entry_words (mb_value ioctl) in
                if is_failed read_err then inl read_err
                else match classify_hookable_entry (mb_value ioctl) words with
                | None => inl ERR_MODULE_FUNC_NOT_STANDARD
                | Some semantics =>
                    inr (resolution_of binder_fd file_kaddr offsets fops ioctl words semantics)
                end
      end
  end.

End Resolve.

(** src/binder_ioctl_resolver.cpp:843-851 [has_required_binder_capabilities] *)
Definition has_required_binder_capabilities (resolution : BinderIoctlResolution) : bool :=
  negb (bool_decide (br_backend resolution = BackendUnknown)) &&
  is_kernel_pointer (br_file_kaddr resolution) && is_kernel_pointer (br_fops_kaddr resolution) &&
  is_kernel_pointer (br_ioctl_kaddr resolution) &&
  (Z.land (br_capabilities resolution) kRequiredBinderCapabilities =? kRequiredBinderCapabilities).

(** * What a resolution stands for *)

(** A visible symbol of the list, by its name. *)
Definition visible `{KernelProbe} (names : list (string * BinderBackend * Z)) (s : SymbolCandidate)
    : Prop :=
  s ∈ resolve_symbols names /\ sy_available s = true.

(** A member is a live pointer: an atomic read of the base object answered with it, at an
    aligned offset within the limit, and the symbol it was tied to has its address. *)
Definition live_member `{KernelProbe} (base limit : Z) (names : list (string * BinderBackend * Z))
    (m : member) : Prop :=
  is_kernel_pointer (mb_value m) = true /\
  mb_offset m <= limit /\ Z.land (mb_offset m) 7 = 0 /\
  read_kernel_mem_atomic64 (u64 (base + mb_offset m)) = (OK, mb_value m) /\
  mb_source m <> SourceUnknown /\
  forall s, mb_match m = Some s -> visible names s /\ sy_address s = mb_value m.

Section ResolveFacts.
Context `{KernelProbe}.

Lemma matching_symbol_spec address names s :
  matching_symbol address (resolve_symbols names) = Some s ->
  visible names s /\ sy_address s = address.
Proof.
  intros Hfind. apply List.find_some in Hfind as [Hin Htest].
  apply andb_true_iff in Htest as [Ha Haddr]. apply Z.eqb_eq in Haddr.
  split; [split; [by apply list_elem_of_In|exact Ha]|exact Haddr].
Qed.

Lemma visible_pointer names s : visible names s -> is_kernel_pointer (sy_address s) = true.
Proof.
  intros [Hin Ha]. unfold resolve_symbols in Hin. apply list_elem_of_fmap in Hin as (n & -> & _).
  revert Ha. destruct (kallsyms_lookup_name n.1.1) as [err address]. cbn.
  by intros [_ ?]%andb_true_iff.
Qed.

Lemma scan_offsets_spec base names offsets offset value s :
  scan_offsets base (resolve_symbols names) offsets = inr (offset, value, s) ->
  offset ∈ offsets /\ read_kernel_mem_atomic64 (u64 (base + offset)) = (OK, value) /\
  visible names s /\ sy_address s = value.
Proof.
  induction offsets as [|o offsets IH]; cbn [scan_offsets]; [done|].
  destruct (read_kernel_mem_atomic64 (u64 (base + o))) as [err candidate] eqn:Eread.
  destruct (is_failed err) eqn:Eerr; [done|]. apply is_failed_false in Eerr as ->.
  destruct (matching_symbol candidate _) as [symbol|] eqn:Ematch.
  - intros Hres. apply (inj inr) in Hres. apply (inj2 pair) in Hres as [Hres <-].
    apply (inj2 pair) in Hres as [<- <-]. apply matching_symbol_spec in Ematch as [Hv Ha].
    split; [by left|]. split; [exact Eread|]. split; [exact Hv|exact Ha].
  - intros Hres. destruct (IH Hres) as (Hin & Hrest). split; [by right|exact Hrest].
Qed.

Lemma scan_member_spec base limit names offset value s :
  0 <= limit ->
  scan_pointer_member base limit (resolve_symbols names) = inr (offset, value, s) ->
  offset <= limit /\ Z.land offset 7 = 0 /\
  read_kernel_mem_atomic64 (u64 (base + offset)) = (OK, value) /\
  visible names s /\ sy_address s = value.
Proof.
  intros Hlimit Hscan. apply scan_offsets_spec in Hscan as (Hin & Hrest).
  apply list_elem_of_fmap in Hin as (i & -> & Hi). apply elem_of_seq in Hi.
  split; [Z.to_euclidean_division_equations; lia|]. split; [|exact Hrest].
  change 7 with (Z.ones 3). rewrite Z.land_ones by done. rewrite Z.mul_comm. by apply Z.mod_mul.
Qed.

Lemma locate_member_live base offset limit source names :
  (source = SourceSdk -> valid_member_offset offset limit = true) -> 0 <= limit ->
  is_kernel_pointer (mb_value (locate_member base offset limit source (resolve_symbols names))) = true ->
  live_member base limit names (locate_member base offset limit source (resolve_symbols names)).
Proof.
  intros Hoffset Hlimit. unfold locate_member.
  set (value := if bool_decide (source = SourceSdk) then _ else 0).
  assert (Hsdk : is_kernel_pointer value = true ->
    offset <= limit /\ Z.land offset 7 = 0 /\
    read_kernel_mem_atomic64 (u64 (base + offset)) = (OK, value) /\ source <> SourceUnknown).
  { unfold value. case_bool_decide as Hs; [|done]. subst source.
    destruct (read_kernel_mem_atomic64 (u64 (base + offset))) as [err v].
    destruct (is_failed err) eqn:Eerr; [done|]. apply is_failed_false in Eerr as ->. cbn [orb].
    destruct (is_kernel_pointer v); [|done]. intros _.
    specialize (Hoffset eq_refl). apply andb_true_iff in Hoffset as [Hle Hal].
    apply Z.leb_le in Hle. apply Z.eqb_eq in Hal. split_and!; done. }
  clearbody value. destruct (sdk_symbol_match value (resolve_symbols names)) as [symbol|] eqn:Ematch.
  - intros Hptr. destruct (Hsdk Hptr) as (Hle & Hal & Hread & Hsource). unfold sdk_symbol_match in Ematch.
    cbn in Hptr. rewrite Hptr in Ematch. split_and!; try done.
    intros s Hs. apply (inj Some) in Hs as <-. by apply matching_symbol_spec.
  - destruct (if any_symbol_available _ then _ else _) as [err|[[o v] symbol]] eqn:Escan.
    + intros Hptr. destruct (Hsdk Hptr) as (Hle & Hal & Hread & Hsource). by split_and!.
    + intros Hptr. destruct (any_symbol_available _); [|done].
      apply scan_member_spec in Escan as (Hle & Hal & Hread & Hv & Ha); [|done].
      split_and!; try done. intros s Hs. apply (inj Some) in Hs as <-. by split.
Qed.

(** The offsets that are kept are within their limits. *)
Lemma load_offsets_valid offsets file_source ioctl_source :
  load_offsets = inr (offsets, file_source, ioctl_source) ->
  (file_source = SourceSdk -> valid_member_offset (file_f_op offsets) kMaxFileMemberScan = true) /\
  (ioctl_source = SourceSdk ->
   valid_member_offset (fops_unlocked_ioctl offsets) kMaxFopsMemberScan = true).
Proof.
  assert (Hopt : forall answer limit offset, optional_offset answer limit = (offset, SourceSdk) ->
    valid_member_offset offset limit = true).
  { intros [err o] limit offset. unfold optional_offset. destruct (is_ok err); cbn [andb]; [|done].
    destruct (valid_member_offset o limit) eqn:Ev; [|done]. by intros [= <-]. }
  unfold load_offsets. destruct (required_offset _) as [|files]; [done|].
  destruct (required_offset _) as [|fdt]; [done|]. destruct (required_offset _) as [|fd]; [done|].
  destruct (optional_offset get_file_f_op_offset _) as [f_op source1] eqn:E1.
  destruct (optional_offset get_file_operations_unlocked_ioctl_offset _) as [ioctl source2] eqn:E2.
  intros Hres. apply (inj inr) in Hres. apply (inj2 pair) in Hres as [Hres <-].
  apply (inj2 pair) in Hres as [<- <-]. cbn.
  split; intros ->; eapply Hopt; eassumption.
Qed.

Lemma contradicts_false names m base limit backend :
  live_member base limit names m ->
  contradicts (resolve_symbols names) (mb_match m) backend = false ->
  forall s, visible names s -> sy_backend s = backend ->
  exists s', visible names s' /\ sy_backend s' = backend /\ sy_address s' = mb_value m.
Proof.
  intros (_ & _ & _ & _ & _ & Htied) Hno s [Hin Ha] Hb. unfold contradicts in Hno.
  assert (Hex : backend_symbol_available (resolve_symbols names) backend = true).
  { apply existsb_exists. exists s. split; [by apply list_elem_of_In|].
    rewrite Ha. by apply bool_decide_eq_true. }
  rewrite Hex in Hno. cbn [andb] in Hno. destruct (mb_match m) as [s'|]; [|done].
  apply negb_false_iff, bool_decide_eq_true in Hno. destruct (Htied s' eq_refl) as [Hv Haddr].
  by exists s'.
Qed.

Lemma resolve_file_spec fd offsets file :
  resolve_file_from_current_fd fd offsets = inr file ->
  0 <= fd <= 4095 /\ file = walk_fd fd offsets /\ is_kernel_pointer file = true.
Proof.
  unfold resolve_file_from_current_fd. destruct (_ || _) eqn:Efd; [done|].
  destruct asm_failed; [done|]. destruct (is_failed _); [done|].
  destruct (is_kernel_pointer _) eqn:Eptr; [|done]. intros Hres. apply (inj inr) in Hres as <-.
  rewrite orb_false_iff, !Z.ltb_ge in Efd. split_and!; try done; lia.
Qed.

(** What every resolution went through. *)
Lemma resolve_inv fd out :
  resolve_binder_ioctl_from_fd fd = inr out ->
  exists offsets file fops ioctl words semantics,
    out = resolution_of fd file offsets fops ioctl words semantics /\
    resolve_file_from_current_fd fd offsets = inr file /\
    live_member file kMaxFileMemberScan fops_symbol_names fops /\
    live_member (mb_value fops) kMaxFopsMemberScan ioctl_symbol_names ioctl /\
    br_backend out <> BackendUnknown /\
    contradicts (resolve_symbols fops_symbol_names) (mb_match fops) (br_backend out) = false /\
    contradicts (resolve_symbols ioctl_symbol_names) (mb_match ioctl) (br_backend out) = false /\
    address_in_core_text (mb_value ioctl) = true /\
    read_entry_words (mb_value ioctl) = (OK, words) /\
    classify_hookable_entry (mb_value ioctl) words = Some semantics.
Proof.
  unfold resolve_binder_ioctl_from_fd.
  destruct load_offsets as [|[[offsets file_source] ioctl_source]] eqn:Eoffsets; [done|].
  apply load_offsets_valid in Eoffsets as [Hfile Hioctl].
  destruct (resolve_file_from_current_fd fd offsets) as [|file] eqn:Efile; [done|].
  cbv zeta. set (fops := locate_member file _ _ _ _).
  destruct (is_kernel_pointer (mb_value fops)) eqn:Efops; [|done]. cbn [negb].
  pose proof (locate_member_live file _ _ _ fops_symbol_names Hfile ltac:(done) Efops) as Hfops.
  fold fops in Hfops. set (ioctl := locate_member (mb_value fops) _ _ _ _).
  destruct (is_kernel_pointer (mb_value ioctl)) eqn:Eioctl; [|done]. cbn [negb].
  pose proof (locate_member_live (mb_value fops) _ _ _ ioctl_symbol_names Hioctl ltac:(done) Eioctl)
    as Hio. fold ioctl in Hio. clearbody fops ioctl.
  destruct (compatible_symbol_backends _ _); [|done]. cbn [negb].
  destruct (_ || bool_decide (matched_backend _ _ = BackendUnknown)) eqn:Eunknown; [done|].
  apply orb_false_iff in Eunknown as [_ Eunknown]. apply bool_decide_eq_false in Eunknown.
  destruct (_ || _) eqn:Econtra; [done|]. apply orb_false_iff in Econtra as [Econf Econi].
  destruct (_ || _) eqn:Etext; [done|]. apply orb_false_iff in Etext as [_ Etext].
  apply negb_false_iff in Etext.
  destruct (read_entry_words (mb_value ioctl)) as [read_err words] eqn:Eread.
  destruct (is_failed read_err) eqn:Eerr; [done|]. apply is_failed_false in Eerr as ->.
  destruct (classify_hookable_entry _ _) as [semantics|] eqn:Eclass; [|done].
  intros Hout. apply (inj inr) in Hout as <-.
  exists offsets, file, fops, ioctl, words, semantics. by split_and!.
Qed.

(** The parts of a resolution that the status record stores. *)
Lemma resolved_status fd out :
  resolve_binder_ioctl_from_fd fd = inr out ->
  has_required_binder_capabilities out = true /\
  br_file_f_op_source out <> SourceUnknown /\ br_fops_unlocked_ioctl_source out <> SourceUnknown /\
  br_capabilities out = kRequiredBinderCapabilities /\
  br_entry_fingerprint out = fnv1a64 (concat (le_enc 4 <$> br_entry_words out)) /\
  0 <= br_symbol_validations out < 2 ^ 4 /\
  classify_hookable_entry (br_ioctl_kaddr out) (br_entry_words out) = Some (br_entry_semantics out).
Proof.
  intros Hout. apply resolve_inv in Hout as (offsets & file & fops & ioctl & words & semantics & -> &
    Hfile & Hfops & Hio & Hknown & _ & _ & _ & _ & Hclass).
  apply resolve_file_spec in Hfile as (_ & _ & Hptr).
  assert (Hbits : forall base limit names m, live_member base limit names m ->
    Forall (fun n : string * BinderBackend * Z => 0 <= n.2 < 2 ^ 4) names ->
    0 <= validation_bits (mb_match m) < 2 ^ 4).
  { intros base limit names m (_ & _ & _ & _ & _ & Htied) Hn. unfold validation_bits.
    destruct (mb_match m) as [s|]; [|done]. destruct (Htied s eq_refl) as [[Hin _] _].
    unfold resolve_symbols in Hin. apply list_elem_of_fmap in Hin as (n & -> & Hin).
    eapply Forall_forall in Hn; [|exact Hin]. by destruct (kallsyms_lookup_name n.1.1). }
  split.
  { unfold has_required_binder_capabilities. rewrite (bool_decide_eq_false_2 _ Hknown).
    cbn -[capabilities_of kRequiredBinderCapabilities]. rewrite Hptr.
    destruct Hfops as [-> _]. destruct Hio as [-> _]. reflexivity. }
  split; [by apply Hfops|]. split; [by apply Hio|]. split; [reflexivity|]. split; [reflexivity|].
  split; [|exact Hclass]. apply lor_range; [done|..].
  - apply (Hbits _ _ _ _ Hfops). by repeat constructor.
  - apply (Hbits _ _ _ _ Hio). by repeat constructor.
Qed.

(** * Properties *)

(** C35: a resolution is the driver's: the file is what the walk finds under the
    descriptor, the operations and the ioctl are live pointers read from it at aligned
    offsets within the scan limits; a visible binder symbol of the reported backend has
    the address of one of the two, and where the kernel shows symbols of that backend
    for a table, the table's pointer is one of them; the ioctl lies in the kernel's core
    text, its entry was classified as hookable, and every capability is reported. *)
Theorem resolution_sound fd out :
  resolve_binder_ioctl_from_fd fd = inr out ->
  0 <= fd <= 4095 /\ br_file_kaddr out = walk_fd fd (br_offsets out) /\
  has_required_binder_capabilities out = true /\
  (exists fops ioctl,
     live_member (br_file_kaddr out) kMaxFileMemberScan fops_symbol_names fops /\
     live_member (br_fops_kaddr out) kMaxFopsMemberScan ioctl_symbol_names ioctl /\
     mb_value fops = br_fops_kaddr out /\ mb_value ioctl = br_ioctl_kaddr out /\
     mb_offset fops = file_f_op (br_offsets out) /\
     mb_offset ioctl = fops_unlocked_ioctl (br_offsets out)) /\
  (exists s, sy_backend s = br_backend out /\
     ((visible fops_symbol_names s /\ sy_address s = br_fops_kaddr out) \/
      (visible ioctl_symbol_names s /\ sy_address s = br_ioctl_kaddr out))) /\
  (forall s, visible fops_symbol_names s -> sy_backend s = br_backend out ->
     exists s', visible fops_symbol_names s' /\ sy_backend s' = br_backend out /\
       sy_address s' = br_fops_kaddr out) /\
  (forall s, visible ioctl_symbol_names s -> sy_backend s = br_backend out ->
     exists s', visible ioctl_symbol_names s' /\ sy_backend s' = br_backend out /\
       sy_address s' = br_ioctl_kaddr out) /\
  in_core_text (br_ioctl_kaddr out) /\
  read_entry_words (br_ioctl_kaddr out) = (OK, br_entry_words out) /\
  classify_hookable_entry (br_ioctl_kaddr out) (br_entry_words out) = Some (br_entry_semantics out).
Proof.
  intros Hout. pose proof (resolved_status fd out Hout) as (Hcap & _).
  apply resolve_inv in Hout as (offsets & file & fops & ioctl & words & semantics & -> &
    Hfile & Hfops & Hio & Hknown & Hconf & Hconi & Htext & Hread & Hclass).
  apply resolve_file_spec in Hfile as (Hfd & Hwalk & _).
  split; [exact Hfd|]. split; [exact Hwalk|]. split; [exact Hcap|].
  split; [by exists fops, ioctl|]. split.
  { cbn [br_backend resolution_of br_fops_kaddr br_ioctl_kaddr] in *. unfold matched_backend in *.
    destruct (mb_match ioctl) as [s|] eqn:Ei.
    - exists s. split; [done|right]. by apply Hio.
    - destruct (mb_match fops) as [s|] eqn:Ef; [|done]. exists s. split; [done|left]. by apply Hfops. }
  split; [by eapply contradicts_false|]. split; [by eapply contradicts_false|].
  split; [by apply address_in_core_text_spec|]. by split.
Qed.

End ResolveFacts.

(** * A concrete kernel

    The SDK's offset of [file.f_op] is off by eight; the scan finds the member. *)

Definition demo_file : Z := 0xffffff8001000000.
Definition demo_fops : Z := 0xffffffc008f00000.
Definition demo_ioctl : Z := 0xffffffc008010000.

Definition demo_kernel_text : KernelText := {|
  kallsyms_lookup_name name :=
    if bool_decide (name = "_stext") then (OK, 0xffffffc008000000)
    else if bool_decide (name = "_etext") then (OK, 0xffffffc008e00000)
    else if bool_decide (name = "binder_fops") then (OK, demo_fops)
    else if bool_decide (name = "binder_ioctl") then (OK, demo_ioctl)
    else (ERR_MODULE_SDK 3, 0);
  read_entry_words address := (OK, demo_function) |}.

#[local] Instance demo_probe : KernelProbe := {|
  probe_text := demo_kernel_text;
  get_task_struct_files_offset := (OK, 0x800);
  get_file_struct_fdt_offset := (OK, 0x20);
  get_fdtable_fd_offset := (OK, 8);
  get_file_f_op_offset := (OK, 0x20);
  get_file_operations_unlocked_ioctl_offset := (OK, 0x48);
  read_kernel_mem_atomic64 a :=
    (OK, if a =? demo_file + 0x28 then demo_fops
         else if a =? demo_fops + 0x48 then demo_ioctl else 0);
  asm_failed := false;
  execute_kernel_asm_func := OK;
  current_task := 0x1000;
  kernel_load a :=
    if a =? 0x1800 then 0x2000 else if a =? 0x2020 then 0x3000 else if a =? 0x3008 then 0x4000
    else if a =? 0x4028 then demo_file else 0 |}.

Definition demo_resolution : BinderIoctlResolution := {|
  br_binder_fd := 5; br_file_kaddr := demo_file; br_fops_kaddr := demo_fops;
  br_ioctl_kaddr := demo_ioctl;
  br_offsets := {| task_files := 0x800; files_fdt := 0x20; fdtable_fd := 8; file_f_op := 0x28;
                   fops_unlocked_ioctl := 0x48 |};
  br_file_f_op_source := SourceSymbolScan; br_fops_unlocked_ioctl_source := SourceSdk;
  br_entry_words := demo_function;
  br_entry_fingerprint := fnv1a64 (concat (le_enc 4 <$> demo_function));
  br_capabilities := 0x3ff; br_entry_semantics := 0x13e; br_symbol_validations := 3;
  br_backend := BackendClassic |}.

Lemma demo_resolved : resolve_binder_ioctl_from_fd 5 = inr demo_resolution.
Proof. vm_compute. reflexivity. Qed.

Lemma resolution_sound_witness :
  has_required_binder_capabilities demo_resolution = true /\ in_core_text demo_ioctl.
Proof.
  destruct (resolution_sound 5 demo_resolution demo_resolved)
    as (_ & _ & Hcap & _ & _ & _ & _ & Htext & _).
  split; [exact Hcap|exact Htext].
Defined.
