(* ===== verification/Release.v ===== *)
(** The platform gate (binder_ioctl_resolver.cpp): which kernel releases are taken,
    against the grammar of such releases. *)

From S2P Require Import Prelude HalIdentity.

(** The code walks an index through the string; here the rest of the string is walked. *)

(** src/binder_ioctl_resolver.cpp:649-657 [is_supported_linux_6_1_or_newer] *)
Fixpoint parse_digits (digits : nat) (value : Z) (s : string) : option (Z * string) :=
  match s with
  | String c s' =>
      match digit_of c with
      | Some d => if Nat.leb 3 digits then None else parse_digits (S digits) (u32 (value * 10 + d)) s'
      | None => Some (value, s)
      end
  | EmptyString => Some (value, s)
  end.

(** src/binder_ioctl_resolver.cpp:644-659 [is_supported_linux_6_1_or_newer] *)
Definition parse_component (s : string) : option (Z * string) :=
  match s with
  | String c _ => if bool_decide (is_Some (digit_of c)) then parse_digits 0 0 s else None
  | EmptyString => None
  end.

Definition is_char (n : nat) (c : Ascii.ascii) : bool := Nat.eqb (Ascii.nat_of_ascii c) n.
Definition dot : Ascii.ascii := Ascii.ascii_of_nat 46.

(** Components for as long as a dot follows. *)

(** src/binder_ioctl_resolver.cpp:672-678 [is_supported_linux_6_1_or_newer] *)
Fixpoint parse_more (fuel : nat) (s : string) : option string :=
  match fuel, s with
  | S fuel, String c s' =>
      if is_char 46 c then
        match parse_component s' with
        | Some (_, rest) => parse_more fuel rest
        | None => None
        end
      else Some s
  | _, _ => Some s
  end.

(** src/binder_ioctl_resolver.cpp:683-690 [is_supported_linux_6_1_or_newer] *)
Definition suffix_char (c : Ascii.ascii) : bool :=
  let n := Ascii.nat_of_ascii c in
  (Nat.leb 48 n && Nat.leb n 57) || (Nat.leb 65 n && Nat.leb n 90) || (Nat.leb 97 n && Nat.leb n 122) ||
  is_char 46 c || is_char 95 c || is_char 45 c || is_char 43 c.

Fixpoint all_chars (p : Ascii.ascii -> bool) (s : string) : bool :=
  match s with
  | EmptyString => true
  | String c s => p c && all_chars p s
  end.

(** src/binder_ioctl_resolver.cpp:679-691 [is_supported_linux_6_1_or_newer] *)
Definition valid_suffix (s : string) : bool :=
  match s with
  | EmptyString => true
  | String c EmptyString => false
  | String c s => (is_char 45 c || is_char 43 c) && all_chars suffix_char s
  end.

(** src/binder_ioctl_resolver.cpp:642-693 [is_supported_linux_6_1_or_newer] *)
Definition is_supported_linux_6_1_or_newer (release : string) : bool :=
  match parse_component release with
  | Some (major, String c rest) =>
      if negb (is_char 46 c) then false
      else match parse_component rest with
      | None => false
      | Some (minor, rest) =>
          if negb (major =? 6) || (minor <? 1) then false
          else match parse_more (String.length rest) rest with
          | None => false
          | Some rest => valid_suffix rest
          end
      end
  | _ => false
  end.

(** * The grammar *)

(** One to three digits, and their number. *)
Definition component (s : string) : Prop :=
  all_digits s = true /\ (1 <= String.length s <= 3)%nat.

Fixpoint dotted (components : list string) : string :=
  match components with
  | [] => EmptyString
  | c :: components => String dot (c +:+ dotted components)
  end.

(** [6.1], [6.1.25], [6.6.30-android15-8-g0123], [6.12.0+]: a major number 6, a minor of
    at least 1, any further components, and an optional suffix behind a [-] or a [+]. *)
Definition supported_release (s : string) : Prop :=
  exists major minor more suffix,
    s = major +:+ dotted (minor :: more) +:+ suffix /\
    component major /\ decimal 0 major = 6 /\ component minor /\ 1 <= decimal 0 minor /\
    Forall component more /\ valid_suffix suffix = true.

(** * Components *)

Definition digit_head (s : string) : Prop :=
  match s with String c _ => is_Some (digit_of c) | EmptyString => False end.

Lemma decimal_app value a s :
  all_digits a = true -> decimal value (a +:+ s) = decimal (decimal value a) s.
Proof.
  revert value. induction a as [|c a IH]; intros value Ha; [done|].
  change (String c a +:+ s) with (String c (a +:+ s)). cbn [decimal all_digits] in *.
  apply andb_true_iff in Ha as [Hc Ha]. apply bool_decide_eq_true in Hc as [d Hd].
  rewrite Hd. by apply IH.
Qed.

Lemma nil_app s : EmptyString +:+ s = s.
Proof. reflexivity. Qed.

Lemma cons_app c s k : String c s +:+ k = String c (s +:+ k).
Proof. reflexivity. Qed.

Lemma digit_range c d : digit_of c = Some d -> 0 <= d <= 9.
Proof.
  unfold digit_of. destruct (_ && _) eqn:E; [|done]. intros [= <-].
  apply andb_true_iff in E as [H1 H2]. apply Z.leb_le in H1, H2. lia.
Qed.

Lemma parse_digits_spec digits value s v rest :
  (digits <= 3)%nat -> 0 <= value < 10 ^ Z.of_nat digits ->
  parse_digits digits value s = Some (v, rest) <->
  exists c, s = c +:+ rest /\ all_digits c = true /\ (digits + String.length c <= 3)%nat /\
    v = decimal value c /\ ~ digit_head rest.
Proof.
  revert digits value v. induction s as [|a s IH]; intros digits value v Hd Hv; cbn [parse_digits].
  - split.
    + intros Hres. apply (inj Some), (inj2 pair) in Hres as [<- <-]. exists EmptyString.
      split_and!; try done; [cbn; lia|by intros []].
    + intros (c & Hs & _ & _ & -> & _). by destruct c, rest.
  - destruct (digit_of a) as [d|] eqn:Ed.
    + pose proof (digit_range _ _ Ed) as Hr. split.
      * destruct (Nat.leb_spec 3 digits) as [|Hlt]; [done|]. intros Hres.
        assert (Hp : 10 ^ Z.of_nat (S digits) = 10 * 10 ^ Z.of_nat digits)
          by (rewrite Nat2Z.inj_succ, Z.pow_succ_r; lia).
        assert (Hbound : 10 ^ Z.of_nat (S digits) <= 10 ^ 3) by (apply Z.pow_le_mono_r; lia).
        rewrite u32_small in Hres by lia.
        apply (proj1 (IH (S digits) (value * 10 + d) _ ltac:(lia) ltac:(lia))) in Hres
          as (c & -> & Hc & Hl & -> & Hrest).
        exists (String a c). cbn [all_digits String.length decimal]. rewrite Ed, Hc.
        split; [done|]. split; [reflexivity|]. split; [lia|]. split; [|exact Hrest].
        f_equal. lia.
      * intros (c & Hs & Hc & Hl & -> & Hrest). destruct c as [|b c]; rewrite ?nil_app, ?cons_app in Hs.
        { subst rest. exfalso. apply Hrest. cbn. by rewrite Ed. }
        injection Hs as <- ->. cbn in Hc, Hl. apply andb_true_iff in Hc as [_ Hc].
        destruct (Nat.leb_spec 3 digits) as [|Hlt]; [lia|]. cbn [decimal]. rewrite Ed.
        assert (Hp : 10 ^ Z.of_nat (S digits) = 10 * 10 ^ Z.of_nat digits)
          by (rewrite Nat2Z.inj_succ, Z.pow_succ_r; lia).
        assert (Hbound : 10 ^ Z.of_nat (S digits) <= 10 ^ 3) by (apply Z.pow_le_mono_r; lia).
        rewrite u32_small by lia. replace (10 * value + d) with (value * 10 + d) by lia.
        apply (proj2 (IH (S digits) (value * 10 + d) _ ltac:(lia) ltac:(lia))).
        exists c. split_and!; try done. lia.
    + split.
      * intros Hres. apply (inj Some), (inj2 pair) in Hres as [<- <-]. exists EmptyString.
        split_and!; try done; [cbn; lia|]. cbn. rewrite Ed. by intros [].
      * intros (c & Hs & Hc & _ & -> & Hrest). destruct c as [|b c]; rewrite ?nil_app, ?cons_app in Hs; [by subst|].
        injection Hs as <- ->. cbn in Hc. rewrite Ed in Hc. by rewrite bool_decide_eq_false_2 in Hc by (by intros []).
Qed.

Lemma parse_component_spec s v rest :
  parse_component s = Some (v, rest) <->
  exists c, s = c +:+ rest /\ component c /\ v = decimal 0 c /\ ~ digit_head rest.
Proof.
  unfold parse_component. destruct s as [|a s].
  - split; [done|]. intros (c & Hs & [_ Hl] & _). destruct c; [cbn in Hl; lia|done].
  - case_bool_decide as Ha.
    + rewrite parse_digits_spec by (cbn; lia). split.
      * intros (c & Hs & Hc & Hl & Hv & Hrest). exists c. split_and!; try done.
        split; [done|]. destruct c; [|cbn in *; lia]. rewrite nil_app in Hs. subst rest. by destruct Hrest.
      * intros (c & Hs & [Hc Hl] & Hv & Hrest). exists c. split_and!; try done. lia.
    + split; [done|]. intros (c & Hs & [Hc Hl] & _). destruct c as [|b c]; [cbn in Hl; lia|].
      rewrite cons_app in Hs. injection Hs as <- _. cbn in Hc. by rewrite bool_decide_eq_false_2 in Hc.
Qed.

(** * More components *)

Definition dot_head (s : string) : Prop :=
  match s with String c _ => c = dot | EmptyString => False end.

Lemma is_char_dot c : is_char 46 c = true <-> c = dot.
Proof.
  unfold is_char, dot. rewrite Nat.eqb_eq. split; [|intros ->; reflexivity].
  intros Hc. by rewrite <-(Ascii.ascii_nat_embedding c), Hc.
Qed.

Lemma string_app_length a b : String.length (a +:+ b) = (String.length a + String.length b)%nat.
Proof. induction a as [|c a IH]; [done|]. rewrite cons_app. cbn. by rewrite IH. Qed.

Lemma str_app_assoc a b c : (a +:+ b) +:+ c = a +:+ b +:+ c.
Proof. induction a as [|x a IH]; [done|]. rewrite !cons_app. by f_equal. Qed.

Lemma dotted_head more rest :
  ~ digit_head rest -> ~ digit_head (dotted more +:+ rest).
Proof. intros Hrest. destruct more as [|c more]; [done|]. cbn [dotted]. rewrite cons_app. by intros []. Qed.

Lemma component_app_length c k : component c -> (String.length k < String.length (c +:+ k))%nat.
Proof. intros [_ Hl]. rewrite string_app_length. lia. Qed.

Lemma parse_more_spec fuel s rest :
  (String.length s <= fuel)%nat -> ~ digit_head s ->
  parse_more fuel s = Some rest <->
  exists more, s = dotted more +:+ rest /\ Forall component more /\ ~ digit_head rest /\
    ~ dot_head rest.
Proof.
  revert s. induction fuel as [|fuel IH]; intros s Hf Hs.
  { destruct s; [|cbn in Hf; lia]. cbn. split.
    - intros Hres. apply (inj Some) in Hres as <-. exists []. by split_and!.
    - intros (more & Hm & _). destruct more as [|c more]; [|done]. cbn [dotted] in Hm.
      rewrite nil_app in Hm. by subst. }
  destruct s as [|a s]; cbn [parse_more].
  { split.
    - intros Hres. apply (inj Some) in Hres as <-. exists []. by split_and!.
    - intros (more & Hm & _). destruct more as [|c more]; [|done]. cbn [dotted] in Hm.
      rewrite nil_app in Hm. by subst. }
  destruct (is_char 46 a) eqn:Ea.
  - apply is_char_dot in Ea as ->. split.
    + destruct (parse_component s) as [[v s']|] eqn:Ec; [|done].
      apply parse_component_spec in Ec as (c & -> & Hc & _ & Hs').
      pose proof (component_app_length c s' Hc). cbn [String.length] in Hf.
      intros Hres. apply IH in Hres as (more & -> & Hmore & Hrest); [|lia|done].
      exists (c :: more). split; [|split; [by constructor|exact Hrest]].
      cbn [dotted]. by rewrite cons_app, str_app_assoc.
    + intros (more & Hm & Hmore & Hrest & Hdot). destruct more as [|c more].
      { cbn [dotted] in Hm. rewrite nil_app in Hm. subst rest. by destruct Hdot. }
      inversion Hmore as [|? ? Hc Hmore']; subst. cbn [dotted] in Hm.
      rewrite cons_app, str_app_assoc in Hm. injection Hm as ->.
      assert (Hparse : parse_component (c +:+ dotted more +:+ rest) =
        Some (decimal 0 c, dotted more +:+ rest)).
      { apply parse_component_spec. exists c. split_and!; try done. by apply dotted_head. }
      rewrite Hparse. pose proof (component_app_length c (dotted more +:+ rest) Hc).
      cbn [String.length] in Hf. apply IH; [lia|by apply dotted_head|]. by exists more.
  - assert (Hne : a <> dot) by (intros E; apply is_char_dot in E; congruence). split.
    + intros Hres. apply (inj Some) in Hres as <-. exists []. by split_and!.
    + intros (more & Hm & _). destruct more as [|c more].
      * cbn [dotted] in Hm. rewrite nil_app in Hm. by subst.
      * cbn [dotted] in Hm. rewrite cons_app in Hm. by injection Hm as -> _.
Qed.

Lemma suffix_head s : valid_suffix s = true -> ~ digit_head s /\ ~ dot_head s.
Proof.
  destruct s as [|c [|c' s]]; [by intros _; split; intros []|done|]. cbn [valid_suffix].
  intros Hs. apply andb_true_iff in Hs as [Hc _]. unfold is_char in Hc.
  rewrite orb_true_iff, !Nat.eqb_eq in Hc. unfold digit_head, dot_head, digit_of.
  split; intros Hd.
  - destruct Hc as [Hc|Hc]; rewrite Hc in Hd; by destruct Hd.
  - subst c. by destruct Hc.
Qed.

Lemma release_grammar release :
  is_supported_linux_6_1_or_newer release = true <-> supported_release release.
Proof.
  unfold is_supported_linux_6_1_or_newer, supported_release. split.
  - destruct (parse_component release) as [[major [|c rest]]|] eqn:Emajor; [done| |done].
    destruct (is_char 46 c) eqn:Edot; [|done]. apply is_char_dot in Edot as ->. cbn [negb].
    destruct (parse_component rest) as [[minor rest']|] eqn:Eminor; [|done].
    destruct (negb _ || _) eqn:Erange; [done|].
    destruct (parse_more _ _) as [suffix|] eqn:Emore; [|done]. intros Hsuffix.
    apply parse_component_spec in Emajor as (major_text & -> & Hmajor & -> & _).
    apply parse_component_spec in Eminor as (minor_text & -> & Hminor & -> & Hnd).
    apply parse_more_spec in Emore as (more & -> & Hmore & _); [|done|exact Hnd].
    rewrite orb_false_iff, negb_false_iff, Z.eqb_eq, Z.ltb_ge in Erange. destruct Erange as [H6 H1].
    exists major_text, minor_text, more, suffix.
    split; [|by split_and!]. cbn [dotted]. by rewrite cons_app, str_app_assoc.
  - intros (major & minor & more & suffix & -> & Hmajor & H6 & Hminor & H1 & Hmore & Hsuffix).
    destruct (suffix_head _ Hsuffix) as [Hnd Hdot].
    cbn [dotted]. rewrite cons_app, str_app_assoc.
    assert (E1 : parse_component (major +:+ String dot (minor +:+ dotted more +:+ suffix)) =
      Some (6, String dot (minor +:+ dotted more +:+ suffix))).
    { apply parse_component_spec. exists major. split_and!; try done. by intros []. }
    assert (E2 : parse_component (minor +:+ dotted more +:+ suffix) =
      Some (decimal 0 minor, dotted more +:+ suffix)).
    { apply parse_component_spec. exists minor. split_and!; try done. by apply dotted_head. }
    assert (E3 : parse_more (String.length (dotted more +:+ suffix)) (dotted more +:+ suffix) =
      Some suffix).
    { apply parse_more_spec; [done|by apply dotted_head|]. by exists more. }
    rewrite E1. change (is_char 46 dot) with true. cbn [negb]. rewrite E2, E3.
    rewrite (proj2 (Z.ltb_ge _ _) H1). exact Hsuffix.
Qed.

(** the platform gate takes exactly the releases of the grammar: a major number of
    6, a minor number of at least 1, further numbers of up to three digits, and an
    optional suffix of letters, digits and the four marks, not empty, behind a minus or
    a plus.  Nothing malformed passes. *)
Lemma supported_release_exact release :
  is_supported_linux_6_1_or_newer release = true <-> supported_release release.
Proof. apply release_grammar. Qed.

(** A newer major number does not pass. *)
Lemma major_seven_refused : is_supported_linux_6_1_or_newer "7.0.0" = false.
Proof. reflexivity. Qed.
Example android_release_taken : is_supported_linux_6_1_or_newer "6.12.23-android16-5-g3a" = true.
Proof. reflexivity. Qed.
