(* ===== verification/CapabilityRecord.v ===== *)
(** The capability status the daemon leaves for the web interface
    (binder_ioctl_resolver.cpp): its record, its validation, and its file. *)

From S2P Require Import Prelude Checksum Posix AtomicFile Records RuntimeControl HookSite Resolver HalIdentity Release.

(** src/binder_ioctl_resolver.cpp:29-30 [kCapabilityRecordMagic] *)
Definition kCapabilityRecordMagic : Z := 0x31325041434d5244.
(** src/binder_ioctl_resolver.cpp:31-31 [kCapabilityRecordVersion] *)
Definition kCapabilityRecordVersion : Z := 1.

(** src/binder_ioctl_resolver.cpp:33-49 [BinderCapabilityRecordV1] *)
Record BinderCapabilityRecordV1 := {
  cp_magic : Z;
  cp_version : Z;
  cp_record_size : Z;
  cp_capabilities : Z;
  cp_entry_fingerprint : Z;
  cp_backend : Z;
  cp_file_f_op_source : Z;
  cp_fops_unlocked_ioctl_source : Z;
  cp_symbol_validations : Z;
  cp_entry_semantics : Z;
  cp_reserved0 : Z;
  cp_kernel_release : list Z;
  cp_resolver_source : list Z;
  cp_crc32 : Z;
  cp_reserved1 : Z;
}.

#[global] Instance Capability_layout : Layout BinderCapabilityRecordV1 := {|
  size_of := 160;
  bytes_of r :=
    le_enc 8 (cp_magic r) ++ le_enc 4 (cp_version r) ++ le_enc 4 (cp_record_size r) ++
    le_enc 8 (cp_capabilities r) ++ le_enc 8 (cp_entry_fingerprint r) ++ le_enc 4 (cp_backend r) ++
    le_enc 4 (cp_file_f_op_source r) ++ le_enc 4 (cp_fops_unlocked_ioctl_source r) ++
    le_enc 4 (cp_symbol_validations r) ++ le_enc 4 (cp_entry_semantics r) ++
    le_enc 4 (cp_reserved0 r) ++ cp_kernel_release r ++ cp_resolver_source r ++
    le_enc 4 (cp_crc32 r) ++ le_enc 4 (cp_reserved1 r);
  of_bytes l := {|
    cp_magic := word_at 8 0 l; cp_version := word_at 4 8 l; cp_record_size := word_at 4 12 l;
    cp_capabilities := word_at 8 16 l; cp_entry_fingerprint := word_at 8 24 l;
    cp_backend := word_at 4 32 l; cp_file_f_op_source := word_at 4 36 l;
    cp_fops_unlocked_ioctl_source := word_at 4 40 l; cp_symbol_validations := word_at 4 44 l;
    cp_entry_semantics := word_at 4 48 l; cp_reserved0 := word_at 4 52 l;
    cp_kernel_release := slice 56 64 l; cp_resolver_source := slice 120 32 l;
    cp_crc32 := word_at 4 152 l; cp_reserved1 := word_at 4 156 l |};
  in_range r :=
    word_ok 8 (cp_magic r) /\ word_ok 4 (cp_version r) /\ word_ok 4 (cp_record_size r) /\
    word_ok 8 (cp_capabilities r) /\ word_ok 8 (cp_entry_fingerprint r) /\
    word_ok 4 (cp_backend r) /\ word_ok 4 (cp_file_f_op_source r) /\
    word_ok 4 (cp_fops_unlocked_ioctl_source r) /\ word_ok 4 (cp_symbol_validations r) /\
    word_ok 4 (cp_entry_semantics r) /\ word_ok 4 (cp_reserved0 r) /\
    length (cp_kernel_release r) = 64%nat /\ bytes_ok (cp_kernel_release r) /\
    length (cp_resolver_source r) = 32%nat /\ bytes_ok (cp_resolver_source r) /\
    word_ok 4 (cp_crc32 r) /\ word_ok 4 (cp_reserved1 r)
|}.

#[global] Instance Capability_laws : LayoutLaws BinderCapabilityRecordV1.
Proof.
  split; cbn.
  - intros r Hr. destruct_and! Hr. rewrite !length_app, !le_enc_length. lia.
  - intros r Hr. destruct_and! Hr. unfold bytes_ok in *. rewrite !Forall_app.
    split_and!; (done || apply le_enc_bytes_ok).
  - intros [] Hr. cbn in *. destruct_and! Hr. unfold word_ok in *. f_equal; read_field.
  - intros l Hl Hok. join_fields.
  - intros l Hl Hok. unfold word_ok. split_and!; field_range.
Qed.

Definition backend_num (b : BinderBackend) : Z :=
  match b with BackendUnknown => 0 | BackendClassic => 1 | BackendRust => 2 end.
Definition source_num (s : BinderOffsetSource) : Z :=
  match s with SourceUnknown => 0 | SourceSdk => 1 | SourceSymbolScan => 2 end.
Definition backend_of (n : Z) : BinderBackend :=
  if n =? 1 then BackendClassic else if n =? 2 then BackendRust else BackendUnknown.
Definition source_of (n : Z) : BinderOffsetSource :=
  if n =? 1 then SourceSdk else if n =? 2 then SourceSymbolScan else SourceUnknown.

(** src/binder_ioctl_resolver.cpp:136-141 [valid_kernel_release_text] *)
Definition release_byte (ch : Z) : bool :=
  (ch =? 46) || (ch =? 45) || (ch =? 95) || (ch =? 43) || ((48 <=? ch) && (ch <=? 57)) ||
  ((65 <=? ch) && (ch <=? 90)) || ((97 <=? ch) && (ch <=? 122)).

(** src/binder_ioctl_resolver.cpp:129-143 [valid_kernel_release_text] *)
Fixpoint terminated_text (text : list Z) : bool :=
  match text with
  | [] => false
  | ch :: text => if ch =? 0 then true else release_byte ch && terminated_text text
  end.

(** src/binder_ioctl_resolver.cpp:128-144 [valid_kernel_release_text] *)
Definition valid_kernel_release_text (text : list Z) : bool :=
  terminated_text text && negb (nth 0 text 0 =? 0).

(** src/binder_ioctl_resolver.cpp:582-604 [valid_record] *)
Definition valid_record (record : BinderCapabilityRecordV1) : bool :=
  (cp_magic record =? kCapabilityRecordMagic) && (cp_version record =? kCapabilityRecordVersion) &&
  (cp_record_size record =? 160) &&
  negb (cp_backend record =? backend_num BackendUnknown) &&
  (cp_backend record <=? backend_num BackendRust) &&
  negb (cp_file_f_op_source record =? source_num SourceUnknown) &&
  (cp_file_f_op_source record <=? source_num SourceSymbolScan) &&
  negb (cp_fops_unlocked_ioctl_source record =? source_num SourceUnknown) &&
  (cp_fops_unlocked_ioctl_source record <=? source_num SourceSymbolScan) &&
  negb (cp_entry_fingerprint record =? 0) &&
  (Z.land (cp_capabilities record) kRequiredBinderCapabilities =? kRequiredBinderCapabilities) &&
  (cp_reserved0 record =? 0) && (cp_reserved1 record =? 0) &&
  valid_kernel_release_text (cp_kernel_release record) &&
  (cp_crc32 record =? crc32 (take 152 (bytes_of record))).

#[global] Arguments valid_record : simpl never.

(** src/binder_ioctl_resolver.cpp:632-640 [binder_resolution_source_name] *)
Definition binder_resolution_source_name (resolution : BinderIoctlResolution) : string :=
  if bool_decide (br_file_f_op_source resolution = SourceSymbolScan) ||
     bool_decide (br_fops_unlocked_ioctl_source resolution = SourceSymbolScan)
  then "fd+sdk+symbol-scan" else "fd+sdk+symbol-check".

(** A string in a cleared array of [n] bytes. *)
Definition text_field (n : nat) (s : string) : list Z :=
  bytes_of_string s ++ replicate (n - String.length s) 0.

(** src/binder_ioctl_resolver.cpp:872-893 [write_binder_capability_status] *)
Definition make_capability_record (kernel_release : string) (resolution : BinderIoctlResolution)
    : BinderCapabilityRecordV1 :=
  let record crc := {|
    cp_magic := kCapabilityRecordMagic; cp_version := kCapabilityRecordVersion;
    cp_record_size := 160; cp_capabilities := br_capabilities resolution;
    cp_entry_fingerprint := br_entry_fingerprint resolution;
    cp_backend := backend_num (br_backend resolution);
    cp_file_f_op_source := source_num (br_file_f_op_source resolution);
    cp_fops_unlocked_ioctl_source := source_num (br_fops_unlocked_ioctl_source resolution);
    cp_symbol_validations := br_symbol_validations resolution;
    cp_entry_semantics := br_entry_semantics resolution; cp_reserved0 := 0;
    cp_kernel_release := text_field 64 kernel_release;
    cp_resolver_source := text_field 32 (binder_resolution_source_name resolution);
    cp_crc32 := crc; cp_reserved1 := 0 |} in
  record (crc32 (take 152 (bytes_of (record 0)))).

(** src/binder_ioctl_resolver.h:93-103 [BinderCapabilityStatus] *)
Record BinderCapabilityStatus := {
  bs_kernel_release : list Z;
  bs_backend : BinderBackend;
  bs_file_f_op_source : BinderOffsetSource;
  bs_fops_unlocked_ioctl_source : BinderOffsetSource;
  bs_capabilities : Z;
  bs_entry_fingerprint : Z;
  bs_entry_semantics : Z;
  bs_symbol_validations : Z;
}.

Definition empty_status : BinderCapabilityStatus := {|
  bs_kernel_release := []; bs_backend := BackendUnknown; bs_file_f_op_source := SourceUnknown;
  bs_fops_unlocked_ioctl_source := SourceUnknown; bs_capabilities := 0; bs_entry_fingerprint := 0;
  bs_entry_semantics := 0; bs_symbol_validations := 0 |}.

(** The C string at the head of an array. *)
Fixpoint c_string (text : list Z) : list Z :=
  match text with
  | [] => []
  | ch :: text => if ch =? 0 then [] else ch :: c_string text
  end.

(** src/binder_ioctl_resolver.cpp:938-947 [read_binder_capability_status] *)
Definition status_of (record : BinderCapabilityRecordV1) : BinderCapabilityStatus := {|
  bs_kernel_release := c_string (cp_kernel_release record);
  bs_backend := backend_of (cp_backend record);
  bs_file_f_op_source := source_of (cp_file_f_op_source record);
  bs_fops_unlocked_ioctl_source := source_of (cp_fops_unlocked_ioctl_source record);
  bs_capabilities := cp_capabilities record; bs_entry_fingerprint := cp_entry_fingerprint record;
  bs_entry_semantics := cp_entry_semantics record;
  bs_symbol_validations := cp_symbol_validations record |}.

(** src/binder_ioctl_resolver.cpp:853-861 [default_binder_capability_path] *)
Definition default_binder_capability_path (module_private_dir : option string) : string :=
  match module_private_dir with
  | None | Some EmptyString => EmptyString
  | Some dir =>
      (if Nat.eqb (after_last_slash dir 0 0) (String.length dir) then dir else dir +:+ "/")
      +:+ "drmid_binder_capability_v1.bin"
  end.

Section Operations.
Context `{OperatingSystem}.
Context (fuel : nat).

(** src/binder_ioctl_resolver.cpp:863-918 [write_binder_capability_status] *)
Definition write_binder_capability_status (path : option string) (kernel_release : string)
    (resolution : BinderIoctlResolution) : io KModErr :=
  match c_path path with
  | None => mret ERR_MODULE_PARAM
  | Some path =>
      if bool_decide (kernel_release = EmptyString) || Nat.leb 64 (String.length kernel_release) ||
         negb (has_required_binder_capabilities resolution)
      then mret ERR_MODULE_PARAM
      else
        let record := make_capability_record kernel_release resolution in
        let temporary := path +:+ ".tmp" in
        fd ← sys_open_write false temporary;
        if negb fd then mret ERR_MODULE_STORAGE_WRITE
        else
          written ← write_loop fuel temporary (bytes_of record);
          ok ← (if (written : bool) then io_and sys_ok sys_ok else mret false);
          closed ← sys_ok;
          renamed ← (if negb ok || negb closed then mret false else sys_rename temporary path);
          if negb renamed then _ ← sys_unlink temporary; mret ERR_MODULE_STORAGE_WRITE
          else
            directory_fd ← sys_open_directory (directory_of path);
            (if (directory_fd : bool) then _ ← sys_ok; _ ← sys_ok; mret OK else mret OK)
  end.

(** That the file is a regular one is part of the status call's answer. *)

(** src/binder_ioctl_resolver.cpp:920-949 [read_binder_capability_status] *)
Definition read_binder_capability_status (path : option string)
    : io (KModErr * BinderCapabilityStatus) :=
  match c_path path with
  | None => mret (ERR_MODULE_PARAM, empty_status)
  | Some path =>
      fd ← sys_open_read path;
      match fd with
      | Open_enoent => mret (ERR_MODULE_STORAGE_NOT_FOUND, empty_status)
      | Open_error => mret (ERR_MODULE_STORAGE_READ, empty_status)
      | Opened content =>
          regular ← sys_ok;
          read ← (if negb regular then mret None
                  else
                    used ← read_loop fuel content 160 [];
                    if negb (Nat.eqb (length used) 160) then mret None
                    else
                      tail ← sys_read content (length used) 1;
                      mret (match tail with Moved [] => Some used | _ => None end));
          _ ← sys_ok;
          match read with
          | None => mret (ERR_MODULE_STORAGE_READ, empty_status)
          | Some used =>
              let record := of_bytes used in
              if negb (valid_record record) then mret (ERR_MODULE_STORAGE_TYPE, empty_status)
              else mret (OK, status_of record)
          end
      end
  end.

End Operations.

(** * Texts *)

Lemma bytes_of_string_length s : length (bytes_of_string s) = String.length s.
Proof.
  unfold bytes_of_string. rewrite length_fmap. induction s as [|c s IH]; [done|]. cbn. by rewrite IH.
Qed.

Lemma bytes_of_string_ok s : bytes_ok (bytes_of_string s).
Proof.
  unfold bytes_of_string, bytes_ok. apply Forall_fmap, Forall_true. intros c.
  pose proof (Ascii.nat_ascii_bounded c). unfold byte_ok, compose. lia.
Qed.

Lemma text_field_length n s : (String.length s <= n)%nat -> length (text_field n s) = n.
Proof. intros. unfold text_field. rewrite length_app, bytes_of_string_length, length_replicate. lia. Qed.

Lemma text_field_ok n s : bytes_ok (text_field n s).
Proof. apply bytes_ok_app; split; [apply bytes_of_string_ok|apply bytes_ok_replicate; done]. Qed.

Lemma release_byte_nonzero ch : release_byte ch = true -> ch <> 0.
Proof. intros Hb ->. discriminate Hb. Qed.

Lemma text_read_back n s :
  Forall (fun ch => release_byte ch = true) (bytes_of_string s) -> (String.length s < n)%nat ->
  terminated_text (text_field n s) = true /\ c_string (text_field n s) = bytes_of_string s.
Proof.
  unfold text_field. rewrite <-(bytes_of_string_length s). generalize (bytes_of_string s).
  intros bytes Hbytes Hlen.
  assert (Hpad : exists k, replicate (n - length bytes) 0 = 0 :: replicate k 0).
  { destruct (n - length bytes)%nat as [|k] eqn:E; [lia|]. by exists k. }
  destruct Hpad as [k ->]. clear Hlen n. induction Hbytes as [|ch bytes Hch _ [IH1 IH2]]; [done|].
  cbn [app terminated_text c_string]. rewrite (proj2 (Z.eqb_neq ch 0)) by by apply release_byte_nonzero.
  rewrite Hch, IH1, IH2. done.
Qed.

(** Every character of a supported release is one the record's reader takes. *)
Lemma all_chars_bytes (p : Ascii.ascii -> bool) s :
  (forall c, p c = true -> release_byte (Z.of_nat (Ascii.nat_of_ascii c)) = true) ->
  all_chars p s = true -> Forall (fun ch => release_byte ch = true) (bytes_of_string s).
Proof.
  intros Hp. induction s as [|c s IH]; cbn; [constructor|]. intros [Hc Hs]%andb_true_iff.
  constructor; [by apply Hp|by apply IH].
Qed.

Lemma bytes_of_string_app a b : bytes_of_string (a +:+ b) = bytes_of_string a ++ bytes_of_string b.
Proof. induction a as [|c a IH]; [done|]. rewrite cons_app. unfold bytes_of_string in *. cbn. by rewrite IH. Qed.

Lemma digit_release_byte c : is_Some (digit_of c) -> release_byte (Z.of_nat (Ascii.nat_of_ascii c)) = true.
Proof.
  unfold digit_of. destruct (_ && _) eqn:E; [|by intros []]. intros _. unfold release_byte.
  rewrite E. by rewrite !orb_true_r.
Qed.

Lemma component_bytes s :
  component s -> Forall (fun ch => release_byte ch = true) (bytes_of_string s).
Proof.
  intros [Hd _]. induction s as [|c s IH]; cbn; [constructor|]. cbn in Hd.
  apply andb_true_iff in Hd as [Hc Hs]. apply bool_decide_eq_true in Hc.
  constructor; [by apply digit_release_byte|by apply IH].
Qed.

Lemma suffix_char_byte c : suffix_char c = true -> release_byte (Z.of_nat (Ascii.nat_of_ascii c)) = true.
Proof.
  unfold suffix_char, is_char, release_byte. generalize (Ascii.nat_of_ascii c). intros n.
  rewrite !orb_true_iff, !andb_true_iff, !Nat.eqb_eq, !Nat.leb_le, !Z.eqb_eq, !Z.leb_le. lia.
Qed.

Lemma suffix_bytes s :
  valid_suffix s = true -> Forall (fun ch => release_byte ch = true) (bytes_of_string s).
Proof.
  destruct s as [|c [|c' s]]; [constructor|done|]. cbn [valid_suffix]. intros [Hc Hs]%andb_true_iff.
  apply (Forall_cons_2 _ (Z.of_nat (Ascii.nat_of_ascii c)) (bytes_of_string (String c' s)));
    [|exact (all_chars_bytes _ _ suffix_char_byte Hs)].
  unfold is_char in Hc. rewrite orb_true_iff, !Nat.eqb_eq in Hc. by destruct Hc as [-> | ->].
Qed.

Lemma supported_bytes s :
  supported_release s -> Forall (fun ch => release_byte ch = true) (bytes_of_string s) /\ s <> EmptyString.
Proof.
  intros (major & minor & more & suffix & -> & Hmajor & _ & Hminor & _ & Hmore & Hsuffix). split.
  - rewrite !bytes_of_string_app. apply Forall_app. split; [by apply component_bytes|].
    apply Forall_app. split; [|by apply suffix_bytes].
    assert (Hall : Forall component (minor :: more)) by by constructor.
    induction Hall as [|c cs Hc _ IH]; [constructor|]. cbn [dotted].
    change (bytes_of_string (String dot (c +:+ dotted cs)))
      with (46 :: bytes_of_string (c +:+ dotted cs)).
    constructor; [done|]. rewrite bytes_of_string_app. apply Forall_app. split; [|exact IH].
    by apply component_bytes.
  - destruct Hmajor as [_ Hl]. destruct major; [cbn in Hl; lia|done].
Qed.

(** * The record *)

Definition covered (r : BinderCapabilityRecordV1) : list Z :=
  le_enc 8 (cp_magic r) ++ le_enc 4 (cp_version r) ++ le_enc 4 (cp_record_size r) ++
  le_enc 8 (cp_capabilities r) ++ le_enc 8 (cp_entry_fingerprint r) ++ le_enc 4 (cp_backend r) ++
  le_enc 4 (cp_file_f_op_source r) ++ le_enc 4 (cp_fops_unlocked_ioctl_source r) ++
  le_enc 4 (cp_symbol_validations r) ++ le_enc 4 (cp_entry_semantics r) ++
  le_enc 4 (cp_reserved0 r) ++ cp_kernel_release r ++ cp_resolver_source r.

Lemma capability_covered r :
  length (cp_kernel_release r) = 64%nat -> length (cp_resolver_source r) = 32%nat ->
  take 152 (bytes_of r) = covered r.
Proof.
  intros Hk Hs. transitivity (take 152 (covered r ++ le_enc 4 (cp_crc32 r) ++ le_enc 4 (cp_reserved1 r))).
  - unfold covered. by rewrite <-!app_assoc.
  - assert (Hlen : length (covered r) = 152%nat)
      by (unfold covered; rewrite !length_app, !le_enc_length, Hk, Hs; lia).
    rewrite take_app_le, take_ge; [done|lia|lia].
Qed.

(** What a resolution must be like to be stored. *)
Record storable (kernel_release : string) (resolution : BinderIoctlResolution) : Prop := {
  st_text : Forall (fun ch => release_byte ch = true) (bytes_of_string kernel_release);
  st_nonempty : kernel_release <> EmptyString;
  st_short : (String.length kernel_release < 64)%nat;
  st_capable : has_required_binder_capabilities resolution = true;
  st_file_source : br_file_f_op_source resolution <> SourceUnknown;
  st_ioctl_source : br_fops_unlocked_ioctl_source resolution <> SourceUnknown;
  st_capabilities : word_ok 8 (br_capabilities resolution);
  st_fingerprint : word_ok 8 (br_entry_fingerprint resolution);
  st_some_fingerprint : br_entry_fingerprint resolution <> 0;
  st_validations : word_ok 4 (br_symbol_validations resolution);
  st_semantics : word_ok 4 (br_entry_semantics resolution);
}.

Section Stored.
Context (kernel_release : string) (resolution : BinderIoctlResolution).
Context (Hst : storable kernel_release resolution).

Lemma release_field : length (text_field 64 kernel_release) = 64%nat.
Proof. apply text_field_length. pose proof (st_short _ _ Hst). lia. Qed.

Lemma source_field : length (text_field 32 (binder_resolution_source_name resolution)) = 32%nat.
Proof.
  apply text_field_length. unfold binder_resolution_source_name.
  destruct (_ || _); apply Nat.leb_le; reflexivity.
Qed.

Lemma capability_in_range : in_range (make_capability_record kernel_release resolution).
Proof.
  assert (Hcrc : forall crc, word_ok 4 crc -> in_range
    {| cp_magic := kCapabilityRecordMagic; cp_version := kCapabilityRecordVersion;
       cp_record_size := 160; cp_capabilities := br_capabilities resolution;
       cp_entry_fingerprint := br_entry_fingerprint resolution;
       cp_backend := backend_num (br_backend resolution);
       cp_file_f_op_source := source_num (br_file_f_op_source resolution);
       cp_fops_unlocked_ioctl_source := source_num (br_fops_unlocked_ioctl_source resolution);
       cp_symbol_validations := br_symbol_validations resolution;
       cp_entry_semantics := br_entry_semantics resolution; cp_reserved0 := 0;
       cp_kernel_release := text_field 64 kernel_release;
       cp_resolver_source := text_field 32 (binder_resolution_source_name resolution);
       cp_crc32 := crc; cp_reserved1 := 0 |}).
  { intros crc Hc.
    assert (Hb : word_ok 4 (backend_num (br_backend resolution)))
      by (destruct (br_backend resolution); by split).
    assert (Hs : forall source, word_ok 4 (source_num source)) by (intros []; by split).
    pose proof (Hs (br_file_f_op_source resolution)).
    pose proof (Hs (br_fops_unlocked_ioctl_source resolution)).
    pose proof release_field. pose proof source_field.
    pose proof (text_field_ok 64 kernel_release).
    pose proof (text_field_ok 32 (binder_resolution_source_name resolution)).
    destruct Hst. cbn -[text_field source_num backend_num word_ok]. split_and!; try assumption; by split. }
  apply Hcrc, crc32_range. apply bytes_ok_take, bytes_of_bytes_ok, Hcrc. by split.
Qed.

Lemma capability_valid : valid_record (make_capability_record kernel_release resolution) = true.
Proof.
  destruct (text_read_back 64 kernel_release (st_text _ _ Hst) (st_short _ _ Hst)) as [Hterm _].
  pose proof (st_capable _ _ Hst) as Hcap. unfold has_required_binder_capabilities in Hcap.
  rewrite !andb_true_iff in Hcap. destruct Hcap as [[[[Hknown _] _] _] Hcap].
  unfold valid_record. rewrite !andb_true_iff.
  assert (Hcrc : cp_crc32 (make_capability_record kernel_release resolution) =
    crc32 (take 152 (bytes_of (make_capability_record kernel_release resolution)))).
  { rewrite capability_covered by (apply release_field || apply source_field).
    unfold make_capability_record at 1. cbn [cp_crc32].
    rewrite capability_covered by (apply release_field || apply source_field). reflexivity. }
  rewrite <-Hcrc. unfold make_capability_record. cbn -[text_field kRequiredBinderCapabilities].
  split_and!; try reflexivity.
  - by destruct (br_backend resolution).
  - by destruct (br_backend resolution).
  - pose proof (st_file_source _ _ Hst). by destruct (br_file_f_op_source resolution).
  - by destruct (br_file_f_op_source resolution).
  - pose proof (st_ioctl_source _ _ Hst). by destruct (br_fops_unlocked_ioctl_source resolution).
  - by destruct (br_fops_unlocked_ioctl_source resolution).
  - apply negb_true_iff, Z.eqb_neq. apply (st_some_fingerprint _ _ Hst).
  - exact Hcap.
  - unfold valid_kernel_release_text. rewrite Hterm. cbn [andb].
    pose proof (st_text _ _ Hst) as Htext. pose proof (st_nonempty _ _ Hst) as Hne.
    destruct kernel_release as [|c s]; [done|]. inversion Htext as [|? ? Hc _]; subst.
    apply negb_true_iff, Z.eqb_neq. by apply release_byte_nonzero.
  - apply Z.eqb_refl.
Qed.

(** The status read back is the resolution's. *)
Definition stored_status : BinderCapabilityStatus := {|
  bs_kernel_release := bytes_of_string kernel_release;
  bs_backend := br_backend resolution;
  bs_file_f_op_source := br_file_f_op_source resolution;
  bs_fops_unlocked_ioctl_source := br_fops_unlocked_ioctl_source resolution;
  bs_capabilities := br_capabilities resolution;
  bs_entry_fingerprint := br_entry_fingerprint resolution;
  bs_entry_semantics := br_entry_semantics resolution;
  bs_symbol_validations := br_symbol_validations resolution |}.

Lemma status_of_stored : status_of (make_capability_record kernel_release resolution) = stored_status.
Proof.
  destruct (text_read_back 64 kernel_release (st_text _ _ Hst) (st_short _ _ Hst)) as [_ Htext].
  unfold status_of, make_capability_record, stored_status. cbn -[text_field]. rewrite Htext.
  f_equal; [by destruct (br_backend resolution)|by destruct (br_file_f_op_source resolution)|
    by destruct (br_fops_unlocked_ioctl_source resolution)].
Qed.

End Stored.

(** A resolution behind the platform gate can be stored, a fingerprint of zero apart. *)
Lemma resolved_storable `{KernelProbe} fd out kernel_release :
  resolve_binder_ioctl_from_fd fd = inr out ->
  is_supported_linux_6_1_or_newer kernel_release = true -> (String.length kernel_release < 64)%nat ->
  br_entry_fingerprint out <> 0 -> storable kernel_release out.
Proof.
  intros Hout Hrel Hlen Hfp. apply release_grammar, supported_bytes in Hrel as [Htext Hne].
  apply resolved_status in Hout as (Hcap & Hfile & Hioctl & Hcaps & Hprint & Hval & Hclass).
  apply hookable_entry_range in Hclass. split; try assumption.
  - rewrite Hcaps. by split.
  - rewrite Hprint. unfold word_ok, fnv1a64. change (256 ^ Z.of_nat 8) with (2 ^ 64).
    generalize (concat (le_enc 4 <$> br_entry_words out)). intros data.
    destruct data as [|b data _] using rev_ind; [done|]. rewrite foldl_app. apply u64_range.
  - unfold word_ok. change (256 ^ Z.of_nat 4) with (2 ^ 32). lia.
  - unfold word_ok. change (256 ^ Z.of_nat 4) with (2 ^ 32). lia.
Qed.

(** * The operations *)

Section OperationSpecs.
Context `{OperatingSystem}.
Context (d : Prop) (B fuel : nat).

#[local] Notation enough := (enough d B fuel).
#[local] Notation write_result path := (write_result path (path +:+ ".tmp")).

Lemma wp_write_capability arg path kernel_release resolution w :
  let new := bytes_of (make_capability_record kernel_release resolution) in
  c_path arg = Some path -> storable kernel_release resolution -> enough (length new) ->
  wp d (write_binder_capability_status fuel arg kernel_release resolution) (write_result path new w) w.
Proof.
  intros new Harg Hst Hfuel. unfold write_binder_capability_status. rewrite Harg.
  rewrite (bool_decide_eq_false_2 _ (st_nonempty _ _ Hst)).
  rewrite (proj2 (Nat.leb_gt 64 _) (st_short _ _ Hst)), (st_capable _ _ Hst). cbn [negb orb].
  assert (Hcommit : forall ok w2 w3, evolves (spared (path +:+ ".tmp") (w_files w)) w w2 ->
    (ok = true -> w_files w2 !! (path +:+ ".tmp") = Some new) -> quiet w2 w3 ->
    wp d (closed ← sys_ok;
          renamed ← (if negb ok || negb closed then mret false else sys_rename (path +:+ ".tmp") path);
          if negb renamed then _ ← sys_unlink (path +:+ ".tmp"); mret ERR_MODULE_STORAGE_WRITE
          else directory_fd ← sys_open_directory (directory_of path);
               (if (directory_fd : bool) then _ ← sys_ok; _ ← sys_ok; mret OK else mret OK))
      (write_result path new w) w3).
  { intros ok w2 w3 Hev Hnew Hq3. apply wp_bind, wp_sys_ok. intros closed w4 Hq4.
    assert (Hq : quiet w2 w4) by by etransitivity.
    assert (Hev4 : evolves (spared (path +:+ ".tmp") (w_files w)) w w4) by by eapply evolves_quiet.
    destruct ok; [|apply wp_bind, wp_ret, wp_discard; [apply tmp_ne|exact Hev4]].
    apply wp_commit; [apply tmp_ne|exact Hev4|]. destruct Hq as [-> _]. by apply Hnew. }
  eapply (wp_fill path); [apply tmp_ne|done|done|..].
  - intros w2 Hev Hnew. apply wp_bind, wp_io_and, wp_sys_ok. intros first w3 Hq3.
    destruct first; [apply wp_sys_ok; intros second w4 Hq4|];
      apply (Hcommit _ w2); try done. by etransitivity.
  - intros w2 Hev. apply wp_bind, wp_ret, (Hcommit false w2); [exact Hev|discriminate|reflexivity].
Qed.

(** What a read of the status reports about the file. *)
Definition read_status_result (path : string) (w : World)
    (result : KModErr * BinderCapabilityStatus) (w' : World) : Prop :=
  let '(err, status) := result in
  quiet w w' /\
  (err = OK -> exists content, w_files w !! path = Some content /\
     valid_record (of_bytes content) = true /\ status = status_of (of_bytes content)) /\
  (err = ERR_MODULE_STORAGE_TYPE -> exists content, w_files w !! path = Some content /\
     valid_record (of_bytes content) = false) /\
  (err = ERR_MODULE_STORAGE_NOT_FOUND -> w_files w !! path = None) /\
  (err <> OK -> status = empty_status /\
     (err = ERR_MODULE_STORAGE_TYPE \/ err = ERR_MODULE_STORAGE_NOT_FOUND \/
      err = ERR_MODULE_STORAGE_READ)).

Lemma read_status_failed path w w' :
  quiet w w' -> read_status_result path w (ERR_MODULE_STORAGE_READ, empty_status) w'.
Proof. intros Hq. split; [exact Hq|]. split_and!; [discriminate..|auto]. Qed.

Lemma wp_read_capability arg path w :
  c_path arg = Some path -> enough 160 ->
  wp d (read_binder_capability_status fuel arg) (read_status_result path w) w.
Proof.
  intros Harg Hfuel. unfold read_binder_capability_status. rewrite Harg.
  apply wp_bind, wp_open_read. intros [content| |] w1 Hq1 Hr.
  2: { apply wp_ret. split; [exact Hq1|]. split_and!; [discriminate..|done|auto]. }
  2: { by apply wp_ret, read_status_failed. }
  apply wp_bind, wp_sys_ok. intros regular w2 Hq2.
  assert (Hq : quiet w w2) by by etransitivity.
  assert (Hfailed : forall w3, quiet w w3 ->
    wp d (_ ← sys_ok; mret (ERR_MODULE_STORAGE_READ, empty_status)) (read_status_result path w) w3).
  { intros w3 Hq3. apply wp_bind, wp_sys_ok. intros _ w4 Hq4.
    apply wp_ret, read_status_failed. by etransitivity. }
  apply wp_bind. destruct regular; cbn [negb]; [|by apply wp_ret, Hfailed].
  apply wp_bind. change [] with (take 0 content).
  apply (wp_read_loop d B fuel B content _ 0); [lia|lia|apply budget_start; by rewrite Nat.sub_0_r|].
  intros m w3 Hq3 Hm Hl. rewrite length_take_le by done.
  assert (Hq' : quiet w w3) by by etransitivity.
  destruct (Nat.eqb_spec m 160) as [->|]; cbn [negb]; [|by apply wp_ret, Hfailed].
  apply wp_bind, wp_bind, wp_next. intros w4 Hq4 _. apply wp_ret.
  assert (Hq'' : quiet w w4) by by etransitivity.
  destruct (outcome_of _) as [limit| |]; [|by apply wp_ret, Hfailed..].
  apply wp_ret. destruct (slice _ _ content) as [|b bs] eqn:Es; [|by apply Hfailed].
  assert (Hlen : length content = 160%nat).
  { apply (f_equal length) in Es. destruct (transfer_pos limit 1) as [? _]; [lia|].
    unfold slice in Es. rewrite length_take, length_drop in Es. simpl in Es. lia. }
  rewrite take_ge by lia. apply wp_bind, wp_sys_ok. intros _ w5 Hq5.
  assert (Hq5' : quiet w w5) by by etransitivity.
  destruct (valid_record (of_bytes content)) eqn:Ev; cbn [negb]; apply wp_ret; (split; [exact Hq5'|]).
  - split_and!; [|discriminate..|intros []; reflexivity]. intros _. by exists content.
  - split_and!; [discriminate| |discriminate|intros _; auto]. intros _. by exists content.
Qed.

End OperationSpecs.

(** * Properties *)

(** after a resolution on a supported kernel, storing its status is all or nothing
    for everybody who looks at the directory, and what a successful store left is what
    every later read of the unchanged file delivers: the release and every stored part
    of the resolution; such a read can only fail by a failing call, and then delivers
    the empty status. *)
Lemma capability_status_roundtrip `{OperatingSystem} `{KernelProbe} fd out kernel_release
    fuel fuel' arg path w err w1 :
  resolve_binder_ioctl_from_fd fd = inr out ->
  is_supported_linux_6_1_or_newer kernel_release = true -> (String.length kernel_release < 64)%nat ->
  br_entry_fingerprint out <> 0 -> c_path arg = Some path ->
  write_binder_capability_status fuel arg kernel_release out w = Some (err, w1) ->
  evolves (replacing path (path +:+ ".tmp") (bytes_of (make_capability_record kernel_release out))
             (w_files w)) w w1 /\
  (err <> OK -> w_files w1 !! path = w_files w !! path) /\
  (err = OK -> forall w2 err' status w3, w_files w2 !! path = w_files w1 !! path ->
     read_binder_capability_status fuel' arg w2 = Some ((err', status), w3) ->
     (err' = OK /\ status = stored_status kernel_release out) \/
     (err' = ERR_MODULE_STORAGE_READ /\ status = empty_status)).
Proof.
  intros Hout Hrel Hlen Hfp Harg Hwrite.
  pose proof (resolved_storable fd out kernel_release Hout Hrel Hlen Hfp) as Hst.
  assert (Hw : write_result path (path +:+ ".tmp") (bytes_of (make_capability_record kernel_release out))
    w err w1) by (eapply wp_result; [|exact Hwrite]; by apply (wp_write_capability True 0); [..|left]).
  destruct Hw as (Hev & Hok & Herr). split; [exact Hev|].
  split; [intros Hne; by apply Herr|]. intros -> w2 err' status w3 Hsame Hread.
  rewrite (Hok eq_refl), lookup_insert_eq in Hsame.
  assert (Hback : of_bytes (bytes_of (make_capability_record kernel_release out)) =
    make_capability_record kernel_release out) by by apply of_bytes_bytes_of, capability_in_range.
  assert (Hres : read_status_result path w2 (err', status) w3).
  { eapply wp_result; [|exact Hread]. by apply (wp_read_capability True 0); [|left]. }
  destruct Hres as (_ & Hread_ok & Htype & Hnone & Hfail).
  destruct (decide (err' = OK)) as [-> |Hne].
  - left. destruct (Hread_ok eq_refl) as (content & Hc & _ & ->). split; [done|].
    rewrite Hsame in Hc. apply (inj Some) in Hc as <-. rewrite Hback. by apply status_of_stored.
  - right. destruct (Hfail Hne) as [-> [-> | [-> | ->]]]; [| |done].
    + destruct (Htype eq_refl) as (content & Hc & Hbad). rewrite Hsame in Hc.
      apply (inj Some) in Hc as <-. by rewrite Hback, capability_valid in Hbad.
    + specialize (Hnone eq_refl). congruence.
Qed.

(** * A concrete run *)

#[local] Existing Instance sample_system.

Definition sample_status_path : option string := Some "/data/drmid_binder_capability_v1.bin".

Definition sample_stored : World :=
  world_after (write_binder_capability_status 200 sample_status_path "6.12.23-android16" demo_resolution
    (initial_world ∅)).

Lemma sample_store_run :
  write_binder_capability_status 200 sample_status_path "6.12.23-android16" demo_resolution
    (initial_world ∅) = Some (OK, sample_stored).
Proof. vm_compute. reflexivity. Qed.

Lemma sample_status_err :
  (fun r => r.1.1) <$> read_binder_capability_status 200 sample_status_path sample_stored = Some OK.
Proof. vm_compute. reflexivity. Qed.

Lemma demo_release_supported : is_supported_linux_6_1_or_newer "6.12.23-android16" = true.
Proof. reflexivity. Qed.

Lemma capability_status_roundtrip_witness :
  exists w, read_binder_capability_status 200 sample_status_path sample_stored
            = Some ((OK, stored_status "6.12.23-android16" demo_resolution), w).
Proof.
  pose proof sample_status_err as Herr.
  destruct (read_binder_capability_status 200 sample_status_path sample_stored)
    as [[[err status] w]|] eqn:E; [|discriminate Herr].
  apply (inj Some) in Herr. cbn in Herr. subst err.
  destruct (@capability_status_roundtrip sample_system demo_probe 5 demo_resolution
    "6.12.23-android16" 200 200 sample_status_path "/data/drmid_binder_capability_v1.bin"
    (initial_world ∅) OK sample_stored) as (_ & _ & Hread).
  - exact demo_resolved.
  - exact demo_release_supported.
  - apply Nat.ltb_lt. reflexivity.
  - vm_compute. discriminate.
  - reflexivity.
  - exact sample_store_run.
  - destruct (Hread eq_refl sample_stored OK status w eq_refl E) as [[_ ->]|[Hbad _]];
      [by eexists|discriminate Hbad].
Defined.
