(* ===== verification/Startup.v ===== *)
(** The wait for a quiet system before the hook is installed (startup_readiness.cpp):
    what one sample observes, when two samples are quiet, and the wait itself. *)

From S2P Require Import Prelude HalIdentity.

(** * Observations *)

(** src/startup_readiness.h:11-16 [StartupReadinessPolicy] *)
Record StartupReadinessPolicy := {
  sp_poll_ms : Z;
  sp_stable_ms : Z;
  sp_deadline_ms : Z;
  sp_max_cpu_permille : Z;
}.

(** src/startup_readiness.h:18-23 [StartupProcessObservation] *)
Record StartupProcessObservation := {
  po_pid : Z;
  po_state : Ascii.ascii;
  po_start_time_ticks : Z;
  po_cpu_ticks : Z;
}.

(** src/startup_readiness.h:25-35 [StartupReadinessObservation] *)
Record StartupReadinessObservation := {
  so_boot_animation_stopped : bool;
  so_device_boot_complete : bool;
  so_user_storage_ready : bool;
  so_service_manager_running : bool;
  so_media_drm_running : bool;
  so_drm_service_running : bool;
  so_system_server : StartupProcessObservation;
  so_surface_flinger : StartupProcessObservation;
  so_process_count : Z;
}.

(** src/startup_readiness.h:37-42 [StartupReadinessResult] *)
Record StartupReadinessResult := {
  sr_elapsed_ms : Z;
  sr_stable_ms : Z;
  sr_deadline_fallback : bool;
  sr_observation : StartupReadinessObservation;
}.

Definition char_of (n : nat) : Ascii.ascii := Ascii.ascii_of_nat n.

Definition no_process : StartupProcessObservation := {|
  po_pid := -1; po_state := char_of 63; po_start_time_ticks := 0; po_cpu_ticks := 0 |}.

(** The system while one sample is taken: the properties (empty when absent), the first
    lines of a process's stat and comm files, and the names in /proc. *)
Record SystemView := {
  vw_property : string -> string;
  vw_stat : Z -> option string;
  vw_comm : Z -> option string;
  vw_proc : option (list string);
}.

(** src/startup_readiness.cpp:43-47 [process_alive] *)
Definition process_alive (process : StartupProcessObservation) : bool :=
  (1 <? po_pid process) && negb (po_start_time_ticks process =? 0) &&
  negb (Ascii.eqb (po_state process) (char_of 90)) && negb (Ascii.eqb (po_state process) (char_of 88)) &&
  negb (Ascii.eqb (po_state process) (char_of 120)) && negb (Ascii.eqb (po_state process) (char_of 63)).

(** The index of the last [c]. *)
Fixpoint rfind (c : Ascii.ascii) (s : string) (index : nat) (best : option nat) : option nat :=
  match s with
  | EmptyString => best
  | String x s => rfind c s (S index) (if Ascii.eqb x c then Some index else best)
  end.

(** The words between white space. *)
Fixpoint words_of (current s : string) : list string :=
  let emit := match current with EmptyString => [] | _ => [current] end in
  match s with
  | EmptyString => emit
  | String c s =>
      if is_space c then emit ++ words_of EmptyString s
      else words_of (current +:+ String c EmptyString) s
  end.

(** [strtoull] that must consume the whole text without overflow; a minus sign negates
    modulo [2 ^ 64]. *)
Definition strtoull_all (s : string) : option Z :=
  let digits (negative : bool) s :=
    if bool_decide (s = EmptyString) || negb (all_digits s) then None
    else
      let v := decimal 0 s in
      if UINT64_MAX <? v then None else Some (if negative then u64 (- v) else v) in
  match skip_spaces s with
  | EmptyString => None
  | String c s' =>
      if Ascii.eqb c (char_of 45) then digits true s'
      else if Ascii.eqb c (char_of 43) then digits false s'
      else digits false (String c s')
  end.

(** Fields 3 to 22, of which four are used. *)

(** src/startup_readiness.cpp:60-86 [read_process_observation] *)
Definition stat_fields (line : string) : option (Ascii.ascii * Z * Z * Z) :=
  match rfind (char_of 41) line 0 None with
  | None => None
  | Some close =>
      if Nat.leb (String.length line) (close + 2) then None
      else
        let fields := words_of EmptyString
          (String.substring (close + 2) (String.length line - (close + 2)) line) in
        if Nat.ltb (length fields) 20 then None
        else
          let field n := nth (n - 3) fields EmptyString in
          match field 3%nat with
          | String state EmptyString =>
              match strtoull_all (field 14%nat), strtoull_all (field 15%nat),
                    strtoull_all (field 22%nat) with
              | Some user, Some system, Some start => Some (state, user, system, start)
              | _, _, _ => None
              end
          | _ => None
          end
  end.

(** Whether it succeeds is whether the result is alive. *)

(** src/startup_readiness.cpp:49-92 [read_process_observation] *)
Definition read_process_observation (view : SystemView) (pid : Z) : StartupProcessObservation :=
  if pid <=? 1 then no_process
  else match vw_stat view pid with
  | None => no_process
  | Some line =>
      match stat_fields line with
      | None => no_process
      | Some (state, user, system, start) =>
          if UINT64_MAX - system <? user then no_process
          else {| po_pid := pid; po_state := state; po_start_time_ticks := start;
                  po_cpu_ticks := user + system |}
      end
  end.

(** src/startup_readiness.cpp:94-98 [read_process_name] *)
Definition read_process_name (view : SystemView) (pid : Z) : option string :=
  match vw_comm view pid with
  | None | Some EmptyString => None
  | Some name => Some name
  end.

(** src/startup_readiness.cpp:107-114 [sample_processes] *)
Definition named (view : SystemView) (pid : Z) (name : string) : bool :=
  process_alive (read_process_observation view pid) &&
  bool_decide (read_process_name view pid = Some name).

(** src/startup_readiness.cpp:122-129 [sample_processes] *)
Definition entry_pid (entry : string) : option Z :=
  let parsed := decimal 0 entry in
  if (parsed <=? 1) || (2 ^ 31 - 1 <? parsed) then None else Some parsed.

(** One entry of /proc. *)

(** src/startup_readiness.cpp:118-137 [sample_processes] *)
Definition sample_entry (view : SystemView) (system_ok surface_ok : bool)
    (acc : Z * StartupProcessObservation * StartupProcessObservation) (entry : string)
    : Z * StartupProcessObservation * StartupProcessObservation :=
  let '(count, system_server, surface_flinger) := acc in
  if negb (decimal_name entry) then acc
  else
    let count := count + 1 in
    if system_ok && surface_ok then (count, system_server, surface_flinger)
    else match entry_pid entry with
    | None => (count, system_server, surface_flinger)
    | Some pid =>
        match read_process_name view pid with
        | None => (count, system_server, surface_flinger)
        | Some name =>
            if negb system_ok && bool_decide (name = "system_server")
            then (count, read_process_observation view pid, surface_flinger)
            else if negb surface_ok && bool_decide (name = "surfaceflinger")
            then (count, system_server, read_process_observation view pid)
            else (count, system_server, surface_flinger)
        end
    end.

(** The cached pids, and the three values of the observation. *)

(** src/startup_readiness.cpp:100-148 [sample_processes] *)
Definition sample_processes (view : SystemView) (cached_system cached_surface : Z)
    : (Z * Z) * (Z * StartupProcessObservation * StartupProcessObservation) :=
  let system_server := read_process_observation view cached_system in
  let surface_flinger := read_process_observation view cached_surface in
  let system_ok := named view cached_system "system_server" in
  let surface_ok := named view cached_surface "surfaceflinger" in
  match vw_proc view with
  | None => ((cached_system, cached_surface), (0, no_process, no_process))
  | Some entries =>
      let '(count, system_server, surface_flinger) :=
        foldl (sample_entry view system_ok surface_ok) (0, system_server, surface_flinger) entries in
      let cached process := if process_alive process then po_pid process else -1 in
      ((cached system_server, cached surface_flinger), (count, system_server, surface_flinger))
  end.

(** src/startup_readiness.cpp:34-41 [property_equals_or_absent] *)
Definition property_equals_or_absent (view : SystemView) (name expected : string) : bool :=
  bool_decide (vw_property view name = EmptyString) || bool_decide (vw_property view name = expected).

(** src/startup_readiness.cpp:150-167 [sample_observation] *)
Definition sample_observation (view : SystemView) (cached : Z * Z)
    : (Z * Z) * StartupReadinessObservation :=
  let '(cached, (count, system_server, surface_flinger)) :=
    sample_processes view cached.1 cached.2 in
  (cached, {|
    so_boot_animation_stopped := bool_decide (vw_property view "init.svc.bootanim" = "stopped");
    so_device_boot_complete := property_equals_or_absent view "dev.bootcomplete" "1";
    so_user_storage_ready := property_equals_or_absent view "sys.user.0.ce_available" "true";
    so_service_manager_running :=
      bool_decide (vw_property view "init.svc.servicemanager" = "running");
    so_media_drm_running := bool_decide (vw_property view "init.svc.mediadrm" = "running");
    so_drm_service_running := property_equals_or_absent view "init.svc.drm64" "running";
    so_system_server := system_server; so_surface_flinger := surface_flinger;
    so_process_count := count |}).

(** src/startup_readiness.cpp:185-194 [readiness_bits] *)
Definition readiness_bits (observation : StartupReadinessObservation) : Z :=
  let bit (b : bool) n := if b then Z.shiftl 1 n else 0 in
  Z.lor (Z.lor (Z.lor (Z.lor (Z.lor (Z.lor (Z.lor
    (bit (so_boot_animation_stopped observation) 0) (bit (so_device_boot_complete observation) 1))
    (bit (so_user_storage_ready observation) 2)) (bit (so_service_manager_running observation) 3))
    (bit (so_media_drm_running observation) 4)) (bit (so_drm_service_running observation) 5))
    (bit (process_alive (so_system_server observation)) 6))
    (bit (process_alive (so_surface_flinger observation)) 7).

(** src/startup_readiness.cpp:198-202 [startup_base_services_ready] *)
Definition startup_base_services_ready (observation : StartupReadinessObservation) : bool :=
  (readiness_bits observation =? 0xff) && negb (so_process_count observation =? 0).

(** src/startup_readiness.cpp:229-232 [startup_observations_quiet] *)
Definition allowed_ticks (policy : StartupReadinessPolicy) (ticks : Z) : Z :=
  u64 (u64 (u64 (sp_max_cpu_permille policy * sp_poll_ms policy) * ticks) / 1000000 + 1).

(** src/startup_readiness.cpp:204-234 [startup_observations_quiet] *)
Definition startup_observations_quiet (previous current : StartupReadinessObservation)
    (policy : StartupReadinessPolicy) (ticks : Z) : bool :=
  let system := so_system_server current in
  let surface := so_surface_flinger current in
  let system0 := so_system_server previous in
  let surface0 := so_surface_flinger previous in
  if negb (startup_base_services_ready current) || negb (process_alive system0) ||
     negb (process_alive surface0) || negb (po_pid system0 =? po_pid system) ||
     negb (po_start_time_ticks system0 =? po_start_time_ticks system) ||
     negb (po_pid surface0 =? po_pid surface) ||
     negb (po_start_time_ticks surface0 =? po_start_time_ticks surface) ||
     negb (so_process_count previous =? so_process_count current) ||
     (po_cpu_ticks system <? po_cpu_ticks system0) ||
     (po_cpu_ticks surface <? po_cpu_ticks surface0) || (ticks =? 0) || (sp_poll_ms policy =? 0)
  then false
  else
    (po_cpu_ticks system - po_cpu_ticks system0 <=? allowed_ticks policy ticks) &&
    (po_cpu_ticks surface - po_cpu_ticks surface0 <=? allowed_ticks policy ticks).

(** * The policy *)

(** src/startup_readiness.cpp:169-183 [bounded_environment_u32] *)
Definition bounded_environment_u32 (getenv : string -> option string) (name : string)
    (fallback minimum maximum : Z) : Z :=
  match getenv name with
  | None | Some EmptyString => fallback
  | Some text =>
      match strtoull_all text with
      | None => fallback
      | Some value => if (value <? minimum) || (maximum <? value) then fallback else value
      end
  end.

(** src/startup_readiness.cpp:236-250 [startup_readiness_policy_from_environment] *)
Definition startup_readiness_policy_from_environment (getenv : string -> option string)
    : StartupReadinessPolicy :=
  let poll := bounded_environment_u32 getenv "DRMID_READY_POLL_MS" 250 100 1000 in
  let stable := bounded_environment_u32 getenv "DRMID_READY_STABLE_MS" 3000 1000 15000 in
  let deadline := bounded_environment_u32 getenv "DRMID_READY_DEADLINE_MS" 45000 5000 60000 in
  let cpu := bounded_environment_u32 getenv "DRMID_READY_CPU_PERMILLE" 500 50 4000 in
  {| sp_poll_ms := poll; sp_stable_ms := stable;
     sp_deadline_ms := if deadline <? stable then stable else deadline;
     sp_max_cpu_permille := cpu |}.

(** * The wait *)

(** Between two samples: the result so far, the cached pids, the last sample. *)
Record Wait := {
  wt_elapsed_ms : Z;
  wt_stable_ms : Z;
  wt_cached : Z * Z;
  wt_previous : option StartupReadinessObservation;
}.

Definition initial_wait : Wait := {|
  wt_elapsed_ms := 0; wt_stable_ms := 0; wt_cached := (-1, -1); wt_previous := None |}.

Definition no_observation : StartupReadinessObservation := {|
  so_boot_animation_stopped := false; so_device_boot_complete := false;
  so_user_storage_ready := false; so_service_manager_running := false;
  so_media_drm_running := false; so_drm_service_running := false;
  so_system_server := no_process; so_surface_flinger := no_process; so_process_count := 0 |}.

(** One pass of the loop: the result, or the state at the next pass. *)

(** src/startup_readiness.cpp:272-312 [wait_for_adaptive_startup_readiness] *)
Definition wait_step (policy : StartupReadinessPolicy) (ticks : Z) (view : SystemView) (w : Wait)
    : StartupReadinessResult + Wait :=
  let '(cached, observation) := sample_observation view (wt_cached w) in
  let quiet := match wt_previous w with
               | Some previous => startup_observations_quiet previous observation policy ticks
               | None => false
               end in
  let stable := if (quiet : bool)
                then Z.min (sp_stable_ms policy) (u32 (wt_stable_ms w + sp_poll_ms policy)) else 0 in
  if sp_stable_ms policy <=? stable then
    inl {| sr_elapsed_ms := wt_elapsed_ms w; sr_stable_ms := stable; sr_deadline_fallback := false;
           sr_observation := observation |}
  else
    inr {| wt_elapsed_ms := if sp_deadline_ms policy - wt_elapsed_ms w <? sp_poll_ms policy
                            then sp_deadline_ms policy else wt_elapsed_ms w + sp_poll_ms policy;
           wt_stable_ms := stable; wt_cached := cached; wt_previous := Some observation |}.

(** The [n]-th sample sees [views n]; [None] is a wait that is not over when the fuel
    is spent. *)

(** src/startup_readiness.cpp:272-322 [wait_for_adaptive_startup_readiness] *)
Fixpoint wait_loop (fuel : nat) (policy : StartupReadinessPolicy) (ticks : Z)
    (views : nat -> SystemView) (n : nat) (w : Wait) : option StartupReadinessResult :=
  if wt_elapsed_ms w <? sp_deadline_ms policy then
    match fuel with
    | O => None
    | S fuel =>
        match wait_step policy ticks (views n) w with
        | inl result => Some result
        | inr w => wait_loop fuel policy ticks views (S n) w
        end
    end
  else Some {| sr_elapsed_ms := wt_elapsed_ms w; sr_stable_ms := wt_stable_ms w;
               sr_deadline_fallback := true;
               sr_observation := default no_observation (wt_previous w) |}.

(** src/startup_readiness.cpp:252-323 [wait_for_adaptive_startup_readiness] *)
Definition wait_for_adaptive_startup_readiness (fuel : nat) (configured_ticks : Z)
    (policy : StartupReadinessPolicy) (views : nat -> SystemView) : option StartupReadinessResult :=
  let ticks := if 0 <? configured_ticks then configured_ticks else 100 in
  wait_loop fuel policy ticks views 0 initial_wait.

(** * The samples as a sequence *)

Fixpoint cached_after (views : nat -> SystemView) (n : nat) : Z * Z :=
  match n with
  | O => (-1, -1)
  | S n => (sample_observation (views n) (cached_after views n)).1
  end.

(** What the [n]-th sample observes. *)
Definition observed (views : nat -> SystemView) (n : nat) : StartupReadinessObservation :=
  (sample_observation (views n) (cached_after views n)).2.

Section Waiting.
Context (policy : StartupReadinessPolicy) (ticks : Z) (views : nat -> SystemView).

(** How many samples up to the [n]-th were quiet after the one before them. *)
Fixpoint quiet_run (n : nat) : Z :=
  match n with
  | O => 0
  | S m => if startup_observations_quiet (observed views m) (observed views (S m)) policy ticks
           then quiet_run m + 1 else 0
  end.

Lemma quiet_run_bound n : 0 <= quiet_run n <= Z.of_nat n.
Proof. induction n as [|n IH]; cbn [quiet_run]; [lia|]. destruct (startup_observations_quiet _ _ _ _); lia. Qed.

(** The end of the wait at the [n]-th sample. *)
Definition settled (n : nat) : Prop := sp_stable_ms policy <= sp_poll_ms policy * quiet_run n.

(** The state before the [n]-th sample, none having settled. *)
Definition waiting (n : nat) (w : Wait) : Prop :=
  wt_elapsed_ms w = Z.min (sp_deadline_ms policy) (Z.of_nat n * sp_poll_ms policy) /\
  wt_cached w = cached_after views n /\
  match n with
  | O => wt_stable_ms w = 0 /\ wt_previous w = None
  | S m => wt_stable_ms w = sp_poll_ms policy * quiet_run m /\
           wt_previous w = Some (observed views m) /\ ~ settled m
  end.

Context (Hpoll : 1 <= sp_poll_ms policy).
Context (Hstable : 1 <= sp_stable_ms policy).
Context (Hsum : sp_stable_ms policy + sp_poll_ms policy < 2 ^ 32).
Context (Hdeadline : 0 <= sp_deadline_ms policy).

Lemma waiting_initial : waiting 0 initial_wait.
Proof. split; [cbn; lia|]. by split_and!. Qed.

Lemma wait_step_spec n w :
  waiting n w -> wt_elapsed_ms w < sp_deadline_ms policy ->
  match wait_step policy ticks (views n) w with
  | inl r => settled n /\ sr_deadline_fallback r = false /\ sr_stable_ms r = sp_stable_ms policy /\
             sr_elapsed_ms r = Z.of_nat n * sp_poll_ms policy /\ sr_observation r = observed views n
  | inr w => waiting (S n) w
  end.
Proof.
  intros (Helapsed & Hcached & Hlast) Hbefore. unfold wait_step.
  assert (Hsample : sample_observation (views n) (wt_cached w) =
    (cached_after views (S n), observed views n)).
  { rewrite Hcached. apply surjective_pairing. }
  rewrite Hsample. cbv zeta.
  set (stable := if (match wt_previous w with Some _ => _ | None => false end : bool) then _ else 0).
  assert (Hstable' : stable = Z.min (sp_stable_ms policy) (sp_poll_ms policy * quiet_run n)).
  { unfold stable. destruct n as [|m].
    - destruct Hlast as [_ ->]. cbn [quiet_run]. lia.
    - destruct Hlast as (Hs & -> & Hnot). cbn [quiet_run].
      destruct (startup_observations_quiet _ _ _ _); [|lia].
      pose proof (quiet_run_bound m). unfold settled in Hnot.
      assert (0 <= sp_poll_ms policy * quiet_run m) by nia.
      rewrite Hs, u32_small by lia. f_equal. ring. }
  rewrite Hstable'. clearbody stable. destruct (Z.leb_spec (sp_stable_ms policy)
    (Z.min (sp_stable_ms policy) (sp_poll_ms policy * quiet_run n))) as [Hs|Hs]; cbn.
  - split; [unfold settled; lia|]. split; [done|]. split; [lia|]. split; [lia|done].
  - split; [cbn|split; [done|]].
    + destruct (Z.ltb_spec (sp_deadline_ms policy - wt_elapsed_ms w) (sp_poll_ms policy)); lia.
    + split; [cbn; lia|]. split; [done|]. unfold settled. lia.
Qed.

(** The result: the first sample that settles before the deadline, or the deadline. *)
Definition wait_result (r : StartupReadinessResult) : Prop :=
  (exists n, settled n /\ (forall m, (m < n)%nat -> ~ settled m) /\
     Z.of_nat n * sp_poll_ms policy < sp_deadline_ms policy /\
     sr_deadline_fallback r = false /\ sr_stable_ms r = sp_stable_ms policy /\
     sr_elapsed_ms r = Z.of_nat n * sp_poll_ms policy /\ sr_observation r = observed views n) \/
  (sr_deadline_fallback r = true /\ sr_elapsed_ms r = sp_deadline_ms policy /\
   forall m, Z.of_nat m * sp_poll_ms policy < sp_deadline_ms policy -> ~ settled m).

Lemma wait_loop_spec fuel n w :
  waiting n w -> (forall m, (m < n)%nat -> ~ settled m) ->
  sp_deadline_ms policy <= Z.of_nat (n + fuel) * sp_poll_ms policy ->
  exists r, wait_loop fuel policy ticks views n w = Some r /\ wait_result r.
Proof.
  revert n w. induction fuel as [|fuel IH]; intros n w Hw Hno Hfuel; cbn [wait_loop];
    pose proof Hw as (Helapsed & _); destruct (Z.ltb_spec (wt_elapsed_ms w) (sp_deadline_ms policy)) as [Hlt|Hge].
  - rewrite Nat.add_0_r in Hfuel. lia.
  - eexists. split; [done|]. right. cbn. split; [done|]. split; [lia|].
    intros m Hm. apply Hno. nia.
  - pose proof (wait_step_spec n w Hw Hlt) as Hstep.
    destruct (wait_step policy ticks (views n) w) as [r|w'].
    + destruct Hstep as (Hset & Hfall & Hst & Hel & Hob). exists r. split; [done|].
      left. exists n. split; [exact Hset|]. split; [exact Hno|]. split; [lia|]. by split_and!.
    + apply IH; [exact Hstep| |by rewrite Nat.add_succ_l, <-Nat.add_succ_r].
      intros m Hm. destruct Hstep as (_ & _ & _ & _ & Hset).
      destruct (decide (m = n)) as [->|]; [exact Hset|]. apply Hno. lia.
  - eexists. split; [done|]. right. cbn. split; [done|]. split; [lia|].
    intros m Hm. apply Hno. nia.
Qed.

End Waiting.

(** * The policy's bounds *)

Lemma bounded_environment_range getenv name fallback minimum maximum :
  minimum <= fallback <= maximum ->
  minimum <= bounded_environment_u32 getenv name fallback minimum maximum <= maximum.
Proof.
  intros Hf. unfold bounded_environment_u32. destruct (getenv name) as [[|c text]|]; [done| |done].
  destruct (strtoull_all _) as [value|]; [|done].
  destruct (Z.ltb_spec value minimum), (Z.ltb_spec maximum value); cbn [orb]; lia.
Qed.

Lemma policy_range getenv :
  let policy := startup_readiness_policy_from_environment getenv in
  100 <= sp_poll_ms policy <= 1000 /\ 1000 <= sp_stable_ms policy <= 15000 /\
  5000 <= sp_deadline_ms policy <= 60000 /\ sp_stable_ms policy <= sp_deadline_ms policy /\
  50 <= sp_max_cpu_permille policy <= 4000.
Proof.
  unfold startup_readiness_policy_from_environment. cbv zeta. cbn [sp_poll_ms sp_stable_ms
    sp_deadline_ms sp_max_cpu_permille].
  pose proof (bounded_environment_range getenv "DRMID_READY_POLL_MS" 250 100 1000 ltac:(lia)).
  pose proof (bounded_environment_range getenv "DRMID_READY_STABLE_MS" 3000 1000 15000 ltac:(lia)).
  pose proof (bounded_environment_range getenv "DRMID_READY_DEADLINE_MS" 45000 5000 60000 ltac:(lia)).
  pose proof (bounded_environment_range getenv "DRMID_READY_CPU_PERMILLE" 500 50 4000 ltac:(lia)).
  destruct (Z.ltb_spec (bounded_environment_u32 getenv "DRMID_READY_DEADLINE_MS" 45000 5000 60000)
    (bounded_environment_u32 getenv "DRMID_READY_STABLE_MS" 3000 1000 15000)); lia.
Qed.

(** The rate the code divides by. *)
Definition ticks_of (configured_ticks : Z) : Z :=
  if 0 <? configured_ticks then configured_ticks else 100.

Lemma wait_spec getenv configured_ticks views fuel :
  (600 <= fuel)%nat ->
  exists r, wait_for_adaptive_startup_readiness fuel configured_ticks
      (startup_readiness_policy_from_environment getenv) views = Some r /\
    wait_result (startup_readiness_policy_from_environment getenv) (ticks_of configured_ticks) views r.
Proof.
  intros Hfuel. pose proof (policy_range getenv) as (Hp & Hs & Hd & _).
  unfold wait_for_adaptive_startup_readiness. cbv zeta. fold (ticks_of configured_ticks).
  apply wait_loop_spec; first [lia|apply waiting_initial; lia|intros m Hm; lia|cbn [Nat.add]; nia].
Qed.

(** A run of quiet samples, sample by sample. *)
Lemma quiet_run_samples policy ticks views n i :
  Z.of_nat n - quiet_run policy ticks views n < Z.of_nat i -> (i <= n)%nat -> (1 <= i)%nat ->
  startup_observations_quiet (observed views (i - 1)) (observed views i) policy ticks = true.
Proof.
  induction n as [|n IH]; intros Hi Hle Hpos; [lia|]. revert Hi. cbn [quiet_run].
  destruct (startup_observations_quiet (observed views n) _ _ _) eqn:E; intros Hi; [|lia].
  destruct (decide (i = S n)) as [->|]; [by rewrite Nat.sub_succ, Nat.sub_0_r|]. apply IH; lia.
Qed.

Lemma quiet_run_since policy ticks views m k :
  (forall i, (m <= i)%nat ->
     startup_observations_quiet (observed views i) (observed views (S i)) policy ticks = true) ->
  Z.of_nat k <= quiet_run policy ticks views (m + k).
Proof.
  intros Hq. induction k as [|k IH]; [pose proof (quiet_run_bound policy ticks views (m + 0)); lia|].
  rewrite Nat.add_succ_r. cbn [quiet_run]. rewrite (Hq (m + k)%nat) by lia. lia.
Qed.

(** Both processes live on between two samples, the services run, and each process used
    at most the permitted share of the time between the samples, and a tick. *)
Definition stays_ready (policy : StartupReadinessPolicy) (ticks : Z)
    (previous current : StartupReadinessObservation) : Prop :=
  let lives process process' :=
    process_alive process = true /\ process_alive process' = true /\
    po_pid process' = po_pid process /\
    po_start_time_ticks process' = po_start_time_ticks process /\
    0 <= po_cpu_ticks process' - po_cpu_ticks process <=
      sp_max_cpu_permille policy * sp_poll_ms policy * ticks / 1000000 + 1 in
  so_boot_animation_stopped current = true /\ so_device_boot_complete current = true /\
  so_user_storage_ready current = true /\ so_service_manager_running current = true /\
  so_media_drm_running current = true /\ so_drm_service_running current = true /\
  so_process_count current = so_process_count previous /\ so_process_count current <> 0 /\
  lives (so_system_server previous) (so_system_server current) /\
  lives (so_surface_flinger previous) (so_surface_flinger current).

Lemma services_ready observation :
  startup_base_services_ready observation = true ->
  so_boot_animation_stopped observation = true /\ so_device_boot_complete observation = true /\
  so_user_storage_ready observation = true /\ so_service_manager_running observation = true /\
  so_media_drm_running observation = true /\ so_drm_service_running observation = true /\
  process_alive (so_system_server observation) = true /\
  process_alive (so_surface_flinger observation) = true /\ so_process_count observation <> 0.
Proof.
  unfold startup_base_services_ready, readiness_bits. intros [Hbits Hcount]%andb_true_iff.
  apply negb_true_iff, Z.eqb_neq in Hcount.
  destruct (so_boot_animation_stopped observation), (so_device_boot_complete observation),
    (so_user_storage_ready observation), (so_service_manager_running observation),
    (so_media_drm_running observation), (so_drm_service_running observation),
    (process_alive (so_system_server observation)), (process_alive (so_surface_flinger observation));
    first [discriminate Hbits|by split_and!].
Qed.

Lemma quiet_stays_ready policy ticks previous current :
  0 <= sp_max_cpu_permille policy * sp_poll_ms policy < 2 ^ 24 -> 0 <= ticks < 2 ^ 40 ->
  startup_observations_quiet previous current policy ticks = true ->
  stays_ready policy ticks previous current.
Proof.
  intros Hcpu Hticks. unfold startup_observations_quiet. cbv zeta.
  destruct (negb (startup_base_services_ready current)) eqn:Eready; [done|]. cbn [orb].
  destruct (_ || _) eqn:E; [done|]. btrue.
  intros [Hsys Hsurf]%andb_true_iff. apply Z.leb_le in Hsys, Hsurf.
  apply services_ready in Eready as (?&?&?&?&?&?&?&?&?).
  assert (Hallowed : allowed_ticks policy ticks =
    sp_max_cpu_permille policy * sp_poll_ms policy * ticks / 1000000 + 1).
  { unfold allowed_ticks. rewrite (u64_small (_ * sp_poll_ms policy)) by lia.
    rewrite (u64_small (_ * ticks)) by nia. apply u64_small.
    assert (0 <= sp_max_cpu_permille policy * sp_poll_ms policy * ticks < 2 ^ 64 - 1) by nia.
    Z.to_euclidean_division_equations. lia. }
  rewrite Hallowed in Hsys, Hsurf. unfold stays_ready. cbv zeta. split_and!; (done || lia || congruence).
Qed.

(** * Properties *)

(** the wait is over after at most 600 samples, whatever the environment sets and
    whatever the system does: at the first sample that ends a long enough quiet run, if
    the deadline has not passed, and otherwise at the deadline, at most a minute after
    the start, with the fallback flag. *)
Lemma startup_wait_ends getenv configured_ticks views :
  let policy := startup_readiness_policy_from_environment getenv in
  exists r, wait_for_adaptive_startup_readiness 600 configured_ticks policy views = Some r /\
    wait_result policy (ticks_of configured_ticks) views r /\
    sr_elapsed_ms r <= sp_deadline_ms policy <= 60000.
Proof.
  intros policy. destruct (wait_spec getenv configured_ticks views 600 ltac:(lia)) as (r & Hrun & Hr).
  exists r. split; [exact Hrun|]. split; [exact Hr|].
  pose proof (policy_range getenv) as (_ & _ & Hd & _). fold policy in Hr, Hd.
  split; [|lia]. destruct Hr as [(n & _ & _ & Hn & _ & _ & -> & _)|(_ & -> & _)]; lia.
Qed.

(** a wait that does not end by the deadline has really seen a quiet system: every
    sample of the last [stable_ms] had all services running and the same two processes,
    alive since the sample before, with no process come or gone and little processor
    time used. *)
Lemma startup_ready_sound getenv configured_ticks views r :
  let policy := startup_readiness_policy_from_environment getenv in
  configured_ticks < 2 ^ 40 ->
  wait_for_adaptive_startup_readiness 600 configured_ticks policy views = Some r ->
  sr_deadline_fallback r = false ->
  exists first last, (first < last)%nat /\
    sp_stable_ms policy <= sp_poll_ms policy * (Z.of_nat last - Z.of_nat first) /\
    sr_observation r = observed views last /\
    forall i, (first <= i < last)%nat ->
      stays_ready policy (ticks_of configured_ticks) (observed views i) (observed views (S i)).
Proof.
  intros policy Hticks Hrun Hok.
  destruct (wait_spec getenv configured_ticks views 600 ltac:(lia)) as (r' & Hrun' & Hr).
  fold policy in Hrun', Hr. rewrite Hrun in Hrun'. apply (inj Some) in Hrun' as <-.
  destruct Hr as [(n & Hset & _ & _ & _ & _ & _ & Hobs)|(Hfall & _)]; [|congruence].
  pose proof (policy_range getenv) as (Hp & Hs & _ & _ & Hc). fold policy in Hp, Hs, Hc.
  pose proof (quiet_run_bound policy (ticks_of configured_ticks) views n) as Hb.
  set (run := quiet_run policy (ticks_of configured_ticks) views n) in *.
  unfold settled in Hset. fold run in Hset. assert (0 < run) by nia.
  exists (n - Z.to_nat run)%nat, n. split; [lia|]. split; [nia|]. split; [exact Hobs|].
  intros i Hi. apply quiet_stays_ready; [nia|unfold ticks_of; destruct (Z.ltb_spec 0 configured_ticks); lia|].
  pose proof (quiet_run_samples policy (ticks_of configured_ticks) views n (S i)) as Hq.
  fold run in Hq. rewrite Nat.sub_succ, Nat.sub_0_r in Hq. apply Hq; lia.
Qed.

(** C37: a system that becomes quiet in time is noticed: if every sample from the [m]-th
    on is quiet, and two polls and the stable time still fit before the deadline, the wait
    ends without the fallback, at most a poll after the stable time. *)
Theorem startup_quiet_noticed getenv configured_ticks views m :
  let policy := startup_readiness_policy_from_environment getenv in
  (forall i, (m <= i)%nat -> startup_observations_quiet (observed views i) (observed views (S i))
     policy (ticks_of configured_ticks) = true) ->
  Z.of_nat m * sp_poll_ms policy + sp_stable_ms policy + sp_poll_ms policy <= sp_deadline_ms policy ->
  exists r, wait_for_adaptive_startup_readiness 600 configured_ticks policy views = Some r /\
    sr_deadline_fallback r = false /\
    sr_elapsed_ms r < Z.of_nat m * sp_poll_ms policy + sp_stable_ms policy + sp_poll_ms policy.
Proof.
  intros policy Hquiet Hfits.
  destruct (wait_spec getenv configured_ticks views 600 ltac:(lia)) as (r & Hrun & Hr).
  fold policy in Hrun, Hr. exists r. split; [exact Hrun|].
  pose proof (policy_range getenv) as (Hp & Hs & _). fold policy in Hp, Hs.
  set (k := Z.to_nat ((sp_stable_ms policy + sp_poll_ms policy - 1) / sp_poll_ms policy)).
  assert (Hk : sp_stable_ms policy <= sp_poll_ms policy * Z.of_nat k < sp_stable_ms policy + sp_poll_ms policy).
  { unfold k. rewrite Z2Nat.id by (apply Z.div_pos; lia).
    pose proof (Z.div_mod (sp_stable_ms policy + sp_poll_ms policy - 1) (sp_poll_ms policy) ltac:(lia)).
    pose proof (Z.mod_pos_bound (sp_stable_ms policy + sp_poll_ms policy - 1) (sp_poll_ms policy) ltac:(lia)).
    lia. }
  assert (Hset : settled policy (ticks_of configured_ticks) views (m + k)).
  { unfold settled. pose proof (quiet_run_since policy (ticks_of configured_ticks) views m k Hquiet). nia. }
  assert (Htime : Z.of_nat (m + k) * sp_poll_ms policy <
    Z.of_nat m * sp_poll_ms policy + sp_stable_ms policy + sp_poll_ms policy) by nia.
  destruct Hr as [(n & _ & Hfirst & _ & Hok & _ & -> & _)|(_ & _ & Hnone)].
  - split; [exact Hok|]. destruct (Nat.lt_ge_cases (m + k) n) as [Hlt|Hge].
    + by destruct (Hfirst _ Hlt).
    + nia.
  - destruct (Hnone (m + k)%nat); [lia|exact Hset].
Qed.

(** * Concrete runs *)

Definition demo_stat (name cpu : string) : string :=
  "7 (" +:+ name +:+ ") S 1 7 7 0 -1 0 0 0 0 0 " +:+ cpu +:+ " 3 0 0 20 0 99 0 500 0".
Definition demo_view : SystemView := {|
  vw_property name :=
    if bool_decide (name = "init.svc.bootanim") then "stopped"
    else if bool_decide (name = "init.svc.servicemanager") then "running"
    else if bool_decide (name = "init.svc.mediadrm") then "running" else "";
  vw_stat pid := Some (demo_stat "a b) c" "40");
  vw_comm pid := Some (if pid =? 700 then "system_server" else if pid =? 800 then "surfaceflinger"
                       else "init");
  vw_proc := Some ["1"; "700"; "cpuinfo"; "800"] |}.
Definition demo_env (name : string) : option string :=
  if bool_decide (name = "DRMID_READY_STABLE_MS") then Some "1000"
  else if bool_decide (name = "DRMID_READY_POLL_MS") then Some "1x" else None.

Lemma demo_wait_result :
  (fun r => (sr_elapsed_ms r, sr_deadline_fallback r)) <$>
    wait_for_adaptive_startup_readiness 600 100
      (startup_readiness_policy_from_environment demo_env) (fun _ => demo_view) = Some (1000, false).
Proof. vm_compute. reflexivity. Qed.

Lemma demo_observed n : observed (fun _ => demo_view) (S n) = observed (fun _ => demo_view) 1.
Proof.
  assert (Hc : forall n, cached_after (fun _ => demo_view) (S n) = (700, 800)).
  { clear n. intros n. induction n as [|n IH]; [vm_compute; reflexivity|].
    change (cached_after (fun _ => demo_view) (S (S n)))
      with ((sample_observation demo_view (cached_after (fun _ => demo_view) (S n))).1).
    rewrite IH. vm_compute. reflexivity. }
  unfold observed. by rewrite !Hc.
Qed.

Lemma demo_quiet i :
  startup_observations_quiet (observed (fun _ => demo_view) i) (observed (fun _ => demo_view) (S i))
    (startup_readiness_policy_from_environment demo_env) (ticks_of 100) = true.
Proof.
  rewrite demo_observed. destruct i as [|i]; [vm_compute; reflexivity|].
  rewrite demo_observed. vm_compute. reflexivity.
Qed.

Lemma startup_ready_sound_witness :
  exists first, stays_ready (startup_readiness_policy_from_environment demo_env) (ticks_of 100)
    (observed (fun _ => demo_view) first) (observed (fun _ => demo_view) (S first)).
Proof.
  pose proof demo_wait_result as Hrun.
  destruct (wait_for_adaptive_startup_readiness 600 100 _ _) as [r|] eqn:E; [|discriminate Hrun].
  apply (inj Some), (inj2 pair) in Hrun as [_ Hok].
  destruct (startup_ready_sound demo_env 100 (fun _ => demo_view) r) as (first & last & Hlt & _ & _ & Hall).
  - lia.
  - exact E.
  - exact Hok.
  - exists first. apply Hall. lia.
Defined.

Lemma startup_quiet_noticed_witness :
  exists r, wait_for_adaptive_startup_readiness 600 100
      (startup_readiness_policy_from_environment demo_env) (fun _ => demo_view) = Some r /\
    sr_deadline_fallback r = false.
Proof.
  destruct (startup_quiet_noticed demo_env 100 (fun _ => demo_view) 0) as (r & Hrun & Hok & _).
  - intros i _. apply demo_quiet.
  - vm_compute. discriminate.
  - exists r. split; [exact Hrun|exact Hok].
Defined.

(** A process that took over the cached pid, under whatever name, passes for the one
    that was there as long as no other process has its name. *)
Definition demo_reused : SystemView := {|
  vw_property := vw_property demo_view;
  vw_stat := vw_stat demo_view;
  vw_comm pid := Some (if pid =? 800 then "surfaceflinger" else "sh");
  vw_proc := vw_proc demo_view |}.

Lemma renamed_process_accepted :
  let '(cached, observation) := sample_observation demo_reused (700, 800) in
  named demo_reused 700 "system_server" = false /\
  startup_base_services_ready observation = true /\ cached = (700, 800).
Proof. vm_compute. split_and!; reflexivity. Qed.
