(* ===== verification/DaemonLock.v ===== *)
(** The daemon's lock file (file_lifecycle.cpp) under concurrency: every call of
    acquire_daemon_lock, write_daemon_lock_pid, daemon_lock_owner_alive and
    release_daemon_lock that touches shared state is one step of one process over
    one directory entry, the inodes it has led to and their flock owners. *)

From S2P Require Import Prelude.

(** Where a process is.  [PcProbe] and [PcProbing] are inside daemon_lock_owner_alive,
    the others inside or between acquire_daemon_lock and release_daemon_lock; the
    number is the inode its descriptor is open on. *)

(** src/file_lifecycle.cpp:237-358 [DaemonLockHandle] *)
Inductive daemon_pc :=
  | PcIdle
  | PcOpened (i : nat)
  | PcLocked (i : nat)
  | PcHolding (i : nat)
  | PcServing (i : nat)
  | PcMatched (i : nat)
  | PcReleasing (i : nat)
  | PcProbe (i : nat)
  | PcProbing (i : nat).

#[global] Instance daemon_pc_eq_dec : EqDecision daemon_pc.
Proof. solve_decision. Defined.

(** [dl_named]: the inode kDaemonLockName leads to; [dl_text]: the pid an inode
    holds, [None] while it is empty. *)
Record daemon_files := {
  dl_named : option nat;
  dl_flock : nat -> option nat;
  dl_text : nat -> option nat;
  dl_pc : nat -> daemon_pc;
}.

Definition set_pc (p : nat) (pc : daemon_pc) (s : daemon_files) : daemon_files :=
  {| dl_named := dl_named s; dl_flock := dl_flock s; dl_text := dl_text s;
     dl_pc := <[p := pc]> (dl_pc s) |}.

Definition set_named (n : option nat) (s : daemon_files) : daemon_files :=
  {| dl_named := n; dl_flock := dl_flock s; dl_text := dl_text s; dl_pc := dl_pc s |}.

Definition set_flock (i : nat) (h : option nat) (s : daemon_files) : daemon_files :=
  {| dl_named := dl_named s; dl_flock := <[i := h]> (dl_flock s); dl_text := dl_text s;
     dl_pc := dl_pc s |}.

Definition set_text (i : nat) (t : option nat) (s : daemon_files) : daemon_files :=
  {| dl_named := dl_named s; dl_flock := dl_flock s; dl_text := <[i := t]> (dl_text s);
     dl_pc := dl_pc s |}.

(** The inode the descriptor of a process is open on, and the inode it has locked. *)
Definition open_on (pc : daemon_pc) : option nat :=
  match pc with
  | PcIdle => None
  | PcOpened i | PcLocked i | PcHolding i | PcServing i | PcMatched i | PcReleasing i
  | PcProbe i | PcProbing i => Some i
  end.

Definition locks (pc : daemon_pc) : option nat :=
  match pc with
  | PcLocked i | PcHolding i | PcServing i | PcMatched i | PcReleasing i | PcProbing i => Some i
  | _ => None
  end.

(** * acquire_daemon_lock *)

(** openat with O_CREAT: the named inode, or a new one, [fresh]. *)

(** src/file_lifecycle.cpp:237-252 [acquire_daemon_lock] *)
Definition acquire_open (fresh : nat) (p : nat) (s : daemon_files) : daemon_files :=
  match dl_named s with
  | Some i => set_pc p (PcOpened i) s
  | None => set_pc p (PcOpened fresh) (set_text fresh None (set_named (Some fresh) s))
  end.

(** flock with LOCK_EX and LOCK_NB; [ok] is false when the call fails although the
    lock is free. *)

(** src/file_lifecycle.cpp:253-259 [acquire_daemon_lock] *)
Definition acquire_flock (ok : bool) (i p : nat) (s : daemon_files) : daemon_files :=
  if ok && bool_decide (dl_flock s i = None)
  then set_pc p (PcLocked i) (set_flock i (Some p) s)
  else set_pc p PcIdle s.

(** src/file_lifecycle.cpp:261-271 [acquire_daemon_lock] *)
Definition acquire_fstat (regular : bool) (i p : nat) (s : daemon_files) : daemon_files :=
  if regular then set_pc p (PcHolding i) s
  else set_pc p PcIdle (set_flock i None s).

(** * write_daemon_lock_pid *)

(** src/file_lifecycle.cpp:273-276 [write_daemon_lock_pid] *)
Definition pid_truncate (i p : nat) (s : daemon_files) : daemon_files := set_text i None s.

(** src/file_lifecycle.cpp:277-280 [write_daemon_lock_pid] *)
Definition pid_write (i p : nat) (s : daemon_files) : daemon_files :=
  set_pc p (PcServing i) (set_text i (Some p) s).

(** * release_daemon_lock *)

(** src/file_lifecycle.cpp:340-346 [release_daemon_lock] *)
Definition release_match (ok : bool) (i p : nat) (s : daemon_files) : daemon_files :=
  set_pc p (if ok && bool_decide (dl_named s = Some i) then PcMatched i else PcReleasing i) s.

(** unlinkat removes whatever the name leads to now. *)

(** src/file_lifecycle.cpp:347-350 [release_daemon_lock] *)
Definition release_unlink (ok : bool) (i p : nat) (s : daemon_files) : daemon_files :=
  set_pc p (PcReleasing i) (if ok then set_named None s else s).

(** src/file_lifecycle.cpp:353-357 [release_daemon_lock] *)
Definition release_unlock (i p : nat) (s : daemon_files) : daemon_files :=
  set_pc p PcIdle (set_flock i None s).

(** * daemon_lock_owner_alive *)

(** src/file_lifecycle.cpp:282-301 [daemon_lock_owner_alive] *)
Definition probe_open (p : nat) (s : daemon_files) : daemon_files :=
  match dl_named s with
  | Some i => set_pc p (PcProbe i) s
  | None => s
  end.

(** The probe takes the lock when it is free, and is told the stored pid otherwise. *)

(** src/file_lifecycle.cpp:302-331 [daemon_lock_owner_alive] *)
Definition probe_flock (i p : nat) (s : daemon_files) : daemon_files * option nat :=
  match dl_flock s i with
  | None => (set_pc p (PcProbing i) (set_flock i (Some p) s), None)
  | Some _ => (set_pc p PcIdle s, dl_text s i)
  end.

(** src/file_lifecycle.cpp:304-308 [daemon_lock_owner_alive] *)
Definition probe_unlock (i p : nat) (s : daemon_files) : daemon_files :=
  set_pc p PcIdle (set_flock i None s).

(** A process that dies loses its descriptor, and the lock with it. *)
Definition crash (p : nat) (s : daemon_files) : daemon_files :=
  set_pc p PcIdle
    match locks (dl_pc s p) with Some i => set_flock i None s | None => s end.

(** cleanup_module_state_files removes the name, whoever runs. *)

(** src/file_lifecycle.cpp:221-221 [cleanup_module_state_files] *)
Definition cleanup_unlink (s : daemon_files) : daemon_files := set_named None s.

(** * Interleavings *)

(** No descriptor is open on it, so the file system may use it for a new file. *)
Definition unused (i : nat) (s : daemon_files) : Prop := forall q, open_on (dl_pc s q) <> Some i.

(** A step of process [p]; [c] says whether the module's files may be cleaned up. *)
Inductive daemon_step (c : bool) (p : nat) (s : daemon_files) : daemon_files -> Prop :=
  | DsOpen fresh :
      dl_pc s p = PcIdle -> unused fresh s -> daemon_step c p s (acquire_open fresh p s)
  | DsFlock ok i : dl_pc s p = PcOpened i -> daemon_step c p s (acquire_flock ok i p s)
  | DsFstat regular i : dl_pc s p = PcLocked i -> daemon_step c p s (acquire_fstat regular i p s)
  | DsTruncate i : dl_pc s p = PcHolding i -> daemon_step c p s (pid_truncate i p s)
  | DsWrite i : dl_pc s p = PcHolding i -> daemon_step c p s (pid_write i p s)
  | DsMatch ok i :
      dl_pc s p = PcHolding i \/ dl_pc s p = PcServing i ->
      daemon_step c p s (release_match ok i p s)
  | DsUnlink ok i : dl_pc s p = PcMatched i -> daemon_step c p s (release_unlink ok i p s)
  | DsUnlock i : dl_pc s p = PcReleasing i -> daemon_step c p s (release_unlock i p s)
  | DsProbeOpen : dl_pc s p = PcIdle -> daemon_step c p s (probe_open p s)
  | DsProbeFlock i : dl_pc s p = PcProbe i -> daemon_step c p s (probe_flock i p s).1
  | DsProbeUnlock i : dl_pc s p = PcProbing i -> daemon_step c p s (probe_unlock i p s)
  | DsCrash : daemon_step c p s (crash p s)
  | DsCleanup : c = true -> daemon_step c p s (cleanup_unlink s).

(** At boot nothing runs; a file of an earlier boot may be there, with its pid. *)
Definition daemon_boot (s : daemon_files) : Prop :=
  (forall q, dl_pc s q = PcIdle) /\ (forall i, dl_flock s i = None).

(** Steps of any processes, and of the processes in [who] only. *)
Definition daemon_steps (c : bool) (who : nat -> Prop) : relation daemon_files :=
  rtc (fun a b => exists p, who p /\ daemon_step c p a b).

Definition daemon_reachable (c : bool) (s : daemon_files) : Prop :=
  exists s0, daemon_boot s0 /\ daemon_steps c (fun _ => True) s0 s.

(** * What every interleaving keeps *)

Record lock_owners (s : daemon_files) : Prop := {
  lo_flock : forall q i, dl_flock s i = Some q <-> locks (dl_pc s q) = Some i;
  lo_text : forall q i, dl_pc s q = PcServing i -> dl_text s i = Some q;
}.

(** Without a cleanup, who is about to unlink the name has the inode it leads to. *)
Definition own_name (s : daemon_files) : Prop :=
  forall q i, dl_pc s q = PcMatched i -> dl_named s = Some i.

Ltac at_process q p :=
  destruct (decide (p = q)) as [<-|?];
  [rewrite ?(fn_lookup_insert (dl_pc _) p)|rewrite ?(fn_lookup_insert_ne (dl_pc _) p q) by done].

(** Process [p] moves on with the locks it has. *)
Lemma owners_move p pc named text s :
  lock_owners s -> locks pc = locks (dl_pc s p) ->
  (forall q i, (<[p := pc]> (dl_pc s)) q = PcServing i -> text i = Some q) ->
  lock_owners {| dl_named := named; dl_flock := dl_flock s; dl_text := text;
                 dl_pc := <[p := pc]> (dl_pc s) |}.
Proof.
  intros [Hf Ht] Hpc Htext. split; cbn; [|done].
  intros q i. at_process q p; [|done]. by rewrite Hpc.
Qed.

Lemma owners_take p pc i s :
  lock_owners s -> locks (dl_pc s p) = None -> locks pc = Some i -> (forall j, pc <> PcServing j) ->
  dl_flock s i = None -> lock_owners (set_pc p pc (set_flock i (Some p) s)).
Proof.
  intros [Hf Ht] Hnone Hpc Hns Hfree. split; cbn.
  - intros q j. at_process q p.
    + destruct (decide (i = j)) as [<-|]; [rewrite fn_lookup_insert, Hpc; naive_solver|].
      rewrite fn_lookup_insert_ne, Hf, Hnone, Hpc by done. naive_solver.
    + destruct (decide (i = j)) as [<-|]; [|rewrite fn_lookup_insert_ne by done; apply Hf].
      rewrite fn_lookup_insert, <- Hf, Hfree. naive_solver.
  - intros q j. at_process q p; [by intros ?%Hns|by apply Ht].
Qed.

Lemma owners_drop p i s :
  lock_owners s -> locks (dl_pc s p) = Some i -> lock_owners (set_pc p PcIdle (set_flock i None s)).
Proof.
  intros [Hf Ht] Hpc. split; cbn.
  - intros q j. at_process q p.
    + destruct (decide (i = j)) as [<-|]; [rewrite fn_lookup_insert; naive_solver|].
      rewrite fn_lookup_insert_ne, Hf, Hpc by done. naive_solver.
    + destruct (decide (i = j)) as [<-|]; [|rewrite fn_lookup_insert_ne by done; apply Hf].
      rewrite fn_lookup_insert, <- Hf. apply Hf in Hpc. rewrite Hpc. naive_solver.
  - intros q j. at_process q p; [done|apply Ht].
Qed.

(** The texts after a step that leaves them alone and does not start serving. *)
Lemma serving_move p pc s q i :
  lock_owners s -> (forall j, pc <> PcServing j) ->
  (<[p := pc]> (dl_pc s)) q = PcServing i -> dl_text s i = Some q.
Proof. intros [_ Ht] Hns. at_process q p; [by intros ?%Hns|apply Ht]. Qed.

(** Nobody else serves an inode [p] has locked or that nobody has open. *)
Lemma serving_other s p q i :
  lock_owners s -> dl_pc s q = PcServing i -> locks (dl_pc s p) = Some i -> p = q.
Proof.
  intros [Hf _] Hq Hp. apply Hf in Hp.
  assert (locks (dl_pc s q) = Some i) as Hq' by (by rewrite Hq). apply Hf in Hq'. congruence.
Qed.

Lemma owners_same named s :
  lock_owners s ->
  lock_owners {| dl_named := named; dl_flock := dl_flock s; dl_text := dl_text s; dl_pc := dl_pc s |}.
Proof. intros [Hf Ht]. by split. Qed.

Create HintDb daemon.
#[local] Hint Resolve serving_move owners_move owners_drop owners_take : daemon.

Lemma daemon_step_owners c p s s' : daemon_step c p s s' -> lock_owners s -> lock_owners s'.
Proof.
  intros Hstep Hs. pose proof Hs as [Hf Ht].
  destruct Hstep as [fresh Hpc Hnew|ok i Hpc|regular i Hpc|i Hpc|i Hpc|ok i Hpc|ok i Hpc|i Hpc
    |Hpc|i Hpc|i Hpc| |].
  - unfold acquire_open. destruct (dl_named s) as [i|].
    + apply (owners_move p _ _ _ s); [done|by rewrite Hpc|]. intros q j. by apply serving_move.
    + apply (owners_move p _ _ _ s); [done|by rewrite Hpc|]. intros q j. cbn. at_process q p; [done|].
      intros Hq. rewrite fn_lookup_insert_ne; [by apply Ht|].
      intros <-. apply (Hnew q). by rewrite Hq.
  - unfold acquire_flock. destruct (ok && _) eqn:E.
    + apply andb_prop in E as [_ E%bool_decide_eq_true]. apply owners_take; by rewrite ?Hpc.
    + apply (owners_move p _ _ _ s); [done|by rewrite Hpc|]. intros q j. by apply serving_move.
  - destruct regular; cbn; [|apply owners_drop; by rewrite ?Hpc].
    apply (owners_move p _ _ _ s); [done|by rewrite Hpc|]. intros q j. by apply serving_move.
  - split; cbn; [done|]. intros q j Hq. destruct (decide (i = j)) as [<-|].
    + assert (p = q) as <- by (apply (serving_other s p q i); rewrite ?Hpc; done). congruence.
    + rewrite fn_lookup_insert_ne by done. by apply Ht.
  - apply (owners_move p _ _ _ s); [done|by rewrite Hpc|]. intros q j. cbn. at_process q p.
    + intros [= <-]. by rewrite fn_lookup_insert.
    + intros Hq. destruct (decide (i = j)) as [<-|]; [|rewrite fn_lookup_insert_ne by done; by apply Ht].
      assert (p = q) as <- by (apply (serving_other s p q i); rewrite ?Hpc; done). done.
  - apply (owners_move p _ _ _ s); [done| |intros q j; apply serving_move; [done|by case_match]].
    destruct Hpc as [-> | ->]; by case_match.
  - unfold release_unlink. destruct ok; (apply (owners_move p _ _ _ s); [done|by rewrite Hpc|]);
      intros q j; by apply (serving_move p (PcReleasing i) s).
  - apply owners_drop; by rewrite ?Hpc.
  - unfold probe_open. destruct (dl_named s) as [i|]; [|done].
    apply (owners_move p _ _ _ s); [done|by rewrite Hpc|]. intros q j. by apply serving_move.
  - unfold probe_flock. destruct (dl_flock s i) as [h|] eqn:E; cbn.
    + apply (owners_move p _ _ _ s); [done|by rewrite Hpc|]. intros q j. by apply serving_move.
    + apply owners_take; by rewrite ?Hpc.
  - apply owners_drop; by rewrite ?Hpc.
  - unfold crash. destruct (locks (dl_pc s p)) as [i|] eqn:E; [by apply owners_drop|].
    apply (owners_move p _ _ _ s); [done|by rewrite E|]. intros q j. by apply serving_move.
  - by apply owners_same.
Qed.

Lemma own_name_move p pc s :
  own_name s -> (forall i, pc = PcMatched i -> dl_named s = Some i) -> own_name (set_pc p pc s).
Proof. intros Hn Hpc q i. cbn. at_process q p; [apply Hpc|apply Hn]. Qed.

Lemma daemon_step_name p s s' : daemon_step false p s s' -> lock_owners s -> own_name s -> own_name s'.
Proof.
  intros Hstep Hs Hn.
  assert (Hmove : forall pc s1, dl_named s1 = dl_named s -> dl_pc s1 = dl_pc s ->
    (forall i, pc <> PcMatched i) -> own_name (set_pc p pc s1)).
  { intros pc s1 Hnm Hps Hpc. apply own_name_move; [|by intros i ?%Hpc].
    intros q i. rewrite Hnm, Hps. apply Hn. }
  destruct Hstep as [fresh Hpc Hnew|ok i Hpc|regular i Hpc|i Hpc|i Hpc|ok i Hpc|ok i Hpc|i Hpc
    |Hpc|i Hpc|i Hpc| |Hc]; try discriminate Hc; try (by apply Hmove); try done.
  - unfold acquire_open. destruct (dl_named s) as [i|] eqn:E; [by apply Hmove|].
    intros q j. cbn. at_process q p; [done|]. intros Hq%Hn. congruence.
  - unfold acquire_flock. case_match; by apply Hmove.
  - unfold acquire_fstat. case_match; by apply Hmove.
  - apply own_name_move; [done|]. intros j. destruct (ok && _) eqn:E; [|done].
    apply andb_prop in E as [_ E%bool_decide_eq_true]. by intros [= <-].
  - unfold release_unlink. destruct ok; [|by apply Hmove].
    intros q j. cbn. at_process q p; [done|]. intros Hq.
    pose proof (Hn q j Hq) as Hj. pose proof (Hn p i Hpc) as Hi.
    assert (i = j) as <- by congruence.
    assert (dl_flock s i = Some p) as Hp by (apply Hs; by rewrite Hpc).
    assert (dl_flock s i = Some q) as Hq' by (apply Hs; by rewrite Hq). congruence.
  - unfold probe_open. destruct (dl_named s) eqn:E; [by apply Hmove|done].
  - unfold probe_flock. destruct (dl_flock s i); by apply Hmove.
  - unfold crash. destruct (locks _); by apply Hmove.
Qed.

Lemma daemon_steps_owners c who s s' :
  daemon_steps c who s s' -> lock_owners s -> lock_owners s'.
Proof.
  induction 1 as [|s1 s2 s3 [p [_ Hstep]] _ IH]; [done|]. eauto using daemon_step_owners.
Qed.

Lemma daemon_reachable_owners c s : daemon_reachable c s -> lock_owners s.
Proof.
  intros (s0 & [Hidle Hfree] & Hsteps). apply (daemon_steps_owners _ _ _ _ Hsteps).
  split; intros q i; rewrite Hidle; [by rewrite Hfree|done].
Qed.

Lemma daemon_steps_name who s s' :
  daemon_steps false who s s' -> lock_owners s -> own_name s -> own_name s'.
Proof.
  induction 1 as [|s1 s2 s3 [p [_ Hstep]] _ IH]; [done|].
  eauto using daemon_step_owners, daemon_step_name.
Qed.

(** * A daemon that serves *)

(** What holds as long as [p] serves the named inode [i] and takes no step itself;
    [idle q] marks the processes that had not started when it was observed. *)
Record kept_out (p i : nat) (idle : nat -> Prop) (s : daemon_files) : Prop := {
  ko_serving : dl_pc s p = PcServing i;
  ko_named : dl_named s = Some i;
  ko_open : forall q j, idle q -> open_on (dl_pc s q) = Some j -> j = i;
}.

Lemma kept_out_move p i idle q pc s s1 :
  kept_out p i idle s -> q <> p -> dl_pc s1 = dl_pc s -> dl_named s1 = Some i ->
  (forall j, open_on pc = Some j -> idle q -> j = i) ->
  kept_out p i idle (set_pc q pc s1).
Proof.
  intros [Hp Hn Ho] Hne Hpcs Hnm Hpc. split; cbn; rewrite ?Hpcs; [|done|].
  - by rewrite fn_lookup_insert_ne.
  - intros r j Hr. at_process r q; [intros ?; by apply Hpc|by apply Ho].
Qed.

Lemma kept_out_step p i idle q s s' :
  q <> p -> lock_owners s -> own_name s -> daemon_step false q s s' ->
  kept_out p i idle s -> kept_out p i idle s'.
Proof.
  intros Hne Hs Hn Hstep Hk. pose proof Hk as [Hserving Hnamed Hopen].
  assert (Hmove : forall pc s1, dl_pc s1 = dl_pc s -> dl_named s1 = Some i ->
    open_on pc = open_on (dl_pc s q) \/ open_on pc = None \/ open_on pc = Some i ->
    kept_out p i idle (set_pc q pc s1)).
  { intros pc s1 H1 H2 Hpc. apply (kept_out_move _ _ _ _ _ s); [done..|].
    intros j Hj Hi. destruct Hpc as [Hpc|[Hpc|Hpc]]; [|congruence..].
    rewrite Hpc in Hj. by apply (Hopen q). }
  destruct Hstep as [fresh Hpc Hnew|ok j Hpc|regular j Hpc|j Hpc|j Hpc|ok j Hpc|ok j Hpc|j Hpc
    |Hpc|j Hpc|j Hpc| |Hc]; try discriminate Hc;
    try (by apply Hmove; [done..|rewrite Hpc; tauto]); try (by apply Hmove; tauto).
  - unfold acquire_open. rewrite Hnamed. apply Hmove; tauto.
  - unfold acquire_flock. case_match; (apply Hmove; [done..|rewrite Hpc; tauto]).
  - unfold acquire_fstat. case_match; (apply Hmove; [done..|rewrite Hpc; tauto]).
  - done.
  - unfold release_match. apply Hmove; [done..|]. left.
    destruct Hpc as [-> | ->]; by case_match.
  - unfold release_unlink. destruct ok; [|apply Hmove; [done..|rewrite Hpc; tauto]].
    assert (Some j = Some i) as [= ->] by (rewrite <- Hnamed; symmetry; by apply (Hn q)).
    destruct Hne. apply (serving_other s q p i Hs Hserving). by rewrite Hpc.
  - unfold probe_open. rewrite Hnamed. apply Hmove; tauto.
  - unfold probe_flock. destruct (dl_flock s j); (apply Hmove; [done..|rewrite Hpc; tauto]).
  - unfold crash. destruct (locks _); apply Hmove; tauto.
Qed.

Lemma kept_out_steps p i idle s s' :
  daemon_steps false (fun q => q <> p) s s' -> lock_owners s -> own_name s ->
  kept_out p i idle s -> kept_out p i idle s'.
Proof.
  induction 1 as [|s1 s2 s3 [q [Hne Hstep]] _ IH]; [done|].
  intros. apply IH; eauto using daemon_step_owners, daemon_step_name, kept_out_step.
Qed.

Lemma daemon_steps_everyone c who s s' :
  daemon_steps c who s s' -> daemon_steps c (fun _ => True) s s'.
Proof.
  induction 1 as [|s1 s2 s3 [q [_ Hstep]] _ IH]; [done|]. eapply rtc_l; [|done]. by exists q.
Qed.

Lemma daemon_reachable_steps c who s s' :
  daemon_reachable c s -> daemon_steps c who s s' -> daemon_reachable c s'.
Proof.
  intros (s0 & Hboot & H0) H1. exists s0. split; [done|].
  etrans; [done|by eapply daemon_steps_everyone].
Qed.

Lemma daemon_reachable_name s : daemon_reachable false s -> own_name s.
Proof.
  intros (s0 & [Hidle Hfree] & Hsteps). eapply daemon_steps_name; [done|..].
  - apply (daemon_reachable_owners false). exists s0. split; [done|constructor].
  - intros q i. by rewrite Hidle.
Qed.

(** An acquisition that meets no holder of the named file gets the lock. *)
Lemma acquire_free fresh p s :
  lock_owners s -> unused fresh s ->
  (forall i, dl_named s = Some i -> dl_flock s i = None) ->
  let i := default fresh (dl_named s) in
  let s' := pid_write i p (pid_truncate i p (acquire_fstat true i p
    (acquire_flock true i p (acquire_open fresh p s)))) in
  dl_pc s' p = PcServing i /\ dl_named s' = Some i /\ dl_text s' i = Some p /\
  dl_flock s' i = Some p.
Proof.
  intros [Hf _] Hnew Hfree i s'. subst s' i.
  assert (Hfresh : dl_flock s fresh = None).
  { destruct (dl_flock s fresh) as [q|] eqn:E; [|done]. apply Hf in E. destruct (Hnew q).
    by destruct (dl_pc s q). }
  unfold acquire_open, acquire_flock.
  destruct (dl_named s) as [i|] eqn:E; cbn; rewrite ?Hfresh, ?Hfree by done; cbn;
    by rewrite ?fn_lookup_insert.
Qed.

(** C38: a daemon that serves under the name of the lock file keeps later ones out.
    Assume that a daemon serves with the lock on the file the name leads to, as it does
    after an acquisition that meets no other process ([acquire_free]), but not after
    one that locked a file its owner had unlinked meanwhile ([two_daemons_reachable]);
    and that the module's files are not cleaned up.  Then as long as it runs the name
    goes on leading to its file; no other process holds a lock on that file, none that
    had not yet opened the name gets any lock, and a probe of the owner that has opened
    the file is told the daemon's pid. *)
Theorem daemon_excludes_later p i s s' :
  daemon_reachable false s -> dl_pc s p = PcServing i -> dl_named s = Some i ->
  daemon_steps false (fun q => q <> p) s s' ->
  dl_pc s' p = PcServing i /\ dl_named s' = Some i /\
  (forall q, locks (dl_pc s' q) = Some i -> q = p) /\
  (forall q, dl_pc s q = PcIdle -> locks (dl_pc s' q) = None) /\
  (forall q, dl_pc s' q = PcProbe i -> (probe_flock i q s').2 = Some p).
Proof.
  intros Hr Hp Hn Hsteps. pose proof (daemon_reachable_steps _ _ _ _ Hr Hsteps) as Hr'.
  pose proof (daemon_reachable_owners _ _ Hr') as Hs'.
  assert (kept_out p i (fun q => dl_pc s q = PcIdle) s') as [Hp' Hn' Ho'].
  { apply (kept_out_steps _ _ _ _ _ Hsteps).
    - by apply (daemon_reachable_owners false).
    - by apply daemon_reachable_name.
    - split; [done..|]. by intros q j ->. }
  assert (Hone : forall q, locks (dl_pc s' q) = Some i -> q = p).
  { intros q Hq. by apply (serving_other s' q p i). }
  split_and!; [done..| |].
  - intros q Hq. destruct (locks (dl_pc s' q)) as [j|] eqn:E; [|done].
    assert (j = i) as -> by (apply (Ho' q j Hq); by destruct (dl_pc s' q)).
    assert (q = p) as -> by (by apply Hone). congruence.
  - intros q _. unfold probe_flock.
    assert (dl_flock s' i = Some p) as -> by (apply Hs'; by rewrite Hp').
    by apply Hs'.
Qed.

(** * Concrete runs *)

Definition demo_boot : daemon_files :=
  {| dl_named := None; dl_flock := fun _ => None; dl_text := fun _ => None;
     dl_pc := fun _ => PcIdle |}.

(** Process 1 creates file 7 and serves; process 2 has the file open. *)
Definition demo_serving : daemon_files :=
  pid_write 7 1 (acquire_fstat true 7 1 (acquire_flock true 7 1 (acquire_open 7 1 demo_boot))).
Definition demo_waiting : daemon_files := acquire_open 8 2 demo_serving.
Definition demo_refused : daemon_files := acquire_flock true 7 2 demo_waiting.

(** Process 1 stops, process 2 locks the unlinked file, process 3 a new one. *)
Definition demo_stopped : daemon_files :=
  release_unlock 7 1 (release_unlink true 7 1 (release_match true 7 1 demo_waiting)).
Definition demo_second : daemon_files :=
  acquire_fstat true 7 2 (acquire_flock true 7 2 demo_stopped).
Definition demo_third : daemon_files :=
  acquire_fstat true 8 3 (acquire_flock true 8 3 (acquire_open 8 3 demo_second)).

Ltac one_step p := eapply rtc_l; [exists p; split; [done|]|].
Ltac never_open :=
  intros q; do 4 (destruct q as [|q]; [by vm_compute|]); by vm_compute.

Lemma demo_serving_steps : daemon_steps false (fun _ => True) demo_boot demo_serving.
Proof.
  one_step 1%nat; [by apply (DsOpen _ _ _ 7)|].
  one_step 1%nat; [by apply (DsFlock _ _ _ true 7)|].
  one_step 1%nat; [by apply (DsFstat _ _ _ true 7)|].
  one_step 1%nat; [by apply (DsWrite _ _ _ 7)|]. done.
Qed.

Lemma demo_serving_reachable : daemon_reachable false demo_serving.
Proof. exists demo_boot. split; [by split|apply demo_serving_steps]. Qed.

Lemma demo_waiting_step c : daemon_step c 2 demo_serving demo_waiting.
Proof. apply DsOpen; [done|never_open]. Qed.

Lemma daemon_excludes_later_witness :
  dl_pc demo_refused 1 = PcServing 7 /\ locks (dl_pc demo_refused 2) = None.
Proof.
  destruct (daemon_excludes_later 1 7 demo_serving demo_refused) as (Hp & _ & _ & Hlate & _).
  - apply demo_serving_reachable.
  - done.
  - done.
  - eapply rtc_l; [exists 2%nat; split; [lia|apply demo_waiting_step]|].
    apply rtc_once. exists 2%nat. split; [lia|]. by apply (DsFlock _ _ _ true 7).
  - split; [exact Hp|]. by apply Hlate.
Defined.

(** A process that opened the lock file before its owner released it locks the
    unlinked file and does not look at the name again, so a third one gets a new
    file of that name: two daemons hold "the" lock. *)
Lemma two_daemons_reachable :
  exists s, daemon_reachable false s /\ dl_pc s 2 = PcHolding 7 /\ dl_pc s 3 = PcHolding 8.
Proof.
  exists demo_third. split; [|done].
  eapply (daemon_reachable_steps _ (fun _ => True)); [apply demo_serving_reachable|].
  one_step 2%nat; [apply demo_waiting_step|].
  one_step 1%nat; [apply (DsMatch _ _ _ true 7); by right|].
  one_step 1%nat; [by apply (DsUnlink _ _ _ true 7)|].
  one_step 1%nat; [by apply (DsUnlock _ _ _ 7)|].
  one_step 2%nat; [by apply (DsFlock _ _ _ true 7)|].
  one_step 2%nat; [by apply (DsFstat _ _ _ true 7)|].
  one_step 3%nat; [apply (DsOpen _ _ _ 8); [done|never_open]|].
  one_step 3%nat; [by apply (DsFlock _ _ _ true 8)|].
  one_step 3%nat; [by apply (DsFstat _ _ _ true 8)|]. done.
Qed.

(** A cleanup while a daemon serves has the same effect at once. *)
Lemma cleanup_admits_second :
  exists s, daemon_reachable true s /\ dl_pc s 1 = PcServing 7 /\ dl_pc s 3 = PcHolding 8.
Proof.
  exists (acquire_fstat true 8 3 (acquire_flock true 8 3 (acquire_open 8 3
    (cleanup_unlink demo_serving)))).
  split; [|done]. exists demo_boot. split; [by split|].
  one_step 1%nat; [by apply (DsOpen _ _ _ 7)|].
  one_step 1%nat; [by apply (DsFlock _ _ _ true 7)|].
  one_step 1%nat; [by apply (DsFstat _ _ _ true 7)|].
  one_step 1%nat; [by apply (DsWrite _ _ _ 7)|].
  one_step 1%nat; [by apply DsCleanup|].
  one_step 3%nat; [apply (DsOpen _ _ _ 8); [done|never_open]|].
  one_step 3%nat; [by apply (DsFlock _ _ _ true 8)|].
  one_step 3%nat; [by apply (DsFstat _ _ _ true 8)|]. done.
Qed.

(** Two probes of a file nobody serves: the first has the lock for a moment, and the
    second takes that for a running owner and is told the pid of an earlier boot. *)
Lemma probe_mistakes_probe :
  exists s, daemon_reachable false s /\ (forall q i, dl_pc s q <> PcServing i) /\
    dl_pc s 2 = PcProbe 7 /\ (probe_flock 7 2 s).2 = Some 40%nat.
Proof.
  set (boot := {| dl_named := Some 7%nat; dl_flock := fun _ => None;
    dl_text := fun _ => Some 40%nat; dl_pc := fun _ => PcIdle |}).
  exists (probe_flock 7 1 (probe_open 2 (probe_open 1 boot))).1. split.
  - exists boot. split; [by split|].
    one_step 1%nat; [by apply DsProbeOpen|].
    one_step 2%nat; [by apply DsProbeOpen|].
    one_step 1%nat; [by apply (DsProbeFlock _ _ _ 7)|]. done.
  - split; [|done]. intros q i. do 3 (destruct q as [|q]; [by vm_compute|]). by vm_compute.
Qed.
