(* ===== verification/FileLifecycle.v ===== *)
(** The module's files over its life (file_lifecycle.cpp): the cleanups of stale
    temporaries, legacy files and, on removal, of everything, and the pid the
    daemon leaves in its lock file.  Which calls fail is the operating system's
    choice, and so is the order in which a directory lists its entries. *)

From stdpp Require Import pretty.
From S2P Require Import Prelude Posix HalIdentity AtomicFile RuntimeProfile CapabilityRecord Release.

(** * Names *)

(** src/file_lifecycle.cpp:20-21 [kLegacyPublicMarker] *)
Definition kLegacyPublicMarker : string := "/data/local/tmp/drmid_disable_boot_cleanup".
(** src/file_lifecycle.cpp:22-22 [kPublicTemporaryDirectory] *)
Definition kPublicTemporaryDirectory : string := "/data/local/tmp".
(** src/file_lifecycle.cpp:23-23 [kSeedTempPrefix] *)
Definition kSeedTempPrefix : string := "drmid_seed_record_v1.bin.tmp.".
(** src/file_lifecycle.cpp:24-24 [kDaemonLockName] *)
Definition kDaemonLockName : string := "drmid_daemon_v1.lock".

(** src/file_lifecycle.cpp:25-34 [kLegacyDevelopmentPayloads] *)
Definition kLegacyDevelopmentPayloads : list string := [
  "drmid-0.9.0-rc10.zip"; "drmid-0.9.0-rc12.zip"; "drmid_aidl_probe"; "drmid_probe_runner";
  "drmid_rc13.zip"; "drmid_rc13_runner"; "drmid_rc14.zip"; "drmid_rc14_runner"].

(** [strncmp] against a whole literal: the rest of the name behind it. *)
Fixpoint after_prefix (prefix name : string) : option string :=
  match prefix, name with
  | EmptyString, _ => Some name
  | String p prefix, String c name => if Ascii.eqb p c then after_prefix prefix name else None
  | String _ _, EmptyString => None
  end.

(** src/file_lifecycle.cpp:60-72 [is_seed_temp_orphan_name] *)
Definition is_seed_temp_orphan_name (name : string) : bool :=
  match after_prefix kSeedTempPrefix name with
  | None | Some EmptyString => false
  | Some suffix => all_digits suffix
  end.

(** src/file_lifecycle.cpp:74-80 [is_legacy_development_payload_name] *)
Definition is_legacy_development_payload_name (name : string) : bool :=
  negb (bool_decide (name = EmptyString)) &&
  existsb (fun expected => bool_decide (name = expected)) kLegacyDevelopmentPayloads.

(** [Special] is what unlink removes like a file (a socket, a link); it does not
    remove a [Folder]. *)
Inductive node := Regular (content : list Z) | Special | Folder.

(** * The owner's pid *)

Definition is_space_byte (b : Z) : bool := (b =? 32) || ((9 <=? b) && (b <=? 13)).

Fixpoint skip_space_bytes (text : list Z) : list Z :=
  match text with
  | b :: text' => if is_space_byte b then skip_space_bytes text' else text
  | [] => []
  end.

(** The value of the digits at the head, how many there are, and what follows. *)
Fixpoint digits_at (value : Z) (count : nat) (text : list Z) : Z * nat * list Z :=
  match text with
  | b :: text' =>
      if (48 <=? b) && (b <=? 57) then digits_at (10 * value + (b - 48)) (S count) text'
      else (value, count, text)
  | [] => (value, count, [])
  end.

Definition LONG_MAX : Z := 2 ^ 63 - 1.
Definition PID_MAX : Z := 2 ^ 31 - 1.

(** [strtol] in base 10: [None] when there is nothing to convert or the value is out
    of range; otherwise the value and what [end] points at. *)
Definition strtol10 (text : list Z) : option (Z * list Z) :=
  let signed (sign : Z) text :=
    match digits_at 0 0 text with
    | (_, O, _) => None
    | (v, S _, rest) =>
        if (LONG_MAX <? sign * v) || (sign * v <? - LONG_MAX - 1) then None
        else Some (sign * v, rest)
    end in
  match skip_space_bytes text with
  | 45 :: text => signed (-1) text
  | 43 :: text => signed 1 text
  | text => signed 1 text
  end.

(** The buffer is a C string of at most 31 bytes. *)

(** src/file_lifecycle.cpp:314-326 [daemon_lock_owner_alive] *)
Definition owner_pid_of_text (bytes : list Z) : option Z :=
  if (length bytes <=? 1)%nat || (32 <=? length bytes)%nat then None
  else
    match strtol10 (c_string bytes) with
    | Some (value, rest) =>
        if (bool_decide (rest = [10]) || bool_decide (rest = [])) &&
           (1 <? value) && (value <=? PID_MAX)
        then Some value else None
    | None => None
    end.

(** What the probe meets: the file behind the name ([None] when an open fails), the
    answer of flock, how many bytes pread delivers, and the answer of kill. *)
Inductive flock_answer := FlockTaken | FlockRefused | FlockFailed.
Inductive kill_answer := KillDelivered | KillNotPermitted | KillFailed.

Record OwnerView := {
  ov_directory : bool;
  ov_file : option node;
  ov_flock : flock_answer;
  ov_pread : option nat;
  ov_kill : Z -> kill_answer;
}.

(** src/file_lifecycle.cpp:282-331 [daemon_lock_owner_alive] *)
Definition daemon_lock_owner_alive (module_private_dir : option string) (view : OwnerView)
    : option Z :=
  match module_private_dir with
  | None | Some EmptyString => None
  | Some _ =>
      if negb (ov_directory view) then None
      else
        match ov_file view with
        | Some (Regular content) =>
            if (length content <=? 1)%nat || (31 <? length content)%nat then None
            else
              match ov_flock view, ov_pread view with
              | FlockRefused, Some count =>
                  match owner_pid_of_text (take (Nat.min count 31) content) with
                  | Some candidate =>
                      match ov_kill view candidate with
                      | KillFailed => None
                      | _ => Some candidate
                      end
                  | None => None
                  end
              | _, _ => None
              end
        | _ => None
        end
  end.

(** src/file_lifecycle.cpp:277-277 [write_daemon_lock_pid] *)
Definition pid_text (pid : N) : list Z := bytes_of_string (pretty pid) ++ [10].

Section PidFile.
Context `{OperatingSystem}.
Context (fuel : nat).

(** The descriptor is fresh, so its offset is 0 when the file has been emptied. *)

(** src/file_lifecycle.cpp:273-280 [write_daemon_lock_pid] *)
Definition write_daemon_lock_pid (lock_path : string) (pid : N) : io bool :=
  emptied ← next; f ← get_files;
  match emptied with
  | Done _ =>
      _ ← put_files (<[lock_path := []]> f);
      io_and (write_loop fuel lock_path (pid_text pid)) sys_ok
  | _ => mret false
  end.

End PidFile.

(** * The file system as the cleanups see it *)

Record Tree := {
  tr_nodes : gmap string node;
  tr_calls : nat;
}.

Definition fs (A : Type) : Type := Tree -> A * Tree.
#[global] Instance fs_ret : MRet fs := fun A a t => (a, t).
#[global] Instance fs_bind : MBind fs := fun A B k m t => k (m t).1 (m t).2.

(** The path of an entry of a directory. *)
Definition dir_prefix (dir : string) : string :=
  if negb (bool_decide (dir = EmptyString)) &&
     negb (Nat.eqb (after_last_slash dir 0 0) (String.length dir))
  then dir +:+ "/" else dir.

Definition at_dir (dir name : string) : string := dir_prefix dir +:+ name.

(** src/file_lifecycle.cpp:165-175 [cleanup_legacy_target_state_after_global_migration] *)
Definition kLegacyTargetFiles : list string := [
  "drmid_runtime_control_v1.bin"; "drmid_runtime_control_v1.bin.tmp";
  "drmid_runtime_control_v2.bin"; "drmid_runtime_control_v2.bin.tmp";
  "drmid_target_config_v1.bin"; "drmid_target_config_v1.bin.tmp";
  "drmid_target_config_v2.bin"; "drmid_target_config_v2.bin.tmp";
  "drmid_label_helper.jar"].

(** src/file_lifecycle.cpp:198-224 [cleanup_module_state_files] *)
Definition kStateFiles : list string := [
  "drmid_control_v1.sock"; "drmid_control_v2.sock"; "drmid_control_v3.sock";
  "drmid_control_v4.sock"; "drmid_control_v5.sock";
  "drmid_runtime_control_v1.bin"; "drmid_runtime_control_v1.bin.tmp";
  "drmid_runtime_control_v2.bin"; "drmid_runtime_control_v2.bin.tmp";
  "drmid_runtime_control_v3.bin"; "drmid_runtime_control_v3.bin.tmp";
  "drmid_target_config_v1.bin"; "drmid_target_config_v1.bin.tmp";
  "drmid_target_config_v2.bin"; "drmid_target_config_v2.bin.tmp";
  "drmid_seed_record_v1.bin"; "drmid_seed_record_v1.bin.tmp";
  "drmid_original_fingerprint_v1.bin"; "drmid_original_fingerprint_v1.bin.tmp";
  "drmid_binder_capability_v1.bin"; "drmid_binder_capability_v1.bin.tmp";
  "drmid_label_helper.jar"; kDaemonLockName; "drmid_boot_cleanup.flag";
  "webroot/drmid_boot_cleanup.flag"].

Section Cleanup.
Context `{OperatingSystem}.

(** The names an opened directory lists, in the order the file system likes; it may
    stop early. *)
Context (readdir : gmap string node -> string -> list string).

(** Whether the next call succeeds. *)
Definition fs_call : fs bool := fun t =>
  (match outcome_of (tr_calls t) with Done _ => true | _ => false end,
   {| tr_nodes := tr_nodes t; tr_calls := S (tr_calls t) |}).

(** fstatat without following links, and S_ISREG of the answer. *)
Definition fs_regular (path : string) : fs bool := fun t =>
  let '(ok, t) := fs_call t in
  (ok && match tr_nodes t !! path with Some (Regular _) => true | _ => false end, t).

(** unlink and unlinkat. *)
Definition fs_unlink (path : string) : fs bool := fun t =>
  let '(ok, t) := fs_call t in
  match tr_nodes t !! path with
  | Some Folder | None => (false, t)
  | Some _ =>
      if ok then (true, {| tr_nodes := delete path (tr_nodes t); tr_calls := tr_calls t |})
      else (false, t)
  end.

Definition fs_listing (dir : string) : fs (list string) := fun t => (readdir (tr_nodes t) dir, t).

(** The body the loops share: skip, or remove a regular file and count it. *)

(** src/file_lifecycle.cpp:131-142 [cleanup_seed_temp_orphans] *)
Fixpoint remove_named (accept : string -> bool) (dir : string) (names : list string)
    (removed : nat) : fs nat :=
  match names with
  | [] => mret removed
  | name :: names =>
      if negb (accept name) then remove_named accept dir names removed
      else
        regular ← fs_regular (at_dir dir name);
        if negb regular then remove_named accept dir names removed
        else
          gone ← fs_unlink (at_dir dir name);
          remove_named accept dir names (if (gone : bool) then S removed else removed)
  end.

(** src/file_lifecycle.cpp:113-146 [cleanup_seed_temp_orphans] *)
Definition cleanup_seed_temp_orphans (module_private_dir : option string) : fs nat :=
  match module_private_dir with
  | None | Some EmptyString => mret 0%nat
  | Some dir =>
      opened ← fs_call;
      if negb opened then mret 0%nat
      else
        directory ← fs_call;
        if negb directory then mret 0%nat
        else names ← fs_listing dir; remove_named is_seed_temp_orphan_name dir names 0
  end.

(** src/file_lifecycle.cpp:82-111 [cleanup_legacy_development_payloads] *)
Definition cleanup_legacy_development_payloads (public_tmp_dir : option string) : fs nat :=
  match public_tmp_dir with
  | None | Some EmptyString => mret 0%nat
  | Some dir =>
      opened ← fs_call;
      if negb opened then mret 0%nat
      else
        directory ← fs_call;
        if negb directory then mret 0%nat
        else names ← fs_listing dir; remove_named is_legacy_development_payload_name dir names 0
  end.

(** src/file_lifecycle.cpp:148-152 [cleanup_legacy_public_marker] *)
Definition cleanup_legacy_public_marker : fs unit := _ ← fs_unlink kLegacyPublicMarker; mret tt.

(** src/file_lifecycle.cpp:154-157 [cleanup_legacy_public_artifacts] *)
Definition cleanup_legacy_public_artifacts : fs unit :=
  _ ← cleanup_legacy_public_marker;
  _ ← cleanup_legacy_development_payloads (Some kPublicTemporaryDirectory); mret tt.

(** src/file_lifecycle.cpp:159-191 [cleanup_legacy_target_state_after_global_migration] *)
Definition cleanup_legacy_target_state_after_global_migration (module_private_dir : option string)
    : fs nat :=
  match module_private_dir with
  | None | Some EmptyString => mret 0%nat
  | Some dir =>
      opened ← fs_call;
      if negb opened then mret 0%nat
      else
        removed ← remove_named (fun _ => true) dir kLegacyTargetFiles 0;
        if negb (Nat.eqb removed 0) then _ ← fs_call; mret removed else mret removed
  end.

(** A file that cannot be removed is reported, and the loop goes on. *)

(** src/file_lifecycle.cpp:225-235 [cleanup_module_state_files] *)
Fixpoint unlink_all (dir : string) (names : list string) : fs unit :=
  match names with
  | [] => mret tt
  | name :: names => _ ← fs_unlink (at_dir dir name); unlink_all dir names
  end.

(** src/file_lifecycle.cpp:193-235 [cleanup_module_state_files] *)
Definition cleanup_module_state_files (module_private_dir : option string) : fs unit :=
  _ ← cleanup_legacy_public_artifacts;
  match module_private_dir with
  | None | Some EmptyString => mret tt
  | Some dir => _ ← cleanup_seed_temp_orphans (Some dir); unlink_all dir kStateFiles
  end.

End Cleanup.

(** * Decimal numbers *)

Lemma digit_of_pretty d : (d < 10)%N -> digit_of (pretty_N_char d) = Some (Z.of_N d).
Proof.
  intros Hd. rewrite <-(N2Z.id d) at 1.
  apply (below_cases (fun n => digit_of (pretty_N_char (Z.to_N n)) = Some n) 10); [by repeat constructor|lia].
Qed.

Lemma pretty_go_digits x s :
  all_digits s = true ->
  all_digits (pretty_N_go x s) = true /\ decimal 0 (pretty_N_go x s) = decimal (Z.of_N x) s.
Proof.
  revert s. induction (N.lt_wf_0 x) as [x _ IH]. intros s Hs.
  destruct (decide (x = 0)%N) as [-> |Hx]; [by rewrite pretty_N_go_0|].
  rewrite pretty_N_go_step by lia.
  assert (x `mod` 10 < 10)%N as Hm by (by apply N.mod_lt).
  destruct (IH (x `div` 10)%N (N.div_lt x 10 ltac:(lia) eq_refl)
    (String (pretty_N_char (x `mod` 10)) s)) as [Hall Hdec].
  { cbn [all_digits]. rewrite digit_of_pretty by done. by rewrite bool_decide_true by eauto. }
  split; [done|]. rewrite Hdec. cbn [decimal]. rewrite digit_of_pretty by done. f_equal.
  rewrite N2Z.inj_div, N2Z.inj_mod. change (Z.of_N 10) with 10.
  pose proof (Z.div_mod (Z.of_N x) 10 ltac:(lia)). lia.
Qed.

Lemma pretty_digits n :
  all_digits (pretty n) = true /\ decimal 0 (pretty n) = Z.of_N n /\ pretty n <> EmptyString.
Proof.
  unfold pretty, pretty_N. destruct (decide (n = 0)%N) as [-> |Hn]; [by repeat split|].
  destruct (pretty_go_digits n "" eq_refl) as [Hall Hdec]. split_and!; [done|done|].
  intros E. rewrite E in Hdec. cbn in Hdec. lia.
Qed.

Lemma digits_at_string s value count rest :
  all_digits s = true -> (forall b rest', rest = b :: rest' -> ~ 48 <= b <= 57) ->
  digits_at value count (bytes_of_string s ++ rest) =
    (decimal value s, (count + String.length s)%nat, rest).
Proof.
  revert value count. induction s as [|c s IH]; intros value count Hs Hrest.
  { cbn. rewrite Nat.add_0_r. destruct rest as [|b rest]; [done|]. cbn.
    specialize (Hrest b rest eq_refl).
    by destruct (Z.leb_spec 48 b), (Z.leb_spec b 57); cbn; try lia. }
  cbn [all_digits] in Hs. apply andb_prop in Hs as [[d Hd]%bool_decide_eq_true Hs].
  cbn. rewrite Hd. unfold digit_of in Hd.
  destruct ((48 <=? _) && _) eqn:E in |- *; rewrite E in Hd; [|done]. injection Hd as <-.
  rewrite (IH _ _ Hs Hrest). by rewrite Nat.add_succ_r.
Qed.

(** * The pid comes back *)

Lemma pretty_nonzero_bytes s : all_digits s = true -> Forall (fun b => 48 <= b <= 57) (bytes_of_string s).
Proof.
  induction s as [|c s IH]; [constructor|]. cbn [all_digits]. intros [[d Hd]%bool_decide_eq_true Hs]%andb_prop.
  constructor; [|by apply IH]. unfold digit_of in Hd. destruct (_ && _) eqn:E in Hd; [|done].
  apply andb_prop in E as [?%Z.leb_le ?%Z.leb_le]. lia.
Qed.

Lemma c_string_nonzero l : Forall (fun b => b <> 0) l -> c_string l = l.
Proof. induction 1 as [|b l Hb _ IH]; [done|]. cbn. by rewrite (proj2 (Z.eqb_neq b 0)), IH. Qed.

Lemma pretty_go_length k x s :
  (x < 10 ^ N.of_nat k)%N -> (String.length (pretty_N_go x s) <= k + String.length s)%nat.
Proof.
  revert x s. induction k as [|k IH]; intros x s Hx.
  { assert (x = 0)%N as -> by (cbn in Hx; lia). by rewrite pretty_N_go_0. }
  destruct (decide (x = 0)%N) as [-> |Hn]; [rewrite pretty_N_go_0; lia|].
  rewrite pretty_N_go_step by lia. etrans; [apply IH|cbn; lia].
  apply N.Div0.div_lt_upper_bound. rewrite Nat2N.inj_succ, N.pow_succ_r' in Hx. lia.
Qed.

Lemma pretty_pid_length n : (n < 2 ^ 31)%N -> (1 <= String.length (pretty n) <= 10)%nat.
Proof.
  intros Hn. destruct (pretty_digits n) as (_ & _ & Hne). split; [by destruct (pretty n); [|cbn; lia]|].
  clear Hne. unfold pretty, pretty_N. case_decide; [cbn; lia|].
  etrans; [apply (pretty_go_length 10); lia|cbn; lia].
Qed.

Lemma strtol10_digits s rest :
  all_digits s = true -> s <> EmptyString -> decimal 0 s <= LONG_MAX ->
  (forall b rest', rest = b :: rest' -> ~ 48 <= b <= 57) -> 0 <= decimal 0 s ->
  strtol10 (bytes_of_string s ++ rest) = Some (decimal 0 s, rest).
Proof.
  intros Hs Hne Hmax Hrest Hpos. pose proof (digits_at_string s 0 0 rest Hs Hrest) as Hd.
  pose proof (pretty_nonzero_bytes s Hs) as Hb.
  assert (Hlen : exists n, String.length s = S n) by (destruct s; [done|by eexists]).
  destruct Hlen as [n Hlen]. rewrite Hlen in Hd. cbn [plus] in Hd.
  unfold strtol10. destruct (bytes_of_string s) as [|b l] eqn:E; [by destruct s|].
  apply Forall_cons in Hb as [Hb _]. cbn [app] in Hd |- *.
  assert (Hsp : is_space_byte b = false).
  { unfold is_space_byte. destruct (Z.eqb_spec b 32), (Z.leb_spec 9 b), (Z.leb_spec b 13); cbn; lia. }
  cbn [skip_space_bytes]. rewrite Hsp.
  assert (b = 48 \/ b = 49 \/ b = 50 \/ b = 51 \/ b = 52 \/ b = 53 \/ b = 54 \/ b = 55 \/ b = 56 \/
    b = 57) as Hc by lia.
  repeat (destruct Hc as [-> | Hc]); try subst b; cbv match beta zeta; rewrite Hd, !Z.mul_1_l;
    by rewrite (proj2 (Z.ltb_ge _ _) Hmax), (proj2 (Z.ltb_ge _ _)) by (unfold LONG_MAX; lia).
Qed.

Lemma owner_pid_of_written pid :
  (1 < pid < 2 ^ 31)%N -> owner_pid_of_text (pid_text pid) = Some (Z.of_N pid).
Proof.
  intros Hpid. destruct (pretty_digits pid) as (Hall & Hdec & Hne).
  destruct (pretty_pid_length pid) as [Hl1 Hl2]; [lia|].
  unfold owner_pid_of_text, pid_text.
  rewrite length_app, bytes_of_string_length. cbn [length].
  destruct (Nat.leb_spec (String.length (pretty pid) + 1) 1); [lia|].
  destruct (Nat.leb_spec 32 (String.length (pretty pid) + 1)); [lia|]. cbn [orb].
  rewrite c_string_nonzero.
  - rewrite strtol10_digits; rewrite ?Hdec; [|done|done|unfold LONG_MAX; lia| |lia].
    + cbn. unfold PID_MAX. destruct (Z.ltb_spec 1 (Z.of_N pid)); [|lia].
      by destruct (Z.leb_spec (Z.of_N pid) (2 ^ 31 - 1)); [|lia].
    + intros b rest' [= <- _]. lia.
  - apply Forall_app. split; [|repeat constructor; lia].
    eapply Forall_impl; [by apply pretty_nonzero_bytes|]. cbn. lia.
Qed.

Lemma pid_text_length pid : (1 < pid < 2 ^ 31)%N -> (1 < length (pid_text pid) <= 11)%nat.
Proof.
  intros Hpid. destruct (pretty_pid_length pid) as [Hl1 Hl2]; [lia|].
  unfold pid_text. rewrite length_app, bytes_of_string_length. cbn [length]. lia.
Qed.

Lemma wp_write_pid `{OperatingSystem} d B fuel lock_path pid w :
  (1 < pid < 2 ^ 31)%N -> d \/ responsive B /\ (B * 12 <= fuel)%nat ->
  wp d (write_daemon_lock_pid fuel lock_path pid) (fun written w' =>
    written = true -> w_files w' !! lock_path = Some (pid_text pid)) w.
Proof.
  intros Hpid Hfuel. pose proof (pid_text_length pid Hpid) as Hlen.
  apply wp_bind, wp_next. intros w1 Hq Hc. apply wp_bind. cbn.
  destruct (outcome_of (w_calls w)); [|by apply wp_ret..].
  apply wp_bind. unfold wp at 1, put_files. cbn.
  apply wp_io_and.
  apply (wp_write_loop d B fuel B lock_path [] (pid_text pid) (fun _ => True)
    (set_files (<[lock_path := []]> (w_files w1)) w1)); [done|by apply evolves_refl| | |].
  - apply lookup_insert_eq.
  - apply budget_start. destruct Hfuel as [?|[HB Hf]]; [by left|]. right. split; [done|].
    etrans; [|exact Hf]. apply Nat.mul_le_mono_l. lia.
  - intros b w' _ Hb. destruct b; [|intros [=]].
    apply wp_sys_ok. intros [] w2 [Hf _]; [intros _|intros [=]]. rewrite Hf. by apply Hb.
Qed.

Lemma owner_alive_spec dir view v :
  daemon_lock_owner_alive (Some dir) view = Some v ->
  1 < v < 2 ^ 31 /\ ov_flock view = FlockRefused /\ ov_kill view v <> KillFailed.
Proof.
  unfold daemon_lock_owner_alive. destruct dir as [|c dir]; [done|].
  destruct (negb _); [done|]. destruct (ov_file view) as [[content| |]|]; try done.
  destruct (_ || _); [done|]. destruct (ov_flock view); try done.
  destruct (ov_pread view) as [count|]; [|done].
  destruct (owner_pid_of_text _) as [candidate|] eqn:E; [|done]. intros Hv.
  assert (candidate = v /\ ov_kill view candidate <> KillFailed) as [-> Hk]
    by (destruct (ov_kill view candidate); naive_solver).
  split_and!; [..|done|done]; unfold owner_pid_of_text in E;
    destruct ((_ || _)%bool) in E; try done;
    destruct (strtol10 _) as [[value rest]|] in E; try done;
    (destruct (_ && _ && _) eqn:Et in E; [|done]); injection E as ->; btrue; unfold PID_MAX in *; lia.
Qed.

(** the pid the daemon writes is the pid a later probe of the lock reports: with
    a system that answers one of any [B] calls, the write returns, and when it says
    it succeeded, a probe that finds the file, reads it whole, is refused the lock
    and may signal the process gets exactly that pid; and a probe never reports a
    pid outside 2 .. 2^31 - 1, nor one while the lock is free. *)
Lemma owner_pid_roundtrip `{OperatingSystem} B fuel lock_path pid w dir view :
  responsive B -> (B * 12 <= fuel)%nat -> (1 < pid < 2 ^ 31)%N -> dir <> EmptyString ->
  (exists written w', write_daemon_lock_pid fuel lock_path pid w = Some (written, w') /\
     (written = true -> ov_directory view = true ->
      ov_file view = Regular <$> w_files w' !! lock_path -> ov_flock view = FlockRefused ->
      (exists n, ov_pread view = Some n /\ (31 <= n)%nat) ->
      ov_kill view (Z.of_N pid) <> KillFailed ->
      daemon_lock_owner_alive (Some dir) view = Some (Z.of_N pid))) /\
  (forall v, daemon_lock_owner_alive (Some dir) view = Some v ->
     1 < v < 2 ^ 31 /\ ov_flock view = FlockRefused /\ ov_kill view v <> KillFailed).
Proof.
  intros HB Hfuel Hpid Hdir. split; [|apply owner_alive_spec].
  destruct (wp_total _ _ _ (wp_write_pid False B fuel lock_path pid w Hpid (or_intror (conj HB Hfuel))))
    as (written & w' & Hrun & Hw).
  exists written, w'. split; [done|]. intros Hwritten Hd Hf Hl (n & Hn & Hle) Hk.
  rewrite (Hw Hwritten) in Hf. cbn in Hf. pose proof (pid_text_length pid Hpid) as Hlen.
  unfold daemon_lock_owner_alive. rewrite Hd, Hf, Hl, Hn.
  rewrite (proj2 (Nat.leb_gt _ _)), (proj2 (Nat.ltb_ge _ _)) by lia. cbn.
  rewrite Nat.min_r by lia. rewrite take_ge, owner_pid_of_written by (done || lia).
  destruct dir; [done|]. by destruct (ov_kill view (Z.of_N pid)).
Qed.

(** * What the cleanups remove *)

Lemma after_prefix_spec prefix name rest :
  after_prefix prefix name = Some rest <-> name = prefix +:+ rest.
Proof.
  revert name. induction prefix as [|p prefix IH]; intros name; cbn [after_prefix].
  { rewrite nil_app. split; [by intros [= ->]|by intros ->]. }
  rewrite cons_app. destruct name as [|c name]; [done|].
  destruct (Ascii.eqb_spec p c) as [<-|Hne]; [|split; [done|by intros [= ->]]]. rewrite IH.
  split; [by intros ->|by intros [= ->]].
Qed.

(** The orphan names are the seed file's temporaries, one for each pid. *)
Lemma orphan_name_spec name :
  is_seed_temp_orphan_name name = true <->
  exists digits, digits <> EmptyString /\ all_digits digits = true /\ name = kSeedTempPrefix +:+ digits.
Proof.
  unfold is_seed_temp_orphan_name. split.
  - destruct (after_prefix _ _) as [[|c rest]|] eqn:E; [done| |done].
    apply after_prefix_spec in E as ->. intros Hd. by exists (String c rest).
  - intros (digits & Hne & Hd & ->). rewrite (proj2 (after_prefix_spec _ _ digits)) by done.
    by destruct digits.
Qed.

Section CleanupFacts.
Context `{OperatingSystem}.

(** Every path has its node still, except some that satisfy [P] and were files. *)
Definition removed_only (P : string -> Prop) (t t' : Tree) : Prop :=
  forall path, tr_nodes t' !! path = tr_nodes t !! path \/
    (P path /\ tr_nodes t' !! path = None /\ exists c, tr_nodes t !! path = Some (Regular c)).

Definition no_failures : Prop := forall n, exists limit, outcome_of n = Done limit.

Lemma removed_only_refl P t t' : tr_nodes t' = tr_nodes t -> removed_only P t t'.
Proof. intros Hn path. rewrite Hn. by left. Qed.

Lemma removed_only_trans P a b c : removed_only P a b -> removed_only P b c -> removed_only P a c.
Proof.
  intros Hab Hbc path. destruct (Hab path) as [Ea|(Pp & En & Ec)], (Hbc path) as [Eb|(Pq & Em & Ed)].
  - left. congruence.
  - right. rewrite <-Ea. done.
  - right. rewrite Eb. done.
  - by right.
Qed.

Lemma removed_only_mono (P Q : string -> Prop) t t' :
  (forall path, P path -> Q path) -> removed_only P t t' -> removed_only Q t t'.
Proof. intros HPQ Ht path. destruct (Ht path) as [?|(? & ? & ?)]; naive_solver. Qed.

Definition listed (accept : string -> bool) (dir : string) (names : list string) (path : string) : Prop :=
  exists name, In name names /\ accept name = true /\ path = at_dir dir name.

(** What one accepted name comes to: its file goes, or everything stays, and it stays
    only if it was no file or a call failed. *)
Lemma remove_one path t :
  let regular := fs_regular path t in
  let t' := if regular.1 then (fs_unlink path regular.2).2 else regular.2 in
  let gone := regular.1 && (fs_unlink path regular.2).1 in
  (gone = true /\ tr_nodes t' = delete path (tr_nodes t) /\
     exists c, tr_nodes t !! path = Some (Regular c)) \/
  (gone = false /\ tr_nodes t' = tr_nodes t /\
     (no_failures -> forall c, tr_nodes t !! path <> Some (Regular c))).
Proof.
  cbn. unfold fs_regular, fs_call. cbn.
  destruct (tr_nodes t !! path) as [[c| |]|] eqn:E; cbn;
    rewrite ?andb_false_r; cbn; try (right; split_and!; [done..|by intros _ c']).
  rewrite andb_true_r. unfold fs_unlink, fs_call. cbn. rewrite ?E. cbn.
  destruct (outcome_of (tr_calls t)) eqn:E1; cbn.
  - destruct (outcome_of (S (tr_calls t))) eqn:E2; cbn; [left; eauto|..];
      (right; split_and!; [done..|]; intros Hok; destruct (Hok (S (tr_calls t))); congruence).
  - right. split_and!; [done..|]. intros Hok. destruct (Hok (tr_calls t)). congruence.
  - right. split_and!; [done..|]. intros Hok. destruct (Hok (tr_calls t)). congruence.
Qed.

Lemma remove_named_step accept dir name names removed t :
  accept name = true ->
  exists (gone : bool) t1,
    remove_named accept dir (name :: names) removed t =
      remove_named accept dir names (if gone then S removed else removed) t1 /\
    ((gone = true /\ tr_nodes t1 = delete (at_dir dir name) (tr_nodes t) /\
        exists c, tr_nodes t !! at_dir dir name = Some (Regular c)) \/
     (gone = false /\ tr_nodes t1 = tr_nodes t /\
        (no_failures -> forall c, tr_nodes t !! at_dir dir name <> Some (Regular c)))).
Proof.
  intros Ha. pose proof (remove_one (at_dir dir name) t) as Hone. cbv zeta in Hone.
  cbn [remove_named]. rewrite Ha. cbn [negb]. unfold mbind, fs_bind.
  destruct (fs_regular (at_dir dir name) t) as [regular t0] eqn:E. cbn [fst snd] in *.
  destruct regular; cbn [negb andb] in *; [|exists false, t0; split; [done|exact Hone]].
  destruct (fs_unlink (at_dir dir name) t0) as [gone t1] eqn:E1. cbn [fst snd] in *.
  exists gone, t1. split; [done|exact Hone].
Qed.

Lemma remove_named_spec accept dir names removed t :
  let r := remove_named accept dir names removed t in
  removed_only (listed accept dir names) t r.2 /\
  (r.1 + size (tr_nodes r.2) = removed + size (tr_nodes t))%nat /\
  (no_failures -> forall name, In name names -> accept name = true ->
     forall c, tr_nodes r.2 !! at_dir dir name <> Some (Regular c)).
Proof.
  revert removed t. induction names as [|name names IH]; intros removed t.
  { cbn. split_and!; [by apply removed_only_refl|done|done]. }
  assert (Hmono : forall path, listed accept dir names path -> listed accept dir (name :: names) path).
  { intros path (n & Hn & Hp). exists n. split; [by right|done]. }
  destruct (accept name) eqn:Ha.
  - destruct (remove_named_step accept dir name names removed t Ha) as (gone & t1 & -> & Hgone).
    destruct (IH (if gone then S removed else removed) t1) as (Honly & Hsize & Hall). cbn zeta in *.
    assert (Hfirst : removed_only (listed accept dir (name :: names)) t t1).
    { destruct Hgone as [(-> & Hn & c & Hc)|(-> & Hn & _)]; [|by apply removed_only_refl].
      intros path. destruct (decide (path = at_dir dir name)) as [-> |Hne].
      - right. rewrite Hn, lookup_delete_eq. split_and!; [|done|by exists c].
        exists name. split_and!; [by left|done..].
      - left. by rewrite Hn, lookup_delete_ne. }
    split_and!.
    + eapply removed_only_trans; [exact Hfirst|]. by eapply removed_only_mono.
    + rewrite Hsize. destruct Hgone as [(-> & -> & c & Hc)|(-> & -> & _)]; [|done].
      rewrite map_size_delete_Some by eauto.
      assert (size (tr_nodes t) <> 0)%nat by (apply map_size_non_empty_iff; intros E0; by rewrite E0 in Hc).
      lia.
    + intros Hok n [<-|Hn] Hacc c; [|by apply Hall].
      destruct (Honly (at_dir dir name)) as [-> |(_ & -> & _)]; [|done].
      destruct Hgone as [(_ & -> & _)|(_ & -> & Hno)]; [by rewrite lookup_delete_eq|by apply Hno].
  - cbn [remove_named]. rewrite Ha. cbn [negb]. destruct (IH removed t) as (Honly & Hsize & Hall).
    split_and!; [by eapply removed_only_mono|done|].
    intros Hok n [<-|Hn] Hacc c; [congruence|by apply Hall].
Qed.

End CleanupFacts.

(** * The seed file's temporaries *)

Lemma at_dir_inj dir a b : at_dir dir a = at_dir dir b -> a = b.
Proof. unfold at_dir. intros E. by apply (inj (String.append _)) in E. Qed.

(** A temporary of the seed file is an orphan of its directory, whatever process
    made it; the seed file is none. *)
Lemma seed_temporary_orphan `{OperatingSystem} dir :
  exists name, seed_temporary (seed_path dir) = at_dir dir name /\
    is_seed_temp_orphan_name name = true.
Proof.
  destruct (pretty_digits getpid) as (Hall & _ & Hne).
  exists (kSeedTempPrefix +:+ pretty getpid). split.
  - unfold seed_temporary. change (seed_path dir) with (at_dir dir kSeedFileName).
    unfold at_dir. by rewrite str_app_assoc.
  - apply orphan_name_spec. by eexists.
Qed.

Lemma digits_no_slash s i : all_digits s = true -> after_last_slash s i 0 = 0%nat.
Proof.
  revert i. induction s as [|c s IH]; intros i; [done|]. cbn. intros [[d Hd]%bool_decide_eq_true Hs]%andb_prop.
  destruct (Ascii.eqb_spec c (Ascii.ascii_of_nat 47)) as [-> |]; [discriminate Hd|by apply IH].
Qed.

Lemma after_last_slash_app a b i best :
  after_last_slash (a +:+ b) i best = after_last_slash b (i + String.length a) (after_last_slash a i best).
Proof.
  revert i best. induction a as [|c a IH]; intros i best.
  { by rewrite nil_app, Nat.add_0_r. }
  rewrite cons_app. cbn. by rewrite IH, Nat.add_succ_r.
Qed.

(** A name of an entry of the directory itself. *)
Definition plain (name : string) : Prop := after_last_slash name 0 0 = 0%nat.

#[global] Instance plain_dec name : Decision (plain name).
Proof. unfold plain. apply _. Defined.

Lemma orphan_plain name : is_seed_temp_orphan_name name = true -> plain name.
Proof.
  intros (digits & _ & Hd & ->)%orphan_name_spec. unfold plain.
  rewrite after_last_slash_app. by apply digits_no_slash.
Qed.

(** The listing of a directory names every entry. *)
Definition lists_entries (readdir : gmap string node -> string -> list string) : Prop :=
  forall nodes dir name, plain name -> is_Some (nodes !! at_dir dir name) ->
    In name (readdir nodes dir).

Definition seed_orphan (dir path : string) : Prop :=
  exists digits, digits <> EmptyString /\ all_digits digits = true /\
    path = at_dir dir (kSeedTempPrefix +:+ digits).

Lemma listed_orphan dir names path :
  listed is_seed_temp_orphan_name dir names path -> seed_orphan dir path.
Proof. intros (name & _ & (digits & Hne & Hd & ->)%orphan_name_spec & ->). by exists digits. Qed.

Lemma seed_path_no_orphan dir : ~ seed_orphan dir (seed_path dir).
Proof.
  intros (digits & Hne & _ & E). change (seed_path dir) with (at_dir dir kSeedFileName) in E.
  apply at_dir_inj in E. apply (f_equal String.length) in E.
  rewrite string_app_length in E. cbn in E. lia.
Qed.

(** The cleanup is one pass of the loop over a listing, or nothing when a call failed. *)
Lemma seed_cleanup_cases `{OperatingSystem} readdir dir t :
  let r := cleanup_seed_temp_orphans readdir (Some dir) t in
  (exists t1, tr_nodes t1 = tr_nodes t /\
     r = remove_named is_seed_temp_orphan_name dir (readdir (tr_nodes t) dir) 0 t1) \/
  (r.1 = 0%nat /\ tr_nodes r.2 = tr_nodes t /\ (dir <> EmptyString -> no_failures -> False)).
Proof.
  cbn zeta. unfold cleanup_seed_temp_orphans. destruct dir as [|ch dir]; [by right|].
  unfold mbind, fs_bind, fs_call, fs_listing. cbn [fst snd].
  destruct (outcome_of (tr_calls t)) eqn:E1; cbn [negb fst snd];
    [|right; split_and!; [done..|]; intros _ Hok; destruct (Hok (tr_calls t)); congruence..].
  cbn [tr_calls tr_nodes].
  destruct (outcome_of (S (tr_calls t))) eqn:E2; cbn [negb fst snd];
    [|right; split_and!; [done..|]; intros _ Hok; destruct (Hok (S (tr_calls t))); congruence..].
  left. eexists. by split; [|reflexivity].
Qed.

(** the cleanup before the daemon starts removes what interrupted seed writes have
    left and nothing else: a path it changes was a regular file of the directory
    named like a temporary of the seed file, it is gone, and the count returned is
    the number of files gone; the seed file is never touched; and when no call fails
    no temporary is left, whichever process had made it. *)
Lemma seed_orphans_collected `{system : OperatingSystem} readdir dir t :
  let r := cleanup_seed_temp_orphans readdir (Some dir) t in
  removed_only (seed_orphan dir) t r.2 /\
  (r.1 + size (tr_nodes r.2) = size (tr_nodes t))%nat /\
  tr_nodes r.2 !! seed_path dir = tr_nodes t !! seed_path dir /\
  (dir <> EmptyString -> no_failures -> lists_entries readdir ->
   forall (writer : OperatingSystem) c,
     tr_nodes r.2 !! @seed_temporary writer (seed_path dir) <> Some (Regular c)).
Proof.
  cbn zeta. pose proof (seed_cleanup_cases readdir dir t) as Hcase. cbn zeta in Hcase.
  set (r := cleanup_seed_temp_orphans readdir (Some dir) t) in *. clearbody r.
  assert (Hmain : removed_only (seed_orphan dir) t r.2 /\
    (r.1 + size (tr_nodes r.2) = size (tr_nodes t))%nat).
  { destruct Hcase as [(t1 & Hn & ->)|(Hr & Hn & _)].
    - destruct (remove_named_spec is_seed_temp_orphan_name dir (readdir (tr_nodes t) dir) 0 t1)
        as (Honly & Hsize & _). split; [|by rewrite Hsize, Hn].
      eapply removed_only_trans; [by apply removed_only_refl|].
      eapply removed_only_mono; [|exact Honly]. apply listed_orphan.
    - split; [by apply removed_only_refl|by rewrite Hr, Hn]. }
  destruct Hmain as [Honly Hsize]. split_and!; [done..| |].
  { destruct (Honly (seed_path dir)) as [?|[Hbad _]]; [done|]. by apply seed_path_no_orphan in Hbad. }
  intros Hdir Hok Hlists writer c.
  destruct Hcase as [(t1 & Hn & ->)|(_ & _ & Hfail)]; [|by destruct Hfail].
  destruct (@seed_temporary_orphan writer dir) as (name & -> & Hname). intros Hleft.
  destruct (@remove_named_spec system is_seed_temp_orphan_name dir (readdir (tr_nodes t) dir) 0 t1)
    as (Honly1 & _ & Hall).
  apply (Hall Hok name) with (c := c); [|done|done].
  apply Hlists; [by apply orphan_plain|]. rewrite <-Hn.
  destruct (Honly1 (at_dir dir name)) as [<-|(_ & E & _)]; [by eexists|congruence].
Qed.

(** * The whole module's files *)

Lemma fs_unlink_spec `{OperatingSystem} path t :
  let r := fs_unlink path t in
  (forall p, p <> path -> tr_nodes r.2 !! p = tr_nodes t !! p) /\
  (tr_nodes r.2 !! path = tr_nodes t !! path \/ tr_nodes r.2 !! path = None) /\
  (no_failures -> forall n, tr_nodes r.2 !! path = Some n -> n = Folder).
Proof.
  cbn zeta. unfold fs_unlink, fs_call. cbn.
  assert (Hsame : forall t1 : Tree, tr_nodes t1 = tr_nodes t ->
    (no_failures -> forall n, tr_nodes t !! path = Some n -> n = Folder) ->
    (forall p, p <> path -> tr_nodes t1 !! p = tr_nodes t !! p) /\
    (tr_nodes t1 !! path = tr_nodes t !! path \/ tr_nodes t1 !! path = None) /\
    (no_failures -> forall n, tr_nodes t1 !! path = Some n -> n = Folder)).
  { intros t1 -> Hn. split_and!; [done|by left|done]. }
  assert (Hgone : forall t1 : Tree, tr_nodes t1 = delete path (tr_nodes t) ->
    (forall p, p <> path -> tr_nodes t1 !! p = tr_nodes t !! p) /\
    (tr_nodes t1 !! path = tr_nodes t !! path \/ tr_nodes t1 !! path = None) /\
    (no_failures -> forall n, tr_nodes t1 !! path = Some n -> n = Folder)).
  { intros t1 ->. split_and!; [intros p Hp; by rewrite lookup_delete_ne|..];
      rewrite lookup_delete_eq; [by right|done]. }
  destruct (tr_nodes t !! path) as [[c| |]|] eqn:E; [| |by apply Hsame; naive_solver..];
    (destruct (outcome_of (tr_calls t)) eqn:Eo; [by apply Hgone|..]);
    (apply Hsame; [done|]); intros Hok; destruct (Hok (tr_calls t)); congruence.
Qed.

Lemma unlink_all_spec `{OperatingSystem} dir names t :
  let r := unlink_all dir names t in
  (forall p, (forall name, In name names -> p <> at_dir dir name) -> tr_nodes r.2 !! p = tr_nodes t !! p) /\
  (forall p, tr_nodes r.2 !! p = tr_nodes t !! p \/ tr_nodes r.2 !! p = None) /\
  (no_failures -> forall name n, In name names ->
     tr_nodes r.2 !! at_dir dir name = Some n -> n = Folder).
Proof.
  cbn zeta. revert t. induction names as [|name names IH]; intros t.
  { cbn. split_and!; [done|by left|done]. }
  cbn [unlink_all]. unfold mbind, fs_bind.
  destruct (fs_unlink_spec (at_dir dir name) t) as (Hother & Hsame & Hgone).
  set (t1 := (fs_unlink (at_dir dir name) t).2) in *. clearbody t1.
  destruct (IH t1) as (IHother & IHsame & IHgone). split_and!.
  - intros p Hp. rewrite IHother by (intros n Hn; apply Hp; by right).
    apply Hother, Hp. by left.
  - intros p. destruct (IHsame p) as [-> | ->]; [|by right].
    destruct (decide (p = at_dir dir name)) as [-> |Hne]; [done|left; by apply Hother].
  - intros Hok m n [<-|Hm]; [|by apply IHgone].
    destruct (IHsame (at_dir dir name)) as [-> | ->]; [by apply Hgone|done].
Qed.

(** When the module is removed and no call fails, none of its files is left, the seed,
    the records, the sockets and the lock file among them. *)
Lemma module_state_removed `{OperatingSystem} readdir dir t name n :
  no_failures -> dir <> EmptyString -> In name kStateFiles ->
  tr_nodes (cleanup_module_state_files readdir (Some dir) t).2 !! at_dir dir name = Some n ->
  n = Folder.
Proof.
  intros Hok Hdir Hname. unfold cleanup_module_state_files. destruct dir as [|ch dir]; [done|].
  unfold mbind, fs_bind.
  match goal with |- context [unlink_all _ _ ?t2] =>
    destruct (unlink_all_spec (String ch dir) kStateFiles t2) as (_ & _ & Hall)
  end.
  by apply (Hall Hok name n).
Qed.

(** * Concrete runs *)

Definition calm_system : OperatingSystem :=
  {| outcome_of := fun _ => Done 64; random_of := fun _ _ => 0; getpid := 4021 |}.

Lemma calm_no_failures : @no_failures calm_system.
Proof. intros n. by exists 64. Qed.

Definition entries_of (nodes : gmap string node) (dir : string) : list string :=
  omap (fun p => match after_prefix (dir_prefix dir) p with
                 | Some name => if decide (plain name) then Some name else None
                 | None => None
                 end) (fst <$> map_to_list nodes).

Lemma entries_of_lists : lists_entries entries_of.
Proof.
  intros nodes dir name Hplain [n Hn]. apply list_elem_of_In. unfold entries_of.
  apply list_elem_of_omap. exists (at_dir dir name). split.
  - apply list_elem_of_fmap. exists (at_dir dir name, n). split; [done|by apply elem_of_map_to_list].
  - rewrite (proj2 (after_prefix_spec _ _ name)) by done. by rewrite decide_True.
Qed.

Definition demo_tree : Tree := {|
  tr_nodes := {[ "/data/drmid_seed_record_v1.bin" := Regular [1];
                 "/data/drmid_seed_record_v1.bin.tmp.4021" := Regular [];
                 "/data/drmid_seed_record_v1.bin.tmp.x" := Regular [];
                 "/data/drmid_control_v5.sock" := Special ]};
  tr_calls := 0 |}.

Lemma seed_orphans_collected_witness :
  tr_nodes (cleanup_seed_temp_orphans (H := calm_system) entries_of (Some "/data") demo_tree).2
    !! "/data/drmid_seed_record_v1.bin.tmp.4021" <> Some (Regular []).
Proof.
  destruct (seed_orphans_collected (system := calm_system) entries_of "/data" demo_tree)
    as (_ & _ & _ & Hnone).
  apply (Hnone ltac:(discriminate) calm_no_failures entries_of_lists calm_system).
Defined.

Example seed_orphans_count :
  (cleanup_seed_temp_orphans (H := calm_system) entries_of (Some "/data") demo_tree).1 = 1%nat.
Proof. vm_compute. reflexivity. Qed.

Lemma calm_responsive : @responsive calm_system 1.
Proof. intros n. exists 0%nat. split; [lia|discriminate]. Qed.

Definition demo_view : OwnerView := {|
  ov_directory := true; ov_file := Some (Regular (pid_text 4021)); ov_flock := FlockRefused;
  ov_pread := Some 31%nat; ov_kill := fun _ => KillNotPermitted |}.

Lemma demo_pid_written :
  (fun r => (r.1, w_files r.2 !! "/data/drmid_daemon_v1.lock")) <$>
    write_daemon_lock_pid (H := calm_system) 12 "/data/drmid_daemon_v1.lock" 4021 (initial_world ∅) =
  Some (true, Some (pid_text 4021)).
Proof. vm_compute. reflexivity. Qed.

Lemma owner_pid_roundtrip_witness : daemon_lock_owner_alive (Some "/data") demo_view = Some 4021.
Proof.
  destruct (owner_pid_roundtrip (H := calm_system) 1 12 "/data/drmid_daemon_v1.lock" 4021
    (initial_world ∅) "/data" demo_view calm_responsive) as [(written & w' & Hrun & Hback) _];
    [lia|lia|discriminate|].
  pose proof demo_pid_written as Hdemo. rewrite Hrun in Hdemo.
  apply (inj Some) in Hdemo. apply (inj2 pair) in Hdemo as [Hw Hf]. cbn in Hw, Hf.
  apply Hback; [exact Hw|reflexivity|by rewrite Hf|reflexivity| |discriminate].
  exists 31%nat. split; [reflexivity|lia].
Defined.
