(* ===== verification/OriginalFingerprint.v ===== *)
(** The fingerprint of the device's own identifier (device_id_fingerprint.cpp): it is
    queried once, before the identifier is virtualised, and kept in a record.  The
    DRM framework that answers the query is a parameter. *)

From S2P Require Import Prelude Posix Records Checksum Sha256 AtomicFile FileLifecycle.

(** src/device_id_fingerprint.cpp:20-20 [kRecordName] *)
Definition kRecordName : string := "drmid_original_fingerprint_v1.bin".
(** src/device_id_fingerprint.cpp:21-21 [kTemporaryName] *)
Definition kTemporaryName : string := "drmid_original_fingerprint_v1.bin.tmp".
(** src/device_id_fingerprint.cpp:22-22 [kRecordMagic] *)
Definition kRecordMagic : Z := 0x3147504644495244.
(** src/device_id_fingerprint.cpp:23-23 [kRecordVersion] *)
Definition kRecordVersion : Z := 1.
(** src/device_id_fingerprint.cpp:24-24 [kWidevineIdBytes] *)
Definition kWidevineIdBytes : Z := 32.

(** src/device_id_fingerprint.cpp:26-33 [OriginalFingerprintRecord] *)
Record OriginalFingerprintRecord := {
  fp_magic : Z;
  fp_version : Z;
  fp_id_length : Z;
  fp_fingerprint : Z;
  fp_crc32 : Z;
  fp_reserved : Z;
}.

#[global] Instance Fingerprint_layout : Layout OriginalFingerprintRecord := {|
  size_of := 32;
  bytes_of r :=
    le_enc 8 (fp_magic r) ++ le_enc 4 (fp_version r) ++ le_enc 4 (fp_id_length r) ++
    le_enc 8 (fp_fingerprint r) ++ le_enc 4 (fp_crc32 r) ++ le_enc 4 (fp_reserved r);
  of_bytes l := {|
    fp_magic := word_at 8 0 l; fp_version := word_at 4 8 l; fp_id_length := word_at 4 12 l;
    fp_fingerprint := word_at 8 16 l; fp_crc32 := word_at 4 24 l; fp_reserved := word_at 4 28 l |};
  in_range r :=
    word_ok 8 (fp_magic r) /\ word_ok 4 (fp_version r) /\ word_ok 4 (fp_id_length r) /\
    word_ok 8 (fp_fingerprint r) /\ word_ok 4 (fp_crc32 r) /\ word_ok 4 (fp_reserved r)
|}.

#[global] Instance Fingerprint_laws : LayoutLaws OriginalFingerprintRecord.
Proof.
  split; cbn.
  - intros r Hr. by rewrite !length_app, !le_enc_length.
  - intros r Hr. unfold bytes_ok in *. rewrite !Forall_app. split_and!; apply le_enc_bytes_ok.
  - intros [] Hr. cbn in *. destruct_and! Hr. unfold word_ok in *. f_equal; read_field.
  - intros l Hl Hok. join_fields.
  - intros l Hl Hok. unfold word_ok. split_and!; field_range.
Qed.

(** [record = {}]. *)
Definition zero_fingerprint : OriginalFingerprintRecord := of_bytes (replicate 32 0).

(** The checksum is the one of the control records, spelled alike. *)

(** src/device_id_fingerprint.cpp:51-58 [valid_record] *)
Definition valid_fingerprint_record (record : OriginalFingerprintRecord) : bool :=
  (fp_magic record =? kRecordMagic) && (fp_version record =? kRecordVersion) &&
  (fp_id_length record =? kWidevineIdBytes) && negb (fp_fingerprint record =? 0) &&
  (fp_reserved record =? 0) && (fp_crc32 record =? crc32 (take 24 (bytes_of record))).

#[global] Arguments valid_fingerprint_record : simpl never.

(** The record of an observed fingerprint, with its checksum. *)

(** src/device_id_fingerprint.cpp:213-217 [capture_original_id_fingerprint_if_missing] *)
Definition make_fingerprint_record (observed : Z) : OriginalFingerprintRecord :=
  let record crc := {|
    fp_magic := kRecordMagic; fp_version := kRecordVersion; fp_id_length := kWidevineIdBytes;
    fp_fingerprint := observed; fp_crc32 := crc; fp_reserved := 0 |} in
  record (crc32 (take 24 (bytes_of (record 0)))).

(** [property]: what the framework delivers for deviceUniqueId, [None] when it cannot
    be asked, reports an error or delivers no data. *)

(** src/device_id_fingerprint.cpp:154-172 [query_original_widevine_fingerprint] *)
Definition query_original_widevine_fingerprint (property : option (list Z)) : KModErr * Z :=
  let fingerprint :=
    match property with
    | Some value =>
        if Z.of_nat (length value) =? kWidevineIdBytes then virtual_id_fingerprint value else 0
    | None => 0
    end in
  (if negb (fingerprint =? 0) then OK else ERR_MODULE_STORAGE_READ, fingerprint).

Section Operations.
Context `{OperatingSystem}.
Context (fuel : nat).

(** src/device_id_fingerprint.cpp:60-68 [open_private_directory] *)
Definition open_private_directory (path : option string) : io (KModErr * string) :=
  match path with
  | None | Some EmptyString => mret (ERR_MODULE_PARAM, EmptyString)
  | Some dir =>
      opened ← sys_open_directory dir;
      mret (if (opened : bool) then OK else ERR_MODULE_STORAGE_READ, dir)
  end.

(** src/device_id_fingerprint.cpp:70-85 [read_exact] *)
Definition read_exact (content : list Z) (size : nat) : io (option (list Z)) :=
  used ← read_loop fuel content size [];
  if negb (Nat.eqb (length used) size) then mret None
  else
    extra ← sys_read content (length used) 1;
    mret (match extra with Moved [] => Some used | _ => None end).

(** That the file is a regular one is part of the status call's answer. *)

(** src/device_id_fingerprint.cpp:103-122 [read_record_at] *)
Definition read_record_at (dir : string) : io (KModErr * OriginalFingerprintRecord) :=
  fd ← sys_open_read (at_dir dir kRecordName);
  match fd with
  | Open_enoent => mret (ERR_MODULE_STORAGE_NOT_FOUND, zero_fingerprint)
  | Open_error => mret (ERR_MODULE_STORAGE_READ, zero_fingerprint)
  | Opened content =>
      status ← sys_ok;
      data ← (if status && Nat.eqb (length content) 32 then read_exact content 32 else mret None);
      _ ← sys_ok;
      match data with
      | Some used =>
          if negb (valid_fingerprint_record (of_bytes used))
          then mret (ERR_MODULE_STORAGE_TYPE, zero_fingerprint)
          else mret (OK, of_bytes used)
      | None => mret (ERR_MODULE_STORAGE_TYPE, zero_fingerprint)
      end
  end.

(** src/device_id_fingerprint.cpp:124-152 [write_record_at] *)
Definition write_record_at (dir : string) (record : OriginalFingerprintRecord) : io KModErr :=
  if negb (valid_fingerprint_record record) then mret ERR_MODULE_PARAM
  else
    let temporary := at_dir dir kTemporaryName in
    fd ← sys_open_write false temporary;
    if negb fd then mret ERR_MODULE_STORAGE_WRITE
    else
      regular ← sys_ok;
      file_ok ← (if (regular : bool)
                 then io_and (write_loop fuel temporary (bytes_of record)) sys_ok else mret false);
      _ ← sys_ok;
      renamed ← (if (file_ok : bool) then sys_rename temporary (at_dir dir kRecordName) else mret false);
      if negb renamed then _ ← sys_unlink temporary; mret ERR_MODULE_STORAGE_WRITE
      else synced ← sys_ok; mret (if (synced : bool) then OK else ERR_MODULE_STORAGE_WRITE).

(** src/device_id_fingerprint.cpp:176-186 [read_original_id_fingerprint] *)
Definition read_original_id_fingerprint (module_private_dir : option string) : io (KModErr * Z) :=
  '(err, dir) ← open_private_directory module_private_dir;
  if is_failed err then mret (err, 0)
  else
    '(err, record) ← read_record_at dir;
    _ ← sys_ok;
    mret (err, if is_ok err then fp_fingerprint record else 0).

(** src/device_id_fingerprint.cpp:188-221 [capture_original_id_fingerprint_if_missing] *)
Definition capture_original_id_fingerprint_if_missing (property : option (list Z))
    (module_private_dir : option string) : io (KModErr * Z) :=
  '(err, dir) ← open_private_directory module_private_dir;
  if is_failed err then mret (err, 0)
  else
    '(read_err, record) ← read_record_at dir;
    if is_ok read_err then _ ← sys_ok; mret (OK, fp_fingerprint record)
    else if negb (bool_decide (read_err = ERR_MODULE_STORAGE_NOT_FOUND))
    then _ ← sys_ok; mret (read_err, 0)
    else
      let '(query_err, observed) := query_original_widevine_fingerprint property in
      if is_failed query_err then _ ← sys_ok; mret (query_err, 0)
      else
        write_err ← write_record_at dir (make_fingerprint_record observed);
        _ ← sys_ok;
        mret (write_err, if is_ok write_err then observed else 0).

End Operations.

(** * The record *)

Lemma fingerprint_in_range observed :
  word_ok 8 observed -> in_range (make_fingerprint_record observed).
Proof.
  intros Ho. assert (Hcrc : forall crc, word_ok 4 crc -> in_range
    {| fp_magic := kRecordMagic; fp_version := kRecordVersion; fp_id_length := kWidevineIdBytes;
       fp_fingerprint := observed; fp_crc32 := crc; fp_reserved := 0 |}).
  { intros crc Hc. cbn -[word_ok]. split_and!; try assumption; by split. }
  apply Hcrc, crc32_range, bytes_ok_take, bytes_of_bytes_ok, Hcrc. by split.
Qed.

Lemma fingerprint_covered magic version id_length observed crc reserved :
  take 24 (bytes_of {| fp_magic := magic; fp_version := version; fp_id_length := id_length;
    fp_fingerprint := observed; fp_crc32 := crc; fp_reserved := reserved |}) =
  le_enc 8 magic ++ le_enc 4 version ++ le_enc 4 id_length ++ le_enc 8 observed.
Proof.
  transitivity (take 24 ((le_enc 8 magic ++ le_enc 4 version ++ le_enc 4 id_length ++ le_enc 8 observed) ++
    le_enc 4 crc ++ le_enc 4 reserved)).
  - by rewrite <-!app_assoc.
  - assert (Hlen : length (le_enc 8 magic ++ le_enc 4 version ++ le_enc 4 id_length ++ le_enc 8 observed)
      = 24%nat) by by rewrite !length_app, !le_enc_length.
    rewrite take_app_le, take_ge; [done|lia|lia].
Qed.

Lemma fingerprint_valid observed :
  observed <> 0 -> valid_fingerprint_record (make_fingerprint_record observed) = true.
Proof.
  intros Ho. unfold valid_fingerprint_record, make_fingerprint_record.
  cbn [fp_magic fp_version fp_id_length fp_fingerprint fp_reserved fp_crc32].
  rewrite !fingerprint_covered, (proj2 (Z.eqb_neq observed 0)) by done.
  by rewrite !Z.eqb_refl.
Qed.

Lemma digest_ok state : bytes_ok (digest state).
Proof.
  apply Forall_bind, Forall_true. intros w. unfold be_enc. apply Forall_rev, le_enc_bytes_ok.
Qed.

(** Eight bytes put together are a 64-bit word. *)
Lemma fingerprint_fold_range n k bytes value :
  (k + n <= 8)%nat -> bytes_ok bytes -> 0 <= value < 2 ^ 64 ->
  0 <= foldl (fun value '(i, byte) => Z.lor value (Z.shiftl byte (8 * Z.of_nat i))) value
         (zip (seq k n) bytes) < 2 ^ 64.
Proof.
  revert k bytes value. induction n as [|n IH]; intros k bytes value Hk Hb Hv; [done|].
  destruct Hb as [|b bytes Hb Hbs]; [done|]. cbn. apply IH; [lia|done|].
  apply lor_range; [lia|done|]. rewrite Z.shiftl_mul_pow2 by lia. unfold byte_ok in Hb.
  assert (2 ^ (8 * Z.of_nat k) <= 2 ^ 56) by (apply Z.pow_le_mono_r; lia).
  assert (0 < 2 ^ (8 * Z.of_nat k)) by (apply Z.pow_pos_nonneg; lia).
  change (2 ^ 64) with (256 * 2 ^ 56). nia.
Qed.

Lemma virtual_id_fingerprint_range data : 0 <= virtual_id_fingerprint data < 2 ^ 64.
Proof.
  unfold virtual_id_fingerprint. destruct data as [|b data]; [done|].
  apply fingerprint_fold_range; [lia| |done]. rewrite sha256_eq. apply digest_ok.
Qed.

Lemma observed_range property :
  word_ok 8 (query_original_widevine_fingerprint property).2.
Proof.
  unfold query_original_widevine_fingerprint, word_ok. cbn [snd].
  change (256 ^ Z.of_nat 8) with (2 ^ 64).
  destruct property as [value|]; [|done]. bcase; [apply virtual_id_fingerprint_range|done].
Qed.

(** * The operations *)

Section OperationSpecs.
Context `{OperatingSystem}.
Context (d : Prop) (B fuel : nat).

#[local] Notation enough := (enough d B fuel).

Lemma wp_read_exact content n (Q : option (list Z) -> World -> Prop) w :
  enough n ->
  (forall r w', quiet w w' -> (forall used, r = Some used -> used = content /\ length content = n) ->
     Q r w') ->
  wp d (read_exact fuel content n) Q w.
Proof.
  intros Hfuel HQ. unfold read_exact. apply wp_bind. change [] with (take 0 content).
  apply (wp_read_loop d B fuel B content _ 0); [lia|lia|apply budget_start; by rewrite Nat.sub_0_r|].
  intros m w1 Hq1 Hm Hl. rewrite length_take_le by done.
  destruct (Nat.eqb_spec m n) as [-> |]; cbn [negb]; [|by apply wp_ret, HQ].
  apply wp_bind, wp_bind, wp_next. intros w2 Hq2 _. apply wp_ret, wp_ret.
  assert (Hq : quiet w w2) by by etransitivity.
  destruct (outcome_of _) as [limit| |]; [|by apply HQ..].
  destruct (slice _ _ content) as [|b bs] eqn:Es; [|by apply HQ].
  apply HQ; [done|]. intros used [= <-].
  assert (Hlen : length content = n).
  { apply (f_equal length) in Es. destruct (transfer_pos limit 1) as [? _]; [lia|].
    unfold slice in Es. rewrite length_take, length_drop in Es. simpl in Es. lia. }
  by rewrite take_ge by lia.
Qed.

(** What reading the record reports about the file. *)
Definition read_fingerprint_result (dir : string) (w : World)
    (result : KModErr * OriginalFingerprintRecord) (w' : World) : Prop :=
  let '(err, record) := result in
  let file := w_files w !! at_dir dir kRecordName in
  quiet w w' /\
  (err = OK -> exists content, file = Some content /\ length content = 32%nat /\
     valid_fingerprint_record (of_bytes content) = true /\ record = of_bytes content) /\
  (err = ERR_MODULE_STORAGE_NOT_FOUND -> file = None) /\
  (err <> OK -> record = zero_fingerprint /\
     (err = ERR_MODULE_STORAGE_TYPE /\ is_Some file \/ err = ERR_MODULE_STORAGE_NOT_FOUND \/
      err = ERR_MODULE_STORAGE_READ)).

Lemma wp_read_record_at dir w :
  enough 32 -> wp d (read_record_at fuel dir) (read_fingerprint_result dir w) w.
Proof.
  intros Hfuel. unfold read_record_at. apply wp_bind, wp_open_read. intros [content| |] w1 Hq1 Hr.
  2: { apply wp_ret. split; [exact Hq1|]. split_and!; [discriminate|done|auto]. }
  2: { apply wp_ret. split; [exact Hq1|]. split_and!; [discriminate..|auto]. }
  apply wp_bind, wp_sys_ok. intros status w2 Hq2.
  assert (Hq : quiet w w2) by by etransitivity.
  assert (Htype : forall w3, quiet w w3 ->
    read_fingerprint_result dir w (ERR_MODULE_STORAGE_TYPE, zero_fingerprint) w3).
  { intros w3 Hq3. split; [exact Hq3|]. split_and!; [discriminate..|]. intros _. split; [done|].
    left. split; [done|by exists content]. }
  apply wp_bind. destruct (status && _).
  2: { apply wp_ret, wp_bind, wp_sys_ok. intros _ w3 Hq3. apply wp_ret, Htype. by etransitivity. }
  apply wp_read_exact; [exact Hfuel|]. intros data w3 Hq3 Hdata.
  apply wp_bind, wp_sys_ok. intros _ w4 Hq4.
  assert (Hq' : quiet w w4) by (etransitivity; [exact Hq|by etransitivity]).
  destruct data as [used|]; [|by apply wp_ret, Htype].
  destruct (Hdata used eq_refl) as [-> Hlen].
  destruct (valid_fingerprint_record _) eqn:Ev; cbn [negb]; [|by apply wp_ret, Htype].
  apply wp_ret. split; [exact Hq'|]. split_and!; [|discriminate|done]. intros _. by exists content.
Qed.

(** What a write of the record may have done: nothing to the record, or it is there
    and complete, and it is when success is reported. *)
Definition write_fingerprint_result (dir : string) (new : list Z) (w : World) (err : KModErr)
    (w' : World) : Prop :=
  let path := at_dir dir kRecordName in
  evolves (replacing path (at_dir dir kTemporaryName) new (w_files w)) w w' /\
  (err = OK -> w_files w' !! path = Some new).

Lemma record_ne_temporary dir : at_dir dir kRecordName <> at_dir dir kTemporaryName.
Proof. intros E%at_dir_inj. discriminate E. Qed.

(** The end of the write, from the temporary file on: it is there in full when [file_ok]. *)
Lemma wp_rename_record dir new w (file_ok : bool) w1 :
  let path := at_dir dir kRecordName in
  let tmp := at_dir dir kTemporaryName in
  evolves (spared tmp (w_files w)) w w1 ->
  (file_ok = true -> w_files w1 !! tmp = Some new) ->
  wp d (_ ← sys_ok;
        renamed ← (if file_ok then sys_rename tmp path else mret false);
        if negb renamed then _ ← sys_unlink tmp; mret ERR_MODULE_STORAGE_WRITE
        else synced ← sys_ok; mret (if (synced : bool) then OK else ERR_MODULE_STORAGE_WRITE))
    (write_fingerprint_result dir new w) w1.
Proof.
  intros path tmp Hev Hnew. pose proof (record_ne_temporary dir : path <> tmp) as Hne.
  assert (Hdiscard : forall u, evolves (spared tmp (w_files w)) w u ->
    wp d (_ ← sys_unlink tmp; mret ERR_MODULE_STORAGE_WRITE) (write_fingerprint_result dir new w) u).
  { intros u Hu. eapply wp_mono; [by apply (wp_discard path tmp Hne d new w)|].
    intros err w2 (Hev2 & Hok & _). split; [done|]. intros Herr. rewrite (Hok Herr).
    apply lookup_insert_eq. }
  apply wp_bind, wp_sys_ok. intros _ w2 Hq2.
  assert (Hev2 : evolves (spared tmp (w_files w)) w w2) by by eapply evolves_quiet.
  apply wp_bind. destruct file_ok; [|by apply wp_ret, Hdiscard].
  apply wp_rename; [|intros w3 Hq3; apply Hdiscard; by eapply evolves_quiet].
  intros w3 content Hq3 Hcontent. destruct (Hq2) as [Hf2 _]. rewrite Hf2, Hnew in Hcontent by done.
  apply (inj Some) in Hcontent as <-. cbn [negb].
  pose proof (renamed_ok path tmp Hne new w w2 w3 Hev2 Hq3) as (Hevr & Hokr & _).
  apply wp_bind, wp_sys_ok. intros synced w4 Hq4. apply wp_ret. split; [by eapply evolves_quiet|].
  intros _. destruct Hq4 as [-> _]. rewrite (Hokr eq_refl). apply lookup_insert_eq.
Qed.

Lemma wp_write_record_at dir observed w :
  observed <> 0 -> word_ok 8 observed -> enough 32 ->
  wp d (write_record_at fuel dir (make_fingerprint_record observed))
    (write_fingerprint_result dir (bytes_of (make_fingerprint_record observed)) w) w.
Proof.
  intros Ho Hrange Hfuel. pose proof (bytes_of_length _ (fingerprint_in_range observed Hrange)) as Hlen.
  change (size_of OriginalFingerprintRecord) with 32%nat in Hlen.
  unfold write_record_at. rewrite fingerprint_valid by done. cbn [negb].
  set (new := bytes_of _) in *. clearbody new.
  set (path := at_dir dir kRecordName). set (tmp := at_dir dir kTemporaryName).
  pose proof (record_ne_temporary dir : path <> tmp) as Hne.
  assert (Hkeep : forall w1, evolves (spared tmp (w_files w)) w w1 -> forall err, err <> OK ->
    write_fingerprint_result dir new w err w1).
  { intros w1 Hev err Herr. split; [|done]. eapply evolves_mono; [|exact Hev].
    intros f. by apply spared_replacing. }
  assert (Hev0 : evolves (spared tmp (w_files w)) w w) by by apply evolves_refl.
  apply wp_bind, wp_open_write; [|intros w1 Hq1; apply wp_ret, Hkeep; [by eapply evolves_quiet|done]].
  intros w1 Hq1. cbn [negb]. apply wp_bind, wp_sys_ok. intros regular w2 Hq2.
  assert (Hev2 : evolves (spared tmp (w_files w)) w w2).
  { eapply evolves_quiet; [|exact Hq2]. apply evolves_set; [by eapply evolves_quiet|].
    by apply spared_insert. }
  apply wp_bind. destruct regular; [|apply wp_ret, (wp_rename_record dir new w false); [exact Hev2|discriminate]].
  apply wp_io_and.
  eapply (wp_write_loop d B fuel B tmp [] new (spared tmp (w_files w)) w).
  - intros f c. apply spared_insert.
  - exact Hev2.
  - destruct Hq2 as [-> _]. apply lookup_insert_eq.
  - apply budget_start. by rewrite Hlen.
  - intros [] w3 Hev3 Hdone; [|apply (wp_rename_record dir new w false); [exact Hev3|discriminate]].
    apply wp_sys_ok. intros synced w4 Hq4.
    apply wp_rename_record; [by eapply evolves_quiet|]. intros _. destruct Hq4 as [-> _]. by apply Hdone.
Qed.

(** What a capture comes to: the record is there and says so, or it is missing and the
    query's answer is being written, or nothing happens. *)
Definition capture_result (property : option (list Z)) (dir : string) (w : World)
    (result : KModErr * Z) (w' : World) : Prop :=
  let '(err, fingerprint) := result in
  let path := at_dir dir kRecordName in
  let observed := (query_original_widevine_fingerprint property).2 in
  let new := bytes_of (make_fingerprint_record observed) in
  (err <> OK -> fingerprint = 0) /\
  ((quiet w w' /\ (err = OK -> exists content, w_files w !! path = Some content /\
       length content = 32%nat /\ valid_fingerprint_record (of_bytes content) = true /\
       fingerprint = fp_fingerprint (of_bytes content))) \/
   (w_files w !! path = None /\ observed <> 0 /\
    write_fingerprint_result dir new w err w' /\ (err = OK -> fingerprint = observed))).

Lemma capture_quiet property dir w err w' :
  quiet w w' -> err <> OK -> capture_result property dir w (err, 0) w'.
Proof. intros Hq Herr. split; [done|]. by left. Qed.

Lemma wp_capture property dir w :
  dir <> EmptyString -> enough 32 ->
  wp d (capture_original_id_fingerprint_if_missing fuel property (Some dir))
    (capture_result property dir w) w.
Proof.
  intros Hdir Hfuel. unfold capture_original_id_fingerprint_if_missing, open_private_directory.
  destruct dir as [|c dir0]; [done|]. set (dir := String c dir0) in *. clearbody dir.
  apply wp_bind, wp_bind, wp_sys_ok. intros opened w1 Hq1. apply wp_ret.
  destruct opened; cbn [is_failed is_ok negb bool_decide]; [|by apply wp_ret, capture_quiet].
  apply wp_bind. eapply wp_mono; [by apply wp_read_record_at|].
  intros [read_err record] w2 (Hq2 & Hok & Hnone & Hbad). destruct (Hq1) as [Hf1 _]. rewrite Hf1 in *.
  assert (Hq : quiet w w2) by by etransitivity.
  destruct (is_ok read_err) eqn:E.
  { apply is_ok_true in E as ->. destruct (Hok eq_refl) as (content & Hc & Hl & Hv & ->).
    apply wp_bind, wp_sys_ok. intros _ w3 Hq3. apply wp_ret. split; [done|]. left.
    split; [by etransitivity|]. intros _. by exists content. }
  assert (Hne : read_err <> OK) by (intros ->; discriminate E).
  destruct (decide (read_err = ERR_MODULE_STORAGE_NOT_FOUND)) as [-> | Hnf].
  2: { rewrite bool_decide_eq_false_2 by done. cbn [negb]. apply wp_bind, wp_sys_ok. intros _ w3 Hq3.
       apply wp_ret, capture_quiet; [by etransitivity|done]. }
  rewrite bool_decide_eq_true_2 by done. cbn [negb]. specialize (Hnone eq_refl).
  destruct (query_original_widevine_fingerprint property) as [query_err observed] eqn:Eq.
  pose proof (observed_range property) as Hrange. rewrite Eq in Hrange. cbn [snd] in Hrange.
  assert (Hquery : query_err = OK /\ observed <> 0 \/ query_err = ERR_MODULE_STORAGE_READ).
  { unfold query_original_widevine_fingerprint in Eq. injection Eq as <- <-.
    destruct (negb _) eqn:En; [left|by right]. split; [done|].
    apply negb_true_iff, Z.eqb_neq in En. exact En. }
  destruct Hquery as [[-> Ho] | ->].
  2: { cbn. apply wp_bind, wp_sys_ok. intros _ w3 Hq3. apply wp_ret, capture_quiet; [by etransitivity|done]. }
  change (is_failed OK) with false. cbv iota. apply wp_bind.
  eapply wp_mono; [by apply wp_write_record_at|].
  intros write_err w3 [Hev Hw]. apply wp_bind, wp_sys_ok. intros _ w4 Hq4. apply wp_ret.
  destruct (Hq) as [Hfq _]. rewrite Hfq in Hev.
  unfold capture_result. rewrite Eq. cbn [snd]. split.
  { intros He. by destruct write_err. }
  right. split_and!; [done..| |by intros ->]. split.
  - eapply evolves_quiet; [|exact Hq4]. by eapply quiet_evolves.
  - intros He. destruct Hq4 as [-> _]. by apply Hw.
Qed.

End OperationSpecs.

(** * Properties *)

(** The record in a file: complete and valid, with this fingerprint. *)
Definition records (content : option (list Z)) (fingerprint : Z) : Prop :=
  exists bytes, content = Some bytes /\ length bytes = 32%nat /\
    valid_fingerprint_record (of_bytes bytes) = true /\ fingerprint = fp_fingerprint (of_bytes bytes).

Lemma records_nonzero content fingerprint : records content fingerprint -> fingerprint <> 0.
Proof.
  intros (bytes & _ & _ & Hv & ->). unfold valid_fingerprint_record in Hv. btrue. done.
Qed.

Lemma records_written observed :
  observed <> 0 -> word_ok 8 observed ->
  records (Some (bytes_of (make_fingerprint_record observed))) observed.
Proof.
  intros Ho Hr. pose proof (fingerprint_in_range observed Hr) as Hin.
  exists (bytes_of (make_fingerprint_record observed)).
  split_and!; [done|by rewrite bytes_of_length|..]; rewrite of_bytes_bytes_of by done;
    [by apply fingerprint_valid|done].
Qed.

Lemma capture_records `{OperatingSystem} fuel property dir w err fingerprint w1 :
  dir <> EmptyString ->
  capture_original_id_fingerprint_if_missing fuel property (Some dir) w = Some ((err, fingerprint), w1) ->
  capture_result property dir w (err, fingerprint) w1 /\
  (err = OK -> records (w_files w1 !! at_dir dir kRecordName) fingerprint).
Proof.
  intros Hdir Hrun. assert (Hres : capture_result property dir w (err, fingerprint) w1).
  { eapply wp_result; [|exact Hrun]. apply (wp_capture True 0); [done|by left]. }
  split; [exact Hres|]. intros ->. destruct Hres as [_ [(Hq & Hok)|(_ & Ho & [_ Hw] & Hf)]].
  - destruct Hq as [-> _]. apply (Hok eq_refl).
  - rewrite (Hw eq_refl), (Hf eq_refl). apply records_written; [done|apply observed_range].
Qed.

(** What a read of the kept fingerprint delivers. *)
Definition read_original_result (dir : string) (w : World) (result : KModErr * Z) (w1 : World) : Prop :=
  let '(err, fingerprint) := result in
  quiet w w1 /\ (err = OK -> records (w_files w !! at_dir dir kRecordName) fingerprint) /\
  (err <> OK -> fingerprint = 0).

Lemma wp_read_original `{OperatingSystem} d B fuel dir w :
  dir <> EmptyString -> enough d B fuel 32 ->
  wp d (read_original_id_fingerprint fuel (Some dir)) (read_original_result dir w) w.
Proof.
  intros Hdir Hfuel. unfold read_original_id_fingerprint, open_private_directory.
  destruct dir as [|c dir0]; [done|]. set (dir := String c dir0) in *. clearbody dir.
  apply wp_bind, wp_bind, wp_sys_ok. intros opened w2 Hq2. apply wp_ret.
  destruct opened; cbn [is_failed is_ok negb bool_decide]; [|by apply wp_ret].
  apply wp_bind. eapply wp_mono; [by apply (wp_read_record_at d B)|].
  intros [read_err record] w3 (Hq3 & Hok & _). destruct (Hq2) as [Hf2 _]. rewrite Hf2 in Hok.
  apply wp_bind, wp_sys_ok. intros _ w4 Hq4. apply wp_ret.
  split; [by etransitivity; [exact Hq2|etransitivity]|]. destruct (is_ok read_err) eqn:E.
  - apply is_ok_true in E as ->. split; [|done]. intros _.
    destruct (Hok eq_refl) as (content & ? & ? & ? & ->). by exists content.
  - split; [|done]. intros ->. discriminate E.
Qed.

Lemma read_records `{OperatingSystem} fuel dir w err fingerprint w1 :
  dir <> EmptyString ->
  read_original_id_fingerprint fuel (Some dir) w = Some ((err, fingerprint), w1) ->
  read_original_result dir w (err, fingerprint) w1.
Proof.
  intros Hdir Hrun. eapply (wp_result _ (read_original_result dir w)); [|exact Hrun].
  apply (wp_read_original True 0); [done|by left].
Qed.

(** the fingerprint captured first is the one kept: a capture leaves every other
    file alone, and at every moment the record is as it was or, where there was none,
    the complete record of what the framework reported; when it succeeds, then as
    long as the record is not changed by others, every later read and every later
    capture, whatever identifier the framework reports by then, returns the same
    fingerprint or an error, and leaves the record as it is. *)
Lemma original_fingerprint_kept `{OperatingSystem} fuel fuel' property later dir w err fingerprint w1 :
  dir <> EmptyString ->
  capture_original_id_fingerprint_if_missing fuel property (Some dir) w = Some ((err, fingerprint), w1) ->
  let path := at_dir dir kRecordName in
  evolves (fun f =>
    (f !! path = w_files w !! path \/
     w_files w !! path = None /\
     records (f !! path) (query_original_widevine_fingerprint property).2) /\
    forall p, p <> path -> p <> at_dir dir kTemporaryName -> f !! p = w_files w !! p) w w1 /\
  (err = OK -> fingerprint <> 0 /\
   forall w2 err' fingerprint' w3, w_files w2 !! path = w_files w1 !! path ->
     capture_original_id_fingerprint_if_missing fuel' later (Some dir) w2 =
       Some ((err', fingerprint'), w3) \/
     read_original_id_fingerprint fuel' (Some dir) w2 = Some ((err', fingerprint'), w3) ->
     w_files w3 !! path = w_files w1 !! path /\
     (err' = OK /\ fingerprint' = fingerprint \/ err' <> OK /\ fingerprint' = 0)).
Proof.
  intros Hdir Hrun path. destruct (capture_records _ _ _ _ _ _ _ Hdir Hrun) as [Hres Hrec]. split.
  { destruct Hres as [_ [(Hq & _)|(Hnone & Ho & [Hev _] & _)]].
    - eapply evolves_quiet; [|exact Hq]. apply evolves_refl. split; [by left|done].
    - eapply evolves_mono; [|exact Hev]. intros f [Hf Hrest]. split; [|done].
      destruct Hf as [Hf|Hf]; [by left|]. right. split; [done|].
      unfold path. rewrite Hf. apply records_written; [done|apply observed_range]. }
  intros ->. specialize (Hrec eq_refl). fold path in Hrec. split; [by eapply records_nonzero|].
  intros w2 err' fingerprint' w3 Hsame Hlater. rewrite <-Hsame in *.
  assert (Hunique : forall f', records (w_files w2 !! path) f' -> f' = fingerprint).
  { intros f' (bytes & Hb & _ & _ & ->). destruct Hrec as (bytes' & Hb' & _ & _ & ->). congruence. }
  assert (Hcase : forall e : KModErr, e = OK \/ e <> OK) by (intros e; destruct (decide (e = OK)); auto).
  destruct Hlater as [Hlater|Hlater].
  - destruct (capture_records _ _ _ _ _ _ _ Hdir Hlater) as [[Hfail Hres'] Hrec'].
    assert (Hq : quiet w2 w3).
    { destruct Hres' as [[Hq _]|[Hnone _]]; [done|]. destruct Hrec as (? & ? & _). unfold path in *. congruence. }
    destruct Hq as [Hf _]. unfold path in *. rewrite Hf in *. split; [done|].
    destruct (Hcase err') as [-> | He]; [left; split; [done|by apply Hunique, Hrec']|right; split; [done|by apply Hfail]].
  - destruct (read_records _ _ _ _ _ _ Hdir Hlater) as ([Hf _] & Hrec' & Hfail).
    unfold path in *. rewrite Hf. split; [done|].
    destruct (Hcase err') as [-> | He]; [left; split; [done|by apply Hunique, Hrec']|right; split; [done|by apply Hfail]].
Qed.

(** * A concrete run *)

Definition demo_id : list Z := seqZ 1 32.
Definition demo_directory : string := "/data/m".

#[local] Abbreviation demo_capture :=
  (capture_original_id_fingerprint_if_missing (H := calm_system) 100 (Some demo_id)
     (Some demo_directory) (initial_world ∅)) (only parsing).

Lemma demo_capture_ok :
  (fun r => (r.1.1, bool_decide (r.1.2 = 0))) <$> demo_capture = Some (OK, false).
Proof. vm_compute. reflexivity. Qed.

(** A later capture, while the framework reports the virtual identifier. *)
Lemma original_fingerprint_kept_witness :
  exists fingerprint w1, demo_capture = Some ((OK, fingerprint), w1) /\
  forall err' fingerprint' w3,
    capture_original_id_fingerprint_if_missing (H := calm_system) 100 (Some (replicate 32 7))
      (Some demo_directory) w1 = Some ((err', fingerprint'), w3) ->
    err' = OK /\ fingerprint' = fingerprint \/ err' <> OK /\ fingerprint' = 0.
Proof.
  destruct demo_capture as [[[err fingerprint] w1]|] eqn:E;
    [|pose proof demo_capture_ok as Hd; rewrite E in Hd; discriminate Hd].
  assert (He : err = OK).
  { pose proof demo_capture_ok as Hd. rewrite E in Hd. apply (inj Some) in Hd.
    by apply (inj2 pair) in Hd as [? _]. }
  subst err. exists fingerprint, w1. split; [reflexivity|]. intros err' fingerprint' w3 Hlater.
  destruct (original_fingerprint_kept (H := calm_system) 100 100 (Some demo_id) (Some (replicate 32 7))
    demo_directory (initial_world ∅) OK fingerprint w1 ltac:(discriminate) E) as [_ Hkept].
  destruct (Hkept eq_refl) as [_ Hall].
  apply (Hall w1 err' fingerprint' w3 eq_refl). by left.
Defined.
