(* ===== verification/WebSession.v ===== *)
(** The sessions of the web interface (web_ui.cpp): one token, an idle limit kept by a
    watchdog thread, and the closing of the server.  Every critical section of the
    handler's mutex is one event; requests, the watchdog and the server's own
    callbacks interleave in any order.  Times are milliseconds of the steady clock. *)

From S2P Require Import Prelude.

(** src/web_ui.cpp:27-27 [kSessionTokenBytes] *)
Definition kSessionTokenBytes : nat := 16.
(** src/web_ui.cpp:28-28 [kSessionTokenHexBytes] *)
Definition kSessionTokenHexBytes : nat := kSessionTokenBytes * 2.
(** src/web_ui.cpp:29-29 [kSessionOpenGrace] *)
Definition kSessionOpenGrace : Z := 15000.
(** src/web_ui.cpp:30-30 [kSessionIdleTimeout] *)
Definition kSessionIdleTimeout : Z := 12000.

(** src/web_ui.cpp:163-171 [new_session_token] *)
Definition hex_digit (n : Z) : Ascii.ascii :=
  Ascii.ascii_of_nat (Z.to_nat (if n <? 10 then 48 + n else 87 + n)).

(** The token of the random bytes, and the empty one when there are none. *)

(** src/web_ui.cpp:156-172 [new_session_token] *)
Definition new_session_token (random : option (list Z)) : string :=
  match random with
  | Some bytes =>
      String.string_of_list_ascii
        (bytes ≫= fun byte => [hex_digit (Z.shiftr byte 4); hex_digit (Z.land byte 15)])
  | None => EmptyString
  end.

(** The members of the handler a session uses; [ws_closings] counts the threads that
    were started to close the server. *)

(** src/web_ui.cpp:519-525 [DrmidWebHandler] *)
Record WebSession := {
  ws_server : bool;
  ws_token : string;
  ws_last_activity : Z;
  ws_open : bool;
  ws_shutdown_requested : bool;
  ws_exiting : bool;
  ws_closings : nat;
}.

Definition no_session : WebSession := {|
  ws_server := false; ws_token := EmptyString; ws_last_activity := 0; ws_open := false;
  ws_shutdown_requested := false; ws_exiting := false; ws_closings := 0 |}.

(** src/web_ui.cpp:205-218 [onServerCreated] *)
Definition on_server_created (now : Z) (s : WebSession) : WebSession := {|
  ws_server := true; ws_token := EmptyString; ws_last_activity := now; ws_open := false;
  ws_shutdown_requested := false; ws_exiting := false; ws_closings := ws_closings s |}.

(** src/web_ui.cpp:220-226 [onBeforeServerExit] *)
Definition on_before_server_exit (s : WebSession) : WebSession := {|
  ws_server := ws_server s; ws_token := EmptyString; ws_last_activity := ws_last_activity s;
  ws_open := false; ws_shutdown_requested := ws_shutdown_requested s; ws_exiting := true;
  ws_closings := ws_closings s |}.

(** [token] is the form's value, [None] when the form has none that fits. *)

(** src/web_ui.cpp:254-271 [authenticate_session] *)
Definition authenticate_session (now : Z) (token : option string) (s : WebSession)
    : bool * WebSession :=
  match token with
  | None => (false, s)
  | Some token =>
      if negb (ws_open s) || negb (bool_decide (token = ws_token s)) || ws_exiting s
      then (false, s)
      else (true, {| ws_server := ws_server s; ws_token := ws_token s; ws_last_activity := now;
                     ws_open := ws_open s; ws_shutdown_requested := ws_shutdown_requested s;
                     ws_exiting := ws_exiting s; ws_closings := ws_closings s |})
  end.

(** The answer to a request for a session. *)
Inductive open_answer := SessionRefused | SessionNoRandom | SessionOpened (token : string).

(** src/web_ui.cpp:273-295 [handle_session_open] *)
Definition session_open (ready : bool) (now : Z) (random : option (list Z)) (s : WebSession)
    : open_answer * WebSession :=
  if negb ready || ws_exiting s then (SessionRefused, s)
  else
    let token := new_session_token random in
    let with_token active last shutdown := {|
      ws_server := ws_server s; ws_token := token; ws_last_activity := last; ws_open := active;
      ws_shutdown_requested := shutdown; ws_exiting := ws_exiting s;
      ws_closings := ws_closings s |} in
    if negb (Nat.eqb (String.length token) kSessionTokenHexBytes)
    then (SessionNoRandom, with_token (ws_open s) (ws_last_activity s) (ws_shutdown_requested s))
    else (SessionOpened token, with_token true now false).

(** src/web_ui.cpp:319-327 [request_server_close_locked] *)
Definition request_server_close (s : WebSession) : WebSession :=
  if ws_shutdown_requested s || negb (ws_server s) || ws_exiting s then s
  else {| ws_server := ws_server s; ws_token := ws_token s;
          ws_last_activity := ws_last_activity s; ws_open := ws_open s;
          ws_shutdown_requested := true; ws_exiting := ws_exiting s;
          ws_closings := S (ws_closings s) |}.

(** The critical section of closing a session; the request was authenticated in a
    section of its own before. *)

(** src/web_ui.cpp:305-317 [handle_session_close] *)
Definition session_close (s : WebSession) : WebSession :=
  request_server_close {|
    ws_server := ws_server s; ws_token := EmptyString; ws_last_activity := ws_last_activity s;
    ws_open := false; ws_shutdown_requested := ws_shutdown_requested s;
    ws_exiting := ws_exiting s; ws_closings := ws_closings s |}.

(** One round of the watchdog. *)

(** src/web_ui.cpp:329-342 [session_watchdog] *)
Definition session_watchdog (now : Z) (s : WebSession) : WebSession :=
  if negb (ws_server s) || ws_exiting s || ws_shutdown_requested s then s
  else
    let limit := if ws_open s then kSessionIdleTimeout else kSessionOpenGrace in
    if limit <=? now - ws_last_activity s then request_server_close s else s.

(** * Interleavings *)

Inductive web_event :=
  | EvCreated (now : Z)
  | EvExit
  | EvOpen (ready : bool) (now : Z) (random : option (list Z))
  | EvAuthenticate (now : Z) (token : option string)
  | EvClose
  | EvWatchdog (now : Z).

Definition web_step (e : web_event) (s : WebSession) : WebSession :=
  match e with
  | EvCreated now => on_server_created now s
  | EvExit => on_before_server_exit s
  | EvOpen ready now random => (session_open ready now random s).2
  | EvAuthenticate now token => (authenticate_session now token s).2
  | EvClose => session_close s
  | EvWatchdog now => session_watchdog now s
  end.

Definition web_run (es : list web_event) (s : WebSession) : WebSession :=
  foldl (fun s e => web_step e s) s es.

(** * The specification: at most one session, known by its token *)

Record session_spec := { sp_current : option string; sp_closed : bool }.

Definition spec_step (e : web_event) (a : session_spec) : session_spec :=
  match e with
  | EvCreated _ => {| sp_current := None; sp_closed := false |}
  | EvExit => {| sp_current := None; sp_closed := true |}
  | EvOpen ready _ random =>
      if ready && negb (sp_closed a)
      then {| sp_current := Some (new_session_token random); sp_closed := false |} else a
  | EvClose => {| sp_current := None; sp_closed := sp_closed a |}
  | EvAuthenticate _ _ | EvWatchdog _ => a
  end.

Definition spec_run (es : list web_event) : session_spec :=
  foldl (fun a e => spec_step e a) {| sp_current := None; sp_closed := false |} es.

(** The random device delivers whenever it is asked. *)
Definition random_event (e : web_event) : Prop :=
  match e with
  | EvOpen _ _ random => exists bytes, random = Some bytes /\ length bytes = kSessionTokenBytes
  | _ => True
  end.

Record session_abs (s : WebSession) (a : session_spec) : Prop := {
  sa_exiting : ws_exiting s = sp_closed a;
  sa_open : ws_open s = bool_decide (is_Some (sp_current a));
  sa_token : ws_token s = default EmptyString (sp_current a);
  sa_length : forall token, sp_current a = Some token -> String.length token = kSessionTokenHexBytes;
  sa_quiet : sp_closed a = true -> sp_current a = None;
}.

Lemma string_of_list_length l : String.length (String.string_of_list_ascii l) = length l.
Proof. induction l as [|c l IH]; [done|]. cbn. by rewrite IH. Qed.

Lemma token_length bytes :
  length bytes = kSessionTokenBytes ->
  String.length (new_session_token (Some bytes)) = kSessionTokenHexBytes.
Proof.
  intros Hl. unfold new_session_token. rewrite string_of_list_length.
  unfold kSessionTokenHexBytes. rewrite <-Hl. clear Hl. generalize bytes. intros bs.
  induction bs as [|b bs IH]; [done|]. rewrite bind_cons, length_app, IH. cbn. lia.
Qed.

Lemma request_close_abs s a : session_abs s a -> session_abs (request_server_close s) a.
Proof. intros [? ? ? ? ?]. unfold request_server_close. destruct (_ || _); by split. Qed.

Lemma web_step_abs e s a :
  random_event e -> session_abs s a -> session_abs (web_step e s) (spec_step e a).
Proof.
  intros Hrandom Hs. pose proof Hs as [Hexit Hopen Htoken Hlen Hquiet].
  destruct e as [now| |ready now random|now token| |now]; cbn [web_step spec_step].
  - by split.
  - by split.
  - unfold session_open. rewrite Hexit. destruct Hrandom as (bytes & -> & Hbytes).
    destruct ready; cbn [negb orb andb]; [|done]. destruct (sp_closed a) eqn:Ec; cbn [negb]; [done|].
    rewrite token_length by done. rewrite Nat.eqb_refl. cbn [negb].
    split; cbn; [congruence|done|done| |done]. intros token [= <-]. by apply token_length.
  - unfold authenticate_session. destruct token as [token|]; [|done]. destruct (_ || _); by split.
  - unfold session_close. apply request_close_abs. by split.
  - unfold session_watchdog. destruct (_ || _); [done|]. destruct (_ <=? _); [|done].
    by apply request_close_abs.
Qed.

Lemma web_run_abs es s a :
  Forall random_event es -> session_abs s a ->
  session_abs (web_run es s) (foldl (fun a e => spec_step e a) a es).
Proof.
  intros Hes. revert s a. induction Hes as [|e es He _ IH]; intros s a Hs; [done|].
  cbn. by apply IH, web_step_abs.
Qed.

(** C40: the handler keeps exactly one session, whatever the order of requests,
    watchdog rounds and server callbacks, as long as the random device works: a
    request is authenticated if and only if it carries the token handed out by the
    last opening, and neither a close, nor the server's exit or start came after
    that opening; the token has 32 characters, so an empty one never passes. *)
Theorem web_session_refines es now token :
  Forall random_event es ->
  let s := web_run es no_session in
  ((authenticate_session now token s).1 = true <->
     exists t, token = Some t /\ sp_current (spec_run es) = Some t) /\
  (forall t, sp_current (spec_run es) = Some t -> String.length t = kSessionTokenHexBytes) /\
  session_abs (authenticate_session now token s).2 (spec_run es).
Proof.
  intros Hes s. assert (Hs : session_abs s (spec_run es)) by (apply web_run_abs; [done|by split]).
  clearbody s. pose proof Hs as [Hexit Hopen Htoken Hlen Hquiet].
  split; [|split; [done|exact (web_step_abs (EvAuthenticate now token) s _ I Hs)]].
  unfold authenticate_session. destruct token as [token|]; [|split; [done|by intros (t & ? & _)]].
  rewrite Hopen, Hexit, Htoken.
  destruct (sp_current (spec_run es)) as [current|] eqn:Ec.
  - rewrite (bool_decide_eq_true_2 (is_Some (Some current))) by by eexists.
    destruct (sp_closed (spec_run es)) eqn:Ecl; [by specialize (Hquiet eq_refl)|].
    cbn [negb default from_option orb]. rewrite orb_false_r.
    destruct (decide (token = current)) as [-> |Hne];
      [rewrite bool_decide_eq_true_2 by done|rewrite bool_decide_eq_false_2 by done]; cbn.
    + split; [|done]. intros _. by exists current.
    + split; [done|]. intros (t & Ht & Hc). congruence.
  - rewrite (bool_decide_eq_false_2 (is_Some None)) by (intros [? [=]]). cbn.
    split; [done|]. intros (t & _ & Hc). discriminate Hc.
Qed.

(** * The watchdog *)

(** No request is served, and the server neither starts nor exits. *)
Definition idle_event (s : WebSession) (e : web_event) : Prop :=
  match e with
  | EvWatchdog _ => True
  | EvAuthenticate now token => (authenticate_session now token s).1 = false
  | EvOpen ready now random => (session_open ready now random s).1 = SessionRefused
  | _ => False
  end.

Lemma idle_event_keeps s e :
  idle_event s e ->
  web_step e s = s \/ ws_shutdown_requested (web_step e s) = true /\ web_step e s = request_server_close s.
Proof.
  destruct e as [now| |ready now random|now token| |now]; cbn [idle_event web_step]; try done.
  - unfold session_open. destruct (_ || _); [by left|]. destruct (negb _); discriminate.
  - unfold authenticate_session. destruct token as [token|]; [|by left].
    destruct (_ || _); [by left|discriminate].
  - intros _. unfold session_watchdog. destruct (_ || _) eqn:E; [by left|].
    destruct (_ <=? _); [|by left]. right. split; [|done]. unfold request_server_close. btrue.
    by destruct (ws_shutdown_requested s), (ws_server s), (ws_exiting s).
Qed.

Lemma request_close_twice s : request_server_close (request_server_close s) = request_server_close s.
Proof.
  unfold request_server_close at 2 3.
  destruct (ws_shutdown_requested s || negb (ws_server s) || ws_exiting s) eqn:E; [|done].
  unfold request_server_close. by rewrite E.
Qed.

(** Once requested, a shutdown stays requested while nothing happens. *)
Lemma idle_shutdown s e :
  idle_event s e -> ws_shutdown_requested s = true -> ws_shutdown_requested (web_step e s) = true.
Proof. intros He Hs. destruct (idle_event_keeps s e He) as [-> | [-> _]]; done. Qed.

(** an idle server is closed: whatever refused requests and watchdog rounds come
    in the meantime, the first watchdog round that finds the last activity as far back
    as the limit (12 s with an open session, 15 s before one) starts the closing,
    unless it was started before, and never a second one. *)
Lemma idle_server_closes s es now :
  ws_server s = true -> ws_exiting s = false -> ws_shutdown_requested s = false ->
  (forall i e, es !! i = Some e -> idle_event (web_run (take i es) s) e) ->
  (if ws_open s then kSessionIdleTimeout else kSessionOpenGrace) <= now - ws_last_activity s ->
  let s' := session_watchdog now (web_run es s) in
  ws_shutdown_requested s' = true /\ ws_closings s' = S (ws_closings s).
Proof.
  intros Hserver Hexit Hshutdown Hidle Hnow s'.
  assert (Hrun : forall n, (n <= length es)%nat ->
    web_run (take n es) s = s \/ web_run (take n es) s = request_server_close s).
  { intros n. induction n as [|n IH]; intros Hn; [by left|].
    destruct (lookup_lt_is_Some_2 es n) as [e He]; [lia|].
    assert (Hstep : web_run (take (S n) es) s = web_step e (web_run (take n es) s)).
    { rewrite (take_S_r _ _ e) by done. unfold web_run. by rewrite foldl_app. }
    rewrite Hstep. specialize (Hidle n e He). destruct IH as [E|E]; [lia| |]; rewrite E in Hidle |- *.
    - destruct (idle_event_keeps s e Hidle) as [-> | [_ ->]]; [by left|by right].
    - destruct (idle_event_keeps _ e Hidle) as [-> | [_ ->]]; right; [done|].
      apply request_close_twice. }
  specialize (Hrun (length es) ltac:(lia)). rewrite firstn_all in Hrun. subst s'.
  assert (Hclose : request_server_close s = {| ws_server := true; ws_token := ws_token s;
    ws_last_activity := ws_last_activity s; ws_open := ws_open s; ws_shutdown_requested := true;
    ws_exiting := false; ws_closings := S (ws_closings s) |}).
  { unfold request_server_close. by rewrite Hserver, Hexit, Hshutdown. }
  destruct Hrun as [-> | ->].
  - unfold session_watchdog. rewrite Hserver, Hexit, Hshutdown. cbn [negb orb].
    rewrite (proj2 (Z.leb_le _ _) Hnow), Hclose. done.
  - rewrite Hclose. done.
Qed.

(** * Concrete runs *)

Definition demo_random : option (list Z) := Some (seqZ 0 16).
Definition demo_token : string := "000102030405060708090a0b0c0d0e0f".
Definition demo_events : list web_event :=
  [EvCreated 0; EvWatchdog 1000; EvOpen true 2000 demo_random; EvAuthenticate 2100 (Some "x")].

Lemma web_session_refines_witness :
  (authenticate_session 3000 (Some demo_token) (web_run demo_events no_session)).1 = true.
Proof.
  destruct (web_session_refines demo_events 3000 (Some demo_token)) as [[_ Hauth] _].
  { repeat constructor. by exists (seqZ 0 16). }
  apply Hauth. exists demo_token. split; [reflexivity|vm_compute; reflexivity].
Defined.

Lemma idle_server_closes_witness :
  ws_closings (session_watchdog 15000 (web_run [EvAuthenticate 9000 None; EvWatchdog 9500]
    (web_run demo_events no_session))) = 1%nat.
Proof.
  assert (Hidle : forall i e, [EvAuthenticate 9000 None; EvWatchdog 9500] !! i = Some e ->
    idle_event (web_run (take i [EvAuthenticate 9000 None; EvWatchdog 9500])
      (web_run demo_events no_session)) e).
  { intros [|[|i]] e He; [injection He as <-; reflexivity|injection He as <-; exact I|discriminate He]. }
  refine (proj2 (idle_server_closes (web_run demo_events no_session)
    [EvAuthenticate 9000 None; EvWatchdog 9500] 15000 _ _ _ Hidle _)).
  all: vm_compute; first [reflexivity|discriminate].
Defined.

(** When the random device fails while a session is open, the session stays open and
    its token becomes empty: a request with an empty token is then authenticated. *)
Lemma empty_token_authenticates :
  let s := web_run (demo_events ++ [EvOpen true 4000 None]) no_session in
  (authenticate_session 5000 (Some EmptyString) s).1 = true.
Proof. vm_compute. reflexivity. Qed.

(** A session opened while a closing thread is already running is answered with a token,
    and its server closes all the same; a second closing can then be started. *)
Lemma session_opened_while_closing :
  let s := web_run [EvCreated 0; EvWatchdog 15000; EvOpen true 15010 demo_random] no_session in
  ws_open s = true /\ ws_closings s = 1%nat /\ ws_shutdown_requested s = false.
Proof. vm_compute. auto. Qed.
