(* ===== verification/WebUi.v ===== *)
(** The requests of the web interface (web_ui.cpp): a session's token in front of every
    one, the status, the application of a configuration and the stop.  The form
    parser of the HTTP library and the daemon's answers are parameters; replies are
    modelled by their status code and the values their JSON text shows. *)

From S2P Require Import Prelude KernelContext Posix Records Slots Sha256 ControlIpc RuntimeControl.
From S2P Require Import AtomicFile RuntimeProfile Release CapabilityRecord ControlServer FileLifecycle OriginalFingerprint WebSession.

(** * Texts *)

(** src/web_ui.cpp:125-130 [hex_nibble] *)
Definition hex_nibble (ch : Z) : Z :=
  if (48 <=? ch) && (ch <=? 57) then ch - 48
  else if (97 <=? ch) && (ch <=? 102) then ch - 97 + 10
  else if (65 <=? ch) && (ch <=? 70) then ch - 65 + 10
  else -1.

(** The bytes of pairs of digits. *)

(** src/web_ui.cpp:179-184 [decode_virtual_id] *)
Fixpoint decode_pairs (text : list Z) : option (list Z) :=
  match text with
  | [] => Some []
  | high :: low :: text =>
      if (hex_nibble high <? 0) || (hex_nibble low <? 0) then None
      else
        bytes ← decode_pairs text;
        Some (u8 (Z.lor (Z.shiftl (hex_nibble high) 4) (hex_nibble low)) :: bytes)
  | [_] => None
  end.

(** src/web_ui.cpp:174-186 [decode_virtual_id] *)
Definition decode_virtual_id (text : string) : option (list Z) :=
  if negb (Nat.eqb (String.length text) (kVirtualIdBytes * 2)) then None
  else
    bytes ← decode_pairs (bytes_of_string text);
    Some (bytes ++ replicate (kVirtualStreamBytes - kVirtualIdBytes) 0).

(** * Replies *)

(** What status_json puts into its text. *)
Record StatusView := {
  sv_response : ControlIpcResponse;
  sv_device_fingerprint : option Z;
  sv_binder : option BinderCapabilityStatus;
}.

Inductive payload :=
  | JsonError (err : KModErr) (stage : string)
  | JsonStage (stage : string)
  | JsonSession (token : string)
  | JsonHeartbeat
  | JsonClosed
  | JsonStarting (err : KModErr) (daemon_pid : Z)
  | JsonResponse (response : ControlIpcResponse)
  | JsonStatus (view : StatusView).

Record reply := { rp_code : Z; rp_payload : payload }.

(** src/web_ui.cpp:516-518 [DrmidWebHandler] *)
Record WebPaths := {
  wp_private_dir : string;
  wp_control_path : string;
  wp_socket_path : string;
}.

(** src/web_ui.cpp:190-203 [onPrepareCreate] *)
Definition on_prepare_create (module_private_dir : option string) : WebPaths :=
  let dir := default EmptyString module_private_dir in
  {| wp_private_dir := dir;
     wp_control_path := default_runtime_control_path (Some dir);
     wp_socket_path := default_control_socket_path (Some dir) |}.

(** src/web_ui.cpp:249-252 [ready] *)
Definition ready (paths : WebPaths) : bool :=
  negb (bool_decide (wp_private_dir paths = EmptyString)) &&
  negb (bool_decide (wp_control_path paths = EmptyString)) &&
  negb (bool_decide (wp_socket_path paths = EmptyString)).

Section Handlers.
Context `{OperatingSystem}.
Context (fuel : nat).

(** The form parser: the value of a name in a body, [None] when it has none or the
    value does not fit a buffer of the size given. *)
Context (mg_get_var : string -> string -> nat -> option string).

(** What send_control_ipc_request delivers: the daemon is another process, and may
    look at the files as they are. *)
Context (daemon : nat -> ControlIpcOperation -> files_t -> KModErr * ControlIpcResponse).

(** What the probe of the daemon's lock meets at a call. *)
Context (owner_view : nat -> OwnerView).

Definition ask_daemon (operation : ControlIpcOperation) : io (KModErr * ControlIpcResponse) :=
  fun w => Some (daemon (w_calls w) operation (w_files w),
                 Build_World (w_files w) (S (w_calls w)) (w_trace w)).

Definition probe_owner (dir : string) : io (option Z) :=
  fun w => Some (daemon_lock_owner_alive (Some dir) (owner_view (w_calls w)),
                 Build_World (w_files w) (S (w_calls w)) (w_trace w)).

(** src/web_ui.cpp:107-123 [form_value] *)
Definition form_value (body name : string) (max_bytes : nat) : option string :=
  match mg_get_var body name (max_bytes + 1) with
  | Some value => if (max_bytes <? String.length value)%nat then None else Some value
  | None => None
  end.

(** src/web_ui.cpp:132-154 [fill_random_id] *)
Definition fill_random_id : io (option (list Z)) :=
  fd ← sys_ok;
  if negb fd then mret None
  else
    bytes ← random_loop fuel kVirtualIdBytes [];
    _ ← sys_ok;
    mret (if Nat.eqb (length bytes) kVirtualIdBytes
          then Some (bytes ++ replicate (kVirtualStreamBytes - kVirtualIdBytes) 0) else None).

(** src/web_ui.cpp:39-105 [status_json] *)
Definition status_json (response : ControlIpcResponse) (module_private_dir : string) : io StatusView :=
  '(fingerprint_err, device_fingerprint) ← read_original_id_fingerprint fuel (Some module_private_dir);
  '(binder_err, binder_status) ←
    read_binder_capability_status fuel
      (Some (default_binder_capability_path (Some module_private_dir)));
  mret {| sv_response := response;
          sv_device_fingerprint :=
            if is_ok fingerprint_err && negb (device_fingerprint =? 0)
            then Some device_fingerprint else None;
          sv_binder := if is_ok binder_err then Some binder_status else None |}.

Definition answer (code : Z) (p : payload) : io reply := mret {| rp_code := code; rp_payload := p |}.

Definition answer_status (code : Z) (response : ControlIpcResponse) (paths : WebPaths) : io reply :=
  view ← status_json response (wp_private_dir paths); answer code (JsonStatus view).

(** src/web_ui.cpp:344-377 [handle_status] *)
Definition handle_status (paths : WebPaths) : io reply :=
  if negb (ready paths) then answer 500 (JsonError ERR_MODULE_PARAM "prepare")
  else
    '(err, response) ← ask_daemon kStatus;
    if is_failed err then
      owner ← probe_owner (wp_private_dir paths);
      match owner with
      | Some daemon_pid => answer 425 (JsonStarting err daemon_pid)
      | None => answer 503 (JsonError err "status-connect")
      end
    else answer_status (if rs_result response =? 0 then 200 else 409) response paths.

(** src/web_ui.cpp:379-393 [handle_stop] *)
Definition handle_stop (paths : WebPaths) : io reply :=
  '(err, response) ← (if ready paths then ask_daemon kStop else mret (ERR_MODULE_PARAM, zero_response));
  if is_failed err then answer 503 (JsonError err "stop-connect")
  else answer (if rs_result response =? 0 then 200 else 409) (JsonResponse response).

(** The configuration a form asks for, but for the generation; or the refusal. *)

(** src/web_ui.cpp:445-476 [handle_apply] *)
Definition requested_config (paths : WebPaths) (mode id_action id_hex : string)
    (persisted : ReplacementConfig) : io (reply + ReplacementConfig) :=
  let refuse code err stage := mret (inl {| rp_code := code; rp_payload := JsonError err stage |}) in
  let config virtual_id seed_generation := {|
    cfg_mode := mode_num (if String.eqb mode "write" then kWriteTest else kDryRun);
    cfg_virtual_id_length := Z.of_nat kVirtualIdBytes;
    cfg_config_generation := cfg_config_generation persisted;
    cfg_seed_generation := seed_generation;
    cfg_profile_fingerprint := virtual_id_fingerprint (take kVirtualIdBytes virtual_id);
    cfg_virtual_id := virtual_id |} in
  if String.eqb id_action "derive" then
    '(err, profile) ← load_or_create_runtime_profile fuel false (Some (wp_private_dir paths));
    if is_failed err then refuse 500 err "profile"
    else mret (inr (config (virtual_stream profile) (seed_generation profile)))
  else if String.eqb id_action "random" then
    virtual_id ← fill_random_id;
    match virtual_id with
    | None => refuse 500 ERR_MODULE_STORAGE_READ "random"
    | Some virtual_id => mret (inr (config virtual_id (cfg_seed_generation persisted)))
    end
  else if String.eqb id_action "custom" then
    match decode_virtual_id id_hex with
    | None => refuse 422 ERR_MODULE_PARAM "id-hex"
    | Some virtual_id => mret (inr (config virtual_id (cfg_seed_generation persisted)))
    end
  else mret (inr (config (cfg_virtual_id persisted) (cfg_seed_generation persisted))).

(** src/web_ui.cpp:478-481 [handle_apply] *)
Definition no_op (current : ControlIpcResponse) (config : ReplacementConfig) : bool :=
  (rs_replacement_mode current =? cfg_mode config) &&
  (rs_profile_fingerprint current =? cfg_profile_fingerprint config) &&
  (rs_virtual_id_length current =? cfg_virtual_id_length config).

Definition with_generation (generation : Z) (config : ReplacementConfig) : ReplacementConfig := {|
  cfg_mode := cfg_mode config; cfg_virtual_id_length := cfg_virtual_id_length config;
  cfg_config_generation := generation; cfg_seed_generation := cfg_seed_generation config;
  cfg_profile_fingerprint := cfg_profile_fingerprint config;
  cfg_virtual_id := cfg_virtual_id config |}.

(** Writing the configuration and having the daemon apply it. *)

(** src/web_ui.cpp:478-513 [handle_apply] *)
Definition apply_config (paths : WebPaths) (current : ControlIpcResponse) (config : ReplacementConfig)
    : io reply :=
  if no_op current config then answer_status 200 current paths
  else if rs_config_generation current =? UINT64_MAX
  then answer 409 (JsonError ERR_MODULE_PARAM "generation")
  else
    err ← write_runtime_control_file fuel (Some (wp_control_path paths))
            (with_generation (rs_config_generation current + 1) config);
    if is_failed err then answer 500 (JsonError err "persist")
    else
      '(err, applied) ← ask_daemon kApply;
      if is_failed err then answer 503 (JsonError err "apply-connect")
      else answer_status (if rs_result applied =? 0 then 200 else 409) applied paths.

(** src/web_ui.cpp:409-421 [handle_apply] *)
Definition valid_form (mode id_action : string) : bool :=
  (String.eqb mode "dry" || String.eqb mode "write") &&
  (String.eqb id_action "keep" || String.eqb id_action "derive" ||
   String.eqb id_action "random" || String.eqb id_action "custom").

(** src/web_ui.cpp:395-514 [handle_apply] *)
Definition handle_apply (paths : WebPaths) (body : string) : io reply :=
  if (4096 <? String.length body)%nat then answer 413 (JsonError ERR_MODULE_PARAM "body-size")
  else
    match form_value body "mode" 8, form_value body "id_action" 8,
          form_value body "id_hex" (kVirtualIdBytes * 2) with
    | Some mode, Some id_action, Some id_hex =>
        if negb (valid_form mode id_action) then answer 422 (JsonError ERR_MODULE_PARAM "form")
        else if negb (ready paths) then answer 500 (JsonError ERR_MODULE_PARAM "prepare")
        else
          '(err, current) ← ask_daemon kStatus;
          if is_failed err then answer 503 (JsonError err "status-connect")
          else if negb (rs_result current =? 0) then answer 503 (JsonResponse current)
          else
            '(err, persisted) ← read_runtime_control_file fuel (Some (wp_control_path paths));
            if is_failed err then answer 409 (JsonError err "control-read")
            else
              request ← requested_config paths mode id_action id_hex persisted;
              match request with
              | inl refusal => mret refusal
              | inr config => apply_config paths current config
              end
    | _, _, _ => answer 422 (JsonError ERR_MODULE_PARAM "form")
    end.

(** src/web_ui.cpp:156-162 [new_session_token] *)
Definition token_bytes : io (option (list Z)) :=
  fd ← sys_ok;
  if negb fd then mret None
  else
    bytes ← random_loop fuel kSessionTokenBytes [];
    _ ← sys_ok;
    mret (if Nat.eqb (length bytes) kSessionTokenBytes then Some bytes else None).

(** One request at a time: the critical sections of a request follow each other.  The
    random device is read inside the section that opens a session, and only there. *)

(** src/web_ui.cpp:228-246 [handlePost] *)
Definition handle_post (paths : WebPaths) (now : Z) (path body : string) (s : WebSession)
    : io (reply * WebSession) :=
  let token := form_value body "session_token" kSessionTokenHexBytes in
  let denied := {| rp_code := 401; rp_payload := JsonStage "session" |} in
  if String.eqb path "/api/session/open" then
    random ← (if negb (ready paths) || ws_exiting s then mret None else token_bytes);
    let '(opened, s) := session_open (ready paths) now random s in
    mret (match opened with
          | SessionRefused => {| rp_code := 503; rp_payload := JsonStage "server" |}
          | SessionNoRandom => {| rp_code := 500; rp_payload := JsonStage "random" |}
          | SessionOpened token => {| rp_code := 200; rp_payload := JsonSession token |}
          end, s)
  else
    let '(authenticated, s) := authenticate_session now token s in
    if negb authenticated then mret (denied, s)
    else if String.eqb path "/api/session/ping" then
      mret ({| rp_code := 200; rp_payload := JsonHeartbeat |}, s)
    else if String.eqb path "/api/session/close" then
      mret ({| rp_code := 200; rp_payload := JsonClosed |}, session_close s)
    else
      r ← (if String.eqb path "/api/status" then handle_status paths
           else if String.eqb path "/api/apply" then handle_apply paths body
           else if String.eqb path "/api/stop" then handle_stop paths
           else answer 404 (JsonStage "route"));
      mret (r, s).

End Handlers.

(** * Identifiers as text *)

(** The lower-case text of bytes. *)
Definition hex_text (bytes : list Z) : string :=
  String.string_of_list_ascii
    (bytes ≫= fun byte => [hex_digit (Z.shiftr byte 4); hex_digit (Z.land byte 15)]).

Lemma hex_digit_back n :
  0 <= n < 16 -> hex_nibble (Z.of_nat (Ascii.nat_of_ascii (hex_digit n))) = n.
Proof.
  apply (below_cases (fun n => hex_nibble (Z.of_nat (Ascii.nat_of_ascii (hex_digit n))) = n)).
  by repeat constructor.
Qed.

Lemma byte_halves b : byte_ok b -> 0 <= Z.shiftr b 4 < 16 /\ 0 <= Z.land b 15 < 16 /\
  u8 (Z.lor (Z.shiftl (Z.shiftr b 4) 4) (Z.land b 15)) = b.
Proof.
  intros Hb. unfold byte_ok in Hb. change 15 with (Z.ones 4). rewrite Z.land_ones by lia.
  rewrite Z.shiftr_div_pow2 by lia. split; [Z.to_euclidean_division_equations; lia|].
  split; [Z.to_euclidean_division_equations; lia|].
  assert (Z.lor (Z.shiftl (b / 2 ^ 4) 4) (b mod 2 ^ 4) = b) as ->.
  { rewrite <-Z.land_ones by lia. rewrite <-Z.shiftr_div_pow2 by lia.
    rewrite <-Z.ldiff_ones_r by lia. apply Z.bits_inj'. intros n _.
    rewrite Z.lor_spec, Z.ldiff_spec, Z.land_spec. by destruct (Z.testbit b n), (Z.testbit _ n). }
  unfold u8. apply Z.mod_small. lia.
Qed.

Lemma decode_pairs_text bytes :
  bytes_ok bytes -> decode_pairs (bytes_of_string (hex_text bytes)) = Some bytes.
Proof.
  induction 1 as [|b bytes Hb _ IH]; [done|]. destruct (byte_halves b Hb) as (Hhigh & Hlow & Hback).
  unfold hex_text. rewrite bind_cons. cbn. fold (hex_text bytes). unfold bytes_of_string in IH.
  rewrite !hex_digit_back by done.
  rewrite (proj2 (Z.ltb_ge _ _)) by lia. rewrite (proj2 (Z.ltb_ge _ _)) by lia. cbn [orb].
  by rewrite IH, Hback.
Qed.

Lemma decode_pairs_some text bytes :
  decode_pairs text = Some bytes -> length text = (2 * length bytes)%nat /\ bytes_ok bytes.
Proof.
  remember (length text) as n eqn:Hn. assert (Hle : (length text <= n)%nat) by lia. revert text bytes Hn Hle.
  induction n as [n IH] using lt_wf_ind. intros text bytes Hn Hle.
  destruct text as [|high [|low text]]; cbn [decode_pairs];
    [intros [= <-]; split; [done|constructor]|done|].
  destruct (_ || _); [done|]. destruct (decode_pairs text) as [rest|] eqn:E; [|done].
  intros [= <-]. cbn in Hn. destruct (IH (length text) ltac:(lia) text rest eq_refl ltac:(lia) E) as [Hl Hok].
  cbn. split; [lia|]. constructor; [apply u8_range|done].
Qed.

Lemma decode_virtual_id_some text id :
  decode_virtual_id text = Some id -> length id = kVirtualStreamBytes /\ bytes_ok id.
Proof.
  unfold decode_virtual_id. destruct (Nat.eqb_spec (String.length text) (kVirtualIdBytes * 2)) as [Hl|];
    cbn [negb]; [|done].
  destruct (decode_pairs _) as [bytes|] eqn:E; [|done].
  change (Some (bytes ++ replicate (kVirtualStreamBytes - kVirtualIdBytes) 0) = Some id -> length id = kVirtualStreamBytes /\ bytes_ok id).
  intros Hid. apply (inj Some) in Hid as <-. apply decode_pairs_some in E as [Hlen Hok]. rewrite bytes_of_string_length, Hl in Hlen.
  unfold kVirtualIdBytes, kVirtualStreamBytes in *.
  split; [rewrite length_app, length_replicate; lia|].
  apply bytes_ok_app. split; [done|]. apply bytes_ok_replicate. by split.
Qed.

(** Any identifier can be given in its own text. *)
Lemma decode_virtual_id_text bytes :
  length bytes = kVirtualIdBytes -> bytes_ok bytes ->
  decode_virtual_id (hex_text bytes) = Some (bytes ++ replicate 32 0).
Proof.
  intros Hl Hok. unfold decode_virtual_id.
  assert (String.length (hex_text bytes) = (kVirtualIdBytes * 2)%nat) as ->.
  { unfold hex_text. rewrite string_of_list_length, <-Hl. clear. induction bytes as [|b bs IH]; [done|].
    rewrite bind_cons, length_app, IH. cbn. lia. }
  rewrite Nat.eqb_refl. cbn [negb]. by rewrite decode_pairs_text.
Qed.

(** * What the requests do to the files *)

Lemma digest_bytes_ok data : bytes_ok (sha256_spec data).
Proof. apply digest_ok. Qed.

Lemma hkdf_ok ikm salt info n : bytes_ok (hkdf_spec ikm salt info n).
Proof.
  unfold hkdf_spec. apply bytes_ok_take. generalize (hmac_spec salt ikm), (@nil Z), 1.
  generalize 255%nat. intros k. induction k as [|k IH]; intros prk previous counter; [constructor|].
  cbn [hkdf_blocks concat]. apply bytes_ok_app. split; [apply digest_bytes_ok|apply IH].
Qed.

(** The module's files are siblings in its directory. *)
Definition kControlName : string := "drmid_runtime_control_v3.bin".

Lemma dir_prefix_eq dir :
  dir <> EmptyString ->
  (if Nat.eqb (after_last_slash dir 0 0) (String.length dir) then dir else dir +:+ "/") = dir_prefix dir.
Proof.
  intros Hdir. unfold dir_prefix. rewrite bool_decide_eq_false_2 by done. cbn [negb andb].
  by destruct (Nat.eqb _ _).
Qed.

Lemma control_path_at dir :
  dir <> EmptyString -> default_runtime_control_path (Some dir) = at_dir dir kControlName.
Proof.
  intros Hdir. unfold default_runtime_control_path, at_dir, kControlName.
  destruct dir as [|c dir]; [done|]. by rewrite dir_prefix_eq.
Qed.

Lemma at_dir_nonempty dir name : name <> EmptyString -> at_dir dir name <> EmptyString.
Proof.
  unfold at_dir. intros Hname E. apply (f_equal String.length) in E. rewrite string_app_length in E.
  destruct name; [done|]. cbn in E. lia.
Qed.

Lemma c_path_some p : p <> EmptyString -> c_path (Some p) = Some p.
Proof. by destruct p. Qed.

Section Specs.
Context `{OperatingSystem}.
Context (d : Prop) (B fuel : nat).
Context (Hfuel : enough d B fuel 160).
Context (mg_get_var : string -> string -> nat -> option string).
Context (daemon : nat -> ControlIpcOperation -> files_t -> KModErr * ControlIpcResponse).
Context (Hdaemon : forall n f, word_ok 8 (rs_config_generation (daemon n kStatus f).2)).
Context (owner_view : nat -> OwnerView).
Context (dir : string) (Hdir : dir <> EmptyString).

#[local] Abbreviation path := (at_dir dir kControlName).
#[local] Abbreviation tmp := (path +:+ ".tmp").

Lemma wp_ask op Q w :
  (forall w', quiet w w' -> Q (daemon (w_calls w) op (w_files w)) w') -> wp d (ask_daemon daemon op) Q w.
Proof. intros HQ. unfold wp, ask_daemon. by apply HQ. Qed.

Lemma wp_status_json response Q w :
  (forall view w', quiet w w' -> Q view w') -> wp d (status_json fuel response dir) Q w.
Proof.
  intros HQ. unfold status_json. apply wp_bind.
  eapply wp_mono; [apply (wp_read_original d B); [done|by apply (enough_le d B fuel 32 160); [lia|]]|].
  intros [err fingerprint] w1 (Hq1 & _). apply wp_bind.
  eapply wp_mono; [apply (wp_read_capability d B _ _ (at_dir dir "drmid_binder_capability_v1.bin"))|].
  - unfold default_binder_capability_path. destruct dir as [|c dir0]; [done|].
    rewrite dir_prefix_eq by done. apply c_path_some. by apply at_dir_nonempty.
  - done.
  - intros [err2 status] w2 (Hq2 & _). apply wp_ret, HQ. by etransitivity.
Qed.

Lemma wp_answer_status code response (Q : reply -> World -> Prop) w paths :
  wp_private_dir paths = dir ->
  (forall r w', quiet w w' -> rp_code r = code -> Q r w') ->
  wp d (answer_status fuel code response paths) Q w.
Proof.
  intros Hp HQ. unfold answer_status. rewrite Hp. apply wp_bind, wp_status_json.
  intros view w' Hq. by apply wp_ret, HQ.
Qed.

(** Where the identifier of a request comes from; [f] are the files it was made from. *)
Inductive id_source (action id_hex : string) (persisted : ReplacementConfig) (f : files_t)
    : list Z -> Z -> Prop :=
  | IdKept :
      action = "keep" ->
      id_source action id_hex persisted f (cfg_virtual_id persisted) (cfg_seed_generation persisted)
  | IdDerived content created profile :
      action = "derive" -> f !! seed_path dir = Some content ->
      validate_seed_record (of_bytes (take 64 content)) = true ->
      derive_profile (of_bytes (take 64 content)) created = Some profile ->
      id_source action id_hex persisted f (virtual_stream profile) (seed_generation profile)
  | IdRandom bytes :
      action = "random" -> length bytes = kVirtualIdBytes -> bytes_ok bytes ->
      id_source action id_hex persisted f (bytes ++ replicate 32 0) (cfg_seed_generation persisted)
  | IdCustom id :
      action = "custom" -> decode_virtual_id id_hex = Some id ->
      id_source action id_hex persisted f id (cfg_seed_generation persisted).

(** The configuration a form asks for. *)
Record requested (mode action id_hex : string) (persisted : ReplacementConfig) (f : files_t)
    (config : ReplacementConfig) : Prop := {
  rc_mode : cfg_mode config = mode_num (if String.eqb mode "write" then kWriteTest else kDryRun);
  rc_length : cfg_virtual_id_length config = 32;
  rc_fingerprint : cfg_profile_fingerprint config =
    virtual_id_fingerprint (take kVirtualIdBytes (cfg_virtual_id config));
  rc_id : id_source action id_hex persisted f (cfg_virtual_id config) (cfg_seed_generation config);
  rc_ranges : config_in_range config;
}.

(** Only deriving an identifier may touch a file: it may create the seed. *)
Definition seed_only (action : string) (old f : files_t) : Prop :=
  forall p, (action = "derive" -> p <> seed_path dir /\ p <> seed_temporary (seed_path dir)) ->
    f !! p = old !! p.

Lemma config_in_range_intro config :
  (exists mode, cfg_mode config = mode_num mode) -> cfg_virtual_id_length config = 32 ->
  word_ok 8 (cfg_config_generation config) -> word_ok 8 (cfg_seed_generation config) ->
  cfg_profile_fingerprint config = virtual_id_fingerprint (take kVirtualIdBytes (cfg_virtual_id config)) ->
  length (cfg_virtual_id config) = 64%nat -> bytes_ok (cfg_virtual_id config) -> config_in_range config.
Proof.
  intros [mode Hm] Hl Hg Hs Hf Hlen Hok. unfold config_in_range. rewrite Hm, Hl, Hf.
  split; [destruct mode; by vm_compute|]. split; [by vm_compute|]. split; [done|]. split; [done|].
  split; [|by split]. unfold word_ok. change (256 ^ Z.of_nat 8) with (2 ^ 64).
  apply virtual_id_fingerprint_range.
Qed.

(** A control file that could be read. *)
Definition stored (f : files_t) (persisted : ReplacementConfig) : Prop :=
  exists content, f !! path = Some content /\ length content = 128%nat /\
    validate_v3_record (of_bytes content) = true /\ persisted = fill_config_from_v3 (of_bytes content).

(** Files are made of bytes. *)
Definition files_ok (f : files_t) : Prop := forall p content, f !! p = Some content -> bytes_ok content.

Lemma stored_ranges f persisted :
  files_ok f -> stored f persisted ->
  length (cfg_virtual_id persisted) = 64%nat /\ bytes_ok (cfg_virtual_id persisted) /\
  word_ok 8 (cfg_seed_generation persisted) /\ word_ok 8 (cfg_config_generation persisted).
Proof.
  intros Hf (content & Hc & Hl & Hv & ->). pose proof (Hf _ _ Hc) as Hok.
  pose proof (of_bytes_in_range (R := RuntimeControlRecordV3) content Hl Hok) as Hr.
  assert (Hlen : v3_virtual_id_length (of_bytes content) = 32).
  { unfold validate_v3_record in Hv. btrue. done. }
  cbn [fill_config_from_v3 cfg_virtual_id cfg_seed_generation cfg_config_generation].
  rewrite Hlen. destruct Hr as (_ & _ & _ & Hg & Hs & _ & _ & _ & Hid & Hidok & _).
  split; [apply copy_id_length; [done|lia]|]. split; [by apply copy_id_ok|]. done.
Qed.

Lemma derived_ranges record created profile :
  derive_profile record created = Some profile ->
  length (virtual_stream profile) = 64%nat /\ bytes_ok (virtual_stream profile) /\
  seed_generation profile = sd_generation record.
Proof.
  unfold derive_profile, kVirtualStreamBytes. rewrite hkdf_eq by lia. intros Hp.
  apply (inj Some) in Hp as <-. cbn [virtual_stream seed_generation].
  split; [apply hkdf_spec_length; lia|]. split; [apply hkdf_ok|done].
Qed.

Lemma wp_fill_random_id (Q : option (list Z) -> World -> Prop) w :
  (forall id w', quiet w w' ->
     (forall r, id = Some r -> exists bytes, r = bytes ++ replicate 32 0 /\
        length bytes = kVirtualIdBytes /\ bytes_ok bytes) -> Q id w') ->
  wp d (fill_random_id fuel) Q w.
Proof.
  intros HQ. unfold fill_random_id. apply wp_bind, wp_sys_ok. intros fd w1 Hq1.
  destruct fd; cbn [negb]; [|by apply wp_ret, HQ]. apply wp_bind.
  apply (wp_random_loop d B fuel B kVirtualIdBytes []); [cbn; lia|constructor| |].
  { apply budget_start. rewrite Nat.sub_0_r. apply (enough_le d B fuel kVirtualIdBytes 160); [|done].
    unfold kVirtualIdBytes. lia. }
  intros bytes w2 Hq2 Hok Hl. apply wp_bind, wp_sys_ok. intros _ w3 Hq3. apply wp_ret, HQ.
  { etransitivity; [exact Hq1|by etransitivity]. }
  intros r. destruct (Nat.eqb_spec (length bytes) kVirtualIdBytes) as [E|]; [|discriminate].
  intros Hr. apply (inj Some) in Hr as <-. by exists bytes.
Qed.

(** What working out a request may have done. *)
Definition request_result (mode action id_hex : string) (persisted : ReplacementConfig) (w : World)
    (result : reply + ReplacementConfig) (w' : World) : Prop :=
  evolves (seed_only action (w_files w)) w w' /\
  match result with
  | inl refusal => rp_code refusal <> 200
  | inr config =>
      requested mode action id_hex persisted (w_files w') config
  end.

(** A configuration made of its parts, as [requested_config] makes it. *)
Lemma requested_intro mode action id_hex persisted f id seed :
  word_ok 8 (cfg_config_generation persisted) -> word_ok 8 seed ->
  length id = 64%nat -> bytes_ok id -> id_source action id_hex persisted f id seed ->
  requested mode action id_hex persisted f
    {| cfg_mode := mode_num (if String.eqb mode "write" then kWriteTest else kDryRun);
       cfg_virtual_id_length := Z.of_nat kVirtualIdBytes;
       cfg_config_generation := cfg_config_generation persisted; cfg_seed_generation := seed;
       cfg_profile_fingerprint := virtual_id_fingerprint (take kVirtualIdBytes id);
       cfg_virtual_id := id |}.
Proof. intros. split; [done..|]. apply config_in_range_intro; [by eexists|done..]. Qed.

Lemma quiet_seed_only action w w' : quiet w w' -> evolves (seed_only action (w_files w)) w w'.
Proof. intros Hq. eapply evolves_quiet; [|exact Hq]. by apply evolves_refl. Qed.

Lemma load_evolves w result w' :
  load_result false (seed_path dir) w result w' ->
  evolves (seed_only "derive" (w_files w)) w w'.
Proof.
  destruct result as [err profile].
  intros [[[Hq _]|(_ & seed & _ & _ & Hev & _)] _]; [by apply quiet_seed_only|].
  eapply evolves_mono; [|exact Hev]. intros f [_ Hf] p Hp. destruct (Hp eq_refl). by apply Hf.
Qed.

Lemma load_content_ok w err profile w' content :
  files_ok (w_files w) -> load_result false (seed_path dir) w (err, profile) w' -> err = OK ->
  w_files w' !! seed_path dir = Some content -> bytes_ok content.
Proof.
  intros Hf [[[[Hfiles _] _]|(_ & seed & Hl & Hok & _ & Hdone)] _] He Hc.
  - rewrite Hfiles in Hc. by eapply Hf.
  - destruct (Hdone He) as [Hnew _]. rewrite Hnew in Hc. apply (inj Some) in Hc as <-.
    apply bytes_of_bytes_ok. by apply make_seed_in_range.
Qed.

Lemma wp_requested mode action id_hex persisted w :
  action = "keep" \/ action = "derive" \/ action = "random" \/ action = "custom" ->
  files_ok (w_files w) -> stored (w_files w) persisted ->
  wp d (requested_config fuel (on_prepare_create (Some dir)) mode action id_hex persisted)
    (request_result mode action id_hex persisted w) w.
Proof.
  intros Haction Hf Hstored. destruct (stored_ranges _ _ Hf Hstored) as (Hlen & Hok & Hseed & Hgen).
  unfold requested_config. change (wp_private_dir (on_prepare_create (Some dir))) with dir.
  destruct Haction as [-> | [-> | [-> | ->]]]; cbn [String.eqb Ascii.eqb Bool.eqb].
  - apply wp_ret. split; [by apply quiet_seed_only|].
    apply requested_intro; [done..|exact (IdKept _ _ _ _ eq_refl)].
  - apply wp_bind. eapply wp_mono; [apply (wp_load d B); [done|by apply (enough_le d B fuel 65 160); [lia|]]|].
    intros [err profile] w1 Hload. pose proof (load_evolves _ _ _ Hload) as Hev.
    pose proof (fun content => load_content_ok w err profile w1 content) as Hcontent.
    destruct (is_failed err) eqn:E; [by apply wp_ret|]. apply is_failed_false in E.
    destruct Hload as (Hcases & Hin & Hfail). destruct (Hin E) as (content & Hc & Hcl & Hv & Hp).
    destruct (derived_ranges _ _ _ Hp) as (Hpl & Hpok & Hpg).
    assert (Hcok : bytes_ok (take 64 content))
      by (apply bytes_ok_take, (Hcontent content Hf); [by split_and!|done..]).
    apply wp_ret. split; [exact Hev|]. apply requested_intro; try done.
    + rewrite Hpg. pose proof (of_bytes_in_range (R := SeedRecord) (take 64 content)) as Hr.
      assert (Ht : length (take 64 content) = 64%nat) by (rewrite length_take; lia).
      destruct (Hr Ht Hcok) as (_ & _ & _ & Hg & _). exact Hg.
    + exact (IdDerived _ _ _ _ content _ profile eq_refl Hc Hv Hp).
  - apply wp_bind, wp_fill_random_id. intros [id|] w1 Hq1 Hid.
    + destruct (Hid id eq_refl) as (bytes & -> & Hl & Hb). apply wp_ret.
      split; [by apply quiet_seed_only|]. apply requested_intro; [done..| | |].
      * change (length (bytes ++ replicate 32 0) = 64%nat). rewrite length_app, Hl. reflexivity.
      * apply bytes_ok_app. split; [done|]. apply bytes_ok_replicate. by split.
      * exact (IdRandom _ _ _ _ bytes eq_refl Hl Hb).
    + apply wp_ret. by split; [apply quiet_seed_only|].
  - destruct (decode_virtual_id id_hex) as [id|] eqn:E; [|by apply wp_ret; split; [apply quiet_seed_only|]].
    destruct (decode_virtual_id_some _ _ E) as [Hl Hb]. apply wp_ret.
    split; [by apply quiet_seed_only|]. apply requested_intro; [done..|exact (IdCustom _ _ _ _ id eq_refl E)].
Qed.

(** * Applying a configuration *)

Lemma path_not_seed : path <> seed_path dir.
Proof. change (seed_path dir) with (at_dir dir kSeedFileName). intros E%at_dir_inj. discriminate E. Qed.

Lemma path_not_seed_temporary : path <> seed_temporary (seed_path dir).
Proof.
  destruct (seed_temporary_orphan dir) as (name & -> & Hname). intros E%at_dir_inj. subst name.
  discriminate Hname.
Qed.

Definition new_file (current : ControlIpcResponse) (config : ReplacementConfig) : list Z :=
  bytes_of (seal_v3_record (make_v3_record
    (with_generation (rs_config_generation current + 1) config))).

(** The daemon said this when it was asked. *)
Definition answered (op : ControlIpcOperation) (f : files_t) (response : ControlIpcResponse) : Prop :=
  (exists n, daemon n op f = (OK, response)) /\ rs_result response = 0.

Lemma path_tmp_not_seed : seed_path dir <> tmp.
Proof.
  change (seed_path dir) with (at_dir dir kSeedFileName).
  replace tmp with (at_dir dir (kControlName +:+ ".tmp")) by (unfold at_dir; by rewrite str_app_assoc).
  intros E%at_dir_inj. discriminate E.
Qed.

(** A request depends on the files by the seed alone. *)
Lemma requested_seed mode action id_hex persisted f f' config :
  f' !! seed_path dir = f !! seed_path dir ->
  requested mode action id_hex persisted f config -> requested mode action id_hex persisted f' config.
Proof.
  intros Hseed [Hm Hl Hfp Hid Hr]. split; try done. revert Hid. generalize (cfg_virtual_id config).
  generalize (cfg_seed_generation config). intros seed id Hid.
  destruct Hid as [|content created profile|bytes|id];
    [by constructor| |by constructor|by constructor]. eapply IdDerived; [done|by rewrite Hseed|done|done].
Qed.

(** A form's request against the configuration that [old] holds; the seed of an identifier
    that is derived is the one in [f]. *)
Definition request_of (mode action id_hex : string) (old f : files_t) (current : ControlIpcResponse)
    (config : ReplacementConfig) : Prop :=
  answered kStatus old current /\
  exists persisted, stored old persisted /\ requested mode action id_hex persisted f config.

(** The control file a request replaces the old one by: the requested configuration,
    one generation after the daemon's, when that is a valid one. *)
Definition replaced_by (mode action id_hex : string) (old f : files_t) (content : list Z) : Prop :=
  exists current config, request_of mode action id_hex old f current config /\
    rs_config_generation current <> UINT64_MAX /\
    validate_config (with_generation (rs_config_generation current + 1) config) = true /\
    content = new_file current config.

Definition apply_step (mode action id_hex : string) (old f : files_t) : Prop :=
  (f !! path = old !! path \/
   exists content, f !! path = Some content /\ replaced_by mode action id_hex old f content) /\
  forall p, p <> path -> p <> tmp ->
    (action = "derive" -> p <> seed_path dir /\ p <> seed_temporary (seed_path dir)) -> f !! p = old !! p.

(** How a request ends: with 200 only when nothing was to change, or the new record is
    in place and the daemon, looking at these files, has applied it; and with the old
    record in place when it is refused (413, 422) or fails before it is stored (500). *)
Definition apply_end (mode action id_hex : string) (old : files_t) (r : reply) (f : files_t) : Prop :=
  (rp_code r = 200 ->
     (f !! path = old !! path /\ exists current config,
        request_of mode action id_hex old f current config /\ no_op current config = true) \/
     (exists content applied, f !! path = Some content /\
        replaced_by mode action id_hex old f content /\ answered kApply f applied)) /\
  (rp_code r = 413 \/ rp_code r = 422 \/ rp_code r = 500 -> f !! path = old !! path).

Definition apply_result (mode action id_hex : string) (w : World) (r : reply) (w' : World) : Prop :=
  evolves (apply_step mode action id_hex (w_files w)) w w' /\
  apply_end mode action id_hex (w_files w) r (w_files w').

Lemma seed_apply_step mode action id_hex old f :
  seed_only action old f -> apply_step mode action id_hex old f.
Proof.
  intros Hs. split; [left; apply Hs; intros _; split; [apply path_not_seed|apply path_not_seed_temporary]|].
  intros p _ _ Hp. by apply Hs.
Qed.

Lemma seed_keeps_path action old f : seed_only action old f -> f !! path = old !! path.
Proof. intros Hs. apply Hs. intros _. split; [apply path_not_seed|apply path_not_seed_temporary]. Qed.

Lemma replaced_seed mode action id_hex old f f' content :
  f' !! seed_path dir = f !! seed_path dir ->
  replaced_by mode action id_hex old f content -> replaced_by mode action id_hex old f' content.
Proof.
  intros Hseed (current & config & (Hstatus & persisted & Hstored & Hreq) & Hrest).
  exists current, config. split; [|exact Hrest]. split; [exact Hstatus|].
  exists persisted. split; [exact Hstored|]. by eapply requested_seed.
Qed.

Lemma replacing_apply_step mode action id_hex old f1 content f :
  seed_only action old f1 -> replaced_by mode action id_hex old f1 content ->
  replacing path tmp content f1 f -> apply_step mode action id_hex old f.
Proof.
  intros Hs Hc [Hpath Hrest]. split.
  - destruct Hpath as [-> |Hnew]; [left; by eapply seed_keeps_path|right; exists content].
    split; [done|]. eapply replaced_seed; [|exact Hc].
    apply Hrest; [intros E; by apply path_not_seed|apply path_tmp_not_seed].
  - intros p Hp Hp' Hseed. rewrite Hrest by done. by apply Hs.
Qed.

(** Once the file is written the daemon is told, and its reply becomes the answer. *)
Lemma wp_tell_daemon mode action id_hex old f1 content w w2 :
  evolves (apply_step mode action id_hex old) w w2 -> old = w_files w ->
  replaced_by mode action id_hex old f1 content ->
  w_files w2 = <[path := content]> (delete tmp f1) ->
  wp d ('(err, applied) ← ask_daemon daemon kApply;
        if is_failed err then answer 503 (JsonError err "apply-connect")
        else answer_status fuel (if rs_result applied =? 0 then 200 else 409) applied
               (on_prepare_create (Some dir)))
    (apply_result mode action id_hex w) w2.
Proof.
  intros Hev2 -> Hrep Hdone.
  assert (Hnew : w_files w2 !! path = Some content) by (rewrite Hdone; apply lookup_insert_eq).
  apply wp_bind, wp_ask. intros w3 Hq3.
  destruct (daemon (w_calls w2) kApply (w_files w2)) as [err applied] eqn:Ed.
  destruct (is_failed err) eqn:E.
  { apply wp_ret. split; [by eapply evolves_quiet|]. split; [done|]. cbn. intros Hc. lia. }
  apply is_failed_false in E as ->. apply wp_answer_status; [done|]. intros r w4 Hq4 Hr.
  assert (Hq : quiet w2 w4) by by etransitivity.
  split; [by eapply evolves_quiet|]. destruct (Hq) as [Hf4 _]. rewrite Hf4. split.
  - intros Hc. right. rewrite Hr in Hc. exists content, applied.
    split; [done|]. split; [|split; [by exists (w_calls w2)|]].
    { eapply replaced_seed; [|exact Hrep]. rewrite Hdone.
      rewrite lookup_insert_ne by apply path_not_seed. apply lookup_delete_ne. intros E. by apply path_tmp_not_seed. }
    destruct (Z.eqb_spec (rs_result applied) 0); [done|lia].
  - rewrite Hr. destruct (_ =? _); lia.
Qed.

Lemma wp_apply_config mode action id_hex current config w w1 :
  evolves (seed_only action (w_files w)) w w1 ->
  request_of mode action id_hex (w_files w) (w_files w1) current config ->
  word_ok 8 (rs_config_generation current) ->
  wp d (apply_config fuel daemon (on_prepare_create (Some dir)) current config)
    (apply_result mode action id_hex w) w1.
Proof.
  intros Hev Hreq Hgen.
  assert (Hev1 : evolves (apply_step mode action id_hex (w_files w)) w w1).
  { eapply evolves_mono; [|exact Hev]. intros f. apply seed_apply_step. }
  assert (Hsame : w_files w1 !! path = w_files w !! path) by (destruct Hev; by eapply seed_keeps_path).
  assert (Hkeep : forall r w2, quiet w1 w2 -> rp_code r <> 200 -> apply_result mode action id_hex w r w2).
  { intros r w2 Hq Hr. split; [by eapply evolves_quiet|]. split; [done|]. by destruct Hq as [-> _]. }
  unfold apply_config. destruct (no_op current config) eqn:Eno.
  { apply wp_answer_status; [done|]. intros r w2 Hq Hr. split; [by eapply evolves_quiet|].
    split; [|intros _; by destruct Hq as [-> _]]. intros _. left.
    destruct Hq as [-> _]. split; [done|]. by exists current, config. }
  destruct (Z.eqb_spec (rs_config_generation current) UINT64_MAX) as [|Hmax]; [by apply wp_ret, Hkeep|].
  change (wp_control_path (on_prepare_create (Some dir))) with (default_runtime_control_path (Some dir)).
  rewrite control_path_at by done. set (written := with_generation _ config).
  assert (Hrange : config_in_range written).
  { destruct Hreq as (_ & persisted & _ & [_ _ _ _ (? & ? & ? & ? & ? & ? & ?)]).
    split_and!; try done. cbn. unfold word_ok, UINT64_MAX in *. change (256 ^ Z.of_nat 8) with (2 ^ 64) in *. lia. }
  apply wp_bind. destruct (validate_config written) eqn:Ev.
  2: { unfold write_runtime_control_file. rewrite c_path_some, Ev by by apply at_dir_nonempty.
       apply wp_ret. by apply wp_ret, Hkeep. }
  assert (Hrep : replaced_by mode action id_hex (w_files w) (w_files w1) (new_file current config))
    by by exists current, config.
  eapply wp_mono; [apply (wp_write_runtime_control_file d B _ _ path); try done;
    [by apply c_path_some, at_dir_nonempty|by apply (enough_le d B fuel 128 160); [lia|]]|].
  intros err w2 (Hevw & Hdone & Hfail). fold (new_file current config) in *.
  assert (Hev2 : evolves (apply_step mode action id_hex (w_files w)) w w2).
  { eapply evolves_trans; [exact Hev1|]. eapply evolves_mono; [|exact Hevw].
    intros f. apply replacing_apply_step; [by destruct Hev|exact Hrep]. }
  destruct (is_failed err) eqn:E.
  { apply wp_ret. split; [exact Hev2|]. split; [done|]. intros _. rewrite <-Hsame. apply Hfail.
    intros ->. discriminate E. }
  apply is_failed_false in E as ->. specialize (Hdone eq_refl).
  by eapply wp_tell_daemon.
Qed.

Lemma wp_handle_apply body w :
  files_ok (w_files w) ->
  wp d (handle_apply fuel mg_get_var daemon (on_prepare_create (Some dir)) body) (fun r w' =>
    (quiet w w' /\ rp_code r <> 200) \/
    (exists mode action id_hex, form_value mg_get_var body "mode" 8 = Some mode /\
       form_value mg_get_var body "id_action" 8 = Some action /\
       form_value mg_get_var body "id_hex" 64 = Some id_hex /\ valid_form mode action = true /\
       apply_result mode action id_hex w r w')) w.
Proof.
  intros Hf. unfold handle_apply. destruct (_ <? _)%nat; [apply wp_ret; by left|].
  destruct (form_value _ body "mode" 8) as [mode|]; [|apply wp_ret; by left].
  destruct (form_value _ body "id_action" 8) as [action|]; [|apply wp_ret; by left].
  destruct (form_value _ body "id_hex" _) as [id_hex|] eqn:Ehex; [|apply wp_ret; by left].
  destruct (valid_form mode action) eqn:Evalid; cbn [negb]; [|apply wp_ret; by left].
  destruct (ready _); cbn [negb]; [|apply wp_ret; by left].
  apply wp_bind, wp_ask. intros w1 Hq1.
  pose proof (Hdaemon (w_calls w) (w_files w)) as Hgen.
  destruct (daemon (w_calls w) kStatus (w_files w)) as [err current] eqn:Ed. cbn [snd] in Hgen.
  destruct (is_failed err) eqn:E; [apply wp_ret; by left|]. apply is_failed_false in E as ->.
  destruct (Z.eqb_spec (rs_result current) 0) as [Hr|]; cbn [negb]; [|apply wp_ret; by left].
  change (wp_control_path (on_prepare_create (Some dir))) with (default_runtime_control_path (Some dir)).
  rewrite control_path_at by done. apply wp_bind.
  eapply wp_mono; [apply (wp_read_runtime_control_file d B _ _ path);
    [by apply c_path_some, at_dir_nonempty|by apply (enough_le d B fuel 128 160); [lia|]]|].
  intros [err persisted] w2 (Hq2 & Hread & _). assert (Hq : quiet w w2) by by etransitivity.
  destruct (is_failed err) eqn:E; [apply wp_ret; by left|]. apply is_failed_false in E as ->.
  assert (Hf1 : w_files w1 = w_files w) by by destruct Hq1. assert (Hf2 : w_files w2 = w_files w) by by destruct Hq.
  assert (Hstored : stored (w_files w) persisted) by (rewrite <-Hf1; by apply Hread).
  assert (Haction : action = "keep" \/ action = "derive" \/ action = "random" \/ action = "custom").
  { unfold valid_form in Evalid. apply andb_prop in Evalid as [_ Ha].
    rewrite !orb_true_iff, !String.eqb_eq in Ha. tauto. }
  apply wp_bind. eapply wp_mono; [apply (wp_requested mode action id_hex persisted w2 Haction); by rewrite Hf2|].
  intros [refusal|config] w3 [Hev Hres]; rewrite Hf2 in Hev;
    apply (quiet_evolves _ _ _ _ Hq) in Hev.
  - apply wp_ret. right. exists mode, action, id_hex. split_and!; try done.
    split; [eapply evolves_mono; [|exact Hev]; intros f; apply seed_apply_step|].
    split; [done|]. intros _. destruct Hev; by eapply seed_keeps_path.
  - eapply wp_mono; [apply (wp_apply_config mode action id_hex current config w w3 Hev); try done|].
    + split; [split; [by exists (w_calls w)|done]|]. exists persisted.
      by split.
    + intros r w4 Hr4. right. exists mode, action, id_hex. by split_and!.
Qed.

End Specs.

(** * A request *)

Section Requests.
Context `{OperatingSystem}.
Context (d : Prop) (B fuel : nat).
Context (Hfuel : enough d B fuel 160).
Context (mg_get_var : string -> string -> nat -> option string).
Context (daemon : nat -> ControlIpcOperation -> files_t -> KModErr * ControlIpcResponse).
Context (Hdaemon : forall n f, word_ok 8 (rs_config_generation (daemon n kStatus f).2)).
Context (owner_view : nat -> OwnerView).
Context (dir : string) (Hdir : dir <> EmptyString).

#[local] Abbreviation paths := (on_prepare_create (Some dir)).

Lemma wp_handle_status w :
  wp d (handle_status fuel daemon owner_view paths) (fun _ w' => quiet w w') w.
Proof.
  unfold handle_status. destruct (ready _); cbn [negb]; [|by apply wp_ret].
  apply wp_bind, wp_ask. intros w1 Hq1. destruct (daemon _ _ _) as [err response].
  destruct (is_failed err).
  - apply wp_bind. unfold wp, probe_owner. by destruct (daemon_lock_owner_alive _ _).
  - apply (wp_answer_status d B fuel Hfuel dir Hdir); [done|]. intros r w2 Hq2 _. by etransitivity.
Qed.

Lemma wp_handle_stop w : wp d (handle_stop daemon paths) (fun _ w' => quiet w w') w.
Proof.
  unfold handle_stop. apply wp_bind. destruct (ready _); [|by apply wp_ret, wp_ret].
  apply wp_ask. intros w1 Hq1. destruct (daemon _ _ _) as [err response].
  destruct (is_failed err); by apply wp_ret.
Qed.

Lemma wp_token_bytes w : wp d (token_bytes fuel) (fun _ w' => quiet w w') w.
Proof.
  unfold token_bytes. apply wp_bind, wp_sys_ok. intros fd w1 Hq1.
  destruct fd; cbn [negb]; [|by apply wp_ret]. apply wp_bind.
  apply (wp_random_loop d B fuel B kSessionTokenBytes []); [cbn; lia|constructor| |].
  { apply budget_start. rewrite Nat.sub_0_r. apply (enough_le d B fuel kSessionTokenBytes 160); [|done].
    unfold kSessionTokenBytes. lia. }
  intros bytes w2 Hq2 _ _. apply wp_bind, wp_sys_ok. intros _ w3 Hq3. apply wp_ret.
  etransitivity; [exact Hq1|by etransitivity].
Qed.

(** A request for a session needs no token: it is handed a new one, which from then on is
    the session's, or there is none for it. *)
Definition session_answer (now : Z) (s : WebSession) (result : reply * WebSession) : Prop :=
  (exists token, result.1 = {| rp_code := 200; rp_payload := JsonSession token |} /\
     String.length token = kSessionTokenHexBytes /\ ws_token result.2 = token /\
     ws_open result.2 = true /\ ws_last_activity result.2 = now /\ ws_exiting s = false) \/
  (rp_code result.1 = 500 /\ ws_open result.2 = ws_open s /\ ws_exiting s = false) \/
  (rp_code result.1 = 503 /\ result.2 = s).

(** What a request may have done: nothing to the files, or it was an authenticated
    application with a complete form. *)
Definition request_effect (now : Z) (path body : string) (s : WebSession) (w : World)
    (result : reply * WebSession) (w' : World) : Prop :=
  let token := form_value mg_get_var body "session_token" kSessionTokenHexBytes in
  let authenticated := (authenticate_session now token s).1 in
  ((quiet w w' /\ (path = "/api/apply" -> rp_code result.1 <> 200)) \/
   (authenticated = true /\ path = "/api/apply" /\
    exists mode action id_hex, form_value mg_get_var body "mode" 8 = Some mode /\
      form_value mg_get_var body "id_action" 8 = Some action /\
      form_value mg_get_var body "id_hex" 64 = Some id_hex /\ valid_form mode action = true /\
      apply_result daemon dir mode action id_hex w result.1 w')) /\
  (path <> "/api/session/open" -> authenticated = false ->
   rp_code result.1 = 401 /\ result.2 = s /\ quiet w w') /\
  (path = "/api/session/open" -> session_answer now s result).

Lemma session_open_answer can now random s :
  let '(opened, s0) := session_open can now random s in
  session_answer now s
    (match opened with
     | SessionRefused => {| rp_code := 503; rp_payload := JsonStage "server" |}
     | SessionNoRandom => {| rp_code := 500; rp_payload := JsonStage "random" |}
     | SessionOpened token => {| rp_code := 200; rp_payload := JsonSession token |}
     end, s0).
Proof.
  unfold session_open. destruct (negb can || ws_exiting s) eqn:E; [right; right; by split|].
  apply orb_false_iff in E as [_ Hexit].
  destruct (Nat.eqb_spec (String.length (new_session_token random)) kSessionTokenHexBytes) as [Hl|Hl]; cbn [negb].
  - left. by exists (new_session_token random).
  - right. left. by split.
Qed.

Lemma wp_handle_post now path body s w :
  files_ok (w_files w) ->
  wp d (handle_post fuel mg_get_var daemon owner_view paths now path body s)
    (request_effect now path body s w) w.
Proof.
  intros Hf. unfold handle_post. cbv zeta.
  set (token := form_value _ body "session_token" _).
  destruct (String.eqb_spec path "/api/session/open") as [-> |Hopen].
  { apply wp_bind.
    assert (Hrandom : forall random w1, quiet w w1 ->
      wp d (let '(opened, s0) := session_open (ready paths) now random s in
            mret (match opened with
                  | SessionRefused => {| rp_code := 503; rp_payload := JsonStage "server" |}
                  | SessionNoRandom => {| rp_code := 500; rp_payload := JsonStage "random" |}
                  | SessionOpened token0 => {| rp_code := 200; rp_payload := JsonSession token0 |}
                  end, s0)) (request_effect now "/api/session/open" body s w) w1).
    { intros random w1 Hq. pose proof (session_open_answer (ready paths) now random s) as Hanswer.
      destruct (session_open _ _ _ _) as [opened s0]. apply wp_ret.
      split; [left; by split|]. split; [by intros []|]. by intros _. }
    destruct (_ || _); [by apply wp_ret, Hrandom|].
    eapply wp_mono; [apply wp_token_bytes|]. intros random w1 Hq. by apply Hrandom. }
  destruct (authenticate_session now token s) as [authenticated s0] eqn:Eauth.
  destruct authenticated; cbn [negb].
  2: { apply wp_ret. assert (s0 = s) as ->.
       { unfold authenticate_session in Eauth. destruct token as [token|]; [|congruence].
         destruct (_ || _); congruence. }
       split; [left; by split|]. split; [intros _ _; by split_and!|by intros ->]. }
  assert (Hquiet : forall r s1 w1, quiet w w1 -> path <> "/api/apply" ->
    request_effect now path body s w (r, s1) w1).
  { intros r s1 w1 Hq Hne. split; [left; by split|]. fold token. rewrite Eauth. by split; [|intros ->]. }
  destruct (String.eqb_spec path "/api/session/ping") as [-> |Hping]; [by apply wp_ret, Hquiet|].
  destruct (String.eqb_spec path "/api/session/close") as [-> |Hclose]; [by apply wp_ret, Hquiet|].
  apply wp_bind. destruct (String.eqb_spec path "/api/status") as [-> |Hstatus].
  { eapply wp_mono; [apply wp_handle_status|]. intros r w1 Hq. by apply wp_ret, Hquiet. }
  destruct (String.eqb_spec path "/api/apply") as [-> |Happly].
  { eapply wp_mono; [by apply (wp_handle_apply d B fuel Hfuel mg_get_var daemon Hdaemon owner_view dir Hdir)|].
    intros r w1 Hr. apply wp_ret. split; [|fold token; by rewrite Eauth].
    destruct Hr as [[Hq Hr]|Hr]; [left; by split|right]. fold token. by rewrite Eauth. }
  destruct (String.eqb_spec path "/api/stop") as [-> |Hstop].
  - eapply wp_mono; [apply wp_handle_stop|]. intros r w1 Hq. by apply wp_ret, Hquiet.
  - by apply wp_ret, wp_ret, Hquiet.
Qed.

End Requests.

(** * Properties *)

(** C33: what a request to the web interface may do.  On a system that answers one of
    any [B] calls every request is answered.  Every request but
    /api/session/open, when it comes without the session's token, is answered 401 and
    changes nothing.  /api/session/open needs no token: it hands out a new one (200), which replaces
    the session's, finds no randomness (500), or is refused with the session as it was
    (503); it never changes a file.  The files change only by an authenticated
    application with a complete form, and then at every moment the control file is the
    old one or the complete record of a configuration with the mode and the identifier
    the form asked for, its fingerprint, and the generation after the daemon's; no
    other file is touched but its temporary and, when the identifier is derived, the
    seed.  Success (200) is reported only when the daemon has the requested values
    already, or the record is in place and the daemon has applied it; a refused form
    (413, 422) or a failure before the record is in place (500) leaves the old one. *)
Theorem web_request_sound `{OperatingSystem} B fuel mg_get_var daemon owner_view dir now path body s w :
  responsive B -> (B * 161 <= fuel)%nat -> dir <> EmptyString -> files_ok (w_files w) ->
  (forall n f, word_ok 8 (rs_config_generation (daemon n kStatus f).2)) ->
  exists r s' w',
    handle_post fuel mg_get_var daemon owner_view (on_prepare_create (Some dir)) now path body s w =
      Some ((r, s'), w') /\
    request_effect mg_get_var daemon dir now path body s w (r, s') w'.
Proof.
  intros HB Hfuel Hdir Hf Hdaemon.
  destruct (wp_total _ _ _ (wp_handle_post False B fuel (or_intror (conj HB Hfuel)) mg_get_var daemon
    Hdaemon owner_view dir Hdir now path body s w Hf)) as ([r s'] & w' & Hrun & Heffect).
  by exists r, s', w'.
Qed.

(** * A concrete run *)

(** A parser for the demonstration: every value is of a fixed form. *)
Definition demo_form (body name : string) (size : nat) : option string :=
  if String.eqb name "session_token" then Some demo_token
  else if String.eqb name "mode" then Some "write"
  else if String.eqb name "id_action" then Some "custom"
  else Some (hex_text (seqZ 1 32)).

Definition demo_answer (n : nat) (op : ControlIpcOperation) (f : files_t) : KModErr * ControlIpcResponse :=
  (OK, zero_response).

Definition demo_owner (n : nat) : OwnerView := demo_view.

Definition demo_stored : ReplacementConfig :=
  Build_ReplacementConfig (mode_num kDryRun) 32 1 1 7 (seqZ 1 64).

Definition demo_world : World := initial_world {[at_dir "/data/m" kControlName :=
  bytes_of (seal_v3_record (make_v3_record demo_stored))]}.

Definition demo_web_session : WebSession := web_run demo_events no_session.

#[local] Abbreviation demo_post :=
  (handle_post (H := calm_system) 200 demo_form demo_answer demo_owner (on_prepare_create (Some "/data/m"))
     3000 "/api/apply" "" demo_web_session demo_world) (only parsing).

Lemma demo_post_code : (fun r => rp_code r.1.1) <$> demo_post = Some 200.
Proof. vm_compute. reflexivity. Qed.

Lemma demo_stored_ok : config_in_range demo_stored /\ validate_config demo_stored = true.
Proof.
  split; [|vm_compute; reflexivity]. unfold config_in_range. split_and!; try (by vm_compute).
  apply (bool_decide_unpack _). vm_compute. exact I.
Qed.

Lemma demo_files_ok : files_ok (w_files demo_world).
Proof.
  intros p content Hc. unfold demo_world, initial_world in Hc. cbn [w_files] in Hc.
  apply lookup_singleton_Some in Hc as [_ <-]. apply bytes_of_bytes_ok.
  by apply seal_in_range; apply demo_stored_ok.
Qed.

Lemma web_request_sound_witness :
  exists r s' w', demo_post = Some ((r, s'), w') /\ rp_code r = 200 /\
    request_effect (H := calm_system) demo_form demo_answer "/data/m" 3000 "/api/apply" "" demo_web_session demo_world
      (r, s') w'.
Proof.
  destruct (web_request_sound (H := calm_system) 1 200 demo_form demo_answer demo_owner "/data/m" 3000
    "/api/apply" "" demo_web_session demo_world calm_responsive) as (r & s' & w' & Hrun & Heffect).
  - lia.
  - discriminate.
  - exact demo_files_ok.
  - intros n f. split; [discriminate|reflexivity].
  - exists r, s', w'. split; [exact Hrun|]. split; [|exact Heffect].
    pose proof demo_post_code as Hcode. rewrite Hrun in Hcode. by apply (inj Some) in Hcode.
Defined.
