(* ===== verification/JsonText.v ===== *)
(** The JSON texts of the control client and of the web interface (control_ipc.cpp,
    web_ui.cpp), and a reader for the JSON they use: one object, whose values are
    numbers, strings without escapes, true, and arrays of numbers. *)

From stdpp Require Import pretty.
From S2P Require Import Prelude KernelContext Posix AtomicFile Records RuntimeControl RuntimeProfile Slots ControlIpc Resolver Release CapabilityRecord ControlServer FileLifecycle OriginalFingerprint WebSession WebUi.

(** * The reader *)

Inductive json :=
  | JNumber (n : Z)
  | JString (s : list Z)
  | JTrue
  | JNumbers (l : list Z).

#[global] Instance json_eq_dec : EqDecision json.
Proof. solve_decision. Defined.

(** The byte a reader looks at; no text holds a zero byte. *)
Definition peek (text : list Z) : Z := match text with b :: _ => b | [] => 0 end.

(** Optional minus, and digits that do not begin with a zero unless it is the only
    one. *)
Definition digits_of (text : list Z) : option (Z * list Z) :=
  let '(value, count, rest) := digits_at 0 0 text in
  if Nat.eqb count 0 || ((1 <? count)%nat && (peek text =? 48)) then None else Some (value, rest).

Definition read_number (text : list Z) : option (Z * list Z) :=
  if peek text =? 45 then '(n, rest) ← digits_of (tail text); Some (- n, rest) else digits_of text.

(** What a string may hold without an escape. *)
Definition plain_byte (b : Z) : bool :=
  (32 <=? b) && (b <? 127) && negb (b =? 34) && negb (b =? 92).

(** The rest of a string, behind its first quote. *)
Fixpoint read_string (text : list Z) : option (list Z * list Z) :=
  match text with
  | [] => None
  | b :: text =>
      if b =? 34 then Some ([], text)
      else if plain_byte b then '(s, rest) ← read_string text; Some (b :: s, rest)
      else None
  end.

(** The numbers of an array that is not empty. *)
Fixpoint read_numbers (fuel : nat) (text : list Z) : option (list Z * list Z) :=
  match fuel with
  | O => None
  | S fuel =>
      '(n, rest) ← read_number text;
      if peek rest =? 44 then '(l, rest) ← read_numbers fuel (tail rest); Some (n :: l, rest)
      else if peek rest =? 93 then Some ([n], tail rest) else None
  end.

Definition read_value (text : list Z) : option (json * list Z) :=
  if peek text =? 34 then '(s, rest) ← read_string (tail text); Some (JString s, rest)
  else if peek text =? 91 then
    if peek (tail text) =? 93 then Some (JNumbers [], drop 2 text)
    else '(l, rest) ← read_numbers (length text) (tail text); Some (JNumbers l, rest)
  else if bool_decide (take 4 text = bytes_of_string "true") then Some (JTrue, drop 4 text)
  else '(n, rest) ← read_number text; Some (JNumber n, rest).

(** The members of an object that is not empty. *)
Fixpoint read_members (fuel : nat) (text : list Z) : option (list (list Z * json) * list Z) :=
  match fuel with
  | O => None
  | S fuel =>
      if negb (peek text =? 34) then None
      else
        '(name, rest) ← read_string (tail text);
        if negb (peek rest =? 58) then None
        else
          '(value, rest) ← read_value (tail rest);
          if peek rest =? 44 then
            '(members, rest) ← read_members fuel (tail rest); Some ((name, value) :: members, rest)
          else if peek rest =? 125 then Some ([(name, value)], tail rest) else None
  end.

(** The whole of a text. *)
Definition read_object (text : list Z) : option (list (list Z * json)) :=
  if peek text =? 123 then
    '(members, rest) ← read_members (length text) (tail text);
    if Nat.eqb (length rest) 0 then Some members else None
  else None.

(** * Texts *)

(** A literal of the source; an apostrophe stands for a double quote. *)
Definition quoted (s : string) : list Z := (fun b => if b =? 39 then 34 else b) <$> bytes_of_string s.

(** A decimal conversion, [%d], [%u] or [std::to_string]. *)
Definition decimal_text (n : Z) : list Z :=
  if n <? 0 then 45 :: bytes_of_string (pretty (Z.to_N (- n))) else bytes_of_string (pretty (Z.to_N n)).

(** The conversion [%016" PRIx64 "]. *)
Definition hex16 (n : Z) : list Z :=
  (fun i => Z.of_nat (Ascii.nat_of_ascii (hex_digit (Z.land (Z.shiftr n (4 * (15 - i))) 15)))) <$> seqZ 0 16.

(** What [snprintf] leaves in a buffer of [size] bytes. *)
Definition snprintf (size : nat) (text : list Z) : list Z := take (size - 1) text.

(** src/control_ipc.cpp:640-691 [control_response_json] *)
Definition response_format (r : ControlIpcResponse) : list Z :=
  quoted "{'result':" ++ decimal_text (i32 (rs_result r)) ++
  quoted ",'daemon_pid':" ++ decimal_text (rs_daemon_pid r) ++
  quoted ",'backend':'hal-outbound-binder-global'" ++
  quoted ",'active_calls':" ++ decimal_text (rs_active_calls r) ++
  quoted ",'generation':" ++ decimal_text (rs_config_generation r) ++
  quoted ",'seed_generation':" ++ decimal_text (rs_seed_generation r) ++
  quoted ",'fingerprint':'" ++ hex16 (rs_profile_fingerprint r) ++
  quoted "','switches':" ++ decimal_text (rs_switches r) ++
  quoted ",'rejections':" ++ decimal_text (rs_rejections r) ++
  quoted ",'server_request_hits':" ++ decimal_text (rs_server_request_hits r) ++
  quoted ",'correlated_reply_candidates':" ++ decimal_text (rs_correlated_reply_candidates r) ++
  quoted ",'replacement_candidates':" ++ decimal_text (rs_replacement_candidates r) ++
  quoted ",'dry_run_hits':" ++ decimal_text (rs_replacement_dry_run_hits r) ++
  quoted ",'write_ok':" ++ decimal_text (rs_replacement_write_ok r) ++
  quoted ",'write_faults':" ++ decimal_text (rs_replacement_write_faults r) ++
  quoted ",'hal_identity_generation':" ++ decimal_text (rs_hal_identity_generation r) ++
  quoted ",'hal_identity_switches':" ++ decimal_text (rs_hal_identity_switches r) ++
  quoted ",'hal_gate_hits':" ++ decimal_text (rs_hal_gate_hits r) ++
  quoted ",'hal_state':" ++ decimal_text (rs_hal_state r) ++
  quoted ",'hal_count':" ++ decimal_text (rs_hal_count r) ++
  quoted ",'hal_monitor_backend':" ++ decimal_text (rs_hal_monitor_backend r) ++
  quoted ",'hal_monitor_wakeups':" ++ decimal_text (rs_hal_monitor_wakeups r) ++
  quoted ",'slot':" ++ decimal_text (rs_active_slot r) ++
  quoted ",'mode':" ++ decimal_text (rs_replacement_mode r) ++
  quoted ",'length':" ++ decimal_text (rs_virtual_id_length r) ++
  quoted ",'hal_tgids':[".

(** src/control_ipc.cpp:683-690 [control_response_json] *)
Definition shown_tgids (r : ControlIpcResponse) : list Z :=
  take (Z.to_nat (if rs_hal_count r <=? kHalIdentityLimit then rs_hal_count r else 0)) (rs_hal_tgids r).

(** With a comma in front of every number but the first. *)

(** src/control_ipc.cpp:686-689 [control_response_json] *)
Fixpoint tgids_text (first : bool) (tgids : list Z) : list Z :=
  match tgids with
  | [] => []
  | tgid :: tgids => (if first then [] else [44]) ++ decimal_text tgid ++ tgids_text false tgids
  end.

(** src/control_ipc.cpp:638-694 [control_response_json] *)
Definition control_response_json (r : ControlIpcResponse) : list Z :=
  snprintf 2048 (response_format r) ++ tgids_text true (shown_tgids r) ++ quoted "]}".

(** src/binder_ioctl_resolver.cpp:608-618 [binder_backend_name] *)
Definition binder_backend_name (backend : BinderBackend) : string :=
  match backend with
  | BackendClassic => "classic"
  | BackendRust => "rust"
  | BackendUnknown => "unknown"
  end.

(** src/binder_ioctl_resolver.cpp:620-630 [binder_offset_source_name] *)
Definition binder_offset_source_name (source : BinderOffsetSource) : string :=
  match source with
  | SourceSdk => "sdk"
  | SourceSymbolScan => "symbol-scan"
  | SourceUnknown => "unknown"
  end.

(** src/web_ui.cpp:42-42 [status_json] *)
Definition pop_brace (text : list Z) : list Z :=
  if bool_decide (last text = Some 125) then take (length text - 1) text else text.

(** src/web_ui.cpp:46-52 [status_json] *)
Definition device_fingerprint_text (fingerprint : option Z) : list Z :=
  match fingerprint with
  | Some fingerprint => quoted ",'device_fingerprint':'" ++ hex16 fingerprint ++ quoted "'"
  | None => quoted ",'device_fingerprint':''"
  end.

(** src/web_ui.cpp:57-102 [status_json] *)
Definition binder_text (binder : option BinderCapabilityStatus) : list Z :=
  match binder with
  | Some status =>
      let symbol_scan :=
        bool_decide (bs_file_f_op_source status = SourceSymbolScan) ||
        bool_decide (bs_fops_unlocked_ioctl_source status = SourceSymbolScan) in
      quoted ",'kernel_release':'" ++ bs_kernel_release status ++
      quoted "','binder_driver_backend':'" ++
      bytes_of_string (binder_backend_name (bs_backend status)) ++
      quoted "','binder_resolution_source':'" ++
      bytes_of_string (if symbol_scan then "fd+sdk+symbol-scan" else "fd+sdk+symbol-check") ++
      quoted "','binder_file_offset_source':'" ++
      bytes_of_string (binder_offset_source_name (bs_file_f_op_source status)) ++
      quoted "','binder_ioctl_offset_source':'" ++
      bytes_of_string (binder_offset_source_name (bs_fops_unlocked_ioctl_source status)) ++
      quoted "','binder_capabilities':'" ++ hex16 (bs_capabilities status) ++
      quoted "','binder_entry_fingerprint':'" ++ hex16 (bs_entry_fingerprint status) ++
      quoted "','binder_entry_semantics':" ++ decimal_text (bs_entry_semantics status) ++
      quoted ",'binder_symbol_validations':" ++ decimal_text (bs_symbol_validations status)
  | None =>
      quoted ",'kernel_release':'','binder_driver_backend':'unknown'" ++
      quoted ",'binder_resolution_source':'unavailable'" ++
      quoted ",'binder_file_offset_source':'unknown'" ++
      quoted ",'binder_ioctl_offset_source':'unknown'" ++
      quoted ",'binder_capabilities':'0000000000000000'" ++
      quoted ",'binder_entry_fingerprint':''" ++
      quoted ",'binder_entry_semantics':0" ++
      quoted ",'binder_symbol_validations':0"
  end.

(** src/web_ui.cpp:39-105 [status_json] *)
Definition status_text (view : StatusView) : list Z :=
  pop_brace (control_response_json (sv_response view)) ++
  device_fingerprint_text (sv_device_fingerprint view) ++ binder_text (sv_binder view) ++ quoted "}".

(** src/web_ui.cpp:34-37 [error_json] *)
Definition error_json (to_num : KModErr -> Z) (err : KModErr) (stage : string) : list Z :=
  quoted "{'result':" ++ decimal_text (to_num err) ++
  quoted ",'stage':'" ++ bytes_of_string stage ++ quoted "'}".

(** The bodies of the replies. *)

(** src/web_ui.cpp:243-369 [DrmidWebHandler] *)
Definition payload_text (to_num : KModErr -> Z) (p : payload) : list Z :=
  match p with
  | JsonError err stage => error_json to_num err stage
  | JsonStage stage => quoted "{'result':-1,'stage':'" ++ bytes_of_string stage ++ quoted "'}"
  | JsonSession token =>
      quoted "{'result':0,'session_token':'" ++ bytes_of_string token ++ quoted "','heartbeat_ms':4000}"
  | JsonHeartbeat => quoted "{'result':0,'heartbeat_ms':4000}"
  | JsonClosed => quoted "{'result':0,'closed':true}"
  | JsonStarting err daemon_pid =>
      quoted "{'result':" ++ decimal_text (to_num err) ++
      quoted ",'stage':'daemon-starting','daemon_pid':" ++ decimal_text daemon_pid ++ quoted "}"
  | JsonResponse response => control_response_json response
  | JsonStatus view => status_text view
  end.

(** * What the texts are to say *)

Definition member_number (name : string) (n : Z) : list Z * json := (bytes_of_string name, JNumber n).
Definition member_text (name : string) (s : list Z) : list Z * json := (bytes_of_string name, JString s).

Definition response_members (r : ControlIpcResponse) : list (list Z * json) :=
  [member_number "result" (i32 (rs_result r)); member_number "daemon_pid" (rs_daemon_pid r);
   member_text "backend" (bytes_of_string "hal-outbound-binder-global");
   member_number "active_calls" (rs_active_calls r); member_number "generation" (rs_config_generation r);
   member_number "seed_generation" (rs_seed_generation r); member_text "fingerprint" (hex16 (rs_profile_fingerprint r));
   member_number "switches" (rs_switches r); member_number "rejections" (rs_rejections r);
   member_number "server_request_hits" (rs_server_request_hits r);
   member_number "correlated_reply_candidates" (rs_correlated_reply_candidates r);
   member_number "replacement_candidates" (rs_replacement_candidates r);
   member_number "dry_run_hits" (rs_replacement_dry_run_hits r);
   member_number "write_ok" (rs_replacement_write_ok r); member_number "write_faults" (rs_replacement_write_faults r);
   member_number "hal_identity_generation" (rs_hal_identity_generation r);
   member_number "hal_identity_switches" (rs_hal_identity_switches r);
   member_number "hal_gate_hits" (rs_hal_gate_hits r); member_number "hal_state" (rs_hal_state r);
   member_number "hal_count" (rs_hal_count r); member_number "hal_monitor_backend" (rs_hal_monitor_backend r);
   member_number "hal_monitor_wakeups" (rs_hal_monitor_wakeups r); member_number "slot" (rs_active_slot r);
   member_number "mode" (rs_replacement_mode r); member_number "length" (rs_virtual_id_length r);
   (bytes_of_string "hal_tgids", JNumbers (shown_tgids r))].

Definition binder_members (binder : option BinderCapabilityStatus) : list (list Z * json) :=
  match binder with
  | Some s =>
      [member_text "kernel_release" (bs_kernel_release s);
       member_text "binder_driver_backend" (bytes_of_string (binder_backend_name (bs_backend s)));
       member_text "binder_resolution_source" (bytes_of_string
         (if bool_decide (bs_file_f_op_source s = SourceSymbolScan) ||
             bool_decide (bs_fops_unlocked_ioctl_source s = SourceSymbolScan)
          then "fd+sdk+symbol-scan" else "fd+sdk+symbol-check"));
       member_text "binder_file_offset_source"
         (bytes_of_string (binder_offset_source_name (bs_file_f_op_source s)));
       member_text "binder_ioctl_offset_source"
         (bytes_of_string (binder_offset_source_name (bs_fops_unlocked_ioctl_source s)));
       member_text "binder_capabilities" (hex16 (bs_capabilities s));
       member_text "binder_entry_fingerprint" (hex16 (bs_entry_fingerprint s));
       member_number "binder_entry_semantics" (bs_entry_semantics s);
       member_number "binder_symbol_validations" (bs_symbol_validations s)]
  | None =>
      [member_text "kernel_release" []; member_text "binder_driver_backend" (bytes_of_string "unknown");
       member_text "binder_resolution_source" (bytes_of_string "unavailable");
       member_text "binder_file_offset_source" (bytes_of_string "unknown");
       member_text "binder_ioctl_offset_source" (bytes_of_string "unknown");
       member_text "binder_capabilities" (replicate 16 48); member_text "binder_entry_fingerprint" [];
       member_number "binder_entry_semantics" 0; member_number "binder_symbol_validations" 0]
  end.

Definition payload_members (to_num : KModErr -> Z) (p : payload) : list (list Z * json) :=
  match p with
  | JsonError err stage => [member_number "result" (to_num err); member_text "stage" (bytes_of_string stage)]
  | JsonStage stage => [member_number "result" (-1); member_text "stage" (bytes_of_string stage)]
  | JsonSession token =>
      [member_number "result" 0; member_text "session_token" (bytes_of_string token); member_number "heartbeat_ms" 4000]
  | JsonHeartbeat => [member_number "result" 0; member_number "heartbeat_ms" 4000]
  | JsonClosed => [member_number "result" 0; (bytes_of_string "closed", JTrue)]
  | JsonStarting err daemon_pid =>
      [member_number "result" (to_num err); member_text "stage" (bytes_of_string "daemon-starting");
       member_number "daemon_pid" daemon_pid]
  | JsonResponse response => response_members response
  | JsonStatus view =>
      response_members (sv_response view) ++
      member_text "device_fingerprint" (default [] (hex16 <$> sv_device_fingerprint view)) ::
      binder_members (sv_binder view)
  end.

(** * Rendering *)

(** The text of an object in the form the program writes: no spaces. *)
Definition value_text (v : json) : list Z :=
  match v with
  | JNumber n => decimal_text n
  | JString s => 34 :: s ++ [34]
  | JTrue => bytes_of_string "true"
  | JNumbers l => 91 :: tgids_text true l ++ [93]
  end.

Fixpoint members_text (first : bool) (members : list (list Z * json)) : list Z :=
  match members with
  | [] => []
  | (name, value) :: members =>
      (if first then [] else [44]) ++ 34 :: name ++ 34 :: 58 :: value_text value ++ members_text false members
  end.

Definition object_text (members : list (list Z * json)) : list Z :=
  123 :: members_text true members ++ [125].

Definition plain (s : list Z) : Prop := Forall (fun b => plain_byte b = true) s.

#[global] Instance plain_dec s : Decision (plain s).
Proof. unfold plain. apply _. Defined.

Definition value_ok (v : json) : Prop := match v with JString s => plain s | _ => True end.
Definition member_ok (m : list Z * json) : Prop := plain m.1 /\ value_ok m.2.

(** * Numbers *)

Definition no_digit (rest : list Z) : Prop := peek rest < 48 \/ 57 < peek rest.

Lemma pretty_go_first x s :
  (0 < x)%N -> exists d s', (0 < d < 10)%N /\ pretty_N_go x s = String (pretty_N_char d) s'.
Proof.
  revert s. induction (N.lt_wf_0 x) as [x _ IH]. intros s Hx. rewrite pretty_N_go_step by lia.
  pose proof (N.div_mod x 10 ltac:(lia)). pose proof (N.mod_lt x 10 ltac:(lia)).
  destruct (decide (x / 10 = 0)%N) as [E|Hne].
  - rewrite E, pretty_N_go_0. exists (x mod 10)%N, s. split; [lia|done].
  - apply IH; [|lia]. apply N.div_lt; lia.
Qed.

Lemma digit_byte (d : N) :
  (d < 10)%N -> Z.of_nat (Ascii.nat_of_ascii (pretty_N_char d)) = 48 + Z.of_N d.
Proof.
  intros Hd. rewrite <-(N2Z.id d) at 1.
  apply (below_cases (fun n => Z.of_nat (Ascii.nat_of_ascii (pretty_N_char (Z.to_N n))) = 48 + n) 10);
    [by repeat constructor|lia].
Qed.

(** The digits of a number begin with a zero for zero only. *)
Lemma pretty_first (n : N) :
  exists b s, bytes_of_string (pretty n) = b :: s /\ 48 <= b <= 57 /\ (b = 48 -> s = []).
Proof.
  unfold pretty, pretty_N. case_decide as Hn; [exists 48, []; by split_and!|].
  destruct (pretty_go_first n "" ltac:(lia)) as (d & s' & Hd & ->).
  eexists _, _. split; [done|]. rewrite digit_byte by lia. split; [lia|lia].
Qed.

Lemma digits_of_pretty (n : N) rest :
  no_digit rest -> digits_of (bytes_of_string (pretty n) ++ rest) = Some (Z.of_N n, rest).
Proof.
  intros Hrest. destruct (pretty_digits n) as (Hall & Hdec & Hne).
  destruct (pretty_first n) as (b & s & Hbytes & Hb & Hzero). unfold digits_of.
  rewrite digits_at_string; [|done|].
  2: { intros b' rest' -> Hb'. unfold no_digit in Hrest. cbn in Hrest. lia. }
  rewrite Hbytes, Hdec. pose proof (bytes_of_string_length (pretty n)) as Hlen. rewrite Hbytes in Hlen.
  cbn [length app peek] in *. rewrite (proj2 (Nat.eqb_neq _ 0)) by lia. cbn [orb].
  destruct (Z.eqb_spec b 48) as [Hb48|]; [|by rewrite andb_false_r].
  rewrite (Hzero Hb48) in Hlen. cbn in Hlen.
  by rewrite (proj2 (Nat.ltb_ge 1 _)) by lia.
Qed.

Lemma decimal_head n rest :
  peek (decimal_text n ++ rest) = 45 /\ n < 0 \/ 48 <= peek (decimal_text n ++ rest) <= 57 /\ 0 <= n.
Proof.
  unfold decimal_text. destruct (Z.ltb_spec n 0); [by left|right].
  destruct (pretty_first (Z.to_N n)) as (b & s & -> & Hb & _). done.
Qed.

Lemma read_number_text n rest :
  no_digit rest -> read_number (decimal_text n ++ rest) = Some (n, rest).
Proof.
  intros Hrest. pose proof (decimal_head n rest) as Hhead. unfold read_number.
  destruct Hhead as [[-> Hn]|[Hb Hn]].
  - unfold decimal_text. rewrite (proj2 (Z.ltb_lt n 0)) by done. cbn [Z.eqb Pos.eqb app tail].
    rewrite digits_of_pretty by done. cbn. do 2 f_equal. lia.
  - rewrite (proj2 (Z.eqb_neq _ 45)) by lia. unfold decimal_text.
    rewrite (proj2 (Z.ltb_ge n 0)) by done. rewrite digits_of_pretty by done. do 2 f_equal. lia.
Qed.

(** * The reader reads what is rendered *)

Lemma read_string_text s rest : plain s -> read_string (s ++ 34 :: rest) = Some (s, rest).
Proof.
  induction 1 as [|b s Hb _ IH]; [done|]. cbn [app read_string].
  destruct (Z.eqb_spec b 34) as [-> |]; [done|]. by rewrite Hb, IH.
Qed.

Lemma numbers_rest l rest : no_digit (tgids_text false l ++ 93 :: rest).
Proof. destruct l; [right|left]; cbn; lia. Qed.

Lemma read_numbers_text fuel l rest :
  l <> [] -> (length l <= fuel)%nat ->
  read_numbers fuel (tgids_text true l ++ 93 :: rest) = Some (l, rest).
Proof.
  revert l. induction fuel as [|fuel IH]; intros l Hl Hfuel; [by destruct l; cbn in Hfuel; [|lia]|].
  destruct l as [|n l]; [done|]. cbn [tgids_text app read_numbers].
  rewrite <-app_assoc, read_number_text by apply numbers_rest. cbn [mbind option_bind].
  destruct l as [|m l]; [done|].
  change (tgids_text false (m :: l) ++ 93 :: rest) with (44 :: tgids_text true (m :: l) ++ 93 :: rest).
  cbn [peek tail Z.eqb Pos.eqb]. rewrite IH; [done|done|]. cbn in Hfuel |- *. lia.
Qed.

Lemma decimal_text_pos n : (1 <= length (decimal_text n))%nat.
Proof. pose proof (decimal_head n []) as Hd. destruct (decimal_text n); cbn in *; lia. Qed.

Lemma tgids_text_length first l : (length l <= length (tgids_text first l))%nat.
Proof.
  revert first. induction l as [|n l IH]; intros first; [done|]. cbn [tgids_text length].
  rewrite !length_app. pose proof (decimal_text_pos n). specialize (IH false). lia.
Qed.

Lemma read_value_text v rest :
  value_ok v -> no_digit rest -> read_value (value_text v ++ rest) = Some (v, rest).
Proof.
  intros Hv Hrest. destruct v as [n|s| |l]; unfold read_value.
  - cbn [value_text]. pose proof (decimal_head n rest) as Hd. rewrite (proj2 (Z.eqb_neq _ 34)) by lia.
    rewrite (proj2 (Z.eqb_neq _ 91)) by lia. rewrite bool_decide_false.
    2: { intros E. apply (f_equal peek) in E. change (peek (bytes_of_string "true")) with 116 in E.
         destruct (decimal_text n ++ rest); cbn in E, Hd; lia. }
    by rewrite read_number_text.
  - cbn [value_text app peek Z.eqb Pos.eqb tail]. rewrite <-app_assoc. cbn [app]. by rewrite read_string_text.
  - done.
  - cbn [value_text app peek Z.eqb Pos.eqb tail]. rewrite <-app_assoc. cbn [app].
    destruct l as [|n l]; [done|]. pose proof (decimal_head n (tgids_text false l ++ 93 :: rest)) as Hd.
    cbn [tgids_text app]. rewrite <-app_assoc. rewrite (proj2 (Z.eqb_neq _ 93)) by lia.
    rewrite app_assoc. change (decimal_text n ++ tgids_text false l) with (tgids_text true (n :: l)).
    rewrite read_numbers_text; [done|done|]. cbn [length]. rewrite length_app.
    pose proof (tgids_text_length true (n :: l)). cbn [length] in *. lia.
Qed.

Lemma members_rest ms rest : no_digit (members_text false ms ++ 125 :: rest).
Proof. destruct ms as [|[name v] ms]; [right|left]; cbn; lia. Qed.

Lemma read_members_text fuel ms rest :
  ms <> [] -> Forall member_ok ms -> (length ms <= fuel)%nat ->
  read_members fuel (members_text true ms ++ 125 :: rest) = Some (ms, rest).
Proof.
  revert ms. induction fuel as [|fuel IH]; intros ms Hne Hok Hfuel; [by destruct ms; cbn in Hfuel; [|lia]|].
  destruct Hok as [|[name v] ms [Hname Hv] Hok]; [done|]. cbn [fst snd] in *.
  cbn [members_text app read_members peek Z.eqb Pos.eqb negb tail].
  rewrite <-app_assoc. cbn [app]. rewrite read_string_text by done.
  cbn [mbind option_bind peek Z.eqb Pos.eqb negb tail]. rewrite <-app_assoc.
  rewrite read_value_text by (done || apply members_rest). cbn [mbind option_bind].
  destruct ms as [|m ms]; [done|].
  assert (members_text false (m :: ms) = 44 :: members_text true (m :: ms)) as -> by (by destruct m).
  cbn [app peek tail Z.eqb Pos.eqb]. rewrite IH; [done|done|done|]. cbn in Hfuel |- *. lia.
Qed.

Lemma members_text_length first ms : (length ms <= length (members_text first ms))%nat.
Proof.
  revert first. induction ms as [|[name v] ms IH]; intros first; [done|]. cbn [members_text length].
  rewrite length_app. cbn [length]. rewrite length_app. cbn [length]. rewrite length_app.
  specialize (IH false). lia.
Qed.

Lemma read_object_text ms : ms <> [] -> Forall member_ok ms -> read_object (object_text ms) = Some ms.
Proof.
  intros Hne Hok. unfold read_object, object_text. cbn [peek Z.eqb Pos.eqb tail].
  rewrite read_members_text; [done|done|done|]. cbn [length]. rewrite length_app.
  pose proof (members_text_length true ms). lia.
Qed.

(** * The texts are renderings *)

(** The rendering in front of what follows, which the texts of the program unfold to. *)
Definition value_onto (v : json) (rest : list Z) : list Z :=
  match v with
  | JNumber n => decimal_text n ++ rest
  | JString s => 34 :: s ++ 34 :: rest
  | JTrue => bytes_of_string "true" ++ rest
  | JNumbers l => 91 :: tgids_text true l ++ 93 :: rest
  end.

Fixpoint members_onto (first : bool) (members : list (list Z * json)) (rest : list Z) : list Z :=
  match members with
  | [] => rest
  | (name, value) :: members =>
      (if first then [] else [44]) ++
      34 :: name ++ 34 :: 58 :: value_onto value (members_onto false members rest)
  end.

Lemma value_onto_eq v rest : value_onto v rest = value_text v ++ rest.
Proof. destruct v; cbn [value_onto value_text app]; [done| |done|]; by rewrite <-app_assoc. Qed.

Lemma members_onto_eq first ms rest : members_onto first ms rest = members_text first ms ++ rest.
Proof.
  revert first. induction ms as [|[name v] ms IH]; intros first; [done|]. cbn [members_onto members_text].
  rewrite value_onto_eq, IH. by do 3 (rewrite <-?app_assoc; cbn [app]).
Qed.

Lemma object_onto_eq ms : object_text ms = 123 :: members_onto true ms [125].
Proof. by rewrite members_onto_eq. Qed.

Lemma response_rendered r :
  response_format r ++ tgids_text true (shown_tgids r) ++ quoted "]}" = object_text (response_members r).
Proof. rewrite object_onto_eq. unfold response_format. rewrite <-!app_assoc. reflexivity. Qed.

(** * The buffer is large enough *)

Lemma decimal_length n : 0 <= n < 10 ^ 20 -> (length (decimal_text n) <= 20)%nat.
Proof.
  intros Hn. unfold decimal_text. rewrite (proj2 (Z.ltb_ge n 0)) by lia.
  rewrite bytes_of_string_length. unfold pretty, pretty_N. case_decide; [cbn; lia|].
  etrans; [apply (pretty_go_length 20); lia|cbn; lia].
Qed.

Lemma decimal_i32_length n : (length (decimal_text (i32 n)) <= 21)%nat.
Proof.
  pose proof (u32_range n). unfold i32. destruct (Z.ltb_spec (u32 n) (2 ^ 31)).
  - etrans; [apply decimal_length; lia|lia].
  - unfold decimal_text. rewrite (proj2 (Z.ltb_lt _ 0)) by lia. cbn [length].
    pose proof (decimal_length (- (u32 n - 2 ^ 32)) ltac:(lia)) as Hl. unfold decimal_text in Hl.
    rewrite (proj2 (Z.ltb_ge _ 0)) in Hl by lia. lia.
Qed.

Lemma hex16_length n : length (hex16 n) = 16%nat.
Proof. unfold hex16. by rewrite length_fmap. Qed.

Lemma word_ok_decimal n z : (n <= 8)%nat -> word_ok n z -> (length (decimal_text z) <= 20)%nat.
Proof.
  intros Hn Hz. apply decimal_length. unfold word_ok in Hz. split; [lia|].
  assert (256 ^ Z.of_nat n <= 256 ^ 8) by (apply Z.pow_le_mono_r; lia). lia.
Qed.

Lemma response_fits r : in_range r -> (length (response_format r) <= 2047)%nat.
Proof.
  intros (H8 & H4 & _). unfold response_format. rewrite !length_app, hex16_length.
  apply (Forall_impl _ (fun z => (length (decimal_text z) <= 20)%nat)) in H8;
    [|intros z Hz; by apply (word_ok_decimal 8)].
  apply (Forall_impl _ (fun z => (length (decimal_text z) <= 20)%nat)) in H4;
    [|intros z Hz; apply (word_ok_decimal 4); [lia|done]].
  pose proof (decimal_i32_length (rs_result r)).
  repeat match goal with Hw : Forall _ (_ :: _) |- _ => apply Forall_cons in Hw as [? Hw] end.
  repeat match goal with |- context [length (quoted ?s)] =>
    let n := eval vm_compute in (length (quoted s)) in change (length (quoted s)) with n end.
  lia.
Qed.

Lemma response_json_text r :
  in_range r -> control_response_json r = object_text (response_members r).
Proof.
  intros Hr. unfold control_response_json, snprintf. rewrite take_ge by (by apply response_fits).
  apply response_rendered.
Qed.

Lemma pop_brace_snoc text : pop_brace (text ++ [125]) = text.
Proof.
  unfold pop_brace. rewrite last_snoc, bool_decide_true by done.
  rewrite length_app. cbn [length]. by rewrite Nat.add_sub, take_app_length.
Qed.

Lemma pop_brace_object ms : pop_brace (object_text ms) = 123 :: members_text true ms.
Proof. exact (pop_brace_snoc (123 :: members_text true ms)). Qed.

Lemma members_text_app first ms ms' :
  ms <> [] -> members_text first (ms ++ ms') = members_text first ms ++ members_text false ms'.
Proof.
  revert first. induction ms as [|[name v] ms IH]; intros first Hne; [done|].
  assert (members_text false (ms ++ ms') = members_text false ms ++ members_text false ms') as E
    by (destruct ms; [done|by apply IH]).
  cbn [app members_text]. rewrite E. by do 3 (rewrite <-?app_assoc; cbn [app]).
Qed.

Lemma status_rendered members fingerprint binder :
  members <> [] ->
  pop_brace (object_text members) ++ device_fingerprint_text fingerprint ++ binder_text binder ++ quoted "}" =
    object_text (members ++ member_text "device_fingerprint" (default [] (hex16 <$> fingerprint)) ::
                 binder_members binder).
Proof.
  intros Hne. rewrite pop_brace_object. unfold object_text at 1. rewrite members_text_app by done.
  cbn [app]. f_equal. rewrite <-app_assoc. f_equal. rewrite <-members_onto_eq.
  unfold device_fingerprint_text, binder_text.
  destruct fingerprint, binder; rewrite <-?app_assoc; reflexivity.
Qed.

(** * What is shown can be read *)

Definition payload_ok (p : payload) : Prop :=
  match p with
  | JsonError _ stage | JsonStage stage => plain (bytes_of_string stage)
  | JsonSession token => plain (bytes_of_string token)
  | JsonResponse response => in_range response
  | JsonStatus view =>
      in_range (sv_response view) /\
      (forall status, sv_binder view = Some status -> plain (bs_kernel_release status))
  | JsonHeartbeat | JsonClosed | JsonStarting _ _ => True
  end.

Lemma hex_digit_plain n :
  0 <= n < 16 -> plain_byte (Z.of_nat (Ascii.nat_of_ascii (hex_digit n))) = true.
Proof.
  apply (below_cases (fun n => plain_byte (Z.of_nat (Ascii.nat_of_ascii (hex_digit n))) = true)).
  by repeat constructor.
Qed.

Lemma low_nibble n : 0 <= Z.land n 15 < 16.
Proof. change 15 with (Z.ones 4). rewrite Z.land_ones by lia. apply Z.mod_pos_bound. lia. Qed.

Lemma hex16_plain n : plain (hex16 n).
Proof.
  unfold plain, hex16. apply Forall_fmap, Forall_forall. intros i _. apply hex_digit_plain, low_nibble.
Qed.

Lemma member_number_ok name n : plain (bytes_of_string name) -> member_ok (member_number name n).
Proof. done. Qed.

Lemma member_text_ok name s : plain (bytes_of_string name) -> plain s -> member_ok (member_text name s).
Proof. done. Qed.

#[local] Ltac plain_literal := apply (bool_decide_unpack _); vm_compute; exact I.

#[local] Ltac members_ok :=
  repeat (first [apply Forall_nil_2 | apply Forall_cons; split]);
  lazymatch goal with
  | |- member_ok (member_number _ _) => apply member_number_ok
  | |- member_ok (member_text _ _) => apply member_text_ok
  | |- _ => split; cbn [fst snd]; [|exact I]
  end;
  lazymatch goal with
  | |- plain (hex16 _) => apply hex16_plain
  | |- plain (bytes_of_string (String _ _)) => plain_literal
  | |- _ => idtac
  end.

Lemma response_members_ok r : Forall member_ok (response_members r).
Proof. unfold response_members. members_ok. Qed.

Lemma binder_members_ok binder :
  (forall status, binder = Some status -> plain (bs_kernel_release status)) ->
  Forall member_ok (binder_members binder).
Proof.
  intros Hrelease. destruct binder as [status|]; [specialize (Hrelease status eq_refl)|]; members_ok.
  - done.
  - destruct (bs_backend status); plain_literal.
  - destruct (_ || _); plain_literal.
  - destruct (bs_file_f_op_source status); plain_literal.
  - destruct (bs_fops_unlocked_ioctl_source status); plain_literal.
  - constructor.
  - plain_literal.
  - constructor.
Qed.

Lemma payload_reads to_num p :
  payload_ok p -> read_object (payload_text to_num p) = Some (payload_members to_num p).
Proof.
  intros Hp. assert (payload_text to_num p = object_text (payload_members to_num p)) as ->.
  { destruct p as [| | | | | |response|view]; cbn [payload_ok] in Hp;
      [..|by apply response_json_text|].
    1-6: rewrite object_onto_eq; unfold payload_text, error_json; rewrite <-?app_assoc; reflexivity.
    cbn [payload_text payload_members]. unfold status_text.
    rewrite response_json_text by apply Hp. by apply status_rendered. }
  apply read_object_text; [by destruct p|].
  destruct p as [| | | | | |response|view]; cbn [payload_ok] in Hp; cbn [payload_members];
    [members_ok; done|members_ok; done|members_ok; done|members_ok..|apply response_members_ok|].
  apply Forall_app. split; [apply response_members_ok|]. apply Forall_cons. split.
  - apply member_text_ok; [by repeat constructor|].
    destruct (sv_device_fingerprint view); [apply hex16_plain|constructor].
  - by apply binder_members_ok, Hp.
Qed.

(** * Every reply can be read *)

(** What holds of every result a computation returns. *)
Definition always {A} (m : io A) (Q : A -> Prop) : Prop := forall w a w', m w = Some (a, w') -> Q a.

Lemma always_ret {A} (a : A) (Q : A -> Prop) : Q a -> always (mret a) Q.
Proof. intros HQ w a' w' E. apply (inj Some), (inj2 pair) in E as [<- _]. done. Qed.

Lemma always_any {A} (m : io A) : always m (fun _ => True).
Proof. done. Qed.

Lemma always_bind {A B} (m : io A) (k : A -> io B) (P : A -> Prop) (Q : B -> Prop) :
  always m P -> (forall a, P a -> always (k a) Q) -> always (a ← m; k a) Q.
Proof.
  intros Hm Hk w b w' E. unfold mbind, io_bind in E. destruct (m w) as [[a w1]|] eqn:Em; [|done].
  exact (Hk a (Hm w a w1 Em) w1 b w' E).
Qed.

Lemma always_then {A B} (m : io A) (k : A -> io B) (Q : B -> Prop) :
  (forall a, always (k a) Q) -> always (a ← m; k a) Q.
Proof. intros Hk. eapply always_bind; [apply always_any|]. intros a _. apply Hk. Qed.

Lemma release_byte_plain b : release_byte b = true -> plain_byte b = true.
Proof. unfold release_byte, plain_byte. lia. Qed.

Lemma terminated_plain text : terminated_text text = true -> plain (c_string text).
Proof.
  induction text as [|ch text IH]; [done|]. cbn [terminated_text c_string].
  destruct (Z.eqb_spec ch 0); [constructor|]. intros [Hch Htext]%andb_prop.
  constructor; [by apply release_byte_plain|by apply IH].
Qed.

Lemma valid_record_release record :
  valid_record record = true -> plain (c_string (cp_kernel_release record)).
Proof.
  unfold valid_record. rewrite !andb_true_iff. intros Hvalid. destruct Hvalid as [[_ Hrelease] _].
  unfold valid_kernel_release_text in Hrelease. apply andb_prop in Hrelease as [Htext _].
  by apply terminated_plain.
Qed.

Section Replies.
Context `{OperatingSystem}.
Context (fuel : nat).

Lemma always_read_capability path :
  always (read_binder_capability_status fuel path)
    (fun r => r.1 = OK -> plain (bs_kernel_release r.2)).
Proof.
  unfold read_binder_capability_status. destruct (c_path path); [|by apply always_ret].
  apply always_then. intros []; [|by apply always_ret..]. apply always_then. intros regular.
  apply always_then. intros read. apply always_then. intros _.
  destruct read as [used|]; [|by apply always_ret].
  destruct (valid_record _) eqn:Hvalid; cbn [negb]; apply always_ret; [|done]. intros _.
  by apply valid_record_release.
Qed.

Lemma always_random_loop size out :
  bytes_ok out -> always (random_loop fuel size out) bytes_ok.
Proof.
  revert out. induction fuel as [|fuel' IH]; intros out Hout; [by intros ???|]. cbn [random_loop].
  destruct (_ <? _)%nat; [|by apply always_ret].
  apply (always_bind _ _ (fun r => match r with Moved bytes => bytes_ok bytes | _ => True end)).
  - intros w r w'. unfold sys_random. cbn. intros E. apply (inj Some), (inj2 pair) in E as [<- _].
    destruct (outcome_of _); [|done..]. apply Forall_fmap, Forall_true. intros i. apply u8_range.
  - intros [[|b bytes]| |] Hr; [by apply always_ret| |by apply IH|by apply always_ret].
    apply IH. by apply bytes_ok_app.
Qed.

Lemma token_plain bytes : bytes_ok bytes -> plain (bytes_of_string (new_session_token (Some bytes))).
Proof.
  intros Hbytes. unfold new_session_token, bytes_of_string.
  rewrite String.list_ascii_of_string_of_list_ascii. unfold plain. apply Forall_fmap, Forall_bind.
  eapply Forall_impl; [exact Hbytes|]. intros b Hb. destruct (byte_halves b Hb) as (Hhigh & Hlow & _).
  repeat constructor; by apply hex_digit_plain.
Qed.

Context (mg_get_var : string -> string -> nat -> option string).
Context (daemon : nat -> ControlIpcOperation -> files_t -> KModErr * ControlIpcResponse).
Context (Hdaemon : forall n op f, in_range (daemon n op f).2).
Context (owner_view : nat -> OwnerView) (paths : WebPaths).

Definition readable (r : reply) : Prop := payload_ok (rp_payload r).

Lemma always_answer code p : payload_ok p -> always (answer code p) readable.
Proof. intros Hp. by apply always_ret. Qed.

Lemma always_ask operation : always (ask_daemon daemon operation) (fun r => in_range r.2).
Proof. intros w r w' E. apply (inj Some), (inj2 pair) in E as [<- _]. apply Hdaemon. Qed.

Lemma always_answer_status code response :
  in_range response -> always (answer_status fuel code response paths) readable.
Proof.
  intros Hresponse. unfold answer_status.
  apply (always_bind _ _ (fun view => payload_ok (JsonStatus view))).
  - unfold status_json. apply always_then. intros [fingerprint_err fingerprint].
    eapply always_bind; [apply always_read_capability|]. intros [binder_err status] Hstatus.
    apply always_ret. split; [done|]. intros status'. cbn.
    destruct binder_err; intros E; try discriminate E. apply (inj Some) in E as <-. by apply Hstatus.
  - intros view Hview. by apply always_answer.
Qed.

Lemma always_status : always (handle_status fuel daemon owner_view paths) readable.
Proof.
  unfold handle_status. destruct (ready paths); cbn [negb]; [|by apply always_answer; repeat constructor].
  eapply always_bind; [apply always_ask|]. intros [err response] Hresponse.
  destruct (is_failed err); [|by apply always_answer_status].
  apply always_then. intros [daemon_pid|]; apply always_answer; [done|by repeat constructor].
Qed.

Lemma always_stop : always (handle_stop daemon paths) readable.
Proof.
  unfold handle_stop. apply (always_bind _ _ (fun r => is_failed r.1 = false -> in_range r.2)).
  - destruct (ready paths); [|by apply always_ret].
    intros w r w' E _. by eapply always_ask.
  - intros [err response] Hr. cbn [fst snd] in Hr.
    destruct (is_failed err); apply always_answer; [by repeat constructor|by apply Hr].
Qed.

Lemma always_requested mode id_action id_hex persisted :
  always (requested_config fuel paths mode id_action id_hex persisted)
    (fun r => match r with inl refusal => readable refusal | inr _ => True end).
Proof.
  unfold requested_config. cbv zeta. destruct (String.eqb id_action "derive").
  { apply always_then. intros [err profile].
    destruct (is_failed err); apply always_ret; [by repeat constructor|done]. }
  destruct (String.eqb id_action "random").
  { apply always_then. intros [id|]; apply always_ret; [done|by repeat constructor]. }
  destruct (String.eqb id_action "custom"); [|by apply always_ret].
  destruct (decode_virtual_id id_hex); apply always_ret; [done|by repeat constructor].
Qed.

Lemma always_apply_config current config :
  in_range current -> always (apply_config fuel daemon paths current config) readable.
Proof.
  intros Hcurrent. unfold apply_config. destruct (no_op current config); [by apply always_answer_status|].
  destruct (_ =? UINT64_MAX); [by apply always_answer; repeat constructor|].
  apply always_then. intros err. destruct (is_failed err); [by apply always_answer; repeat constructor|].
  eapply always_bind; [apply always_ask|]. intros [err' applied] Happlied.
  destruct (is_failed err'); [by apply always_answer; repeat constructor|by apply always_answer_status].
Qed.

Lemma always_apply body : always (handle_apply fuel mg_get_var daemon paths body) readable.
Proof.
  unfold handle_apply. destruct (4096 <? _)%nat; [by apply always_answer; repeat constructor|].
  destruct (form_value mg_get_var body "mode" 8) as [mode|], (form_value mg_get_var body "id_action" 8) as [id_action|],
    (form_value mg_get_var body "id_hex" (kVirtualIdBytes * 2)) as [id_hex|]; try by apply always_answer; repeat constructor.
  destruct (valid_form mode id_action); cbn [negb]; [|by apply always_answer; repeat constructor].
  destruct (ready paths); cbn [negb]; [|by apply always_answer; repeat constructor].
  eapply always_bind; [apply always_ask|]. intros [err current] Hcurrent.
  destruct (is_failed err); [by apply always_answer; repeat constructor|].
  destruct (_ =? 0); cbn [negb]; [|by apply always_answer].
  apply always_then. intros [err' persisted].
  destruct (is_failed err'); [by apply always_answer; repeat constructor|].
  eapply always_bind; [apply always_requested|]. intros [refusal|config] Hrequest;
    [by apply always_ret|by apply always_apply_config].
Qed.

Lemma always_post now path body s :
  always (handle_post fuel mg_get_var daemon owner_view paths now path body s) (fun r => readable r.1).
Proof.
  unfold handle_post. cbv zeta. destruct (String.eqb path "/api/session/open").
  { apply (always_bind _ _ (fun random => forall bytes, random = Some bytes -> bytes_ok bytes)).
    - destruct (_ || _); [by apply always_ret|]. unfold token_bytes. apply always_then. intros [];
        [|by apply always_ret]. eapply always_bind; [by apply always_random_loop; constructor|].
      intros bytes Hbytes. apply always_then. intros _. apply always_ret. intros bytes'.
      destruct (Nat.eqb _ _); intros E; [|done]. by apply (inj Some) in E as <-.
    - intros random Hrandom. unfold session_open.
      destruct (_ || _); [by apply always_ret; repeat constructor|].
      destruct (negb (Nat.eqb _ _)) eqn:Elen; apply always_ret; [by repeat constructor|].
      cbn. destruct random as [bytes|]; [by apply token_plain, Hrandom|constructor]. }
  destruct (authenticate_session _ _ _) as [[] s0]; cbn [negb]; [|by apply always_ret; repeat constructor].
  destruct (String.eqb path "/api/session/ping"); [by apply always_ret|].
  destruct (String.eqb path "/api/session/close"); [by apply always_ret|].
  apply (always_bind _ _ readable); [|intros r Hr; by apply always_ret].
  destruct (String.eqb path "/api/status"); [apply always_status|].
  destruct (String.eqb path "/api/apply"); [apply always_apply|].
  destruct (String.eqb path "/api/stop"); [apply always_stop|by apply always_answer; repeat constructor].
Qed.

End Replies.

(** No member is named twice. *)
Lemma payload_names_distinct to_num p : NoDup (payload_members to_num p).*1.
Proof.
  destruct p as [| | | | | | |[response fingerprint [status|]]];
  apply (bool_decide_unpack _); vm_compute; exact I.
Qed.

(** * Properties *)

(** C34: every reply of the web interface can be read: whatever is posted, the request comes
    to an end, and the body of its reply is the text of one JSON object, whole and with
    nothing behind it, whose members, none of them named twice, are those its values
    are shown under: the 25 numbers and texts of the daemon's response and its list of
    processes, for the status also the fingerprint of the device and what is known of
    the driver, and otherwise the error, the stage and the token.  No text is cut by
    the buffer it is written to, and no string of the capability file or of a token
    ends the string it stands in. *)
Theorem web_replies_readable `{OperatingSystem} B fuel to_num mg_get_var daemon owner_view dir now path
    body s w :
  responsive B -> (B * 161 <= fuel)%nat -> dir <> EmptyString -> files_ok (w_files w) ->
  (forall n op f, in_range (daemon n op f).2) ->
  exists r s' w',
    handle_post fuel mg_get_var daemon owner_view (on_prepare_create (Some dir)) now path body s w =
      Some ((r, s'), w') /\
    read_object (payload_text to_num (rp_payload r)) = Some (payload_members to_num (rp_payload r)) /\
    NoDup (payload_members to_num (rp_payload r)).*1.
Proof.
  intros HB Hfuel Hdir Hf Hdaemon.
  assert (Hgeneration : forall n f, word_ok 8 (rs_config_generation (daemon n kStatus f).2)).
  { intros n f. destruct (Hdaemon n kStatus f) as [H8 _].
    by repeat (apply Forall_cons in H8 as [? H8]). }
  destruct (wp_total _ _ _ (wp_handle_post False B fuel (or_intror (conj HB Hfuel)) mg_get_var daemon
    Hgeneration owner_view dir Hdir now path body s w Hf)) as ([r s'] & w' & Hrun & _).
  exists r, s', w'. split; [done|]. split; [|apply payload_names_distinct].
  apply payload_reads. exact (always_post fuel mg_get_var daemon Hdaemon owner_view _ now path body s w
    (r, s') w' Hrun).
Qed.

(** * A concrete reply *)

#[local] Abbreviation demo_status :=
  (handle_post (H := calm_system) 200 demo_form demo_answer demo_owner (on_prepare_create (Some "/data/m"))
     3000 "/api/status" "" demo_web_session demo_world) (only parsing).

Lemma demo_status_code : (fun r => rp_code r.1.1) <$> demo_status = Some 200.
Proof. vm_compute. reflexivity. Qed.

Lemma zero_response_in_range : in_range zero_response.
Proof. apply of_bytes_in_range; [done|]. apply bytes_ok_replicate. unfold byte_ok. lia. Qed.

Lemma web_replies_readable_witness :
  exists r s' w', demo_status = Some ((r, s'), w') /\ rp_code r = 200 /\
    read_object (payload_text demo_number (rp_payload r)) =
      Some (payload_members demo_number (rp_payload r)).
Proof.
  destruct (web_replies_readable (H := calm_system) 1 200 demo_number demo_form demo_answer demo_owner
    "/data/m" 3000 "/api/status" "" demo_web_session demo_world calm_responsive)
    as (r & s' & w' & Hrun & Hread & _).
  - lia.
  - discriminate.
  - exact demo_files_ok.
  - intros n op f. exact zero_response_in_range.
  - exists r, s', w'. split; [exact Hrun|]. split; [|exact Hread].
    pose proof demo_status_code as Hcode. rewrite Hrun in Hcode. by apply (inj Some) in Hcode.
Defined.
