(* ===== verification/Applied.v ===== *)
(** The way of a request from the web page into the kernel: the web interface stores the
    configuration and tells the daemon, whose server reads the file and publishes it to
    the context the handler works with. *)

From S2P Require Import Prelude KernelContext Reply Posix Records Slots RuntimeControl HalIdentity ControlIpc.
From S2P Require Import Monitor ControlServer ControlClient AtomicFile FileLifecycle RuntimeProfile WebSession WebUi.

(** * The daemon at the other end *)

Section Live.
Context `{KernelCalls}.
Context (session : CounterHookSession) (to_num : KModErr -> Z) (daemon_pid : Z).

(** What the requests of the web interface meet, by the number of the call they are:
    the state the server is in, what its reading of the control file delivers, and
    whether the response arrives. *)
Context (found : nat -> KState) (monitor : nat -> HalMonitorState).
Context (reads : nat -> files_t -> KModErr * ReplacementConfig).
Context (delivered : nat -> KModErr).
Context (pid tid : Z).

Definition live_daemon (n : nat) (operation : ControlIpcOperation) (f : files_t)
    : KModErr * ControlIpcResponse :=
  if is_ok (delivered n)
  then (OK, served session to_num daemon_pid (monitor n) (reads n f) (found n)
              (make_request operation pid tid))
  else (delivered n, zero_response).

(** The state the server is in after the request. *)
Definition after (n : nat) (operation : ControlIpcOperation) (f : files_t) : KState :=
  (serve_client session to_num daemon_pid (monitor n) (reads n f)
     (bytes_of (make_request operation pid tid)) (found n)).2.

Context (Hnum : forall err, u32 (to_num err) = 0 -> err = OK).

End Live.

(** * What a request leaves in the kernel *)

(** A response that shows a configuration. *)
Definition shows (response : ControlIpcResponse) (config : RuntimeConfigSlot) : Prop :=
  rs_config_generation response = rc_config_generation config /\
  rs_profile_fingerprint response = rc_profile_fingerprint config /\
  rs_replacement_mode response = rc_replacement_mode config /\
  rs_virtual_id_length response = rc_virtual_id_length config.

(** How the server leaves a request: its response shows a generation that is active, or
    none; a success shows the configuration that is active
    then, and only an application may have changed it. *)
Definition served_result (operation : ControlIpcOperation) (config_file : KModErr * ReplacementConfig)
    (s : KState) (response : ControlIpcResponse) (s' : KState) : Prop :=
  (rs_config_generation response = rc_config_generation (kernel_config s') \/
   rs_config_generation response = 0) /\
  (rs_result response = 0 -> shows response (kernel_config s')) /\
  (operation <> kApply -> kernel_config s' = kernel_config s) /\
  (operation = kApply -> rs_result response = 0 -> exists s1, ControlServer.apply_result config_file s OK s1 /\
     kernel_config s' = kernel_config s1).

Section Served.
Context `{KernelCalls}.
Context (session : CounterHookSession) (to_num : KModErr -> Z) (daemon_pid : Z).
Context (Hnum : forall err, u32 (to_num err) = 0 -> err = OK).
Context (Hflips : forall n, flip_faithful (po_flip (config_answer n))).

Lemma serve_message operation pid tid config_file :
  serve_request session config_file (bytes_of (make_request operation pid tid)) =
    match operation with
    | kStatus => mret (OK, false)
    | kApply => result ← serve_apply session config_file; mret (result, false)
    | kStop => mret (OK, true)
    end.
Proof.
  unfold serve_request. cbv zeta. rewrite message_request, make_request_valid.
  rewrite bytes_of_length by apply make_request_in_range. cbn [negb orb Nat.ltb Nat.leb].
  change (rq_operation (make_request operation pid tid)) with (operation_num operation).
  rewrite operation_num_of. by destruct operation.
Qed.

Lemma answer_shows config_file monitor operation pid tid s s1 result stop :
  (operation <> kApply -> kernel_config s1 = kernel_config s) ->
  (operation = kApply -> ControlServer.apply_result config_file s result s1) ->
  kwp ('(snapshot_err, snapshot) ← snapshot_kernel session;
       let operation_result :=
         if is_failed snapshot_err && is_ok result then snapshot_err else result in
       mret (fill_response to_num daemon_pid (default zero_context snapshot)
               (rq_request_id (request_buffer (bytes_of (make_request operation pid tid))))
               operation_result monitor, stop))
    (fun (r : ControlIpcResponse * bool) => served_result operation config_file s r.1) s1.
Proof.
  intros Hkept Happly. apply kwp_bind, snapshot_spec. intros err snapshot s2 Hk _ Hok Hnone. apply kwp_ret.
  assert (Hc : kernel_config s2 = kernel_config s1) by (unfold kernel_config; by rewrite Hk).
  cbn [fst]. destruct (decide (err = OK)) as [->|Hne].
  - rewrite (proj1 Hok eq_refl). cbn [is_failed is_ok negb andb default].
    split; [left; by rewrite Hc|]. split; [intros _; unfold shows; by rewrite Hc|]. split; [intros Ho; rewrite Hc; by apply Hkept|].
    intros Ho Hr. exists s1. split; [|done]. rewrite <-(Hnum result Hr). by apply Happly.
  - assert (Hbad : forall e, e <> OK -> rs_result (fill_response to_num daemon_pid (default zero_context snapshot)
      (rq_request_id (request_buffer (bytes_of (make_request operation pid tid)))) e monitor) <> 0).
    { intros e He Hr. by apply He, Hnum. }
    set (e := if is_failed err && is_ok result then err else result).
    assert (He : e <> OK).
    { unfold e, is_failed. destruct (is_ok err) eqn:E; [by destruct err|]. cbn [negb andb].
      destruct (is_ok result) eqn:E'; [done|]. by intros ->. }
    rewrite (proj1 Hnone Hne) in *. specialize (Hbad e He). split; [by right|]. split; [done|]. split; [intros Ho; rewrite Hc; by apply Hkept|]. done.
Qed.

Lemma serve_client_spec monitor config_file operation pid tid s :
  two_config_slots s ->
  kwp (serve_client session to_num daemon_pid monitor config_file (bytes_of (make_request operation pid tid)))
    (fun (r : ControlIpcResponse * bool) => served_result operation config_file s r.1) s.
Proof.
  intros Htwo. unfold serve_client. apply kwp_bind. rewrite serve_message. destruct operation.
  - apply kwp_ret. by apply answer_shows.
  - apply kwp_bind. eapply kwp_mono; [by apply serve_apply_spec|]. intros result s1 Hres.
    apply kwp_ret. by apply answer_shows.
  - apply kwp_ret. by apply answer_shows.
Qed.

End Served.

(** * From the form to the context *)

(** The server's own reading of the control file, on whatever system it runs on. *)
Definition reads_control (dir : string) (f : files_t) (result : KModErr * ReplacementConfig) : Prop :=
  exists (system : OperatingSystem) fuel w',
    read_runtime_control_file fuel (Some (default_runtime_control_path (Some dir))) (initial_world f) =
      Some (result, w').

Lemma reads_control_stored dir f result :
  dir <> EmptyString -> reads_control dir f result -> result.1 = OK -> stored dir f result.2.
Proof.
  intros Hdir (system & fuel & w' & Hrun) Hok. rewrite control_path_at in Hrun by done.
  pose proof (wp_read_runtime_control_file True 1 fuel (Some (at_dir dir kControlName)) (at_dir dir kControlName)
    (initial_world f)) as Hwp.
  specialize (Hwp ltac:(by apply c_path_some, at_dir_nonempty) ltac:(by left)). unfold wp in Hwp.
  rewrite Hrun in Hwp. destruct result as [err config]. by apply Hwp.
Qed.

(** The context that works as a configuration says. *)
Definition runs_as (config : ReplacementConfig) (slot : RuntimeConfigSlot) : Prop :=
  rc_replacement_mode slot = cfg_mode config /\ rc_virtual_id_length slot = 32 /\
  rc_profile_fingerprint slot = cfg_profile_fingerprint config /\
  virtual_identifier slot = take kVirtualIdBytes (cfg_virtual_id config).

Lemma stored_file_runs config :
  config_in_range config -> validate_config config = true ->
  let read := fill_config_from_v3 (of_bytes (bytes_of (seal_v3_record (make_v3_record config)))) in
  runs_as config (make_config_slot read) /\
  cfg_config_generation read = cfg_config_generation config.
Proof.
  intros Hr Hv. cbv zeta. rewrite of_bytes_bytes_of by by apply seal_in_range. rewrite fill_seal by done.
  pose proof (validate_config_length _ Hv) as Hl. destruct Hr as (_ & _ & _ & _ & _ & Hid & _).
  split; [|done]. split; [done|]. split; [done|]. split; [done|].
  unfold virtual_identifier. cbn [make_config_slot rc_virtual_id stored_config cfg_virtual_id
    cfg_virtual_id_length]. rewrite Hl. unfold copy_id.
  change (Z.to_nat 32) with 32%nat. change (Z.to_nat kWidevineDeviceUniqueIdBytes) with 32%nat.
  change kVirtualIdBytes with 32%nat.
  assert (H32 : length (take 32 (cfg_virtual_id config)) = 32%nat) by (rewrite length_take; lia).
  rewrite take_app_le by (rewrite length_take, length_app, H32; lia).
  rewrite take_take, Nat.min_id, take_app_le by lia. by rewrite take_take.
Qed.

Section EndToEnd.
Context `{OperatingSystem} `{KernelCalls}.
Context (session : CounterHookSession) (to_num : KModErr -> Z) (daemon_pid : Z).
Context (found : nat -> KState) (monitor : nat -> HalMonitorState).
Context (reads : nat -> files_t -> KModErr * ReplacementConfig) (delivered : nat -> KModErr) (pid tid : Z).
Context (active : RuntimeConfigSlot) (dir : string) (Hdir : dir <> EmptyString).
Context (Hnum : forall err, u32 (to_num err) = 0 -> err = OK).
Context (Hflips : forall n, flip_faithful (po_flip (config_answer n))).
Context (Hfound : forall n, two_config_slots (found n) /\ kernel_config (found n) = active).
Context (Hactive : word_ok 8 (rc_config_generation active)).
Context (Hreads : forall n f, reads_control dir f (reads n f)).

#[local] Abbreviation daemon :=
  (live_daemon session to_num daemon_pid found monitor reads delivered pid tid).
#[local] Abbreviation kernel_after :=
  (fun n f => kernel_config (after session to_num daemon_pid found monitor reads pid tid n kApply f)).

Lemma live_served n operation f err response :
  daemon n operation f = (err, response) ->
  (err = OK -> served_result operation (reads n f) (found n) response
     (after session to_num daemon_pid found monitor reads pid tid n operation f)) /\
  (err <> OK -> response = zero_response).
Proof.
  destruct (Hfound n) as [Htwo _]. unfold live_daemon.
  destruct (is_ok (delivered n)) eqn:E; intros Hrun; apply (inj2 pair) in Hrun as [<- <-].
  - split; [|done]. intros _. by apply serve_client_spec.
  - split; [|done]. intros Hok. by rewrite Hok in E.
Qed.

Lemma live_generation n f : word_ok 8 (rs_config_generation (daemon n kStatus f).2).
Proof.
  destruct (daemon n kStatus f) as [err response] eqn:E. destruct (live_served _ _ _ _ _ E) as [Hok Hno].
  cbn [snd]. destruct (decide (err = OK)) as [He|He]; [|rewrite (Hno He); split; [discriminate|reflexivity]].
  destruct (Hok He) as (Hgen & _ & Hkept & _). rewrite (Hkept ltac:(discriminate)) in Hgen.
  destruct (Hfound n) as [_ Hc]. rewrite Hc in Hgen. destruct Hgen as [-> | ->]; [exact Hactive|].
  split; [discriminate|reflexivity].
Qed.

Lemma status_active f response :
  answered daemon kStatus f response -> shows response active.
Proof.
  intros [[n Hn] Hr]. destruct (live_served _ _ _ _ _ Hn) as [Hok _].
  destruct (Hok eq_refl) as (_ & Hshows & Hkept & _). destruct (Hfound n) as [_ <-].
  rewrite <-(Hkept ltac:(discriminate)). by apply Hshows.
Qed.

(** An application that the daemon reports done is in the context. *)
Lemma applied_runs mode action id_hex old f content response :
  f !! at_dir dir kControlName = Some content ->
  replaced_by daemon dir mode action id_hex old f content -> answered daemon kApply f response ->
  exists persisted config n, stored dir old persisted /\
    requested dir mode action id_hex persisted f config /\ runs_as config (kernel_after n f) /\
    rc_config_generation (kernel_after n f) = rc_config_generation active + 1.
Proof.
  intros Hc (current & config & (Hstatus & persisted & Hstored & Hreq) & Hmax & Hv & ->) [[n Hn] Hr].
  exists persisted, config, n. split; [done|]. split; [done|].
  destruct (status_active _ _ Hstatus) as (Hgen & _). rewrite Hgen in *.
  destruct (live_served _ _ _ _ _ Hn) as [Hok _].
  destruct (Hok eq_refl) as (_ & _ & _ & Happly). destruct (Happly eq_refl Hr) as (s1 & (_ & Hdone & _) & ->).
  destruct (Hdone eq_refl) as (Hread & Hcases). destruct (Hfound n) as [_ Ha]. rewrite Ha in Hcases.
  destruct (reads_control_stored _ _ _ Hdir (Hreads n f) Hread) as (content & Hc' & _ & _ & Hfile).
  rewrite Hc in Hc'. apply (inj Some) in Hc' as <-.
  set (written := with_generation (rs_config_generation current + 1) config) in *.
  assert (Hrange : config_in_range written).
  { destruct (rc_ranges _ _ _ _ _ _ _ Hreq) as (? & ? & ? & ? & ? & ? & ?). unfold written.
    rewrite Hgen. split_and!; try done. cbn. unfold word_ok, UINT64_MAX in *.
    change (256 ^ Z.of_nat 8) with (2 ^ 64) in *. lia. }
  unfold new_file in Hfile. fold written in Hfile.
  rewrite <-Hgen in Hv. destruct (stored_file_runs written Hrange Hv) as [Hruns Hg]. rewrite <-Hfile in *.
  assert (Hw : cfg_config_generation written = rc_config_generation active + 1) by (cbn; by rewrite Hgen).
  destruct Hcases as [[_ He]|(-> & _ & _)]; [exfalso; lia|].
  split; [exact Hruns|]. cbn [make_config_slot rc_config_generation]. congruence.
Qed.

End EndToEnd.

(** C3: a configuration on its way from the web page into the kernel.  On a system that
    answers one of any [B] calls, with a daemon whose successful answers are those of
    its server's code, which reads the control file itself, a request to apply is
    answered, and answered with 200 only when it carries the session's token and a
    complete form, and one of two things holds for the configuration this form asks for
    (the mode; the identifier kept, derived from the seed in place, drawn at random, or the
    custom one): the context the handler works with already has its mode, its length
    and its fingerprint; or it now is that configuration, its 32 identifier bytes
    included, under the generation after the one before. *)
Theorem applied_in_kernel `{OperatingSystem} `{KernelCalls} B fuel mg_get_var owner_view dir now body s w
    session to_num daemon_pid found monitor reads delivered pid tid active :
  responsive B -> (B * 161 <= fuel)%nat -> dir <> EmptyString -> files_ok (w_files w) ->
  (forall err, u32 (to_num err) = 0 -> err = OK) ->
  (forall n, flip_faithful (po_flip (config_answer n))) ->
  (forall n, two_config_slots (found n) /\ kernel_config (found n) = active) ->
  word_ok 8 (rc_config_generation active) ->
  (forall n f, reads_control dir f (reads n f)) ->
  exists r s' w',
    handle_post fuel mg_get_var (live_daemon session to_num daemon_pid found monitor reads delivered pid tid)
      owner_view (on_prepare_create (Some dir)) now "/api/apply" body s w = Some ((r, s'), w') /\
    (rp_code r = 200 ->
      (authenticate_session now (form_value mg_get_var body "session_token" kSessionTokenHexBytes) s).1 = true /\
      exists mode action id_hex persisted config,
        form_value mg_get_var body "mode" 8 = Some mode /\
        form_value mg_get_var body "id_action" 8 = Some action /\
        form_value mg_get_var body "id_hex" 64 = Some id_hex /\
        stored dir (w_files w) persisted /\ requested dir mode action id_hex persisted (w_files w') config /\
        ((rc_replacement_mode active = cfg_mode config /\ rc_virtual_id_length active = 32 /\
          rc_profile_fingerprint active = cfg_profile_fingerprint config) \/
         exists n, let slot := kernel_config (after session to_num daemon_pid found monitor reads pid tid n
                                                kApply (w_files w')) in
           runs_as config slot /\ rc_config_generation slot = rc_config_generation active + 1)).
Proof.
  intros HB Hfuel Hdir Hf Hnum Hflips Hfound Hactive Hreads.
  pose proof (live_generation session to_num daemon_pid found monitor reads delivered pid tid active Hnum
    Hflips Hfound Hactive) as Hgeneration.
  destruct (wp_total _ _ _ (wp_handle_post False B fuel (or_intror (conj HB Hfuel)) mg_get_var _
    Hgeneration owner_view dir Hdir now "/api/apply" body s w Hf)) as ([r s'] & w' & Hrun & Heffect & _).
  exists r, s', w'. split; [exact Hrun|]. intros Hcode.
  destruct Heffect as [[_ Hno]|(Hauth & _ & mode & action & id_hex & Hm & Ha & Hh & _ & _ & Hend & _)];
    [by destruct (Hno eq_refl)|].
  split; [exact Hauth|]. exists mode, action, id_hex.
  destruct (Hend Hcode) as [(_ & current & config & (Hstatus & persisted & Hstored & Hreq) & Hsame)|
    (content & applied & Hcontent & Hreplaced & Happlied)].
  - exists persisted, config. do 5 (split; [done|]). left.
    destruct (status_active session to_num daemon_pid found monitor reads delivered pid tid active Hnum Hflips
      Hfound Hactive _ _ Hstatus) as (_ & Hfp & Hmode & Hlen).
    unfold no_op in Hsame. rewrite !andb_true_iff, !Z.eqb_eq in Hsame. destruct Hsame as [[E1 E2] E3].
    rewrite <-Hfp, <-Hmode, <-Hlen, E1, E2, E3. split; [done|]. split; [|done]. by destruct Hreq.
  - destruct (applied_runs session to_num daemon_pid found monitor reads delivered pid tid active dir Hdir Hnum
      Hflips Hfound Hactive Hreads _ _ _ _ _ _ _ Hcontent Hreplaced Happlied)
      as (persisted & config & n & Hstored & Hreq & Hruns).
    exists persisted, config. do 5 (split; [done|]). right. by exists n.
Qed.

(** * A concrete run *)

(** The daemon of the demonstration reads the file on a system that answers every call. *)
Definition demo_reads (n : nat) (f : files_t) : KModErr * ReplacementConfig :=
  match read_runtime_control_file (H := calm_system) 200 (Some (default_runtime_control_path (Some "/data/m")))
          (initial_world f) with
  | Some (result, _) => result
  | None => (ERR_MODULE_STORAGE_READ, zero_config)
  end.

Lemma demo_reads_control n f : reads_control "/data/m" f (demo_reads n f).
Proof.
  assert (Hfuel : enough (H := calm_system) False 1 200 128) by (right; split; [exact calm_responsive|lia]).
  destruct (wp_total _ _ _ (wp_read_runtime_control_file (H := calm_system) False 1 200
    (Some (default_runtime_control_path (Some "/data/m"))) _ (initial_world f) eq_refl Hfuel))
    as (result & w' & Hrun & _).
  exists calm_system, 200%nat, w'. unfold demo_reads. by rewrite Hrun.
Qed.

#[local] Abbreviation demo_live :=
  (@live_daemon demo_calls demo_session demo_number 321 (fun _ => demo_state) (fun _ => initial_monitor)
     demo_reads (fun _ => OK) 10 11).
#[local] Abbreviation demo_after n f :=
  (kernel_config (@after demo_calls demo_session demo_number 321 (fun _ => demo_state)
     (fun _ => initial_monitor) demo_reads 10 11 n kApply f)).
#[local] Abbreviation demo_applied :=
  (handle_post (H := calm_system) 200 demo_form demo_live demo_owner (on_prepare_create (Some "/data/m"))
     3000 "/api/apply" "" demo_web_session demo_world) (only parsing).

(** The form asks for the identifier 01 02 .. 20 to be written; the context has another. *)
Lemma demo_applied_code : (fun r => rp_code r.1.1) <$> demo_applied = Some 200.
Proof. vm_compute. reflexivity. Qed.

Lemma demo_number_ok err : u32 (demo_number err) = 0 -> err = OK.
Proof. unfold demo_number. by destruct err. Qed.

Lemma applied_in_kernel_witness :
  exists r s' w', demo_applied = Some ((r, s'), w') /\ rp_code r = 200 /\
    exists config, cfg_mode config = mode_num kWriteTest /\ take 32 (cfg_virtual_id config) = seqZ 1 32 /\
      exists n, runs_as config (demo_after n (w_files w')).
Proof.
  destruct (applied_in_kernel (H := calm_system) (H0 := demo_calls) 1 200 demo_form demo_owner "/data/m" 3000 ""
    demo_web_session demo_world demo_session demo_number 321 (fun _ => demo_state) (fun _ => initial_monitor)
    demo_reads (fun _ => OK) 10 11 (kernel_config demo_state) calm_responsive)
    as (r & s' & w' & Hrun & Hdone).
  - lia.
  - discriminate.
  - exact demo_files_ok.
  - exact demo_number_ok.
  - intros n Hexec. reflexivity.
  - intros n. split; reflexivity.
  - split; [discriminate|reflexivity].
  - exact demo_reads_control.
  - pose proof demo_applied_code as Hcode. rewrite Hrun in Hcode. apply (inj Some) in Hcode.
    exists r, s', w'. split; [exact Hrun|]. split; [exact Hcode|].
    destruct (Hdone Hcode) as (_ & mode & action & id_hex & persisted & config & Hm & Ha & Hh & _ & Hreq & Hend).
    exists config. destruct Hreq as [Hmode _ Hfp Hid _].
    assert (mode = "write") as -> by (by apply (inj Some) in Hm).
    assert (action = "custom") as -> by (by apply (inj Some) in Ha).
    assert (id_hex = hex_text (seqZ 1 32)) as -> by (by apply (inj Some) in Hh).
    assert (Heq : take 32 (cfg_virtual_id config) = seqZ 1 32).
    { clear - Hid. destruct Hid as [Hx|? ? ? Hx|? Hx|id _ Hid]; [discriminate Hx..|].
      vm_compute in Hid. apply (inj Some) in Hid as <-. vm_compute. reflexivity. }
    split; [exact Hmode|]. split; [exact Heq|].
    destruct Hend as [(_ & _ & Hactive)|(n & Hruns & _)]; [|by exists n].
    exfalso. rewrite Hfp in Hactive. change kVirtualIdBytes with 32%nat in Hactive.
    rewrite Heq in Hactive. vm_compute in Hactive. discriminate Hactive.
Defined.
