(* ===== verification/Returns.v ===== *)
(** The daemon's file operations return: on a system that answers one of any [B] calls
    every one of them comes to its end, whatever the files hold and whatever its
    arguments are.  The transfer loops are the only loops, so an instance per loop
    and one per way of composing calls carry all of them. *)

From S2P Require Import Prelude Posix Records Slots RuntimeControl RuntimeProfile Resolver CapabilityRecord FileLifecycle OriginalFingerprint.

(** A computation that returns from every world. *)
Class Returns {A} (m : io A) : Prop := returns : forall w, is_Some (m w).

#[global] Hint Mode Returns - ! : typeclass_instances.

#[global] Instance returns_ret {A} (a : A) : Returns (mret a).
Proof. intros w. by eexists. Qed.

#[global] Instance returns_bind {A B} (m : io A) (k : A -> io B) :
  Returns m -> (forall a, Returns (k a)) -> Returns (a ← m; k a).
Proof.
  intros Hm Hk w. destruct (Hm w) as [[a w'] E]. unfold mbind, io_bind. rewrite E. apply Hk.
Qed.

Lemma returns_wp {A} (m : io A) (Q : A -> World -> Prop) w : wp False m Q w -> is_Some (m w).
Proof. intros (a & w' & -> & _)%wp_total. by eexists. Qed.

Section Calls.
Context `{OperatingSystem}.

#[global] Instance returns_next : Returns next.
Proof. intros w. by eexists. Qed.

#[global] Instance returns_get : Returns get_files.
Proof. intros w. by eexists. Qed.

#[global] Instance returns_put f : Returns (put_files f).
Proof. intros w. by eexists. Qed.

#[global] Instance returns_sys_ok : Returns sys_ok.
Proof. apply _. Qed.

#[global] Instance returns_open_directory path : Returns (sys_open_directory path).
Proof. apply _. Qed.

#[global] Instance returns_open_read path : Returns (sys_open_read path).
Proof. apply _. Qed.

#[global] Instance returns_open_write exclusive path : Returns (sys_open_write exclusive path).
Proof. apply returns_bind; [apply _|]. intros o. apply returns_bind; [apply _|]. intros f.
  destruct o; [destruct (_ && _)|..]; apply _.
Qed.

#[global] Instance returns_read content offset want : Returns (sys_read content offset want).
Proof. apply _. Qed.

#[global] Instance returns_unlink path : Returns (sys_unlink path).
Proof. apply returns_bind; [apply _|]. intros o. apply returns_bind; [apply _|]. intros f.
  destruct o; apply _.
Qed.

#[global] Instance returns_rename from to : Returns (sys_rename from to).
Proof. apply returns_bind; [apply _|]. intros o. apply returns_bind; [apply _|]. intros f.
  destruct o, (f !! from); apply _.
Qed.

#[global] Instance returns_and a b : Returns a -> Returns b -> Returns (io_and a b).
Proof. intros Ha Hb. apply returns_bind; [done|]. intros []; apply _. Qed.

End Calls.

(** Case analysis down to calls and compositions. *)
Ltac each_returns :=
  repeat match goal with
  | |- Returns (mbind _ _) => apply returns_bind; [|intros ?]
  | |- Returns (match ?x with _ => _ end) => destruct x
  | |- Returns (let '_ := ?x in _) => destruct x
  | |- Returns _ => solve [apply _]
  end.

Section Operations.
Context `{OperatingSystem}.
Context (B fuel : nat) (HB : responsive B) (Hfuel : (B * 300 <= fuel)%nat).

Lemma budget_fresh n w : (n < 300)%nat -> budget False B fuel B n w.
Proof. intros Hn. apply budget_start. right. split; [done|nia]. Qed.

Lemma returns_read_loop content size :
  (size < 300)%nat -> Returns (read_loop fuel content size []).
Proof.
  intros Hs w. apply (returns_wp _ (fun _ _ => True)). change [] with (take 0 content).
  apply (wp_read_loop False B fuel B content size 0); [lia|lia| |done].
  rewrite Nat.sub_0_r. by apply budget_fresh.
Qed.

Lemma returns_write_loop path data : (length data < 300)%nat -> Returns (write_loop fuel path data).
Proof.
  intros Hl w. assert (Hgen : forall fuel s data w, budget False B fuel s (length data) w ->
    is_Some (write_loop fuel path data w)); [|apply (Hgen fuel B); by apply budget_fresh].
  clear. induction fuel as [|fuel IH]; intros s data w Hb; [by apply budget_zero in Hb|].
  destruct data as [|x data]; [by eexists|]. cbn [write_loop].
  set (w' := Build_World (w_files w) (S (w_calls w)) (w_trace w)).
  unfold mbind, io_bind, sys_write, next, mbind, io_bind, get_files. cbn. fold w'.
  destruct (outcome_of (w_calls w)) as [limit| |] eqn:E; cbn; [| |by eexists].
  - destruct (transfer_pos limit (S (length data)) (Nat.lt_0_succ _)) as [Hpos Hle].
    destruct (transfer limit (S (length data))) as [|k]; [lia|]. cbn.
    rewrite length_take_le by lia. apply (IH B).
    eapply budget_progress; [exact Hb|]. rewrite length_drop. cbn [length]. lia.
  - apply (IH (s - 1)%nat). by eapply budget_interrupted; [exact Hb|..].
Qed.

(** * The records are short, whatever the words in them *)

Lemma copy_id_short id n : 0 <= n <= 64 -> (length (copy_id id n) <= 64)%nat.
Proof. intros Hn. unfold copy_id. rewrite length_app, length_take, length_replicate. lia. Qed.

Lemma v3_short config :
  validate_config config = true ->
  (length (bytes_of (seal_v3_record (make_v3_record config))) < 300)%nat.
Proof.
  intros Hv%validate_config_length. cbn.
  rewrite !length_app, !le_enc_length.
  pose proof (copy_id_short (cfg_virtual_id config) (cfg_virtual_id_length config)). lia.
Qed.

Lemma capability_short kernel_release resolution :
  (String.length kernel_release < 64)%nat ->
  (length (bytes_of (make_capability_record kernel_release resolution)) < 300)%nat.
Proof.
  intros Hl. cbn. rewrite !length_app, !le_enc_length. unfold text_field.
  rewrite !length_app, !length_replicate, !bytes_of_string_length.
  unfold binder_resolution_source_name. destruct (_ || _); cbn; lia.
Qed.

(** * The operations *)

#[global] Instance returns_read_exact_record {Record} `{Layout Record} path :
  (size_of Record < 300)%nat -> Returns (read_exact_record (Record := Record) fuel path).
Proof. intros Hs. unfold read_exact_record. each_returns. by apply returns_read_loop. Qed.

Lemma returns_read_control path : Returns (read_runtime_control_file fuel path).
Proof.
  unfold read_runtime_control_file. each_returns. apply returns_read_exact_record. cbn. lia.
Qed.

Lemma returns_write_control path config : Returns (write_runtime_control_file fuel path config).
Proof.
  unfold write_runtime_control_file. destruct (c_path path); [|apply _].
  destruct (validate_config config) eqn:E; cbn [negb]; [|apply _].
  unfold write_record. each_returns. by apply returns_write_loop, v3_short.
Qed.

Lemma returns_migrate path : Returns (migrate_runtime_control_v2 fuel path).
Proof.
  unfold migrate_runtime_control_v2.
  pose proof returns_read_control. pose proof returns_write_control.
  each_returns; apply returns_read_exact_record; cbn; lia.
Qed.

Lemma returns_load regenerate dir : Returns (load_or_create_runtime_profile fuel regenerate dir).
Proof. intros w. apply (load_terminates B); [done|lia]. Qed.

Lemma returns_capture property dir :
  Returns (capture_original_id_fingerprint_if_missing fuel property dir).
Proof.
  destruct dir as [[|c dir]|]; [intros w; by eexists| |intros w; by eexists].
  intros w. eapply returns_wp, (wp_capture False B); [done|]. right. split; [done|lia].
Qed.

Lemma returns_write_capability path kernel_release resolution :
  Returns (write_binder_capability_status fuel path kernel_release resolution).
Proof.
  unfold write_binder_capability_status. destruct (c_path path); [|apply _].
  destruct (_ || _) eqn:E; [apply _|]. apply orb_false_iff in E as [E _].
  apply orb_false_iff in E as [_ E%Nat.leb_gt]. each_returns.
  by apply returns_write_loop, capability_short.
Qed.

Lemma returns_write_pid lock_path pid :
  (length (pid_text pid) < 300)%nat -> Returns (write_daemon_lock_pid fuel lock_path pid).
Proof.
  intros Hl. unfold write_daemon_lock_pid. each_returns.
  apply returns_and; [by apply returns_write_loop|apply _].
Qed.

End Operations.
