(* ===== verification/ModuleProbe.v ===== *)
(** The run of the module's daemon (module_main.cpp, run_readonly_parser_probe): the
    gates in front of the installation, the hook's life, and its removal.  The
    operations are those of the other files; this one puts them together, and keeps
    a log of what the run does to the kernel and to the Binder descriptor. *)

From S2P Require Import Prelude KernelContext Slots Checksum Sha256 Records Posix RuntimeControl RuntimeProfile HalIdentity ControlIpc SocketIo Monitor ControlServer HookSite Resolver Release CapabilityRecord Startup FileLifecycle OriginalFingerprint Returns.

(** * The offsets of a task's identity *)

(** src/binder_hook_builder.h:11-14 [TaskIdentityOffsets] *)
Record TaskIdentityOffsets := {
  ti_pid : Z;
  ti_tgid : Z;
}.

(** What the SDK and the kernel answer; [task_word] is the 32-bit word at an offset
    of the calling thread's task. *)
Class TaskProbe := {
  get_task_struct_pid_offset : KModErr * Z;
  get_task_struct_tgid_offset : KModErr * Z;
  task_asm_failed : bool;
  task_exec : KModErr;
  task_word : Z -> Z;
  gettid : Z;
}.

(** src/binder_hook_builder.cpp:1605-1610 [resolve_and_validate_task_identity_offsets] *)
Definition packed_identity `{TaskProbe} (offsets : TaskIdentityOffsets) : Z :=
  Z.lor (u32 (task_word (ti_pid offsets))) (u64 (Z.shiftl (u32 (task_word (ti_tgid offsets))) 32)).

(** src/binder_hook_builder.cpp:1595-1630 [resolve_and_validate_task_identity_offsets] *)
Definition resolve_and_validate_task_identity_offsets `{OperatingSystem} `{TaskProbe}
    : KModErr * TaskIdentityOffsets :=
  let '(pid_err, pid) := get_task_struct_pid_offset in
  if is_failed pid_err then (pid_err, Build_TaskIdentityOffsets pid 0)
  else
    let '(tgid_err, tgid) := get_task_struct_tgid_offset in
    let offsets := Build_TaskIdentityOffsets pid tgid in
    if is_failed tgid_err then (tgid_err, offsets)
    else if task_asm_failed then (ERR_MODULE_ASM, offsets)
    else if is_failed task_exec then (task_exec, offsets)
    else
      let packed := packed_identity offsets in
      if negb (u32 packed =? u32 gettid) || negb (u32 (Z.shiftr packed 32) =? u32 (Z.of_N getpid))
      then (ERR_MODULE_OFFSET_NOT_FOUND, Build_TaskIdentityOffsets 0 0)
      else (OK, offsets).

Lemma packed_halves a b :
  0 <= a < 2 ^ 32 -> 0 <= b < 2 ^ 32 ->
  u32 (Z.lor a (u64 (Z.shiftl b 32))) = a /\ u32 (Z.shiftr (Z.lor a (u64 (Z.shiftl b 32))) 32) = b.
Proof.
  intros Ha Hb. rewrite Z.shiftl_mul_pow2 by done. rewrite u64_small by lia.
  rewrite <-Z.shiftl_mul_pow2 by done. unfold u32. rewrite <-!Z.land_ones by done.
  split; apply Z.bits_inj'; intros n Hn; rewrite Z.land_spec.
  - rewrite Z.lor_spec, Z.testbit_ones_nonneg by lia. destruct (Z.ltb_spec n 32).
    + rewrite Z.shiftl_spec_low by lia. by rewrite orb_false_r, andb_true_r.
    + rewrite andb_false_r. symmetry. by apply (testbit_above a 32).
  - rewrite Z.shiftr_spec, Z.lor_spec, Z.shiftl_spec by lia. rewrite (testbit_above a 32) by lia.
    replace (n + 32 - 32) with n by lia. rewrite Z.testbit_ones_nonneg by lia. cbn [orb].
    destruct (Z.ltb_spec n 32); [by rewrite andb_true_r|].
    rewrite andb_false_r. symmetry. by apply (testbit_above b 32).
Qed.

(** The words at the offsets are the thread's and the process's numbers. *)
Definition own_identity `{OperatingSystem} `{TaskProbe} (offsets : TaskIdentityOffsets) : Prop :=
  u32 (task_word (ti_pid offsets)) = u32 gettid /\
  u32 (task_word (ti_tgid offsets)) = u32 (Z.of_N getpid).

Lemma identity_validated `{OperatingSystem} `{TaskProbe} offsets :
  resolve_and_validate_task_identity_offsets = (OK, offsets) -> own_identity offsets.
Proof.
  unfold resolve_and_validate_task_identity_offsets.
  destruct get_task_struct_pid_offset as [e1 pid]. destruct (is_failed e1) eqn:E1; [by intros [= ->]|].
  destruct get_task_struct_tgid_offset as [e2 tgid]. destruct (is_failed e2) eqn:E2; [by intros [= ->]|].
  destruct task_asm_failed; [done|]. destruct (is_failed task_exec) eqn:E3; [by intros [= Hf]; rewrite Hf in E3|].
  cbv zeta. destruct (_ || _) eqn:E; [done|]. intros [= <-].
  apply orb_false_iff in E as [Ep%negb_false_iff%Z.eqb_eq Et%negb_false_iff%Z.eqb_eq].
  unfold packed_identity in *. cbn [ti_pid ti_tgid] in *.
  destruct (packed_halves (u32 (task_word pid)) (u32 (task_word tgid))) as [Hlow Hhigh]; [apply u32_range..|].
  rewrite Hlow in Ep. rewrite Hhigh in Et. by split.
Qed.

(** * The run's surroundings *)

(** [strtoul] in base 10 on any text: what follows the digits is ignored, a minus sign
    negates modulo 2^64, and a value out of range is the largest one. *)
Definition strtoul10 (text : string) : Z :=
  let value text := (digits_at 0 0 text).1.1 in
  let unsigned v := if UINT64_MAX <? v then UINT64_MAX else v in
  match skip_space_bytes (bytes_of_string text) with
  | 45 :: text =>
      if UINT64_MAX <? value text then UINT64_MAX else u64 (- value text)
  | 43 :: text => unsigned (value text)
  | text => unsigned (value text)
  end.

(** [atoi]: [strtol], which saturates, cut down to an int. *)
Definition atoi (text : string) : Z :=
  let value text := (digits_at 0 0 text).1.1 in
  let signed v := Z.max (- LONG_MAX - 1) (Z.min LONG_MAX v) in
  i32 (match skip_space_bytes (bytes_of_string text) with
       | 45 :: text => signed (- value text)
       | 43 :: text => signed (value text)
       | text => signed (value text)
       end).

(** What the run finds: the environment variables, the boot property at every poll,
    what every sample of the system shows, the DRM framework's answer, the platform,
    the descriptor each device path opens to, procfs, the outcome of the
    installation and of the removal, the handler's traffic on the context between
    two operations, and what reaches the socket server. *)
Record Surroundings := {
  en_getenv : string -> option string;
  en_boot : nat -> string;
  en_ticks : Z;
  en_views : nat -> SystemView;
  en_drm : option (list Z);
  en_api_level : Z;
  en_arm64 : bool;
  en_kernel_version : string;
  en_open : string -> option Z;
  en_proc : ProcFs;
  en_install : install_io;
  en_uninstall : KModErr;
  en_traffic : nat -> KernelCounterContext -> KernelCounterContext;
  en_ioctl : nat -> bool;
  en_setup : setup_io;
  en_iterations : list (bool * iteration);
  en_to_num : KModErr -> Z;
  en_readdir : gmap string node -> string -> list string;
}.

(** What the run has done, oldest first. *)
Inductive event :=
  | LockTaken
  | LockReleased
  | BinderOpened (fd : Z)
  | HookInstalled (target : Z) (offsets : TaskIdentityOffsets) (config : ReplacementConfig)
      (identities : HalIdentityConfig)
  | HookRemoved
  | BinderClosed (fd : Z).

Record Machine := {
  mc_world : World;
  mc_kernel : KState;
  mc_log : list event;
}.

(** A stage: it stops the run with a result, or goes on; [None] when it has not come to
    its end: a loop whose fuel is spent, or the server, which goes on serving behind
    the iterations that have been looked at. *)
Definition stage (A : Type) : Type := Machine -> option ((KModErr + A) * Machine).

#[global] Instance stage_ret : MRet stage := fun A a s => Some (inr a, s).
#[global] Instance stage_bind : MBind stage := fun A B k m s =>
  match m s with
  | Some (inr a, s') => k a s'
  | Some (inl err, s') => Some (inl err, s')
  | None => None
  end.

Definition stop {A} (err : KModErr) : stage A := fun s => Some (inl err, s).
Definition log (e : event) : stage unit := fun s =>
  Some (inr tt, Build_Machine (mc_world s) (mc_kernel s) (mc_log s ++ [e])).

Definition on_files {A} (m : io A) : stage A := fun s =>
  match m (mc_world s) with
  | Some (a, w) => Some (inr a, Build_Machine w (mc_kernel s) (mc_log s))
  | None => None
  end.
Definition on_kernel {A} (m : kio A) : stage A := fun s =>
  let '(a, k) := m (mc_kernel s) in Some (inr a, Build_Machine (mc_world s) k (mc_log s)).

(** A cleanup sees the daemon's files as regular files; what it leaves is one new
    state of the files. *)
Definition on_tree {A} (m : fs A) : stage A := fun s =>
  let w := mc_world s in
  let '(a, t) := m {| tr_nodes := Regular <$> w_files w; tr_calls := w_calls w |} in
  let files := omap (fun n => match n with Regular c => Some c | _ => None end) (tr_nodes t) in
  Some (inr a, Build_Machine (Build_World files (tr_calls t) (files :: w_trace w))
                 (mc_kernel s) (mc_log s)).

(** [access] with F_OK. *)
Definition sys_access `{OperatingSystem} (path : string) : io bool :=
  o ← next; f ← get_files;
  mret (match o with Done _ => bool_decide (is_Some (f !! path)) | _ => false end).

Section Run.
Context `{OperatingSystem} `{TaskProbe} `{KernelProbe} `{KernelCalls}.
Context (fuel : nat) (en : Surroundings) (module_private_dir : option string).

Definition env_set (name : string) : bool := bool_decide (is_Some (en_getenv en name)).

(** src/module_main.cpp:327-327 [run_readonly_parser_probe] *)
Definition daemon_mode : bool := env_set "DRMID_DAEMON_MODE".

(** The variable's number when it is set and at most [limit]. *)
Definition bounded_variable (name : string) (limit default : Z) : Z :=
  match en_getenv en name with
  | Some text => let requested := strtoul10 text in if requested <=? limit then requested else default
  | None => default
  end.

(** * Before the profile *)

(** src/module_main.cpp:330-335 [run_readonly_parser_probe] *)
Definition remove_stale_capability : stage unit :=
  let stale := default_binder_capability_path module_private_dir in
  if bool_decide (stale = EmptyString) then mret tt
  else _ ← on_files (sys_unlink stale); on_files (sys_unlink (stale +:+ ".tmp")).

(** src/module_main.cpp:337-344 [run_readonly_parser_probe] *)
Definition private_cleanup_marker : string :=
  match module_private_dir with
  | None | Some EmptyString => EmptyString
  | Some dir =>
      (if Nat.eqb (after_last_slash dir 0 0) (String.length dir) then dir else dir +:+ "/")
      +:+ "webroot/drmid_boot_cleanup.flag"
  end.

(** src/module_main.cpp:345-351 [run_readonly_parser_probe] *)
Definition honour_cleanup_marker : stage unit :=
  if daemon_mode && negb (bool_decide (private_cleanup_marker = EmptyString)) then
    marked ← on_files (sys_access private_cleanup_marker);
    if (marked : bool) then
      _ ← on_tree (cleanup_module_state_files (en_readdir en) module_private_dir); stop OK
    else mret tt
  else mret tt.

(** src/module_main.cpp:37-37 [kDefaultBootWaitTimeoutMs] *)
Definition kDefaultBootWaitTimeoutMs : Z := 180000.

(** src/module_main.cpp:374-374 [kBootPollMs] *)
Definition kBootPollMs : Z := 500.

(** Whether the boot completed before the limit; [poll] counts the polls. *)

(** src/module_main.cpp:361-378 [run_readonly_parser_probe] *)
Fixpoint boot_wait (rounds : nat) (boot_wait_ms boot_elapsed_ms : Z) (poll : nat) : option bool :=
  match rounds with
  | O => None
  | S rounds =>
      if String.eqb (en_boot en poll) "1" then Some true
      else if boot_wait_ms <=? boot_elapsed_ms then Some false
      else boot_wait rounds boot_wait_ms (u32 (boot_elapsed_ms + kBootPollMs)) (S poll)
  end.

(** src/module_main.cpp:353-382 [run_readonly_parser_probe] *)
Definition wait_for_boot : stage unit := fun s =>
  match boot_wait 1202 (bounded_variable "DRMID_BOOT_WAIT_MS" 600000 kDefaultBootWaitTimeoutMs) 0 0 with
  | Some true => Some (inr tt, s)
  | Some false => Some (inl ERR_MODULE_NO_BOOT, s)
  | None => None
  end.

(** The result of the wait is only reported. *)

(** src/module_main.cpp:388-396 [run_readonly_parser_probe] *)
Definition wait_for_readiness : stage unit := fun s =>
  match wait_for_adaptive_startup_readiness 600 (en_ticks en)
          (startup_readiness_policy_from_environment (en_getenv en)) (en_views en) with
  | Some _ => Some (inr tt, s)
  | None => None
  end.

(** src/module_main.cpp:327-406 [run_readonly_parser_probe] *)
Definition prepare_daemon : stage unit :=
  _ ← (if daemon_mode then
         _ ← on_tree (cleanup_legacy_public_artifacts (en_readdir en)); remove_stale_capability
       else mret tt);
  _ ← honour_cleanup_marker;
  if daemon_mode then
    _ ← wait_for_boot;
    _ ← wait_for_readiness;
    _ ← on_files (capture_original_id_fingerprint_if_missing fuel (en_drm en) module_private_dir);
    mret tt
  else mret tt.

(** * The profile and the platform *)

(** src/module_main.cpp:407-427 [run_readonly_parser_probe] *)
Definition load_profile : stage RuntimeProfile :=
  '(err, profile) ← on_files (load_or_create_runtime_profile fuel
                      (env_set "DRMID_REGENERATE_SEED") module_private_dir);
  if is_failed err then stop err
  else if env_set "DRMID_CONFIG_ONLY" then stop OK
  else mret profile.

(** src/module_main.cpp:429-444 [run_readonly_parser_probe] *)
Definition platform_gate : stage unit :=
  if (en_api_level en <? 34) || negb (en_arm64 en) ||
     negb (is_supported_linux_6_1_or_newer (en_kernel_version en))
  then stop ERR_MODULE_SYMBOL_NOT_MATCH_LINUX_VER else mret tt.

(** src/module_main.cpp:42-55 [open_binder_driver] *)
Definition open_binder_driver : option Z :=
  match en_open en "/dev/binder" with
  | Some fd => Some fd
  | None => en_open en "/dev/binderfs/binder"
  end.

(** Closing the descriptor on the way out. *)
Definition close_and_stop {A} (fd : Z) (err : KModErr) : stage A := _ ← log (BinderClosed fd); stop err.

(** src/module_main.cpp:446-454 [run_readonly_parser_probe] *)
Definition open_binder : stage Z :=
  match open_binder_driver with
  | None => stop ERR_MODULE_OPEN_FILE
  | Some fd => _ ← log (BinderOpened fd); mret fd
  end.

(** * The target *)

(** src/module_main.cpp:456-473 [run_readonly_parser_probe] *)
Definition resolve_target (fd : Z) : stage BinderIoctlResolution :=
  match resolve_binder_ioctl_from_fd fd with
  | inl err => close_and_stop fd err
  | inr resolution =>
      if negb (has_required_binder_capabilities resolution)
      then close_and_stop fd ERR_MODULE_FUNC_NOT_STANDARD
      else mret resolution
  end.

(** Whether the status could be stored is only reported. *)

(** src/module_main.cpp:475-500 [run_readonly_parser_probe] *)
Definition resolve_identity (fd : Z) (resolution : BinderIoctlResolution) : stage TaskIdentityOffsets :=
  _ ← on_files (write_binder_capability_status fuel
        (Some (default_binder_capability_path module_private_dir)) (en_kernel_version en) resolution);
  let '(err, offsets) := resolve_and_validate_task_identity_offsets in
  if is_failed err then close_and_stop fd err
  else if env_set "DRMID_RESOLVE_ONLY" then close_and_stop fd OK
  else mret offsets.

(** * The configuration *)

(** src/module_main.cpp:502-510 [run_readonly_parser_probe] *)
Definition profile_config (write_test : bool) (profile : RuntimeProfile) : ReplacementConfig := {|
  cfg_mode := if write_test then mode_num kWriteTest else mode_num kDryRun;
  cfg_virtual_id_length := kWidevineDeviceUniqueIdBytes;
  cfg_config_generation := 1;
  cfg_seed_generation := seed_generation profile;
  cfg_profile_fingerprint :=
    virtual_id_fingerprint (take (Z.to_nat kWidevineDeviceUniqueIdBytes) (virtual_stream profile));
  cfg_virtual_id := virtual_stream profile |}.

(** src/module_main.cpp:512-518 [run_readonly_parser_probe] *)
Definition runtime_control_path : string :=
  match en_getenv en "DRMID_RUNTIME_CONTROL_FILE" with
  | Some path => path
  | None => if daemon_mode then default_runtime_control_path module_private_dir else EmptyString
  end.

(** src/module_main.cpp:539-571 [run_readonly_parser_probe] *)
Definition restore_config (fd : Z) (config : ReplacementConfig) : stage ReplacementConfig :=
  '(persisted_err, persisted) ← on_files (read_runtime_control_file fuel (Some runtime_control_path));
  if is_ok persisted_err then
    let actual := virtual_id_fingerprint
                    (take (Z.to_nat (cfg_virtual_id_length persisted)) (cfg_virtual_id persisted)) in
    if (actual =? 0) || negb (actual =? cfg_profile_fingerprint persisted)
    then close_and_stop fd ERR_MODULE_STORAGE_TYPE
    else mret persisted
  else if bool_decide (persisted_err = ERR_MODULE_STORAGE_NOT_FOUND) then
    err ← on_files (write_runtime_control_file fuel (Some runtime_control_path) config);
    if is_failed err then close_and_stop fd err else mret config
  else close_and_stop fd persisted_err.

(** src/module_main.cpp:519-572 [run_readonly_parser_probe] *)
Definition choose_config (fd : Z) (config : ReplacementConfig) : stage ReplacementConfig :=
  if daemon_mode && negb (bool_decide (runtime_control_path = EmptyString)) then
    '(err, migrated) ← on_files (migrate_runtime_control_v2 fuel (Some runtime_control_path));
    if is_failed err then close_and_stop fd err
    else
      _ ← on_tree (cleanup_legacy_target_state_after_global_migration module_private_dir);
      restore_config fd config
  else mret config.

(** * The installation *)

(** src/module_main.cpp:574-583 [run_readonly_parser_probe] *)
Definition discover_hal (fd : Z) : stage HalIdentityConfig :=
  let '(err, identities, _) := @discover_widevine_hal_identities (en_proc en) (Some "/proc") 1 in
  if is_failed err then close_and_stop fd err else mret identities.

(** src/module_main.cpp:603-614 [run_readonly_parser_probe] *)
Definition install_hook (fd target : Z) (offsets : TaskIdentityOffsets) (config : ReplacementConfig)
    (identities : HalIdentityConfig) : stage CounterHookSession :=
  match install_readonly_parser_hook (en_install en) target config identities with
  | (err, session, Some memory) =>
      if is_failed err then close_and_stop fd err
      else
        _ ← on_kernel (put_kernel memory);
        _ ← log (HookInstalled target offsets config identities); mret session
  | (err, _, None) => close_and_stop fd err
  end.

(** * The hook's life *)

(** What the handler does to the context between two operations of the daemon. *)
Definition traffic : stage unit := on_kernel (
  n ← next_call; k ← get_kernel; put_kernel (with_context (en_traffic en n) k)).

(** src/module_main.cpp:311-323 [note_runtime_control_rejection] *)
Definition note_runtime_control_rejection (session : CounterHookSession) : kio KModErr :=
  increment_rejections session.

(** One poll of the control file: the generation published so far, and the error
    reported last. *)

(** src/module_main.cpp:668-711 [run_readonly_parser_probe] *)
Definition poll_control (session : CounterHookSession) (published : Z) (last_err : KModErr)
    : stage (Z * KModErr) :=
  '(read_err, config) ← on_files (read_runtime_control_file fuel (Some runtime_control_path));
  if is_ok read_err then
    if published <? cfg_config_generation config then
      publish_err ← on_kernel (publish_config session config);
      if is_failed publish_err
      then _ ← on_kernel (note_runtime_control_rejection session); mret (published, OK)
      else mret (cfg_config_generation config, OK)
    else mret (published, OK)
  else if negb (bool_decide (read_err = ERR_MODULE_STORAGE_NOT_FOUND)) &&
          negb (bool_decide (read_err = last_err))
  then _ ← on_kernel (note_runtime_control_rejection session); mret (published, read_err)
  else mret (published, last_err).

(** src/module_main.cpp:664-714 [run_readonly_parser_probe] *)
Fixpoint control_polling (rounds : nat) (session : CounterHookSession) (poll_ms observation_ms : Z)
    (elapsed_ms published : Z) (last_err : KModErr) : stage unit :=
  match rounds with
  | O => fun _ => None
  | S rounds =>
      if elapsed_ms <? observation_ms then
        '(published, last_err) ← poll_control session published last_err;
        _ ← traffic;
        control_polling rounds session poll_ms observation_ms (elapsed_ms + poll_ms) published last_err
      else mret tt
  end.

(** src/module_main.cpp:736-746 [run_readonly_parser_probe] *)
Fixpoint wait_for_file (rounds : nat) (until_file : string) (observation_ms elapsed_ms : Z) : io unit :=
  match rounds with
  | O => io_diverge
  | S rounds =>
      if elapsed_ms <? observation_ms then
        seen ← sys_access until_file;
        if (seen : bool) then mret tt else wait_for_file rounds until_file observation_ms (elapsed_ms + 1)
      else mret tt
  end.

(** src/module_main.cpp:642-650 [run_readonly_parser_probe] *)
Definition observation_window : Z :=
  let default := if daemon_mode then 0 else 750 in
  match en_getenv en "DRMID_OBSERVE_MS" with
  | Some value => let requested := atoi value in
      if (0 <=? requested) && (requested <=? 60000) then requested else default
  | None => default
  end.

(** src/module_main.cpp:656-663 [run_readonly_parser_probe] *)
Definition control_poll_ms : Z :=
  match en_getenv en "DRMID_RUNTIME_CONTROL_POLL_MS" with
  | Some text => let requested := atoi text in
      if (5 <=? requested) && (requested <=? 1000) then requested else 25
  | None => 25
  end.

(** The commands a variable may name run outside the module; what they cause at the
    hook is traffic. *)

(** src/module_main.cpp:642-750 [run_readonly_parser_probe] *)
Definition observe (session : CounterHookSession) (config : ReplacementConfig) : stage unit :=
  let rounds := S (Z.to_nat observation_window) in
  if 0 <? observation_window then
    if negb daemon_mode && negb (bool_decide (runtime_control_path = EmptyString))
    then control_polling rounds session control_poll_ms observation_window 0
           (cfg_config_generation config) OK
    else if env_set "DRMID_ROOT_DEVICE_TRIGGER" || env_set "DRMID_DEVICE_TRIGGER" then traffic
    else match en_getenv en "DRMID_OBSERVE_UNTIL_FILE" with
         | Some until_file =>
             _ ← on_files (wait_for_file rounds until_file observation_window 0);
             _ ← on_files (sys_access until_file); traffic
         | None => traffic
         end
  else mret tt.

(** src/module_main.cpp:32-32 [kSelfTestIoctlCount] *)
Definition kSelfTestIoctlCount : nat := 8.

(** src/module_main.cpp:629-641 [run_readonly_parser_probe] *)
Definition successful_ioctls : nat := length (filter (fun i => en_ioctl en i = true) (seq 0 kSelfTestIoctlCount)).

(** src/module_main.cpp:307-309 [delta] *)
Definition delta (after before : Z) : Z := u64 (after - before).

(** The counters the eight calls must have moved. *)

(** src/module_main.cpp:754-784 [run_readonly_parser_probe] *)
Definition self_test_passed (before after : KernelCounterContext) : bool :=
  Nat.eqb successful_ioctls kSelfTestIoctlCount &&
  forallb (fun w => Z.of_nat kSelfTestIoctlCount <=? delta (kc_words after w) (kc_words before w))
    [pre_calls; post_calls; bwr_calls; pre_header_ok; post_header_ok].

(** src/module_main.cpp:625-784 [run_readonly_parser_probe] *)
Definition self_test (session : CounterHookSession) (config : ReplacementConfig) : stage KModErr :=
  _ ← traffic;
  '(err, before) ← on_kernel (snapshot_kernel session);
  match before with
  | None => mret err
  | Some before =>
      _ ← traffic;
      _ ← observe session config;
      '(err, after) ← on_kernel (snapshot_kernel session);
      match after with
      | None => mret err
      | Some after => mret (if self_test_passed before after then OK else ERR_MODULE_TEST_CHANNEL)
      end
  end.

(** src/module_main.cpp:787-792 [run_readonly_parser_probe] *)
Definition control_socket_path : string :=
  match en_getenv en "DRMID_CONTROL_SOCKET_PATH" with
  | Some path => path
  | None => default_control_socket_path module_private_dir
  end.

(** src/module_main.cpp:793-799 [run_readonly_parser_probe] *)
Definition daemon_max_ms : Z := bounded_variable "DRMID_DAEMON_MAX_MS" 3600000 0.

(** The server has not returned. *)
Definition still_serving {A} : stage A := fun _ => None.

(** src/module_main.cpp:786-817 [run_readonly_parser_probe] *)
Definition serve (session : CounterHookSession) : stage KModErr :=
  if bool_decide (control_socket_path = EmptyString) || bool_decide (runtime_control_path = EmptyString)
  then mret ERR_MODULE_PARAM
  else
    ended ← on_kernel (run_control_socket_server session (en_to_num en) (Z.of_N getpid)
              (en_setup en) (Some control_socket_path) (Some runtime_control_path)
              daemon_max_ms (en_iterations en));
    match ended with
    | None => still_serving
    | Some (err, _) =>
        '(final_err, final) ← on_kernel (snapshot_kernel session);
        mret (if is_ok final_err then err else if is_ok err then final_err else err)
    end.

(** src/module_main.cpp:819-832 [run_readonly_parser_probe] *)
Definition remove_hook (fd : Z) (session : CounterHookSession) (err : KModErr) : stage KModErr :=
  _ ← traffic;
  n ← on_kernel next_call; k ← on_kernel get_kernel;
  let '(remove_err, after) := remove_readonly_parser_hook (en_uninstall en) (read_answer n) k session in
  _ ← (if bool_decide (cs_hook after <> cs_hook session) then log HookRemoved else mret tt);
  _ ← log (BinderClosed fd);
  mret (if is_failed remove_err then remove_err else err).

(** src/module_main.cpp:325-833 [run_readonly_parser_probe] *)
Definition probe_stages : stage KModErr :=
  _ ← prepare_daemon;
  profile ← load_profile;
  _ ← platform_gate;
  fd ← open_binder;
  resolution ← resolve_target fd;
  offsets ← resolve_identity fd resolution;
  config ← choose_config fd (profile_config (env_set "DRMID_WRITE_TEST") profile);
  identities ← discover_hal fd;
  session ← install_hook fd (br_ioctl_kaddr resolution) offsets config identities;
  err ← self_test session config;
  err ← (if is_ok err && daemon_mode then serve session else mret err);
  remove_hook fd session err.

(** src/module_main.cpp:325-833 [run_readonly_parser_probe] *)
Definition run_readonly_parser_probe (s : Machine) : option (KModErr * Machine) :=
  match probe_stages s with
  | Some (inl err, s) | Some (inr err, s) => Some (err, s)
  | None => None
  end.

End Run.

(** * Reasoning about stages *)

(** When a run may have no end yet. *)
Class Unfinished := may_go_on : Prop.

Section Reasoning.
Context `{Unfinished}.

(** The stage comes to an end that satisfies [Q], unless it may go on. *)
Definition swp {A} (m : stage A) (Q : KModErr + A -> Machine -> Prop) (s : Machine) : Prop :=
  match m s with Some (r, s') => Q r s' | None => may_go_on end.

Lemma swp_mono {A} (m : stage A) (Q Q' : KModErr + A -> Machine -> Prop) s :
  swp m Q s -> (forall r s', Q r s' -> Q' r s') -> swp m Q' s.
Proof. unfold swp. destruct (m s) as [[r s']|]; auto. Qed.

Lemma swp_bind {A B} (m : stage A) (k : A -> stage B) Q s :
  swp m (fun r s' => match r with inl err => Q (inl err) s' | inr a => swp (k a) Q s' end) s ->
  swp (a ← m; k a) Q s.
Proof. unfold swp, mbind, stage_bind. by destruct (m s) as [[[err|a] s']|]. Qed.

(** What a stage does to the log: nothing when it goes on, with a result of [F]; when
    it stops the run, the events [on_stop] are added; [None]: it does not stop it. *)
Definition leaves {A} (on_stop : option (list event)) (F : A -> Prop) (m : stage A) : Prop :=
  forall s, swp m (fun r s' =>
    match r with
    | inr a => mc_log s' = mc_log s /\ F a
    | inl _ => exists es, on_stop = Some es /\ mc_log s' = mc_log s ++ es
    end) s.

Lemma leaves_weaken {A} on_stop on_stop' (F G : A -> Prop) m :
  leaves on_stop F m -> (forall es, on_stop = Some es -> on_stop' = Some es) ->
  (forall a, F a -> G a) -> leaves on_stop' G m.
Proof.
  intros Hm Hstop HF s. eapply swp_mono; [apply Hm|]. intros [err|a] s'; [|naive_solver].
  intros (es & Hes & Hs). exists es. auto.
Qed.

Lemma leaves_ret {A} on_stop (F : A -> Prop) a : F a -> leaves on_stop F (mret a).
Proof. by intros Ha s. Qed.

Lemma leaves_bind {A B} on_stop (F : A -> Prop) (G : B -> Prop) (m : stage A) (k : A -> stage B) :
  leaves on_stop F m -> (forall a, F a -> leaves on_stop G (k a)) -> leaves on_stop G (a ← m; k a).
Proof.
  intros Hm Hk s. specialize (Hm s). unfold swp, mbind, stage_bind in *.
  destruct (m s) as [[[err|a] s']|]; [done| |done]. destruct Hm as [Hs Ha].
  specialize (Hk a Ha s'). unfold swp in Hk. rewrite <-Hs. exact Hk.
Qed.

Lemma leaves_stop {A} es (F : A -> Prop) err : es = [] -> leaves (Some es) F (stop err : stage A).
Proof. intros -> s. exists []. by rewrite app_nil_r. Qed.

Lemma leaves_close {A} fd (F : A -> Prop) err :
  leaves (Some [BinderClosed fd]) F (close_and_stop fd err : stage A).
Proof. intros s. by exists [BinderClosed fd]. Qed.

Lemma leaves_files {A} on_stop (m : io A) :
  Returns m -> leaves on_stop (fun _ => True) (on_files m).
Proof. intros Hm s. unfold swp, on_files. by destruct (Hm (mc_world s)) as [[a w] ->]. Qed.

Lemma leaves_kernel {A} on_stop (m : kio A) : leaves on_stop (fun _ => True) (on_kernel m).
Proof. intros s. unfold swp, on_kernel. by destruct (m (mc_kernel s)). Qed.

Lemma leaves_tree {A} on_stop (m : fs A) : leaves on_stop (fun _ => True) (on_tree m).
Proof. intros s. unfold swp, on_tree. by destruct (m _). Qed.

(** Running a stage: what follows starts from the same log. *)
Lemma stage_then {A B} es (F : A -> Prop) (m : stage A) (k : A -> stage B) Q s :
  leaves (Some es) F m ->
  (forall err s', mc_log s' = mc_log s ++ es -> Q (inl err) s') ->
  (forall a s', F a -> mc_log s' = mc_log s -> swp (k a) Q s') ->
  swp (a ← m; k a) Q s.
Proof.
  intros Hm Hstop Hgo. apply swp_bind. eapply swp_mono; [apply Hm|]. intros [err|a] s'.
  - intros (es' & Hes & Hs). apply (inj Some) in Hes as <-. by apply Hstop.
  - intros [Hs Ha]. by apply Hgo.
Qed.

Lemma stage_next {A B} (F : A -> Prop) (m : stage A) (k : A -> stage B) Q s :
  leaves None F m -> (forall a s', F a -> mc_log s' = mc_log s -> swp (k a) Q s') ->
  swp (a ← m; k a) Q s.
Proof.
  intros Hm Hgo. apply swp_bind. eapply swp_mono; [apply Hm|]. intros [err|a] s'.
  - by intros (es' & [=] & _).
  - intros [Hs Ha]. by apply Hgo.
Qed.

End Reasoning.

Create HintDb stages.
#[export] Hint Resolve leaves_ret leaves_files leaves_kernel leaves_tree : stages.
#[export] Hint Extern 1 (leaves (Some []) _ (stop _)) => by apply leaves_stop : stages.
#[export] Hint Extern 1 (leaves _ _ (close_and_stop _ _)) => apply leaves_close : stages.

(** One composition whose first part is a single call. *)
Ltac next_stage :=
  eapply leaves_bind; [first [solve [eauto with stages]|apply leaves_files; apply _]|intros ? _].

#[global] Instance returns_access `{OperatingSystem} path : Returns (sys_access path).
Proof. apply _. Qed.

(** What the server meets makes it return: the signal, the end of its time, a failed
    wait or a well-formed request to stop. *)
Definition server_ends (en : Surroundings) : Prop :=
  Exists (last_visit (daemon_max_ms en)) (en_iterations en).

Section Stages.
Context `{OperatingSystem} `{TaskProbe} `{KernelProbe} `{KernelCalls}.
Context (B fuel : nat) (HB : responsive B) (Hfuel : (B * 300 <= fuel)%nat).
Context (en : Surroundings) (dir : option string).

(** The run goes on only in the server, and as long as nothing ends that. *)
#[local] Instance served_on : Unfinished := daemon_mode en = true /\ ~ server_ends en.

(** * The stages before the descriptor is opened *)

Lemma boot_wait_ends limit rounds elapsed poll :
  0 <= limit <= 600000 -> 0 <= elapsed <= 600500 ->
  (1200 - elapsed / 500 < Z.of_nat rounds - 1) ->
  exists b, boot_wait en rounds limit elapsed poll = Some b /\
    (b = true -> exists n, en_boot en n = "1").
Proof.
  intros Hl. revert elapsed poll. induction rounds as [|rounds IH]; intros elapsed poll He Hr.
  { assert (elapsed / 500 <= 1201) by (Z.to_euclidean_division_equations; lia). lia. }
  cbn [boot_wait]. destruct (String.eqb_spec (en_boot en poll) "1") as [Hboot|].
  { exists true. split; [done|]. intros _. by exists poll. }
  destruct (Z.leb_spec limit elapsed); [by exists false|].
  unfold kBootPollMs. rewrite u32_small by lia. apply IH; [lia|].
  replace (elapsed + 500) with (elapsed + 1 * 500) by lia. rewrite Z.div_add by done. lia.
Qed.

Lemma digits_nonneg value count text : 0 <= value -> 0 <= (digits_at value count text).1.1.
Proof.
  revert value count. induction text as [|b text IH]; intros value count Hv; [done|].
  cbn. destruct (Z.leb_spec 48 b); [|done]. destruct (b <=? 57); [|done]. apply IH. lia.
Qed.

Lemma strtoul10_nonneg text : 0 <= strtoul10 text.
Proof.
  unfold strtoul10. cbv zeta.
  assert (Hv : forall t, 0 <= (digits_at 0 0 t).1.1) by (intros t; by apply digits_nonneg).
  assert (Hu : forall v, 0 <= v -> 0 <= (if UINT64_MAX <? v then UINT64_MAX else v))
    by (intros v Hv0; by destruct (_ <? _)).
  destruct (skip_space_bytes _) as [|b t]; [by apply Hu, Hv|].
  pose proof (u64_range (- (digits_at 0 0 t).1.1)).
  repeat case_match; first [by apply Hu, Hv|lia|done].
Qed.

Lemma bounded_variable_range name limit default :
  0 <= default <= limit -> 0 <= bounded_variable en name limit default <= limit.
Proof.
  intros Hd. unfold bounded_variable. destruct (en_getenv en name) as [text|]; [|done].
  pose proof (strtoul10_nonneg text). destruct (Z.leb_spec (strtoul10 text) limit); lia.
Qed.

Definition booted : Prop := daemon_mode en = true -> exists n, en_boot en n = "1".

Lemma wait_for_boot_leaves : leaves (Some []) (fun _ => exists n, en_boot en n = "1") (wait_for_boot en).
Proof.
  intros s. unfold swp, wait_for_boot.
  pose proof (bounded_variable_range "DRMID_BOOT_WAIT_MS" 600000 kDefaultBootWaitTimeoutMs
    ltac:(unfold kDefaultBootWaitTimeoutMs; lia)) as Hr.
  destruct (boot_wait_ends _ 1202 0 0 Hr ltac:(lia)) as (b & -> & Hb); [by vm_compute|].
  destruct b; [by auto|]. exists []. by rewrite app_nil_r.
Qed.

Lemma wait_for_readiness_leaves on_stop : leaves on_stop (fun _ => True) (wait_for_readiness en).
Proof.
  intros s. unfold swp, wait_for_readiness.
  by destruct (wait_spec (en_getenv en) (en_ticks en) (en_views en) 600 ltac:(lia)) as (r & -> & _).
Qed.

Lemma prepare_leaves : leaves (Some []) (fun _ => booted) (prepare_daemon fuel en dir).
Proof.
  unfold prepare_daemon. eapply leaves_bind with (F := fun _ => True).
  { destruct (daemon_mode en); [|by apply leaves_ret]. next_stage.
    unfold remove_stale_capability. destruct (bool_decide _); [by apply leaves_ret|].
    next_stage. apply leaves_files; apply _. }
  intros _ _. eapply leaves_bind with (F := fun _ => True).
  { unfold honour_cleanup_marker. destruct (_ && _); [|by apply leaves_ret].
    next_stage. destruct a; [|by apply leaves_ret]. next_stage. eauto with stages. }
  intros _ _. destruct (daemon_mode en) eqn:E; [|apply leaves_ret; unfold booted; congruence].
  eapply leaves_bind; [apply wait_for_boot_leaves|]. intros [] Hboot.
  eapply leaves_bind; [apply wait_for_readiness_leaves|]. intros _ _.
  eapply leaves_bind; [by apply leaves_files, (returns_capture B)|]. intros ? _.
  apply leaves_ret. by intros _.
Qed.

Lemma load_leaves :
  leaves (Some []) (fun _ => env_set en "DRMID_CONFIG_ONLY" = false) (load_profile fuel en dir).
Proof.
  unfold load_profile. eapply leaves_bind; [by apply leaves_files, (returns_load B)|].
  intros [err profile] _. destruct (is_failed err); [by eauto with stages|].
  destruct (env_set en "DRMID_CONFIG_ONLY") eqn:E; [by eauto with stages|by apply leaves_ret].
Qed.

Definition platform_ok : Prop :=
  34 <= en_api_level en /\ en_arm64 en = true /\
  is_supported_linux_6_1_or_newer (en_kernel_version en) = true.

Lemma platform_leaves : leaves (Some []) (fun _ => platform_ok) (platform_gate en).
Proof.
  unfold platform_gate. destruct (_ || _) eqn:E; [by eauto with stages|]. apply leaves_ret.
  apply orb_false_iff in E as [[E1%Z.ltb_ge E2%negb_false_iff]%orb_false_iff E3%negb_false_iff].
  done.
Qed.

(** * The stages with the descriptor open *)

Lemma target_leaves fd :
  leaves (Some [BinderClosed fd]) (fun r => resolve_binder_ioctl_from_fd fd = inr r /\
    has_required_binder_capabilities r = true) (resolve_target fd).
Proof.
  unfold resolve_target. destruct (resolve_binder_ioctl_from_fd fd) as [err|r]; [by eauto with stages|].
  destruct (has_required_binder_capabilities r) eqn:E; cbn [negb]; [|by eauto with stages].
  by apply leaves_ret.
Qed.

Lemma identity_leaves fd r :
  leaves (Some [BinderClosed fd])
    (fun offsets => resolve_and_validate_task_identity_offsets = (OK, offsets) /\
       env_set en "DRMID_RESOLVE_ONLY" = false)
    (resolve_identity fuel en dir fd r).
Proof.
  unfold resolve_identity. eapply leaves_bind; [by apply leaves_files, (returns_write_capability B)|].
  intros _ _. destruct resolve_and_validate_task_identity_offsets as [err offsets].
  destruct (is_failed err) eqn:Eerr; [by eauto with stages|]. apply is_failed_false in Eerr as ->.
  destruct (env_set en "DRMID_RESOLVE_ONLY") eqn:E; [by eauto with stages|by apply leaves_ret].
Qed.

(** Where a configuration comes from, and that its fingerprint is its identifier's. *)
Definition config_source (config : ReplacementConfig) : Prop :=
  cfg_profile_fingerprint config =
    virtual_id_fingerprint (take (Z.to_nat (cfg_virtual_id_length config)) (cfg_virtual_id config)) /\
  ((exists profile, config = profile_config (env_set en "DRMID_WRITE_TEST") profile) \/
   daemon_mode en = true /\ runtime_control_path en dir <> EmptyString).

Lemma profile_config_source write_test profile :
  write_test = env_set en "DRMID_WRITE_TEST" -> config_source (profile_config write_test profile).
Proof. intros ->. split; [done|]. left. by eexists. Qed.

Lemma choose_leaves fd config :
  config_source config ->
  leaves (Some [BinderClosed fd]) config_source (choose_config fuel en dir fd config).
Proof.
  intros Hconfig. unfold choose_config.
  destruct (daemon_mode en) eqn:Ed; cbn [andb]; [|by apply leaves_ret].
  destruct (decide (runtime_control_path en dir = EmptyString)) as [Ep|Ep].
  { rewrite (bool_decide_eq_true_2 _ Ep). by apply leaves_ret. }
  rewrite (bool_decide_eq_false_2 _ Ep). cbn [negb].
  eapply leaves_bind; [by apply leaves_files, (returns_migrate B)|]. intros [err migrated] _.
  destruct (is_failed err); [by eauto with stages|]. next_stage.
  unfold restore_config. eapply leaves_bind; [by apply leaves_files, (returns_read_control B)|].
  intros [read_err persisted] _. destruct (is_ok read_err).
  - cbv zeta. destruct (_ || _) eqn:E; [by eauto with stages|]. apply leaves_ret.
    apply orb_false_iff in E as [_ E%negb_false_iff%Z.eqb_eq]. split; [by symmetry|by right].
  - destruct (bool_decide _); [|by eauto with stages].
    eapply leaves_bind; [by apply leaves_files, (returns_write_control B)|].
    intros write_err _. destruct (is_failed write_err); [by eauto with stages|by apply leaves_ret].
Qed.

Lemma discover_leaves fd :
  leaves (Some [BinderClosed fd]) (fun identities => exists details,
    @discover_widevine_hal_identities (en_proc en) (Some "/proc") 1 = (OK, identities, details))
    (discover_hal en fd).
Proof.
  unfold discover_hal. destruct (@discover_widevine_hal_identities _ _ _) as [[err identities] details].
  destruct (is_failed err) eqn:E; [by eauto with stages|]. apply is_failed_false in E as ->.
  apply leaves_ret. by exists details.
Qed.

(** * The stages with the hook in place *)

Lemma traffic_leaves on_stop : leaves on_stop (fun _ => True) (traffic en).
Proof. apply leaves_kernel. Qed.
#[local] Hint Resolve traffic_leaves : stages.

Lemma poll_leaves on_stop session published last_err :
  leaves on_stop (fun _ => True) (poll_control fuel en dir session published last_err).
Proof.
  unfold poll_control. eapply leaves_bind; [by apply leaves_files, (returns_read_control B)|].
  intros [read_err config] _. destruct (is_ok read_err).
  - destruct (_ <? _); [|by apply leaves_ret]. next_stage. destruct (is_failed a); [|by apply leaves_ret].
    next_stage. by apply leaves_ret.
  - destruct (_ && _); [|by apply leaves_ret]. next_stage. by apply leaves_ret.
Qed.

Lemma polling_leaves on_stop session poll_ms window rounds elapsed published last_err :
  1 <= poll_ms -> window - elapsed < Z.of_nat rounds -> (0 < rounds)%nat ->
  leaves on_stop (fun _ => True)
    (control_polling fuel en dir rounds session poll_ms window elapsed published last_err).
Proof.
  intros Hpoll. revert elapsed published last_err.
  induction rounds as [|rounds IH]; intros elapsed published last_err Hr Hpos; [lia|].
  cbn [control_polling]. destruct (Z.ltb_spec elapsed window); [|by apply leaves_ret].
  eapply leaves_bind; [apply poll_leaves|]. intros [published' last'] _. next_stage. apply IH; lia.
Qed.

Lemma returns_wait_for_file until_file window rounds elapsed :
  window - elapsed < Z.of_nat rounds -> (0 < rounds)%nat ->
  Returns (wait_for_file rounds until_file window elapsed).
Proof.
  revert elapsed. induction rounds as [|rounds IH]; intros elapsed Hr Hpos; [lia|].
  cbn [wait_for_file]. destruct (Z.ltb_spec elapsed window); [|apply _].
  apply returns_bind; [apply _|]. intros []; [apply _|]. apply IH; lia.
Qed.

Lemma control_poll_pos : 1 <= control_poll_ms en.
Proof.
  unfold control_poll_ms. destruct (en_getenv _ _); [|lia].
  cbv zeta. destruct (_ && _) eqn:E; [|lia]. btrue. lia.
Qed.

Lemma observe_leaves on_stop session config :
  leaves on_stop (fun _ => True) (observe fuel en dir session config).
Proof.
  unfold observe. cbv zeta. destruct (Z.ltb_spec 0 (observation_window en)); [|by apply leaves_ret].
  destruct (_ && _).
  { apply polling_leaves; [apply control_poll_pos|lia..]. }
  destruct (_ || _); [apply traffic_leaves|].
  destruct (en_getenv en "DRMID_OBSERVE_UNTIL_FILE"); [|apply traffic_leaves].
  eapply leaves_bind; [apply leaves_files, returns_wait_for_file; lia|]. intros _ _.
  next_stage. apply traffic_leaves.
Qed.

Lemma serve_leaves on_stop session :
  daemon_mode en = true -> leaves on_stop (fun _ => True) (serve en dir session).
Proof.
  intros Hmode. unfold serve. destruct (_ || _); [by apply leaves_ret|]. intros s.
  unfold swp, on_kernel, mbind, stage_bind.
  pose proof (run_ends session (en_to_num en) (Z.of_N getpid) (en_setup en) (Some (control_socket_path en dir))
    (Some (runtime_control_path en dir)) (daemon_max_ms en) (en_iterations en) (mc_kernel s)) as Hends.
  destruct (run_control_socket_server _ _ _ _ _ _ _ _ _) as [[[err l]|] k]; cbn [fst] in Hends.
  - cbn [mc_kernel]. by destruct (snapshot_kernel session k) as [[final_err final] k'].
  - split; [exact Hmode|]. intros Hex. by apply Hends.
Qed.

(** * What the self test notices *)

(** The handler never counts a call: the hook is not reached. *)
Definition handler_idle : Prop :=
  forall n c, kc_words (en_traffic en n c) pre_calls = kc_words c pre_calls.

Definition counted_calls (s : Machine) : Z := kc_words (km_context (ks_kernel (mc_kernel s))) pre_calls.

(** The stage does not move the count of calls. *)
Definition still {A} (m : stage A) : Prop :=
  forall s, swp m (fun _ s' => counted_calls s' = counted_calls s) s.

Lemma still_bind {A C} (m : stage A) (k : A -> stage C) :
  still m -> (forall a, still (k a)) -> still (a ← m; k a).
Proof.
  intros Hm Hk s. apply swp_bind. eapply swp_mono; [apply Hm|]. intros [err|a] s' Hs; [done|].
  eapply swp_mono; [apply Hk|]. intros r s'' ->. exact Hs.
Qed.

Lemma still_ret {A} (a : A) : still (mret a).
Proof. by intros s. Qed.

Lemma still_files {A} (m : io A) : Returns m -> still (on_files m).
Proof. intros Hm s. unfold swp, on_files. by destruct (Hm (mc_world s)) as [[a w] ->]. Qed.

Lemma still_kernel {A} (m : kio A) :
  (forall k, kc_words (km_context (ks_kernel (m k).2)) pre_calls =
             kc_words (km_context (ks_kernel k)) pre_calls) -> still (on_kernel m).
Proof.
  intros Hm s. specialize (Hm (mc_kernel s)). unfold swp, on_kernel.
  destruct (m (mc_kernel s)) as [a k]. exact Hm.
Qed.

Lemma publish_config_counts io session config k :
  let '(_, _, k') := publish_runtime_config io session config k in
  kc_words (km_context k') pre_calls = kc_words (km_context k) pre_calls.
Proof.
  unfold publish_runtime_config, read_counter_snapshot.
  repeat case_match; simplify_eq; cbn; rewrite ?fn_lookup_insert_ne; done.
Qed.

Lemma still_publish session config : still (on_kernel (publish_config session config)).
Proof.
  apply still_kernel. intros k. unfold publish_config, mbind, kio_bind, next_call, get_kernel. cbn.
  pose proof (publish_config_counts (config_answer (ks_calls k)) session config (ks_kernel k)) as Hk.
  destruct (publish_runtime_config _ _ _ _) as [[err slot] k']. exact Hk.
Qed.

Lemma still_rejection session : still (on_kernel (note_runtime_control_rejection session)).
Proof.
  apply still_kernel. intros k. unfold note_runtime_control_rejection, increment_rejections, snapshot_kernel,
    mbind, kio_bind, next_call, get_kernel. cbn. destruct (read_counter_snapshot _ _ _) as [err [c|]]; [|done].
  destruct (write_kernel_mem _ _) as [e v]. cbn. by rewrite fn_lookup_insert_ne.
Qed.

Lemma still_snapshot session : still (on_kernel (snapshot_kernel session)).
Proof. by apply still_kernel. Qed.

Lemma still_traffic : handler_idle -> still (traffic en).
Proof. intros Hidle. apply still_kernel. intros k. apply Hidle. Qed.

Lemma still_poll session published last_err :
  still (poll_control fuel en dir session published last_err).
Proof.
  unfold poll_control. apply still_bind; [by apply still_files, (returns_read_control B)|].
  intros [read_err config]. destruct (is_ok read_err).
  - destruct (_ <? _); [|apply still_ret]. apply still_bind; [apply still_publish|]. intros err.
    destruct (is_failed err); [|apply still_ret].
    apply still_bind; [apply still_rejection|]. intros _. apply still_ret.
  - destruct (_ && _); [|apply still_ret]. apply still_bind; [apply still_rejection|]. intros _.
    apply still_ret.
Qed.

Lemma still_polling session poll_ms window rounds elapsed published last_err :
  handler_idle -> 1 <= poll_ms -> window - elapsed < Z.of_nat rounds -> (0 < rounds)%nat ->
  still (control_polling fuel en dir rounds session poll_ms window elapsed published last_err).
Proof.
  intros Hidle Hpoll. revert elapsed published last_err.
  induction rounds as [|rounds IH]; intros elapsed published last_err Hr Hpos; [lia|].
  cbn [control_polling]. destruct (Z.ltb_spec elapsed window); [|apply still_ret].
  apply still_bind; [apply still_poll|]. intros [published' last'].
  apply still_bind; [by apply still_traffic|]. intros _. apply IH; lia.
Qed.

Lemma still_observe session config : handler_idle -> still (observe fuel en dir session config).
Proof.
  intros Hidle. pose proof (still_traffic Hidle) as Ht. unfold observe. cbv zeta.
  destruct (Z.ltb_spec 0 (observation_window en)); [|apply still_ret].
  destruct (_ && _); [apply still_polling; [done|apply control_poll_pos|lia..]|].
  destruct (_ || _); [done|]. destruct (en_getenv en "DRMID_OBSERVE_UNTIL_FILE"); [|done].
  apply still_bind; [apply still_files, returns_wait_for_file; lia|]. intros _.
  apply still_bind; [apply still_files; apply _|]. intros _. exact Ht.
Qed.

(** A passed test has seen all eight calls succeed and the handler count them. *)
Definition hook_reached : Prop :=
  successful_ioctls en = kSelfTestIoctlCount /\ ~ handler_idle.

Lemma snapshot_counted session s :
  swp (on_kernel (snapshot_kernel session)) (fun r s' => counted_calls s' = counted_calls s /\
    mc_log s' = mc_log s /\ exists err snapshot, r = inr (err, snapshot) /\
    (snapshot = None -> err <> OK) /\
    forall c, snapshot = Some c -> kc_words c pre_calls = counted_calls s) s.
Proof.
  unfold swp, on_kernel, snapshot_kernel. cbn. split; [done|]. split; [done|].
  destruct (read_counter_snapshot _ _ _) as [err snapshot] eqn:E.
  exists err, snapshot. split; [done|]. unfold read_counter_snapshot in E.
  destruct (_ =? 0); [by simplify_eq|].
  destruct (is_failed (read_answer _)) eqn:Ef; [simplify_eq; split; [|done]|].
  { intros _. by apply is_failed_not_ok. }
  destruct (_ || _); simplify_eq; (split; [done|]); [done|]. by intros c [= <-].
Qed.

(** Running a stage: the same log, and with an idle handler the same count. *)
Lemma stage_still {A C} (F : A -> Prop) (m : stage A) (k : A -> stage C) Q s :
  leaves None F m -> (handler_idle -> still m) ->
  (forall a s', F a -> mc_log s' = mc_log s -> (handler_idle -> counted_calls s' = counted_calls s) ->
     swp (k a) Q s') ->
  swp (a ← m; k a) Q s.
Proof.
  intros Hm Hstill Hgo. apply swp_bind. specialize (Hm s).
  assert (Hs : handler_idle -> swp m (fun _ s' => counted_calls s' = counted_calls s) s)
    by (intros Hidle; by apply Hstill).
  unfold swp in *. destruct (m s) as [[[err|a] s']|]; [by destruct Hm as (? & [=] & _)| |done].
  destruct Hm as [Hl Ha]. by apply Hgo.
Qed.

Lemma self_test_passed_counts before after :
  self_test_passed en before after = true ->
  successful_ioctls en = kSelfTestIoctlCount /\ kc_words after pre_calls <> kc_words before pre_calls.
Proof.
  unfold self_test_passed. intros [Hn%Nat.eqb_eq Hw]%andb_true_iff. split; [done|].
  cbn [forallb] in Hw. apply andb_true_iff in Hw as [Hw _]. apply Z.leb_le in Hw. intros E.
  revert Hw. unfold delta. rewrite E, Z.sub_diag. by vm_compute.
Qed.

Lemma self_test_reached session config s :
  swp (self_test fuel en dir session config) (fun r s' => mc_log s' = mc_log s /\
    exists err, r = inr err /\ (err = OK -> hook_reached)) s.
Proof.
  unfold self_test. eapply stage_next; [apply traffic_leaves|]. intros _ s1 _ <-.
  apply swp_bind. eapply swp_mono; [apply snapshot_counted|].
  intros r1 s2 (Hc2 & <- & err1 & [before|] & -> & Hnone & Hbefore).
  2: { split; [done|]. exists err1. split; [done|]. intros ->. by destruct (Hnone eq_refl). }
  eapply stage_still; [apply traffic_leaves|apply still_traffic|]. intros _ s3 _ <- Hc3.
  eapply stage_still; [apply observe_leaves|apply still_observe|]. intros _ s4 _ <- Hc4.
  apply swp_bind. eapply swp_mono; [apply snapshot_counted|].
  intros r5 s5 (_ & <- & err5 & [after|] & -> & Hnone5 & Hafter).
  2: { split; [done|]. exists err5. split; [done|]. intros ->. by destruct (Hnone5 eq_refl). }
  split; [done|]. eexists. split; [done|].
  destruct (self_test_passed en before after) eqn:E; [intros _|done].
  apply self_test_passed_counts in E as [Hn Hne]. split; [done|]. intros Hidle. apply Hne.
  by rewrite (Hafter after), (Hbefore before), Hc4, Hc3.
Qed.

(** * The run *)

(** What has been checked when the hook is installed. *)
Record admitted (fd target : Z) (offsets : TaskIdentityOffsets) (config : ReplacementConfig)
    (identities : HalIdentityConfig) : Prop := {
  ad_booted : booted;
  ad_wanted : env_set en "DRMID_CONFIG_ONLY" = false /\ env_set en "DRMID_RESOLVE_ONLY" = false;
  ad_platform : platform_ok;
  ad_descriptor : open_binder_driver en = Some fd;
  ad_target : exists r, resolve_binder_ioctl_from_fd fd = inr r /\
    has_required_binder_capabilities r = true /\ target = br_ioctl_kaddr r;
  ad_offsets : resolve_and_validate_task_identity_offsets = (OK, offsets) /\ own_identity offsets;
  ad_config : validate_runtime_config config = true /\ config_source config;
  ad_identities : validate_hal_identities identities = true /\ exists details,
    @discover_widevine_hal_identities (en_proc en) (Some "/proc") 1 = (OK, identities, details);
}.

(** What a run leaves in the log, with the error it returns. *)
Inductive probe_log : KModErr -> list event -> Prop :=
  | NotOpened err : probe_log err []
  | NotInstalled err fd : probe_log err [BinderOpened fd; BinderClosed fd]
  | Hooked err fd target offsets config identities :
      admitted fd target offsets config identities -> (err = OK -> hook_reached) ->
      probe_log err [BinderOpened fd; HookInstalled target offsets config identities;
                     HookRemoved; BinderClosed fd]
  | NotRemoved fd target offsets config identities :
      admitted fd target offsets config identities -> en_uninstall en <> OK ->
      probe_log (en_uninstall en)
        [BinderOpened fd; HookInstalled target offsets config identities; BinderClosed fd].

(** The SDK hands out a handle with every hook it installs. *)
Definition handles_given : Prop := (io_hook (en_install en)).1 = OK -> (io_hook (en_install en)).2 <> 0.

Lemma install_spec fd target offsets config identities s :
  handles_given ->
  swp (install_hook en fd target offsets config identities) (fun r s' =>
    match r with
    | inl _ => mc_log s' = mc_log s ++ [BinderClosed fd]
    | inr session =>
        mc_log s' = mc_log s ++ [HookInstalled target offsets config identities] /\
        validate_runtime_config config = true /\ validate_hal_identities identities = true /\
        cs_hook session <> 0
    end) s.
Proof.
  intros Hhandle. unfold install_hook.
  pose proof (install_ready (en_install en) target config identities) as Hready.
  destruct (install_readonly_parser_hook _ _ _ _) as [[err session] memory].
  destruct Hready as (Hok & Hsome & Hnone).
  destruct (is_failed err) eqn:E.
  { destruct (Hnone ltac:(by intros ->)) as [-> _]. done. }
  apply is_failed_false in E as ->. destruct (Hsome eq_refl) as (k & -> & _ & _ & Hhook).
  destruct (proj1 Hok eq_refl) as (Hc & Hi & _ & _ & _ & Ho).
  cbn. split_and!; [done..|]. rewrite Hhook. by apply Hhandle.
Qed.

Lemma remove_spec fd session err s :
  cs_hook session <> 0 ->
  swp (remove_hook en fd session err) (fun r s' => exists err', r = inr err' /\
    (mc_log s' = mc_log s ++ [HookRemoved; BinderClosed fd] \/
     mc_log s' = mc_log s ++ [BinderClosed fd] /\ err' = en_uninstall en /\ en_uninstall en <> OK) /\
    (err' = OK -> err = OK)) s.
Proof.
  intros Hhook. unfold remove_hook.
  eapply stage_next; [apply traffic_leaves|]. intros _ s1 _ <-.
  eapply stage_next; [apply leaves_kernel|]. intros n s2 _ <-.
  eapply stage_next; [apply leaves_kernel|]. intros k s3 _ <-.
  unfold remove_readonly_parser_hook. rewrite (proj2 (Z.eqb_neq _ _) Hhook). cbn [negb andb].
  destruct (is_failed (en_uninstall en)) eqn:E.
  - rewrite bool_decide_eq_false_2 by auto. unfold swp. cbn. rewrite E. eexists. split; [done|].
    assert (en_uninstall en <> OK) by (by intros Hn; rewrite Hn in E). split; [by right|done].
  - cbv zeta. set (answer := if cs_context_kaddr _ =? 0 then _ else _).
    assert (Ha : cs_hook answer.2 = 0).
    { unfold answer. destruct (_ =? 0); [done|].
      destruct (read_counter_snapshot _ _ _) as [? [?|]]; done. }
    destruct answer as [remove_err after]. cbn in Ha. rewrite bool_decide_eq_true_2 by congruence.
    unfold swp. cbn. eexists. split; [done|]. cbn. rewrite <-app_assoc. split; [by left|].
    destruct (is_failed remove_err) eqn:Er; [|done]. by intros ->.
Qed.

(** From the descriptor on. *)
Lemma hooked_spec fd target offsets config identities s (Q : KModErr + KModErr -> Machine -> Prop) :
  handles_given ->
  (forall r s', mc_log s' = mc_log s ++ [BinderClosed fd] -> Q r s') ->
  (forall err s', validate_runtime_config config = true -> validate_hal_identities identities = true ->
     (err = OK -> hook_reached) /\
     mc_log s' = mc_log s ++ [HookInstalled target offsets config identities; HookRemoved; BinderClosed fd] \/
     mc_log s' = mc_log s ++ [HookInstalled target offsets config identities; BinderClosed fd] /\
       err = en_uninstall en /\ en_uninstall en <> OK -> Q (inr err) s') ->
  swp (session ← install_hook en fd target offsets config identities;
       err ← self_test fuel en dir session config;
       err ← (if is_ok err && daemon_mode en then serve en dir session else mret err);
       remove_hook en fd session err) Q s.
Proof.
  intros Hhandle Hclosed Hdone. apply swp_bind. eapply swp_mono; [by apply install_spec|].
  intros [err|session] s1; [by intros ?; apply Hclosed|]. intros (Hl1 & Hc & Hi & Hhook).
  apply swp_bind. eapply swp_mono; [apply self_test_reached|]. intros r s2 (Hl2 & err & -> & Hreached).
  eapply stage_next with (F := fun err' => err' = OK -> hook_reached).
  { destruct (is_ok err) eqn:E; [|by apply leaves_ret]. apply is_ok_true in E.
    destruct (daemon_mode en) eqn:Emode; [|by apply leaves_ret].
    eapply leaves_weaken; [by apply serve_leaves|done|]. auto. }
  intros err' s3 Herr Hl3. eapply swp_mono; [by apply remove_spec|].
  intros r s4 (err4 & -> & Hlog & Hback). rewrite Hl3, Hl2, Hl1, <-!app_assoc in Hlog.
  apply Hdone; [done..|]. destruct Hlog as [Hlog|Hlog]; [left; split; [auto|exact Hlog]|by right].
Qed.

Lemma open_spec s :
  swp (open_binder en) (fun r s' =>
    match r with
    | inl _ => s' = s
    | inr fd => open_binder_driver en = Some fd /\ mc_log s' = mc_log s ++ [BinderOpened fd]
    end) s.
Proof. unfold open_binder. by destruct (open_binder_driver en). Qed.

Lemma probe_run_spec s :
  handles_given ->
  swp (probe_stages fuel en dir) (fun r s' => exists es,
    mc_log s' = mc_log s ++ es /\ probe_log (match r with inl err | inr err => err end) es) s.
Proof.
  intros Hhandle. unfold probe_stages.
  eapply stage_then; [apply prepare_leaves|intros err s1 Hl; exists []; split; [done|constructor]|].
  intros [] s1 Hboot <-.
  eapply stage_then; [apply load_leaves|intros err s2 Hl; exists []; split; [done|constructor]|].
  intros profile s2 Hconf <-.
  eapply stage_then; [apply platform_leaves|intros err s3 Hl; exists []; split; [done|constructor]|].
  intros [] s3 Hplat <-.
  apply swp_bind. eapply swp_mono; [apply open_spec|]. intros [err|fd] s4.
  { intros ->. exists []. split; [by rewrite app_nil_r|constructor]. }
  intros [Efd Hl4].
  set (Q := fun r s' => exists es, mc_log s' = mc_log s3 ++ es /\ _).
  assert (Hclosed : forall r s5, mc_log s5 = mc_log s4 ++ [BinderClosed fd] -> Q r s5).
  { intros r s5 Hl. exists [BinderOpened fd; BinderClosed fd]. rewrite Hl, Hl4, <-app_assoc.
    split; [done|constructor]. }
  assert (Hclosed' : forall err s5, mc_log s5 = mc_log s4 ++ [BinderClosed fd] -> Q (inl err) s5) by auto.
  eapply stage_then; [apply target_leaves|exact Hclosed'|]. intros r s5 [Hr Hcap] Hl5.
  eapply stage_then; [apply identity_leaves|by rewrite Hl5|]. intros offsets s6 [Hoff Hres] Hl6.
  eapply stage_then; [by apply choose_leaves, profile_config_source|by rewrite Hl6, Hl5|].
  intros config s7 Hsource Hl7.
  eapply stage_then; [apply discover_leaves|by rewrite Hl7, Hl6, Hl5|].
  intros identities s8 Hfound Hl8. rewrite <-Hl5, <-Hl6, <-Hl7, <-Hl8 in *.
  apply hooked_spec; [done|done|]. intros err s9 Hc Hi Hlog.
  assert (Had : admitted fd (br_ioctl_kaddr r) offsets config identities)
    by (split; try done; [by exists r|by split; [|apply identity_validated]]).
  destruct Hlog as [[Hreached Hlog]|(Hlog & -> & Hun)]; rewrite Hl4, <-app_assoc in Hlog;
    eexists; (split; [exact Hlog|]); by constructor.
Qed.

End Stages.

(** * Properties *)


(** * A concrete run *)

#[local] Instance demo_task : TaskProbe := {|
  get_task_struct_pid_offset := (OK, 1480); get_task_struct_tgid_offset := (OK, 1484);
  task_asm_failed := false; task_exec := OK; task_word offset := 4021; gettid := 4021 |}.

Definition demo_hal_exe : string := "/vendor/bin/hw/android.hardware.drm-service.widevine".

Definition demo_proc : ProcFs := {|
  readlink path := if bool_decide (path = "/proc/612/exe") then Some demo_hal_exe
                   else if bool_decide (path = "/proc/612/fd/4") then Some "/dev/binderfs/binder" else None;
  list_dir path := if bool_decide (path = "/proc") then Some ["1"; "612"; "self"]
                   else if bool_decide (path = "/proc/612/fd") then Some ["4"] else None;
  open_file path := if bool_decide (path = "/proc/612/cmdline") then Some [Chunk demo_hal_exe]
                    else if bool_decide (path = "/proc/612/status") then Some [Chunk "Uid: 1013 1013"]
                    else if bool_decide (path = "/proc/612/attr/current")
                    then Some [Chunk "u:r:hal_drm_widevine:s0"] else None |}.

(** Every call of the daemon reaches the handler ten times. *)
Definition demo_traffic (n : nat) (c : KernelCounterContext) : KernelCounterContext :=
  foldr (fun w c => put_word w (u64 (kc_words c w + 10)) c) c
    [pre_calls; post_calls; bwr_calls; pre_header_ok; post_header_ok].

Definition demo_surroundings : Surroundings := {|
  en_getenv name := if bool_decide (name = "DRMID_DAEMON_MODE") then Some "1" else None;
  en_boot n := if Nat.leb 3 n then "1" else ""; en_ticks := 100; en_views _ := Startup.demo_view;
  en_drm := Some (seqZ 1 32); en_api_level := 35; en_arm64 := true;
  en_kernel_version := "6.6.50-android15";
  en_open path := if bool_decide (path = "/dev/binder") then Some 5 else None;
  en_proc := demo_proc;
  en_install := {| io_alloc := (OK, 4096); io_write := (OK, demo_memory); io_build := OK;
                   io_hook := (OK, 77) |};
  en_uninstall := OK; en_traffic := demo_traffic; en_ioctl _ := true;
  en_setup := demo_setup; en_iterations := [(true, demo_arrival kStatus)];
  en_to_num := demo_number; en_readdir _ _ := [] |}.

Definition demo_machine : Machine := Build_Machine (initial_world ∅) demo_state [].

#[local] Existing Instances demo_probe demo_calls.
#[local] Abbreviation demo_probe_run :=
  (@run_readonly_parser_probe calm_system demo_task demo_probe demo_calls 300 demo_surroundings
     (Some "/data/m") demo_machine) (only parsing).

Lemma demo_probe_log :
  (fun r => (r.1, (fun e => match e with HookInstalled t _ c i => (t, cfg_mode c, hi_tgids i)
                            | _ => (0, 0, []) end) <$> mc_log r.2)) <$> demo_probe_run =
  Some (OK, [(0, 0, []); (demo_ioctl, 0, [612; 0; 0; 0]); (0, 0, []); (0, 0, [])]).
Proof. vm_compute. reflexivity. Qed.

Lemma demo_server_ends : server_ends demo_surroundings.
Proof. constructor. by left. Qed.

