(* ===== verification/ModuleMain.v ===== *)
(** The module's entry points (module_main.cpp) and the runner they start
    (runner_main.cpp): the loader, which starts the daemon and hands it the root key
    through a pipe; the daemon, which runs only with the lock; and the removal. *)

From S2P Require Import Prelude KernelContext Slots Posix HalIdentity ControlIpc Monitor ControlServer Resolver Startup DaemonLock FileLifecycle Returns ModuleProbe.

(** * The loader *)

(** What the calls of the loader answer; after the fork there are two processes. *)
Inductive fork_answer := ForkFailed | ForkParent | ForkChild.

Record LoaderCalls := {
  lc_chmod : bool;
  lc_pipe : bool;
  lc_fork : fork_answer;
  lc_setsid : bool;
  lc_dup2 : bool;
  lc_exec : bool;
}.

(** How a process goes on: the function returns, the process ends, or it becomes the
    program at a path, with these variables set. *)
Inductive continuation :=
  | Returned (code : Z)
  | Exited (status : Z)
  | Becomes (path : string) (variables : list (string * string)).

(** src/module_main.cpp:848-850 [skroot_module_main] *)
Definition daemon_path (dir : string) : string :=
  (if Nat.eqb (after_last_slash dir 0 0) (String.length dir) then dir else dir +:+ "/")
  +:+ "webroot/drmid_daemon".

Definition newline : Z := 10.

(** [pipe] is what the pipe has been given so far, [written] how much of it. *)

(** src/module_main.cpp:872-889 [skroot_module_main] *)
Fixpoint feed_root_key `{OperatingSystem} (fuel : nat) (root_key : list Z) (written : nat)
    (pipe : list Z) : io (list Z) :=
  match fuel with
  | O => io_diverge
  | S fuel =>
      if (written <? length root_key + 1)%nat then
        let data := if (written <? length root_key)%nat then drop written root_key else [newline] in
        count ← next;
        match count with
        | Done limit =>
            let moved := take (transfer limit (length data)) data in
            feed_root_key fuel root_key (written + length moved) (pipe ++ moved)
        | Interrupted => feed_root_key fuel root_key written pipe
        | Failed => mret pipe
        end
      else mret pipe
  end.

(** src/module_main.cpp:913-916 [skroot_module_main] *)
Definition daemon_variables (dir : string) : list (string * string) :=
  [("DRMID_EXEC_DAEMON", "1"); ("DRMID_FOREGROUND", "1"); ("DRMID_DAEMON_MODE", "1");
   ("DRMID_MODULE_PRIVATE_DIR", dir)].

(** With what is in the pipe when the loader has closed it. *)

(** src/module_main.cpp:843-919 [skroot_module_main] *)
Definition load_module `{OperatingSystem} (fuel : nat) (to_num : KModErr -> Z) (calls : LoaderCalls)
    (root_key dir : option string) : io (continuation * list Z) :=
  let refused err := mret (Returned (to_num err), []) in
  let dies err := mret (Exited (Z.land (to_num err) 255), []) in
  match root_key, dir with
  | None, _ | Some EmptyString, _ | _, None | _, Some EmptyString => refused ERR_MODULE_PARAM
  | Some root_key, Some dir =>
      if negb (lc_chmod calls) then refused ERR_MODULE_OPEN_FILE
      else if negb (lc_pipe calls) then refused ERR_MODULE_TEST_CHANNEL
      else
        match lc_fork calls with
        | ForkFailed => refused ERR_MODULE_TEST_CHANNEL
        | ForkParent =>
            pipe ← feed_root_key fuel (bytes_of_string root_key) 0 []; mret (Returned 0, pipe)
        | ForkChild =>
            if negb (lc_setsid calls) || negb (lc_dup2 calls) then dies ERR_MODULE_TEST_CHANNEL
            else if lc_exec calls then mret (Becomes (daemon_path dir) (daemon_variables dir), [])
            else dies ERR_MODULE_OPEN_FILE
        end
  end.

(** * The runner *)

(** [std::getline]: nothing when the input is at its end. *)
Fixpoint until_newline (input : list Z) : list Z :=
  match input with
  | [] => []
  | b :: input => if b =? newline then [] else b :: until_newline input
  end.

(** src/runner_main.cpp:69-73 [main] *)
Definition read_root_key (input : list Z) : option (list Z) :=
  match until_newline input with [] => None | key => Some key end.

(** src/runner_main.cpp:46-55 [main] *)
Definition client_operation (text : string) : option ControlIpcOperation :=
  if String.eqb text "status" then Some kStatus
  else if String.eqb text "apply" then Some kApply
  else if String.eqb text "stop" then Some kStop
  else None.

(** src/runner_main.cpp:57-63 [main] *)
Definition client_path (getenv : string -> option string) : string :=
  match getenv "DRMID_CONTROL_SOCKET_PATH" with
  | None | Some EmptyString => "/data/local/tmp/drmid_probe_state/drmid_control_v5.sock"
  | Some path => path
  end.

(** The client's exit status; the SDK's get_root and the exchange are parameters. *)

(** src/runner_main.cpp:26-68 [main] *)
Definition run_client (getenv : string -> option string) (input : list Z)
    (get_root : list Z -> KModErr)
    (send_request : string -> ControlIpcOperation -> KModErr * ControlIpcResponse)
    (operation_text : string) : Z :=
  let ask :=
    match client_operation operation_text with
    | None => 4
    | Some operation =>
        let '(err, response) := send_request (client_path getenv) operation in
        if is_failed err then 5 else if rs_result response =? 0 then 0 else 6
    end in
  match getenv "DRMID_IPC_GET_ROOT" with
  | None => ask
  | Some _ =>
      match read_root_key input with
      | None => 2
      | Some key => if is_failed (get_root key) then 3 else ask
      end
  end.

(** What the runner does: it ends, it asks the SDK to manage modules, or it runs this
    module with a key and a directory. *)
Inductive runner_action :=
  | RunnerEnds (status : Z)
  | ManageModules (action : string)
  | RunModule (root_key : list Z) (dir : string).

(** src/runner_main.cpp:15-146 [main] *)
Definition runner_main (getenv : string -> option string) (input : list Z)
    (get_root : list Z -> KModErr)
    (send_request : string -> ControlIpcOperation -> KModErr * ControlIpcResponse) : runner_action :=
  match getenv "DRMID_IPC_CLIENT" with
  | Some operation_text => RunnerEnds (run_client getenv input get_root send_request operation_text)
  | None =>
      match read_root_key input with
      | None => RunnerEnds 2
      | Some root_key =>
          match getenv "DRMID_MODULE_ACTION" with
          | Some action => ManageModules action
          | None =>
              RunModule root_key
                (match getenv "DRMID_MODULE_PRIVATE_DIR" with
                 | None | Some EmptyString => "/data/local/tmp/drmid_probe_state"
                 | Some dir => dir
                 end)
          end
      end
  end.

(** * The daemon *)

(** The environment after [setenv]. *)
Definition with_variable (name value : string) (en : Surroundings) : Surroundings := {|
  en_getenv n := if bool_decide (n = name) then Some value else en_getenv en n;
  en_boot := en_boot en; en_ticks := en_ticks en; en_views := en_views en; en_drm := en_drm en;
  en_api_level := en_api_level en; en_arm64 := en_arm64 en; en_kernel_version := en_kernel_version en;
  en_open := en_open en; en_proc := en_proc en; en_install := en_install en;
  en_uninstall := en_uninstall en; en_traffic := en_traffic en; en_ioctl := en_ioctl en;
  en_setup := en_setup en; en_iterations := en_iterations en; en_to_num := en_to_num en;
  en_readdir := en_readdir en |}.

(** What the daemon meets at its lock: whether nobody has it, and whether the name leads
    to its file when it is released. *)
Record LockView := {
  lv_free : bool;
  lv_same : bool;
}.

Section Daemon.
Context `{OperatingSystem} `{TaskProbe} `{KernelProbe} `{KernelCalls}.
Context (fuel : nat) (en : Surroundings) (lock : LockView).

(** One process's view of the acquisition; DaemonLock has all of them. *)

(** src/file_lifecycle.cpp:237-271 [acquire_daemon_lock] *)
Definition acquire_daemon_lock (dir : string) : io bool :=
  directory ← sys_open_directory dir;
  if negb directory then mret false
  else
    opened ← next; f ← get_files;
    match opened with
    | Done _ =>
        let path := at_dir dir kDaemonLockName in
        _ ← put_files (<[path := default [] (f !! path)]> f);
        (if lv_free lock then sys_ok else mret false)
    | _ => mret false
    end.

(** src/file_lifecycle.cpp:333-358 [release_daemon_lock] *)
Definition release_daemon_lock (dir : string) : io unit :=
  found ← sys_ok;
  if found && lv_same lock then sys_unlink (at_dir dir kDaemonLockName) else mret tt.

(** src/module_main.cpp:841-841 [skroot_module_main] *)
Definition exec_daemon : bool := env_set en "DRMID_EXEC_DAEMON".

(** The run with the number of its error. *)

(** src/module_main.cpp:941-950 [skroot_module_main] *)
Definition run_module (en : Surroundings) (dir : option string) (s : Machine)
    : option (continuation * Machine) :=
  match run_readonly_parser_probe fuel en dir s with
  | Some (err, s) => Some (Returned (en_to_num en err), s)
  | None => None
  end.

(** A computation on the files and an event, outside of any stage. *)
Definition on_world {A} (m : io A) (s : Machine) : option (A * Machine) :=
  match m (mc_world s) with
  | Some (a, w) => Some (a, Build_Machine w (mc_kernel s) (mc_log s))
  | None => None
  end.

Definition add_event (e : event) (s : Machine) : Machine :=
  Build_Machine (mc_world s) (mc_kernel s) (mc_log s ++ [e]).

Definition tree_left {A} (m : fs A) (s : Machine) : Machine :=
  match on_tree m s with Some (_, s) => s | None => s end.

(** With the lock. *)

(** src/module_main.cpp:933-950 [skroot_module_main] *)
Definition run_locked (dir : string) (s : Machine) : option (continuation * Machine) :=
  let s := tree_left (cleanup_seed_temp_orphans (en_readdir en) (Some dir)) s in
  '(written, s) ← on_world (write_daemon_lock_pid fuel (at_dir dir kDaemonLockName) getpid) s;
  if negb written then
    '(_, s) ← on_world (release_daemon_lock dir) s;
    mret (Exited (Z.land (en_to_num en ERR_MODULE_STORAGE_WRITE) 255), add_event LockReleased s)
  else
    '(code, s) ← run_module (with_variable "DRMID_DAEMON_MODE" "1" en) (Some dir) s;
    '(_, s) ← on_world (release_daemon_lock dir) s;
    mret (code, add_event LockReleased s).

(** The private directory is made, or is there already. *)

(** src/module_main.cpp:921-950 [skroot_module_main] *)
Definition daemon_main (dir : option string) (s : Machine) : option (continuation * Machine) :=
  let no_directory := Exited (Z.land (en_to_num en ERR_MODULE_STORAGE_WRITE) 255) in
  match dir with
  | None | Some EmptyString => Some (no_directory, s)
  | Some dir =>
      '(made, s) ← on_world (sys_ok) s;
      if negb made then mret (no_directory, s)
      else
        '(acquired, s) ← on_world (acquire_daemon_lock dir) s;
        if negb acquired then mret (Exited 0, s) else run_locked dir (add_event LockTaken s)
  end.

(** src/module_main.cpp:837-951 [skroot_module_main] *)
Definition skroot_module_main (calls : LoaderCalls) (root_key dir : option string) (s : Machine)
    : option (continuation * Machine) :=
  if negb (env_set en "DRMID_FOREGROUND") then
    '(result, s) ← on_world (load_module fuel (en_to_num en) calls root_key dir) s; mret (result.1, s)
  else if exec_daemon then daemon_main dir s
  else run_module en dir s.

(** Whatever became of the request to stop, the files go. *)

(** src/module_main.cpp:953-965 [module_on_uninstall] *)
Definition module_on_uninstall (dir : option string) (s : Machine) : Machine :=
  tree_left (cleanup_module_state_files (en_readdir en) dir) s.

End Daemon.

(** * The root key *)

(** The environment of a program started with some variables set. *)
Definition with_variables (variables : list (string * string)) (getenv : string -> option string)
    (name : string) : option string :=
  match list_find (fun v => v.1 = name) variables with
  | Some (_, (_, value)) => Some value
  | None => getenv name
  end.

Lemma until_newline_key key : newline ∉ key -> until_newline (key ++ [newline]) = key.
Proof.
  induction key as [|b key IH]; intros Hk; cbn; [done|].
  apply not_elem_of_cons in Hk as [Hb Hk]. rewrite (proj2 (Z.eqb_neq b newline)) by congruence.
  by rewrite IH.
Qed.

Lemma feed_spec `{OperatingSystem} B fuel s root_key pipe w :
  budget False B fuel s (length root_key + 1 - length pipe) w ->
  pipe `prefix_of` root_key ++ [newline] ->
  exists pipe' w', feed_root_key fuel root_key (length pipe) pipe w = Some (pipe', w') /\
    pipe' `prefix_of` root_key ++ [newline] /\ w_files w' = w_files w /\
    ((forall n, outcome_of n <> Failed) -> pipe' = root_key ++ [newline]).
Proof.
  revert s pipe w. induction fuel as [|fuel IH]; intros s pipe w Hb Hp; [by apply budget_zero in Hb|].
  pose proof (prefix_length _ _ Hp) as Hl. rewrite length_app in Hl. cbn in Hl.
  destruct Hp as [rest Hrest]. cbn [feed_root_key].
  destruct (Nat.ltb_spec (length pipe) (length root_key + 1)) as [Hlt|Hge].
  2: { exists pipe, w. split; [done|]. assert (rest = []) as ->.
       { apply length_zero_iff_nil. apply (f_equal length) in Hrest. rewrite !length_app in Hrest.
         cbn in Hrest. lia. }
       rewrite app_nil_r in Hrest. split; [by rewrite Hrest|]. done. }
  set (data := if (length pipe <? length root_key)%nat then _ else _).
  assert (Hdata : exists tail, rest = data ++ tail).
  { unfold data. destruct (Nat.ltb_spec (length pipe) (length root_key)).
    - exists [newline]. assert (drop (length pipe) (root_key ++ [newline]) = rest) as <-.
      { by rewrite Hrest, drop_app_length. }
      by rewrite drop_app_le by lia.
    - exists []. rewrite app_nil_r. assert (drop (length pipe) (root_key ++ [newline]) = rest) as <-.
      { by rewrite Hrest, drop_app_length. }
      rewrite drop_app_ge by lia. by replace (length pipe - length root_key)%nat with 0%nat by lia. }
  assert (Hpos : (0 < length data)%nat).
  { unfold data. destruct (Nat.ltb_spec (length pipe) (length root_key)); [rewrite length_drop|cbn]; lia. }
  clearbody data. destruct Hdata as [tail ->].
  unfold mbind, io_bind, next. set (w1 := Build_World (w_files w) (S (w_calls w)) (w_trace w)).
  destruct (outcome_of (w_calls w)) as [limit| |] eqn:E.
  - destruct (transfer_pos limit (length data) Hpos) as [Hk Hle]. set (k := transfer _ _) in *. clearbody k.
    rewrite <-length_app. destruct (IH B (pipe ++ take k data) w1) as (pipe' & w' & Hrun & Hrest').
    + eapply budget_progress; [exact Hb|]. rewrite length_app, length_take. lia.
    + exists (drop k data ++ tail). rewrite Hrest, <-!app_assoc, (app_assoc (take k data)), take_drop. done.
    + by exists pipe', w'.
  - destruct (IH (s - 1)%nat pipe w1) as (pipe' & w' & Hrun & Hrest'); [by eapply budget_interrupted| |].
    { by exists (data ++ tail). }
    by exists pipe', w'.
  - exists pipe, w1. split; [done|]. split; [by exists (data ++ tail)|]. split; [done|].
    intros Hok. by destruct (Hok (w_calls w)).
Qed.

(** The environment the daemon is started in, on top of the loader's. *)
Definition daemon_getenv (dir : string) (getenv : string -> option string) : string -> option string :=
  with_variables (daemon_variables dir) getenv.

(** * The lock *)

Section Locked.
Context `{OperatingSystem} `{TaskProbe} `{KernelProbe} `{KernelCalls}.
Context (B fuel : nat) (HB : responsive B) (Hfuel : (B * 300 <= fuel)%nat).
Context (en : Surroundings) (lock : LockView) (dir : string).
Context (Hpid : (1 < getpid < 2 ^ 31)%N).

Lemma on_world_returns {A} (m : io A) s :
  Returns m -> exists a s', on_world m s = Some (a, s') /\ mc_log s' = mc_log s /\
    m (mc_world s) = Some (a, mc_world s').
Proof.
  intros Hm. unfold on_world. destruct (Hm (mc_world s)) as [[a w] ->].
  by exists a, (Build_Machine w (mc_kernel s) (mc_log s)).
Qed.

Lemma tree_left_log {A} (m : fs A) s : mc_log (tree_left m s) = mc_log s.
Proof. unfold tree_left, on_tree. by destruct (m _). Qed.

#[local] Instance returns_acquire : Returns (acquire_daemon_lock lock dir).
Proof. unfold acquire_daemon_lock. each_returns. Qed.

#[local] Instance returns_release : Returns (release_daemon_lock lock dir).
Proof. unfold release_daemon_lock. each_returns. Qed.

(** The acquisition touches nothing but the lock file. *)
Lemma acquire_files w a w' p :
  acquire_daemon_lock lock dir w = Some (a, w') -> p <> at_dir dir kDaemonLockName ->
  w_files w' !! p = w_files w !! p.
Proof.
  intros Hrun Hp. revert Hrun. apply (wp_result _ (fun _ w' => w_files w' !! p = w_files w !! p)).
  unfold acquire_daemon_lock. apply wp_bind, wp_sys_ok. intros [] w1 [Hf1 _]; cbn [negb];
    [|apply wp_ret; by rewrite Hf1].
  apply wp_bind, wp_next. intros w2 [Hf2 _] _. apply wp_bind. unfold wp at 1, get_files.
  destruct (outcome_of (w_calls w1)); [|apply wp_ret; by rewrite Hf2, Hf1..].
  apply wp_bind. unfold wp at 1, put_files.
  assert (Hset : forall c w3, quiet (set_files (<[at_dir dir kDaemonLockName := c]> (w_files w2)) w2) w3 ->
    w_files w3 !! p = w_files w !! p).
  { intros c w3 [-> _]. cbn. by rewrite lookup_insert_ne, Hf2, Hf1. }
  destruct (lv_free lock); [apply wp_sys_ok; intros b w3 Hq; by eapply Hset|apply wp_ret; by eapply Hset].
Qed.

(** What a daemon leaves in the log, with how it goes on. *)
Inductive daemon_log : continuation -> list event -> Prop :=
  | NotStarted code : daemon_log (Exited code) []
  | NotWritten code : daemon_log (Exited code) [LockTaken; LockReleased]
  | Ran err es :
      probe_log (with_variable "DRMID_DAEMON_MODE" "1" en) (Some dir) err es ->
      daemon_log (Returned (en_to_num en err)) (LockTaken :: es ++ [LockReleased]).

(** Daemon mode changes nothing about what the server meets. *)
Lemma server_ends_mode : server_ends (with_variable "DRMID_DAEMON_MODE" "1" en) <-> server_ends en.
Proof. done. Qed.

Lemma run_locked_spec s :
  handles_given en ->
  match run_locked fuel en lock dir s with
  | Some (code, s') => exists es, mc_log s' = mc_log s ++ es /\
      ((es = [LockReleased] /\ exists n, code = Exited n) \/
       exists err es', es = es' ++ [LockReleased] /\ code = Returned (en_to_num en err) /\
         probe_log (with_variable "DRMID_DAEMON_MODE" "1" en) (Some dir) err es')
  | None => ~ server_ends en
  end.
Proof.
  intros Hhandle. unfold run_locked. cbv zeta.
  set (s1 := tree_left _ s). assert (Hl1 : mc_log s1 = mc_log s) by apply tree_left_log. clearbody s1.
  destruct (on_world_returns (write_daemon_lock_pid fuel (at_dir dir kDaemonLockName) getpid) s1)
    as (written & s2 & Hrun2 & Hl2 & _).
  { apply (returns_write_pid B); [done..|]. pose proof (pid_text_length _ Hpid). lia. }
  rewrite Hrun2. cbn [mbind option_bind]. destruct written; cbn [negb].
  - set (en1 := with_variable _ _ _). pose proof (probe_run_spec B fuel HB Hfuel en1 (Some dir) s2 Hhandle) as Hprobe.
    unfold run_module, run_readonly_parser_probe. unfold swp in Hprobe.
    destruct (probe_stages fuel en1 (Some dir) s2) as [[r s3]|];
      [|intros Hex; by apply (proj2 Hprobe), server_ends_mode].
    destruct Hprobe as (es & Hl3 & Hes). set (err := match r with inl e | inr e => e end) in *.
    assert ((match Some (r, s3) with
             | Some (inl err, s4) | Some (inr err, s4) => Some (err, s4)
             | None => None end) = Some (err, s3)) as -> by by destruct r.
    destruct (on_world_returns (release_daemon_lock lock dir) s3 _) as ([] & s4 & Hrun4 & Hl4 & _).
    cbn. rewrite Hrun4. cbn. exists (es ++ [LockReleased]).
    split; [rewrite Hl4, Hl3, Hl2, Hl1; by rewrite app_assoc|]. right. by exists err, es.
  - destruct (on_world_returns (release_daemon_lock lock dir) s2 _) as ([] & s4 & Hrun4 & Hl4 & _).
    rewrite Hrun4. cbn. exists [LockReleased].
    split; [by rewrite Hl4, Hl2, Hl1|]. left. split; [done|by eexists].
Qed.

End Locked.

(** * Properties *)

(** C39: the daemon works only with the lock: when it comes to its end, it has either
    ended without having changed any file but the lock file, or ended because its pid
    could not be written, or made one run of the probe in daemon mode; in the last two
    cases it has taken the lock before and given it back afterwards, whatever failed,
    and the result of the run is its exit code.  It does come to its end, on a system
    that answers one of any [B] file calls ([responsive B]), unless its control server
    meets nothing that stops it (no signal, no end of its time, no failed wait and no
    well-formed request to stop); then it may serve for ever.  It is assumed that the
    SDK hands out a handle with every hook it says it has installed
    ([handles_given]), and that the daemon's pid is above 1 and below 2^31. *)
Theorem daemon_runs_locked `{OperatingSystem} `{TaskProbe} `{KernelProbe} `{KernelCalls}
    B fuel en lock dir calls root_key s :
  responsive B -> (B * 300 <= fuel)%nat -> handles_given en -> (1 < getpid < 2 ^ 31)%N ->
  env_set en "DRMID_FOREGROUND" = true -> env_set en "DRMID_EXEC_DAEMON" = true -> dir <> EmptyString ->
  (forall code s', skroot_module_main fuel en lock calls root_key (Some dir) s = Some (code, s') ->
     exists es, mc_log s' = mc_log s ++ es /\ daemon_log en dir code es /\
       (es = [] -> forall p, p <> at_dir dir kDaemonLockName ->
          w_files (mc_world s') !! p = w_files (mc_world s) !! p)) /\
  (skroot_module_main fuel en lock calls root_key (Some dir) s = None -> ~ server_ends en).
Proof.
  intros HB Hfuel Hhandle Hpid Hfore Hexec Hdir. unfold skroot_module_main, exec_daemon, daemon_main.
  rewrite Hfore, Hexec. cbn [negb]. destruct dir as [|c dir']; [done|]. set (dir := String c dir') in *.
  clearbody dir.
  destruct (on_world_returns (sys_ok) s _) as (made & s0 & Hrun0 & Hl0 & Hw0).
  assert (Hf0 : w_files (mc_world s0) = w_files (mc_world s)).
  { revert Hw0. apply (wp_result _ (fun _ w' => w_files w' = w_files (mc_world s))), wp_sys_ok. by intros ? ? []. }
  rewrite Hrun0. cbn [mbind option_bind]. destruct made; cbn [negb].
  2: { split; [|done]. intros code s' Hend. apply (inj Some), (inj2 pair) in Hend as [<- <-].
       exists []. split; [by rewrite app_nil_r|]. split; [constructor|]. intros _ p _. by rewrite Hf0. }
  destruct (on_world_returns (acquire_daemon_lock lock dir) s0 (returns_acquire lock dir))
    as (acquired & s1 & Hrun1 & Hl1 & Hw1).
  rewrite Hrun1. cbn [mbind option_bind]. destruct acquired; cbn [negb].
  2: { split; [|done]. intros code s' Hend. apply (inj Some), (inj2 pair) in Hend as [<- <-].
       exists []. split; [by rewrite app_nil_r, Hl1|]. split; [constructor|].
       intros _ p Hp. rewrite <-Hf0. by eapply acquire_files. }
  pose proof (run_locked_spec B fuel HB Hfuel en lock dir Hpid (add_event LockTaken s1) Hhandle) as Hlocked.
  destruct (run_locked _ _ _ _ _) as [[code s2]|]; [|by split].
  split; [|done]. intros code' s' Hend. apply (inj Some), (inj2 pair) in Hend as [<- <-].
  destruct Hlocked as (es & Hl2 & Hcase). exists (LockTaken :: es).
  split; [rewrite Hl2; cbn; rewrite Hl1, Hl0; by rewrite <-app_assoc|]. split; [|done].
  destruct Hcase as [[-> (n & ->)]|(err & es' & -> & -> & Hes)]; [constructor|by apply Ran].
Qed.

(** the daemon gets the loader's key and directory: on a system that answers one of
    any [B] calls the loader is done with the pipe, which then holds the key and a
    newline, or a part of that when a write has failed; the program the other process
    becomes, the runner, reads the key back from it and runs the module with that key
    and the loader's directory, in the foreground, in daemon mode and under the
    lock. *)
Lemma daemon_gets_key `{OperatingSystem} B fuel to_num calls root_key dir getenv get_root send w :
  responsive B -> (B * (String.length root_key + 2) <= fuel)%nat ->
  root_key <> EmptyString -> newline ∉ bytes_of_string root_key -> dir <> EmptyString ->
  getenv "DRMID_IPC_CLIENT" = None -> getenv "DRMID_MODULE_ACTION" = None ->
  lc_chmod calls = true -> lc_pipe calls = true ->
  (lc_fork calls = ForkParent -> exists pipe w',
     load_module fuel to_num calls (Some root_key) (Some dir) w = Some ((Returned 0, pipe), w') /\
     pipe `prefix_of` bytes_of_string root_key ++ [newline] /\
     ((forall n, outcome_of n <> Failed) ->
        runner_main (daemon_getenv dir getenv) pipe get_root send =
          RunModule (bytes_of_string root_key) dir)) /\
  (lc_fork calls = ForkChild -> lc_setsid calls = true -> lc_dup2 calls = true -> lc_exec calls = true ->
     load_module fuel to_num calls (Some root_key) (Some dir) w =
       Some ((Becomes (daemon_path dir) (daemon_variables dir), []), w)) /\
  (forall name, name ∈ ["DRMID_EXEC_DAEMON"; "DRMID_FOREGROUND"; "DRMID_DAEMON_MODE"] ->
     daemon_getenv dir getenv name = Some "1").
Proof.
  intros HB Hfuel Hkey Hnew Hdir Hclient Haction Hchmod Hpipe. unfold load_module.
  destruct root_key as [|k root_key']; [done|]. set (root_key := String k root_key') in *.
  destruct dir as [|c dir']; [done|]. set (dir := String c dir') in *.
  assert (Hne : bytes_of_string root_key <> []) by done.
  pose proof (CapabilityRecord.bytes_of_string_length root_key) as Hlen. clearbody root_key dir.
  cbv zeta. rewrite Hchmod, Hpipe. cbn [negb]. split_and!.
  - intros ->. destruct (feed_spec B fuel B (bytes_of_string root_key) [] w) as (pipe & w' & Hrun & Hp & _ & Hok).
    + apply budget_start. right. split; [done|]. cbn [length]. rewrite Hlen. nia.
    + apply prefix_nil.
    + exists pipe, w'. unfold mbind, io_bind. cbn [length] in Hrun. rewrite Hrun.
      split; [done|]. split; [done|]. intros Hcalls. rewrite (Hok Hcalls).
      assert (E1 : daemon_getenv dir getenv "DRMID_IPC_CLIENT" = None) by exact Hclient.
      assert (E2 : daemon_getenv dir getenv "DRMID_MODULE_ACTION" = None) by exact Haction.
      assert (E3 : daemon_getenv dir getenv "DRMID_MODULE_PRIVATE_DIR" = Some dir) by reflexivity.
      unfold runner_main, read_root_key. rewrite E1, E2, E3, until_newline_key by done.
      destruct (bytes_of_string root_key); [done|]. by destruct dir.
  - intros -> -> -> ->. done.
  - intros name Hname. apply list_elem_of_In in Hname. cbn [List.In] in Hname.
    destruct Hname as [<-|[<-|[<-|[]]]]; reflexivity.
Qed.

(** * Concrete runs *)

Definition demo_daemon : Surroundings :=
  with_variable "DRMID_FOREGROUND" "1" (with_variable "DRMID_EXEC_DAEMON" "1" demo_surroundings).
Definition demo_lock : LockView := {| lv_free := true; lv_same := true |}.
Definition demo_calls_of (answer : fork_answer) : LoaderCalls := {|
  lc_chmod := true; lc_pipe := true; lc_fork := answer; lc_setsid := true; lc_dup2 := true;
  lc_exec := true |}.

#[local] Existing Instances demo_task demo_probe demo_calls.
#[local] Abbreviation demo_daemon_run :=
  (@skroot_module_main calm_system demo_task demo_probe demo_calls 300 demo_daemon demo_lock
     (demo_calls_of ForkFailed) None (Some "/data/m") demo_machine) (only parsing).

Lemma demo_daemon_events :
  (fun r => (r.1, length (mc_log r.2))) <$> demo_daemon_run = Some (Returned 0, 6%nat).
Proof. vm_compute. reflexivity. Qed.

Lemma daemon_runs_locked_witness :
  exists s', demo_daemon_run = Some (Returned 0, s') /\
    @daemon_log calm_system demo_task demo_probe demo_daemon "/data/m" (Returned 0) (mc_log s').
Proof.
  pose proof demo_daemon_events as Hrun.
  destruct (@daemon_runs_locked calm_system demo_task demo_probe demo_calls 1 300 demo_daemon demo_lock
    "/data/m" (demo_calls_of ForkFailed) None demo_machine) as [Hends Hstays].
  - exact calm_responsive.
  - lia.
  - discriminate.
  - vm_compute. split; reflexivity.
  - reflexivity.
  - reflexivity.
  - discriminate.
  - destruct demo_daemon_run as [[code s']|].
    + apply (inj Some), (inj2 pair) in Hrun as [Hcode _]. cbn in Hcode. subst code.
      exists s'. split; [reflexivity|]. destruct (Hends _ s' eq_refl) as (es & Hlog & Hes & _).
      rewrite Hlog. exact Hes.
    + destruct (Hstays eq_refl demo_server_ends).
Defined.

Lemma daemon_gets_key_witness :
  exists pipe w', @load_module calm_system 30 demo_number (demo_calls_of ForkParent)
      (Some "0123456789") (Some "/data/m") (initial_world ∅) = Some ((Returned 0, pipe), w') /\
    runner_main (daemon_getenv "/data/m" (fun _ => None)) pipe (fun _ => OK)
      (fun _ _ => (OK, zero_response)) = RunModule (bytes_of_string "0123456789") "/data/m".
Proof.
  destruct (@daemon_gets_key calm_system 1 30 demo_number (demo_calls_of ForkParent) "0123456789" "/data/m"
    (fun _ => None) (fun _ => OK) (fun _ _ => (OK, zero_response)) (initial_world ∅))
    as (Hparent & _ & _).
  - exact calm_responsive.
  - cbn. lia.
  - discriminate.
  - apply (bool_decide_unpack _). vm_compute. exact I.
  - discriminate.
  - reflexivity.
  - reflexivity.
  - reflexivity.
  - reflexivity.
  - destruct (Hparent eq_refl) as (pipe & w' & Hrun & _ & Hrunner). exists pipe, w'.
    split; [exact Hrun|]. apply Hrunner. intros n. discriminate.
Defined.
