(* ===== verification/Printed.v ===== *)
(** What a run prints about the resolution, the context and its events
    (module_main.cpp): C format strings, and that every line gets the arguments its
    conversions take.  Adjacent literals of a format are written as one. *)

From stdpp Require Import pretty.
From S2P Require Import Prelude UserMemory KernelContext BinderWire EventReport Slots HalIdentity FileLifecycle Resolver WebSession WebUi JsonText.

#[local] Open Scope Z_scope.

(** * Formats *)

(** An argument of [printf], by its type after the promotions: [const char*], [int],
    [uint32_t], [uint64_t], [size_t] and a pointer. *)
Inductive argument :=
  | Text (s : string)
  | Int (n : Z)
  | U32 (n : Z)
  | U64 (n : Z)
  | Size (n : Z)
  | Pointer (n : Z).

Inductive argument_type := TText | TInt | TU32 | TU64 | TSize | TPointer.

#[global] Instance argument_type_eq_dec : EqDecision argument_type.
Proof. solve_decision. Defined.

Definition type_of (a : argument) : argument_type :=
  match a with
  | Text _ => TText | Int _ => TInt | U32 _ => TU32 | U64 _ => TU64 | Size _ => TSize | Pointer _ => TPointer
  end.

(** [digits] hexadecimal digits of a number. *)
Definition hex_digits (digits : nat) (n : Z) : list Z :=
  (fun i => Z.of_nat (Ascii.nat_of_ascii (hex_digit (Z.land (Z.shiftr n (4 * (Z.of_nat digits - 1 - i))) 15)))) <$>
  seqZ 0 (Z.of_nat digits).

(** A conversion: its type, and what it writes.  [PRIu64] is [lu] on this platform. *)
Record conversion := { cv_spelling : string; cv_type : argument_type; cv_hex : option nat }.

Definition conversions : list conversion := [
  {| cv_spelling := "%s"; cv_type := TText; cv_hex := None |};
  {| cv_spelling := "%d"; cv_type := TInt; cv_hex := None |};
  {| cv_spelling := "%u"; cv_type := TU32; cv_hex := None |};
  {| cv_spelling := "%lu"; cv_type := TU64; cv_hex := None |};
  {| cv_spelling := "%zu"; cv_type := TSize; cv_hex := None |};
  {| cv_spelling := "%p"; cv_type := TPointer; cv_hex := None |};
  {| cv_spelling := "%08x"; cv_type := TU32; cv_hex := Some 8%nat |};
  {| cv_spelling := "%016lx"; cv_type := TU64; cv_hex := Some 16%nat |}].

Definition conversion_of (format : string) : option conversion :=
  List.find (fun cv => String.prefix (cv_spelling cv) format) conversions.

Definition percent : Ascii.ascii := Ascii.ascii_of_nat 37.
Definition newline : Ascii.ascii := Ascii.ascii_of_nat 10.

(** How the C library writes a pointer is its own choice. *)
Section Printf.
Context (pointer_text : Z -> list Z).

Definition value_text (hex : option nat) (a : argument) : list Z :=
  match a, hex with
  | Text s, _ => bytes_of_string s
  | Pointer n, _ => pointer_text n
  | (Int n | U32 n | U64 n | Size n), Some digits => hex_digits digits n
  | (Int n | U32 n | U64 n | Size n), None => decimal_text n
  end.

(** [printf]; [None] where it is undefined, or an argument is never shown.  [skip]
    characters of the format belong to the conversion just done. *)
Fixpoint printf_from (skip : nat) (format : string) (args : list argument) : option (list Z) :=
  match format, skip with
  | EmptyString, _ => match args with [] => Some [] | _ => None end
  | String _ rest, S skip => printf_from skip rest args
  | String c rest, O =>
      if Ascii.eqb c percent then
        match conversion_of format, args with
        | Some cv, a :: args =>
            if decide (type_of a = cv_type cv) then
              text ← printf_from (String.length (cv_spelling cv) - 1) rest args;
              Some (value_text (cv_hex cv) a ++ text)
            else None
        | _, _ => None
        end
      else text ← printf_from 0 rest args; Some (Z.of_nat (Ascii.nat_of_ascii c) :: text)
  end.

Definition printf (format : string) (args : list argument) : option (list Z) := printf_from 0 format args.

(** A line after another. *)
Definition lines (prints : list (string * list argument)) : option (list (list Z)) :=
  mapM (fun p => printf p.1 p.2) prints.

End Printf.

(** The types of the arguments a format takes. *)
Fixpoint types_from (skip : nat) (format : string) : option (list argument_type) :=
  match format, skip with
  | EmptyString, _ => Some []
  | String _ rest, S skip => types_from skip rest
  | String c rest, O =>
      if Ascii.eqb c percent then
        cv ← conversion_of format;
        types ← types_from (String.length (cv_spelling cv) - 1) rest;
        Some (cv_type cv :: types)
      else types_from 0 rest
  end.

(** The only newline outside conversions is the last character. *)
Fixpoint ends_line (skip : nat) (format : string) : bool :=
  match format, skip with
  | EmptyString, _ => false
  | String _ rest, S skip => ends_line skip rest
  | String c rest, O =>
      if Ascii.eqb c percent then
        match conversion_of format with
        | Some cv => ends_line (String.length (cv_spelling cv) - 1) rest
        | None => false
        end
      else if Ascii.eqb c newline then bool_decide (rest = EmptyString) else ends_line 0 rest
  end.

(** * What is printed *)

(** A line of the source: its format and its arguments; the newline is the format's. *)
Definition line (format : string) (args : list argument) : string * list argument :=
  (format +:+ String newline EmptyString, args).

(** src/module_main.cpp:56-86 [print_resolution] *)
Definition print_resolution (r : BinderIoctlResolution) : list (string * list argument) := [
  line "[drmid612] backend=%s fd=%d" [Text (binder_backend_name (br_backend r)); Int (br_binder_fd r)];
  line "[drmid612] file=%p fops=%p unlocked_ioctl=%p"
    [Pointer (br_file_kaddr r); Pointer (br_fops_kaddr r); Pointer (br_ioctl_kaddr r)];
  line "[drmid612] offsets task.files=%u files.fdt=%u fdt.fd=%u file.f_op=%u(%s) fops.unlocked_ioctl=%u(%s)"
    [U32 (task_files (br_offsets r)); U32 (files_fdt (br_offsets r)); U32 (fdtable_fd (br_offsets r));
     U32 (file_f_op (br_offsets r)); Text (binder_offset_source_name (br_file_f_op_source r));
     U32 (fops_unlocked_ioctl (br_offsets r));
     Text (binder_offset_source_name (br_fops_unlocked_ioctl_source r))];
  line "[drmid612] entry=%08x %08x %08x %08x fingerprint=%016lx capabilities=%016lx semantics=%08x symbols=%08x source=%s"
    [U32 (nth 0 (br_entry_words r) 0); U32 (nth 1 (br_entry_words r) 0); U32 (nth 2 (br_entry_words r) 0);
     U32 (nth 3 (br_entry_words r) 0); U64 (br_entry_fingerprint r); U64 (br_capabilities r);
     U32 (br_entry_semantics r); U32 (br_symbol_validations r);
     Text (if bool_decide (br_file_f_op_source r = SourceSymbolScan) ||
              bool_decide (br_fops_unlocked_ioctl_source r = SourceSymbolScan)
           then "fd+sdk+symbol-scan" else "fd+sdk+symbol-check")]].

(** src/module_main.cpp:88-148 [print_parser_snapshot] *)
Definition print_parser_snapshot (label : string) (s : KernelCounterContext) : list (string * list argument) :=
  let config_slot := Z.land (active_config_slot s) 1 in
  let config := active_config s in
  let hal := active_hal s in
  let word w := U64 (kc_words s w) in [
  line "[drmid612] %s calls active/pre/post/bwr=%lu/%lu/%lu/%lu hal-gate=%lu identities=%u/%lu"
    [Text label; word active_calls; word pre_calls; word post_calls; word bwr_calls; word hal_gate_hits;
     U32 (hs_count hal); U64 (hs_generation hal)];
  line "[drmid612] %s streams BC/BR=%lu/%lu transactions=%lu/%lu boundary=%lu/%lu copy-fault=%lu/%lu"
    [Text label; word bc_commands; word br_commands; word bc_transaction_commands;
     word br_transaction_commands; word write_boundary_errors; word read_boundary_errors;
     word write_copy_faults; word read_copy_faults];
  line "[drmid612] %s server request/correlated/reply-no-pending=%lu/%lu/%lu pending push/pop/miss/stale/drop=%lu/%lu/%lu/%lu/%lu"
    [Text label; word server_request_hits; word correlated_reply_candidates; word reply_without_pending;
     word pending_pushes; word pending_pops; word pending_misses; word pending_generation_stale;
     word pending_lock_drops];
  line "[drmid612] %s replacement candidate/dry/write/fault/copy-fault=%lu/%lu/%lu/%lu/%lu config slot/gen/seed/mode/length/fingerprint=%u/%lu/%lu/%u/%u/%016lx"
    [Text label; word replacement_candidates; word replacement_dry_run_hits; word replacement_write_ok;
     word replacement_write_faults; word replacement_copy_to_user_faults; U32 config_slot;
     U64 (rc_config_generation config); U64 (rc_seed_generation config); U32 (rc_replacement_mode config);
     U32 (rc_virtual_id_length config); U64 (rc_profile_fingerprint config)]].

(** src/module_main.cpp:228-252 [print_recent_events] *)
Definition print_token_event (l : ReportLine) : string * list argument :=
  let event := rl_event l in
  let reply := rl_reply l in
  line "[drmid612] token-event id=%lu kind=%s tid/tgid=%u/%u target=%lu code=%u data=%lu token=%s@%u prefix=%u parcel_flags=%08x request=%lu reply=%lu/%lu status=%d array=%d@%u reply_flags=%08x"
    [U64 (ev_event_id event); Text (rl_kind l); U32 (ev_pid event); U32 (ev_tgid event);
     U64 (ev_target event); U32 (ev_code event); U64 (ev_data_size event); Text (rl_token l);
     U32 (ev_parcel_token_offset event); U32 (ev_parcel_prefix_size event); U32 (ev_parcel_flags event);
     U64 (ev_correlated_request_id event); U64 (ev_event_id reply); U64 (ev_data_size reply);
     Int (i32 (ev_reply_status_code reply)); Int (i32 (ev_reply_byte_array_length reply));
     U32 (ev_reply_byte_array_offset reply); U32 (ev_reply_flags reply)].

(** src/module_main.cpp:270-297 [print_recent_events] *)
Definition print_event (l : ReportLine) : string * list argument :=
  let event := rl_event l in
  line "[drmid612] event id=%lu kind=%s tid/tgid=%u/%u cmd=%08x target=%lu code=%u flags=%08x data=%lu offsets=%lu sender=%u/%u request=%lu token=%s@%u prefix=%u parcel_flags=%08x reply=%d/%d@%u/%08x"
    [U64 (ev_event_id event); Text (rl_kind l); U32 (ev_pid event); U32 (ev_tgid event);
     U32 (ev_command event); U64 (ev_target event); U32 (ev_code event); U32 (ev_flags event);
     U64 (ev_data_size event); U64 (ev_offsets_size event); U32 (ev_sender_pid event);
     U32 (ev_sender_euid event); U64 (ev_correlated_request_id event); Text (rl_token l);
     U32 (ev_parcel_token_offset event); U32 (ev_parcel_prefix_size event); U32 (ev_parcel_flags event);
     Int (i32 (ev_reply_status_code event)); Int (i32 (ev_reply_byte_array_length event));
     U32 (ev_reply_byte_array_offset event); U32 (ev_reply_flags event)].

(** src/module_main.cpp:228-306 [print_recent_events] *)
Definition print_report (r : EventReport) : list (string * list argument) :=
  (print_token_event <$> er_token_lines r) ++
  [line "[drmid612] token snapshot retained=%zu deviceUniqueId=%zu"
     [Size (er_token_events r); Size (er_device_events r)]] ++
  (print_event <$> er_lines r) ++
  [line "[drmid612] event snapshot printed=%zu correlated=%zu window=%lu..%lu"
     [Size (er_printed r); Size (er_correlated r); U64 (er_begin r); U64 (er_end r)]].

(** src/module_main.cpp:584-601 [run_readonly_parser_probe] *)
Definition print_identities (identities : HalIdentityConfig) (details : list HalProcessInfo)
    (config : ReplacementConfig) : list (string * list argument) :=
  [line "[drmid612] Widevine HAL identities generation=%lu count=%u"
     [U64 (hi_generation identities); U32 (hi_count identities)]] ++
  ((fun hal => line "[drmid612] HAL tgid=%u uid=%u exe=%s binder=%s"
      [U32 (hp_tgid hal); U32 (hp_uid hal); Text (hp_exe hal); Text (hp_binder_path hal)]) <$> details) ++
  [line "[drmid612] replacement mode=%s virtual_length=%u backend=hal-outbound-binder-global"
     [Text (if cfg_mode config =? mode_num kWriteTest then "write-test" else "dry-run");
      U32 (cfg_virtual_id_length config)]].

(** [context_bytes] is the size the compiler gives the context. *)

(** src/module_main.cpp:615-623 [run_readonly_parser_probe] *)
Definition print_installed (context_bytes pid : Z) (session : CounterHookSession)
    (identities : HalIdentityConfig) : list (string * list argument) := [
  line "[drmid612] Binder parser hook installed context=%p abi=%lu size=%zu"
    [Pointer (cs_context_kaddr session); U64 kCounterContextAbi; Size context_bytes];
  line "[drmid612] Binder entry gate=installer-tgid,widevine-hal-tgid installer-tgid=%d hal-count=%u"
    [Int pid; U32 (hi_count identities)]].

(** * Every line is defined, and is one line *)

Definition newlines (text : list Z) : nat := length (filter (.= 10) text).

(** The text of an argument is part of one line. *)
Definition inline (text : list Z) : Prop := newlines text = 0%nat.

Definition argument_inline (a : argument) : Prop :=
  match a with Text s => inline (bytes_of_string s) | _ => True end.

Lemma newlines_app a b : newlines (a ++ b) = (newlines a + newlines b)%nat.
Proof. unfold newlines. by rewrite filter_app, length_app. Qed.

Lemma inline_intro text : Forall (fun b => b <> 10) text -> inline text.
Proof.
  unfold inline, newlines. induction 1 as [|b text Hb Ht IH]; [done|]. by rewrite filter_cons_False.
Qed.

Lemma digits_inline s : all_digits s = true -> Forall (fun b => b <> 10) (bytes_of_string s).
Proof.
  induction s as [|c s IH]; [constructor|]. cbn [all_digits]. intros [Hc Hs]%andb_prop.
  constructor; [|by apply IH]. intros E. revert Hc. by rewrite <-(Ascii.ascii_nat_embedding c), (Nat2Z.inj _ 10 E).
Qed.

Lemma decimal_inline n : inline (decimal_text n).
Proof.
  apply inline_intro. unfold decimal_text.
  destruct (_ <? 0); [constructor; [done|]|]; apply digits_inline, pretty_digits.
Qed.

Lemma hex_digits_inline digits n : inline (hex_digits digits n).
Proof.
  apply inline_intro, Forall_fmap, Forall_forall. intros i _ E.
  pose proof (hex_digit_plain _ (low_nibble (Z.shiftr n (4 * (Z.of_nat digits - 1 - i))))) as Hp.
  unfold compose in E. by rewrite E in Hp.
Qed.

Section Lines.
Context (pointer_text : Z -> list Z) (Hpointer : forall n, inline (pointer_text n)).

Lemma value_inline hex a : argument_inline a -> inline (value_text pointer_text hex a).
Proof.
  destruct a, hex; cbn; intros Ha; first [done|apply decimal_inline|apply hex_digits_inline|apply Hpointer].
Qed.

(** A format with the arguments of its conversions is defined, and writes one line. *)
Lemma printf_from_line format : forall skip args,
  types_from skip format = Some (type_of <$> args) -> ends_line skip format = true ->
  Forall argument_inline args ->
  exists text, printf_from pointer_text skip format args = Some (text ++ [10]) /\ inline text.
Proof.
  induction format as [|c rest IH]; intros skip args Htypes Hends Hargs; [done|].
  destruct skip as [|skip]; [|by apply IH].
  cbn [types_from ends_line printf_from] in *.
  destruct (Ascii.eqb_spec c percent) as [->|Hpercent].
  - destruct (conversion_of _) as [cv|]; [|done]. cbn [mbind option_bind] in Htypes.
    destruct (types_from _ rest) as [types|] eqn:Erest; [|done]. apply (inj Some) in Htypes.
    destruct args as [|a args]; [done|]. apply (inj2 cons) in Htypes as [Ha ->].
    apply Forall_cons in Hargs as [Hin Hargs]. destruct (IH _ args Erest Hends Hargs) as (text & Hrun & Htext).
    rewrite decide_True by done. rewrite Hrun. exists (value_text pointer_text (cv_hex cv) a ++ text).
    split; [by rewrite <-app_assoc|]. unfold inline. rewrite newlines_app, Htext, value_inline; done.
  - destruct (Ascii.eqb_spec c newline) as [->|Hnewline].
    + apply bool_decide_eq_true in Hends as ->. destruct args; [|done]. by exists [].
    + destruct (IH 0%nat args Htypes Hends Hargs) as (text & -> & Htext).
      exists (Z.of_nat (Ascii.nat_of_ascii c) :: text). split; [done|].
      unfold inline, newlines. rewrite filter_cons_False; [exact Htext|].
      intros E. apply Hnewline. by rewrite <-(Ascii.ascii_nat_embedding c), (Nat2Z.inj _ 10 E).
Qed.

(** What a call must look like for its line to come out. *)
Definition print_ok (p : string * list argument) : Prop :=
  types_from 0 p.1 = Some (type_of <$> p.2) /\ ends_line 0 p.1 = true /\ Forall argument_inline p.2.

Lemma lines_ok prints :
  Forall print_ok prints ->
  exists texts, lines pointer_text prints = Some ((.++ [10]) <$> texts) /\ length texts = length prints /\
    Forall inline texts.
Proof.
  induction 1 as [|p prints (Htypes & Hends & Hargs) _ (texts & Hrun & Hl & Hin)]; [by exists []|].
  destruct (printf_from_line _ _ _ Htypes Hends Hargs) as (text & Hp & Htext).
  exists (text :: texts). unfold lines, printf in *. cbn [mapM]. rewrite Hp, Hrun.
  split; [done|]. split; [cbn; lia|by constructor].
Qed.

End Lines.

(** A line of the source, but for the texts among its arguments. *)
Ltac print_literal :=
  split; [vm_compute; reflexivity|split; [vm_compute; reflexivity|]];
  repeat (apply Forall_cons; split; [first [exact I|assumption|idtac]|]); try apply Forall_nil_2.

(** The calls of a list, one after another. *)
Ltac print_all := repeat (apply Forall_cons; split; [print_literal|]); try apply Forall_nil_2.

Lemma choice_inline (b : bool) s t :
  inline (bytes_of_string s) -> inline (bytes_of_string t) -> inline (bytes_of_string (if b then s else t)).
Proof. by destruct b. Qed.

Lemma print_resolution_ok r : Forall print_ok (print_resolution r).
Proof.
  print_all; cbn [argument_inline].
  - by destruct (br_backend r).
  - by destruct (br_file_f_op_source r).
  - by destruct (br_fops_unlocked_ioctl_source r).
  - by apply choice_inline.
Qed.

Lemma print_snapshot_ok label s : inline (bytes_of_string label) -> Forall print_ok (print_parser_snapshot label s).
Proof. intros Hlabel. print_all. Qed.

(** A line of the report shows names the code has. *)
Definition names_ok (l : ReportLine) : Prop :=
  inline (bytes_of_string (rl_kind l)) /\ inline (bytes_of_string (rl_token l)).

Lemma report_line_names event reply : names_ok (report_line event reply).
Proof.
  split; cbn [report_line rl_kind rl_token]; [by destruct (ev_kind event)|].
  unfold parcel_token_name. by apply choice_inline.
Qed.

Lemma print_token_event_ok l : names_ok l -> print_ok (print_token_event l).
Proof. intros [Hkind Htoken]. print_literal. Qed.

Lemma print_event_ok l : names_ok l -> print_ok (print_event l).
Proof. intros [Hkind Htoken]. print_literal. Qed.

Lemma report_names snapshot max_events :
  let report := print_recent_events snapshot max_events in
  Forall names_ok (er_token_lines report) /\ Forall names_ok (er_lines report).
Proof.
  cbv zeta. unfold print_recent_events. cbv zeta.
  rewrite (token_pass_spec snapshot _ _ [] 0 0) by (done || lia). rewrite event_pass_spec.
  cbn [er_token_lines er_lines app]. split; [apply Forall_take|]; apply Forall_fmap, Forall_forall;
    intros event _; apply report_line_names.
Qed.

Lemma print_report_ok snapshot max_events : Forall print_ok (print_report (print_recent_events snapshot max_events)).
Proof.
  destruct (report_names snapshot max_events) as [Htokens Hevents]. unfold print_report.
  rewrite !Forall_app. split_and!; [|print_all| |print_all]; apply Forall_fmap;
    (eapply Forall_impl; [eassumption|]); intros l; [apply print_token_event_ok|apply print_event_ok].
Qed.

Lemma print_identities_ok identities details config :
  Forall (fun hal => inline (bytes_of_string (hp_exe hal)) /\ inline (bytes_of_string (hp_binder_path hal))) details ->
  Forall print_ok (print_identities identities details config).
Proof.
  intros Hdetails. unfold print_identities. rewrite !Forall_app. split_and!.
  - print_all.
  - apply Forall_fmap. eapply Forall_impl; [exact Hdetails|]. intros hal [Hexe Hpath]. print_literal.
  - print_all. by apply choice_inline.
Qed.

Lemma print_installed_ok context_bytes pid session identities :
  Forall print_ok (print_installed context_bytes pid session identities).
Proof. print_all. Qed.

(** * What comes out *)

(** However the library writes pointers: the report of any context, whatever a racing
    handler left in the snapshot, is written without an undefined conversion, and as one
    line for each call. *)
Lemma report_printed pointer_text label snapshot max_events :
  (forall n, inline (pointer_text n)) -> inline (bytes_of_string label) ->
  exists texts, lines pointer_text (print_parser_snapshot label snapshot ++
      print_report (print_recent_events snapshot max_events)) = Some ((.++ [10]) <$> texts) /\
    Forall inline texts /\
    length texts = (6 + length (er_token_lines (print_recent_events snapshot max_events)) +
                    length (er_lines (print_recent_events snapshot max_events)))%nat.
Proof.
  intros Hpointer Hlabel.
  destruct (lines_ok pointer_text Hpointer _ (proj2 (Forall_app _ _ _)
    (conj (print_snapshot_ok label snapshot Hlabel) (print_report_ok snapshot max_events)))) as (texts & Hrun & Hl & Hin).
  exists texts. split; [exact Hrun|]. split; [exact Hin|]. rewrite Hl.
  unfold print_report. rewrite !length_app, !length_fmap. cbn. lia.
Qed.

(** A format short of an argument, and one with an argument of another width. *)
Example printf_missing : printf (fun _ => []) "%u/%lu" [U32 7] = None.
Proof. reflexivity. Qed.

Example printf_width : printf (fun _ => []) "%u" [U64 7] = None.
Proof. reflexivity. Qed.

Example printf_shown :
  printf (fun _ => []) "%s fd=%d entry=%08x" [Text "rust"; Int 7; U32 0xd503245f] =
    Some (bytes_of_string "rust fd=7 entry=d503245f").
Proof. vm_compute. reflexivity. Qed.

Lemma report_printed_witness :
  exists texts, lines (fun _ => []) (print_parser_snapshot "final" demo_recorded ++
      print_report (print_recent_events demo_recorded 16)) = Some ((.++ [10]) <$> texts) /\
    length texts = 9%nat.
Proof.
  destruct (report_printed (fun _ => []) "final" demo_recorded 16) as (texts & Hrun & _ & Hl); [done..|].
  exists texts. split; [exact Hrun|]. rewrite Hl. vm_compute. reflexivity.
Defined.
