(* ===== verification/Probes.v ===== *)
(** The diagnostic programs: they query the identifier through the DRM service, the
    media library or the vendor's OEMCrypto library, several times, and compare what
    they get.  The libraries are parameters; modelled are the expected identifier, the
    comparison, the exit code, and for aidl_drm_probe.cpp the objects it holds. *)

From S2P Require Import Prelude Posix FileLifecycle Returns ModuleProbe.

(** * Settings *)

(** src/aidl_drm_probe.cpp:127-135 [repeat_count] *)
Definition repeat_count (getenv : string -> option string) : Z :=
  match getenv "DRMID_REPEAT" with
  | None => 1
  | Some text =>
      match strtol10 (bytes_of_string text) with
      | Some (value, []) => if (1 <=? value) && (value <=? 1000) then value else 1
      | _ => 1
      end
  end.

(** src/tools/oemcrypto_direct_probe.cpp:55-63 [requested_repeats] *)
Definition requested_repeats (getenv : string -> option string) : Z :=
  match getenv "DRMID_REPEAT" with
  | None | Some EmptyString => 2
  | Some text =>
      match strtol10 (bytes_of_string text) with
      | Some (value, []) => if (1 <=? value) && (value <=? 1000) then value else 2
      | _ => 2
      end
  end.

(** Whether the answers have to match, must not match, or neither. *)

(** src/media_drm_probe.cpp:119-126 [main] *)
Definition expectation_pass (getenv : string -> option string) (expected_match : bool) : bool :=
  match getenv "DRMID_EXPECT_MATCH" with
  | None => true
  | Some enforce =>
      if String.eqb enforce "1" || String.eqb enforce "yes" then expected_match
      else if String.eqb enforce "0" || String.eqb enforce "no" then negb expected_match
      else true
  end.

Section Expected.
Context `{OperatingSystem}.
Context (fuel : nat) (getenv : string -> option string).

(** Empty when no file is named; [None] refuses. *)

(** src/aidl_drm_probe.cpp:103-125 [read_expected] *)
Definition read_expected : io (option (list Z)) :=
  match getenv "DRMID_EXPECTED_FILE" with
  | None | Some EmptyString => mret (Some [])
  | Some path =>
      fd ← sys_open_read path;
      match fd with
      | Opened content =>
          used ← read_loop fuel content 65 [];
          _ ← sys_ok;
          mret (if Nat.eqb (length used) 0 || (64 <? length used)%nat then None else Some used)
      | _ => mret None
      end
  end.

(** Exactly 32 bytes, and nothing behind them. *)

(** src/tools/oemcrypto_direct_probe.cpp:27-53 [read_expected] *)
Definition read_expected_exact : io (option (list Z)) :=
  match getenv "DRMID_EXPECTED_FILE" with
  | None | Some EmptyString => mret (Some [])
  | Some path =>
      fd ← sys_open_read path;
      match fd with
      | Opened content =>
          used ← read_loop fuel content 32 [];
          tail ← sys_read content (length used) 1;
          _ ← sys_ok;
          mret (if Nat.eqb (length used) 32 && match tail with Moved [] => true | _ => false end
                then Some used else None)
      | _ => mret None
      end
  end.

End Expected.

(** * Comparing the answers *)

Record observed := {
  ob_first : list Z;
  ob_stable : bool;
  ob_match : bool;
  ob_completed : nat;
}.

(** [None] is a query that failed; it ends the loop. *)

(** src/media_drm_probe.cpp:97-116 [main] *)
Fixpoint observe (expected : list Z) (answers : list (option (list Z))) (o : observed) : observed :=
  match answers with
  | [] => o
  | None :: _ => {| ob_first := ob_first o; ob_stable := false; ob_match := ob_match o;
                    ob_completed := ob_completed o |}
  | Some value :: answers =>
      let initial := Nat.eqb (ob_completed o) 0 in
      observe expected answers {|
        ob_first := if initial then value else ob_first o;
        ob_stable := if negb initial && negb (bool_decide (value = ob_first o)) then false else ob_stable o;
        ob_match := if negb (bool_decide (expected = [])) && negb (bool_decide (value = expected))
                    then false else ob_match o;
        ob_completed := S (ob_completed o) |}
  end.

(** src/media_drm_probe.cpp:90-96 [main] *)
Definition observe_all (expected : list Z) (repeats : Z) (answer : nat -> option (list Z)) : observed :=
  observe expected (answer <$> seq 0 (Z.to_nat repeats)) {|
    ob_first := []; ob_stable := true; ob_match := negb (bool_decide (expected = [])); ob_completed := 0 |}.

(** src/media_drm_probe.cpp:117-119 [main] *)
Definition expected_text (expected : list Z) (o : observed) : string :=
  if bool_decide (expected = []) then "unconfigured" else if ob_match o then "yes" else "no".

(** * The programs *)

Section Programs.
Context `{OperatingSystem}.
Context (fuel : nat) (getenv : string -> option string).

(** [answer n]: the bytes the library returns at the [n]th query, [None] when it fails
    or returns no array. *)

(** src/media_drm_probe.cpp:60-140 [main] *)
Definition media_main (created : bool) (answer : nat -> option (list Z)) : io Z :=
  if negb created then mret 2
  else
    expected ← read_expected fuel getenv;
    match expected with
    | None => mret 4
    | Some expected =>
        let o := observe_all expected (repeat_count getenv) answer in
        mret (if ob_stable o && expectation_pass getenv (ob_match o) then 0 else 3)
    end.

Record OemCalls := {
  oc_library : bool;
  oc_initialize : bool;
  oc_terminate : bool;
  oc_get_device_id : bool;
  oc_initialize_result : Z;
  oc_terminate_result : Z;
  oc_answer : nat -> Z * list Z;
}.

(** The result, and a length that fits the buffer. *)

(** src/tools/oemcrypto_direct_probe.cpp:127-135 [main] *)
Definition oem_answer (calls : OemCalls) (n : nat) : option (list Z) :=
  let '(result, id) := oc_answer calls n in
  if negb (result =? 0) || (256 <? length id)%nat then None else Some id.

(** src/tools/oemcrypto_direct_probe.cpp:67-178 [main] *)
Definition oemcrypto_main (calls : OemCalls) : io Z :=
  if negb (oc_library calls) then mret 2
  else if negb (oc_initialize calls) || negb (oc_terminate calls) || negb (oc_get_device_id calls) then mret 3
  else
    expected ← read_expected_exact fuel getenv;
    match expected with
    | None => mret 6
    | Some expected =>
        if negb (oc_initialize_result calls =? 0) then mret 4
        else
          let repeats := requested_repeats getenv in
          let o := observe_all expected repeats (oem_answer calls) in
          let stable := ob_stable o && (Z.of_nat (ob_completed o) =? repeats) in
          mret (if stable && expectation_pass getenv (ob_match o) && (oc_terminate_result calls =? 0)
                then 0 else 5)
    end.

(** All of a text as [strtoul] reads it. *)
Definition whole_number (text : string) : option Z :=
  let digits text := match digits_at 0 0 text with (_, S _, []) => true | _ => false end in
  let valid := match skip_space_bytes (bytes_of_string text) with
               | 45 :: text | 43 :: text => digits text
               | text => digits text
               end in
  if valid then Some (strtoul10 text) else None.

Record GeneratedCalls := {
  gc_setuid : Z -> bool;
  gc_library : bool;
  gc_symbol : bool;
  gc_factory : bool;
  gc_proxy : bool;
  gc_create : bool;
  gc_answer : nat -> option (list Z);
}.

(** The expected identifier is read before the privileges are dropped. *)

(** src/aidl_drm_generated_probe.cpp:93-101 [main] *)
Definition drop_euid (calls : GeneratedCalls) : bool :=
  match getenv "DRMID_DROP_EUID" with
  | None => true
  | Some text =>
      match whole_number text with
      | Some value => (value <=? UINT32_MAX) && gc_setuid calls value
      | None => false
      end
  end.

(** src/aidl_drm_generated_probe.cpp:162-171 [main] *)
Definition mark_done : io unit :=
  match getenv "DRMID_DONE_FILE" with
  | None => mret tt
  | Some path =>
      fd ← sys_open_write false path;
      if (fd : bool) then _ ← sys_ok; mret tt else mret tt
  end.

(** src/aidl_drm_generated_probe.cpp:82-186 [main] *)
Definition generated_main (calls : GeneratedCalls) : io Z :=
  expected ← read_expected fuel getenv;
  match expected with
  | None => mret 6
  | Some expected =>
      if negb (drop_euid calls) then mret 1
      else if negb (gc_library calls) || negb (gc_symbol calls) then mret 2
      else if negb (gc_factory calls) then mret 3
      else if negb (gc_proxy calls) then mret 4
      else if negb (gc_create calls) then mret 5
      else
        let o := observe_all expected (repeat_count getenv) (gc_answer calls) in
        _ ← mark_done;
        mret (if ob_stable o && negb (bool_decide (ob_first o = [])) then 0 else 7)
  end.

End Programs.

(** * The objects of aidl_drm_probe.cpp *)

Inductive resource := Library | Factory | Plugin | Input | Output.

#[global] Instance resource_eq_dec : EqDecision resource.
Proof. solve_decision. Defined.

Inductive object_event := Acquire (r : resource) | Release (r : resource).

(** A call that reports success or failure and leaves an object in a pointer or not:
    what happens to the object does not depend on the report. *)
Record call := {
  ca_ok : bool;
  ca_object : bool;
}.

Definition acquired (r : resource) (c : call) : list object_event :=
  if ca_object c then [Acquire r] else [].
Definition released (r : resource) (held : bool) : list object_event :=
  if held then [Release r] else [].

Record UuidCalls := {
  uc_start : Z;
  uc_size : bool;
  uc_bytes : bool;
  uc_end : Z;
  uc_back : bool;
  uc_patch : bool;
  uc_forward : bool;
}.

(** src/aidl_drm_probe.cpp:60-71 [write_uuid] *)
Definition write_uuid (calls : UuidCalls) : bool :=
  if (uc_start calls <? 0) || negb (uc_size calls) || negb (uc_bytes calls) then false
  else (uc_start calls <=? uc_end calls) && uc_back calls && uc_patch calls && uc_forward calls.

(** The header was read, and the status in it is ok. *)

(** src/aidl_drm_probe.cpp:73-92 [read_status_ok] *)
Definition read_status_ok (header : call) (is_ok : bool) : bool :=
  if negb (ca_ok header) || negb (ca_object header) then false else is_ok.

(** What reading a byte array into the allocator delivers; a null array has length -1. *)

(** src/aidl_drm_probe.cpp:94-101 [read_bytes_allocator] *)
Definition read_bytes_allocator (length : Z) (bytes : list Z) : option (list Z) :=
  if (length <? 0) || (4096 <? length) then None else Some (take (Z.to_nat length) bytes).

Record QueryCalls := {
  qc_prepare : call;
  qc_name : bool;
  qc_transact : call;
  qc_header : call;
  qc_status : bool;
  qc_read : bool;
  qc_length : Z;
  qc_bytes : list Z;
}.

(** One query: transact takes the input parcel over, whatever it reports. *)

(** src/aidl_drm_probe.cpp:222-249 [main] *)
Definition query (calls : QueryCalls) : option (list Z) * list object_event :=
  let sent := ca_ok (qc_prepare calls) && qc_name calls in
  let input := ca_object (qc_prepare calls) in
  let output := sent && ca_object (qc_transact calls) in
  let value :=
    if sent && ca_ok (qc_transact calls) && output && read_status_ok (qc_header calls) (qc_status calls) &&
       qc_read calls
    then read_bytes_allocator (qc_length calls) (qc_bytes calls) else None in
  (value,
   acquired Input (qc_prepare calls) ++ released Input (sent && input) ++
   (if output then [Acquire Output] else []) ++
   match value with
   | Some _ => [Release Output]
   | None => released Input (negb sent && input) ++ released Output output
   end).

(** The queries that are made, up to the first that fails. *)

(** src/aidl_drm_probe.cpp:222-256 [main] *)
Fixpoint queries (calls : list QueryCalls) : list (option (list Z)) * list object_event :=
  match calls with
  | [] => ([], [])
  | c :: calls =>
      let '(value, events) := query c in
      match value with
      | Some _ => let '(values, more) := queries calls in (value :: values, events ++ more)
      | None => ([None], events)
      end
  end.

Record AidlCalls := {
  ac_library : bool;
  ac_symbol : bool;
  ac_factory : bool;
  ac_factory_class : bool;
  ac_prepare : call;
  ac_uuid : UuidCalls;
  ac_package : bool;
  ac_transact : call;
  ac_header : call;
  ac_status : bool;
  ac_plugin : call;
  ac_plugin_class : bool;
  ac_query : nat -> QueryCalls;
}.

(** Creating the plugin. *)

(** src/aidl_drm_probe.cpp:166-199 [main] *)
Definition create_plugin (calls : AidlCalls) : bool * list object_event :=
  let sent := ca_ok (ac_prepare calls) && write_uuid (ac_uuid calls) && ac_package calls in
  let input := ca_object (ac_prepare calls) in
  let output := sent && ca_object (ac_transact calls) in
  let created := sent && ca_ok (ac_transact calls) && output &&
                 read_status_ok (ac_header calls) (ac_status calls) in
  (created,
   acquired Input (ac_prepare calls) ++ released Input (sent && input) ++
   (if output then [Acquire Output] else []) ++
   (if created then [] else released Input (negb sent && input) ++ released Output output)).

Section Aidl.
Context `{OperatingSystem}.
Context (fuel : nat) (getenv : string -> option string).

(** src/aidl_drm_probe.cpp:201-265 [main] *)
Definition query_plugin (calls : AidlCalls) : io (Z * list object_event) :=
  let answered := acquired Plugin (ac_plugin calls) ++ [Release Output; Release Factory] in
  if negb (ca_ok (ac_plugin calls)) || negb (ca_object (ac_plugin calls)) || negb (ac_plugin_class calls)
  then mret (6, answered ++ released Plugin (ca_object (ac_plugin calls)) ++ [Release Library])
  else
    expected ← read_expected fuel getenv;
    match expected with
    | None => mret (7, answered ++ [Release Plugin; Release Library])
    | Some expected =>
        let '(values, events) := queries (ac_query calls <$> seq 0 (Z.to_nat (repeat_count getenv))) in
        let o := observe expected values {|
          ob_first := []; ob_stable := true; ob_match := negb (bool_decide (expected = []));
          ob_completed := 0 |} in
        mret (if ob_stable o && negb (bool_decide (ob_first o = [])) then 0 else 8,
              answered ++ events ++ [Release Plugin; Release Library])
    end.

(** src/aidl_drm_probe.cpp:141-265 [main] *)
Definition aidl_main (calls : AidlCalls) : io (Z * list object_event) :=
  let library := if ac_library calls then [Acquire Library] else [] in
  if negb (ac_library calls) || negb (ac_symbol calls)
  then mret (2, library ++ released Library (ac_library calls))
  else if negb (ac_factory calls) then mret (3, library ++ [Release Library])
  else if negb (ac_factory_class calls)
  then mret (4, library ++ [Acquire Factory; Release Factory; Release Library])
  else
    let '(created, events) := create_plugin calls in
    let opened := library ++ [Acquire Factory] ++ events in
    if negb created then mret (5, opened ++ [Release Factory; Release Library])
    else '(code, events) ← query_plugin calls; mret (code, opened ++ events).

End Aidl.

(** What is held after some events; [None] when an object is taken twice, or given back
    without being held. *)
Fixpoint held (events : list object_event) (have : list resource) : option (list resource) :=
  match events with
  | [] => Some have
  | Acquire r :: events => if bool_decide (r ∈ have) then None else held events (r :: have)
  | Release r :: events =>
      if bool_decide (r ∈ have) then held events (filter (fun x => x <> r) have) else None
  end.

(** * Facts *)

Lemma held_app events more have :
  held (events ++ more) have = have' ← held events have; held more have'.
Proof.
  revert have. induction events as [|[r|r] events IH]; intros have; [done|..]; cbn;
    case_bool_decide; by rewrite ?IH.
Qed.

(** A query gives back what it took, whichever of its calls fail. *)
Lemma query_balanced calls : held (query calls).2 [Plugin; Library] = Some [Plugin; Library].
Proof.
  destruct calls as [[prepare_ok prepare_object] name [transact_ok transact_object] header status read length bytes].
  unfold query. cbn [qc_prepare qc_name qc_transact qc_header qc_status qc_read qc_length qc_bytes ca_ok ca_object].
  destruct (read_status_ok header status), prepare_ok, prepare_object, name, transact_ok, transact_object, read;
    cbn; try destruct (read_bytes_allocator length bytes); reflexivity.
Qed.

Lemma queries_balanced calls : held (queries calls).2 [Plugin; Library] = Some [Plugin; Library].
Proof.
  induction calls as [|c calls IH]; [done|]. cbn [queries]. pose proof (query_balanced c) as Hc.
  destruct (query c) as [[value|] events]; [|exact Hc]. destruct (queries calls) as [values more].
  cbn [snd] in *. rewrite held_app, Hc. exact IH.
Qed.

Lemma create_balanced calls :
  held (create_plugin calls).2 [Factory; Library] =
    Some (if (create_plugin calls).1 then [Output; Factory; Library] else [Factory; Library]).
Proof.
  destruct calls as [library symbol factory class [prepare_ok prepare_object] uuid package
    [transact_ok transact_object] header status plugin plugin_class next_query].
  unfold create_plugin. cbn [ac_prepare ac_uuid ac_package ac_transact ac_header ac_status ca_ok ca_object].
  destruct (read_status_ok header status), (write_uuid uuid), prepare_ok, prepare_object, package, transact_ok,
    transact_object; reflexivity.
Qed.

(** The queries that were made, as far as the comparison looks at them. *)
Lemma observe_queries expected calls o :
  observe expected (queries calls).1 o = observe expected ((fun c => (query c).1) <$> calls) o.
Proof.
  revert o. induction calls as [|c calls IH]; intros o; [done|].
  change (observe expected (queries (c :: calls)).1 o =
    observe expected ((query c).1 :: ((fun c => (query c).1) <$> calls)) o).
  cbn [queries]. destruct (query c) as [[value|] events]; [|done].
  destruct (queries calls) as [values more]. apply IH.
Qed.

(** The comparison from the second answer on. *)
Lemma observe_from expected answers o :
  (1 <= ob_completed o)%nat ->
  let final := observe expected answers o in
  ob_first final = ob_first o /\ (ob_stable final = true ->
    ob_stable o = true /\ Forall (fun answer => answer = Some (ob_first o)) answers) /\
  (ob_stable o = true -> Forall (fun answer => answer = Some (ob_first o)) answers ->
     ob_stable final = true /\ ob_completed final = (ob_completed o + length answers)%nat /\
     (ob_match o = negb (bool_decide (expected = [])) && bool_decide (ob_first o = expected) ->
      ob_match final = ob_match o)).
Proof.
  revert o. induction answers as [|[value|] answers IH]; intros o Hcompleted; cbv zeta.
  { cbn. split; [done|]. split; [intros Hs; by split; [|constructor]|].
    intros Hs _. split; [exact Hs|]. split; [lia|done]. }
  - cbn [observe]. rewrite (proj2 (Nat.eqb_neq (ob_completed o) 0)) by lia. cbn [negb andb].
    set (o1 := Build_observed _ _ _ _). destruct (IH o1 ltac:(cbn; lia)) as (Hfirst & Hback & Hforth).
    cbn [ob_first ob_stable ob_match ob_completed o1] in *. split; [exact Hfirst|]. split.
    + intros Hstable. destruct (Hback Hstable) as [Hs Hall].
      destruct (bool_decide_reflect (value = ob_first o)) as [->|]; [|done]. split; [exact Hs|by constructor].
    + intros Hs Hall. apply Forall_cons in Hall as [Hv Hall]. apply (inj Some) in Hv as ->.
      rewrite bool_decide_true in Hforth by done. destruct (Hforth Hs Hall) as (H1 & H2 & H3).
      split; [exact H1|]. split; [rewrite H2; cbn [length]; lia|]. intros Hmatch.
      rewrite H3; [|]; destruct (bool_decide_reflect (expected = [])), (bool_decide_reflect (ob_first o = expected));
        cbn [negb andb] in *; congruence.
  - cbn [observe]. split; [done|]. split; [done|]. intros _ Hall. by apply Forall_cons in Hall as [? _].
Qed.

(** Stable is what answered every query with one and the same identifier. *)
Lemma observe_all_spec expected repeats answer :
  1 <= repeats ->
  let o := observe_all expected repeats answer in
  (ob_stable o = true <-> exists id, forall n, (n < Z.to_nat repeats)%nat -> answer n = Some id) /\
  (ob_stable o = true -> Some (ob_first o) = answer 0%nat /\ Z.of_nat (ob_completed o) = repeats /\
     ob_match o = negb (bool_decide (expected = [])) && bool_decide (ob_first o = expected)).
Proof.
  intros Hrepeats. cbv zeta. unfold observe_all.
  destruct (Z.to_nat repeats) as [|m] eqn:Em; [lia|]. cbn [seq fmap list_fmap].
  destruct (answer 0%nat) as [id|] eqn:E0; cycle 1.
  { cbn. split; [|done]. split; [done|]. intros [id Hid]. specialize (Hid 0%nat ltac:(lia)). congruence. }
  cbn [observe Nat.eqb ob_completed negb andb]. set (o1 := Build_observed _ _ _ _).
  destruct (observe_from expected (answer <$> seq 1 m) o1) as (Hfirst & Hback & Hforth); [cbn; lia|].
  cbn [ob_first ob_stable ob_match ob_completed o1] in *.
  assert (Hall : Forall (fun a => a = Some id) (answer <$> seq 1 m) <->
    forall n, (n < S m)%nat -> answer n = Some id).
  { rewrite Forall_fmap, Forall_seq. split; [|intros Hn i Hi; apply Hn; lia].
    intros Hi [|n] Hn; [exact E0|]. apply Hi. lia. }
  split.
  - split; [intros Hs; exists id; apply Hall; by apply Hback|].
    intros [id' Hid]. assert (id' = id) as -> by (specialize (Hid 0%nat ltac:(lia)); congruence).
    by apply Hforth; [|apply Hall].
  - intros Hs. destruct (Hforth eq_refl (proj2 (Hback Hs))) as (_ & Hcompleted & Hmatch).
    rewrite Hfirst. split; [done|]. split; [rewrite Hcompleted, length_fmap, length_seq; lia|].
    rewrite Hmatch; destruct (bool_decide_reflect (expected = [])), (bool_decide_reflect (id = expected)); done.
Qed.

Lemma repeat_count_range getenv : 1 <= repeat_count getenv <= 1000.
Proof.
  unfold repeat_count. destruct (getenv _) as [text|]; [|lia]. destruct (strtol10 _) as [[value [|]]|]; [|lia..].
  destruct (Z.leb_spec 1 value), (Z.leb_spec value 1000); cbn [andb]; lia.
Qed.

Lemma requested_repeats_range getenv : 1 <= requested_repeats getenv <= 1000.
Proof.
  unfold requested_repeats. destruct (getenv _) as [[|c text]|]; [lia| |lia].
  destruct (strtol10 _) as [[value [|]]|]; [|lia..].
  destruct (Z.leb_spec 1 value), (Z.leb_spec value 1000); cbn [andb]; lia.
Qed.

(** What the queries give when all of them give the same. *)
Definition same_answer (repeats : Z) (answer : nat -> option (list Z)) (id : list Z) : Prop :=
  forall n, (n < Z.to_nat repeats)%nat -> answer n = Some id.

Definition matches (expected id : list Z) : bool :=
  negb (bool_decide (expected = [])) && bool_decide (id = expected).

(** The verdict over the answers: [pass] is what else is asked of the first. *)
Lemma observe_verdict expected repeats answer (pass : list Z -> bool -> bool) :
  1 <= repeats ->
  let o := observe_all expected repeats answer in
  ob_stable o && pass (ob_first o) (ob_match o) = true <->
  exists id, same_answer repeats answer id /\ pass id (matches expected id) = true.
Proof.
  intros Hrepeats. cbv zeta. destruct (observe_all_spec expected repeats answer Hrepeats) as [Hstable Hrest].
  rewrite andb_true_iff. split.
  - intros [Hs Hpass]. destruct (Hrest Hs) as (Hfirst & _ & Hmatch). destruct (proj1 Hstable Hs) as [id Hid].
    exists id. split; [done|]. rewrite (Hid 0%nat) in Hfirst by lia. apply (inj Some) in Hfirst.
    rewrite Hmatch, Hfirst in Hpass. exact Hpass.
  - intros (id & Hid & Hpass). assert (Hs : ob_stable (observe_all expected repeats answer) = true)
      by (apply Hstable; by exists id).
    split; [done|]. destruct (Hrest Hs) as (Hfirst & _ & ->). rewrite (Hid 0%nat) in Hfirst by lia.
    apply (inj Some) in Hfirst as ->. exact Hpass.
Qed.

Section Runs.
Context `{OperatingSystem}.
Context (B fuel : nat) (HB : responsive B) (Hfuel : (B * 300 <= fuel)%nat).
Context (getenv : string -> option string).

Lemma returns_read_expected : Returns (read_expected fuel getenv).
Proof.
  unfold read_expected. each_returns. apply (returns_read_loop B); [done|done|lia].
Qed.

Lemma returns_read_expected_exact : Returns (read_expected_exact fuel getenv).
Proof.
  unfold read_expected_exact. each_returns. apply (returns_read_loop B); [done|done|lia].
Qed.

Lemma returns_mark_done : Returns (mark_done getenv).
Proof. unfold mark_done. each_returns. Qed.

End Runs.

Lemma code_zero (b : bool) (other : Z) : other <> 0 -> ((if b then 0 else other) = 0 <-> b = true).
Proof. intros Hne. destruct b; [done|]. split; [done|discriminate]. Qed.

Lemma media_verdict `{OperatingSystem} B fuel getenv created answer w :
  responsive B -> (B * 300 <= fuel)%nat ->
  exists expected w1 code w',
    read_expected fuel getenv w = Some (expected, w1) /\
    media_main fuel getenv created answer w = Some (code, w') /\
    (code = 0 <-> created = true /\ exists e id, expected = Some e /\
        same_answer (repeat_count getenv) answer id /\ expectation_pass getenv (matches e id) = true).
Proof.
  intros HB Hfuel. destruct (returns_read_expected B fuel HB Hfuel getenv w) as [[expected w1] Hread].
  exists expected, w1. unfold media_main. destruct created; cbn [negb].
  2: { exists 2, w. split_and!; [done..|]. split; [discriminate|by intros []]. }
  unfold mbind, io_bind. rewrite Hread. destruct expected as [e|].
  2: { exists 4, w1. split_and!; [done..|]. split; [discriminate|by intros (_ & e & id & ? & _)]. }
  eexists _, w1. split; [done|]. split; [done|]. rewrite code_zero by done.
  rewrite (observe_verdict e (repeat_count getenv) answer (fun _ m => expectation_pass getenv m))
    by apply repeat_count_range.
  split; [intros (id & Hid & Hpass); split; [done|]; by exists e, id|].
  intros (_ & e' & id & He & Hid & Hpass). apply (inj Some) in He as <-. by exists id.
Qed.

Lemma oemcrypto_verdict `{OperatingSystem} B fuel getenv calls w :
  responsive B -> (B * 300 <= fuel)%nat ->
  exists expected w1 code w',
    read_expected_exact fuel getenv w = Some (expected, w1) /\
    oemcrypto_main fuel getenv calls w = Some (code, w') /\
    (code = 0 <-> oc_library calls = true /\
      (oc_initialize calls && oc_terminate calls && oc_get_device_id calls = true) /\
      oc_initialize_result calls = 0 /\ oc_terminate_result calls = 0 /\ exists e id, expected = Some e /\
        same_answer (requested_repeats getenv) (oem_answer calls) id /\
        expectation_pass getenv (matches e id) = true).
Proof.
  intros HB Hfuel. destruct (returns_read_expected_exact B fuel HB Hfuel getenv w) as [[exact w2] Hexact].
  exists exact, w2. unfold oemcrypto_main. destruct (oc_library calls); cbn [negb].
  2: { exists 2, w. split_and!; [done..|]. split; [discriminate|by intros []]. }
  destruct (oc_initialize calls), (oc_terminate calls), (oc_get_device_id calls); cbn [negb orb andb];
    try (exists 3, w; split_and!; [done..|]; split; [discriminate|by intros (_ & ? & _)]).
  unfold mbind, io_bind. rewrite Hexact. destruct exact as [e|].
  2: { exists 6, w2. split_and!; [done..|]. split; [discriminate|by intros (_ & _ & _ & _ & e & id & ? & _)]. }
  destruct (Z.eqb_spec (oc_initialize_result calls) 0) as [Hi|Hi]; cbn [negb].
  2: { exists 4, w2. split_and!; [done..|]. split; [discriminate|by intros (_ & _ & ? & _)]. }
  eexists _, w2. split; [done|]. split; [done|]. rewrite code_zero by done.
  set (o := observe_all e (requested_repeats getenv) (oem_answer calls)).
  assert (Hcompleted : ob_stable o && (Z.of_nat (ob_completed o) =? requested_repeats getenv) = ob_stable o).
  { destruct (ob_stable o) eqn:Hs; [|done]. apply Z.eqb_eq.
    apply (observe_all_spec e _ (oem_answer calls) (proj1 (requested_repeats_range getenv))). exact Hs. }
  rewrite Hcompleted, andb_true_iff, Z.eqb_eq. unfold o.
  rewrite (observe_verdict e (requested_repeats getenv) (oem_answer calls) (fun _ m => expectation_pass getenv m))
    by apply requested_repeats_range.
  split; [intros [(id & Hid & Hpass) Ht]; split_and!; [done..|]; by exists e, id|].
  intros (_ & _ & _ & Ht & e' & id & He & Hid & Hpass). apply (inj Some) in He as <-. split; [by exists id|done].
Qed.

Lemma generated_verdict `{OperatingSystem} B fuel getenv calls w :
  responsive B -> (B * 300 <= fuel)%nat ->
  exists expected w1 code w',
    read_expected fuel getenv w = Some (expected, w1) /\
    generated_main fuel getenv calls w = Some (code, w') /\
    (code = 0 <-> drop_euid getenv calls = true /\
      (gc_library calls && gc_symbol calls && gc_factory calls && gc_proxy calls && gc_create calls = true) /\
      is_Some expected /\ exists id, same_answer (repeat_count getenv) (gc_answer calls) id /\ id <> []).
Proof.
  intros HB Hfuel. destruct (returns_read_expected B fuel HB Hfuel getenv w) as [[expected w1] Hread].
  exists expected, w1. unfold generated_main. unfold mbind at 1, io_bind. rewrite Hread.
  destruct expected as [e|].
  2: { exists 6, w1. split_and!; [done..|]. split; [discriminate|by intros (_ & _ & [] & _)]. }
  destruct (drop_euid getenv calls); cbn [negb].
  2: { exists 1, w1. split_and!; [done..|]. split; [discriminate|by intros []]. }
  destruct (gc_library calls), (gc_symbol calls), (gc_factory calls), (gc_proxy calls), (gc_create calls);
    cbn [negb orb andb];
    try (eexists _, w1; split; [done|]; split; [done|]; split; [discriminate|by intros (_ & ? & _)]).
  destruct (returns_mark_done getenv w1) as [[[] w3] Hmark]. unfold mbind, io_bind. rewrite Hmark.
  eexists _, w3. split; [done|]. split; [done|]. rewrite code_zero by done.
  pose proof (observe_verdict e (repeat_count getenv) (gc_answer calls)
    (fun id _ => negb (bool_decide (id = []))) (proj1 (repeat_count_range getenv))) as Hverdict.
  cbv beta zeta in Hverdict. rewrite Hverdict.
  split.
  + intros (id & Hid & Hne). split_and!; [done..|]. exists id. split; [done|].
    by apply negb_true_iff, bool_decide_eq_false in Hne.
  + intros (_ & _ & _ & id & Hid & Hne). exists id. split; [done|]. by apply negb_true_iff, bool_decide_eq_false.
Qed.

(** the exit code of a probe: on a system that answers one of any [B] calls each of the
    programs comes to an end, and it exits with 0 exactly when its libraries are there,
    the expected identifier could be read, and every one of the queries it was asked to
    make delivered one and the same identifier, which for the media library and for
    OEMCrypto also meets what was asked of the match, and through the service is not
    empty. *)
Lemma probe_verdict_exact `{OperatingSystem} B fuel getenv w :
  responsive B -> (B * 300 <= fuel)%nat ->
  (forall created answer, exists expected w1 code w',
     read_expected fuel getenv w = Some (expected, w1) /\
     media_main fuel getenv created answer w = Some (code, w') /\
     (code = 0 <-> created = true /\ exists e id, expected = Some e /\
        same_answer (repeat_count getenv) answer id /\ expectation_pass getenv (matches e id) = true)) /\
  (forall calls, exists expected w1 code w',
     read_expected_exact fuel getenv w = Some (expected, w1) /\
     oemcrypto_main fuel getenv calls w = Some (code, w') /\
     (code = 0 <-> oc_library calls = true /\
        (oc_initialize calls && oc_terminate calls && oc_get_device_id calls = true) /\
        oc_initialize_result calls = 0 /\ oc_terminate_result calls = 0 /\ exists e id, expected = Some e /\
        same_answer (requested_repeats getenv) (oem_answer calls) id /\
        expectation_pass getenv (matches e id) = true)) /\
  (forall calls, exists expected w1 code w',
     read_expected fuel getenv w = Some (expected, w1) /\
     generated_main fuel getenv calls w = Some (code, w') /\
     (code = 0 <-> drop_euid getenv calls = true /\
        (gc_library calls && gc_symbol calls && gc_factory calls && gc_proxy calls && gc_create calls = true) /\
        is_Some expected /\ exists id, same_answer (repeat_count getenv) (gc_answer calls) id /\ id <> [])).
Proof.
  intros HB Hfuel. split_and!; intros.
  - by apply (media_verdict B).
  - by apply (oemcrypto_verdict B).
  - by apply (generated_verdict B).
Qed.

(** the objects of the service's probe: whichever calls fail and whatever they leave in
    their pointers, the program comes to an end having given back every object it was
    handed, and none twice. *)
Lemma aidl_objects_balanced `{OperatingSystem} B fuel getenv calls w :
  responsive B -> (B * 300 <= fuel)%nat ->
  exists code events w', aidl_main fuel getenv calls w = Some ((code, events), w') /\
    held events [] = Some [].
Proof.
  intros HB Hfuel. unfold aidl_main.
  destruct (ac_library calls), (ac_symbol calls); cbn [negb orb app released];
    try (eexists _, _, w; split; [done|reflexivity]).
  destruct (ac_factory calls); cbn [negb]; [|eexists _, _, w; split; [done|reflexivity]].
  destruct (ac_factory_class calls); cbn [negb]; [|eexists _, _, w; split; [done|reflexivity]].
  pose proof (create_balanced calls) as Hcreate. destruct (create_plugin calls) as [created events].
  cbn [fst snd] in Hcreate.
  assert (Hopened : forall more, held ((Acquire Library :: Acquire Factory :: events) ++ more) [] =
    held more (if created then [Output; Factory; Library] else [Factory; Library])).
  { intros more. rewrite <-!app_comm_cons. cbn. rewrite held_app, Hcreate. done. }
  destruct created; cbn [negb].
  2: { eexists _, _, w. split; [done|]. etransitivity; [exact (Hopened _)|reflexivity]. }
  unfold query_plugin. destruct (ac_plugin calls) as [plugin_ok plugin_object]. cbn [ca_ok ca_object acquired].
  destruct plugin_ok, plugin_object, (ac_plugin_class calls); cbn [negb orb];
    try (eexists _, _, w; split; [done|]; (etransitivity; [exact (Hopened _)|reflexivity])).
  destruct (returns_read_expected B fuel HB Hfuel getenv w) as [[expected w1] Hread].
  unfold mbind, io_bind. rewrite Hread. destruct expected as [expected|].
  2: { eexists _, _, w1. split; [done|]. etransitivity; [exact (Hopened _)|reflexivity]. }
  set (asked := ac_query calls <$> _). pose proof (queries_balanced asked) as Hqueries.
  destruct (queries asked) as [values more]. eexists _, _, w1. split; [done|]. etransitivity; [exact (Hopened _)|].
  etransitivity; [exact (held_app more [Release Plugin; Release Library] [Plugin; Library])|].
  cbn [snd] in Hqueries. rewrite Hqueries. reflexivity.
Qed.

(** A probe whose first query fails still says that the expected identifier matched. *)
Lemma unread_match_reported expected repeats answer :
  expected <> [] -> 1 <= repeats -> answer 0%nat = None ->
  expected_text expected (observe_all expected repeats answer) = "yes".
Proof.
  intros Hne Hrepeats Hnone. unfold observe_all. destruct (Z.to_nat repeats) as [|m] eqn:E; [lia|].
  cbn [seq fmap list_fmap]. rewrite Hnone. unfold expected_text. cbn.
  by rewrite (bool_decide_false (expected = [])) by done.
Qed.
